(* ===== verification/_CoqProject ===== *)
-Q . S2P
Prelude.v
Json.v
PyText.v
Migrations.v
SqlText.v
Refs.v
Schema.v
NodeQueue.v
Claim.v
Reclaim.v
RunStore.v
Workflow.v
Dispatcher.v
Executor.v
Ingest.v
Watchdogs.v
WorkerLanes.v
DbAccess.v
WorkerControl.v
ServerSwitch.v
ModelLease.v
Catalog.v
LlmProbe.v
HwWatch.v
Residency.v
LlmContext.v
CatalogRows.v
ServerContext.v
ContextLever.v
RogueLlm.v
Backends.v
IdleUnload.v
ModelCache.v
BoxDriver.v
Advertise.v
Hold.v
JobRun.v
Assign.v
Scheduler.v
InputSpec.v
Intake.v
BoxAgent.v
Comfy.v
Telemetry.v
Snapshots.v
WorkerProcess.v
Config.v
NodeCall.v
NodePool.v
BoxLevers.v
System.v
