(* ===== verification/Prelude.v ===== *)
(** * A verification library for the broker_parrot job engine

    broker_parrot ([src/queue_workflows]) is a job engine that keeps all of its
    state in one SQL database.  A host application writes a row into
    [workflow_runs]; the orchestrator expands the run's workflow, a DAG of
    pipeline nodes, into rows of [node_jobs]; worker processes on many machines
    claim the rows, lane by lane (cpu, download, gpu), run the nodes and write
    the result back together with a row of the outbox [dispatch_events]; the
    orchestrator drains the outbox and expands what has become ready.  Leases
    and heartbeats let sweeps recover the rows of workers that died.  A second,
    flat queue ([ingest_jobs]) runs periodic tasks off a schedule.  A gpu worker
    also governs its machine: which LLM server runs, which model is on the card,
    how large a context window, and when the box serves nobody.  An agent per box
    keeps the worker processes running.  This library models the loop from the
    enqueue to the end of the run, the machine a gpu worker keeps, and the layer
    both stand on (migrations, dialects, connections, settings).

    ** The parts, and where each one is

    - [Prelude]: exceptions as values ([result]), the notations and tactics,
      and the lemmas shared by all files: tables as lists of rows with an
      UPDATE .. WHERE .. RETURNING ([update_where], [returning]), counting, SQL's
      three-valued logic, and ORDER BY .. LIMIT 1 ([first_by]).
    - [Json]: the JSON values the engine stores, Python's truthiness, [==] and
      string methods on them; [PyText]: the rest of the text the sources handle
      (replace, splitlines, regular expressions as matchers, decimal numbers).
    - [Config] ([config.py], [__init__.py]): the settings, [configure] and the
      setters of a host, the resolution of a node's module.
    - [Migrations], [SqlText], [DbAccess] ([db.py], [dialect.py]): the migration
      runner on both stores, the two dialects and the translation of a statement
      to SQLite, connection strings, retries, the pool, nested transactions.
    - [Refs] ([refs.py]): [resolve_ref], the reference language of workflow
      definitions.
    - [Schema] ([migrations/*.sql]): the tables as records, the [world] (all
      the tables, the clock, the id supply), the schema constraints [db_ok],
      and the state-and-exception monad [M] every function on the database is
      written in, with its [transaction].
    - [NodeQueue] ([node_queue.py]): [enqueue_node_job] and its normalisers,
      the terminal marks, retries, cancellations, outbox and event log.
    - [Claim] ([node_queue.py]): [claim_next_cpu_job],
      [claim_next_download_job], [claim_next_gpu_job] as one statement
      [claim_sql] with the WHERE terms and arbiters the code composes, and the
      views that have to agree with it (pool deferral, the context election, the
      queue probes).
    - [CatalogRows], [Snapshots] ([node_queue.py]): the published rows of the
      model catalog and the profiles of starts; the read models of an operator.
    - [Reclaim] ([node_queue.py]): expired and frozen leases, the over-claim
      reaper, shutdown and stale-worker requeues, heartbeats.
    - [RunStore] ([run_store.py]): the operations on [workflow_runs].
    - [Workflow], [Dispatcher], [InputSpec] ([dispatcher.py]): the expansion of
      a definition into its DAG; the expansion loop, the callbacks of finished
      nodes, patches, [reconcile_run], [resume_after_input]; the payload of a
      parked input step.
    - [Executor], [NodeCall] ([node_executor.py]): [execute_node], whole; the binding
      of a job's inputs to the parameters of its body, and the thumbnail of a run.
    - [Ingest] ([node_queue.py], [ingest_store.py], [ingest_executor.py]) and
      [Scheduler] ([scheduler.py]): the periodic queue and its ticker.
    - [Assign] ([node_queue.py]): the sweeps that stamp rows nobody can serve.
    - [Watchdogs] and [WorkerLanes] ([claim_worker.py], [envcompat.py]): the
      guards a worker runs beside a job (lease renewal, the three watchdogs,
      their common trip policy, the watcher of the claim); how wide its lanes
      are, the slot table of the threaded cpu lane, both gpu claims.
    - [JobRun], [WorkerProcess], [Advertise] ([claim_worker.py]): the run of a
      claimed job inside its guards; the thread pool of the cpu lane, the start
      and teardown of the process; what a heartbeat observes of its box and
      publishes.
    - [Intake] ([input_listener.py], [cancel_watcher.py], [orchestrator.py]): the
      submissions of users, the cancel watcher, the recoveries of a start.
    - [BoxAgent] ([box_agent.py]): the supervisor of the processes of a box.
    - [WorkerControl] ([worker_control.py]): the operator's on/off rows and LLM
      settings, the stop policies and the watcher of a running worker.
    - [ServerSwitch] ([server_switch.py]): the switch of a box from one LLM server
      to another, with its quarantine and the record a restart resumes from.
    - [ModelLease] ([gpu_model_lease.py], [claim_worker.py]): one model per box
      across processes, and the admission of a claimed job.
    - [Catalog] ([model_catalog.py], [model_registry.py]): which box serves which
      model on which server.
    - [Residency] ([model_residency.py], [memory_sentinel.py], [claim_worker.py]):
      which copies of models must go, the load gates, the memory floors.
    - [LlmContext] ([llm_context.py]): the arithmetic of context windows and of
      vLLM's memory pool.
    - [LlmProbe] ([llm_probe.py]), [Backends] ([llm_backends/]): what a server
      answers, read defensively; which server a job's requests go to.
    - [ServerContext], [ContextLever] ([llm_backends/server_context.py],
      [llm_context_lever.py], [llm_backends/vllm_sidecar.py], [docker_api.py]): the
      configured window of a container and the replacement that changes it.
    - [RogueLlm] ([rogue_llm.py]), [Comfy] ([comfyui.py],
      [builtin_nodes/comfyui.py]): tenants of a box nobody allowed, and the renders
      of the ComfyUI server.
    - [Telemetry] ([gpu_health.py], [cgroup_attribution.py], [hw_metrics.py],
      [hw_lan.py], [hw_feed.py]) and [HwWatch] ([hw_watch.py]): the samples of a box,
      where they are published, and the flight recorder.
    - [IdleUnload] ([llm_idle_unload.py]): the ollama reaper, the vLLM stopper and
      demand starter, the watchdog of a parked box.
    - [ModelCache] ([model_cache.py], [gpu_model_cache.py]): the warm model of a
      process, its idle reaper, its load gate and its advertisement.
    - [BoxDriver] ([claim_worker.py]): one heartbeat that drives the switch, the
      lease, the memory gate and the shedding of a box; the components above meet
      here.
    - [BoxLevers] ([claim_worker.py] and the readings it calls): what goes when the
      card changes hands, the server an enabled worker starts and its window.
    - [Hold] ([claim_worker.py]): parked boxes and boxes held for a cluster
      reservation.
    - [NodePool] ([node_pool.py]): the outbox drain, its poison cap, the gated
      sweeps and [_tick].
    - [System]: all of these as the actions of one transition system.

    ** How the code is translated

    A function on the database is a definition in [M]: it takes the [world] and
    returns a [result] and a new [world].  An exception keeps the changes made
    so far, except inside [transaction], which rolls the tables back as
    [db.connection()] does.  One SQL statement is one definition on one state
    of the tables.  A node-job row is two records, [job_spec] (written by the
    INSERT, never updated) and [job_state].  SQL's three-valued comparisons are
    written out: a NULL makes a WHERE term false.  INTEGER columns and casts
    keep their 32-bit range; a value outside raises, as PostgreSQL does.
    Instants are integers of microseconds.

    What the code calls and the repository does not contain is a type class,
    an argument of every definition that uses it: [PyEnv] (attribute lookup,
    repr, re.search), [QueueConfig] and [DispatchConfig] (the host's settings,
    loaders and resolver), [Worker] (node bodies, model cache, invoke hook),
    [IngestHost] (the task table), [SpecDisk] (the file system an input
    payload reads), [PoolConfig], [GuardConfig] and [WorkerEnv] (settings and
    environment of the orchestrator and the workers), [SwitchConfig] and
    [BoxConfig] (timeouts of a switch, settings of a box), [RefusalText] (the
    wording of a memory refusal), [SqlEngine] (what a statement does to the tables
    of a migration), [LibPq] (the parse of a connection string), [Http] (the answers
    of servers), [Docker] and [Dockerd] (the answers of the docker daemon to a call,
    given the calls before it), [FactoryConfig] (hooks and addresses of the
    backends), [IntakeEnv] (the parse of a submitted value), [NodeModules] (what
    the executor of a claimed job imports).  What a worker last
    observed of its box is the record [view]; what a tick of a machine reads
    (clocks, samples, answers of HTTP probes and docker levers, exceptions
    included) is its argument: [env] of the switch, [obs] of the driver,
    [beat_in] of the heartbeat, [reap_env], [vllm_env], [park_env], [call_env] of the
    idle machines and the cache.  Calls that leave the process are traces.  The files a process shares with its peers are the list [disk].  A
    float of the source is a rational, its rounding written out, or an integer of
    microseconds.  The theorems hold for every
    instance, and the witnesses run on concrete ones.

    ** What the theorems show

    - The whole engine ([System]).  [engine_step] is one operation of any
      component with any arguments; every history of steps keeps the schema
      constraints, the claim bookkeeping and the order of the outbox, moves the
      status of a row only along the automaton [life_step], and never undoes or
      loses a completed row.  The proof is a small program logic, [safe],
      whose rules are hints, so that each operation is discharged by its parts.
    - Claims: two claims never return one row; a gpu claim keeps the weighted
      rows of a box within its slots and each serving kind within its cap; the
      download cap holds fleet-wide over any sequence of claims; the cpu claim
      takes the best eligible row; a wide run-next row drains the box; no lane
      or deferral starves a row; one box wins the context election.
    - Progress of a run: the expansion loop terminates, a completed node
      enqueues exactly what became ready and completes the run exactly when all
      is done, a failed node stops the run for good, [start_run] is idempotent,
      and the reconciler revives every stuck run.
    - Exactly-once settlement: an execution settles its row and one outbox row
      together; a drain retires or retries every event and poisons it at the
      tenth attempt; an ingest execution settles its row once.
    - Recovery: the expired-lease sweep and the frozen-lease detector are
      exact, requeues are fenced by the claim they were made under, on both queues, the reaper
      brings each box to its capacity taking the stalest rows.
    - Workers: a watchdog's trip retries a node job under the cap and fails it at the
      cap, always fails an ingest job, and reaches the exit in every case; the no-progress and gpu-health
      watchdogs kill only a job that has stopped, and find one that has; a worker
      that lost its claim stops renewing it and ends; the cpu lane never
      over-commits and leaks no slot; the two gpu lanes share one budget, which
      the operator's ceiling bounds; a kill gives back exactly the process's own
      other rows.
    - The switch of a server ([ServerSwitch], [BoxDriver]): a start is asked for only
      on a drained box whose outgoing server is gone; claims are blocked at most
      for the budget of the request, restarts included; a failed start is held back
      with a doubling hold; a restarted process resumes the switch it finds and its
      remaining budget; the driver pulls a start lever only past every gate, but for the
      one that gives back the window of a resize it gave up; and the box lease of a switch
      goes when the switch goes.
    - The card ([ModelLease], [Residency], [ModelCache]): two processes never hold
      one box for two models; a claimed job runs or is given back; evictions bring a
      box to its cap and spare the protected and the busy server; a process
      advertises what it holds, and a refused load leaves its warm model alone.
    - Memory and windows ([LlmContext], [Catalog]): ceilings and start plans fit the
      memory that was read; the match of a job is the first pair the box serves.
    - On, off and held ([WorkerControl], [IdleUnload], [Hold]): the control rows stay
      well typed and reach exactly their workers; off ends a running worker after it
      gave its rows back; vLLM is stopped only when idle, started only when wanted and
      does not oscillate; a parked box is freed; a held box starts no server.
    - A job and its process ([JobRun], [WorkerProcess]): whatever a run of a pool job
      meets, its slot, its admission and its holds are given back; a pool of threads
      loses no accepted job, comes to rest, and ends when it is shut down.
    - What a box says of itself ([Advertise], [CatalogRows], [Telemetry]): vLLM
      is offered when seen and dropped at its third miss, and ollama too while no vLLM is
      offered; a published window is one every serving server has; a heartbeat
      writes one row that agrees with what the claims go by; the catalog says
      exactly what the last observation said.
    - Windows and containers ([ServerContext], [ContextLever]): an override is undone to
      the number the operator had set; a replacement makes its calls in order, calls
      nothing after the first that fails, and starts the container only after all.
    - Bodies and pictures ([NodeCall]): a body gets each of its parameters by name, or
      is refused before it runs; a run has one primary picture, cut inside the
      image it was taken from.
    - Tenants and servers ([RogueLlm], [Comfy], [Backends], [BoxAgent],
      [BoxLevers]): a card that changes hands is emptied of the LLM's weights; a sweep
      stops only second daemons and users of the GPU that nobody allowed; a render lands
      every file the server reports; a dispatch settles on a suitable server that answers
      while there is one; the processes of a box converge to its control rows.
    - People ([Intake], [Snapshots]): polls settle the oldest submissions first and none
      twice; the views of the tenants partition the view of the fleet.
    - The store ([Migrations], [DbAccess], [SqlText], [Config]): on PostgreSQL
      concurrent bootstraps act as one; a downgrade undoes a bootstrap; on SQLite the
      outermost block is one transaction, cut where a statement inside it commits; a
      scrubbed text does not hold the password, and no call of a
      host unsettles the settings.
    - Rows and values: an enqueue appends one row or nothing, finished rows are
      final, the sweeps of unassignable rows are exact, [$coalesce], the
      schedule's next instant, normal forms and the paths of input payloads.
    - A few theorems prove a behaviour that departs from what a docstring says
      (a width beyond 32 bits that blocks a lane, a requeued row failed by its
      old worker, a memory move the confirmation of a stall misses, a settings edit
      that unparks a lane, a swap that gives the box lease back, and so on).

    ** Fuel

    Seven definitions count rounds.  [_process_ready] runs [loop_fuel] rounds, one
    per node of the DAG and one more; [process_ready_terminates] proves that
    this is never exhausted and that more changes nothing.  [walk_hours] is the
    source's own [range(24)], and [confirm_loop] its [range(confirm_samples - 1)].
    [evict_rounds], the recursion of [decide_evictions], gets one round per copy;
    [decide_evictions_recursion] proves the source's own equation for it.
    [starts_of] gets one round per character of the log it splits, [frames] one per
    byte of a log whose frames take eight, and [scale], the decimal exponent of a
    float, 400, where a float needs fewer.  The polls of a render ([Comfy]) are the
    source's own bound.  Everything else is structural.  The watchdogs' loops, which the source runs
    until the job ends, are folds over a history of any length.

    ** What is not modelled

    - SQLite as the store of the queue: the statements of [NodeQueue] and its
      siblings have PostgreSQL's meaning.  The translation of a statement
      ([SqlText]) and the transactions of both stores ([Migrations], [DbAccess]) are
      modelled; the adapters of column types and the row factory are not.
    - Concurrency below a statement.  A claim sees rows locked by others as an
      arbitrary set it skips, and the advisory lock of a box makes the gpu
      claims of that box follow one another; otherwise statements interleave
      in any order, transactions are atomic.
    - Threads, signals, the parse of command lines and of the manifest of a box:
      what they interleave are the steps of sequences or of a transition system.
    - What has no logic of the program's own: sockets, subprocesses and files (their
      answers are arguments), the HTTP calls that generate text, NOTIFY triggers.
    - Log lines: the text of a reason is kept only where it is stored.

    [System] has the operations on the queue, the runs and the worker's guards as its
    actions.  The machine of a box (switch, lease, hold, context lever) touches the
    queue through the claims and requeues that are already actions, and its own state
    is composed in [BoxDriver] and [JobRun]. *)

From Stdlib Require Export ZArith Lia Bool Ascii String.
From stdpp Require Export base option list strings gmap pretty sorting.

(** ** Python exceptions and results

    Fallible Python code returns a [result]: a value or the exception that was
    raised.  Only the class of the exception and a tag are kept; the text of
    the message is not modelled. *)

Inductive exc :=
  | KeyError (what : string)
  | TypeError (what : string)
  | ValueError (what : string)
  | AttributeError (what : string)
  | RuntimeError (what : string)
  (** psycopg's [IntegrityError]: a UNIQUE, FOREIGN KEY or CHECK violation *)
  | IntegrityError (what : string)
  | OtherError (what : string).

#[export] Instance exc_eq_dec : EqDecision exc.
Proof. solve_decision. Defined.

Inductive result (A : Type) :=
  | Ok (a : A)
  | Raise (e : exc).
Arguments Ok {A} _.
Arguments Raise {A} _.

#[export] Instance result_ret : MRet result := λ A a, Ok a.
#[export] Instance result_bind : MBind result := λ A B f r,
  match r with Ok a => f a | Raise e => Raise e end.
#[export] Instance result_fmap : FMap result := λ A B f r,
  match r with Ok a => Ok (f a) | Raise e => Raise e end.

Definition is_ok {A} (r : result A) : bool :=
  match r with Ok _ => true | Raise _ => false end.

(** [for x in l: y.append(f(x))] with a fallible [f]: the first exception
    stops the loop. *)
Fixpoint mapR {A B} (f : A → result B) (l : list A) : result (list B) :=
  match l with
  | [] => Ok []
  | x :: r => y ← f x; ys ← mapR f r; Ok (y :: ys)
  end.

(** ** SQL's three-valued logic

    A predicate of a WHERE clause is TRUE, FALSE or NULL; a row qualifies when
    it is TRUE.  [None] is NULL. *)

Declare Scope sql_scope.
Delimit Scope sql_scope with sql.

Definition tri := option bool.

Definition t_not (a : tri) : tri := negb <$> a.

Definition t_and (a b : tri) : tri :=
  match a, b with
  | Some false, _ | _, Some false => Some false
  | Some true, Some true => Some true
  | _, _ => None
  end.

Definition t_or (a b : tri) : tri :=
  match a, b with
  | Some true, _ | _, Some true => Some true
  | Some false, Some false => Some false
  | _, _ => None
  end.

(** A comparison with a NULL operand is NULL. *)
Definition t_lift2 {A B} (f : A → B → bool) (a : option A) (b : option B) : tri :=
  match a, b with Some x, Some y => Some (f x y) | _, _ => None end.

Definition t_eq {A} `{EqDecision A} : option A → option A → tri :=
  t_lift2 (λ x y, bool_decide (x = y)).
Definition t_lt : option Z → option Z → tri := t_lift2 Z.ltb.
Definition t_le : option Z → option Z → tri := t_lift2 Z.leb.

(** [x IS NULL], [x IS NOT NULL], [x IS NOT DISTINCT FROM y]: never NULL. *)
Definition is_null {A} (a : option A) : bool :=
  match a with None => true | Some _ => false end.
Definition is_not_null {A} (a : option A) : bool := negb (is_null a).
Definition not_distinct {A} `{EqDecision A} (a b : option A) : bool :=
  bool_decide (a = b).

(** The WHERE test: TRUE qualifies, FALSE and NULL do not. *)
Definition holds (a : tri) : bool := match a with Some b => b | None => false end.

Notation "a ∧₃ b" := (t_and a b) (at level 40, left associativity) : sql_scope.
Notation "a ∨₃ b" := (t_or a b) (at level 50, left associativity) : sql_scope.
Notation "¬₃ a" := (t_not a) (at level 35, right associativity) : sql_scope.

(** [x = ANY(arr)]: TRUE when some element equals [x], NULL when [x] or the
    array is NULL (no array of the schema holds a NULL element). *)
Definition any_eq {A} `{EqDecision A} (x : option A) (arr : option (list A)) : tri :=
  match arr with
  | None => None
  | Some [] => Some false
  | Some l => match x with
              | None => None
              | Some y => Some (bool_decide (y ∈ l))
              end
  end.

(** [arr1 && arr2]: the arrays share an element. *)
Definition overlap {A} `{EqDecision A} (a b : list A) : bool :=
  existsb (λ x, bool_decide (x ∈ b)) a.
Definition arrays_overlap {A} `{EqDecision A} (a b : option (list A)) : tri :=
  t_lift2 overlap a b.

(** The first element of [a] (in [a]'s order) that occurs in [b]. *)
Definition first_overlap {A} `{EqDecision A} (a : option (list A)) (b : list A) : option A :=
  match a with
  | None => None
  | Some l => head (filter (λ x, x ∈ b) l)
  end.
Definition array_first {A} (a : option (list A)) : option A := a ≫= head.

(** [COALESCE(a, b)] *)
Definition coalesce {A} (a b : option A) : option A :=
  match a with Some x => Some x | None => b end.

(** ** Tables as lists of rows *)

Section tables.
Context {A : Type}.

(** [UPDATE t SET .. = f WHERE p] *)
Definition update_where (p : A → bool) (f : A → A) (t : list A) : list A :=
  map (λ r, if p r then f r else r) t.

(** [RETURNING *] of that update: the rows it changed, after the change. *)
Definition returning (p : A → bool) (f : A → A) (t : list A) : list A :=
  f <$> List.filter p t.

(** [COUNT( * ) .. WHERE p] and the row count of an update. *)
Definition count (p : A → bool) (t : list A) : nat := length (List.filter p t).

(** [EXISTS (SELECT 1 .. WHERE p)] *)
Definition exists_row (p : A → bool) (t : list A) : bool := existsb p t.

Definition sum_of (w : A → Z) (t : list A) : Z := foldr (λ r z, (w r + z)%Z) 0%Z t.
End tables.

(** ** ORDER BY

    A sort key is a list of integers compared lexicographically; a descending
    column contributes its negation. *)

(** A boolean column as a sort key *)
Definition b2z (b : bool) : Z := if b then 1%Z else 0%Z.

Fixpoint key_le (a b : list Z) : bool :=
  match a, b with
  | [], _ => true
  | _, [] => false
  | x :: a', y :: b' => (x <? y)%Z || ((x =? y)%Z && key_le a' b')
  end.

Section order.
Context {A : Type} (key : A → list Z).

(** Stable insertion sort, the order of Python's [sorted] and of an ORDER BY
    in which rows with equal keys keep their table order. *)
Fixpoint insert_by (x : A) (l : list A) : list A :=
  match l with
  | [] => [x]
  | y :: r => if key_le (key x) (key y) then x :: y :: r else y :: insert_by x r
  end.
Definition sort_by (l : list A) : list A := foldr insert_by [] l.

(** [ORDER BY key LIMIT 1]: the first row with the least key. *)
Fixpoint first_by (l : list A) : option A :=
  match l with
  | [] => None
  | x :: r => match first_by r with
              | None => Some x
              | Some y => if key_le (key x) (key y) then Some x else Some y
              end
  end.
End order.

(** ** Lemmas on tables *)

Section table_lemmas.
Context {A : Type}.
Implicit Types (p q : A → bool) (f : A → A) (t : list A) (w : A → Z).

Lemma update_where_length p f t : length (update_where p f t) = length t.
Proof. apply length_map. Qed.

Lemma elem_of_update_where p f t r :
  r ∈ update_where p f t ↔ ∃ r0, r0 ∈ t ∧ r = if p r0 then f r0 else r0.
Proof.
  unfold update_where. rewrite list_elem_of_fmap. naive_solver.
Qed.

Lemma update_where_id p f t :
  (∀ r, r ∈ t → p r = true → f r = r) → update_where p f t = t.
Proof.
  intros Hid. rewrite <- (map_id t) at 2. apply map_ext_in.
  intros r Hr. apply list_elem_of_In in Hr. destruct (p r) eqn:E; auto.
Qed.

Lemma update_where_none p f t :
  (∀ r, r ∈ t → p r = false) → update_where p f t = t.
Proof. intros H. apply update_where_id. intros r Hr. by rewrite H. Qed.

(** A column the update does not touch keeps its values, in order. *)
Lemma update_where_map {B} (g : A → B) p f t :
  (∀ r, g (f r) = g r) → map g (update_where p f t) = map g t.
Proof.
  intros Hg. unfold update_where. rewrite map_map. apply map_ext.
  intros r. destruct (p r); auto.
Qed.

(** A second run of an update whose guard its own effect falsifies does
    nothing. *)
Lemma update_where_idemp p f t :
  (∀ r, p r = true → p (f r) = false) →
  update_where p f (update_where p f t) = update_where p f t.
Proof.
  intros Hp. apply update_where_none. intros r Hr.
  apply elem_of_update_where in Hr as (r0 & _ & ->).
  destruct (p r0) eqn:E; auto.
Qed.

Lemma exists_row_true p t : exists_row p t = true ↔ ∃ r, r ∈ t ∧ p r = true.
Proof.
  unfold exists_row. rewrite existsb_exists. setoid_rewrite list_elem_of_In. done.
Qed.

Lemma exists_row_false p t : exists_row p t = false ↔ ∀ r, r ∈ t → p r = false.
Proof.
  rewrite <- not_true_iff_false, exists_row_true. split.
  - intros H r Hr. apply not_true_iff_false. naive_solver.
  - intros H (r & Hr & Hp). rewrite H in Hp; done.
Qed.

Lemma elem_of_Lfilter p t r : r ∈ List.filter p t ↔ r ∈ t ∧ p r = true.
Proof. by rewrite !list_elem_of_In, filter_In. Qed.

Lemma Lfilter_none p t : (∀ r, r ∈ t → p r = false) → List.filter p t = [].
Proof.
  induction t as [|x t IH]; intros H; [done|]; simpl.
  rewrite (H x) by set_solver. apply IH. set_solver.
Qed.

#[export] Instance Lfilter_perm p : Proper ((≡ₚ) ==> (≡ₚ)) (List.filter p).
Proof.
  induction 1 as [|x l1 l2 _ IH|x y l|l1 l2 l3 _ IH1 _ IH2]; simpl;
    [done|..|by transitivity (List.filter p l2)].
  - destruct (p x); [by apply perm_skip|done].
  - destruct (p x), (p y); first [apply perm_swap|done].
Qed.

#[export] Instance count_perm p : Proper ((≡ₚ) ==> (=)) (count p).
Proof. intros l1 l2 H. unfold count. by rewrite H. Qed.

Lemma count_map {B} (f : B → A) p (t : list B) : count p (map f t) = length (List.filter (λ x, p (f x)) t).
Proof.
  unfold count. induction t as [|x t IH]; simpl; [done|].
  destruct (p (f x)); simpl; by rewrite IH.
Qed.

Lemma count_filter p q t : count p (List.filter q t) = count (λ r, q r && p r) t.
Proof.
  unfold count. induction t as [|x t IH]; simpl; [done|].
  destruct (q x); simpl; [|done]. destruct (p x); simpl; by rewrite IH.
Qed.

Lemma count_mono p q t :
  (∀ r, r ∈ t → p r = true → q r = true) → (count p t ≤ count q t)%nat.
Proof.
  unfold count. induction t as [|x t IH]; intros H; simpl; [done|].
  assert (length (List.filter p t) ≤ length (List.filter q t))%nat
    by (apply IH; set_solver).
  destruct (p x) eqn:E; simpl; [rewrite (H x) by set_solver; simpl; lia|].
  destruct (q x); simpl; lia.
Qed.

Lemma Lfilter_all p t : (∀ r, r ∈ t → p r = true) → List.filter p t = t.
Proof.
  induction t as [|x t IH]; intros H; [done|]; simpl.
  rewrite (H x) by set_solver. f_equal. apply IH. set_solver.
Qed.

Lemma count_lt p q t x :
  (∀ r, r ∈ t → p r = true → q r = true) → x ∈ t → q x = true → p x = false →
  (count p t < count q t)%nat.
Proof.
  intros H Hx Hq Hp. apply list_elem_of_split in Hx as (t1 & t2 & ->).
  assert (count p t1 ≤ count q t1)%nat by (apply count_mono; set_solver).
  assert (count p t2 ≤ count q t2)%nat by (apply count_mono; set_solver).
  unfold count in *. rewrite !List.filter_app, !length_app. simpl. rewrite Hp, Hq. simpl. lia.
Qed.

Lemma count_ext p q t : (∀ r, p r = q r) → count p t = count q t.
Proof. intros H. unfold count. f_equal. by apply filter_ext. Qed.

Lemma count_true t : count (λ _, true) t = length t.
Proof. unfold count. induction t; simpl; by f_equal. Qed.

Lemma elem_of_concat_map {B} (f : B → list A) (l : list B) x :
  x ∈ concat (map f l) ↔ ∃ b, x ∈ f b ∧ b ∈ l.
Proof.
  rewrite list_elem_of_In, <- flat_map_concat_map, in_flat_map.
  setoid_rewrite list_elem_of_In. naive_solver.
Qed.

Lemma elem_of_drop_elem n t x : x ∈ drop n t → x ∈ t.
Proof. intros Hx. rewrite <- (take_drop n t). apply elem_of_app. by right. Qed.

Lemma count_zero p t : count p t = 0 ↔ ∀ r, r ∈ t → p r = false.
Proof.
  unfold count. split.
  - intros H r Hr. apply nil_length_inv in H. apply not_true_iff_false. intros E.
    assert (r ∈ List.filter p t) as Hin by by apply elem_of_Lfilter.
    rewrite H in Hin. set_solver.
  - intros H. by rewrite Lfilter_none.
Qed.

Lemma sum_of_app w t1 t2 : sum_of w (t1 ++ t2) = (sum_of w t1 + sum_of w t2)%Z.
Proof. induction t1; simpl; unfold sum_of in *; simpl in *; lia. Qed.

Lemma sum_of_nonneg w t : (∀ r, r ∈ t → (0 ≤ w r)%Z) → (0 ≤ sum_of w t)%Z.
Proof.
  induction t as [|x t IH]; intros H; [done|]. unfold sum_of in *; simpl.
  specialize (H x) as Hx. assert (0 ≤ w x)%Z by (apply Hx; set_solver).
  assert (0 ≤ foldr (λ r z, (w r + z)%Z) 0%Z t)%Z by (apply IH; set_solver). lia.
Qed.
End table_lemmas.

(** A unique column identifies its row. *)
Lemma key_unique {A B} (k : A → B) (t : list A) x y :
  NoDup (map k t) → x ∈ t → y ∈ t → k x = k y → x = y.
Proof.
  induction t as [|z t IH]; simpl; [set_solver|].
  intros [Hz Ht]%NoDup_cons Hx Hy E.
  apply elem_of_cons in Hx as [->|Hx], Hy as [->|Hy]; auto.
  - exfalso. apply Hz. apply list_elem_of_fmap. by exists y.
  - exfalso. apply Hz. apply list_elem_of_fmap. by exists x.
Qed.

(** A DELETE keeps a unique column unique. *)
Lemma NoDup_map_Lfilter {A B} (k : A → B) (p : A → bool) (t : list A) :
  NoDup (map k t) → NoDup (map k (List.filter p t)).
Proof.
  induction t as [|x t IH]; simpl; [done|]. intros [Hx Ht]%NoDup_cons.
  destruct (p x); simpl; [|auto]. apply NoDup_cons. split; [|auto].
  intros (y & E & [Hy _]%elem_of_Lfilter)%list_elem_of_fmap.
  apply Hx, list_elem_of_fmap. by exists y.
Qed.

(** ** Lemmas on ORDER BY *)

Lemma key_le_refl a : key_le a a = true.
Proof. induction a; simpl; [done|]. rewrite Z.ltb_irrefl, Z.eqb_refl. done. Qed.

Lemma key_le_total a b : key_le a b = true ∨ key_le b a = true.
Proof.
  revert b. induction a as [|x a IH]; intros [|y b]; simpl; auto.
  destruct (Z.lt_trichotomy x y) as [H|[->|H]].
  - left. apply Z.ltb_lt in H. by rewrite H.
  - rewrite Z.ltb_irrefl, Z.eqb_refl. simpl. apply IH.
  - right. apply Z.ltb_lt in H. by rewrite H.
Qed.

Lemma key_le_trans a b c :
  key_le a b = true → key_le b c = true → key_le a c = true.
Proof.
  revert b c. induction a as [|x a IH]; intros [|y b] [|z c]; simpl; try done.
  rewrite !orb_true_iff, !andb_true_iff, !Z.ltb_lt, !Z.eqb_eq.
  intros [H1|[-> H1]] [H2|[-> H2]]; [left; lia..|right; split; [done|eauto]].
Qed.

Section order_lemmas.
Context {A : Type} (key : A → list Z).

Lemma first_by_None l : first_by key l = None ↔ l = [].
Proof.
  destruct l as [|x l]; simpl; [done|]. split; [|done].
  destruct (first_by key l); [by destruct (key_le _ _)|done].
Qed.

Lemma first_by_elem l x : first_by key l = Some x → x ∈ l.
Proof.
  revert x. induction l as [|y l IH]; simpl; [done|]. intros x.
  destruct (first_by key l) as [z|].
  - destruct (key_le _ _); intros [= <-]; [left|right; auto].
  - intros [= <-]. left.
Qed.

Lemma first_by_least l x y :
  first_by key l = Some x → y ∈ l → key_le (key x) (key y) = true.
Proof.
  revert x. induction l as [|z l IH]; simpl; [done|]. intros x Hx Hy.
  destruct (first_by key l) as [u|] eqn:Hu; cycle 1.
  { apply first_by_None in Hu as ->. injection Hx as <-.
    apply list_elem_of_singleton in Hy as ->. apply key_le_refl. }
  destruct (key_le (key z) (key u)) eqn:E; injection Hx as <-;
    apply elem_of_cons in Hy as [->|Hy]; eauto using key_le_refl, key_le_trans.
  destruct (key_le_total (key u) (key z)); congruence.
Qed.

Lemma first_by_is_Some l x : x ∈ l → is_Some (first_by key l).
Proof.
  intros Hx. destruct (first_by key l) eqn:E; [eauto|].
  apply first_by_None in E as ->. set_solver.
Qed.

Lemma insert_by_perm x l : insert_by key x l ≡ₚ x :: l.
Proof.
  induction l as [|y l IH]; simpl; [done|]. destruct (key_le _ _); [done|].
  rewrite IH. apply Permutation_swap.
Qed.

Lemma sort_by_perm l : sort_by key l ≡ₚ l.
Proof.
  induction l as [|x l IH]; simpl; [done|]. by rewrite insert_by_perm, IH.
Qed.

Lemma insert_by_sorted x l :
  StronglySorted (λ a b, key_le (key a) (key b) = true) l →
  StronglySorted (λ a b, key_le (key a) (key b) = true) (insert_by key x l).
Proof.
  induction 1 as [|y l Hs IH Hy]; simpl; [repeat constructor|].
  destruct (key_le (key x) (key y)) eqn:E.
  - constructor; [by constructor|]. constructor; [done|].
    eapply Forall_impl; [exact Hy|]. intros z Hz. eapply key_le_trans; eauto.
  - constructor; [done|]. rewrite insert_by_perm. constructor; [|done].
    destruct (key_le_total (key x) (key y)); congruence.
Qed.

Lemma sort_by_sorted l :
  StronglySorted (λ a b, key_le (key a) (key b) = true) (sort_by key l).
Proof. induction l; simpl; [constructor|]. by apply insert_by_sorted. Qed.
End order_lemmas.

(** What an ordered pair of keys says of their first column, and a sorted list of
    what comes before and after a cut *)
Lemma key_le_head x y a b : key_le (x :: a) (y :: b) = true → (x ≤ y)%Z.
Proof.
  simpl. rewrite orb_true_iff, andb_true_iff. intros [H|[H _]]; [apply Z.ltb_lt in H|]; lia.
Qed.

Lemma sorted_split {A} (R : A → A → Prop) l n x y :
  StronglySorted R l → x ∈ take n l → y ∈ drop n l → R x y.
Proof.
  intros Hs Hx Hy. rewrite <- (take_drop n l) in Hs.
  apply StronglySorted_app in Hs as (H & _ & _). eauto.
Qed.

(** Induction in steps of one and two elements *)
Lemma list_ind2 {A} (P : list A → Prop) :
  P [] → (∀ x, P [x]) → (∀ x y l, P l → P (y :: l) → P (x :: y :: l)) → ∀ l, P l.
Proof.
  intros H0 H1 H2. assert (∀ l, P l ∧ ∀ x, P (x :: l)) as H; [|intros l; apply H].
  induction l as [|y l [IH1 IH2]]; [auto|]. split; [auto|]. intros x. auto.
Qed.

(** ** Automation

    [tri] simplification, case analysis on boolean tests, and a hint database
    for the engine's rows. *)

Create HintDb engine discriminated.
Create Rewrite HintDb engine.
#[export] Hint Resolve key_le_refl first_by_elem : engine.
#[export] Hint Rewrite @update_where_length : engine.

Lemma holds_and a b : holds (t_and a b) = holds a && holds b.
Proof. destruct a as [[]|], b as [[]|]; done. Qed.
Lemma holds_or a b : holds (t_or a b) = holds a || holds b.
Proof. destruct a as [[]|], b as [[]|]; done. Qed.
#[export] Hint Rewrite holds_and holds_or : engine.

(** Split boolean conjunctions of the context. *)
Ltac split_bool :=
  repeat match goal with
  | H : _ && _ = true |- _ => apply andb_true_iff in H; destruct H
  | H : negb _ = true |- _ => apply negb_true_iff in H
  | H : bool_decide _ = true |- _ => apply bool_decide_eq_true in H
  | H : bool_decide _ = false |- _ => apply bool_decide_eq_false in H
  end.

(** Case analysis on the first [if] or [match] scrutinee of the goal. *)
Ltac case_goal :=
  match goal with
  | |- context [match ?x with _ => _ end] => destruct x eqn:?
  end.
