(* ===== verification/Json.v ===== *)
(** * Python values as the engine stores them

    Run contexts, node inputs, filters and [context_delta]s are JSON: this file
    has the value type, Python's truthiness and [==] on it, dictionaries in
    insertion order, and the string methods the sources call.  Strings are
    byte strings (UTF-8); the case and digit tests are those of ASCII. *)

From Stdlib Require Export QArith.
From S2P Require Import Prelude.
Local Open Scope Z_scope.

(** ** Strings *)

Module PyStr.
Definition lower_char (c : ascii) : ascii :=
  let n := N_of_ascii c in
  if (65 <=? n)%N && (n <=? 90)%N then ascii_of_N (n + 32) else c.
Fixpoint lower (s : string) : string :=
  match s with
  | EmptyString => EmptyString
  | String c r => String (lower_char c) (lower r)
  end.

Definition is_space (c : ascii) : bool :=
  let n := N_of_ascii c in
  ((9 <=? n)%N && (n <=? 13)%N) || ((28 <=? n)%N && (n <=? 32)%N).
Fixpoint lstrip (s : string) : string :=
  match s with
  | String c r => if is_space c then lstrip r else s
  | EmptyString => EmptyString
  end.
Definition strip (s : string) : string :=
  String.rev (lstrip (String.rev (lstrip s))).

Definition is_digit (c : ascii) : bool :=
  let n := N_of_ascii c in (48 <=? n)%N && (n <=? 57)%N.
Fixpoint all_digits (s : string) : bool :=
  match s with
  | EmptyString => true
  | String c r => is_digit c && all_digits r
  end.
(** [str.isdigit]: the empty string is not a number *)
Definition isdigit (s : string) : bool :=
  match s with EmptyString => false | _ => all_digits s end.
Fixpoint int_acc (acc : Z) (s : string) : Z :=
  match s with
  | EmptyString => acc
  | String c r => int_acc (10 * acc + (Z.of_N (N_of_ascii c) - 48)) r
  end.
(** [int(s)] for a string of digits *)
Definition int_of_digits (s : string) : Z := int_acc 0 s.

(** [s.split(c)] for a one-character separator: never the empty list *)
Fixpoint split (c : ascii) (s : string) : list string :=
  match s with
  | EmptyString => [EmptyString]
  | String d r =>
      if Ascii.eqb c d then EmptyString :: split c r
      else match split c r with
           | w :: ws => String d w :: ws
           | [] => [String d EmptyString]
           end
  end.
(** [s.split(c, 1)] / [s.partition(c)]: what precedes the first [c], and what
    follows it when there is one *)
Fixpoint split1 (c : ascii) (s : string) : string * option string :=
  match s with
  | EmptyString => (EmptyString, None)
  | String d r =>
      if Ascii.eqb c d then (EmptyString, Some r)
      else let '(w, rest) := split1 c r in (String d w, rest)
  end.

(** [s[:n]] *)
Definition take (n : nat) (s : string) : string := String.substring 0 n s.
Definition truthy (s : string) : bool := negb (String.eqb s EmptyString).
(** [s.startswith(p)], and what follows the prefix *)
Definition startswith (p s : string) : bool := String.prefix p s.
Fixpoint drop (n : nat) (s : string) : string :=
  match n, s with
  | S n', String _ r => drop n' r
  | _, _ => s
  end.
Definition removeprefix (p s : string) : string := drop (String.length p) s.

(** The digits of [int(s)]: a single underscore may separate two of them. *)
Fixpoint int_digits (acc : option Z) (s : string) : option Z :=
  match s with
  | EmptyString => acc
  | String c r =>
      let digit := λ d, Z.of_N (N_of_ascii d) - 48 in
      if is_digit c then int_digits (Some (10 * default 0 acc + digit c)) r
      else match acc, Ascii.eqb c "_", r with
           | Some a, true, String d r' =>
               if is_digit d then int_digits (Some (10 * a + digit d)) r' else None
           | _, _, _ => None
           end
  end.
(** [int(s)] of a string: blanks around it and a sign are allowed; None is
    [ValueError] *)
Definition int (s : string) : option Z :=
  match strip s with
  | String "-" r => Z.opp <$> int_digits None r
  | String "+" r => int_digits None r
  | t => int_digits None t
  end.

(** The order of code points, which on UTF-8 is the order of bytes. *)
Fixpoint key (s : string) : list Z :=
  match s with
  | EmptyString => []
  | String c r => Z.of_N (N_of_ascii c) :: key r
  end.
(** [p in s] *)
Fixpoint contains (p s : string) : bool :=
  String.prefix p s ||
  match s with EmptyString => false | String _ r => contains p r end.
End PyStr.

(** ** JSON values *)

Inductive json :=
  | JNull
  | JBool (b : bool)
  | JInt (z : Z)
  | JFloat (q : Q)
  | JStr (s : string)
  | JArr (l : list json)
  | JObj (fs : list (string * json)).

(** The induction principle through the nested lists. *)
Section json_ind'.
Context (P : json → Prop).
Hypothesis Hnull : P JNull.
Hypothesis Hbool : ∀ b, P (JBool b).
Hypothesis Hint : ∀ z, P (JInt z).
Hypothesis Hfloat : ∀ q, P (JFloat q).
Hypothesis Hstr : ∀ s, P (JStr s).
Hypothesis Harr : ∀ l, Forall P l → P (JArr l).
Hypothesis Hobj : ∀ fs, Forall (λ kv, P kv.2) fs → P (JObj fs).

Fixpoint json_ind' (v : json) : P v :=
  match v with
  | JNull => Hnull
  | JBool b => Hbool b
  | JInt z => Hint z
  | JFloat q => Hfloat q
  | JStr s => Hstr s
  | JArr l => Harr l
      ((fix go (l : list json) : Forall P l :=
          match l with
          | [] => Forall_nil_2 P
          | x :: r => Forall_cons_2 P x r (json_ind' x) (go r)
          end) l)
  | JObj fs => Hobj fs
      ((fix go (fs : list (string * json)) : Forall (λ kv, P kv.2) fs :=
          match fs with
          | [] => Forall_nil_2 _
          | (k, x) :: r => Forall_cons_2 (λ kv, P kv.2) (k, x) r (json_ind' x) (go r)
          end) fs)
  end.
End json_ind'.

(** Python dictionaries with string keys, in insertion order. *)
Abbreviation dict := (list (string * json)).

Fixpoint dict_get {V} (k : string) (d : list (string * V)) : option V :=
  match d with
  | [] => None
  | (k', v) :: r => if String.eqb k k' then Some v else dict_get k r
  end.
(** [k in d] *)
Definition dict_has {V} (k : string) (d : list (string * V)) : bool :=
  is_not_null (dict_get k d).
(** [d[k] = v]: an existing key keeps its position *)
Fixpoint dict_set {V} (k : string) (v : V) (d : list (string * V)) : list (string * V) :=
  match d with
  | [] => [(k, v)]
  | (k', v') :: r => if String.eqb k k' then (k, v) :: r else (k', v') :: dict_set k v r
  end.
(** [d.pop(k, None)] *)
Definition dict_pop {V} (k : string) (d : list (string * V)) : list (string * V) :=
  List.filter (λ kv, negb (String.eqb k kv.1)) d.
(** [{**d, **e}] *)
Definition dict_merge {V} (d e : list (string * V)) : list (string * V) :=
  foldl (λ acc kv, dict_set kv.1 kv.2 acc) d e.

(** Python's [bool(v)] *)
Definition truthy (v : json) : bool :=
  match v with
  | JNull => false
  | JBool b => b
  | JInt z => negb (z =? 0)
  | JFloat q => negb (Qeq_bool q 0)
  | JStr s => PyStr.truthy s
  | JArr l => negb (bool_decide (length l = 0%nat))
  | JObj fs => negb (bool_decide (length fs = 0%nat))
  end.

Definition is_none (v : json) : bool := match v with JNull => true | _ => false end.

(** The number a bool, an int or a float denotes: [True == 1 == 1.0]. *)
Definition as_number (v : json) : option Q :=
  match v with
  | JBool b => Some (if b then 1 else 0)%Q
  | JInt z => Some (inject_Z z)
  | JFloat q => Some q
  | _ => None
  end.

(** Python's [==]: numbers by value, lists elementwise, dictionaries without
    regard to order. *)
Fixpoint py_eq (a b : json) : bool :=
  match a, b with
  | JNull, JNull => true
  | JStr s, JStr t => String.eqb s t
  | JArr l, JArr m =>
      (fix go (l m : list json) : bool :=
         match l, m with
         | [], [] => true
         | x :: l', y :: m' => py_eq x y && go l' m'
         | _, _ => false
         end) l m
  | JObj fs, JObj gs =>
      bool_decide (length fs = length gs) &&
      (fix go (fs : list (string * json)) : bool :=
         match fs with
         | [] => true
         | (k, x) :: r =>
             match dict_get k gs with Some y => py_eq x y | None => false end && go r
         end) fs
  | (JBool _ | JInt _ | JFloat _), _ =>
      match as_number a, as_number b with
      | Some p, Some q => Qeq_bool p q
      | _, _ => false
      end
  | _, _ => false
  end.

(** ** Lemmas on dictionaries *)

Lemma dict_get_set_eq {V} k (v : V) d : dict_get k (dict_set k v d) = Some v.
Proof.
  induction d as [|[k' v'] d IH]; simpl; [by rewrite String.eqb_refl|].
  destruct (String.eqb k k') eqn:E; simpl; [by rewrite String.eqb_refl|].
  by rewrite E.
Qed.

Lemma dict_get_set_ne {V} k k' (v : V) d :
  k ≠ k' → dict_get k' (dict_set k v d) = dict_get k' d.
Proof.
  intros Hne. induction d as [|[j u] d IH]; simpl.
  { apply String.eqb_neq in Hne. by rewrite String.eqb_sym, Hne. }
  destruct (String.eqb_spec k j) as [->|Hkj]; simpl.
  - destruct (String.eqb_spec k' j); congruence.
  - by rewrite IH.
Qed.

Lemma dict_get_pop_eq {V} k (d : list (string * V)) : dict_get k (dict_pop k d) = None.
Proof.
  unfold dict_pop. induction d as [|[j u] d IH]; simpl; [done|].
  destruct (String.eqb_spec k j) as [->|Hkj]; simpl; [done|].
  apply String.eqb_neq in Hkj. by rewrite Hkj.
Qed.

Lemma dict_get_pop_ne {V} k k' (d : list (string * V)) :
  k' ≠ k → dict_get k' (dict_pop k d) = dict_get k' d.
Proof.
  intros Hne. unfold dict_pop. induction d as [|[j u] d IH]; simpl; [done|].
  destruct (String.eqb_spec k j) as [->|Hkj]; simpl; [|by rewrite IH].
  apply String.eqb_neq in Hne. by rewrite Hne.
Qed.

Lemma dict_get_elem {V} k (v : V) d : dict_get k d = Some v → (k, v) ∈ d.
Proof.
  induction d as [|[j u] d IH]; simpl; [done|].
  destruct (String.eqb_spec k j) as [->|]; intros; simplify_eq; set_solver.
Qed.

(** The keys of a dictionary stay distinct. *)
Section dict_keys.
Context {V : Type}.
Implicit Types (d : list (string * V)) (k : string) (v : V).

Lemma dict_get_absent d k : k ∉ d.*1 → dict_get k d = None.
Proof.
  induction d as [|[k' v] d IH]; [done|]. cbn. intros [Hne Hk]%not_elem_of_cons.
  apply String.eqb_neq in Hne. rewrite Hne. by apply IH.
Qed.

Lemma dict_keys_set d k v : (dict_set k v d).*1 = if dict_has k d then d.*1 else d.*1 ++ [k].
Proof.
  unfold dict_has. induction d as [|[k' v'] d IH]; [done|]. cbn.
  destruct (String.eqb k k') eqn:E; [by apply String.eqb_eq in E as ->|]. cbn. rewrite IH.
  by destruct (dict_get k d).
Qed.

Lemma dict_set_NoDup d k v : NoDup d.*1 → NoDup (dict_set k v d).*1.
Proof.
  intros Hd. rewrite dict_keys_set. unfold dict_has. destruct (dict_get k d) eqn:E; [done|].
  apply NoDup_app. split_and!; [done| |apply NoDup_singleton].
  intros x Hx ->%list_elem_of_singleton. revert Hx E. clear. induction d as [|[k' v'] d IH]; [set_solver|].
  cbn. rewrite elem_of_cons. intros [->|Hx]; [by rewrite String.eqb_refl|].
  destruct (String.eqb _ _); [done|]. by apply IH.
Qed.

Lemma elem_of_dict_set d k v e : e ∈ dict_set k v d → e = (k, v) ∨ e ∈ d.
Proof.
  induction d as [|[k' v'] d IH]; cbn; [set_solver|]. destruct (String.eqb k k'); set_solver.
Qed.

Lemma dict_pop_sub d k : dict_pop k d ⊆ d.
Proof. unfold dict_pop. intros x [Hx _]%elem_of_Lfilter. done. Qed.
Lemma dict_pop_NoDup d k : NoDup d.*1 → NoDup (dict_pop k d).*1.
Proof. apply NoDup_map_Lfilter. Qed.
Lemma dict_pop_absent d k : k ∉ d.*1 → dict_pop k d = d.
Proof.
  intros Hk. unfold dict_pop. apply Lfilter_all. intros [k' v] Hin. simpl.
  apply negb_true_iff, String.eqb_neq. intros ->. apply Hk. apply list_elem_of_fmap. by exists (k', v).
Qed.

(** A filter that keeps the entry of a key, and one on distinct keys *)
Lemma dict_get_filter (p : string * V → bool) k v d :
  dict_get k d = Some v → p (k, v) = true → dict_get k (List.filter p d) = Some v.
Proof.
  induction d as [|[k' v'] d IH]; simpl; [done|]. destruct (String.eqb_spec k k') as [<-|Hne].
  - intros [= ->] Hp. rewrite Hp. simpl. by rewrite String.eqb_refl.
  - intros Hd Hp. apply String.eqb_neq in Hne. destruct (p (k', v')); simpl; rewrite ?Hne; auto.
Qed.

Lemma dict_get_unique d k v : NoDup d.*1 → (k, v) ∈ d → dict_get k d = Some v.
Proof.
  induction d as [|[k' v'] d IH]; cbn; [set_solver|]. intros [Hk Hd]%NoDup_cons [E|Hin]%elem_of_cons.
  - simplify_eq. by rewrite String.eqb_refl.
  - destruct (String.eqb_spec k k') as [->|]; [|auto]. exfalso. apply Hk.
    apply list_elem_of_fmap. by exists (k', v).
Qed.
End dict_keys.

#[export] Hint Rewrite @dict_get_set_eq @dict_get_pop_eq : engine.
