(* ===== verification/PyText.v ===== *)
(** * Text as the sources handle it

    The string methods of Python the components share beyond those of [Json]: suffixes,
    [replace], [rsplit], [splitlines], the substitution of a regular expression, and
    numbers in decimal notation, read and printed.  A regular expression is a matcher:
    what it consumes at a position, given the character before it. *)

From Stdlib Require Import Qround Qabs.
From S2P Require Import Prelude.
From S2P Require Import Json.
Local Open Scope string_scope.
Local Open Scope list_scope.
Local Open Scope Z_scope.

Module Txt.

(** [s.endswith(p)], and [s[:-len(p)]] *)
Definition endswith (p s : string) : bool := String.prefix (String.rev p) (String.rev s).
Definition removesuffix (p s : string) : string :=
  String.rev (PyStr.drop (String.length p) (String.rev s)).

(** [s.lstrip(c)], [s.rstrip(c)] for one character *)
Fixpoint lstrip_char (c : ascii) (s : string) : string :=
  match s with
  | String d r => if Ascii.eqb c d then lstrip_char c r else s
  | EmptyString => EmptyString
  end.
Definition rstrip_char (c : ascii) (s : string) : string :=
  String.rev (lstrip_char c (String.rev s)).

(** [s.rsplit(c, 1)]: what precedes the last [c] when there is one, and what follows it *)
Definition rsplit1 (c : ascii) (s : string) : option string * string :=
  match PyStr.split1 c (String.rev s) with
  | (w, None) => (None, String.rev w)
  | (w, Some r) => (Some (String.rev r), String.rev w)
  end.

(** The blanks of a text as single spaces, and [s.split()] *)
Fixpoint blanks (s : string) : string :=
  match s with
  | EmptyString => EmptyString
  | String c r => String (if PyStr.is_space c then " "%char else c) (blanks r)
  end.
Definition words (s : string) : list string :=
  List.filter PyStr.truthy (PyStr.split " " (blanks s)).

(** [s.splitlines()] of a text whose lines end in a newline *)
Definition newline : ascii := "010"%char.
Definition splitlines (s : string) : list string :=
  match List.rev (PyStr.split newline s) with
  | EmptyString :: r => List.rev r
  | l => List.rev l
  end.

(** [sep.join(l)] *)
Fixpoint join (sep : string) (l : list string) : string :=
  match l with
  | [] => ""
  | [s] => s
  | s :: r => s +:+ sep +:+ join sep r
  end.

(** [s.replace(old, new)] for a non-empty [old]: the occurrences from the left, without
    overlap.  [skip] characters of a match are left to pass over. *)
Fixpoint replace_go (old new : string) (skip : nat) (s : string) : string :=
  match s with
  | EmptyString => EmptyString
  | String c r =>
      match skip with
      | S k => replace_go old new k r
      | O => if String.prefix old s
             then new +:+ replace_go old new (String.length old - 1) r
             else String c (replace_go old new O r)
      end
  end.
Definition replace (old new s : string) : string := replace_go old new O s.

(** [re.sub]: at each position outside the last match, the matcher answers how many
    characters it consumes (at least one) and what replaces them. *)
Definition matcher := option ascii → string → option (nat * string).
Fixpoint resub_go (m : matcher) (prev : option ascii) (skip : nat) (s : string) : string :=
  match s with
  | EmptyString => EmptyString
  | String c r =>
      match skip with
      | S k => resub_go m (Some c) k r
      | O => match m prev s with
             | Some (n, new) => new +:+ resub_go m (Some c) (n - 1) r
             | None => String c (resub_go m (Some c) O r)
             end
      end
  end.
Definition resub (m : matcher) (s : string) : string := resub_go m None O s.

(** The longest prefix of the characters that satisfy [p], and what follows it *)
Fixpoint span (p : ascii → bool) (s : string) : string * string :=
  match s with
  | EmptyString => (EmptyString, EmptyString)
  | String c r => if p c then let '(a, b) := span p r in (String c a, b) else (EmptyString, s)
  end.

Definition is_alpha (c : ascii) : bool :=
  let n := N_of_ascii c in
  ((65 <=? n)%N && (n <=? 90)%N) || ((97 <=? n)%N && (n <=? 122)%N).
Definition is_underscore (c : ascii) : bool := Ascii.eqb c "_".
(** [[A-Za-z_]], and the word characters of a pattern *)
Definition ident_start (c : ascii) : bool := is_alpha c || is_underscore c.
Definition is_word (c : ascii) : bool := ident_start c || PyStr.is_digit c.

(** ** Decimal numbers *)

(** Nearest integer, a half to the even one *)
Definition round_half_even (x : Q) : Z :=
  let f := Qfloor x in
  let d := (x - inject_Z f)%Q in
  if Qle_bool d (1 # 2) && (negb (Qeq_bool d (1 # 2)) || Z.even f) then f else f + 1.

(** [n] in at least [k] digits, zeros in front *)
Fixpoint zeros (k : nat) : string := match k with O => "" | S k' => String "0" (zeros k') end.
Definition padded (k : nat) (n : Z) : string :=
  let s := pretty n in zeros (k - String.length s) +:+ s.

(** The decimal point [d] digits from the right of [n] *)
Definition with_point (d : nat) (n : Z) : string :=
  match d with
  | O => pretty n
  | _ => pretty (n / 10 ^ Z.of_nat d) +:+ "." +:+ padded d (n mod 10 ^ Z.of_nat d)
  end.
(** [f"{x:.2f}"] of a number that is not negative *)
Definition fixed2 (x : Q) : string := with_point 2 (round_half_even (x * 100)%Q).

(** Trailing zeros of a fraction, and the point when nothing is left of it *)
Definition trim_fraction (s : string) : string := rstrip_char "." (rstrip_char "0" s).
(** The least [k] with [10^k * x >= 1]: a float needs fewer than 400 *)
Fixpoint scale (fuel : nat) (x : Q) : nat :=
  match fuel with
  | O => O
  | S f => if Qle_bool 1 x then O else S (scale f (x * 10)%Q)
  end.
(** [f"{x:g}"] of a number in (0, 1]: six significant digits, scientific below 1e-4 *)
Definition fmt_g (x : Q) : string :=
  let k := scale 400 x in
  let m := round_half_even (x * inject_Z (10 ^ Z.of_nat (k + 5)))%Q in
  let '(m, k) := if m =? 1000000 then (100000, (k - 1)%nat) else (m, k) in
  if (k <=? 4)%nat then trim_fraction (with_point (k + 5) m)
  else trim_fraction (with_point 5 m) +:+ "e-" +:+ padded 2 (Z.of_nat k).

(** Digits of a literal, a single underscore allowed between two of them *)
Fixpoint literal_digits (after_digit : bool) (s : string) : option string :=
  match s with
  | EmptyString => if after_digit then Some EmptyString else None
  | String c r =>
      if PyStr.is_digit c then String c <$> literal_digits true r
      else match after_digit, is_underscore c, r with
           | true, true, String d _ => if PyStr.is_digit d then literal_digits false r else None
           | _, _, _ => None
           end
  end.
Definition optional_digits (s : string) : option string :=
  match s with EmptyString => Some EmptyString | _ => literal_digits false s end.

Definition unsign (s : string) : Z * string :=
  match s with
  | String "-" r => (-1, r)
  | String "+" r => (1, r)
  | _ => (1, s)
  end.
(** [10^e] *)
Definition pow10 (e : Z) : Q :=
  if 0 <=? e then inject_Z (10 ^ e) else (/ inject_Z (10 ^ (- e)))%Q.
Definition is_exponent (c : ascii) : bool := Ascii.eqb c "e" || Ascii.eqb c "E".

(** [float(s)]: None is [ValueError], [Some None] an infinity or nan, which is no
    rational; a finite one is taken exactly *)
Definition py_float (s : string) : option (option Q) :=
  let '(sg, body) := unsign (PyStr.strip s) in
  if bool_decide (PyStr.lower body ∈ ["inf"; "infinity"; "nan"]) then Some None else
  let '(mant, rest) := span (λ c, negb (is_exponent c)) body in
  let '(whole, frac) := PyStr.split1 "." mant in
  match optional_digits whole, optional_digits (default "" frac),
        match rest with
        | EmptyString => Some 0
        | String _ r => let '(es, ed) := unsign r in
                        (λ d, es * PyStr.int_of_digits d) <$> literal_digits false ed
        end with
  | Some i, Some f, Some e =>
      if PyStr.truthy (i +:+ f)
      then Some (Some (Qred (inject_Z sg * inject_Z (PyStr.int_of_digits (i +:+ f))
                       * pow10 (e - Z.of_nat (String.length f)))))
      else None
  | _, _, _ => None
  end.
End Txt.

(** ** Lemmas *)

Section text_lemmas.
Implicit Types (s t p q : string).

Lemma string_app_nil s : s +:+ "" = s.
Proof. induction s as [|c s IH]; [done|]. change (String c (s +:+ "") = String c s). by rewrite IH. Qed.

Lemma string_app_assoc s t q : (s +:+ t) +:+ q = s +:+ (t +:+ q).
Proof.
  induction s as [|c s IH]; [done|].
  change (String c ((s +:+ t) +:+ q) = String c (s +:+ (t +:+ q))). by rewrite IH.
Qed.

Lemma string_length_app s t : String.length (s +:+ t) = (String.length s + String.length t)%nat.
Proof.
  induction s as [|c s IH]; [done|].
  change (S (String.length (s +:+ t)) = S (String.length s + String.length t)). by rewrite IH.
Qed.

Lemma prefix_app p s : String.prefix p (p +:+ s) = true.
Proof.
  induction p as [|c p IH]; [by destruct s|].
  change (String.prefix (String c p) (String c (p +:+ s)) = true). simpl.
  by destruct (ascii_dec c c).
Qed.

Lemma prefix_spec p s : String.prefix p s = true → ∃ t, s = p +:+ t.
Proof.
  revert s. induction p as [|c p IH]; intros s; [by exists s|].
  destruct s as [|d s]; simpl; [done|]. destruct (ascii_dec c d) as [->|]; [|done].
  intros (t & ->)%IH. by exists t.
Qed.

Lemma drop_app p s : PyStr.drop (String.length p) (p +:+ s) = s.
Proof. induction p as [|c p IH]; [by destruct s|exact IH]. Qed.

(** The first [=] of [k=v] ends the key when the key has none. *)
Lemma split1_app c s t :
  (PyStr.split1 c s).2 = None → PyStr.split1 c (s +:+ String c t) = (s, Some t).
Proof.
  induction s as [|d s IH]; intros Hs; simpl.
  - change (PyStr.split1 c (String c t) = ("", Some t)). simpl. by rewrite Ascii.eqb_refl.
  - change (PyStr.split1 c (String d (s +:+ String c t)) = (String d s, Some t)). simpl.
    simpl in Hs. destruct (Ascii.eqb c d); [done|].
    destruct (PyStr.split1 c s) as [w r]; simpl in *. by rewrite IH.
Qed.

Lemma split1_none c s : (PyStr.split1 c s).2 = None → (PyStr.split1 c s).1 = s.
Proof.
  induction s as [|d s IH]; simpl; [done|]. destruct (Ascii.eqb c d); [done|].
  destruct (PyStr.split1 c s) as [w r]; simpl in *. intros Hr. by rewrite IH.
Qed.

Lemma span_app (f : ascii → bool) s :
  (Txt.span f s).1 +:+ (Txt.span f s).2 = s.
Proof.
  induction s as [|c s IH]; simpl; [done|]. destruct (f c); [|done].
  destruct (Txt.span f s) as [a b]; simpl in *. by rewrite <- IH.
Qed.
End text_lemmas.

(** ** Decimal text

    [str(n)] and [int(s)] are inverse on the naturals. *)

Section decimal.
Lemma pretty_char_digit x :
  (x < 10)%N → PyStr.is_digit (pretty_N_char x) = true ∧
  Z.of_N (N_of_ascii (pretty_N_char x)) - 48 = Z.of_N x.
Proof.
  intros Hx. assert (x = 0 ∨ x = 1 ∨ x = 2 ∨ x = 3 ∨ x = 4 ∨ x = 5 ∨ x = 6 ∨ x = 7 ∨
    x = 8 ∨ x = 9)%N as Hc by lia.
  destruct_or! Hc; subst; done.
Qed.

Lemma pretty_go_digits x s :
  PyStr.all_digits s = true → PyStr.all_digits (pretty_N_go x s) = true.
Proof.
  revert s. induction (N.lt_wf_0 x) as [x _ IH]. intros s Hs.
  destruct (decide (0 < x)%N) as [Hx|Hx].
  - rewrite pretty_N_go_step by done. apply IH.
    + apply N.div_lt; lia.
    + simpl. destruct (pretty_char_digit (x `mod` 10)) as [-> _]; [|done].
      apply N.mod_lt. lia.
  - assert (x = 0)%N as -> by lia. by rewrite pretty_N_go_0.
Qed.

Lemma pretty_go_int x s :
  PyStr.int_acc 0 (pretty_N_go x s) = PyStr.int_acc (Z.of_N x) s.
Proof.
  revert s. induction (N.lt_wf_0 x) as [x _ IH]. intros s.
  destruct (decide (0 < x)%N) as [Hx|Hx].
  - rewrite pretty_N_go_step by done. rewrite IH by (apply N.div_lt; lia). simpl.
    destruct (pretty_char_digit (x `mod` 10)) as [_ ->]; [apply N.mod_lt; lia|].
    f_equal. pose proof (N.div_mod x 10). lia.
  - assert (x = 0)%N as -> by lia. by rewrite pretty_N_go_0.
Qed.

(** [int(str(n)) = n], and [str(n)] is all digits, for a positive [n]. *)
Lemma pretty_pos_digits n :
  1 ≤ n → PyStr.isdigit (pretty n) = true ∧ PyStr.int_of_digits (pretty n) = n.
Proof.
  intros Hn. destruct n as [|p|p]; [lia| |lia].
  unfold pretty, pretty_Z, pretty, pretty_positive, pretty, pretty_N.
  rewrite decide_False by lia.
  assert (PyStr.all_digits (pretty_N_go (N.pos p) "") = true) as Hd
    by by apply pretty_go_digits.
  assert (PyStr.int_acc 0 (pretty_N_go (N.pos p) "") = Z.pos p) as Hi
    by by rewrite pretty_go_int.
  split; [|done]. destruct (pretty_N_go _ _) eqn:E; done.
Qed.

(** Digits are neither blanks nor capitals, so [strip] and [lower] keep them. *)
Lemma digit_plain c :
  PyStr.is_digit c = true → PyStr.is_space c = false ∧ PyStr.lower_char c = c.
Proof. destruct c as [[] [] [] [] [] [] [] []]; vm_compute; done. Qed.

Lemma lower_digits s : PyStr.all_digits s = true → PyStr.lower s = s.
Proof.
  induction s as [|c s IH]; simpl; [done|]. intros [Hc Hs]%andb_true_iff.
  rewrite (proj2 (digit_plain c Hc)), IH; done.
Qed.

Lemma lstrip_digits s : PyStr.all_digits s = true → PyStr.lstrip s = s.
Proof.
  destruct s as [|c s]; simpl; [done|]. intros [Hc _]%andb_true_iff.
  by rewrite (proj1 (digit_plain c Hc)).
Qed.

Lemma all_digits_rev_app s t :
  PyStr.all_digits (String.rev_app s t) = PyStr.all_digits s && PyStr.all_digits t.
Proof.
  revert t. induction s as [|c s IH]; intros t; simpl; [done|]. rewrite IH. simpl.
  by destruct (PyStr.is_digit c), (PyStr.all_digits s).
Qed.

Lemma rev_app_rev_app s t u :
  String.rev_app (String.rev_app s t) u = String.rev_app t (s +:+ u).
Proof.
  revert t. induction s as [|c s IH]; intros t; simpl; [done|]. by rewrite IH.
Qed.

Lemma string_rev_rev s : String.rev (String.rev s) = s.
Proof.
  unfold String.rev. rewrite rev_app_rev_app. simpl.
  induction s as [|c s IH]; [done|].
  change (String c (s +:+ "") = String c s). by rewrite IH.
Qed.

Lemma strip_digits s : PyStr.all_digits s = true → PyStr.strip s = s.
Proof.
  intros Hs. unfold PyStr.strip. rewrite (lstrip_digits s) by done.
  rewrite lstrip_digits, string_rev_rev; [done|].
  unfold String.rev. by rewrite all_digits_rev_app, Hs.
Qed.
End decimal.

(** [int(str(n)) = n] for a positive [n]. *)
Lemma int_digits_acc a s :
  PyStr.all_digits s = true →
  PyStr.int_digits (Some a) s = Some (PyStr.int_acc a s).
Proof.
  revert a. induction s as [|c s IH]; intros a; simpl; [done|].
  intros [Hc Hs]%andb_true_iff. rewrite Hc. by apply IH.
Qed.

Lemma int_pretty n : 1 ≤ n → PyStr.int (pretty n) = Some n.
Proof.
  intros Hn. destruct (pretty_pos_digits n Hn) as [Hd Hi]. unfold PyStr.int, PyStr.isdigit in *.
  destruct (pretty n) as [|c s] eqn:E; [done|]. rewrite strip_digits by done.
  pose proof Hd as [Hc Hs]%andb_true_iff.
  assert (PyStr.int_digits None (String c s) = Some n) as Hr.
  { simpl. rewrite Hc, int_digits_acc by done. by f_equal. }
  destruct c as [[] [] [] [] [] [] [] []]; first [exact Hr|done].
Qed.
