(* ===== verification/Migrations.v ===== *)
(** * The migration runner ([queue_workflows/db.py])

    The chain of numbered SQL files a database is brought up and down by: which files are
    the chain, what is recorded in the ledger, and what a failure leaves, on Postgres (the
    whole run is one transaction) and on SQLite ([executescript] commits as it goes).  The
    relational engine is a parameter: what one statement does to the tables and how a file
    is cut into statements.  Several processes that run the chain at once are a step
    relation over the advisory lock. *)

From S2P Require Import Prelude Json PyText.
Local Open Scope string_scope.
Local Open Scope list_scope.
Local Open Scope Z_scope.

(** ** The database a migration runs against *)

Class SqlEngine := {
  tables : Type;
  no_tables : tables;
  stmt : Type;
  statements : string → list stmt;
  run_stmt : stmt → tables → result tables;
}.

(** A version table that exists holds the versions in the order they were inserted. *)
Record store `{SqlEngine} := mkStore { ledgers : list (string * list Z); schema : tables }.
Arguments mkStore {_} _ _.
Definition set_ledger `{SqlEngine} (t : string) (l : list Z) (s : store) : store :=
  mkStore (dict_set t l (ledgers s)) (schema s).
Definition set_schema `{SqlEngine} (x : tables) (s : store) : store := mkStore (ledgers s) x.

(** A connection: what others see, and the open transaction when there is one *)
Record conn `{SqlEngine} := mkConn { committed : store; working : option store }.
Arguments mkConn {_} _ _.
Definition current `{SqlEngine} (c : conn) : store := default (committed c) (working c).
Definition write `{SqlEngine} (s : store) (c : conn) : conn :=
  match working c with Some _ => mkConn (committed c) (Some s) | None => mkConn s None end.
Definition commit `{SqlEngine} (c : conn) : conn := mkConn (current c) None.

Definition C `{SqlEngine} (A : Type) : Type := conn → result A * conn.
#[export] Instance C_ret `{SqlEngine} : MRet C := λ A a c, (Ok a, c).
#[export] Instance C_bind `{SqlEngine} : MBind C := λ A B f m c,
  match m c with (Ok a, c) => f a c | (Raise x, c) => (Raise x, c) end.
Definition C_lift `{SqlEngine} {A} (r : result A) : C A := λ c, (r, c).

(** [with connection()]: commit on a clean exit, roll back on an exception *)
Definition with_connection `{SqlEngine} {A} (body : C A) (s : store) : result A * store :=
  match body (mkConn s (Some s)) with
  | (Ok a, c) => (Ok a, committed (commit c))
  | (Raise x, c) => (Raise x, committed c)
  end.

(** ** The files of a chain *)

(** A directory: the names and the texts of its files, in the order it lists them *)
Definition directory : Type := list (string * string).
Definition migration : Type := Z * (string * string).

(** [path.stem] *)
Definition stem (name : string) : string :=
  match Txt.rsplit1 "." name with
  | (Some before, after) => if PyStr.truthy before && PyStr.truthy after then before else name
  | (None, _) => name
  end.
(** [int(path.stem.split("_", 1)[0])] *)
Definition version_of (name : string) : result Z :=
  match PyStr.int (PyStr.split1 "_" (stem name)).1 with
  | Some n => Ok n
  | None => Raise (ValueError "invalid literal for int()")
  end.

Definition is_forward (f : string * string) : bool :=
  Txt.endswith ".sql" f.1 && negb (Txt.endswith ".down.sql" f.1) && negb (String.eqb f.1 "schema.sql").
Definition _forward_migrations (dir : directory) : result (list migration) :=
  mapR (λ f, n ← version_of f.1; Ok (n, f)) (List.filter is_forward (sort_by (PyStr.key ∘ fst) dir)).

Definition _down_migration (dir : directory) (version : Z) : result (option (string * string)) :=
  found ← mapR (λ f, n ← version_of f.1; Ok (n, f)) (List.filter (λ f, Txt.endswith ".down.sql" f.1) dir);
  match List.filter (λ nf : migration, nf.1 =? version) found with
  | [] => Ok None
  | [nf] => Ok (Some nf.2)
  | _ => Raise (RuntimeError "multiple down files")
  end.

(** The pattern ends in [$], which also matches before a newline that ends the text. *)
Definition identifier (s : string) : bool :=
  match s with
  | String c r => Txt.ident_start c && PyStr.truthy s && String.eqb (Txt.span Txt.is_word r).2 ""
  | EmptyString => false
  end.
Definition _check_identifier (name : string) : result string :=
  if identifier name || (Txt.endswith (String Txt.newline "") name && identifier (Txt.removesuffix (String Txt.newline "") name))
  then Ok name else Raise (ValueError "invalid version_table identifier").

(** ** Running a file *)

Section runner.
Context `{SqlEngine}.

(** The statements in order; the tables as the last one that succeeded left them *)
Fixpoint run_script (l : list stmt) (x : tables) : result () * tables :=
  match l with
  | [] => (Ok (), x)
  | q :: r => match run_stmt q x with
              | Ok x => run_script r x
              | Raise e => (Raise e, x)
              end
  end.

(** On Postgres the file runs inside the transaction; on SQLite [executescript] commits
    what is open and then every statement by itself. *)
Definition _apply_migration_sql (sqlite : bool) (sql_text : string) : C () := λ c,
  let c := if sqlite then commit c else c in
  let '(r, x) := run_script (statements sql_text) (schema (current c)) in
  (r, write (set_schema x (current c)) c).

Definition create_ledger (t : string) : C () := λ c,
  (Ok (), match dict_get t (ledgers (current c)) with
          | Some _ => c
          | None => write (set_ledger t [] (current c)) c
          end).
Definition UndefinedTable : exc := OtherError "UndefinedTable".
(** [SELECT version FROM t ORDER BY version] *)
Definition select_versions (t : string) : C (list Z) := λ c,
  (match dict_get t (ledgers (current c)) with
   | Some l => Ok (sort_by (λ n, [n]) l)
   | None => Raise UndefinedTable
   end, c).
Definition _applied_versions (t : string) : C (list Z) :=
  name ← C_lift (_check_identifier t); select_versions name.
(** [INSERT INTO t (version)]; the column is the primary key *)
Definition insert_version (t : string) (n : Z) : C () := λ c,
  match dict_get t (ledgers (current c)) with
  | None => (Raise UndefinedTable, c)
  | Some l => if bool_decide (n ∈ l) then (Raise (IntegrityError "version"), c)
              else (Ok (), write (set_ledger t (l ++ [n]) (current c)) c)
  end.
Definition delete_version (t : string) (n : Z) : C () := λ c,
  match dict_get t (ledgers (current c)) with
  | None => (Raise UndefinedTable, c)
  | Some l => (Ok (), write (set_ledger t (List.filter (λ m, negb (m =? n)) l) (current c)) c)
  end.
Definition conn_commit : C () := λ c, (Ok (), commit c).

(** ** Up *)

Fixpoint apply_pending (sqlite : bool) (t : string) (applied : list Z) (l : list migration) : C () :=
  match l with
  | [] => mret ()
  | (n, f) :: r =>
      if bool_decide (n ∈ applied) then apply_pending sqlite t applied r
      else _ ← _apply_migration_sql sqlite f.2;
           _ ← insert_version t n;
           apply_pending sqlite t applied r
  end.
Definition bootstrap (sqlite : bool) (dir : directory) (version_table : string) (s : store) : result () * store :=
  match _check_identifier version_table with
  | Raise x => (Raise x, s)
  | Ok t =>
      with_connection
        (_ ← create_ledger t;
         applied ← _applied_versions t;
         l ← C_lift (_forward_migrations dir);
         _ ← apply_pending sqlite t applied l;
         conn_commit) s
  end.

(** ** Down *)

Definition no_down_file : exc := RuntimeError "no down file".
Fixpoint revert (sqlite : bool) (dir : directory) (t : string) (to_version : Z) (versions : list Z) : C (list Z) :=
  match versions with
  | [] => mret []
  | v :: r =>
      if v <=? to_version then mret []
      else down ← C_lift (_down_migration dir v);
           match down with
           | None => C_lift (Raise no_down_file)
           | Some f => _ ← _apply_migration_sql sqlite f.2;
                       _ ← delete_version t v;
                       done ← revert sqlite dir t to_version r;
                       mret (v :: done)
           end
  end.
Definition downgrade (sqlite : bool) (dir : directory) (to_version : Z) (version_table : string) (s : store)
    : result (list Z) * store :=
  match _check_identifier version_table with
  | Raise x => (Raise x, s)
  | Ok t =>
      with_connection
        (λ c, match dict_get t (ledgers (current c)) with
              | None => (Ok [], c)
              | Some _ =>
                  (applied ← _applied_versions t;
                   reverted ← revert sqlite dir t to_version (rev applied);
                   _ ← conn_commit;
                   mret reverted) c
              end) s
  end.

(** ** The version, and waiting for it *)

(** [COALESCE(MAX(version), 0)] *)
Definition max_version (l : list Z) : Z := match l with [] => 0 | x :: r => foldr Z.max x r end.
Definition current_schema_version (version_table : string) (s : store) : result Z :=
  t ← _check_identifier version_table;
  Ok (match dict_get t (ledgers s) with None => 0 | Some l => max_version l end).

Definition TimeoutError : exc := OtherError "TimeoutError".
(** [wait_for_schema] over its polls: the database and the clock each of them met; None
    while the polls have not ended the wait *)
Fixpoint wait_for_schema (min_version deadline : Z) (version_table : string) (polls : list (store * Z))
    : option (result Z) :=
  match polls with
  | [] => None
  | (s, now) :: r =>
      match current_schema_version version_table s with
      | Raise x => Some (Raise x)
      | Ok v => if min_version <=? v then Some (Ok v)
                else if deadline <=? now then Some (Raise TimeoutError)
                else wait_for_schema min_version deadline version_table r
      end
  end.

(** ** The snapshot, and the reset of a test database *)

(** [bootstrap_from_schema]: [psql] is what running the snapshot file did *)
Definition bootstrap_from_schema (exists_ : bool) (psql : store → result () * store) (version_table : string) (s : store)
    : result Z * store :=
  match _check_identifier version_table with
  | Raise x => (Raise x, s)
  | Ok t =>
      if negb exists_ then (Ok 0, s) else
      let current := match dict_get t (ledgers s) with None => 0 | Some l => max_version l end in
      if 0 <? current then (Ok current, s)
      else match psql s with
           | (Raise x, s) => (Raise x, s)
           | (Ok _, s) => (match dict_get t (ledgers s) with
                           | Some l => Ok (max_version l)
                           | None => Raise UndefinedTable
                           end, s)
           end
  end.

Definition ENGINE_VERSION_TABLE : string := "queue_schema_version".
(** [db_name] is the path of the parsed address; on Postgres, whose schema it drops *)
Definition reset_for_tests (dir : directory) (db_name : string) (s : store) : result () * store :=
  if Txt.endswith "_test" (Txt.lstrip_char "/" db_name)
  then bootstrap false dir ENGINE_VERSION_TABLE (mkStore [] no_tables)
  else (Raise (RuntimeError "reset_for_tests() refused"), s).
End runner.

(** ** What a run amounts to *)

Lemma check_identifier_same t t' : _check_identifier t = Ok t' → t' = t.
Proof. unfold _check_identifier. destruct (_ || _); [by intros [= ->]|done]. Qed.

Section pure.
Context `{SqlEngine}.
Implicit Types (s : store) (c : conn) (m : migration) (l : list migration) (t : string).

Definition applied_of t s : list Z := default [] (dict_get t (ledgers s)).
Definition with_ledger t s : store :=
  match dict_get t (ledgers s) with Some _ => s | None => set_ledger t [] s end.
Definition pending (applied : list Z) l : list migration :=
  List.filter (λ m, negb (bool_decide (m.1 ∈ applied))) l.

(** One migration: the exception, or the store with its tables and its version *)
Definition record_version t (n : Z) s : result store :=
  match dict_get t (ledgers s) with
  | None => Raise UndefinedTable
  | Some a => if bool_decide (n ∈ a) then Raise (IntegrityError "version") else Ok (set_ledger t (a ++ [n]) s)
  end.
(** [lite]: what an exception leaves behind is kept *)
Definition one (lite : bool) t m s : result () * store :=
  let '(r, x) := run_script (statements m.2.2) (schema s) in
  let s1 := set_schema x s in
  match r with
  | Raise e => (Raise e, if lite then s1 else s)
  | Ok _ => match record_version t m.1 s1 with
            | Ok s2 => (Ok (), s2)
            | Raise e => (Raise e, if lite then s1 else s)
            end
  end.
Fixpoint all (lite : bool) t l s : result () * store :=
  match l with
  | [] => (Ok (), s)
  | m :: r => match one lite t m s with
              | (Ok _, s) => all lite t r s
              | (Raise e, s) => (Raise e, s)
              end
  end.
(** The whole run: SQLite keeps what it did before a failure, Postgres nothing *)
Definition brings_up (sqlite : bool) (dir : directory) t s : result () * store :=
  match _forward_migrations dir with
  | Raise e => (Raise e, s)
  | Ok l => match all sqlite t (pending (applied_of t s) l) (with_ledger t s) with
            | (Ok _, s') => (Ok (), s')
            | (Raise e, s') => (Raise e, if sqlite then s' else s)
            end
  end.

Lemma dict_get_ledger t a s : dict_get t (ledgers (set_ledger t a s)) = Some a.
Proof. apply dict_get_set_eq. Qed.
Lemma applied_with_ledger t s : applied_of t (with_ledger t s) = applied_of t s.
Proof.
  unfold applied_of, with_ledger. destruct (dict_get t (ledgers s)) eqn:E; [by rewrite E|].
  by rewrite dict_get_ledger.
Qed.
Lemma with_ledger_some t s : dict_get t (ledgers (with_ledger t s)) = Some (applied_of t s).
Proof.
  unfold applied_of, with_ledger. destruct (dict_get t (ledgers s)) eqn:E; [by rewrite E|].
  by rewrite dict_get_ledger.
Qed.

Lemma pending_perm (a a' : list Z) l : a ≡ₚ a' → pending a l = pending a' l.
Proof.
  intros Hp. apply filter_ext. intros m. f_equal. apply bool_decide_ext. by rewrite Hp.
Qed.

(** The migrations of a connection, in the transaction (Postgres) or out of it *)
Lemma apply_one_pg t m s0 s :
  ∃ c', (_ ← _apply_migration_sql false m.2.2; insert_version t m.1) (mkConn s0 (Some s)) =
          ((one false t m s).1, c') ∧
        committed c' = s0 ∧ (is_ok (one false t m s).1 = true → c' = mkConn s0 (Some (one false t m s).2)).
Proof.
  unfold one, mbind, C_bind, _apply_migration_sql, insert_version, record_version. cbn.
  destruct (run_script _ _) as [[[]|e] x]; cbn; [|by eexists].
  destruct (dict_get t (ledgers s)) as [a|]; [|by eexists]. case_bool_decide; by eexists.
Qed.
Lemma apply_one_lite t m c :
  ∃ c', (_ ← _apply_migration_sql true m.2.2; insert_version t m.1) c = ((one true t m (current c)).1, c') ∧
        c' = mkConn (one true t m (current c)).2 None.
Proof.
  unfold one, mbind, C_bind, _apply_migration_sql, insert_version, record_version. cbn.
  destruct (run_script _ _) as [[[]|e] x]; cbn; [|by eexists].
  destruct (dict_get t (ledgers (current c))) as [a|]; [|by eexists]. case_bool_decide; by eexists.
Qed.

Lemma C_bind_assoc {A B D} (p : C A) (f : A → C B) (g : B → C D) c :
  (x ← p; y ← f x; g y) c = (y ← (x ← p; f x); g y) c.
Proof. unfold mbind, C_bind. by destruct (p c) as [[]]. Qed.

Lemma apply_pending_pg t applied l s0 s :
  ∃ c', apply_pending false t applied l (mkConn s0 (Some s)) = ((all false t (pending applied l) s).1, c') ∧
    committed c' = s0 ∧
    (is_ok (all false t (pending applied l) s).1 = true → c' = mkConn s0 (Some (all false t (pending applied l) s).2)).
Proof.
  revert s. induction l as [|[n f] l IH]; intros s; [by eexists|]. cbn [apply_pending pending List.filter fst].
  case_bool_decide; cbn [negb]; [apply IH|]. cbn [all].
  destruct (apply_one_pg t (n, f) s0 s) as (c' & E & Hc & Hok). cbn [fst snd] in E.
  rewrite C_bind_assoc. unfold mbind at 1, C_bind at 1. rewrite E.
  destruct (one false t (n, f) s) as [[[]|e] s1]; cbn [fst snd is_ok] in *; [|by eexists].
  rewrite Hok by done. apply IH.
Qed.
Lemma apply_pending_lite t applied l c :
  ∃ c', apply_pending true t applied l c = ((all true t (pending applied l) (current c)).1, c') ∧
    current c' = (all true t (pending applied l) (current c)).2 ∧
    (is_ok (all true t (pending applied l) (current c)).1 = false → working c' = None) ∧
    (working c = None → working c' = None).
Proof.
  revert c. induction l as [|[n f] l IH]; intros c; [by eexists|]. cbn [apply_pending pending List.filter fst].
  case_bool_decide; cbn [negb]; [apply IH|]. cbn [all].
  destruct (apply_one_lite t (n, f) c) as (c' & E & Hc). cbn [fst snd] in E.
  rewrite C_bind_assoc. unfold mbind at 1, C_bind at 1. rewrite E.
  destruct (one true t (n, f) (current c)) as [[[]|e] s1]; cbn [fst snd is_ok] in *; [|by subst c'; eexists].
  destruct (IH c') as (c2 & -> & Hcur & Hf & Hn). exists c2. subst c'. cbn in Hcur, Hn.
  split_and!; [done|done|exact Hf|by intros _; apply Hn].
Qed.

Lemma bootstrap_pure sqlite dir t s :
  _check_identifier t = Ok t → bootstrap sqlite dir t s = brings_up sqlite dir t s.
Proof.
  intros Hid. unfold bootstrap, brings_up. rewrite Hid. unfold with_connection.
  unfold mbind at 1, C_bind at 1.
  assert (create_ledger t (mkConn s (Some s)) = (Ok (), mkConn s (Some (with_ledger t s)))) as ->.
  { unfold create_ledger, with_ledger. cbn. by destruct (dict_get t (ledgers s)). }
  unfold mbind at 1, C_bind at 1. unfold _applied_versions. unfold mbind at 1, C_bind at 1.
  unfold C_lift at 1. rewrite Hid. unfold select_versions. cbn [current working default from_option id].
  rewrite with_ledger_some. set (a := sort_by _ (applied_of t s)).
  assert (∀ l, pending a l = pending (applied_of t s) l) as Ha.
  { intros l. apply pending_perm, sort_by_perm. }
  unfold mbind at 1, C_bind at 1. unfold C_lift. destruct (_forward_migrations dir) as [l|e]; [|done].
  unfold mbind at 1, C_bind at 1. destruct sqlite.
  - destruct (apply_pending_lite t a l (mkConn s (Some (with_ledger t s)))) as (c' & -> & Hcur & Hf & _).
    rewrite Ha in *. cbn [current working default from_option id] in *.
    destruct (all true t _ _) as [[[]|e] s1]; cbn [fst snd is_ok] in *.
    + cbn. by rewrite Hcur.
    + specialize (Hf eq_refl). unfold current in Hcur. rewrite Hf in Hcur. cbn in Hcur. by rewrite Hcur.
  - destruct (apply_pending_pg t a l s (with_ledger t s)) as (c' & -> & Hc & Hok). rewrite Ha in *.
    destruct (all false t _ _) as [[[]|e] s1]; cbn [fst snd is_ok] in *.
    + rewrite Hok by done. done.
    + by rewrite Hc.
Qed.
End pure.

Section chain.
Context `{SqlEngine}.
Implicit Types (s : store) (m : migration) (l : list migration) (t : string) (a : list Z).

(** A migration is done and recorded, or it failed and is not. *)
Lemma one_spec lite t m s a :
  dict_get t (ledgers s) = Some a →
  (∃ x, run_script (statements m.2.2) (schema s) = (Ok (), x) ∧ m.1 ∉ a ∧
        one lite t m s = (Ok (), set_ledger t (a ++ [m.1]) (set_schema x s))) ∨
  (∃ e s', one lite t m s = (Raise e, s') ∧ ledgers s' = ledgers s ∧ (lite = false → s' = s)).
Proof.
  intros Ha. unfold one, record_version. destruct (run_script _ _) as [[[]|e] x]; cbn [ledgers set_schema]; rewrite ?Ha.
  - case_bool_decide; [right|left; by eexists]. eexists _, _. split; [done|]. by destruct lite.
  - right. eexists _, _. split; [done|]. by destruct lite.
Qed.

(** What is recorded after a run: some first ones of the migrations it was given. *)
Lemma all_spec lite t l s a r s' :
  dict_get t (ledgers s) = Some a → all lite t l s = (r, s') →
  ∃ k, (k ≤ length l)%nat ∧ dict_get t (ledgers s') = Some (a ++ take k l.*1) ∧ (r = Ok () → k = length l) ∧
    ∀ t', t' ≠ t → dict_get t' (ledgers s') = dict_get t' (ledgers s).
Proof.
  revert s a. induction l as [|m l IH]; intros s a Ha; cbn [all].
  { intros [= <- <-]. exists O. rewrite app_nil_r. split_and!; [done|done|done|done]. }
  destruct (one_spec lite t m s a Ha) as [(x & _ & _ & ->)|(e & s1 & -> & Hl & _)].
  - intros Hall. apply IH with (a := a ++ [m.1]) in Hall as (k & Hk & Hd & Hr & Ho); [|apply dict_get_ledger].
    exists (S k). cbn [length fmap list_fmap firstn]. rewrite <- app_assoc in Hd. split_and!.
    + lia.
    + exact Hd.
    + intros Hok. by rewrite (Hr Hok).
    + intros t' Ht. rewrite Ho by done. cbn [ledgers set_ledger]. by rewrite dict_get_set_ne.
  - intros [= <- <-]. exists O. rewrite app_nil_r, Hl. split_and!; [lia|done|done|done].
Qed.

Lemma pending_nil a l : (∀ n, n ∈ l.*1 → n ∈ a) → pending a l = [].
Proof.
  intros Hin. apply Lfilter_none. intros m Hm. rewrite bool_decide_true; [done|].
  apply Hin. by apply list_elem_of_fmap_2.
Qed.

Lemma brings_up_ok sqlite dir t s s' l :
  _forward_migrations dir = Ok l → brings_up sqlite dir t s = (Ok (), s') →
  dict_get t (ledgers s') = Some (applied_of t s ++ (pending (applied_of t s) l).*1).
Proof.
  intros Hl. unfold brings_up. rewrite Hl. destruct (all _ _ _ _) as [[[]|e] s1] eqn:E; [|done]. intros [= <-].
  destruct (all_spec _ _ _ _ _ _ _ (with_ledger_some t s) E) as (k & _ & Hd & Hk & _).
  rewrite (Hk eq_refl) in Hd. rewrite Hd. do 2 f_equal. apply firstn_all2. by rewrite length_fmap.
Qed.

Lemma brings_up_again sqlite dir t s l :
  _forward_migrations dir = Ok l → is_Some (dict_get t (ledgers s)) → (∀ n, n ∈ l.*1 → n ∈ applied_of t s) →
  brings_up sqlite dir t s = (Ok (), s).
Proof.
  intros Hl [a Ha] Hin. unfold brings_up. rewrite Hl, pending_nil by done. cbn [all].
  unfold with_ledger. by rewrite Ha.
Qed.

Lemma brings_up_twice sqlite dir t s s' :
  brings_up sqlite dir t s = (Ok (), s') → brings_up sqlite dir t s' = (Ok (), s').
Proof.
  intros Hb. destruct (_forward_migrations dir) as [l|e] eqn:Hl; [|by unfold brings_up in Hb; rewrite Hl in Hb].
  pose proof (brings_up_ok _ _ _ _ _ _ Hl Hb) as Hd.
  apply (brings_up_again _ _ _ _ l); [done|by eexists|]. unfold applied_of at 1. rewrite Hd. cbn.
  intros n (m & -> & Hm)%list_elem_of_fmap. apply elem_of_app.
  destruct (decide (m.1 ∈ applied_of t s)) as [|Hn]; [by left|right]. apply list_elem_of_fmap. exists m. split; [done|].
  apply elem_of_Lfilter. split; [done|]. by rewrite bool_decide_false.
Qed.
End chain.

(** The boot is idempotent: once a run of the chain succeeded, running it again, as every
    process does at its own start, succeeds and changes nothing, on either database. *)
Lemma second_bootstrap_changes_nothing `{SqlEngine} sqlite dir t s s' :
  bootstrap sqlite dir t s = (Ok (), s') → bootstrap sqlite dir t s' = (Ok (), s').
Proof.
  intros Hb. destruct (_check_identifier t) as [t'|e] eqn:Ht; [|by unfold bootstrap in Hb; rewrite Ht in Hb].
  pose proof (check_identifier_same _ _ Ht) as ->. rewrite bootstrap_pure in Hb |- * by done.
  by apply brings_up_twice in Hb.
Qed.

(** ** Several processes at once *)

Section concurrent.
Context `{SqlEngine} (dir : directory) (t : string).

(** Where a process is: before the lock, behind it, in the middle of its transaction *)
Inductive phase :=
  | Waiting
  | Locked
  | Inside (s : store) (todo : list migration)
  | Finished (r : result ()).
(** The committed database, who has the advisory lock, the processes *)
Record system := mkSystem { sys_db : store; sys_lock : option nat; sys_procs : list phase }.
Definition at_phase (y : system) (i : nat) (p : phase) : Prop := sys_procs y !! i = Some p.
Definition leave (y : system) (db : store) (i : nat) (r : result ()) : system :=
  mkSystem db None (<[i := Finished r]> (sys_procs y)).

(** The lock is held to the end of the transaction, however it ends. *)
Inductive boot_step : system → system → Prop :=
  | step_lock y i : at_phase y i Waiting → sys_lock y = None →
      boot_step y (mkSystem (sys_db y) (Some i) (<[i := Locked]> (sys_procs y)))
  | step_read y i l : at_phase y i Locked → _forward_migrations dir = Ok l →
      boot_step y (mkSystem (sys_db y) (sys_lock y)
        (<[i := Inside (with_ledger t (sys_db y)) (pending (applied_of t (sys_db y)) l)]> (sys_procs y)))
  | step_no_files y i e : at_phase y i Locked → _forward_migrations dir = Raise e →
      boot_step y (leave y (sys_db y) i (Raise e))
  | step_apply y i s m todo s' : at_phase y i (Inside s (m :: todo)) → one false t m s = (Ok (), s') →
      boot_step y (mkSystem (sys_db y) (sys_lock y) (<[i := Inside s' todo]> (sys_procs y)))
  | step_fails y i s m todo e s' : at_phase y i (Inside s (m :: todo)) → one false t m s = (Raise e, s') →
      boot_step y (leave y (sys_db y) i (Raise e))
  | step_commit y i s : at_phase y i (Inside s []) → boot_step y (leave y s i (Ok ()))
  | step_dies y i p e : at_phase y i p → (p = Locked ∨ ∃ s todo, p = Inside s todo) →
      boot_step y (leave y (sys_db y) i (Raise e)).

Definition start (s : store) (n : nat) : system := mkSystem s None (replicate n Waiting).

(** What one process alone would do from here *)
Definition resumes (p : phase) (db : store) : option (result () * store) :=
  match p with
  | Waiting | Locked => Some (brings_up false dir t db)
  | Inside s todo => Some (match all false t todo s with (Ok _, s') => (Ok (), s') | (Raise e, _) => (Raise e, db) end)
  | Finished _ => None
  end.

Record boot_inv (s0 : store) (y : system) : Prop := {
  inv_db : sys_db y = s0 ∨ brings_up false dir t s0 = (Ok (), sys_db y);
  inv_lock : ∀ i p, at_phase y i p → p = Waiting ∨ (∃ r, p = Finished r) ∨ sys_lock y = Some i;
  inv_resume : ∀ i p v, at_phase y i p → resumes p (sys_db y) = Some v → v = brings_up false dir t (sys_db y);
  inv_done : ∀ i, at_phase y i (Finished (Ok ())) → brings_up false dir t s0 = (Ok (), sys_db y);
}.

(** Leaving with the database as it was, and moving on inside *)
Lemma inv_leave s0 y i p e :
  boot_inv s0 y → at_phase y i p → p ≠ Waiting → boot_inv s0 (leave y (sys_db y) i (Raise e)) ∨ ∃ r, p = Finished r.
Proof.
  intros [Hdb Hlock Hres Hdone] Hi Hp. destruct (Hlock i p Hi) as [?|[?|Hl]]; [done|by right|left].
  split; cbn [leave sys_db sys_lock]; [done|..]; intros j; unfold at_phase; cbn [sys_procs leave];
    (destruct (decide (j = i)) as [->|Hne];
      [rewrite list_lookup_insert_eq by (by eapply lookup_lt_Some)|rewrite list_lookup_insert_ne by done]).
  - intros q [= <-]. by eauto.
  - intros q Hj. destruct (Hlock j q Hj) as [?|[?|?]]; [by left|by eauto|congruence].
  - intros q v [= <-]. done.
  - apply Hres.
  - done.
  - apply Hdone.
Qed.
Lemma inv_move s0 y i p q :
  boot_inv s0 y → at_phase y i p → sys_lock y = Some i → (∀ r, q ≠ Finished r) →
  (∀ v, resumes q (sys_db y) = Some v → v = brings_up false dir t (sys_db y)) →
  boot_inv s0 (mkSystem (sys_db y) (sys_lock y) (<[i := q]> (sys_procs y))).
Proof.
  intros [Hdb Hlock Hres Hdone] Hi Hl Hq Hv.
  split; cbn [sys_db sys_lock]; [done|..]; intros j; unfold at_phase; cbn [sys_procs];
    (destruct (decide (j = i)) as [->|Hne];
      [rewrite list_lookup_insert_eq by (by eapply lookup_lt_Some)|rewrite list_lookup_insert_ne by done]).
  - intros q' [= <-]. eauto.
  - apply Hlock.
  - intros q' v [= <-]. apply Hv.
  - apply Hres.
  - intros [= Hf]. by destruct (Hq _ Hf).
  - apply Hdone.
Qed.

Lemma boot_step_inv s0 y y' : boot_inv s0 y → boot_step y y' → boot_inv s0 y'.
Proof.
  intros Hinv Hstep. destruct Hstep as [y i Hi Hn|y i l Hi Hl|y i e Hi Hl|y i s m todo s' Hi Ho|y i s m todo e s' Hi Ho|y i s Hi|y i p e Hi Hp].
  - destruct Hinv as [Hdb Hlock Hres Hdone]. split; cbn [sys_db sys_lock]; [done|..];
      intros j; unfold at_phase; cbn [sys_procs];
      (destruct (decide (j = i)) as [->|Hne];
        [rewrite list_lookup_insert_eq by (by eapply lookup_lt_Some)|rewrite list_lookup_insert_ne by done]).
    + intros p [= <-]. eauto.
    + intros p Hj. destruct (Hlock j p Hj) as [?|[?|?]]; [eauto|eauto|congruence].
    + intros p v [= <-] [= <-]. done.
    + apply Hres.
    + done.
    + apply Hdone.
  - destruct (inv_lock _ _ Hinv i _ Hi) as [?|[[? ?]|Hlk]]; [done|done|].
    apply (inv_move _ _ _ Locked); [done|done|done|done|]. intros v [= <-]. unfold brings_up. rewrite Hl.
    by destruct (all _ _ _ _) as [[[]|]].
  - destruct (inv_leave _ _ _ _ e Hinv Hi) as [?|[? ?]]; done.
  - destruct (inv_lock _ _ Hinv i _ Hi) as [?|[[? ?]|Hlk]]; [done|done|].
    apply (inv_move _ _ _ (Inside s (m :: todo))); [done|done|done|done|]. intros v [= <-].
    rewrite <- (inv_resume _ _ Hinv i _ _ Hi eq_refl). cbn [all]. by rewrite Ho.
  - destruct (inv_leave _ _ _ _ e Hinv Hi) as [?|[? ?]]; done.
  - pose proof (inv_resume _ _ Hinv i _ _ Hi eq_refl) as Hr. cbn in Hr.
    destruct (inv_lock _ _ Hinv i _ Hi) as [?|[[? ?]|Hlk]]; [done|done|].
    destruct Hinv as [Hdb Hlock Hres Hdone].
    assert (brings_up false dir t s0 = (Ok (), s)) as Hs.
    { destruct Hdb as [<-|Hdb]; [done|]. pose proof (brings_up_twice _ _ _ _ _ Hdb) as Hb. congruence. }
    split; cbn [leave sys_db sys_lock]; [by right|..]; intros j; unfold at_phase; cbn [sys_procs leave];
      (destruct (decide (j = i)) as [->|Hne];
        [rewrite list_lookup_insert_eq by (by eapply lookup_lt_Some)|rewrite list_lookup_insert_ne by done]).
    + intros p [= <-]. eauto.
    + intros p Hj. destruct (Hlock j p Hj) as [?|[?|?]]; [eauto|eauto|congruence].
    + intros p v [= <-]. done.
    + intros p v Hj. destruct (Hlock j p Hj) as [->|[[? ->]|?]]; [by intros [= <-]|done|congruence].
    + done.
    + done.
  - destruct (inv_leave _ _ _ p e Hinv Hi) as [?|[r Hr]]; [by destruct Hp as [->|(? & ? & ->)]|done|].
    destruct Hp as [->|(? & ? & ->)]; done.
Qed.
End concurrent.

(** C27: on Postgres, many processes that bring the same database up act as one.  There the
    runner takes an advisory lock first and the whole run is one transaction: in every
    interleaving of the processes' steps, with processes dying or failing anywhere, the
    committed database is the initial one or the one a single run leaves, never anything
    between; and once any process has returned, it is the latter.  On SQLite the lock does
    nothing and a script commits as it goes; nothing of this is claimed there. *)
Theorem concurrent_bootstraps_act_as_one `{SqlEngine} dir t s0 n y :
  _check_identifier t = Ok t →
  rtc (boot_step dir t) (start s0 n) y →
  (sys_db y = s0 ∨ bootstrap false dir t s0 = (Ok (), sys_db y)) ∧
  ∀ i, at_phase y i (Finished (Ok ())) → bootstrap false dir t s0 = (Ok (), sys_db y).
Proof.
  intros Hid Hsteps. rewrite bootstrap_pure by done.
  assert (boot_inv dir t s0 y) as Hinv.
  { assert (boot_inv dir t s0 (start s0 n)) as H0.
    { assert (∀ i p, at_phase (start s0 n) i p → p = Waiting) as Hw.
      { intros i p Hp. by apply lookup_replicate in Hp as [-> _]. }
      split; [by left|..].
      - intros i p Hp. left. by eapply Hw.
      - intros i p v Hp. rewrite (Hw _ _ Hp). by intros [= <-].
      - intros i Hp. by specialize (Hw _ _ Hp). }
    revert H0. generalize (start s0 n), Hsteps. clear.
    induction 1 as [|y1 y2 y3 Hs _ IH]; [done|]. intros Hy. apply IH. by eapply boot_step_inv. }
  split; [apply (inv_db _ _ _ _ Hinv)|apply (inv_done _ _ _ _ Hinv)].
Qed.

(** ** No gap in the chain *)

Section prefix.
Context `{SqlEngine}.
Implicit Types (s : store) (l : list migration) (a : list Z).

Lemma pending_of_prefix a l :
  NoDup l.*1 → a `prefix_of` l.*1 → pending a l = drop (length a) l.
Proof.
  intros Hn [b Hb]. assert (l = take (length a) l ++ drop (length a) l) as Hl by (by rewrite take_drop).
  assert ((take (length a) l).*1 = a) as Ha by (rewrite fmap_take, Hb; by rewrite take_app_length).
  assert ((drop (length a) l).*1 = b) as Hd by (rewrite fmap_drop, Hb; by rewrite drop_app_length).
  rewrite Hb in Hn. apply NoDup_app in Hn as (_ & Hn & _).
  unfold pending. rewrite Hl at 1. rewrite List.filter_app, Lfilter_none, Lfilter_all; [done|..].
  - intros m Hm. rewrite bool_decide_false; [done|]. intros Hin. apply (Hn _ Hin). rewrite <- Hd. by apply list_elem_of_fmap_2.
  - intros m Hm. rewrite bool_decide_true; [done|]. rewrite <- Ha. by apply list_elem_of_fmap_2.
Qed.

Lemma brings_up_prefix sqlite dir t s l r s' :
  _forward_migrations dir = Ok l → NoDup l.*1 → applied_of t s `prefix_of` l.*1 →
  brings_up sqlite dir t s = (r, s') → applied_of t s' `prefix_of` l.*1.
Proof.
  intros Hl Hn Hp. unfold brings_up. rewrite Hl, pending_of_prefix by done.
  destruct (all _ _ _ _) as [r1 s1] eqn:E.
  destruct (all_spec _ _ _ _ _ _ _ (with_ledger_some t s) E) as (k & _ & Hd & _ & _).
  assert (applied_of t s1 `prefix_of` l.*1) as H1.
  { unfold applied_of at 1. rewrite Hd. cbn. destruct Hp as [b Hb]. rewrite fmap_drop, Hb, drop_app_length.
    exists (drop k b). by rewrite <- app_assoc, take_drop. }
  destruct r1 as [[]|e]; [by intros [= _ <-]|]. destruct sqlite; by intros [= _ <-].
Qed.

(** The order of the numbers is the order of the files *)
Definition in_order l : Prop := StronglySorted Z.lt l.*1.
Lemma in_order_nodup l : in_order l → NoDup l.*1.
Proof.
  unfold in_order. induction 1 as [|n r Hs IH Hf]; constructor; [|done].
  intros Hin. rewrite Forall_forall in Hf. specialize (Hf _ Hin). lia.
Qed.

Lemma max_version_elem a : a ≠ [] → max_version a ∈ a.
Proof.
  destruct a as [|x a]; [done|]. intros _. cbn. induction a as [|y a IH]; cbn; [left|].
  destruct (Z.max_spec y (foldr Z.max x a)) as [[_ ->]|[_ ->]]; set_solver.
Qed.

(** In a prefix of an ordered chain, a version that is reached has all the lower ones. *)
Lemma prefix_reached l a v :
  in_order l → a `prefix_of` l.*1 → v ∈ l.*1 → v <= max_version a → a ≠ [] → v ∈ a.
Proof.
  intros Ho [b Hb] Hv Hle Hne. rewrite Hb in Hv. apply elem_of_app in Hv as [|Hv]; [done|].
  unfold in_order in Ho. rewrite Hb in Ho.
  pose proof (max_version_elem a Hne) as Hm. exfalso.
  assert (max_version a < v); [|lia].
  clear Hle Hb Hne. generalize dependent (max_version a). intros x Hx. induction a as [|y a IH]; [by apply elem_of_nil in Hx|].
  cbn in Ho. inversion Ho as [|? ? Ho' Hf]; subst. apply elem_of_cons in Hx as [->|Hx]; [|by apply IH].
  rewrite Forall_forall in Hf. apply Hf. set_solver.
Qed.
End prefix.

Lemma wait_for_schema_ok `{SqlEngine} min_version deadline t polls v :
  wait_for_schema min_version deadline t polls = Some (Ok v) →
  ∃ s now, (s, now) ∈ polls ∧ current_schema_version t s = Ok v ∧ min_version <= v.
Proof.
  induction polls as [|[s now] r IH]; cbn; [done|]. destruct (current_schema_version t s) as [w|x] eqn:E; [|done].
  destruct (Z.leb_spec min_version w) as [Hle|_].
  - intros [= ->]. exists s, now. split; [left|done].
  - destruct (_ <=? _); [done|]. intros (s' & n' & Hin & ?)%IH. exists s', n'. split; [by right|done].
Qed.
(** The wait is bounded: a poll at or past the deadline is the last. *)
Lemma wait_for_schema_ends `{SqlEngine} min_version deadline t polls s now :
  (s, now) ∈ polls → deadline <= now → is_Some (wait_for_schema min_version deadline t polls).
Proof.
  intros Hin Hd. induction polls as [|[s' now'] r IH]; [by apply elem_of_nil in Hin|]. cbn.
  destruct (current_schema_version t s'); [|eauto]. destruct (_ <=? _); [eauto|].
  destruct (Z.leb_spec deadline now'); [eauto|]. apply IH. apply elem_of_cons in Hin as [[= -> ->]|?]; [lia|done].
Qed.

(** Attempts to bring the chain up, one after the other, whatever each came to *)
Fixpoint attempts `{SqlEngine} (dir : directory) (t : string) (l : list bool) (s : store) : store :=
  match l with
  | [] => s
  | sqlite :: r => attempts dir t r (bootstrap sqlite dir t s).2
  end.
Lemma attempts_prefix `{SqlEngine} dir t ms l s :
  _check_identifier t = Ok t → _forward_migrations dir = Ok ms → NoDup ms.*1 → applied_of t s `prefix_of` ms.*1 →
  applied_of t (attempts dir t l s) `prefix_of` ms.*1.
Proof.
  intros Hid Hms Hn. revert s. induction l as [|b l IH]; intros s Hp; [done|]. cbn. apply IH.
  rewrite bootstrap_pure by done. destruct (brings_up b dir t s) as [r s'] eqn:E. by eapply brings_up_prefix.
Qed.

(** A process that waited for version [v] finds every migration up to [v] recorded,
    although it saw only the highest number: whatever the attempts before it came to, and
    whichever database it is, the ledger has no gap.  The chain's numbers must be in the
    order of its file names. *)
Lemma awaited_schema_has_no_gap `{SqlEngine} dir t ms s0 polls min_version deadline v n :
  _check_identifier t = Ok t → _forward_migrations dir = Ok ms → in_order ms → dict_get t (ledgers s0) = None →
  (∀ s now, (s, now) ∈ polls → ∃ l, s = attempts dir t l s0) →
  wait_for_schema min_version deadline t polls = Some (Ok v) → 0 < n <= min_version → n ∈ ms.*1 →
  ∃ s now, (s, now) ∈ polls ∧ n ∈ applied_of t s.
Proof.
  intros Hid Hms Ho H0 Hp Hw Hn Hin. destruct (wait_for_schema_ok _ _ _ _ _ Hw) as (s & now & Hs & Hv & Hle).
  exists s, now. split; [done|]. destruct (Hp _ _ Hs) as [l ->]. unfold current_schema_version in Hv. rewrite Hid in Hv.
  assert (applied_of t (attempts dir t l s0) `prefix_of` ms.*1) as Hpre.
  { apply attempts_prefix; [done|done|by apply in_order_nodup|]. unfold applied_of. rewrite H0. apply prefix_nil. }
  cbn in Hv. unfold applied_of in *. destruct (dict_get t (ledgers (attempts dir t l s0))) as [a|]; cbn in *.
  - injection Hv as Hv. apply (prefix_reached ms); [done|done|done|lia|]. intros ->. cbn in Hv. lia.
  - injection Hv as Hv. lia.
Qed.

(** ** Down again *)

Lemma dict_set_twice {V} k (v v' : V) d : dict_set k v (dict_set k v' d) = dict_set k v d.
Proof.
  induction d as [|[k' x] d IH]; cbn; [by rewrite String.eqb_refl|].
  destruct (String.eqb k k') eqn:E; cbn; [by rewrite String.eqb_refl|]. by rewrite E, IH.
Qed.
Lemma dict_set_same {V} k (v : V) d : dict_get k d = Some v → dict_set k v d = d.
Proof.
  induction d as [|[k' x] d IH]; cbn; [done|]. destruct (String.eqb_spec k k') as [->|]; [by intros [= ->]|].
  intros H. by rewrite (IH H).
Qed.

Section down.
Context `{SqlEngine} (dir : directory) (t : string).
Implicit Types (s : store) (l : list migration) (a : list Z).

(** A migration has one down file, and it undoes what the up file did. *)
Definition undone (m : migration) : Prop :=
  ∃ f, _down_migration dir m.1 = Ok (Some f) ∧
       ∀ x x', run_script (statements m.2.2) x = (Ok (), x') → run_script (statements f.2) x' = (Ok (), x).

Lemma all_app lite l1 l2 s :
  all lite t (l1 ++ l2) s =
  match all lite t l1 s with (Ok _, s') => all lite t l2 s' | (Raise e, s') => (Raise e, s') end.
Proof.
  revert s. induction l1 as [|m l1 IH]; intros s; [done|]. cbn. destruct (one lite t m s) as [[[]|e] s']; [apply IH|done].
Qed.

Lemma current_write s c : current (write s c) = s.
Proof. unfold write, current. by destruct (working c). Qed.
Lemma current_commit c : current (commit c) = current c.
Proof. done. Qed.
(** A file that succeeds, on either store, followed by the deletion of its version *)
Lemma revert_one lite f n c x a :
  run_script (statements f) (schema (current c)) = (Ok (), x) → dict_get t (ledgers (current c)) = Some a →
  ∃ c', (_ ← _apply_migration_sql lite f; delete_version t n) c = (Ok (), c') ∧
        current c' = set_ledger t (List.filter (λ m, negb (m =? n)) a) (set_schema x (current c)).
Proof.
  intros Hx Ha. unfold mbind, C_bind, _apply_migration_sql.
  assert (current (if lite then commit c else c) = current c) as Hc by by destruct lite.
  rewrite Hc, Hx. unfold delete_version. rewrite current_write.
  assert (dict_get t (ledgers (set_schema x (current c))) = Some a) as -> by done.
  eexists. split; [done|]. by rewrite current_write.
Qed.

Lemma revert_all lite to l rest s s1 a c :
  dict_get t (ledgers s) = Some a → all lite t l s = (Ok (), s1) → Forall undone l → Forall (λ n, to < n) l.*1 →
  Forall (λ n, n <= to) rest → (∀ n, n ∈ a → n <= to) → current c = s1 →
  ∃ c', revert lite dir t to (rev l.*1 ++ rest) c = (Ok (rev l.*1), c') ∧ current c' = s.
Proof.
  intros Ha Hall Hu Hto Hrest Hle. revert s1 c Hall Hu Hto. induction l as [|m l IH] using rev_ind; intros s1 c.
  { intros [= <-] _ _ Hc. exists c. destruct rest as [|n rest]; [done|]. cbn. inversion Hrest. by rewrite (proj2 (Z.leb_le n to)). }
  rewrite all_app, fmap_app, rev_app_distr. intros Hall [Hu [(f & Hf & Hund) _]%Forall_cons]%Forall_app
    [Hto [Hm _]%Forall_cons]%Forall_app Hc.
  destruct (all lite t l s) as [[[]|] s'] eqn:E; [|done].
  destruct (all_spec _ _ _ _ _ _ _ Ha E) as (k & _ & Hd & Hk & _). rewrite (Hk eq_refl), firstn_all2 in Hd
    by (by rewrite length_fmap).
  cbn [all] in Hall. destruct (one_spec lite t m s' _ Hd) as [(x & Hx & Hnin & Ho)|(e & s2 & Ho & _)]; [|by rewrite Ho in Hall].
  rewrite Ho in Hall. injection Hall as <-. cbn [fmap list_fmap rev app revert].
  rewrite (proj2 (Z.leb_gt m.1 to)) by done. unfold mbind at 1, C_bind at 1. unfold C_lift. rewrite Hf.
  rewrite C_bind_assoc. unfold mbind at 1, C_bind at 1.
  destruct (revert_one lite f.2 m.1 c (schema s') ((a ++ l.*1) ++ [m.1])) as (c1 & -> & Hc1).
  { rewrite Hc. exact (Hund _ _ Hx). }
  { rewrite Hc. apply dict_get_ledger. }
  assert (current c1 = s') as Hback.
  { rewrite Hc1, Hc, List.filter_app, Lfilter_all; cycle 1.
    { intros n Hn. apply negb_true_iff, Z.eqb_neq. congruence. }
    cbn. rewrite Z.eqb_refl. cbn. rewrite app_nil_r. destruct s' as [ls sc]. cbn in *.
    unfold set_ledger, set_schema. cbn. by rewrite dict_set_twice, dict_set_same. }
  destruct (IH s' c1 eq_refl Hu Hto Hback) as (c2 & E2 & Hc2). exists c2. split; [|done].
  unfold mbind at 1, C_bind at 1. by rewrite E2.
Qed.

Lemma single_key_le x y : key_le [x] [y] = true ↔ x <= y.
Proof. cbn. rewrite orb_true_iff, andb_true_iff, Z.ltb_lt, Z.eqb_eq. split; [intros [|[? _]]; lia|]. lia. Qed.
Lemma sort_versions to a (p : list Z) :
  (∀ n, n ∈ a → n <= to) → Forall (λ n, to < n) p → StronglySorted Z.lt p →
  sort_by (λ n, [n]) (a ++ p) = sort_by (λ n, [n]) a ++ p.
Proof.
  intros Ha Hp Hs.
  assert (AntiSymm eq (λ x y : Z, key_le [x] [y] = true)).
  { intros x y ?%single_key_le ?%single_key_le. lia. }
  apply (StronglySorted_unique (λ x y : Z, key_le [x] [y] = true)).
  - apply sort_by_sorted.
  - apply StronglySorted_app_2; [intros x y Hx Hy|apply sort_by_sorted|].
    + apply single_key_le. rewrite sort_by_perm in Hx. rewrite Forall_forall in Hp. specialize (Ha _ Hx). specialize (Hp _ Hy). lia.
    + clear -Hs. induction Hs as [|x p Hs IH Hf]; constructor; [done|].
      eapply Forall_impl; [exact Hf|]. intros y Hy. apply single_key_le. lia.
  - by rewrite !sort_by_perm.
Qed.

Lemma revert_committed sqlite_ to vs s0 s :
  sqlite_ = false → committed (revert sqlite_ dir t to vs (mkConn s0 (Some s))).2 = s0.
Proof.
  intros ->. revert s. induction vs as [|v vs IH]; intros s; [done|]. cbn [revert]. destruct (_ <=? _); [done|].
  unfold mbind at 1, C_bind at 1. unfold C_lift at 1. destruct (_down_migration dir v) as [[f|]|e]; [|done|done].
  unfold mbind at 1, C_bind at 1. unfold _apply_migration_sql. cbn [current working default from_option id].
  destruct (run_script _ _) as [[[]|e] x]; [|done]. unfold mbind at 1, C_bind at 1. unfold delete_version.
  cbn [current working write default from_option id]. destruct (dict_get t _) as [a|]; [|done].
  unfold mbind at 1, C_bind at 1. specialize (IH (set_ledger t (List.filter (λ m, negb (m =? v)) a) (set_schema x s))).
  cbn [write working committed]. destruct (revert _ _ _ _ _ _) as [[d|e] c']; exact IH.
Qed.
End down.

(** C28: down undoes up, on both stores.  Let every migration that is still pending be paired
    with one down file that undoes it, let the chain be in the order of its file names, and
    let the ledger have no gap: nothing recorded above [to_version], and nothing of the chain
    at or below it still pending.  Then bringing the database up and taking it down to that
    version reverts exactly what was applied, highest first, and gives back the tables and
    the ledger (an empty ledger where there was none). *)
Theorem downgrade_undoes_bootstrap `{SqlEngine} sqlite dir t ms to s s1 :
  _check_identifier t = Ok t → _forward_migrations dir = Ok ms → in_order ms →
  Forall (undone dir) (pending (applied_of t s) ms) →
  (∀ n, n ∈ applied_of t s → n <= to) → (∀ n, n ∈ ms.*1 → n <= to → n ∈ applied_of t s) →
  bootstrap sqlite dir t s = (Ok (), s1) →
  downgrade sqlite dir to t s1 = (Ok (rev (pending (applied_of t s) ms).*1), with_ledger t s).
Proof.
  intros Hid Hms Ho Hu Hle Hge. rewrite bootstrap_pure by done. unfold brings_up. rewrite Hms.
  set (p := pending (applied_of t s) ms) in *. destruct (all sqlite t p _) as [[[]|] s1'] eqn:E; [|done]. intros [= <-].
  assert (Forall (λ n, to < n) p.*1) as Hp.
  { apply Forall_fmap, Forall_forall. intros m [Hm Hn]%elem_of_Lfilter. cbn.
    apply negb_true_iff, bool_decide_eq_false in Hn. apply Z.nle_gt. intros Hc. apply Hn, Hge; [by apply list_elem_of_fmap_2|done]. }
  assert (StronglySorted Z.lt p.*1) as Hs.
  { unfold in_order in Ho. clear Hu Hp E. unfold p, pending. clear -Ho. induction ms as [|m ms IH]; cbn; [constructor|].
    cbn in Ho. inversion Ho as [|? ? Ho' Hf]; subst. destruct (negb _); [|by apply IH]. cbn. constructor; [by apply IH|].
    rewrite Forall_forall in Hf |- *. intros n (m' & -> & [Hm _]%elem_of_Lfilter)%list_elem_of_fmap.
    apply Hf. by apply list_elem_of_fmap_2. }
  destruct (all_spec _ _ _ _ _ _ _ (with_ledger_some t s) E) as (k & _ & Hd & Hk & _).
  rewrite (Hk eq_refl), firstn_all2 in Hd by (by rewrite length_fmap).
  unfold downgrade. rewrite Hid. unfold with_connection. cbn [current working default from_option id]. rewrite Hd.
  unfold mbind at 1, C_bind at 1. unfold _applied_versions. unfold mbind at 1, C_bind at 1. unfold C_lift at 1.
  rewrite Hid. unfold select_versions. cbn [current working default from_option id]. rewrite Hd.
  rewrite (sort_versions to) by done. rewrite rev_app_distr. unfold mbind at 1, C_bind at 1.
  destruct (revert_all dir t sqlite to p (rev (sort_by (λ n, [n]) (applied_of t s))) (with_ledger t s) s1' (applied_of t s)
    (mkConn s1' (Some s1'))) as (c' & -> & Hc'); [apply with_ledger_some|done|done|done| |done|done|].
  - apply Forall_forall. intros n Hn. rewrite <- Permutation_rev, sort_by_perm in Hn. by apply Hle.
  - unfold mbind, C_bind, conn_commit. cbn. by rewrite <- Hc'.
Qed.

(** A run that fails on Postgres leaves the database as it found it, up or down, however
    far it got. *)
Lemma failed_run_leaves_postgres_alone `{SqlEngine} dir to t s :
  (is_ok (bootstrap false dir t s).1 = false → (bootstrap false dir t s).2 = s) ∧
  (is_ok (downgrade false dir to t s).1 = false → (downgrade false dir to t s).2 = s).
Proof.
  split.
  - destruct (_check_identifier t) as [t'|e] eqn:Ht; [|unfold bootstrap; by rewrite Ht].
    pose proof (check_identifier_same _ _ Ht) as ->. rewrite bootstrap_pure by done. unfold brings_up.
    destruct (_forward_migrations dir); [|done]. by destruct (all _ _ _ _) as [[[]|]].
  - unfold downgrade. destruct (_check_identifier t) as [t'|e] eqn:Ht; [|done].
    pose proof (check_identifier_same _ _ Ht) as ->. unfold with_connection. cbn [current working default from_option id].
    destruct (dict_get t (ledgers s)) as [a|] eqn:Ha; [|done].
    unfold mbind at 1 4, C_bind at 1 4. unfold _applied_versions. unfold mbind at 1 4, C_bind at 1 4. unfold C_lift at 1 2. rewrite Ht.
    unfold select_versions. cbn [current working default from_option id]. rewrite Ha.
    pose proof (revert_committed dir t false to (rev (sort_by (λ n, [n]) a)) s s eq_refl) as Hc.
    unfold mbind, C_bind. destruct (revert _ _ _ _ _ _) as [[d|e] c']; [done|]. intros _. exact Hc.
Qed.

(** A recorded version without a down file is an error of the whole downgrade, not a step
    that is skipped. *)
Theorem missing_down_file_is_an_error `{SqlEngine} sqlite dir t to s a n :
  _check_identifier t = Ok t → dict_get t (ledgers s) = Some a → n ∈ a → to < n → (∀ m, m ∈ a → m <= n) →
  _down_migration dir n = Ok None → (downgrade sqlite dir to t s).1 = Raise no_down_file.
Proof.
  intros Hid Ha Hn Hto Hmax Hd. unfold downgrade. rewrite Hid. unfold with_connection.
  cbn [current working default from_option id]. rewrite Ha.
  unfold mbind at 1, C_bind at 1. unfold _applied_versions. unfold mbind at 1, C_bind at 1. unfold C_lift at 1. rewrite Hid.
  unfold select_versions. cbn [current working default from_option id]. rewrite Ha.
  assert (∃ r, rev (sort_by (λ n, [n]) a) = n :: r) as [r ->].
  { pose proof (sort_by_sorted (λ n : Z, [n]) a) as Hs. pose proof (sort_by_perm (λ n : Z, [n]) a) as Hp.
    destruct (rev (sort_by _ a)) as [|x r] eqn:E.
    { rewrite <- Hp in Hn. apply (f_equal (@rev Z)) in E. rewrite rev_involutive in E. rewrite E in Hn. by apply elem_of_nil in Hn. }
    exists r. f_equal. apply (f_equal (@rev Z)) in E. rewrite rev_involutive in E. cbn in E. rewrite E in Hs, Hp.
    rewrite <- Hp in Hn. apply elem_of_app in Hn as [Hn|Hn]; [|set_solver].
    pose proof (StronglySorted_app_1_elem_of _ _ _ n x Hs Hn ltac:(set_solver)) as Hle. apply single_key_le in Hle.
    specialize (Hmax x). rewrite <- Hp in Hmax. specialize (Hmax ltac:(set_solver)). lia. }
  unfold mbind at 1, C_bind at 1. cbn [revert]. rewrite (proj2 (Z.leb_gt n to)) by done.
  unfold mbind at 1, C_bind at 1. unfold C_lift at 1. by rewrite Hd.
Qed.

(** ** Witnesses *)

(** An engine whose tables are a stack: a statement pushes its own text, [-x] pops [x] *)
Module ChainDemo.
#[export] Instance stack : SqlEngine := {|
  tables := list string;
  no_tables := [];
  stmt := string;
  statements := Txt.words;
  run_stmt q x :=
    if String.eqb q "boom" then Raise (RuntimeError "syntax") else
    match q, x with
    | String "-" n, y :: r => if String.eqb n y then Ok r else Raise (RuntimeError "no table")
    | String "-" _, [] => Raise (RuntimeError "no table")
    | _, _ => Ok (q :: x)
    end;
|}.
Definition dir : directory :=
  [("0002_b.sql", "b c"); ("0001_a.down.sql", "-a"); ("schema.sql", "boom"); ("0001_a.sql", "a");
   ("0002_b.down.sql", "-c -b"); ("README.md", "")].
Definition ms : list migration := [(1, ("0001_a.sql", "a")); (2, ("0002_b.sql", "b c"))].
Definition db (ledgers : list (string * list Z)) (stack : list string) : store := mkStore ledgers stack.
Definition empty : store := db [] [].
Definition up : store := db [("v", [1; 2])] ["c"; "b"; "a"].
Definition broken : directory := [("0001_a.sql", "a"); ("0002_b.sql", "b boom c")].
Lemma files : _forward_migrations dir = Ok ms.
Proof. reflexivity. Qed.
Lemma ordered : in_order ms.
Proof. repeat constructor; cbn; lia. Qed.
Lemma paired : Forall (undone dir) ms.
Proof.
  repeat constructor.
  - eexists. split; [reflexivity|]. intros x x' [= <-]. reflexivity.
  - eexists. split; [reflexivity|]. intros x x' [= <-]. reflexivity.
Qed.
End ChainDemo.

(** On SQLite a script that fails half way stays half done, and unrecorded: the next run
    starts it again from its first statement. *)
Theorem sqlite_keeps_half_of_a_failed_script :
  bootstrap true ChainDemo.broken "v" ChainDemo.empty =
    (Raise (RuntimeError "syntax"), ChainDemo.db [("v", [1])] ["b"; "a"]) ∧
  bootstrap false ChainDemo.broken "v" ChainDemo.empty = (Raise (RuntimeError "syntax"), ChainDemo.empty) ∧
  schema (bootstrap true ChainDemo.dir "v" (ChainDemo.db [("v", [1])] ["b"; "a"])).2 = ["c"; "b"; "b"; "a"].
Proof. split_and!; reflexivity. Qed.

(** The guard on the table's name lets a newline through at its end. *)
Theorem identifier_guard_accepts_a_newline :
  _check_identifier ("v" +:+ String Txt.newline "") = Ok ("v" +:+ String Txt.newline "") ∧
  _check_identifier "v; DROP TABLE x" = Raise (ValueError "invalid version_table identifier").
Proof. split; reflexivity. Qed.

Lemma second_bootstrap_changes_nothing_witness :
  bootstrap true ChainDemo.dir "v" ChainDemo.up = (Ok (), ChainDemo.up).
Proof. apply (second_bootstrap_changes_nothing true ChainDemo.dir "v" ChainDemo.empty). reflexivity. Defined.

Lemma concurrent_bootstraps_act_as_one_witness :
  ∃ y, rtc (boot_step ChainDemo.dir "v") (start ChainDemo.empty 2) y ∧ at_phase y 1 (Finished (Ok ())) ∧
    bootstrap false ChainDemo.dir "v" ChainDemo.empty = (Ok (), sys_db y).
Proof.
  assert (rtc (boot_step ChainDemo.dir "v") (start ChainDemo.empty 2)
    (mkSystem ChainDemo.up None [Finished (Raise (RuntimeError "killed")); Finished (Ok ())])) as Hr.
  { eapply rtc_l; [apply (step_lock _ _ _ 0); reflexivity|].
    eapply rtc_l; [apply (step_read _ _ _ 0 ChainDemo.ms); reflexivity|].
    eapply rtc_l; [eapply (step_apply _ _ _ 0); reflexivity|].
    eapply rtc_l; [eapply (step_dies _ _ _ 0 _ (RuntimeError "killed")); [reflexivity|right; eauto]|].
    eapply rtc_l; [apply (step_lock _ _ _ 1); reflexivity|].
    eapply rtc_l; [apply (step_read _ _ _ 1 ChainDemo.ms); reflexivity|].
    eapply rtc_l; [eapply (step_apply _ _ _ 1); reflexivity|].
    eapply rtc_l; [eapply (step_apply _ _ _ 1); reflexivity|].
    eapply rtc_l; [eapply (step_commit _ _ _ 1); reflexivity|]. apply rtc_refl. }
  eexists. split; [exact Hr|]. split; [reflexivity|].
  exact (proj2 (concurrent_bootstraps_act_as_one ChainDemo.dir "v" ChainDemo.empty 2 _ eq_refl Hr) 1%nat eq_refl).
Defined.

Lemma awaited_schema_has_no_gap_witness :
  ∃ s now, (s, now) ∈ [(ChainDemo.empty, 0); (ChainDemo.up, 1)] ∧ 1 ∈ applied_of "v" s.
Proof.
  apply (awaited_schema_has_no_gap ChainDemo.dir "v" ChainDemo.ms ChainDemo.empty
    [(ChainDemo.empty, 0); (ChainDemo.up, 1)] 2 120 2 1); [reflexivity|reflexivity|exact ChainDemo.ordered|reflexivity|..].
  - intros s now [[= -> ->]|[[= -> ->]|[]%elem_of_nil]%elem_of_cons]%elem_of_cons.
    + exists []. reflexivity.
    + exists [true]. reflexivity.
  - reflexivity.
  - lia.
  - left.
Defined.

Lemma downgrade_undoes_bootstrap_witness :
  downgrade true ChainDemo.dir 0 "v" ChainDemo.up = (Ok [2; 1], ChainDemo.db [("v", [])] []).
Proof.
  apply (downgrade_undoes_bootstrap true ChainDemo.dir "v" ChainDemo.ms 0 ChainDemo.empty ChainDemo.up);
    [reflexivity|reflexivity|exact ChainDemo.ordered|exact ChainDemo.paired|..].
  - intros n []%elem_of_nil.
  - intros n [->|[->|[]%elem_of_nil]%elem_of_cons]%elem_of_cons Hn; by destruct Hn.
  - reflexivity.
Defined.
