(* ===== verification/SqlText.v ===== *)
(** * SQL as text: the two dialects and the translation to SQLite
    ([queue_workflows/dialect.py], [queue_workflows/db.py])

    The engine writes one SQL, with Python placeholders; a dialect supplies the fragments
    that differ, and on SQLite a statement is cut at its string literals and everything else
    is rewritten.  The patterns are the regular expressions of the source, as matchers. *)

From S2P Require Import Prelude Json PyText.
Local Open Scope string_scope.
Local Open Scope list_scope.

(** ** The dialects *)

Record Dialect := mkDialect {
  d_name : string;
  now : string;
  future_seconds : string → string;
  past_seconds : string → string;
  past_days : string → string;
  epoch : string → string;
  creation_order : string → string;
  least : list string → string;
  greatest : list string → string;
  skip_locked : string;
  box_claim_serializer : option string;
  queue_claim_serializer : option string;
  not_distinct_from : string → string → string;
  array_contains_value : string → string → string;
  value_in_param_array : string → string → string;
  arrays_overlap : string → string → string;
  array_to_text : string → string;
  array_is_empty : string → string;
  first_overlap : string → string → string;
  array_first : string → string;
  qualify_returning : string → list string → string;
  table_exists : string → string;
}.

Definition PgDialect : Dialect := {|
  d_name := "pg";
  now := "now()";
  future_seconds p := "now() + make_interval(secs => " +:+ p +:+ ")";
  past_seconds p := "now() - make_interval(secs => " +:+ p +:+ ")";
  past_days p := "now() - make_interval(days => " +:+ p +:+ ")";
  epoch col := "EXTRACT(EPOCH FROM " +:+ col +:+ ")";
  creation_order alias := "EXTRACT(EPOCH FROM " +:+ alias +:+ ".created_at)";
  least exprs := "LEAST(" +:+ Txt.join ", " exprs +:+ ")";
  greatest exprs := "GREATEST(" +:+ Txt.join ", " exprs +:+ ")";
  skip_locked := "FOR UPDATE SKIP LOCKED";
  box_claim_serializer :=
    Some ("SELECT pg_advisory_xact_lock(hashtext(" +:+ "%(host)s || '|' || %(queue)s || '|' || %(project)s))");
  queue_claim_serializer :=
    Some ("SELECT pg_advisory_xact_lock(hashtext(" +:+ "'queue-wide|' || %(queue)s || '|' || %(project)s))");
  not_distinct_from a b := a +:+ " IS NOT DISTINCT FROM " +:+ b;
  array_contains_value col v := v +:+ " = ANY(" +:+ col +:+ ")";
  value_in_param_array v p := v +:+ " = ANY(" +:+ p +:+ "::text[])";
  arrays_overlap col p :=
    if PyStr.startswith "%" p then col +:+ " && " +:+ p +:+ "::text[]" else col +:+ " && " +:+ p;
  array_to_text col := "array_to_string(" +:+ col +:+ ", ',')";
  array_is_empty col := "cardinality(" +:+ col +:+ ") = 0";
  first_overlap col p :=
    "(SELECT s.k FROM unnest(" +:+ col +:+ ") WITH ORDINALITY AS s(k, ord) " +:+
    "WHERE s.k = ANY(" +:+ p +:+ "::text[]) ORDER BY s.ord LIMIT 1)";
  array_first col := "(" +:+ col +:+ ")[1]";
  qualify_returning alias cols := Txt.join ", " ((λ c, alias +:+ "." +:+ c) <$> cols);
  table_exists p := "to_regclass('public.' || " +:+ p +:+ ")";
|}.

Definition SqliteDialect : Dialect := {|
  d_name := "sqlite";
  now := "datetime('now')";
  future_seconds p := "datetime('now', ('+' || " +:+ p +:+ " || ' seconds'))";
  past_seconds p := "datetime('now', ('-' || " +:+ p +:+ " || ' seconds'))";
  past_days p := "datetime('now', ('-' || " +:+ p +:+ " || ' days'))";
  epoch col := "CAST(strftime('%s', " +:+ col +:+ ") AS REAL)";
  creation_order alias := alias +:+ ".rowid";
  least exprs := "MIN(" +:+ Txt.join ", " exprs +:+ ")";
  greatest exprs := "MAX(" +:+ Txt.join ", " exprs +:+ ")";
  skip_locked := "";
  box_claim_serializer := None;
  queue_claim_serializer := None;
  not_distinct_from a b := a +:+ " IS " +:+ b;
  array_contains_value col v :=
    "EXISTS (SELECT 1 FROM json_each(" +:+ col +:+ ") " +:+ "WHERE value = " +:+ v +:+ ")";
  value_in_param_array v p := v +:+ " IN (SELECT value FROM json_each(" +:+ p +:+ "))";
  arrays_overlap col p :=
    "EXISTS (SELECT 1 FROM json_each(" +:+ col +:+ ") " +:+
    "WHERE value IN (SELECT value FROM json_each(" +:+ p +:+ ")))";
  array_to_text col := col;
  array_is_empty col := "json_array_length(" +:+ col +:+ ") = 0";
  first_overlap col p :=
    "(SELECT j1.value FROM json_each(" +:+ col +:+ ") j1 " +:+
    "WHERE j1.value IN (SELECT value FROM json_each(" +:+ p +:+ ")) " +:+ "ORDER BY j1.key LIMIT 1)";
  array_first col := "(SELECT value FROM json_each(" +:+ col +:+ ") ORDER BY key LIMIT 1)";
  qualify_returning alias cols := Txt.join ", " cols;
  table_exists p := "(SELECT name FROM sqlite_master " +:+ "WHERE type = 'table' AND name = " +:+ p +:+ ")";
|}.
Definition get_dialect (db_backend : string) : Dialect :=
  if String.eqb db_backend "sqlite" then SqliteDialect else PgDialect.

(** ** Cutting a statement at its literals *)

Definition quote : ascii := "'"%char.
Inductive mode := Code | Comment | Lit | Escape.
Definition in_str (m : mode) : bool := match m with Lit | Escape => true | Code | Comment => false end.
Definition next_is (c : ascii) (s : string) : bool := match s with String d _ => Ascii.eqb d c | EmptyString => false end.
Definition snoc (s : string) (c : ascii) : string := s +:+ String c "".

(** The loop, with its buffer; a comment runs to the end of its line *)
Fixpoint split_go (m : mode) (buf : string) (s : string) : list (bool * string) :=
  match s with
  | EmptyString => if PyStr.truthy buf then [(in_str m, buf)] else []
  | String c r =>
      match m with
      | Code =>
          if Ascii.eqb c "-" && next_is "-" r then split_go Comment (snoc buf c) r
          else if Ascii.eqb c quote
          then (if PyStr.truthy buf then [(false, buf)] else []) ++ split_go Lit (String c "") r
          else split_go Code (snoc buf c) r
      | Comment => split_go (if Ascii.eqb c Txt.newline then Code else Comment) (snoc buf c) r
      | Lit =>
          if Ascii.eqb c quote
          then if next_is quote r then split_go Escape (snoc buf c) r
               else (true, snoc buf c) :: split_go Code "" r
          else split_go Lit (snoc buf c) r
      | Escape => split_go Lit (snoc buf c) r
      end
  end.
Definition _split_sql_literals (sql : string) : list (bool * string) := split_go Code "" sql.

(** ** The patterns *)

(** A pattern reads from the front and leaves the rest; every one of the source is
    deterministic, so that nothing is ever given back. *)
Definition pattern := string → option string.
Definition text (p : string) : pattern := λ s,
  if String.prefix p s then Some (PyStr.drop (String.length p) s) else None.
Definition text_nocase (p : string) : pattern := λ s,
  if String.eqb (PyStr.lower (PyStr.take (String.length p) s)) (PyStr.lower p)
  then Some (PyStr.drop (String.length p) s) else None.
Definition spaces0 : pattern := λ s, Some (Txt.span PyStr.is_space s).2.
Definition many1 (p : ascii → bool) : pattern := λ s,
  match Txt.span p s with (EmptyString, _) => None | (_, r) => Some r end.
Definition spaces1 : pattern := many1 PyStr.is_space.
Definition name_of (rest : ascii → bool) : pattern := λ s,
  match s with
  | String c r => if Txt.ident_start c then Some (Txt.span rest r).2 else None
  | EmptyString => None
  end.
Definition ident : pattern := name_of Txt.is_word.
Fixpoint chain (ps : list pattern) : pattern := λ s,
  match ps with
  | [] => Some s
  | p :: r => match p s with Some s => chain r s | None => None end
  end.
Definition optional (p : pattern) : pattern := λ s, match p s with Some r => Some r | None => Some s end.
Fixpoint either (ps : list pattern) : pattern := λ s,
  match ps with
  | [] => None
  | p :: r => match p s with Some s => Some s | None => either r s end
  end.
(** What a pattern read *)
Definition consumed (s rest : string) : string := PyStr.take (String.length s - String.length rest) s.
(** [\b] before a word character *)
Definition boundary (prev : option ascii) : bool := match prev with Some c => negb (Txt.is_word c) | None => true end.
Definition sub_matcher (word : bool) (p : pattern) (new : string → option string) : Txt.matcher := λ prev s,
  if word && negb (boundary prev) then None else
  match p s with
  | Some rest => match new s with
                 | Some n => Some ((String.length s - String.length rest)%nat, n)
                 | None => None
                 end
  | None => None
  end.
Definition sub (word : bool) (p : pattern) (new : string) : string → string :=
  Txt.resub (sub_matcher word p (λ _, Some new)).

Definition FORUPDATE : pattern :=
  chain [text_nocase "FOR"; spaces1; text_nocase "UPDATE";
         optional (chain [spaces1; text_nocase "SKIP"; spaces1; text_nocase "LOCKED"])].
Definition CAST : pattern :=
  chain [text "::"; ident; optional (chain [spaces0; text "["; spaces0; text "]"])].
Definition NOW : pattern := text "now()".
Definition LEAST : pattern := chain [text "LEAST"; spaces0; text "("].
Definition GREATEST : pattern := chain [text "GREATEST"; spaces0; text "("].
Definition NAMED_PARAM : pattern := chain [text "%("; ident; text ")s"].
Definition named_param_new (s : string) : option string :=
  match text "%(" s with
  | Some r => match ident r with Some rest => Some (String ":" (consumed r rest)) | None => None end
  | None => None
  end.

Definition is_dot_word (c : ascii) : bool := Txt.is_word c || Ascii.eqb c ".".
(** [_EXPR] *)
Definition EXPR : pattern :=
  either [chain [text "%("; name_of Txt.is_word; text ")s"]; text "%s"; many1 PyStr.is_digit; name_of is_dot_word].
Definition SIGN : pattern := either [text "+"; text "-"].
Definition before_sign : pattern := chain [text "now()"; spaces0].
Definition before_expr (unit : string) : pattern :=
  chain [before_sign; SIGN; spaces0; text "make_interval("; spaces0; text unit; spaces0; text "=>"; spaces0].
Definition MI (unit : string) : pattern := chain [before_expr unit; EXPR; spaces0; text ")"].
(** What a pattern reads after another *)
Definition group (before p : pattern) (s : string) : option string :=
  match before s with
  | Some r => match p r with Some rest => Some (consumed r rest) | None => None end
  | None => None
  end.

(** [_interval_sub]: [unit] is the argument of the pattern, [word] the word of the modifier *)
Definition _interval_sub (unit word : string) (s : string) : option string :=
  match group before_sign SIGN s, group (before_expr unit) EXPR s with
  | Some op, Some x =>
      let eff := if String.eqb op "+" then "(" +:+ x +:+ ")" else "(-(" +:+ x +:+ "))" in
      Some ("strftime('%Y-%m-%d %H:%M:%f', 'now', printf('%+d " +:+ word +:+ "', " +:+ eff +:+ "))")
  | _, _ => None
  end.
Definition _rewrite_intervals (chunk : string) : string :=
  let chunk := Txt.resub (sub_matcher false (MI "secs") (_interval_sub "secs" "seconds")) chunk in
  Txt.resub (sub_matcher false (MI "days") (_interval_sub "days" "days")) chunk.

Definition NOW_SQLITE : string := "(strftime('%Y-%m-%d %H:%M:%f', 'now'))".
Definition _rewrite_chunk (chunk : string) : string :=
  let chunk := sub true FORUPDATE "" chunk in
  let chunk := _rewrite_intervals chunk in
  let chunk := sub true NOW NOW_SQLITE chunk in
  let chunk := sub false CAST "" chunk in
  let chunk := sub true LEAST "MIN(" chunk in
  let chunk := sub true GREATEST "MAX(" chunk in
  let chunk := Txt.resub (sub_matcher false NAMED_PARAM named_param_new) chunk in
  let chunk := Txt.replace "%s" "?" chunk in
  Txt.replace "%%" "%" chunk.

(** [_PRE_INT_LIT_RE], before the cut *)
Definition before_int : pattern := chain [before_sign; SIGN; spaces0; text "interval"; spaces0; text (String quote "")].
Definition PRE_INT : pattern :=
  chain [before_int; many1 PyStr.is_digit; spaces1; text "second"; optional (text "s"); text (String quote "")].
Definition pre_int_new (s : string) : option string :=
  match group before_sign SIGN s, group before_int (many1 PyStr.is_digit) s with
  | Some op, Some n => Some ("datetime('now', '" +:+ op +:+ n +:+ " seconds')")
  | _, _ => None
  end.
Definition _pre_split_intervals (sql : string) : string := Txt.resub (sub_matcher false PRE_INT pre_int_new) sql.

(** [str.join] of the segments *)
Fixpoint concat_text (l : list string) : string := match l with [] => "" | s :: r => s +:+ concat_text r end.
Definition _translate_sql_for_sqlite (sql : string) : string :=
  concat_text ((λ seg : bool * string, if seg.1 then seg.2 else _rewrite_chunk seg.2)
               <$> _split_sql_literals (_pre_split_intervals sql)).

(** ** What the cut finds *)

Lemma split_go_concat m buf s : concat_text (split_go m buf s).*2 = buf +:+ s.
Proof.
  revert m buf. induction s as [|c s IH]; intros m buf; cbn [split_go].
  { rewrite string_app_nil. destruct buf; [done|]. cbn. by rewrite string_app_nil. }
  assert (∀ b, snoc b c +:+ s = b +:+ String c s) as Hs.
  { intros b. unfold snoc. by rewrite string_app_assoc. }
  destruct m.
  - destruct (_ && _); [by rewrite IH|]. destruct (Ascii.eqb_spec c quote) as [->|]; [|by rewrite IH].
    destruct (PyStr.truthy buf) eqn:E; cbn; rewrite IH; [done|]. by destruct buf.
  - by rewrite IH.
  - destruct (Ascii.eqb c quote); [|by rewrite IH]. destruct (next_is _ _); [by rewrite IH|]. cbn. rewrite IH. apply Hs.
  - by rewrite IH.
Qed.

(** A statement as it is written: code, comments to the end of a line, and literals, whose
    quotes are doubled *)
Inductive piece := PCode (a : string) | PComment (c : string) | PLit (v : string).
Fixpoint doubled_quotes (v : string) : string :=
  match v with
  | EmptyString => ""
  | String c r => if Ascii.eqb c quote then String c (String c (doubled_quotes r)) else String c (doubled_quotes r)
  end.
Definition quoted (v : string) : string := String quote (doubled_quotes v +:+ String quote "").
Definition piece_text (p : piece) : string :=
  match p with
  | PCode a => a
  | PComment c => "--" +:+ c +:+ String Txt.newline ""
  | PLit v => quoted v
  end.
Fixpoint render (l : list piece) : string := match l with [] => "" | p :: r => piece_text p +:+ render r end.

(** Code has no quote and opens no comment, also with what follows it. *)
Fixpoint plain (a rest : string) : bool :=
  match a with
  | EmptyString => true
  | String c r => negb (Ascii.eqb c quote) && negb (Ascii.eqb c "-" && next_is "-" (r +:+ rest)) && plain r rest
  end.
Fixpoint one_line (c : string) : bool :=
  match c with EmptyString => true | String d r => negb (Ascii.eqb d Txt.newline) && one_line r end.
Fixpoint well_formed (l : list piece) : bool :=
  match l with
  | [] => true
  | PCode a :: r => plain a (render r) && well_formed r
  | PComment c :: r => one_line c && well_formed r
  | PLit v :: r => negb (next_is quote (render r)) && well_formed r
  end.
Fixpoint literals (l : list piece) : list string :=
  match l with [] => [] | PLit v :: r => v :: literals r | _ :: r => literals r end.
Definition literal_segments (segs : list (bool * string)) : list string := (List.filter fst segs).*2.

Section cut.
Implicit Types (a b c v buf rest : string).

Lemma snoc_app buf (d : ascii) rest : snoc buf d +:+ rest = buf +:+ String d rest.
Proof. unfold snoc. by rewrite string_app_assoc. Qed.

Lemma cut_code a rest buf : plain a rest = true → split_go Code buf (a +:+ rest) = split_go Code (buf +:+ a) rest.
Proof.
  revert buf. induction a as [|c a IH]; intros buf Hp; [by rewrite string_app_nil|]. cbn [plain] in Hp. split_bool.
  change (String c a +:+ rest) with (String c (a +:+ rest)). cbn [split_go].
  rewrite H1, H, IH by done. by rewrite snoc_app.
Qed.
Lemma cut_comment c rest buf :
  one_line c = true → split_go Comment buf (c +:+ String Txt.newline rest) = split_go Code (buf +:+ c +:+ String Txt.newline "") rest.
Proof.
  revert buf. induction c as [|d c IH]; intros buf Hp; [done|]. cbn [one_line] in Hp. split_bool.
  change (String d c +:+ ?x) with (String d (c +:+ x)). cbn [split_go]. rewrite H, IH by done. by rewrite snoc_app.
Qed.
Lemma cut_literal v rest buf :
  next_is quote rest = false →
  split_go Lit buf (doubled_quotes v +:+ String quote rest) =
  (true, buf +:+ doubled_quotes v +:+ String quote "") :: split_go Code "" rest.
Proof.
  intros Hn. revert buf. induction v as [|c v IH]; intros buf.
  { cbn [doubled_quotes]. change ("" +:+ ?x) with x. cbn [split_go]. by rewrite Ascii.eqb_refl, Hn. }
  cbn [doubled_quotes]. destruct (Ascii.eqb_spec c quote) as [->|Hne].
  - change (String quote (String quote ?d) +:+ ?x) with (String quote (String quote (d +:+ x))). cbn [split_go next_is].
    rewrite !Ascii.eqb_refl, IH. do 2 f_equal. rewrite !snoc_app. done.
  - change (String c ?d +:+ ?x) with (String c (d +:+ x)). cbn [split_go]. apply Ascii.eqb_neq in Hne.
    rewrite Hne, IH. do 2 f_equal. by rewrite snoc_app.
Qed.

Lemma cut_pieces l buf :
  well_formed l = true → literal_segments (split_go Code buf (render l)) = quoted <$> literals l.
Proof.
  revert buf. induction l as [|p l IH]; intros buf Hw; [by destruct buf|]. cbn [render well_formed literals] in *.
  destruct p as [a|c|v]; split_bool; cbn [piece_text literals].
  - rewrite cut_code by done. by apply IH.
  - change (("--" +:+ c +:+ String Txt.newline "") +:+ render l) with
      (String "-" (String "-" ((c +:+ String Txt.newline "") +:+ render l))).
    rewrite string_app_assoc. cbn [split_go next_is]. rewrite Ascii.eqb_refl. cbn [andb].
    change (String Txt.newline "" +:+ render l) with (String Txt.newline (render l)).
    change (Ascii.eqb "-" Txt.newline) with false. cbn iota. rewrite cut_comment by done. by apply IH.
  - unfold quoted. change (String quote ?x +:+ render l) with (String quote (x +:+ render l)).
    cbn [split_go]. rewrite Ascii.eqb_refl, string_app_assoc.
    change (String quote "" +:+ render l) with (String quote (render l)). rewrite cut_literal by done.
    change (Ascii.eqb quote "-") with false. cbn [andb].
    unfold literal_segments. rewrite List.filter_app, fmap_app.
    assert (List.filter fst (if PyStr.truthy buf then [(false, buf)] else []) = []) as -> by (by destruct buf).
    cbn. f_equal. by apply IH.
Qed.
End cut.

(** The translation sees the literals of a statement exactly: whatever stands in them,
    doubled quotes, placeholders, words of SQL, and whatever apostrophes stand in the
    comments, the segments it leaves alone are the literals, in order, and all the segments
    together are the statement. *)
Lemma literals_are_found_exactly l :
  well_formed l = true →
  literal_segments (_split_sql_literals (render l)) = quoted <$> literals l ∧
  concat_text (_split_sql_literals (render l)).*2 = render l.
Proof.
  intros Hw. split; [by apply cut_pieces|]. unfold _split_sql_literals. by rewrite split_go_concat.
Qed.

Lemma literals_are_found_exactly_witness :
  literal_segments (_split_sql_literals
    ("SELECT '%s''x' -- don't" +:+ String Txt.newline " WHERE a = 'now()'::text")) =
  ["'%s''x'"; "'now()'"].
Proof.
  apply (literals_are_found_exactly
    [PCode "SELECT "; PLit "%s'x"; PCode " "; PComment " don't"; PCode " WHERE a = "; PLit "now()"; PCode "::text"]).
  reflexivity.
Defined.

(** The translations of the engine's fragments *)
Section fragments.
Let t := _translate_sql_for_sqlite.
Example claim_tail : t "SELECT id FROM q WHERE x = ANY(%(known)s::text[]) AND p %% 2 = 0 FOR UPDATE SKIP LOCKED" =
  "SELECT id FROM q WHERE x = ANY(:known) AND p % 2 = 0 ".
Proof. vm_compute. reflexivity. Qed.
Example lease : t ("UPDATE q SET a = " +:+ future_seconds PgDialect "%(lease_s)s" +:+ ", b = now(), c = LEAST (%s, 1)") =
  "UPDATE q SET a = strftime('%Y-%m-%d %H:%M:%f', 'now', printf('%+d seconds', (:lease_s)))" +:+
  ", b = (strftime('%Y-%m-%d %H:%M:%f', 'now')), c = MIN(?, 1)".
Proof. vm_compute. reflexivity. Qed.
Example pruned : t (past_days PgDialect "%s") = "strftime('%Y-%m-%d %H:%M:%f', 'now', printf('%+d days', (-(?))))".
Proof. vm_compute. reflexivity. Qed.
Example epoch_of : t (epoch SqliteDialect "created_at") = "CAST(strftime('%s', created_at) AS REAL)".
Proof. vm_compute. reflexivity. Qed.
Example literal_interval : t "now() - interval '30 seconds'" = "datetime('now', '-30 seconds')".
Proof. vm_compute. reflexivity. Qed.
End fragments.
