(* ===== verification/Refs.v ===== *)
(** * The reference mini-language ([queue_workflows/refs.py])

    [resolve_ref] evaluates [$value] / [$from] / [$filter] / [$eq] / [$ne] /
    [$coalesce] expressions of a workflow definition against the run context.
    What Python supplies and the module only calls is the class [PyEnv]. *)

From S2P Require Import Prelude.
From S2P Require Import Json.
Local Open Scope string_scope.
Local Open Scope list_scope.

(** Python built-ins of the reference language: attribute lookup on a value
    that is not a dictionary ([hasattr]/[getattr]; a context may hold dataclass
    instances), [str] of a value that is not a string, [repr], and [re.search]
    (which raises on a bad pattern). *)
Class PyEnv := {
  py_getattr : json → string → option json;
  py_str_other : json → string;
  py_repr : json → string;
  re_search : string → string → result bool;
}.

(** [str(v)]: a string is itself *)
Definition py_str `{PyEnv} (v : json) : string :=
  match v with JStr s => s | _ => py_str_other v end.

Section refs.
Context `{PyEnv}.

(** [_dig]: walk a dotted path, by key in a dictionary and by attribute
    elsewhere. *)
Fixpoint dig_parts (cur : json) (parts : list string) : result json :=
  match parts with
  | [] => Ok cur
  | part :: rest =>
      match cur with
      | JObj fs =>
          match dict_get part fs with
          | Some v => dig_parts v rest
          | None => Raise (KeyError part)
          end
      | _ =>
          match py_getattr cur part with
          | Some v => dig_parts v rest
          | None => Raise (KeyError part)
          end
      end
  end.

Definition _dig (obj : json) (dotted_path : string) : result json :=
  dig_parts obj (PyStr.split "."%char dotted_path).

(** [_match]: one item against every [field:op] entry of a filter. *)
Fixpoint _match (item : json) (filter_spec : dict) : result bool :=
  match filter_spec with
  | [] => Ok true
  | (key, expected) :: rest =>
      match PyStr.split1 ":"%char key with
      | (_, None) => Raise (ValueError "filter key missing op")
      | (field, Some op) =>
          let actual :=
            match item with
            | JObj fs => default JNull (dict_get field fs)
            | _ => default JNull (py_getattr item field)
            end in
          if String.eqb op "eq" then
            if py_eq actual expected then _match item rest else Ok false
          else if String.eqb op "matches" then
            if is_none actual then Ok false
            else match expected with
                 | JStr pat =>
                     found ← re_search pat (py_str actual);
                     if (found : bool) then _match item rest else Ok false
                 | _ => Raise (TypeError "first argument must be string")
                 end
          else Raise (ValueError "unsupported filter op")
      end
  end.

(** [[item for item in result if _match(item, spec)]] *)
Fixpoint filter_items (items : list json) (spec : dict) : result (list json) :=
  match items with
  | [] => Ok []
  | x :: r =>
      keep ← _match x spec;
      rest ← filter_items r spec;
      Ok (if (keep : bool) then x :: rest else rest)
  end.

(** The [$from] branch, once [value] is known to have the key. *)
Definition resolve_from (fs : dict) (path : json) (context : json) : result json :=
  match path with
  | JStr p =>
      res ← _dig context p;
      match dict_get "$filter" fs with
      | Some spec =>
          match res with
          | JArr items =>
              match spec with
              | JObj entries => JArr <$> filter_items items entries
              | _ => (* [spec.items()] is reached only for a non-empty list *)
                  match items with
                  | [] => Ok (JArr [])
                  | _ => Raise (AttributeError "items")
                  end
              end
          | _ => Raise (TypeError "$filter on non-list")
          end
      | None =>
          match dict_get "$eq" fs with
          | Some x => Ok (JBool (py_eq res x))
          | None =>
              match dict_get "$ne" fs with
              | Some x => Ok (JBool (negb (py_eq res x)))
              | None => Ok res
              end
          end
      end
  | _ => Raise (AttributeError "split")
  end.

(** The loop of [_coalesce] over candidates that are already resolved
    lazily: the first that does not raise [KeyError] and is not None. *)
Definition coalesce_step (resolved : result json) (next : result json) : result json :=
  match resolved with
  | Raise (KeyError _) => next
  | Raise e => Raise e
  | Ok v => if is_none v then next else Ok v
  end.

Definition coalesce_end (fs : dict) : result json :=
  match dict_get "$default" fs with
  | Some d => Ok d
  | None => Raise (KeyError "$coalesce: no candidate resolved")
  end.

(** [resolve_ref], with [_coalesce] unfolded at its only call. *)
Fixpoint resolve_ref (value : json) (context : json) {struct value} : result json :=
  match value with
  | JObj fs =>
      match dict_get "$value" fs with
      | Some v => Ok v
      | None =>
          if dict_has "$coalesce" fs then
            (fix find (l : dict) : result json :=
               match l with
               | [] => Raise (KeyError "$coalesce")
               | (k, candidates) :: r =>
                   if String.eqb "$coalesce" k then
                     match candidates with
                     | JArr cs =>
                         (fix loop (cs : list json) : result json :=
                            match cs with
                            | [] => coalesce_end fs
                            | c :: cs' => coalesce_step (resolve_ref c context) (loop cs')
                            end) cs
                     | _ => Raise (TypeError "$coalesce expects a list")
                     end
                   else find r
               end) fs
          else
            match dict_get "$from" fs with
            | Some path => resolve_from fs path context
            | None =>
                JObj <$> (fix go (l : dict) : result dict :=
                  match l with
                  | [] => Ok []
                  | (k, v) :: r =>
                      v' ← resolve_ref v context;
                      rest ← go r;
                      Ok ((k, v') :: rest)
                  end) fs
            end
      end
  | _ => Ok value
  end.

(** [_coalesce] as its own function, over any resolver. *)
Fixpoint coalesce_loop (fs : dict) (cs : list json) (context : json) : result json :=
  match cs with
  | [] => coalesce_end fs
  | c :: cs' => coalesce_step (resolve_ref c context) (coalesce_loop fs cs' context)
  end.

Definition _coalesce (fs : dict) (context : json) : result json :=
  match dict_get "$coalesce" fs with
  | Some (JArr cs) => coalesce_loop fs cs context
  | Some _ => Raise (TypeError "$coalesce expects a list")
  | None => Raise (KeyError "$coalesce")
  end.

(** The plain-dict branch: [{k: resolve_ref(v, context) for k, v in ..}]. *)
Definition resolve_fields (context : json) (fs : dict) : result dict :=
  mapR (λ kv, v' ← resolve_ref kv.2 context; Ok (kv.1, v')) fs.
End refs.

(** ** The equations of [resolve_ref] *)
Section refs_lemmas.
Context `{PyEnv}.

Lemma coalesce_inner_loop fs cs ctx :
  (fix loop (cs : list json) : result json :=
     match cs with
     | [] => coalesce_end fs
     | c :: cs' => coalesce_step (resolve_ref c ctx) (loop cs')
     end) cs = coalesce_loop fs cs ctx.
Proof. induction cs as [|c cs IH]; simpl; [done|]. by rewrite IH. Qed.

Lemma coalesce_inner_find fs l ctx :
  (fix find (l : dict) : result json :=
     match l with
     | [] => Raise (KeyError "$coalesce")
     | (k, candidates) :: r =>
         if String.eqb "$coalesce" k then
           match candidates with
           | JArr cs =>
               (fix loop (cs : list json) : result json :=
                  match cs with
                  | [] => coalesce_end fs
                  | c :: cs' => coalesce_step (resolve_ref c ctx) (loop cs')
                  end) cs
           | _ => Raise (TypeError "$coalesce expects a list")
           end
         else find r
     end) l =
  match dict_get "$coalesce" l with
  | Some (JArr cs) => coalesce_loop fs cs ctx
  | Some _ => Raise (TypeError "$coalesce expects a list")
  | None => Raise (KeyError "$coalesce")
  end.
Proof.
  induction l as [|[k c] l IH]; [done|]. cbn [dict_get].
  destruct (String.eqb "$coalesce" k); [|exact IH].
  destruct c; try done. apply coalesce_inner_loop.
Qed.

Lemma resolve_inner_fields ctx fs :
  (fix go (l : dict) : result dict :=
     match l with
     | [] => Ok []
     | (k, v) :: r =>
         v' ← resolve_ref v ctx; rest ← go r; Ok ((k, v') :: rest)
     end) fs = resolve_fields ctx fs.
Proof.
  unfold resolve_fields. induction fs as [|[k v] fs IH]; simpl; [done|].
  rewrite IH. unfold mbind, result_bind. by destruct (resolve_ref v ctx).
Qed.

(** The branch structure of the Python function. *)
Lemma resolve_ref_obj fs ctx :
  resolve_ref (JObj fs) ctx =
  match dict_get "$value" fs with
  | Some v => Ok v
  | None =>
      if dict_has "$coalesce" fs then _coalesce fs ctx
      else match dict_get "$from" fs with
           | Some path => resolve_from fs path ctx
           | None => JObj <$> resolve_fields ctx fs
           end
  end.
Proof.
  cbn [resolve_ref]. destruct (dict_get "$value" fs); [done|].
  rewrite coalesce_inner_find, resolve_inner_fields. done.
Qed.

(** A candidate [$coalesce] passes over: its reference is missing, or None. *)
Definition passed_over (ctx c : json) : Prop :=
  (∃ k, resolve_ref c ctx = Raise (KeyError k)) ∨ resolve_ref c ctx = Ok JNull.

Lemma coalesce_step_passed ctx c next :
  passed_over ctx c → coalesce_step (resolve_ref c ctx) next = next.
Proof. by intros [[k ->]| ->]. Qed.

Lemma coalesce_loop_spec fs cs ctx v :
  coalesce_loop fs cs ctx = Ok v ↔
  (∃ pre c post, cs = pre ++ c :: post ∧ Forall (passed_over ctx) pre ∧
     resolve_ref c ctx = Ok v ∧ v ≠ JNull) ∨
  (Forall (passed_over ctx) cs ∧ dict_get "$default" fs = Some v).
Proof.
  induction cs as [|c cs IH]; simpl.
  - unfold coalesce_end. split.
    + destruct (dict_get "$default" fs); intros [= <-]. by right.
    + intros [(pre & c & post & E & _)|[_ ->]]; [by destruct pre|done].
  - split.
    + unfold coalesce_step. destruct (resolve_ref c ctx) as [u|e] eqn:E.
      * destruct (is_none u) eqn:Hn; intros Hv.
        -- assert (passed_over ctx c) as Hp by (right; rewrite E; by destruct u).
           apply IH in Hv as [(pre & c' & post & -> & Hf & Hc)|[Hf Hd]].
           ++ left. exists (c :: pre), c', post. by rewrite Forall_cons.
           ++ right. by rewrite Forall_cons.
        -- injection Hv as ->. left. exists [], c, cs. split_and!; [done..|by intros ->].
      * destruct e; try done. intros Hv.
        assert (passed_over ctx c) as Hp by (left; eauto).
        apply IH in Hv as [(pre & c' & post & -> & Hf & Hc)|[Hf Hd]].
        -- left. exists (c :: pre), c', post. by rewrite Forall_cons.
        -- right. by rewrite Forall_cons.
    + intros [(pre & c' & post & E & Hf & Hc & Hn)|[Hf Hd]].
      * destruct pre as [|c0 pre]; injection E as -> ->.
        -- rewrite Hc. simpl. by destruct v.
        -- apply Forall_cons in Hf as [Hp Hf]. rewrite coalesce_step_passed by done.
           apply IH. left. eauto 10.
      * apply Forall_cons in Hf as [Hp Hf]. rewrite coalesce_step_passed by done.
        apply IH. by right.
Qed.
End refs_lemmas.

(** * Properties *)

Section refs_props.
Context `{PyEnv}.

(** A [$coalesce] reference is the convergence of mutually exclusive lanes.
    It evaluates to [v] exactly when [v] is what the first candidate gives whose
    reference is neither missing from the context nor None, whatever the later
    candidates are, or when every candidate is passed over and [v] is the
    [$default]. *)
Lemma coalesce_takes_the_first_lane_that_ran fs cs ctx v :
  dict_get "$value" fs = None → dict_get "$coalesce" fs = Some (JArr cs) →
  resolve_ref (JObj fs) ctx = Ok v ↔
  (∃ pre c post, cs = pre ++ c :: post ∧ Forall (passed_over ctx) pre ∧
     resolve_ref c ctx = Ok v ∧ v ≠ JNull) ∨
  (Forall (passed_over ctx) cs ∧ dict_get "$default" fs = Some v).
Proof.
  intros Hv Hc. rewrite resolve_ref_obj, Hv. unfold dict_has, _coalesce. rewrite Hc. simpl.
  apply coalesce_loop_spec.
Qed.
End refs_props.

(** * Witnesses *)

Module RefsDemo.
Definition env : PyEnv := {|
  py_getattr _ _ := None;
  py_str_other _ := "";
  py_repr _ := "";
  re_search _ _ := Ok false;
|}.
(** Lane [a] was skipped and wrote nothing; lane [b] ran. *)
Definition ctx : json := JObj [("b", JObj [("out", JInt 7)])].
Definition lane (p : string) : json := JObj [("$from", JStr p)].
Definition ref : dict := [("$coalesce", JArr [lane "a.out"; lane "b.out"])].
End RefsDemo.

Lemma coalesce_takes_the_first_lane_that_ran_witness :
  @resolve_ref RefsDemo.env (JObj RefsDemo.ref) RefsDemo.ctx = Ok (JInt 7).
Proof.
  apply (@coalesce_takes_the_first_lane_that_ran RefsDemo.env RefsDemo.ref
    [RefsDemo.lane "a.out"; RefsDemo.lane "b.out"] RefsDemo.ctx (JInt 7)); [reflexivity..|].
  left. exists [RefsDemo.lane "a.out"], (RefsDemo.lane "b.out"), [].
  split_and!; [reflexivity| |reflexivity|discriminate].
  constructor; [|constructor]. left. eexists. reflexivity.
Defined.
