(* ===== verification/Schema.v ===== *)
(** * The engine's tables

    The rows of the database ([queue_workflows/migrations]), the world state the
    engine's functions read and write, and the monad of those functions.

    A node-job row is split in two: [job_spec] has the columns written by the
    INSERT and never updated, [job_state] the columns the engine updates.
    Timestamps are integers, in microseconds; text and JSON columns are strings
    and dictionaries.  Columns no modelled function reads or writes
    ([parcel_id], [current_step_id], [progress_pct], [steps_done],
    [celery_task_id]) are left out. *)

From S2P Require Import Prelude.
From S2P Require Import Json.
Local Open Scope Z_scope.

(** The CHECK set of [workflow_node_jobs.status]. *)
Inductive node_status :=
  Queued | Running | Completed | Failed | Cancelled | AwaitingInput | Skipped.

#[export] Instance node_status_eq_dec : EqDecision node_status.
Proof. solve_decision. Defined.

(** [workflow_runs.status] has no CHECK: a host may write other words. *)
Inductive run_status :=
  | r_queued | r_running | r_completed | r_failed | r_cancelled
  | r_other (s : string).

#[export] Instance run_status_eq_dec : EqDecision run_status.
Proof. solve_decision. Defined.

(** The CHECK set of [workflow_dispatch_events.kind]. *)
Inductive event_kind := k_completed | k_failed | k_awaiting_input.

#[export] Instance event_kind_eq_dec : EqDecision event_kind.
Proof. solve_decision. Defined.

(** ** Rows *)

(** [workflow_node_jobs], the columns of the INSERT *)
Record job_spec := mkSpec {
  jid : string;
  run_id : string;
  pipeline_name : option string;
  node_id : string;
  node_module : string;
  queue : string;
  required_model : option string;
  project : string;
  inputs : dict;
  avoid_box : option (list string);
  force_box : option (list string);
  server_types : option (list string);
  cpu_slots : option Z;
  dedup_key : option string;
  required_models : option (list json);
  required_model_ids : option (list string);
  context_length : option Z;
  gpu_slots : option string;
  created_at : Z;
}.

(** [workflow_node_jobs], the columns the engine updates *)
Record job_state := mkState {
  status : node_status;
  priority : Z;
  is_priority : bool;
  worker_lane : option Z;
  started_at : option Z;
  finished_at : option Z;
  claimed_by : option string;
  lease_expires_at : option Z;
  resolved_server : option string;
  resolved_model : option string;
  watchdog_retries : Z;
  host_label : option string;
  context_delta : dict;
  error : option string;
  seconds : option Z;
  vm_rss_mb_peak : option Z;
  resolved_inputs : option dict;
  input_spec : option dict;
  unassignable_at : option Z;
  unassignable_reason : option string;
}.

Record node_job := mkJob {
  spec : job_spec;
  st : job_state;
}.

(** [workflow_runs] *)
Record run := mkRun {
  rid : string;
  workflow_name : string;
  rstatus : run_status;
  rpriority : Z;
  mode : string;
  context : dict;
  out_dir : option string;
  rproject : string;
  resume_count : Z;
  queued_at : option Z;
  rstarted_at : option Z;
  rfinished_at : option Z;
  rerror : option string;
  updated_at : Z;
}.

(** [workflow_dispatch_events], the durable outbox *)
Record dispatch_event := mkEvent {
  eid : Z;
  erun_id : string;
  enode_id : string;
  kind : event_kind;
  processed_at : option Z;
  eerror : option string;
  attempts : Z;
  ecreated_at : Z;
}.

(** [worker_heartbeats], keyed by (host_label, queue, project) *)
Record heartbeat := mkHb {
  hhost_label : string;
  hqueue : string;
  hproject : string;
  concurrency : Z;
  last_seen : Z;
  current_model : option string;
  known_models : list string;
  llm_servers_available : list string;
  vram_total_mb : option Z;
  fits_models : list string;
  llm_context_length : option Z;
  llm_context_max : option Z;
  last_flagged_dead_at : option Z;
}.

(** [worker_controls], keyed by (host_label, queue, project) *)
Record worker_control := mkWc {
  whost_label : string;
  wqueue : string;
  wproject : string;
  desired_state : string;
  stop_policy : string;
  requested_by : option string;
  wupdated_at : Z;
  llm_server_type : string;
  llm_parallelism : Z;
  vllm_idle_ttl_s : Z;
}.

(** [workflow_node_events], the append-only attempt log *)
Record node_event := mkNodeEvent {
  nrun_id : string;
  nnode_id : string;
  njob_id : option string;
  nattempt : Z;
  event_type : string;
  nhost_label : option string;
  nqueue : option string;
  nmodel : option string;
  elapsed : option Z;
  nerror : option string;
  detail : dict;
  nproject : string;
  ncreated_at : Z;
}.

(** [ingest_jobs] *)
Record ingest_job := mkIngest {
  iid : string;
  task_name : string;
  iqueue : string;
  reason : string;
  args : dict;
  iproject : string;
  istatus : node_status;
  ipriority : Z;
  istarted_at : option Z;
  ifinished_at : option Z;
  iclaimed_by : option string;
  ilease_expires_at : option Z;
  iresult : dict;
  ierror : option string;
  iseconds : option Z;
  icreated_at : Z;
}.

(** The database, the clock of [now()], the supply of fresh ids and the
    serial of the outbox. *)
Record world := mkWorld {
  runs : list run;
  node_jobs : list node_job;
  dispatch_events : list dispatch_event;
  node_events : list node_event;
  heartbeats : list heartbeat;
  worker_controls : list worker_control;
  ingest_jobs : list ingest_job;
  clock : Z;
  uuids : nat;
  event_seq : Z;
}.

(** ** Field updates *)

Definition set_status (v : node_status) (r : job_state) : job_state :=
  let '(mkState _ x1 x2 x3 x4 x5 x6 x7 x8 x9 x10 x11 x12 x13 x14 x15 x16 x17 x18 x19) := r in mkState v x1 x2 x3 x4 x5 x6 x7 x8 x9 x10 x11 x12 x13 x14 x15 x16 x17 x18 x19.
Definition set_priority (v : Z) (r : job_state) : job_state :=
  let '(mkState x0 _ x2 x3 x4 x5 x6 x7 x8 x9 x10 x11 x12 x13 x14 x15 x16 x17 x18 x19) := r in mkState x0 v x2 x3 x4 x5 x6 x7 x8 x9 x10 x11 x12 x13 x14 x15 x16 x17 x18 x19.
Definition set_is_priority (v : bool) (r : job_state) : job_state :=
  let '(mkState x0 x1 _ x3 x4 x5 x6 x7 x8 x9 x10 x11 x12 x13 x14 x15 x16 x17 x18 x19) := r in mkState x0 x1 v x3 x4 x5 x6 x7 x8 x9 x10 x11 x12 x13 x14 x15 x16 x17 x18 x19.
Definition set_worker_lane (v : option Z) (r : job_state) : job_state :=
  let '(mkState x0 x1 x2 _ x4 x5 x6 x7 x8 x9 x10 x11 x12 x13 x14 x15 x16 x17 x18 x19) := r in mkState x0 x1 x2 v x4 x5 x6 x7 x8 x9 x10 x11 x12 x13 x14 x15 x16 x17 x18 x19.
Definition set_started_at (v : option Z) (r : job_state) : job_state :=
  let '(mkState x0 x1 x2 x3 _ x5 x6 x7 x8 x9 x10 x11 x12 x13 x14 x15 x16 x17 x18 x19) := r in mkState x0 x1 x2 x3 v x5 x6 x7 x8 x9 x10 x11 x12 x13 x14 x15 x16 x17 x18 x19.
Definition set_finished_at (v : option Z) (r : job_state) : job_state :=
  let '(mkState x0 x1 x2 x3 x4 _ x6 x7 x8 x9 x10 x11 x12 x13 x14 x15 x16 x17 x18 x19) := r in mkState x0 x1 x2 x3 x4 v x6 x7 x8 x9 x10 x11 x12 x13 x14 x15 x16 x17 x18 x19.
Definition set_claimed_by (v : option string) (r : job_state) : job_state :=
  let '(mkState x0 x1 x2 x3 x4 x5 _ x7 x8 x9 x10 x11 x12 x13 x14 x15 x16 x17 x18 x19) := r in mkState x0 x1 x2 x3 x4 x5 v x7 x8 x9 x10 x11 x12 x13 x14 x15 x16 x17 x18 x19.
Definition set_lease_expires_at (v : option Z) (r : job_state) : job_state :=
  let '(mkState x0 x1 x2 x3 x4 x5 x6 _ x8 x9 x10 x11 x12 x13 x14 x15 x16 x17 x18 x19) := r in mkState x0 x1 x2 x3 x4 x5 x6 v x8 x9 x10 x11 x12 x13 x14 x15 x16 x17 x18 x19.
Definition set_resolved_server (v : option string) (r : job_state) : job_state :=
  let '(mkState x0 x1 x2 x3 x4 x5 x6 x7 _ x9 x10 x11 x12 x13 x14 x15 x16 x17 x18 x19) := r in mkState x0 x1 x2 x3 x4 x5 x6 x7 v x9 x10 x11 x12 x13 x14 x15 x16 x17 x18 x19.
Definition set_resolved_model (v : option string) (r : job_state) : job_state :=
  let '(mkState x0 x1 x2 x3 x4 x5 x6 x7 x8 _ x10 x11 x12 x13 x14 x15 x16 x17 x18 x19) := r in mkState x0 x1 x2 x3 x4 x5 x6 x7 x8 v x10 x11 x12 x13 x14 x15 x16 x17 x18 x19.
Definition set_watchdog_retries (v : Z) (r : job_state) : job_state :=
  let '(mkState x0 x1 x2 x3 x4 x5 x6 x7 x8 x9 _ x11 x12 x13 x14 x15 x16 x17 x18 x19) := r in mkState x0 x1 x2 x3 x4 x5 x6 x7 x8 x9 v x11 x12 x13 x14 x15 x16 x17 x18 x19.
Definition set_host_label (v : option string) (r : job_state) : job_state :=
  let '(mkState x0 x1 x2 x3 x4 x5 x6 x7 x8 x9 x10 _ x12 x13 x14 x15 x16 x17 x18 x19) := r in mkState x0 x1 x2 x3 x4 x5 x6 x7 x8 x9 x10 v x12 x13 x14 x15 x16 x17 x18 x19.
Definition set_context_delta (v : dict) (r : job_state) : job_state :=
  let '(mkState x0 x1 x2 x3 x4 x5 x6 x7 x8 x9 x10 x11 _ x13 x14 x15 x16 x17 x18 x19) := r in mkState x0 x1 x2 x3 x4 x5 x6 x7 x8 x9 x10 x11 v x13 x14 x15 x16 x17 x18 x19.
Definition set_error (v : option string) (r : job_state) : job_state :=
  let '(mkState x0 x1 x2 x3 x4 x5 x6 x7 x8 x9 x10 x11 x12 _ x14 x15 x16 x17 x18 x19) := r in mkState x0 x1 x2 x3 x4 x5 x6 x7 x8 x9 x10 x11 x12 v x14 x15 x16 x17 x18 x19.
Definition set_seconds (v : option Z) (r : job_state) : job_state :=
  let '(mkState x0 x1 x2 x3 x4 x5 x6 x7 x8 x9 x10 x11 x12 x13 _ x15 x16 x17 x18 x19) := r in mkState x0 x1 x2 x3 x4 x5 x6 x7 x8 x9 x10 x11 x12 x13 v x15 x16 x17 x18 x19.
Definition set_vm_rss_mb_peak (v : option Z) (r : job_state) : job_state :=
  let '(mkState x0 x1 x2 x3 x4 x5 x6 x7 x8 x9 x10 x11 x12 x13 x14 _ x16 x17 x18 x19) := r in mkState x0 x1 x2 x3 x4 x5 x6 x7 x8 x9 x10 x11 x12 x13 x14 v x16 x17 x18 x19.
Definition set_resolved_inputs (v : option dict) (r : job_state) : job_state :=
  let '(mkState x0 x1 x2 x3 x4 x5 x6 x7 x8 x9 x10 x11 x12 x13 x14 x15 _ x17 x18 x19) := r in mkState x0 x1 x2 x3 x4 x5 x6 x7 x8 x9 x10 x11 x12 x13 x14 x15 v x17 x18 x19.
Definition set_input_spec (v : option dict) (r : job_state) : job_state :=
  let '(mkState x0 x1 x2 x3 x4 x5 x6 x7 x8 x9 x10 x11 x12 x13 x14 x15 x16 _ x18 x19) := r in mkState x0 x1 x2 x3 x4 x5 x6 x7 x8 x9 x10 x11 x12 x13 x14 x15 x16 v x18 x19.
Definition set_unassignable_at (v : option Z) (r : job_state) : job_state :=
  let '(mkState x0 x1 x2 x3 x4 x5 x6 x7 x8 x9 x10 x11 x12 x13 x14 x15 x16 x17 _ x19) := r in mkState x0 x1 x2 x3 x4 x5 x6 x7 x8 x9 x10 x11 x12 x13 x14 x15 x16 x17 v x19.
Definition set_unassignable_reason (v : option string) (r : job_state) : job_state :=
  let '(mkState x0 x1 x2 x3 x4 x5 x6 x7 x8 x9 x10 x11 x12 x13 x14 x15 x16 x17 x18 _) := r in mkState x0 x1 x2 x3 x4 x5 x6 x7 x8 x9 x10 x11 x12 x13 x14 x15 x16 x17 x18 v.

(** An update of a node-job row changes its state half only. *)
Definition upd (f : job_state → job_state) (j : node_job) : node_job :=
  mkJob (spec j) (f (st j)).

Definition set_rid (v : string) (r : run) : run :=
  let '(mkRun _ x1 x2 x3 x4 x5 x6 x7 x8 x9 x10 x11 x12 x13) := r in mkRun v x1 x2 x3 x4 x5 x6 x7 x8 x9 x10 x11 x12 x13.
Definition set_workflow_name (v : string) (r : run) : run :=
  let '(mkRun x0 _ x2 x3 x4 x5 x6 x7 x8 x9 x10 x11 x12 x13) := r in mkRun x0 v x2 x3 x4 x5 x6 x7 x8 x9 x10 x11 x12 x13.
Definition set_rstatus (v : run_status) (r : run) : run :=
  let '(mkRun x0 x1 _ x3 x4 x5 x6 x7 x8 x9 x10 x11 x12 x13) := r in mkRun x0 x1 v x3 x4 x5 x6 x7 x8 x9 x10 x11 x12 x13.
Definition set_rpriority (v : Z) (r : run) : run :=
  let '(mkRun x0 x1 x2 _ x4 x5 x6 x7 x8 x9 x10 x11 x12 x13) := r in mkRun x0 x1 x2 v x4 x5 x6 x7 x8 x9 x10 x11 x12 x13.
Definition set_mode (v : string) (r : run) : run :=
  let '(mkRun x0 x1 x2 x3 _ x5 x6 x7 x8 x9 x10 x11 x12 x13) := r in mkRun x0 x1 x2 x3 v x5 x6 x7 x8 x9 x10 x11 x12 x13.
Definition set_context (v : dict) (r : run) : run :=
  let '(mkRun x0 x1 x2 x3 x4 _ x6 x7 x8 x9 x10 x11 x12 x13) := r in mkRun x0 x1 x2 x3 x4 v x6 x7 x8 x9 x10 x11 x12 x13.
Definition set_out_dir (v : option string) (r : run) : run :=
  let '(mkRun x0 x1 x2 x3 x4 x5 _ x7 x8 x9 x10 x11 x12 x13) := r in mkRun x0 x1 x2 x3 x4 x5 v x7 x8 x9 x10 x11 x12 x13.
Definition set_rproject (v : string) (r : run) : run :=
  let '(mkRun x0 x1 x2 x3 x4 x5 x6 _ x8 x9 x10 x11 x12 x13) := r in mkRun x0 x1 x2 x3 x4 x5 x6 v x8 x9 x10 x11 x12 x13.
Definition set_resume_count (v : Z) (r : run) : run :=
  let '(mkRun x0 x1 x2 x3 x4 x5 x6 x7 _ x9 x10 x11 x12 x13) := r in mkRun x0 x1 x2 x3 x4 x5 x6 x7 v x9 x10 x11 x12 x13.
Definition set_queued_at (v : option Z) (r : run) : run :=
  let '(mkRun x0 x1 x2 x3 x4 x5 x6 x7 x8 _ x10 x11 x12 x13) := r in mkRun x0 x1 x2 x3 x4 x5 x6 x7 x8 v x10 x11 x12 x13.
Definition set_rstarted_at (v : option Z) (r : run) : run :=
  let '(mkRun x0 x1 x2 x3 x4 x5 x6 x7 x8 x9 _ x11 x12 x13) := r in mkRun x0 x1 x2 x3 x4 x5 x6 x7 x8 x9 v x11 x12 x13.
Definition set_rfinished_at (v : option Z) (r : run) : run :=
  let '(mkRun x0 x1 x2 x3 x4 x5 x6 x7 x8 x9 x10 _ x12 x13) := r in mkRun x0 x1 x2 x3 x4 x5 x6 x7 x8 x9 x10 v x12 x13.
Definition set_rerror (v : option string) (r : run) : run :=
  let '(mkRun x0 x1 x2 x3 x4 x5 x6 x7 x8 x9 x10 x11 _ x13) := r in mkRun x0 x1 x2 x3 x4 x5 x6 x7 x8 x9 x10 x11 v x13.
Definition set_updated_at (v : Z) (r : run) : run :=
  let '(mkRun x0 x1 x2 x3 x4 x5 x6 x7 x8 x9 x10 x11 x12 _) := r in mkRun x0 x1 x2 x3 x4 x5 x6 x7 x8 x9 x10 x11 x12 v.

Definition set_eid (v : Z) (r : dispatch_event) : dispatch_event :=
  let '(mkEvent _ x1 x2 x3 x4 x5 x6 x7) := r in mkEvent v x1 x2 x3 x4 x5 x6 x7.
Definition set_erun_id (v : string) (r : dispatch_event) : dispatch_event :=
  let '(mkEvent x0 _ x2 x3 x4 x5 x6 x7) := r in mkEvent x0 v x2 x3 x4 x5 x6 x7.
Definition set_enode_id (v : string) (r : dispatch_event) : dispatch_event :=
  let '(mkEvent x0 x1 _ x3 x4 x5 x6 x7) := r in mkEvent x0 x1 v x3 x4 x5 x6 x7.
Definition set_kind (v : event_kind) (r : dispatch_event) : dispatch_event :=
  let '(mkEvent x0 x1 x2 _ x4 x5 x6 x7) := r in mkEvent x0 x1 x2 v x4 x5 x6 x7.
Definition set_processed_at (v : option Z) (r : dispatch_event) : dispatch_event :=
  let '(mkEvent x0 x1 x2 x3 _ x5 x6 x7) := r in mkEvent x0 x1 x2 x3 v x5 x6 x7.
Definition set_eerror (v : option string) (r : dispatch_event) : dispatch_event :=
  let '(mkEvent x0 x1 x2 x3 x4 _ x6 x7) := r in mkEvent x0 x1 x2 x3 x4 v x6 x7.
Definition set_attempts (v : Z) (r : dispatch_event) : dispatch_event :=
  let '(mkEvent x0 x1 x2 x3 x4 x5 _ x7) := r in mkEvent x0 x1 x2 x3 x4 x5 v x7.
Definition set_ecreated_at (v : Z) (r : dispatch_event) : dispatch_event :=
  let '(mkEvent x0 x1 x2 x3 x4 x5 x6 _) := r in mkEvent x0 x1 x2 x3 x4 x5 x6 v.

Definition set_hhost_label (v : string) (r : heartbeat) : heartbeat :=
  let '(mkHb _ x1 x2 x3 x4 x5 x6 x7 x8 x9 x10 x11 x12) := r in mkHb v x1 x2 x3 x4 x5 x6 x7 x8 x9 x10 x11 x12.
Definition set_hqueue (v : string) (r : heartbeat) : heartbeat :=
  let '(mkHb x0 _ x2 x3 x4 x5 x6 x7 x8 x9 x10 x11 x12) := r in mkHb x0 v x2 x3 x4 x5 x6 x7 x8 x9 x10 x11 x12.
Definition set_hproject (v : string) (r : heartbeat) : heartbeat :=
  let '(mkHb x0 x1 _ x3 x4 x5 x6 x7 x8 x9 x10 x11 x12) := r in mkHb x0 x1 v x3 x4 x5 x6 x7 x8 x9 x10 x11 x12.
Definition set_concurrency (v : Z) (r : heartbeat) : heartbeat :=
  let '(mkHb x0 x1 x2 _ x4 x5 x6 x7 x8 x9 x10 x11 x12) := r in mkHb x0 x1 x2 v x4 x5 x6 x7 x8 x9 x10 x11 x12.
Definition set_last_seen (v : Z) (r : heartbeat) : heartbeat :=
  let '(mkHb x0 x1 x2 x3 _ x5 x6 x7 x8 x9 x10 x11 x12) := r in mkHb x0 x1 x2 x3 v x5 x6 x7 x8 x9 x10 x11 x12.
Definition set_current_model (v : option string) (r : heartbeat) : heartbeat :=
  let '(mkHb x0 x1 x2 x3 x4 _ x6 x7 x8 x9 x10 x11 x12) := r in mkHb x0 x1 x2 x3 x4 v x6 x7 x8 x9 x10 x11 x12.
Definition set_known_models (v : list string) (r : heartbeat) : heartbeat :=
  let '(mkHb x0 x1 x2 x3 x4 x5 _ x7 x8 x9 x10 x11 x12) := r in mkHb x0 x1 x2 x3 x4 x5 v x7 x8 x9 x10 x11 x12.
Definition set_llm_servers_available (v : list string) (r : heartbeat) : heartbeat :=
  let '(mkHb x0 x1 x2 x3 x4 x5 x6 _ x8 x9 x10 x11 x12) := r in mkHb x0 x1 x2 x3 x4 x5 x6 v x8 x9 x10 x11 x12.
Definition set_vram_total_mb (v : option Z) (r : heartbeat) : heartbeat :=
  let '(mkHb x0 x1 x2 x3 x4 x5 x6 x7 _ x9 x10 x11 x12) := r in mkHb x0 x1 x2 x3 x4 x5 x6 x7 v x9 x10 x11 x12.
Definition set_fits_models (v : list string) (r : heartbeat) : heartbeat :=
  let '(mkHb x0 x1 x2 x3 x4 x5 x6 x7 x8 _ x10 x11 x12) := r in mkHb x0 x1 x2 x3 x4 x5 x6 x7 x8 v x10 x11 x12.
Definition set_llm_context_length (v : option Z) (r : heartbeat) : heartbeat :=
  let '(mkHb x0 x1 x2 x3 x4 x5 x6 x7 x8 x9 _ x11 x12) := r in mkHb x0 x1 x2 x3 x4 x5 x6 x7 x8 x9 v x11 x12.
Definition set_llm_context_max (v : option Z) (r : heartbeat) : heartbeat :=
  let '(mkHb x0 x1 x2 x3 x4 x5 x6 x7 x8 x9 x10 _ x12) := r in mkHb x0 x1 x2 x3 x4 x5 x6 x7 x8 x9 x10 v x12.
Definition set_last_flagged_dead_at (v : option Z) (r : heartbeat) : heartbeat :=
  let '(mkHb x0 x1 x2 x3 x4 x5 x6 x7 x8 x9 x10 x11 _) := r in mkHb x0 x1 x2 x3 x4 x5 x6 x7 x8 x9 x10 x11 v.

Definition set_iid (v : string) (r : ingest_job) : ingest_job :=
  let '(mkIngest _ x1 x2 x3 x4 x5 x6 x7 x8 x9 x10 x11 x12 x13 x14 x15) := r in mkIngest v x1 x2 x3 x4 x5 x6 x7 x8 x9 x10 x11 x12 x13 x14 x15.
Definition set_task_name (v : string) (r : ingest_job) : ingest_job :=
  let '(mkIngest x0 _ x2 x3 x4 x5 x6 x7 x8 x9 x10 x11 x12 x13 x14 x15) := r in mkIngest x0 v x2 x3 x4 x5 x6 x7 x8 x9 x10 x11 x12 x13 x14 x15.
Definition set_iqueue (v : string) (r : ingest_job) : ingest_job :=
  let '(mkIngest x0 x1 _ x3 x4 x5 x6 x7 x8 x9 x10 x11 x12 x13 x14 x15) := r in mkIngest x0 x1 v x3 x4 x5 x6 x7 x8 x9 x10 x11 x12 x13 x14 x15.
Definition set_reason (v : string) (r : ingest_job) : ingest_job :=
  let '(mkIngest x0 x1 x2 _ x4 x5 x6 x7 x8 x9 x10 x11 x12 x13 x14 x15) := r in mkIngest x0 x1 x2 v x4 x5 x6 x7 x8 x9 x10 x11 x12 x13 x14 x15.
Definition set_args (v : dict) (r : ingest_job) : ingest_job :=
  let '(mkIngest x0 x1 x2 x3 _ x5 x6 x7 x8 x9 x10 x11 x12 x13 x14 x15) := r in mkIngest x0 x1 x2 x3 v x5 x6 x7 x8 x9 x10 x11 x12 x13 x14 x15.
Definition set_iproject (v : string) (r : ingest_job) : ingest_job :=
  let '(mkIngest x0 x1 x2 x3 x4 _ x6 x7 x8 x9 x10 x11 x12 x13 x14 x15) := r in mkIngest x0 x1 x2 x3 x4 v x6 x7 x8 x9 x10 x11 x12 x13 x14 x15.
Definition set_istatus (v : node_status) (r : ingest_job) : ingest_job :=
  let '(mkIngest x0 x1 x2 x3 x4 x5 _ x7 x8 x9 x10 x11 x12 x13 x14 x15) := r in mkIngest x0 x1 x2 x3 x4 x5 v x7 x8 x9 x10 x11 x12 x13 x14 x15.
Definition set_ipriority (v : Z) (r : ingest_job) : ingest_job :=
  let '(mkIngest x0 x1 x2 x3 x4 x5 x6 _ x8 x9 x10 x11 x12 x13 x14 x15) := r in mkIngest x0 x1 x2 x3 x4 x5 x6 v x8 x9 x10 x11 x12 x13 x14 x15.
Definition set_istarted_at (v : option Z) (r : ingest_job) : ingest_job :=
  let '(mkIngest x0 x1 x2 x3 x4 x5 x6 x7 _ x9 x10 x11 x12 x13 x14 x15) := r in mkIngest x0 x1 x2 x3 x4 x5 x6 x7 v x9 x10 x11 x12 x13 x14 x15.
Definition set_ifinished_at (v : option Z) (r : ingest_job) : ingest_job :=
  let '(mkIngest x0 x1 x2 x3 x4 x5 x6 x7 x8 _ x10 x11 x12 x13 x14 x15) := r in mkIngest x0 x1 x2 x3 x4 x5 x6 x7 x8 v x10 x11 x12 x13 x14 x15.
Definition set_iclaimed_by (v : option string) (r : ingest_job) : ingest_job :=
  let '(mkIngest x0 x1 x2 x3 x4 x5 x6 x7 x8 x9 _ x11 x12 x13 x14 x15) := r in mkIngest x0 x1 x2 x3 x4 x5 x6 x7 x8 x9 v x11 x12 x13 x14 x15.
Definition set_ilease_expires_at (v : option Z) (r : ingest_job) : ingest_job :=
  let '(mkIngest x0 x1 x2 x3 x4 x5 x6 x7 x8 x9 x10 _ x12 x13 x14 x15) := r in mkIngest x0 x1 x2 x3 x4 x5 x6 x7 x8 x9 x10 v x12 x13 x14 x15.
Definition set_iresult (v : dict) (r : ingest_job) : ingest_job :=
  let '(mkIngest x0 x1 x2 x3 x4 x5 x6 x7 x8 x9 x10 x11 _ x13 x14 x15) := r in mkIngest x0 x1 x2 x3 x4 x5 x6 x7 x8 x9 x10 x11 v x13 x14 x15.
Definition set_ierror (v : option string) (r : ingest_job) : ingest_job :=
  let '(mkIngest x0 x1 x2 x3 x4 x5 x6 x7 x8 x9 x10 x11 x12 _ x14 x15) := r in mkIngest x0 x1 x2 x3 x4 x5 x6 x7 x8 x9 x10 x11 x12 v x14 x15.
Definition set_iseconds (v : option Z) (r : ingest_job) : ingest_job :=
  let '(mkIngest x0 x1 x2 x3 x4 x5 x6 x7 x8 x9 x10 x11 x12 x13 _ x15) := r in mkIngest x0 x1 x2 x3 x4 x5 x6 x7 x8 x9 x10 x11 x12 x13 v x15.
Definition set_icreated_at (v : Z) (r : ingest_job) : ingest_job :=
  let '(mkIngest x0 x1 x2 x3 x4 x5 x6 x7 x8 x9 x10 x11 x12 x13 x14 _) := r in mkIngest x0 x1 x2 x3 x4 x5 x6 x7 x8 x9 x10 x11 x12 x13 x14 v.

Definition set_runs (v : list run) (r : world) : world :=
  let '(mkWorld _ x1 x2 x3 x4 x5 x6 x7 x8 x9) := r in mkWorld v x1 x2 x3 x4 x5 x6 x7 x8 x9.
Definition set_node_jobs (v : list node_job) (r : world) : world :=
  let '(mkWorld x0 _ x2 x3 x4 x5 x6 x7 x8 x9) := r in mkWorld x0 v x2 x3 x4 x5 x6 x7 x8 x9.
Definition set_dispatch_events (v : list dispatch_event) (r : world) : world :=
  let '(mkWorld x0 x1 _ x3 x4 x5 x6 x7 x8 x9) := r in mkWorld x0 x1 v x3 x4 x5 x6 x7 x8 x9.
Definition set_node_events (v : list node_event) (r : world) : world :=
  let '(mkWorld x0 x1 x2 _ x4 x5 x6 x7 x8 x9) := r in mkWorld x0 x1 x2 v x4 x5 x6 x7 x8 x9.
Definition set_heartbeats (v : list heartbeat) (r : world) : world :=
  let '(mkWorld x0 x1 x2 x3 _ x5 x6 x7 x8 x9) := r in mkWorld x0 x1 x2 x3 v x5 x6 x7 x8 x9.
Definition set_worker_controls (v : list worker_control) (r : world) : world :=
  let '(mkWorld x0 x1 x2 x3 x4 _ x6 x7 x8 x9) := r in mkWorld x0 x1 x2 x3 x4 v x6 x7 x8 x9.
Definition set_ingest_jobs (v : list ingest_job) (r : world) : world :=
  let '(mkWorld x0 x1 x2 x3 x4 x5 _ x7 x8 x9) := r in mkWorld x0 x1 x2 x3 x4 x5 v x7 x8 x9.
Definition set_clock (v : Z) (r : world) : world :=
  let '(mkWorld x0 x1 x2 x3 x4 x5 x6 _ x8 x9) := r in mkWorld x0 x1 x2 x3 x4 x5 x6 v x8 x9.
Definition set_uuids (v : nat) (r : world) : world :=
  let '(mkWorld x0 x1 x2 x3 x4 x5 x6 x7 _ x9) := r in mkWorld x0 x1 x2 x3 x4 x5 x6 x7 v x9.
Definition set_event_seq (v : Z) (r : world) : world :=
  let '(mkWorld x0 x1 x2 x3 x4 x5 x6 x7 x8 _) := r in mkWorld x0 x1 x2 x3 x4 x5 x6 x7 x8 v.

(** [x |> f |> g]: the SET clauses of an UPDATE, left to right *)
Notation "x |> f" := (f x) (at level 61, left associativity, only parsing).

Coercion spec : node_job >-> job_spec.
Coercion st : node_job >-> job_state.

(** The primary key of a row and its cell of the DAG, UNIQUE (run_id, node_id) *)
Definition job_key (j : node_job) : string := jid j.
Definition cell (j : node_job) : string * string := (run_id j, node_id j).

Definition seconds_us (n : Z) : Z := n * 1000000.

(** [uuid.uuid4()]: a fresh identifier, drawn from a counter. *)
Definition uuid4 (n : nat) : string := "uuid-" +:+ pretty n.

#[export] Instance uuid4_inj : Inj (=) (=) uuid4.
Proof. intros m n H. apply (inj (String.append _)) in H. by apply (inj pretty) in H. Qed.

(** ** The monad of the engine's functions

    A function that talks to the database returns a value or an exception and
    the new world.  Each [with connection()] block of the sources is its own
    transaction: what earlier blocks committed survives a later exception. *)

Definition M (A : Type) : Type := world → result A * world.

#[export] Instance M_ret : MRet M := λ A a w, (Ok a, w).
#[export] Instance M_bind : MBind M := λ A B f m w,
  match m w with
  | (Ok a, w') => f a w'
  | (Raise e, w') => (Raise e, w')
  end.
#[export] Instance M_fmap : FMap M := λ A B f m w,
  match m w with
  | (Ok a, w') => (Ok (f a), w')
  | (Raise e, w') => (Raise e, w')
  end.

Definition raise {A} (e : exc) : M A := λ w, (Raise e, w).
Definition lift {A} (r : result A) : M A := λ w, (r, w).
(** [try: m except E as e: h(e)], for the exceptions [h] accepts *)
Definition try_except {A} (m : M A) (h : exc → option (M A)) : M A := λ w,
  match m w with
  | (Raise e, w') => match h e with Some k => k w' | None => (Raise e, w') end
  | r => r
  end.
(** A read-only query, and a statement that rewrites the world and returns *)
Definition gets {A} (q : world → A) : M A := λ w, (Ok (q w), w).
Definition modify (f : world → world) : M () := λ w, (Ok (), f w).
(** One transaction: on an exception its writes are rolled back. *)
Definition transaction {A} (m : M A) : M A := λ w,
  match m w with
  | (Raise e, _) => (Raise e, w)
  | r => r
  end.

(** [for x in l: f(x)] *)
Fixpoint forM {A} (l : list A) (f : A → M ()) : M () :=
  match l with
  | [] => mret ()
  | x :: r => _ ← f x; forM r f
  end.

(** ** Statements shared by the components *)

Definition on_jobs (f : list node_job → list node_job) (w : world) : world :=
  set_node_jobs (f (node_jobs w)) w.
Definition on_runs (f : list run → list run) (w : world) : world :=
  set_runs (f (runs w)) w.

(** [SELECT * FROM workflow_runs WHERE id = %s] *)
Definition run_of (w : world) (r : string) : option run :=
  List.find (λ x, bool_decide (rid x = r)) (runs w).

(** [EXISTS (SELECT 1 FROM workflow_runs r WHERE r.id = j.run_id AND p)] *)
Definition parent_run (w : world) (p : run → bool) (j : node_job) : bool :=
  exists_row (λ r, bool_decide (rid r = run_id j) && p r) (runs w).

(** ** Well-formed databases

    The constraints the schema declares: primary keys, UNIQUE (run_id,
    node_id), the foreign key to the run, CHECK (queue = 'gpu' OR
    required_model IS NULL); and the bookkeeping of the id supply. *)
Record db_ok (w : world) : Prop := {
  ok_job_ids : NoDup (map job_key (node_jobs w));
  ok_cells : NoDup (map cell (node_jobs w));
  ok_run_ids : NoDup (map rid (runs w));
  ok_parents : ∀ j : node_job, j ∈ node_jobs w → ∃ r, r ∈ runs w ∧ rid r = run_id j;
  ok_models : ∀ j : node_job, j ∈ node_jobs w → queue j = "gpu"%string ∨ required_model j = None;
  ok_fresh : ∀ n, (uuids w ≤ n)%nat → uuid4 n ∉ map job_key (node_jobs w);
}.

(** The claim bookkeeping: a queued row belongs to no worker, and a running
    row carries a lease. *)
Definition claim_shape (s : job_state) : Prop :=
  (status s = Queued → claimed_by s = None ∧ lease_expires_at s = None ∧ started_at s = None) ∧
  (status s = Running → is_Some (lease_expires_at s) ∧ is_Some (started_at s)).

Definition jobs_shaped (w : world) : Prop :=
  ∀ j, j ∈ node_jobs w → claim_shape (st j).

(** ** Lemmas *)

Section schema_lemmas.
Implicit Types (w : world) (j : node_job) (f : job_state → job_state).

Lemma upd_spec f j : spec (upd f j) = spec j.
Proof. done. Qed.

(** An UPDATE of job states keeps every schema constraint. *)
Lemma db_ok_update_rows w p (g : node_job → node_job) :
  (∀ j, spec (g j) = spec j) → db_ok w → db_ok (on_jobs (update_where p g) w).
Proof.
  intros Hg [H1 H2 H3 H4 H5 H6]. destruct w; simpl in *.
  assert (∀ j, j ∈ update_where p g node_jobs0 →
            ∃ j0, j0 ∈ node_jobs0 ∧ spec j = spec j0) as Hin.
  { intros j (j0 & Hj0 & ->)%elem_of_update_where. exists j0. destruct (p j0); auto. }
  assert (∀ j, job_key (g j) = job_key j) as Hk by (intros j; unfold job_key; by rewrite Hg).
  assert (∀ j, cell (g j) = cell j) as Hc by (intros j; unfold cell; by rewrite Hg).
  split; simpl; rewrite ?update_where_map by done; auto.
  - intros j (j0 & Hj0 & Hs)%Hin. rewrite Hs. eauto.
  - intros j (j0 & Hj0 & Hs)%Hin. rewrite Hs. eauto.
Qed.

Lemma db_ok_update w p f :
  db_ok w → db_ok (on_jobs (update_where p (upd f)) w).
Proof. by apply db_ok_update_rows. Qed.

Lemma jobs_shaped_update w p f :
  (∀ s, claim_shape s → claim_shape (f s)) →
  jobs_shaped w → jobs_shaped (on_jobs (update_where p (upd f)) w).
Proof.
  intros Hf Hw j. destruct w; simpl.
  intros (j0 & Hj0 & ->)%elem_of_update_where.
  destruct (p j0); simpl; [apply Hf|]; by apply Hw.
Qed.

Lemma node_jobs_on_jobs g w : node_jobs (on_jobs g w) = g (node_jobs w).
Proof. by destruct w. Qed.
Lemma runs_on_jobs g w : runs (on_jobs g w) = runs w.
Proof. by destruct w. Qed.
Lemma clock_on_jobs g w : clock (on_jobs g w) = clock w.
Proof. by destruct w. Qed.
Lemma heartbeats_on_jobs g w : heartbeats (on_jobs g w) = heartbeats w.
Proof. by destruct w. Qed.
Lemma events_on_jobs g w : dispatch_events (on_jobs g w) = dispatch_events w.
Proof. by destruct w. Qed.

Lemma job_by_id_unique w j1 j2 :
  db_ok w → j1 ∈ node_jobs w → j2 ∈ node_jobs w → jid j1 = jid j2 → j1 = j2.
Proof. intros [H _ _ _ _ _]. by apply (key_unique job_key). Qed.

Lemma job_by_cell_unique w j1 j2 :
  db_ok w → j1 ∈ node_jobs w → j2 ∈ node_jobs w → cell j1 = cell j2 → j1 = j2.
Proof. intros [_ H _ _ _ _]. by apply (key_unique cell). Qed.

Lemma run_by_id_unique w r1 r2 :
  db_ok w → r1 ∈ runs w → r2 ∈ runs w → rid r1 = rid r2 → r1 = r2.
Proof. intros [_ _ H _ _ _]. by apply (key_unique rid). Qed.

(** A database with the same job ids, cells, models, runs and id supply is as
    well-formed. *)
Lemma db_ok_same w w' :
  map spec (node_jobs w') = map spec (node_jobs w) → map rid (runs w') = map rid (runs w) →
  uuids w' = uuids w → db_ok w → db_ok w'.
Proof.
  intros Hs Hr Hu [H1 H2 H3 H4 H5 H6].
  assert (∀ {B} (g : job_spec → B), map (λ j : node_job, g (spec j)) (node_jobs w') =
            map (λ j : node_job, g (spec j)) (node_jobs w)) as Hg.
  { intros B g. by rewrite <- !(map_map spec g), Hs. }
  assert (∀ j, j ∈ node_jobs w' → ∃ j0, j0 ∈ node_jobs w ∧ spec j = spec j0) as Hin.
  { intros j Hj. assert (spec j ∈ map spec (node_jobs w)) as (j0 & E & Hj0)%list_elem_of_fmap
      by (rewrite <- Hs; apply list_elem_of_fmap; eauto). eauto. }
  split.
  - unfold job_key. rewrite (Hg _ jid). exact H1.
  - unfold cell. rewrite (Hg _ (λ s, (run_id s, node_id s))). exact H2.
  - by rewrite Hr.
  - intros j (j0 & Hj0 & ->)%Hin. destruct (H4 j0 Hj0) as (r & Hin' & E).
    assert (rid r ∈ map rid (runs w')) as (r' & E' & Hr')%list_elem_of_fmap
      by (rewrite Hr; apply list_elem_of_fmap; eauto).
    exists r'. split; [done|congruence].
  - intros j (j0 & Hj0 & ->)%Hin. auto.
  - intros n Hn. rewrite Hu in Hn. unfold job_key. rewrite (Hg _ jid). by apply H6.
Qed.
End schema_lemmas.

#[export] Hint Rewrite node_jobs_on_jobs runs_on_jobs clock_on_jobs heartbeats_on_jobs
  events_on_jobs : engine.
#[export] Hint Resolve db_ok_update : engine.
