(* ===== verification/NodeQueue.v ===== *)
(** * The node-job queue: rows and their transitions ([queue_workflows/node_queue.py])

    The INSERTs of a node-job, the terminal marks, the retry and cancel
    updates, the dispatch-event outbox and the node-event log.  The claims are
    in the file [Claim], the recovery sweeps in [Reclaim]. *)

From S2P Require Import Prelude.
From S2P Require Import Json.
From S2P Require Import PyText.
From S2P Require Import Refs.
From S2P Require Import Schema.
Local Open Scope string_scope.
Local Open Scope list_scope.
Local Open Scope Z_scope.

(** What the queue reads of the engine configuration: this client's tenant tag
    ([config.project], an unset one being the empty string), the host's ingest
    queues and tasks, and the freshness window of a heartbeat in seconds (the
    environment override of [STALE_WORKER_AFTER_S] already applied). *)
Class QueueConfig := {
  config_project : string;
  config_ingest_queues : list string;
  config_ingest_tasks : list string;
  config_stale_worker_after_s : Z;
}.

(** [_project]: an explicit tag wins over the configured one. *)
Definition _project `{QueueConfig} (p : option string) : string :=
  match p with Some x => x | None => config_project end.

(** [l or None] for a list, after dropping the empty strings *)
Definition nonempty_strings (l : option (list string)) : option (list string) :=
  match List.filter PyStr.truthy (default [] l) with
  | [] => None
  | l' => Some l'
  end.

(** [(str(k).strip() if k is not None else "") or None] *)
Definition strip_or_none (k : option string) : option string :=
  match k with
  | None => None
  | Some s => let t := PyStr.strip s in if PyStr.truthy t then Some t else None
  end.

(** [normalise_gpu_slots] *)
Definition gpu_slots_error : exc := ValueError "gpu_slots must be an int >= 1, 'half' or 'all'".
Definition gpu_slots_of_int (n : Z) : result (option string) :=
  if n <? 1 then Raise gpu_slots_error
  else Ok (if n =? 1 then None else Some (pretty n)).

Definition normalise_gpu_slots (value : json) : result (option string) :=
  match value with
  | JNull => Ok None
  | JBool _ | JFloat _ => Raise gpu_slots_error
  | JStr s =>
      let word := PyStr.lower (PyStr.strip s) in
      if String.eqb word "all" || String.eqb word "half" then Ok (Some word)
      else if negb (PyStr.isdigit word) then Raise gpu_slots_error
      else gpu_slots_of_int (PyStr.int_of_digits word)
  | JInt n => gpu_slots_of_int n
  | _ => Raise gpu_slots_error
  end.

(** [validate_context_length] *)
Definition validate_context_length (value : json) : result (option Z) :=
  match value with
  | JNull => Ok None
  | JInt n => if n <? 1 then Raise (ValueError "context_length") else Ok (Some n)
  | _ => Raise (ValueError "context_length")
  end.

(** The keyword arguments of [enqueue_node_job]. *)
Record enqueue_args := mkArgs {
  a_run_id : string;
  a_node_id : string;
  a_node_module : string;
  a_queue : string;
  a_required_model : option string;
  a_required_models : option (list json);
  a_inputs : dict;
  a_priority : Z;
  a_pipeline_name : option string;
  a_project : option string;
  a_avoid_box : option (list string);
  a_force_box : option (list string);
  a_server_types : option (list string);
  a_cpu_slots : option Z;
  a_dedup_key : option string;
  a_context_length : json;
  a_gpu_slots : json;
}.

(** A column of a smallint or integer type refuses a value beyond its width. *)
Definition in_smallint (n : Z) : bool := (-32768 <=? n) && (n <=? 32767).
Definition in_integer (n : Z) : bool := (-2147483648 <=? n) && (n <=? 2147483647).

(** [INSERT INTO workflow_node_jobs]: the row is refused when it breaks a
    column's width, the primary key, UNIQUE (run_id, node_id), the foreign key
    to the run, or CHECK (queue = 'gpu' OR required_model IS NULL). *)
Definition widths_ok (j : node_job) : bool :=
  in_smallint (priority j) && from_option in_smallint true (cpu_slots j) &&
  from_option in_integer true (context_length j).

Definition insert_node_job (j : node_job) : M () := λ w,
  if negb (widths_ok j) then (Raise (OtherError "NumericValueOutOfRange"), w)
  else if exists_row (λ x, bool_decide (job_key x = job_key j)) (node_jobs w)
  then (Raise (IntegrityError "workflow_node_jobs_pkey"), w)
  else if exists_row (λ x, bool_decide (cell x = cell j)) (node_jobs w)
  then (Raise (IntegrityError "workflow_node_jobs_run_id_node_id_key"), w)
  else if negb (exists_row (λ r, bool_decide (rid r = run_id j)) (runs w))
  then (Raise (IntegrityError "workflow_node_jobs_run_id_fkey"), w)
  else if negb (String.eqb (queue j) "gpu") && is_not_null (required_model j)
  then (Raise (IntegrityError "workflow_node_jobs_check"), w)
  else (Ok (), on_jobs (λ t, t ++ [j]) w).

(** [str(uuid.uuid4())] *)
Definition fresh_uuid : M string := λ w, (Ok (uuid4 (uuids w)), set_uuids (S (uuids w)) w).

(** The columns an INSERT does not name take their defaults. *)
Definition new_state (s : node_status) (prio : Z) (finished : option Z) : job_state :=
  mkState s prio false None None finished None None None None 0 None [] None None None
          None None None None.

Section enqueue.
Context `{PyEnv} `{QueueConfig}.

(** The entries of [required_models] that name a model, and those names. *)
Definition model_of_entry (e : json) : option string :=
  match e with
  | JObj fs =>
      let m := default JNull (dict_get "model" fs) in
      let s := PyStr.strip (if truthy m then py_str m else "") in
      if PyStr.truthy s then Some s else None
  | _ => None
  end.
Definition models_of (l : option (list json)) : option (list json) :=
  match List.filter (λ e, is_not_null (model_of_entry e)) (default [] l) with
  | [] => None
  | l' => Some l'
  end.

(** The validations before the INSERT, in the order of the source; the
    result is the stored [cpu_slots], [context_length] and [gpu_slots]. *)
Definition enqueue_checks (a : enqueue_args) :
    result (option Z * option Z * option string) :=
  let q := a_queue a in
  if negb (bool_decide (q ∈ ["cpu"; "gpu"; "download"])) then
    Raise (ValueError "queue must be 'cpu', 'gpu' or 'download'")
  else if negb (String.eqb q "gpu") && from_option PyStr.truthy false (a_required_model a) then
    Raise (ValueError "node-job must not set required_model")
  else
    ctx ← validate_context_length (a_context_length a);
    if negb (String.eqb q "gpu") && is_not_null ctx then
      Raise (ValueError "node-job must not set context_length")
    else if from_option (λ n, n <? 1) false (a_cpu_slots a) then
      Raise (ValueError "cpu_slots must be >= 1")
    else
      let slots := match a_cpu_slots a with
                   | Some n => if 1 <? n then Some n else None
                   | None => None
                   end in
      gslots ← normalise_gpu_slots (a_gpu_slots a);
      if negb (String.eqb q "gpu") && is_not_null gslots then
        Raise (ValueError "node-job must not set gpu_slots")
      else Ok (slots, ctx, gslots).

(** The row the INSERT writes. *)
Definition enqueue_row (a : enqueue_args) (row_id : string) (now : Z)
    (checked : option Z * option Z * option string) : node_job :=
  let '(slots, ctx, gslots) := checked in
  let models := models_of (a_required_models a) in
  let model_ids := omap model_of_entry <$> models in
  let required_model :=
    match a_required_model a with
    | Some m => if PyStr.truthy m then Some m
                else match model_ids with Some ids => head ids | None => Some m end
    | None => model_ids ≫= head
    end in
  mkJob
    (mkSpec row_id (a_run_id a) (a_pipeline_name a) (a_node_id a) (a_node_module a)
       (a_queue a) required_model (_project (a_project a)) (a_inputs a)
       (nonempty_strings (a_avoid_box a)) (nonempty_strings (a_force_box a))
       (nonempty_strings (a_server_types a)) slots (strip_or_none (a_dedup_key a))
       models model_ids ctx gslots now)
    (new_state Queued (a_priority a) None).

Definition enqueue_node_job (a : enqueue_args) : M string :=
  checked ← lift (enqueue_checks a);
  row_id ← fresh_uuid;
  now ← gets clock;
  _ ← insert_node_job (enqueue_row a row_id now checked);
  mret row_id.

(** [insert_skipped_job]: a bookkeeping row that is terminal from the start *)
Definition skipped_row (run node : string) (pipeline proj : option string)
    (row_id : string) (now : Z) : node_job :=
  mkJob
    (mkSpec row_id run pipeline node "" "cpu" None (_project proj) [] None None None
       None None None None None None now)
    (new_state Skipped 100 (Some now)).

Definition insert_skipped_job (run node : string) (pipeline proj : option string) : M string :=
  row_id ← fresh_uuid;
  now ← gets clock;
  _ ← insert_node_job (skipped_row run node pipeline proj row_id now);
  mret row_id.
End enqueue.

(** ** Reads *)

Definition get_node_job (job_id : string) : M (option node_job) :=
  gets (λ w, List.find (λ j, bool_decide (job_key j = job_id)) (node_jobs w)).

(** [ORDER BY created_at ASC] *)
Definition jobs_of_run (w : world) (run : string) : list node_job :=
  sort_by (λ j : node_job, [created_at j])
    (List.filter (λ j : node_job, bool_decide (run_id j = run)) (node_jobs w)).
Definition list_jobs_for_run (run : string) : M (list node_job) :=
  gets (λ w, jobs_of_run w run).

(** ** Updates of one row by id

    [UPDATE workflow_node_jobs SET .. WHERE id = %s AND guard RETURNING *]: the
    updated row, or None when the guard refused it. *)

Definition is_job (job_id : string) (guard : job_state → bool) (j : node_job) : bool :=
  bool_decide (job_key j = job_id) && guard (st j).

Definition update_job (job_id : string) (guard : job_state → bool)
    (f : Z → job_state → job_state) : M (option node_job) := λ w,
  let p := is_job job_id guard in
  (Ok (head (returning p (upd (f (clock w))) (node_jobs w))),
   on_jobs (update_where p (upd (f (clock w)))) w).

(** [status NOT IN ('completed', 'failed', 'cancelled')] *)
Definition not_terminal (s : job_state) : bool :=
  negb (bool_decide (status s ∈ [Completed; Failed; Cancelled])).
Definition has_status (x : node_status) (s : job_state) : bool := bool_decide (status s = x).

Definition prioritize_node_job (job_id : string) : M (option node_job) :=
  update_job job_id (has_status Queued) (λ _ s, set_is_priority true s).

(** The host a finished row is attributed to: COALESCE(host_label, claimed_by) *)
Definition stamp_host (s : job_state) : job_state :=
  set_host_label (coalesce (host_label s) (claimed_by s)) s.

(** The SET clauses of the terminal marks. *)
Definition completed_set (delta : dict) (secs : Z) (rss : option Z) (now : Z) (s : job_state) :
    job_state :=
  stamp_host s |> set_status Completed |> set_finished_at (Some now)
  |> set_context_delta delta |> set_seconds (Some secs) |> set_vm_rss_mb_peak rss.

Definition mark_completed_in_txn (job_id : string) (delta : dict) (secs : Z)
    (rss : option Z) : M (option node_job) :=
  update_job job_id not_terminal (completed_set delta secs rss).

Definition mark_completed (job_id : string) (delta : dict) (secs : Z) (rss : option Z) :
    M (option node_job) := mark_completed_in_txn job_id delta secs rss.

(** [error[:8000]] *)
Definition clip_error (e : string) : string := PyStr.take 8000 e.

Definition failed_set (err : string) (secs : option Z) (now : Z) (s : job_state) : job_state :=
  stamp_host s |> set_status Failed |> set_finished_at (Some now)
  |> set_error (Some (clip_error err)) |> set_seconds secs.

Definition mark_failed_in_txn (job_id err : string) (secs : option Z) : M (option node_job) :=
  update_job job_id not_terminal (failed_set err secs).

Definition mark_failed (job_id err : string) (secs : option Z) : M (option node_job) :=
  mark_failed_in_txn job_id err secs.

Definition mark_awaiting_input_in_txn (job_id : string) : M (option node_job) :=
  update_job job_id not_terminal (λ _ s, set_status AwaitingInput s).

Definition mark_awaiting_input (job_id : string) : M (option node_job) :=
  mark_awaiting_input_in_txn job_id.

(** The released row every requeue writes: no claim, no lease, and the front of
    its priority band. *)
Definition release (s : job_state) : job_state :=
  s |> set_status Queued |> set_started_at None |> set_claimed_by None
    |> set_lease_expires_at None |> set_priority (Z.min (priority s) 10).

Definition retry_set (_ : Z) (s : job_state) : job_state :=
  release s |> set_watchdog_retries (watchdog_retries s + 1).

Definition requeue_job_for_retry_in_txn (job_id : string) : M (option node_job) :=
  update_job job_id (has_status Running) retry_set.

Definition requeue_job_for_retry (job_id : string) : M (option node_job) :=
  requeue_job_for_retry_in_txn job_id.

Definition restamp_resolved_server (job_id server_type : string) : M () :=
  if negb (PyStr.truthy job_id) || negb (PyStr.truthy server_type) then mret ()
  else _ ← update_job job_id (has_status Running)
             (λ _ s, set_resolved_server (Some server_type) s);
       mret ().

Definition set_resolved_inputs (job_id : string) (ins : dict) : M () :=
  _ ← update_job job_id (λ _, true) (λ _ s, set_resolved_inputs (Some ins) s);
  mret ().

(** [set_input_spec]: only a parked input's spec is written *)
Definition set_input_spec (run node : string) (spec' : option dict) : M () :=
  modify (on_jobs (update_where
    (λ j, bool_decide (cell j = (run, node)) && has_status AwaitingInput (st j))
    (upd (Schema.set_input_spec spec')))).

(** ** Updates of a run's rows *)

Definition cancel_queued_jobs_for_run (run : string) : M Z := λ w,
  let p := λ j : node_job, bool_decide (run_id j = run) && has_status Queued (st j) in
  (Ok (Z.of_nat (count p (node_jobs w))),
   on_jobs (update_where p
     (upd (λ s, s |> set_status Cancelled |> set_finished_at (Some (clock w))))) w).

Definition cancel_siblings_after_failure (run : string) : M Z :=
  cancel_queued_jobs_for_run run.

(** [status NOT IN ('completed', 'skipped')] *)
Definition unsatisfied (s : job_state) : bool :=
  negb (bool_decide (status s ∈ [Completed; Skipped])).

Definition delete_non_terminal_jobs_for_run (run : string) : M (list string) := λ w,
  let p := λ j : node_job, bool_decide (run_id j = run) && unsatisfied (st j) in
  (Ok ((λ j : node_job, node_id j) <$> List.filter p (node_jobs w)),
   on_jobs (List.filter (λ j, negb (p j))) w).

Definition cancel_orphaned_queued_jobs `{QueueConfig} (proj : option string) : M Z := λ w,
  let p := λ j : node_job,
    bool_decide (project j = _project proj) && has_status Queued (st j) &&
    parent_run w (λ r, bool_decide (rstatus r ∈ [r_cancelled; r_failed])) j in
  (Ok (Z.of_nat (count p (node_jobs w))),
   on_jobs (update_where p
     (upd (λ s, s |> set_status Cancelled |> set_finished_at (Some (clock w))))) w).

(** ** The dispatch-event outbox *)

Definition on_events (f : list dispatch_event → list dispatch_event) (w : world) : world :=
  set_dispatch_events (f (dispatch_events w)) w.

Definition enqueue_dispatch_event_in_txn (run node : string) (k : event_kind) : M Z := λ w,
  let i := event_seq w + 1 in
  (Ok i, w |> on_events (λ t, t ++ [mkEvent i run node k None None 0 (clock w)])
           |> set_event_seq i).

(** [WHERE processed_at IS NULL ORDER BY created_at ASC LIMIT n] *)
Definition unprocessed (e : dispatch_event) : bool := is_null (processed_at e).
Definition list_unprocessed_dispatch_events (limit : nat) : M (list dispatch_event) :=
  gets (λ w, take limit (sort_by (λ e, [ecreated_at e])
                           (List.filter unprocessed (dispatch_events w)))).

Definition update_event (i : Z) (f : Z → dispatch_event → dispatch_event) : M () :=
  λ w, (Ok (), on_events (update_where (λ e, eid e =? i) (f (clock w))) w).

Definition mark_dispatch_event_processed (i : Z) : M () :=
  update_event i (λ now e, set_processed_at (Some now) e).

Definition record_dispatch_event_failure (i : Z) (err : string) : M () :=
  update_event i (λ _ e, e |> set_attempts (attempts e + 1)
                           |> set_eerror (Some (clip_error err))).

Definition count_unprocessed_dispatch_events : M Z :=
  gets (λ w, Z.of_nat (count unprocessed (dispatch_events w))).

(** ** The node-event log *)

Definition NODE_EVENT_TYPES : list string :=
  ["claimed"; "model_load_start"; "model_load_done"; "progress_beat"; "stall_suspected";
   "stall_trip"; "gpu_health_trip"; "budget_trip"; "unassignable"; "requeued";
   "reassigned"; "lease_renew"; "completed"; "failed"; "cancelled"; "error"].

(** [record_node_event_in_txn]: a bad type raises before the write; the event's
    run must exist (the foreign key). *)
Definition record_node_event_in_txn (e : node_event) : M () := λ w,
  if negb (bool_decide (event_type e ∈ NODE_EVENT_TYPES))
  then (Raise (ValueError "unknown node event_type"), w)
  else if negb (exists_row (λ r, bool_decide (rid r = nrun_id e)) (runs w))
  then (Raise (IntegrityError "workflow_node_events_run_id_fkey"), w)
  else (Ok (), set_node_events (node_events w ++ [e]) w).

(** [record_node_event]: best-effort, every exception swallowed *)
Definition record_node_event (e : node_event) : M () :=
  try_except (record_node_event_in_txn e) (λ _, Some (mret ())).

Definition prune_node_events (older_than_days : Z) : M Z := λ w,
  let days := Z.max older_than_days 1 in
  let p := λ e, ncreated_at e <? clock w - seconds_us (days * 86400) in
  (Ok (Z.of_nat (count p (node_events w))),
   set_node_events (List.filter (λ e, negb (p e)) (node_events w)) w).

(** [find_completed_duplicate]: the most recently finished completed row of the
    tenant with this key, other than the caller's own
    ([ORDER BY finished_at DESC], where PostgreSQL sorts a NULL first). *)
Definition find_completed_duplicate `{QueueConfig} (key : option string)
    (proj exclude_id : option string) : M (option node_job) :=
  match strip_or_none key with
  | None => mret None
  | Some k => gets (λ w,
      first_by (λ j : node_job, match finished_at j with
                                | None => [0; 0]
                                | Some t => [1; - t]
                                end)
        (List.filter (λ j : node_job,
           bool_decide (dedup_key j = Some k) && bool_decide (project j = _project proj) &&
           has_status Completed (st j) &&
           match exclude_id with
           | Some x => if PyStr.truthy x then negb (bool_decide (job_key j = x)) else true
           | None => true
           end) (node_jobs w)))
  end.

(** * Lemmas *)

Section update_lemmas.
Implicit Types (w : world) (j : node_job) (g : job_state → bool).

(** An update whose guard no row meets changes nothing and returns None. *)
Lemma update_job_miss i g f w :
  (∀ j, j ∈ node_jobs w → is_job i g j = false) →
  update_job i g f w = (Ok None, w).
Proof.
  intros Hm. unfold update_job, returning. rewrite Lfilter_none by done. simpl.
  f_equal. destruct w; unfold on_jobs; simpl in *. f_equal.
  by apply update_where_none.
Qed.

(** An update that meets its row returns it, updated. *)
Lemma update_job_hit i g f w j :
  db_ok w → j ∈ node_jobs w → job_key j = i → g (st j) = true →
  update_job i g f w =
    (Ok (Some (upd (f (clock w)) j)),
     on_jobs (update_where (is_job i g) (upd (f (clock w)))) w).
Proof.
  intros Hok Hj Hi Hg. unfold update_job. do 2 f_equal.
  assert (∀ j', j' ∈ List.filter (is_job i g) (node_jobs w) → j' = j) as Hall.
  { intros j' [Hin Hp]%elem_of_Lfilter. unfold is_job in Hp. split_bool.
    apply (job_by_id_unique w); [done..|]. unfold job_key in *. congruence. }
  assert (j ∈ List.filter (is_job i g) (node_jobs w)) as Hin.
  { apply elem_of_Lfilter. split; [done|]. unfold is_job.
    rewrite bool_decide_eq_true_2 by done. by rewrite Hg. }
  unfold returning. destruct (List.filter _ _) as [|x r] eqn:E; [set_solver|].
  simpl. f_equal. f_equal. apply Hall. set_solver.
Qed.

(** Either way the rows of other ids are untouched. *)
Lemma update_job_frame i g f w j :
  j ∈ node_jobs w → job_key j ≠ i → j ∈ node_jobs (update_job i g f w).2.
Proof.
  intros Hj Hi. simpl. rewrite node_jobs_on_jobs. apply elem_of_update_where.
  exists j. split; [done|]. unfold is_job. by rewrite bool_decide_eq_false_2.
Qed.

(** The rows an update leaves, each the old row or its update. *)
Lemma update_job_rows i g f w j' :
  j' ∈ node_jobs (update_job i g f w).2 →
  ∃ j, j ∈ node_jobs w ∧
    (j' = j ∧ is_job i g j = false ∨
     j' = upd (f (clock w)) j ∧ job_key j = i ∧ g (st j) = true).
Proof.
  simpl. rewrite node_jobs_on_jobs. intros (j & Hj & ->)%elem_of_update_where.
  exists j. split; [done|]. destruct (is_job i g j) eqn:E; [right|by left].
  unfold is_job in E. split_bool. done.
Qed.

Lemma update_job_db_ok i g f w : db_ok w → db_ok (update_job i g f w).2.
Proof. apply db_ok_update. Qed.

Lemma update_job_none_world i g f w :
  (update_job i g f w).1 = Ok None → (update_job i g f w).2 = w.
Proof.
  intros Hn. rewrite update_job_miss; [done|].
  intros j Hj. apply not_true_iff_false. intros Hp.
  unfold update_job, returning in Hn. simpl in Hn.
  assert (j ∈ List.filter (is_job i g) (node_jobs w)) as Hin by by apply elem_of_Lfilter.
  destruct (List.filter _ _); [set_solver|done].
Qed.
End update_lemmas.

#[export] Hint Resolve update_job_db_ok : engine.

(** ** The INSERT *)

Section insert_lemmas.
Implicit Types (w : world) (j : node_job).

Lemma insert_node_job_ok j w u w' :
  insert_node_job j w = (Ok u, w') →
  w' = on_jobs (λ t, t ++ [j]) w ∧ widths_ok j = true ∧
  (∀ x, x ∈ node_jobs w → job_key x ≠ job_key j ∧ cell x ≠ cell j) ∧
  (∃ r, r ∈ runs w ∧ rid r = run_id j) ∧
  (queue j = "gpu" ∨ required_model j = None).
Proof.
  unfold insert_node_job. destruct (widths_ok j) eqn:Hwd; simpl; [|done].
  destruct (exists_row (λ x, bool_decide (job_key x = job_key j)) _) eqn:E1; [done|].
  destruct (exists_row (λ x, bool_decide (cell x = cell j)) _) eqn:E2; [done|].
  destruct (exists_row (λ r, bool_decide (rid r = run_id j)) _) eqn:E3; simpl; [|done].
  destruct (negb (String.eqb (queue j) "gpu") && _) eqn:E4; [done|].
  intros [= <- <-]. rewrite exists_row_false in E1, E2. rewrite exists_row_true in E3.
  split_and!; [done..| | |].
  - intros x Hx. specialize (E1 x Hx). specialize (E2 x Hx). split_bool. done.
  - destruct E3 as (r & Hr & ?). split_bool. eauto.
  - apply andb_false_iff in E4 as [E4|E4].
    + left. apply negb_false_iff, String.eqb_eq in E4. done.
    + right. by destruct (required_model j).
Qed.

Lemma insert_node_job_raise j w e w' :
  insert_node_job j w = (Raise e, w') → w' = w.
Proof. unfold insert_node_job. repeat case_match; intros; simplify_eq; done. Qed.

Lemma uuids_on_jobs g w : uuids (on_jobs g w) = uuids w.
Proof. by destruct w. Qed.

(** A row under a fresh id keeps the schema constraints. *)
Lemma insert_db_ok j w u w' :
  db_ok w → (∀ n, uuids w ≤ n → job_key j ≠ uuid4 n)%nat →
  insert_node_job j w = (Ok u, w') → db_ok w'.
Proof.
  intros [H1 H2 H3 H4 H5 H6] Hf (-> & _ & Hne & Hr & Hm)%insert_node_job_ok.
  split; autorewrite with engine; rewrite ?uuids_on_jobs, ?map_app; simpl.
  - apply NoDup_app. split_and!; [done| |apply NoDup_singleton].
    intros x (y & -> & Hy)%list_elem_of_fmap Hx%list_elem_of_singleton.
    by destruct (Hne y).
  - apply NoDup_app. split_and!; [done| |apply NoDup_singleton].
    intros x (y & -> & Hy)%list_elem_of_fmap Hx%list_elem_of_singleton.
    by destruct (Hne y).
  - done.
  - intros x [Hx|Hx]%elem_of_app; [eauto|]. by apply list_elem_of_singleton in Hx as ->.
  - intros x [Hx|Hx]%elem_of_app; [eauto|]. by apply list_elem_of_singleton in Hx as ->.
  - intros n Hn [Hx|Hx%list_elem_of_singleton]%elem_of_app; [by eapply H6|].
    by apply (Hf n Hn).
Qed.

(** What changes when a row is drawn and inserted: the row, or on an exception
    nothing but the id supply. *)
Lemma insert_fresh_row (mk : string → Z → node_job) w res w' :
  db_ok w → (∀ i t, job_key (mk i t) = i) →
  (i ← fresh_uuid; now ← gets clock; _ ← insert_node_job (mk i now); mret (M := M) i) w
    = (res, w') →
  db_ok w' ∧ runs w' = runs w ∧ clock w' = clock w ∧ dispatch_events w' = dispatch_events w ∧
  node_jobs w' = node_jobs w ++
    (if is_ok res then [mk (uuid4 (uuids w)) (clock w)] else []).
Proof.
  intros Hok Hmk. unfold fresh_uuid, gets, mbind, M_bind, mret, M_ret.
  assert (db_ok (set_uuids (S (uuids w)) w)) as Hok1.
  { destruct Hok as [A1 A2 A3 A4 A5 A6]. destruct w; split; simpl in *; auto.
    intros n Hn. apply A6. lia. }
  assert (clock (set_uuids (S (uuids w)) w) = clock w) as -> by by destruct w.
  destruct (insert_node_job _ _) as [[u|e] w1] eqn:Hi; intros [= <- <-].
  - pose proof Hi as Hd. eapply insert_db_ok in Hd; [|done|].
    2: { intros n Hn E. rewrite Hmk in E. destruct w; simpl in *.
         apply (inj uuid4) in E. lia. }
    apply insert_node_job_ok in Hi as (-> & _). by destruct w.
  - apply insert_node_job_raise in Hi as ->. simpl. rewrite app_nil_r. by destruct w.
Qed.
End insert_lemmas.

(** * Properties *)

(** The shapes the columns of a stored row take, whatever the caller passed. *)
Definition gpu_slots_wf (o : option string) : Prop :=
  o = None ∨ o = Some "all" ∨ o = Some "half" ∨ ∃ n : Z, 2 ≤ n ∧ o = Some (pretty n).

Record stored_shape (j : node_job) : Prop := {
  ss_queue : queue j ∈ ["cpu"; "gpu"; "download"];
  ss_cpu : ∀ n, cpu_slots j = Some n → 2 ≤ n ≤ 32767;
  ss_gpu : gpu_slots_wf (gpu_slots j);
  ss_ctx : ∀ n, context_length j = Some n → 1 ≤ n ≤ 2147483647;
  ss_gpu_only : queue j ≠ "gpu" →
    required_model j = None ∧ context_length j = None ∧ gpu_slots j = None;
  ss_avoid : avoid_box j ≠ Some [];
  ss_force : force_box j ≠ Some [];
  ss_servers : server_types j ≠ Some [];
  ss_dedup : dedup_key j ≠ Some "";
}.

Lemma nonempty_strings_not_nil l : nonempty_strings l ≠ Some [].
Proof. unfold nonempty_strings. by destruct (List.filter _ _). Qed.

Lemma strip_or_none_not_empty k : strip_or_none k ≠ Some "".
Proof.
  unfold strip_or_none. destruct k as [s|]; [|done]. simpl.
  destruct (PyStr.strip s) eqn:E; done.
Qed.

Lemma gpu_slots_of_int_wf n o : gpu_slots_of_int n = Ok o → gpu_slots_wf o.
Proof.
  unfold gpu_slots_of_int. destruct (n <? 1) eqn:E1; [done|]. intros [= <-].
  destruct (n =? 1) eqn:E2; [by left|]. do 3 right. exists n. split; [lia|done].
Qed.

Lemma normalise_gpu_slots_wf v o : normalise_gpu_slots v = Ok o → gpu_slots_wf o.
Proof.
  destruct v; simpl; try done; [by intros [= <-]; left|eauto using gpu_slots_of_int_wf|].
  destruct (String.eqb_spec (PyStr.lower (PyStr.strip s)) "all") as [->|_]; simpl.
  { intros [= <-]. by right; left. }
  destruct (String.eqb_spec (PyStr.lower (PyStr.strip s)) "half") as [->|_]; simpl.
  { intros [= <-]. by right; right; left. }
  destruct (PyStr.isdigit _); simpl; [|done]. eauto using gpu_slots_of_int_wf.
Qed.

(** A stored [gpu_slots] text is a normal form: declaring it again stores the
    same text. *)
Lemma normalise_gpu_slots_roundtrip v s :
  normalise_gpu_slots v = Ok (Some s) → normalise_gpu_slots (JStr s) = Ok (Some s).
Proof.
  intros [H|[H|[H|(n & Hn & H)]]]%normalise_gpu_slots_wf; try done; injection H as ->; [done..|].
  destruct (pretty_pos_digits n) as [Hd Hi]; [lia|].
  assert (PyStr.all_digits (pretty n) = true) as Ha
    by (revert Hd; unfold PyStr.isdigit; by destruct (pretty n)).
  cbn -[pretty]. rewrite strip_digits, lower_digits by done.
  destruct (String.eqb_spec (pretty n) "all") as [E|_]; [by rewrite E in Hd|].
  destruct (String.eqb_spec (pretty n) "half") as [E|_]; [by rewrite E in Hd|].
  rewrite Hd, Hi. cbn -[pretty]. unfold gpu_slots_of_int.
  destruct (n <? 1) eqn:E1; [lia|]. destruct (n =? 1) eqn:E2; [lia|]. done.
Qed.

Lemma normalise_gpu_slots_roundtrip_witness :
  normalise_gpu_slots (JStr " 007 ") = Ok (Some "7") ∧
  normalise_gpu_slots (JStr "7") = Ok (Some "7").
Proof.
  split; [reflexivity|]. apply (normalise_gpu_slots_roundtrip (JStr " 007 ")). reflexivity.
Defined.

Section enqueue_props.
Context `{PyEnv} `{QueueConfig}.

Lemma enqueue_checks_shape a slots ctx gs :
  enqueue_checks a = Ok (slots, ctx, gs) →
  a_queue a ∈ ["cpu"; "gpu"; "download"] ∧
  (∀ n, slots = Some n → 2 ≤ n) ∧ gpu_slots_wf gs ∧ (∀ n, ctx = Some n → 1 ≤ n) ∧
  (a_queue a ≠ "gpu" → ctx = None ∧ gs = None).
Proof.
  unfold enqueue_checks. destruct (negb (bool_decide _)) eqn:E1; [done|].
  destruct (_ && from_option _ _ _) eqn:E2; [done|].
  unfold mbind, result_bind. destruct (validate_context_length _) as [c|] eqn:E3; [|done].
  destruct (negb (String.eqb _ _) && is_not_null c) eqn:E4; [done|].
  destruct (from_option _ _ (a_cpu_slots a)) eqn:E5; [done|].
  destruct (normalise_gpu_slots _) as [g|] eqn:E6; [|done].
  destruct (negb (String.eqb _ _) && is_not_null g) eqn:E7; [done|].
  intros [= <- <- <-]. apply negb_false_iff, bool_decide_eq_true in E1.
  split_and!; [done| | | |].
  - intros n. destruct (a_cpu_slots a) as [m|]; [|done].
    destruct (1 <? m) eqn:E; [|done]. intros [= <-]. lia.
  - eauto using normalise_gpu_slots_wf.
  - intros n ->. destruct (a_context_length a); try done. simpl in E3.
    destruct (z <? 1) eqn:E; [done|]. injection E3 as ->. lia.
  - intros Hq. apply String.eqb_neq in Hq. rewrite Hq in E4, E7. simpl in *.
    split; [by destruct c|by destruct g].
Qed.

(** An enqueue adds at most its own row, whatever it returns. *)
Lemma enqueue_frame a w res w' :
  db_ok w → enqueue_node_job a w = (res, w') →
  db_ok w' ∧ runs w' = runs w ∧ clock w' = clock w ∧ dispatch_events w' = dispatch_events w ∧
  ∃ js, node_jobs w' = node_jobs w ++ js ∧
    if is_ok res
    then ∃ j, js = [j] ∧ cell j = (a_run_id a, a_node_id a) ∧ status j = Queued ∧
           claim_shape (st j)
    else js = [].
Proof.
  intros Hok. unfold enqueue_node_job, lift.
  destruct (enqueue_checks a) as [c|e].
  - intros E. eapply (insert_fresh_row (λ i t, enqueue_row a i t c)) in E; [|done..|].
    2: { intros i t. by destruct c as [[? ?] ?]. }
    destruct E as (A & B & C & D & E). split_and!; [done..|]. eexists. split; [exact E|].
    destruct (is_ok res); [|done]. eexists. split; [done|].
    destruct c as [[? ?] ?]. split_and!; [done..|]. split; [done|]. by intros [=].
  - intros [= <- <-]. split_and!; [done..|]. exists []. by rewrite app_nil_r.
Qed.

Lemma insert_skipped_frame run node pipeline proj w res w' :
  db_ok w → insert_skipped_job run node pipeline proj w = (res, w') →
  db_ok w' ∧ runs w' = runs w ∧ clock w' = clock w ∧ dispatch_events w' = dispatch_events w ∧
  ∃ js, node_jobs w' = node_jobs w ++ js ∧
    if is_ok res
    then ∃ j, js = [j] ∧ cell j = (run, node) ∧ status j = Skipped ∧ claim_shape (st j)
    else js = [].
Proof.
  intros Hok E. eapply (insert_fresh_row (λ i t, skipped_row run node pipeline proj i t)) in E;
    [|done..].
  destruct E as (A & B & C & D & E). split_and!; [done..|]. eexists. split; [exact E|].
  destruct (is_ok res); [|done]. eexists. split; [done|]. split_and!; [done..|].
  split; by intros [=].
Qed.

(** What an enqueue that returns did. *)
Lemma enqueue_spec a w i w' :
  db_ok w → enqueue_node_job a w = (Ok i, w') →
  db_ok w' ∧ runs w' = runs w ∧
  ∃ j, node_jobs w' = node_jobs w ++ [j] ∧ job_key j = i ∧
    cell j = (a_run_id a, a_node_id a) ∧ status j = Queued ∧ claim_shape (st j) ∧
    stored_shape j.
Proof.
  intros Hok. unfold enqueue_node_job, lift, fresh_uuid, gets, mbind, M_bind.
  destruct (enqueue_checks a) as [[[slots ctx] gs]|] eqn:Hc; [|done].
  apply enqueue_checks_shape in Hc as (Hq & Hcpu & Hgpu & Hctx & Hgo).
  destruct (insert_node_job _ _) as [[u|] w1] eqn:Hi; [|done].
  unfold mret, M_ret. intros [= <- <-].
  assert (db_ok (set_uuids (S (uuids w)) w)) as Hok1.
  { destruct Hok as [A1 A2 A3 A4 A5 A6]. destruct w; split; simpl in *; auto.
    intros n Hn. apply A6. lia. }
  pose proof Hi as Hd. eapply insert_db_ok in Hd; [|done|].
  2: { intros n Hn E. destruct w; simpl in *. apply (inj uuid4) in E. lia. }
  apply insert_node_job_ok in Hi as (-> & Hw & _ & _ & Hm).
  split_and!; [done|by destruct w|]. eexists. split; [by destruct w|]. split; [by destruct w|].
  unfold widths_ok in Hw. simpl in *. split_bool.
  split_and!; [done..| |].
  - split; [done|]. by intros [=].
  - split; simpl; auto using nonempty_strings_not_nil, strip_or_none_not_empty.
    + intros n ->. split; [auto|]. unfold in_smallint in *. simpl in *. split_bool. lia.
    + intros n ->. split; [auto|]. unfold in_integer in *. simpl in *. split_bool. lia.
    + intros Hne. destruct (Hgo Hne) as [-> ->]. naive_solver.
Qed.
(** [enqueue_node_job], when it returns, appends exactly one row: a fresh
    id, status queued, unclaimed, in the shapes above; no other row and no run
    changes and the schema constraints still hold. *)
Lemma enqueue_appends_one_queued_row a w i w' :
  db_ok w → enqueue_node_job a w = (Ok i, w') →
  db_ok w' ∧ runs w' = runs w ∧
  ∃ j, node_jobs w' = node_jobs w ++ [j] ∧ job_key j = i ∧
    cell j = (a_run_id a, a_node_id a) ∧ status j = Queued ∧ claim_shape (st j) ∧
    stored_shape j.
Proof. apply enqueue_spec. Qed.
End enqueue_props.

(** A small database to evaluate the operations on: one running run and the
    plainest Python environment. *)
Module Demo.
Definition py : PyEnv := {|
  py_getattr _ _ := None;
  py_str_other _ := "";
  py_repr _ := "";
  re_search p s := Ok (PyStr.contains p s);
|}.
Definition cfg : QueueConfig := {|
  config_project := "";
  config_ingest_queues := ["fetch"; "load"];
  config_ingest_tasks := ["run_fetch"];
  config_stale_worker_after_s := 30;
|}.
Definition run1 : run :=
  mkRun "r1" "wf" r_running 100 "node" [] None "" 0 (Some 0) None None None 0.
Definition empty_world : world := mkWorld [run1] [] [] [] [] [] [] 1000 0 0.
(** The arguments of a plain enqueue. *)
Definition args (node q : string) : enqueue_args :=
  mkArgs "r1" node "mod" q None None [] 100 None None None None None None None JNull JNull.
(** The database after enqueueing a list of jobs. *)
Definition after (l : list enqueue_args) : world :=
  foldl (λ w a, (@enqueue_node_job py cfg a w).2) empty_world l.

(** The first row of a table of jobs. *)
Definition blank : node_job :=
  skipped_row (H0 := cfg) "" "" None None "" 0.
Definition first (w : world) : node_job := default blank (head (node_jobs w)).
Definition one : world := after [args "a" "cpu"].
Definition finished : world := (mark_completed (uuid4 0) [("x", JInt 1)] 5 None one).2.
Definition skipped : world :=
  (@insert_skipped_job cfg "r1" "a" None None empty_world).2.

Lemma empty_ok : db_ok empty_world.
Proof.
  split; simpl; try apply NoDup_nil_2; try set_solver. apply NoDup_singleton.
Qed.

(** What an enqueue that returns leaves is a well-formed database again. *)
Lemma enqueue_ok a w :
  db_ok w → is_ok (@enqueue_node_job py cfg a w).1 = true →
  db_ok (@enqueue_node_job py cfg a w).2.
Proof.
  intros Hok. destruct (@enqueue_node_job py cfg a w) as [[i|] w'] eqn:E; [|done].
  intros _. apply enqueue_spec in E; [|done]. apply E.
Qed.

Lemma one_ok : db_ok one.
Proof. apply (enqueue_ok (args "a" "cpu")); [apply empty_ok|reflexivity]. Qed.

Lemma finished_ok : db_ok finished.
Proof. apply update_job_db_ok, one_ok. Qed.

Lemma skipped_ok : db_ok skipped.
Proof.
  split; simpl; try apply NoDup_singleton.
  - intros j ->%list_elem_of_singleton. exists run1. split; [left|done].
  - intros j ->%list_elem_of_singleton. by right.
  - intros n Hn Hin%list_elem_of_singleton. apply (inj uuid4) in Hin. lia.
Qed.
End Demo.

Lemma enqueue_appends_one_queued_row_witness :
  ∃ i w', @enqueue_node_job Demo.py Demo.cfg (Demo.args "a" "gpu") Demo.empty_world = (Ok i, w') ∧
    db_ok w' ∧ length (node_jobs w') = 1%nat.
Proof.
  eexists _, _. split; [reflexivity|].
  edestruct (@enqueue_appends_one_queued_row Demo.py Demo.cfg (Demo.args "a" "gpu")
    Demo.empty_world) as (Hok & _ & _); [exact Demo.empty_ok|reflexivity|].
  split; [exact Hok|reflexivity].
Defined.

Section error_props.
Context `{PyEnv} `{QueueConfig}.

(** An enqueue that raises, at a validation or at the INSERT, leaves every
    table as it was. *)
Lemma enqueue_raise_writes_nothing a w e w' :
  enqueue_node_job a w = (Raise e, w') →
  node_jobs w' = node_jobs w ∧ runs w' = runs w ∧ dispatch_events w' = dispatch_events w.
Proof.
  unfold enqueue_node_job, lift, fresh_uuid, gets, mbind, M_bind.
  destruct (enqueue_checks a) as [c|]; [|intros [= <- <-]; by destruct w].
  destruct (insert_node_job _ _) as [[u|] w1] eqn:Hi; [done|].
  intros [= <- <-]. apply insert_node_job_raise in Hi as ->. by destruct w.
Qed.

(** The model array escapes the "only gpu rows carry a model" validation: a
    cpu enqueue that names a model in [required_models] passes every check
    that raises [ValueError] before the write, and whatever the database
    holds it is never stored: the INSERT itself is refused. *)
Lemma stray_model_array_is_refused_only_by_the_insert a m ids :
  a_queue a = "cpu" → a_required_model a = None → a_context_length a = JNull →
  a_gpu_slots a = JNull → a_cpu_slots a = None →
  models_of (a_required_models a) = Some (m :: ids) →
  enqueue_checks a = Ok (None, None, None) ∧
  ∀ w, ∃ e, (enqueue_node_job a w).1 = Raise e ∧ ∀ s, e ≠ ValueError s.
Proof.
  intros Hq Hm Hc Hg Hs Hids.
  assert (enqueue_checks a = Ok (None, None, None)) as E.
  { unfold enqueue_checks. by rewrite Hq, Hm, Hc, Hg, Hs. }
  split; [done|]. intros w.
  assert (∃ x, required_model (enqueue_row a (uuid4 (uuids w)) (clock w) (None, None, None))
            = Some x) as [x Hx].
  { unfold enqueue_row. simpl. rewrite Hm, Hids. simpl.
    assert (m ∈ List.filter (λ e, is_not_null (model_of_entry e))
                  (default [] (a_required_models a))) as [_ Hin]%elem_of_Lfilter.
    { unfold models_of in Hids. destruct (List.filter _ _); simplify_eq. set_solver. }
    destruct (model_of_entry m) as [y|]; [|done]. exists y. done. }
  unfold enqueue_node_job, lift, fresh_uuid, gets, mbind, M_bind. rewrite E.
  replace (clock (set_uuids (S (uuids w)) w)) with (clock w) by by destruct w.
  destruct (insert_node_job _ _) as [[u|e] w1] eqn:Hi; simpl.
  - apply insert_node_job_ok in Hi as (_ & _ & _ & _ & [Hgpu|Hnone]).
    + simpl in Hgpu. congruence.
    + congruence.
  - exists e. split; [done|]. intros s ->. revert Hi.
    unfold insert_node_job. repeat case_match; intros; simplify_eq.
Qed.
End error_props.

Lemma enqueue_raise_writes_nothing_witness :
  (@enqueue_node_job Demo.py Demo.cfg (Demo.args "a" "tpu") Demo.empty_world).1
    = Raise (ValueError "queue must be 'cpu', 'gpu' or 'download'") ∧
  node_jobs (@enqueue_node_job Demo.py Demo.cfg (Demo.args "a" "tpu") Demo.empty_world).2 = [].
Proof.
  split; [reflexivity|].
  eapply (@enqueue_raise_writes_nothing Demo.py Demo.cfg (Demo.args "a" "tpu") Demo.empty_world).
  reflexivity.
Defined.

(** A cpu node whose definition lists one acceptable model. *)
Definition stray_args : enqueue_args :=
  mkArgs "r1" "a" "mod" "cpu" None (Some [JObj [("model", JStr "m")]]) [] 100
         None None None None None None None JNull JNull.

Lemma stray_model_array_is_refused_only_by_the_insert_witness :
  @enqueue_checks stray_args = Ok (None, None, None) ∧
  ∃ e, (@enqueue_node_job Demo.py Demo.cfg stray_args Demo.empty_world).1 = Raise e ∧
    ∀ s, e ≠ ValueError s.
Proof.
  destruct (@stray_model_array_is_refused_only_by_the_insert Demo.py Demo.cfg stray_args
    (JObj [("model", JStr "m")]) []) as [Hc Hr]; try reflexivity.
  split; [exact Hc|]. exact (Hr Demo.empty_world).
Defined.

(** ** Transitions of one row *)

(** The statuses a finished row keeps. *)
Definition terminal (s : node_status) : Prop := s ∈ [Completed; Failed; Cancelled].

Section transition_props.
Implicit Types (w : world) (j : node_job).

Lemma terminal_refused i g f w j :
  db_ok w → j ∈ node_jobs w → terminal (status j) → job_key j = i →
  (∀ s, terminal (status s) → g s = false) →
  update_job i g f w = (Ok None, w).
Proof.
  intros Hok Hj Ht Hi Hg. apply update_job_miss. intros j' Hj'. unfold is_job.
  destruct (bool_decide (job_key j' = i)) eqn:E; [|done]. split_bool.
  assert (j' = j) as -> by (apply (job_by_id_unique w); unfold job_key in *; congruence).
  simpl. auto.
Qed.

Lemma not_terminal_false s : terminal (status s) → not_terminal s = false.
Proof.
  intros Ht. unfold not_terminal. by rewrite bool_decide_eq_true_2.
Qed.

Lemma has_status_terminal x s :
  x ∉ [Completed; Failed; Cancelled] → terminal (status s) → has_status x s = false.
Proof.
  intros Hx Ht. unfold has_status. apply bool_decide_eq_false_2. intros E.
  unfold terminal in Ht. by rewrite E in Ht.
Qed.

(** C40: finished rows are final.  Once a row is completed, failed or cancelled,
    every later mark, retry, "run next" flag and server re-stamp of it returns
    None and changes nothing: the first terminal writer wins. *)
Theorem terminal_rows_are_final w j :
  db_ok w → j ∈ node_jobs w → terminal (status j) →
  (∀ d s r, mark_completed (job_key j) d s r w = (Ok None, w)) ∧
  (∀ e s, mark_failed (job_key j) e s w = (Ok None, w)) ∧
  mark_awaiting_input (job_key j) w = (Ok None, w) ∧
  requeue_job_for_retry (job_key j) w = (Ok None, w) ∧
  prioritize_node_job (job_key j) w = (Ok None, w) ∧
  (∀ k, restamp_resolved_server (job_key j) k w = (Ok (), w)).
Proof.
  intros Hok Hj Ht. split_and!; intros;
    try (eapply terminal_refused; eauto using not_terminal_false; fail).
  1-2: eapply terminal_refused; [done..|]; intros; apply has_status_terminal; [set_solver|done].
  unfold restamp_resolved_server. case_match; [done|].
  unfold mbind, M_bind. erewrite terminal_refused; [done..|].
  intros; apply has_status_terminal; [set_solver|done].
Qed.

(** A skipped row, unlike the other finished ones, is not final: the
    terminal marks test only completed, failed and cancelled, so a mark by its
    id overwrites it. *)
Lemma skipped_row_can_be_overwritten w j e :
  db_ok w → j ∈ node_jobs w → status j = Skipped →
  ∃ j', (mark_failed (job_key j) e None w).1 = Ok (Some j') ∧ status j' = Failed ∧
    j' ∈ node_jobs (mark_failed (job_key j) e None w).2.
Proof.
  intros Hok Hj Hs. unfold mark_failed, mark_failed_in_txn.
  erewrite update_job_hit; [|done..|]; cycle 1.
  { unfold not_terminal. by rewrite Hs. }
  eexists. split; [done|]. split; [by destruct j as [? []]|].
  simpl. autorewrite with engine. apply elem_of_update_where. exists j.
  split; [done|]. unfold is_job, not_terminal.
  rewrite bool_decide_eq_true_2 by done. by rewrite Hs.
Qed.
End transition_props.

Lemma terminal_rows_are_final_witness :
  mark_failed (uuid4 0) "too late" None Demo.finished = (Ok None, Demo.finished).
Proof.
  apply (terminal_rows_are_final Demo.finished (Demo.first Demo.finished)).
  - exact Demo.finished_ok.
  - left.
  - left.
Defined.

Lemma skipped_row_can_be_overwritten_witness :
  ∃ j', (mark_failed (uuid4 0) "boom" None Demo.skipped).1 = Ok (Some j') ∧ status j' = Failed.
Proof.
  destruct (skipped_row_can_be_overwritten Demo.skipped (Demo.first Demo.skipped) "boom")
    as (j' & Hr & Hf & _).
  - exact Demo.skipped_ok.
  - left.
  - reflexivity.
  - exists j'. split; [exact Hr|exact Hf].
Defined.
