(* ===== verification/Claim.v ===== *)
(** * Claiming a node-job ([queue_workflows/node_queue.py])

    The SELECT .. FOR UPDATE SKIP LOCKED claims of the cpu, download and gpu
    lanes on PostgreSQL, the per-box and per-kind arbiters of the gpu claim, and
    the views that must agree with the claim about what is claimable.

    A claim is one statement on one snapshot.  [locked] is the set of rows other
    transactions hold a lock on, which SKIP LOCKED passes over. *)

From S2P Require Import Prelude.
From S2P Require Import Json.
From S2P Require Import PyText.
From S2P Require Import Refs.
From S2P Require Import Schema.
From S2P Require Import NodeQueue.
Local Open Scope string_scope.
Local Open Scope list_scope.
Local Open Scope Z_scope.
Local Open Scope sql_scope.

Definition INPROCESS_SERVER_KIND : string := "inprocess".
Definition _DEFAULT_SERVER_KIND : string := "ollama".
Definition CLUSTER_SERVER_KIND : string := "cluster".
Definition DEFAULT_LEASE_S : Z := 600.
Definition STALE_WORKER_AFTER_S : Z := 30.

(** [is_cluster_reservation] of a fetched row, its [server_types] decoded. *)
Definition is_cluster_reservation (j : node_job) : bool :=
  match server_types j with
  | None => false
  | Some kinds =>
      existsb (λ k, String.eqb (PyStr.lower (PyStr.strip k)) CLUSTER_SERVER_KIND) kinds
  end.

(** [_host_dir]: only an overflow host walks the band newest-first. *)
Definition _host_dir (host_priority : Z) : Z := if host_priority <? 0 then -1 else 1.

(** [x or None] for an optional string. *)
Definition or_none (x : option string) : option string :=
  match x with Some s => if PyStr.truthy s then Some s else None | None => None end.

(** [_RUN_CLAIMABLE_GUARD]: [status NOT IN ('cancelled', 'failed')]. *)
Definition run_claimable (r : run) : bool :=
  negb (bool_decide (rstatus r ∈ [r_cancelled; r_failed])).

(** [_placement_terms]: the box placement of a row, for the claiming box. *)
Definition _placement_terms (box : option string) (j : node_job) : tri :=
  (Some (is_null (avoid_box j)) ∨₃ ¬₃ any_eq box (avoid_box j)) ∧₃
  (Some (is_null (force_box j)) ∨₃ any_eq box (force_box j)).

(** ** The claim statement *)

Record claimant := mkClaimant {
  c_lane : Z;
  c_host : option string;
  c_lease_s : Z;
  c_queue : string;
  c_project : string;
  c_host_dir : Z;
  c_box : option string;
}.

(** The WHERE terms every claim has. *)
Definition base_terms (w : world) (c : claimant) (j : node_job) : bool :=
  String.eqb (queue j) (c_queue c) && has_status Queued (st j) &&
  String.eqb (project j) (c_project c) && parent_run w run_claimable j &&
  holds (_placement_terms (c_box c) j).

(** The rows the subselect may pick. *)
Definition candidates (w : world) (c : claimant) (locked : list string)
    (capability : node_job → bool) : list node_job :=
  List.filter (λ j, base_terms w c j && capability j &&
                    negb (bool_decide (job_key j ∈ locked))) (node_jobs w).

(** The SET clause of [_CLAIM_SQL]. *)
Definition claim_set (c : claimant) (server model : option string) (now : Z)
    (s : job_state) : job_state :=
  s |> set_status Running |> set_started_at (Some now) |> set_worker_lane (Some (c_lane c))
    |> set_claimed_by (c_host c) |> set_resolved_server server |> set_resolved_model model
    |> set_lease_expires_at (Some (now + seconds_us (c_lease_s c))).

(** [_CLAIM_SQL]: pick by the order, flip, stamp, return the row. *)
Definition claim_sql (c : claimant) (locked : list string) (capability : node_job → bool)
    (order : node_job → list Z) (stamp model_stamp : node_job → option string) :
    M (option node_job) := λ w,
  match first_by order (candidates w c locked capability) with
  | None => (Ok None, w)
  | Some j =>
      let f := claim_set c (stamp j) (model_stamp j) (clock w) in
      (Ok (Some (upd f j)),
       on_jobs (update_where (λ x, bool_decide (job_key x = job_key j)) (upd f)) w)
  end.

(** [_host_dir_term]: the creation order, times the direction. *)
Definition _host_dir_term (c : claimant) (j : node_job) : Z := created_at j * c_host_dir c.

(** [is_priority DESC, priority ASC, creation] *)
Definition cpu_order (c : claimant) (j : node_job) : list Z :=
  [- b2z (is_priority j); priority j; _host_dir_term c j].

(** ** The cpu lane *)

(** The weight of a row in a lane of [lane_width] slots. *)
Definition cpu_weight (lane_width : Z) (j : node_job) : Z :=
  Z.min (Z.max (default 1 (cpu_slots j)) 1) lane_width.

(** The CPU-width fit test, absent for a serial worker. *)
Definition cpu_fits (lane_width free_slots : option Z) (j : node_job) : bool :=
  match lane_width, free_slots with
  | Some width, Some free => cpu_weight width j <=? free
  | _, _ => true
  end.

Definition mk_claimant `{QueueConfig} (lane : Z) (host : option string) (lease_s : Z)
    (q : string) (proj : option string) (host_priority : Z) (box : option string) : claimant :=
  mkClaimant lane host lease_s q (_project proj) (_host_dir host_priority) (or_none box).

Definition claim_next_cpu_job `{QueueConfig} (lane : Z) (host : option string) (lease_s : Z)
    (host_priority : Z) (proj box : option string) (lane_width free_slots : option Z)
    (locked : list string) : M (option node_job) :=
  let c := mk_claimant lane host lease_s "cpu" proj host_priority box in
  claim_sql c locked (cpu_fits lane_width free_slots) (cpu_order c) (λ _, None) (λ _, None).

(** ** The download lane *)

(** [resolve_download_max_concurrent]: the environment ([raw], with [int]'s
    verdict on it), then the configuration, then 1; never below 1. *)
Definition resolve_download_max_concurrent (raw : option string) (int_raw : option Z)
    (config_value : option Z) : Z :=
  let from_config := match config_value with Some v => Z.max 1 v | None => 1 end in
  match or_none raw, int_raw with
  | Some _, Some n => Z.max 1 n
  | _, _ => from_config
  end.

(** The running downloads of a tenant, on any host. *)
Definition download_running (proj : string) (j : node_job) : bool :=
  has_status Running (st j) && String.eqb (queue j) "download" && String.eqb (project j) proj.

(** THE LANE CAP: the count guard inside the statement. *)
Definition download_capability (w : world) (proj : string) (cap : Z) (_ : node_job) : bool :=
  Z.of_nat (count (download_running proj) (node_jobs w)) <? cap.

Definition claim_next_download_job `{QueueConfig} (lane : Z) (host : option string) (lease_s : Z)
    (host_priority : Z) (proj box : option string) (resolved_cap : Z)
    (max_concurrent : option Z) (locked : list string) : M (option node_job) := λ w,
  let cap := match max_concurrent with None => resolved_cap | Some n => Z.max 1 n end in
  let c := mk_claimant lane host lease_s "download" proj host_priority box in
  claim_sql c locked (download_capability w (c_project c) cap) (cpu_order c)
            (λ _, None) (λ _, None) w.

(** ** The gpu lane *)

(** The keyword arguments of [claim_next_gpu_job] beyond the claimant. *)
Record gpu_params := mkGpu {
  g_current_model : option string;
  g_known_models : list string;
  g_require_model : option bool;
  g_pool_modules : list string;
  g_max_running : option Z;
  g_served_types : list string;
  g_warm_servers : list string;
  g_warm_models : list string;
  g_kind_caps : option (list (string * Z));
  g_default_server : option string;
  g_serving_context : option Z;
  g_reservations_only : bool;
}.

(** [[m for m in l if m]] *)
Definition truthy_only (l : list string) : list string := List.filter PyStr.truthy l.

Section gpu_terms.
Context (g : gpu_params).
Let served := truthy_only (g_served_types g).
Let known := truthy_only (g_known_models g).
Let pool := truthy_only (g_pool_modules g).

Definition remote (j : node_job) : bool := is_not_null (server_types j).

(** The SERVER-PREFERENCE gate; a cluster reservation passes it. *)
Definition served_gate (j : node_job) : bool :=
  match served with
  | [] => true
  | _ => holds (Some (is_null (server_types j))
                ∨₃ arrays_overlap (server_types j) (Some served)
                ∨₃ arrays_overlap (server_types j) (Some [CLUSTER_SERVER_KIND]))
  end.

(** The capability gate, over the scalar model and the model array. *)
Definition known_gate (j : node_job) : bool :=
  match known with
  | [] => true
  | _ => holds (Some (is_null (required_model j))
                ∨₃ any_eq (required_model j) (Some known)
                ∨₃ (Some (is_not_null (required_model_ids j))
                    ∧₃ arrays_overlap (required_model_ids j) (Some known)))
  end.

(** The CONTEXT gate. *)
Definition context_gate (j : node_job) : bool :=
  match g_serving_context g with
  | None => is_null (context_length j)
  | Some n => holds (Some (is_null (context_length j)) ∨₃ t_le (context_length j) (Some n))
  end.

(** The lane split: inline ([Some true]), pool ([Some false]), any. *)
Definition lane_gate (j : node_job) : bool :=
  let in_pool := holds (any_eq (Some (node_module j)) (Some pool)) in
  match g_require_model g with
  | None => true
  | Some true =>
      match pool with
      | [] => negb (remote j) && is_not_null (required_model j)
      | _ => negb (remote j) && (is_not_null (required_model j) || negb in_pool)
      end
  | Some false =>
      match pool with
      | [] => is_null (required_model j) || remote j
      | _ => (is_null (required_model j) && in_pool) || remote j
      end
  end.

(** [_eligibility] *)
Definition _eligibility (j : node_job) : bool :=
  served_gate j && known_gate j && context_gate j && lane_gate j.

Definition reservations_term (j : node_job) : bool :=
  if g_reservations_only g
  then holds (Some (remote j) ∧₃ arrays_overlap (server_types j) (Some [CLUSTER_SERVER_KIND]))
  else true.

(** [_affinity_term] and [_warm_affinity_term] *)
Definition _affinity_term (j : node_job) : bool :=
  not_distinct (required_model j) (g_current_model g).
Definition _warm_affinity_term (j : node_job) : Z :=
  match server_types j with
  | None => 0
  | Some kinds =>
      (if overlap kinds (truthy_only (g_warm_servers g)) then 2 else 0) +
      (if holds (any_eq (required_model j) (Some (truthy_only (g_warm_models g))))
       then 1 else 0)
  end.
Definition gpu_order (c : claimant) (j : node_job) : list Z :=
  [- b2z (is_priority j); - b2z (_affinity_term j); - _warm_affinity_term j; priority j;
   _host_dir_term c j].

(** [_stamp]: the row's resolved serving kind, never NULL. *)
Definition _stamp (j : node_job) : string :=
  default (match required_model j with
           | Some _ => INPROCESS_SERVER_KIND
           | None => default _DEFAULT_SERVER_KIND (or_none (g_default_server g))
           end)
    (coalesce (match served with [] => None | _ => first_overlap (server_types j) served end)
              (array_first (server_types j))).

(** [_model_stamp]: which acceptable model this box will run. *)
Definition _model_stamp (j : node_job) : option string :=
  match known with
  | [] => required_model j
  | _ => coalesce (first_overlap (required_model_ids j) known) (required_model j)
  end.

(** The per-kind caps in force: the engine's default, or the caller's with
    the zero entries dropped. *)
Definition caps : list (string * Z) :=
  match g_kind_caps g with
  | None => [("vllm", match g_max_running g with Some n => Z.max 1 n | None => 1 end)]
  | Some l => List.filter (λ kv, negb (kv.2 =? 0)) l
  end.
Definition cap_of (k : string) : Z := default 1 (dict_get k caps).
End gpu_terms.

(** [CAST(gpu_slots AS INTEGER)] of the digits a declaration stores: an error
    beyond 32 bits. *)
Definition gpu_cast (s : string) : option Z :=
  if PyStr.isdigit s && in_integer (PyStr.int_of_digits s)
  then Some (PyStr.int_of_digits s) else None.

(** [_gpu_weight]: the slots of a budget a row takes; None is the cast error. *)
Definition _gpu_weight (budget : Z) (j : node_job) : option Z :=
  match gpu_slots j with
  | None => Some 1
  | Some s =>
      if String.eqb s "all" then Some budget
      else if String.eqb s "half" then Some (Z.quot (budget + 1) 2)
      else (λ n, Z.min (Z.max n 1) budget) <$> gpu_cast s
  end.
Definition weight (budget : Z) (j : node_job) : Z := default 0 (_gpu_weight budget j).

(** [_running_here]: the rows every arbiter counts over. *)
Definition running_here (c : claimant) (j : node_job) : bool :=
  has_status Running (st j) && String.eqb (queue j) (c_queue c) &&
  holds (t_eq (claimed_by j) (c_host c)) && String.eqb (project j) (c_project c).

(** THE BOX-SLOT ARBITER *)
Definition box_slot_gate (w : world) (c : claimant) (budget : Z) (j : node_job) : bool :=
  sum_of (weight budget) (List.filter (running_here c) (node_jobs w)) + weight budget j
    <=? budget.

(** THE RESERVATION of a run-next row wider than one slot *)
Definition run_next_wide (budget : Z) (j : node_job) : bool :=
  is_priority j && is_not_null (gpu_slots j) && (1 <? weight budget j).
Definition reservation_gate (w : world) (c : claimant) (g : gpu_params) (budget : Z)
    (j : node_job) : bool :=
  run_next_wide budget j ||
  negb (exists_row (λ q, base_terms w c q && _eligibility g q && run_next_wide budget q)
                   (node_jobs w)).

(** The per-kind width gate: a running row without a stamp counts against every
    kind. *)
Definition runs_kind (k : string) (j : node_job) : bool :=
  match resolved_server j with None => true | Some x => String.eqb x k end.
Definition kind_gate (w : world) (c : claimant) (g : gpu_params) (j : node_job) : bool :=
  Z.of_nat (count (λ r, running_here c r && runs_kind (_stamp g j) r) (node_jobs w))
    <? cap_of g (_stamp g j).

Definition host_truthy (c : claimant) : bool := is_not_null (or_none (c_host c)).
Definition law_on (c : claimant) (g : gpu_params) : bool :=
  negb (bool_decide (length (caps g) = 0%nat)) && host_truthy c.
(** The budget when the box-slot arbiter is on. *)
Definition budget_of (c : claimant) (g : gpu_params) : option Z :=
  if host_truthy c then g_max_running g else None.

Definition gpu_capability (w : world) (c : claimant) (g : gpu_params) (j : node_job) : bool :=
  _eligibility g j && reservations_term g j &&
  match budget_of c g with
  | Some b => box_slot_gate w c b j && reservation_gate w c g b j
  | None => true
  end &&
  (if law_on c g then kind_gate w c g j else true).

(** A weight the statement has to evaluate and cannot: the running rows here and
    the eligible queued rows. *)
Definition cast_error (w : world) (c : claimant) (g : gpu_params) : bool :=
  match budget_of c g with
  | None => false
  | Some b =>
      exists_row (λ j, (running_here c j || (base_terms w c j && _eligibility g j)) &&
                       is_null (_gpu_weight b j)) (node_jobs w)
  end.

Definition claim_next_gpu_job (c : claimant) (g : gpu_params) (locked : list string) :
    M (option node_job) := λ w,
  if cast_error w c g then (Raise (OtherError "integer out of range"), w)
  else claim_sql c locked (gpu_capability w c g) (gpu_order g c)
         (λ j, if law_on c g then Some (_stamp g j) else None) (_model_stamp g) w.

(** ** Views that must agree with the claim *)

(** [_pool_row_term] *)
Definition _pool_row_term (j : node_job) : bool :=
  is_null (required_model j) || is_not_null (server_types j).

(** [count_pending_for_server]; [box] is [Some b] when the caller passed one. *)
Definition count_pending_for_server `{QueueConfig} (model : option string) (server : string)
    (proj : option string) (any_model : bool) (box : option (option string)) : M Z :=
  gets (λ w, Z.of_nat (count (λ j : node_job,
    has_status Queued (st j) && String.eqb (project j) (_project proj) &&
    (any_model || not_distinct (required_model j) model) &&
    is_not_null (server_types j) &&
    holds (arrays_overlap (server_types j) (Some [server])) &&
    parent_run w run_claimable j &&
    match box with None => true | Some b => holds (_placement_terms (or_none b) j) end)
    (node_jobs w))).

(** [cluster_reservation_for] *)
Definition cluster_reservation_for `{QueueConfig} (host box : option string) (q : string)
    (proj : option string) : M (option node_job) :=
  gets (λ w, first_by (λ j : node_job, [if has_status Queued (st j) then 0 else 1; created_at j])
    (List.filter (λ j : node_job,
       String.eqb (queue j) q && String.eqb (project j) (_project proj) &&
       is_not_null (server_types j) &&
       holds (arrays_overlap (server_types j) (Some [CLUSTER_SERVER_KIND])) &&
       parent_run w run_claimable j &&
       ((has_status Queued (st j) && holds (_placement_terms (or_none box) j)) ||
        (has_status Running (st j) && holds (t_eq (claimed_by j) host)))) (node_jobs w))).

(** [vlm_pool_should_defer] *)
Definition fresh_gpu (now stale_s : Z) (proj : string) (h : heartbeat) : bool :=
  String.eqb (hqueue h) "gpu" && String.eqb (hproject h) proj &&
  (now - seconds_us stale_s <? last_seen h).

Definition ranked_above (host_label : string) (par : Z) (h : heartbeat) : bool :=
  (par <? concurrency h) || ((concurrency h =? par) && String.ltb (hhost_label h) host_label).

Definition running_pool (proj : string) (h : heartbeat) (j : node_job) : bool :=
  String.eqb (queue j) "gpu" && has_status Running (st j) && _pool_row_term j &&
  String.eqb (project j) proj && bool_decide (claimed_by j = Some (hhost_label h)).

Definition higher_peer_free (w : world) (host_label : string) (par stale_s : Z)
    (proj : string) : bool :=
  exists_row (λ h, fresh_gpu (clock w) stale_s proj h && ranked_above host_label par h &&
    (Z.of_nat (count (running_pool proj h) (node_jobs w)) <? concurrency h)) (heartbeats w).

Definition starving (w : world) (starve_s : Z) (proj : string) (box : option string)
    (j : node_job) : bool :=
  String.eqb (queue j) "gpu" && has_status Queued (st j) && _pool_row_term j &&
  String.eqb (project j) proj && parent_run w run_claimable j &&
  holds (_placement_terms (or_none box) j) &&
  ((created_at j <? clock w - seconds_us starve_s) || is_priority j).

Definition vlm_pool_should_defer `{QueueConfig} (host_label : string) (par stale_s max_defer_age_s : Z)
    (proj box : option string) : M bool :=
  gets (λ w, higher_peer_free w host_label par (Z.max 1 stale_s) (_project proj) &&
    negb (exists_row (starving w (Z.max 1 max_defer_age_s) (_project proj) box) (node_jobs w))).

(** [context_switch_need] *)
Definition live_box (w : world) (proj : string) (window : Z) (h : heartbeat) : bool :=
  fresh_gpu (clock w) window proj h &&
  negb (exists_row (λ k, String.eqb (whost_label k) (hhost_label h) &&
    String.eqb (wqueue k) "gpu" && String.eqb (wproject k) proj &&
    String.eqb (desired_state k) "off") (worker_controls w)).

(** A live box that fits the job more tightly than (ceiling, host). *)
Definition tighter (ceiling n : Z) (host : string) (h : heartbeat) : bool :=
  match llm_context_max h with
  | None => false
  | Some m => (n <=? m) && ((m <? ceiling) || ((m =? ceiling) && String.ltb (hhost_label h) host))
  end.

Definition context_need (w : world) (host : string) (serving ceiling : Z) (box : option string)
    (proj : string) (window min_age_s : Z) (elect : bool) (j : node_job) : option Z :=
  match context_length j with
  | None => None
  | Some n =>
      let live := List.filter (live_box w proj window) (heartbeats w) in
      if String.eqb (queue j) "gpu" && has_status Queued (st j) && String.eqb (project j) proj &&
         (serving <? n) && (n <=? ceiling) &&
         (created_at j <=? clock w - seconds_us min_age_s) &&
         holds (_placement_terms box j) && parent_run w run_claimable j &&
         negb (exists_row (λ h, holds (t_le (Some n) (llm_context_length h))) live) &&
         (negb elect || negb (exists_row (tighter ceiling n host) live))
      then Some n else None
  end.

Definition max_opt (a b : option Z) : option Z :=
  match a, b with
  | Some x, Some y => Some (Z.max x y)
  | Some x, None | None, Some x => Some x
  | None, None => None
  end.

Definition context_switch_need `{QueueConfig} (host : string) (serving ceiling : option Z)
    (box : option string) (proj : option string) (stale_s : option Z) (min_age_s : Z)
    (elect : bool) : M (option Z) :=
  match ceiling with
  | None => mret None
  | Some ceil => gets (λ w,
      let window := default config_stale_worker_after_s stale_s in
      let found := foldr max_opt None
        (map (context_need w host (default 0 serving) ceil box (_project proj) window min_age_s
                elect) (node_jobs w)) in
      match found with Some n => if n =? 0 then None else Some n | None => None end)
  end.

(** * Lemmas on the claim statement *)

Section claim_lemmas.
Implicit Types (w : world) (j : node_job) (c : claimant).

Lemma candidates_elem w c locked cap j :
  j ∈ candidates w c locked cap ↔
  j ∈ node_jobs w ∧ base_terms w c j = true ∧ cap j = true ∧ job_key j ∉ locked.
Proof.
  unfold candidates. rewrite elem_of_Lfilter, !andb_true_iff, negb_true_iff,
    bool_decide_eq_false. tauto.
Qed.

(** The two outcomes of the statement. *)
Lemma claim_sql_some c locked cap order stamp mstamp w j' w' :
  claim_sql c locked cap order stamp mstamp w = (Ok (Some j'), w') →
  ∃ j, j ∈ candidates w c locked cap ∧
    (∀ x, x ∈ candidates w c locked cap → key_le (order j) (order x) = true) ∧
    j' = upd (claim_set c (stamp j) (mstamp j) (clock w)) j ∧
    w' = on_jobs (update_where (λ x, bool_decide (job_key x = job_key j))
           (upd (claim_set c (stamp j) (mstamp j) (clock w)))) w.
Proof.
  unfold claim_sql. destruct (first_by order _) as [j|] eqn:E; [|done].
  intros [= <- <-]. exists j. split_and!; eauto using first_by_elem, first_by_least.
Qed.

Lemma claim_sql_none c locked cap order stamp mstamp w w' :
  claim_sql c locked cap order stamp mstamp w = (Ok None, w') →
  w' = w ∧ ∀ j, j ∉ candidates w c locked cap.
Proof.
  unfold claim_sql. destruct (first_by order _) as [j|] eqn:E; [done|].
  intros [= <-]. apply first_by_None in E. rewrite E. set_solver.
Qed.

Lemma claim_sql_total c locked cap order stamp mstamp w :
  ∃ r w', claim_sql c locked cap order stamp mstamp w = (Ok r, w').
Proof. unfold claim_sql. case_match; eauto. Qed.

Lemma claim_sql_db_ok c locked cap order stamp mstamp w :
  db_ok w → db_ok (claim_sql c locked cap order stamp mstamp w).2.
Proof. unfold claim_sql. case_match; simpl; auto using db_ok_update. Qed.

Lemma base_terms_queued w c j : base_terms w c j = true → status j = Queued.
Proof. unfold base_terms, has_status. intros. by split_bool. Qed.

(** What the claimed row looks like. *)
Lemma claim_set_fields c sv md now s :
  status (claim_set c sv md now s) = Running ∧
  claimed_by (claim_set c sv md now s) = c_host c ∧
  lease_expires_at (claim_set c sv md now s) = Some (now + seconds_us (c_lease_s c)) ∧
  started_at (claim_set c sv md now s) = Some now ∧
  resolved_server (claim_set c sv md now s) = sv ∧
  resolved_model (claim_set c sv md now s) = md ∧
  is_priority (claim_set c sv md now s) = is_priority s.
Proof. by destruct s. Qed.

(** The table after a claim: the picked row flipped, the others untouched. *)
Lemma claim_table w j f :
  db_ok w → j ∈ node_jobs w →
  ∃ l1 l2, node_jobs w = l1 ++ j :: l2 ∧
    update_where (λ x, bool_decide (job_key x = job_key j)) (upd f) (node_jobs w)
      = l1 ++ upd f j :: l2.
Proof.
  intros [Hids _ _ _ _ _] (l1 & l2 & E)%list_elem_of_split. exists l1, l2. split; [done|].
  rewrite E in *. rewrite map_app in Hids. simpl in Hids.
  apply NoDup_app in Hids as (_ & H1 & [H2 _]%NoDup_cons).
  assert (∀ x, x ∈ l1 ∨ x ∈ l2 → bool_decide (job_key x = job_key j) = false) as Hne.
  { intros x Hx. apply bool_decide_eq_false_2. intros Ex. destruct Hx as [Hx|Hx].
    - apply (H1 (job_key x)); [apply list_elem_of_fmap; eauto|]. rewrite Ex. left.
    - apply H2. rewrite <- Ex. apply list_elem_of_fmap. eauto. }
  set (p := λ x, bool_decide (job_key x = job_key j)).
  assert (update_where p (upd f) l1 = l1) as E1 by (apply update_where_none; intros x Hx; apply Hne; auto).
  assert (update_where p (upd f) l2 = l2) as E2 by (apply update_where_none; intros x Hx; apply Hne; auto).
  unfold update_where in *. rewrite map_app. simpl. rewrite E1, E2.
  unfold p. by rewrite bool_decide_eq_true_2.
Qed.

Lemma count_split p (l1 l2 : list node_job) j :
  count p (l1 ++ j :: l2) = (count p l1 + (if p j then 1 else 0) + count p l2)%nat.
Proof.
  unfold count. rewrite List.filter_app, length_app. simpl. destruct (p j); simpl; lia.
Qed.

Lemma sum_filter_split p wt (l1 l2 : list node_job) j :
  sum_of wt (List.filter p (l1 ++ j :: l2)) =
  sum_of wt (List.filter p l1) + (if p j then wt j else 0) + sum_of wt (List.filter p l2).
Proof.
  rewrite List.filter_app, sum_of_app. simpl. destruct (p j); simpl; [|lia].
  unfold sum_of. simpl. lia.
Qed.
End claim_lemmas.

#[export] Hint Resolve claim_sql_db_ok : engine.

(** * Properties of the claims *)

(** What a successful claim did, for any lane: [j] is the row it took. *)
Definition took (w : world) (c : claimant) (locked : list string) (cap : node_job → bool)
    (order : node_job → list Z) (j j' : node_job) (w' : world) : Prop :=
  (** an eligible, unlocked row, least in the order among them *)
  j ∈ node_jobs w ∧ base_terms w c j = true ∧ cap j = true ∧ job_key j ∉ locked ∧
  (∀ x, x ∈ node_jobs w → base_terms w c x = true → cap x = true → job_key x ∉ locked →
     key_le (order j) (order x) = true) ∧
  (** flipped to running under the claimant's name and lease *)
  spec j' = spec j ∧ status j' = Running ∧ claimed_by j' = c_host c ∧
  lease_expires_at j' = Some (clock w + seconds_us (c_lease_s c)) ∧
  (** and nothing else moved *)
  (∃ l1 l2, node_jobs w = l1 ++ j :: l2 ∧ node_jobs w' = l1 ++ j' :: l2) ∧
  runs w' = runs w.

Section claim_props.
Implicit Types (w : world) (j : node_job) (c : claimant).

Lemma claim_sql_took c locked cap order stamp mstamp w j' w' :
  db_ok w → claim_sql c locked cap order stamp mstamp w = (Ok (Some j'), w') →
  ∃ j, took w c locked cap order j j' w' ∧ st j' = claim_set c (stamp j) (mstamp j) (clock w) (st j).
Proof.
  intros Hok (j & Hj & Hmin & -> & ->)%claim_sql_some.
  apply candidates_elem in Hj as (Hj & Hb & Hc & Hl).
  exists j. split; [|done].
  destruct (claim_set_fields c (stamp j) (mstamp j) (clock w) (st j)) as (E1 & E2 & E3 & _).
  repeat (split; [first [done|eassumption]|]). split.
  { intros x Hx Hbx Hcx Hlx. apply Hmin. by apply candidates_elem. }
  repeat (split; [done|]). split; [|apply runs_on_jobs].
  rewrite node_jobs_on_jobs. by apply claim_table.
Qed.

Context `{QueueConfig}.

(** The cpu claim takes the best eligible row: queued, of this lane and
    tenant, its run not cancelled or failed, its placement allowing this box
    and its width fitting the free slots; among those the run-next flag first,
    then the priority band, then the creation order (reversed for an overflow
    host); and it reports nothing only when there is no such row. *)
Lemma cpu_claim_takes_best lane host lease hp proj box lw free locked w r w' :
  db_ok w →
  claim_next_cpu_job lane host lease hp proj box lw free locked w = (Ok r, w') →
  let c := mk_claimant lane host lease "cpu" proj hp box in
  match r with
  | Some j' => ∃ j, took w c locked (cpu_fits lw free) (cpu_order c) j j' w'
  | None => w' = w ∧ ∀ j, j ∈ node_jobs w → base_terms w c j = true →
                      cpu_fits lw free j = true → job_key j ∈ locked
  end.
Proof.
  intros Hok Hc c. destruct r as [j'|].
  - apply claim_sql_took in Hc as (j & Ht & _); eauto.
  - apply claim_sql_none in Hc as [-> Hn]. split; [done|]. intros j Hj Hb Hf.
    apply dec_stable. intros Hl. apply (Hn j), candidates_elem. done.
Qed.

(** The width clamp strands nobody: when every slot of a lane is free, a row
    of any declared width fits. *)
Lemma idle_lane_fits_every_width width j :
  cpu_fits (Some width) (Some width) j = true.
Proof. unfold cpu_fits, cpu_weight. lia. Qed.
End claim_props.

(** C2: at most one worker gets a row.  Two claims of any lanes, the second on the
    table the first left, or both on one snapshot with the first's row locked,
    never return the same row. *)
Theorem claims_are_exclusive c1 c2 l1 l2 cap1 cap2 o1 o2 s1 s2 m1 m2 w j1 w1 j2 w2 :
  db_ok w →
  claim_sql c1 l1 cap1 o1 s1 m1 w = (Ok (Some j1), w1) →
  claim_sql c2 l2 cap2 o2 s2 m2 w1 = (Ok (Some j2), w2) ∨
  (claim_sql c2 l2 cap2 o2 s2 m2 w = (Ok (Some j2), w2) ∧ job_key j1 ∈ l2) →
  job_key j1 ≠ job_key j2.
Proof.
  intros Hok (x1 & Hx1 & _ & -> & ->)%claim_sql_some [H2|[H2 Hl]].
  - apply claim_sql_some in H2 as (x2 & Hx2 & _ & -> & _).
    apply candidates_elem in Hx2 as (Hin & Hb & _ & _). apply base_terms_queued in Hb.
    rewrite node_jobs_on_jobs in Hin. apply elem_of_update_where in Hin as (x0 & Hx0 & ->).
    intros E. change (job_key x1 = job_key (if bool_decide (job_key x0 = job_key x1)
      then upd (claim_set c1 (s1 x1) (m1 x1) (clock w)) x0 else x0)) in E.
    case_bool_decide as Hd; [|congruence].
    destruct (claim_set_fields c1 (s1 x1) (m1 x1) (clock w) (st x0)) as (E1 & _).
    simpl in Hb. congruence.
  - apply claim_sql_some in H2 as (x2 & Hx2 & _ & -> & _).
    apply candidates_elem in Hx2 as (_ & _ & _ & Hnl). intros E. apply Hnl.
    change (job_key x2) with (job_key (upd (claim_set c2 (s2 x2) (m2 x2) (clock w)) x2)).
    by rewrite <- E.
Qed.

(** ** The download lane's cap *)

Section download_props.
Context `{QueueConfig}.
Implicit Types (w : world) (j : node_job).

Definition downloads (w : world) (proj : string) : Z :=
  Z.of_nat (count (download_running proj) (node_jobs w)).

Lemma download_claim_count lane host lease hp proj box rcap mc locked w r w' :
  db_ok w →
  claim_next_download_job lane host lease hp proj box rcap mc locked w = (Ok r, w') →
  let cap := match mc with None => rcap | Some n => Z.max 1 n end in
  match r with
  | None => w' = w
  | Some _ => downloads w' (_project proj) = downloads w (_project proj) + 1 ∧
              downloads w' (_project proj) ≤ cap
  end.
Proof.
  intros Hok Hc cap. unfold claim_next_download_job in Hc. fold cap in Hc.
  destruct r as [j'|]; [|by apply claim_sql_none in Hc as [-> _]].
  apply claim_sql_took in Hc as (j & Ht & _); [|done].
  destruct Ht as (Hj & Hb & Hcap & _ & _ & Hs & Hst & _ & _ & (t1 & t2 & E1 & E2) & _).
  unfold download_capability in Hcap. simpl in Hcap.
  assert (downloads w' (_project proj) = downloads w (_project proj) + 1) as E.
  { unfold downloads. rewrite E1, E2, !count_split.
    assert (download_running (_project proj) j = false) as ->.
    { unfold download_running, has_status. rewrite (base_terms_queued _ _ _ Hb). done. }
    assert (download_running (_project proj) j' = true) as ->.
    { unfold download_running, has_status. rewrite Hst, Hs.
      unfold base_terms in Hb. simpl in Hb. split_bool. simpl. by rewrite H0, H3. }
    lia. }
  unfold downloads in *. lia.
Qed.

(** The lane cap holds fleet-wide: whichever workers claim, in whatever
    order and on whatever hosts, the running downloads of a tenant never
    exceed the cap (beyond what was already running). *)
Lemma download_cap_is_never_exceeded
    (claims : list (Z * option string * Z * Z * option string * list string))
    proj cap w :
  db_ok w → 1 ≤ cap →
  let step := λ w '(lane, host, lease, hp, box, locked),
    (claim_next_download_job lane host lease hp proj box cap (Some cap) locked w).2 in
  downloads (foldl step w claims) (_project proj) ≤ Z.max cap (downloads w (_project proj)).
Proof.
  intros Hok Hcap step. revert w Hok. induction claims as [|x claims IH]; intros w Hok.
  { simpl. lia. }
  simpl. assert (db_ok (step w x) ∧
    downloads (step w x) (_project proj) ≤ Z.max cap (downloads w (_project proj))) as [H1 H2].
  { unfold step. destruct x as [[[[[lane host] lease] hp] box] locked]. split.
    { apply claim_sql_db_ok, Hok. }
    destruct (claim_next_download_job _ _ _ _ _ _ _ _ _ w) as [[r|e] w'] eqn:E; simpl.
    - apply download_claim_count in E; [|done]. destruct r; [|subst; lia]. lia.
    - unfold claim_next_download_job in E.
      destruct (claim_sql_total (mk_claimant lane host lease "download" proj hp box) locked
        (download_capability w (c_project (mk_claimant lane host lease "download" proj hp box))
           (Z.max 1 cap)) (cpu_order (mk_claimant lane host lease "download" proj hp box))
        (λ _, None) (λ _, None) w) as (? & ? & ?). congruence. }
  etransitivity; [apply IH; exact H1|]. lia.
Qed.
End download_props.

(** ** The gpu arbiters *)

Section gpu_props.
Implicit Types (w : world) (j : node_job) (c : claimant) (g : gpu_params).

Lemma gpu_claim_took c g locked w j' w' :
  db_ok w → claim_next_gpu_job c g locked w = (Ok (Some j'), w') →
  ∃ j, took w c locked (gpu_capability w c g) (gpu_order g c) j j' w' ∧
    st j' = claim_set c (if law_on c g then Some (_stamp g j) else None) (_model_stamp g j)
              (clock w) (st j).
Proof.
  intros Hok. unfold claim_next_gpu_job. destruct (cast_error w c g); [done|].
  by apply claim_sql_took.
Qed.

Lemma running_here_before w c j : base_terms w c j = true → running_here c j = false.
Proof.
  intros Hb. unfold running_here, has_status. by rewrite (base_terms_queued _ _ _ Hb).
Qed.

Lemma running_here_after w c g l o j j' w' cap :
  took w c l cap o j j' w' → host_truthy c = true → running_here c j' = true.
Proof.
  intros (_ & Hb & _ & _ & _ & Hs & Hst & Hcl & _) Hh.
  unfold running_here, has_status. rewrite Hst, Hs, Hcl.
  unfold base_terms in Hb. split_bool.
  unfold host_truthy, or_none in Hh. destruct (c_host c) as [h|]; [|done].
  simpl. rewrite bool_decide_eq_true_2 by done. simpl. by rewrite H, H2.
Qed.

Lemma weight_spec b j j' : spec j' = spec j → weight b j' = weight b j.
Proof. intros E. unfold weight, _gpu_weight. by rewrite E. Qed.

(** The slots a host's running rows take. *)
Definition slots_in_use (w : world) (c : claimant) (b : Z) : Z :=
  sum_of (weight b) (List.filter (running_here c) (node_jobs w)).

Lemma gpu_claim_slots c g locked w b j' w' :
  db_ok w → host_truthy c = true → g_max_running g = Some b →
  claim_next_gpu_job c g locked w = (Ok (Some j'), w') →
  slots_in_use w' c b = slots_in_use w c b + weight b j' ∧ slots_in_use w' c b ≤ b.
Proof.
  intros Hok Hh Hb Hc. apply gpu_claim_took in Hc as (j & Ht & _); [|done].
  pose proof (running_here_after _ _ g _ _ _ _ _ _ Ht Hh) as Hafter.
  destruct Ht as (Hj & Hbase & Hcap & _ & _ & Hs & _ & _ & _ & (t1 & t2 & E1 & E2) & _).
  pose proof (running_here_before _ _ _ Hbase) as Hbefore.
  unfold gpu_capability, budget_of in Hcap. rewrite Hh, Hb in Hcap. split_bool.
  unfold box_slot_gate in *. unfold slots_in_use.
  assert (sum_of (weight b) (List.filter (running_here c) (node_jobs w')) =
    sum_of (weight b) (List.filter (running_here c) (node_jobs w)) + weight b j') as E.
  { rewrite E1, E2, !sum_filter_split, Hbefore, Hafter. lia. }
  split; [done|]. rewrite (weight_spec b j j') in E by done. lia.
Qed.

(** C3: the box-slot arbiter.  After a claim the weighted rows running on the
    host fit its budget, and the claim added exactly the claimed row's
    weight. *)
Theorem gpu_claim_respects_box_slots c g locked w b j' w' :
  db_ok w → host_truthy c = true → g_max_running g = Some b →
  claim_next_gpu_job c g locked w = (Ok (Some j'), w') →
  slots_in_use w' c b = slots_in_use w c b + weight b j' ∧ slots_in_use w' c b ≤ b.
Proof. apply gpu_claim_slots. Qed.

(** C4: the per-kind arbiter.  With the law on, the claim stamps the row with a
    serving kind, and afterwards the rows running on the host under that kind
    (the unstamped ones included) are at most the kind's cap: a kind the caps
    do not name runs one job at a time. *)
Theorem gpu_claim_respects_kind_caps c g locked w j' w' :
  db_ok w → law_on c g = true →
  claim_next_gpu_job c g locked w = (Ok (Some j'), w') →
  ∃ k, resolved_server j' = Some k ∧
    Z.of_nat (count (λ r, running_here c r && runs_kind k r) (node_jobs w')) ≤ cap_of g k.
Proof.
  intros Hok Hlaw Hc. apply gpu_claim_took in Hc as (j & Ht & Est); [|done].
  assert (host_truthy c = true) as Hh by (unfold law_on in Hlaw; by split_bool).
  pose proof (running_here_after _ _ g _ _ _ _ _ _ Ht Hh) as Hafter.
  destruct Ht as (Hj & Hbase & Hcap & _ & _ & Hs & _ & _ & _ & (t1 & t2 & E1 & E2) & _).
  pose proof (running_here_before _ _ _ Hbase) as Hbefore.
  rewrite Hlaw in Est. exists (_stamp g j).
  assert (resolved_server j' = Some (_stamp g j)) as Hk.
  { rewrite Est. apply claim_set_fields. }
  split; [done|]. unfold gpu_capability in Hcap. rewrite Hlaw in Hcap.
  apply andb_true_iff in Hcap as [_ Hkind]. unfold kind_gate in Hkind.
  rewrite E1, count_split, Hbefore in Hkind. rewrite E2, count_split, Hafter.
  assert (runs_kind (_stamp g j) j' = true) as ->
    by (unfold runs_kind; rewrite Hk; apply String.eqb_refl).
  simpl in *. revert Hkind. generalize (count (λ r, running_here c r && runs_kind (_stamp g j) r)).
  intros n Hkind%Z.ltb_lt. lia.
Qed.

(** The run-next reservation.  While a run-next row wider than one slot is
    claimable here in every respect but the rows already running, a claim takes
    only such a row: the box drains for it. *)
Lemma run_next_wide_row_reserves_the_box c g locked w b q j' w' :
  db_ok w → host_truthy c = true → g_max_running g = Some b →
  q ∈ node_jobs w → base_terms w c q = true → _eligibility g q = true →
  run_next_wide b q = true →
  claim_next_gpu_job c g locked w = (Ok (Some j'), w') → run_next_wide b j' = true.
Proof.
  intros Hok Hh Hb Hq Hqb Hqe Hqw Hc. apply gpu_claim_took in Hc as (j & Ht & Est); [|done].
  destruct Ht as (_ & _ & Hcap & _ & _ & Hs & _).
  unfold gpu_capability, budget_of in Hcap. rewrite Hh, Hb in Hcap.
  apply andb_true_iff in Hcap as [[_ [_ Hres]%andb_true_iff]%andb_true_iff _].
  unfold reservation_gate in Hres. apply orb_true_iff in Hres as [Hw|Hno].
  - unfold run_next_wide in *. rewrite (weight_spec b j j'), Hs by done.
    rewrite Est. rewrite (proj2 (proj2 (proj2 (proj2 (proj2 (proj2
      (claim_set_fields c _ _ _ (st j)))))))). done.
  - apply negb_true_iff in Hno. rewrite exists_row_false in Hno.
    specialize (Hno q Hq). by rewrite Hqb, Hqe, Hqw in Hno.
Qed.

Definition with_lane (g : gpu_params) (inline : bool) : gpu_params :=
  mkGpu (g_current_model g) (g_known_models g) (Some inline) (g_pool_modules g)
    (g_max_running g) (g_served_types g) (g_warm_servers g) (g_warm_models g)
    (g_kind_caps g) (g_default_server g) (g_serving_context g) (g_reservations_only g).

(** The inline and the pool lane of one worker partition the gpu queue: a
    row is work of exactly one of them, whatever the pool modules are. *)
Lemma lanes_partition_the_gpu_queue g j :
  lane_gate (with_lane g true) j = negb (lane_gate (with_lane g false) j).
Proof.
  unfold lane_gate. simpl. destruct (truthy_only _) as [|m l];
    destruct (remote j), (required_model j); simpl; try done;
    by destruct (bool_decide _).
Qed.

(** A declared width beyond 32 bits is accepted at the enqueue and then
    makes every arbitrated claim that could reach the row raise: no gpu job of
    that tenant is claimed on any box while it is queued. *)
Lemma oversized_gpu_slots_poison_the_lane c g locked w b q n :
  host_truthy c = true → g_max_running g = Some b →
  q ∈ node_jobs w → base_terms w c q = true → _eligibility g q = true →
  2147483647 < n → gpu_slots q = Some (pretty n) →
  normalise_gpu_slots (JInt n) = Ok (Some (pretty n)) ∧
  claim_next_gpu_job c g locked w = (Raise (OtherError "integer out of range"), w).
Proof.
  intros Hh Hb Hq Hqb Hqe Hn Hs. destruct (pretty_pos_digits n) as [Hd Hi]; [lia|]. split.
  { simpl. unfold gpu_slots_of_int. destruct (n <? 1) eqn:E1; [lia|].
    destruct (n =? 1) eqn:E2; [lia|]. done. }
  unfold claim_next_gpu_job. assert (cast_error w c g = true) as ->; [|done].
  unfold cast_error, budget_of. rewrite Hh, Hb. apply exists_row_true. exists q.
  split; [done|]. rewrite Hqb, Hqe, orb_true_r. simpl. unfold _gpu_weight. rewrite Hs.
  destruct (String.eqb_spec (pretty n) "all") as [E|_]; [by rewrite E in Hd|].
  destruct (String.eqb_spec (pretty n) "half") as [E|_]; [by rewrite E in Hd|].
  unfold gpu_cast, in_integer. rewrite Hd, Hi.
  assert ((n <=? 2147483647) = false) as -> by lia. by rewrite andb_false_r.
Qed.
End gpu_props.

(** ** The views *)

Section view_props.
Context `{QueueConfig}.
Implicit Types (w : world) (j : node_job).

(** Fill-before-spill never starves a job.  A box does not defer while a pool
    row its own claim could take is flagged run-next or has waited out the
    window; and a box no fresh peer outranks never defers. *)
Lemma pool_deferral_is_live host par stale age proj box lane lease hp w :
  let c := mk_claimant lane (Some host) lease "gpu" proj hp box in
  (∃ j, j ∈ node_jobs w ∧ base_terms w c j = true ∧ _pool_row_term j = true ∧
     (is_priority j = true ∨ created_at j < clock w - seconds_us (Z.max 1 age))) ∨
  (∀ h, h ∈ heartbeats w → fresh_gpu (clock w) (Z.max 1 stale) (_project proj) h = true →
     ranked_above host par h = false) →
  vlm_pool_should_defer host par stale age proj box w = (Ok false, w).
Proof.
  intros c Hc. unfold vlm_pool_should_defer, gets. f_equal. f_equal.
  apply andb_false_iff. destruct Hc as [(j & Hj & Hb & Hp & Ha)|Htop].
  - right. apply negb_false_iff, exists_row_true. exists j. split; [done|].
    unfold base_terms in Hb. simpl in Hb. split_bool. unfold starving.
    repeat (apply andb_true_iff; split); try done.
    apply orb_true_iff. destruct Ha as [->|Ha]; [by right|left; lia].
  - left. apply exists_row_false. intros h Hh.
    destruct (fresh_gpu _ _ _ h) eqn:E; [|done]. by rewrite (Htop h Hh E).
Qed.

Lemma string_ltb_total (s t : string) :
  s ≠ t → String.ltb s t = true ∨ String.ltb t s = true.
Proof.
  intros Hne. unfold String.ltb. rewrite (String.compare_antisym t s).
  destruct (String.compare s t) eqn:E; simpl; auto.
  by apply String.compare_eq_iff in E.
Qed.

Lemma context_need_some w host srv ceil box proj win age j n :
  context_need w host srv ceil box proj win age true j = Some n →
  context_length j = Some n ∧ srv < n ≤ ceil ∧
  ∀ h, h ∈ heartbeats w → live_box w proj win h = true → tighter ceil n host h = false.
Proof.
  unfold context_need. destruct (context_length j) as [m|]; [|done].
  destruct (_ && _) eqn:E; [|done]. intros [= ->].
  apply andb_true_iff in E as [E Hel]. simpl in Hel. split_bool.
  rewrite exists_row_false in Hel. split; [done|]. split; [lia|].
  intros h Hh Hl. apply Hel, elem_of_Lfilter. done.
Qed.

(** The context election picks one box.  Two live boxes that publish their
    ceilings never both ask to restart their server for the same queued job:
    the tightest fit wins, ties by name. *)
Lemma context_election_is_unique w h1 h2 s1 s2 c1 c2 b1 b2 proj win age j n :
  h1 ∈ heartbeats w → h2 ∈ heartbeats w → hhost_label h1 ≠ hhost_label h2 →
  live_box w proj win h1 = true → live_box w proj win h2 = true →
  llm_context_max h1 = Some c1 → llm_context_max h2 = Some c2 →
  context_need w (hhost_label h1) s1 c1 b1 proj win age true j = Some n →
  context_need w (hhost_label h2) s2 c2 b2 proj win age true j = None.
Proof.
  intros H1 H2 Hne L1 L2 M1 M2 (Hn & Hr1 & T1)%context_need_some.
  destruct (context_need w (hhost_label h2) _ _ _ _ _ _ _ j) as [m|] eqn:E2; [|done].
  apply context_need_some in E2 as (Hm & Hr2 & T2). assert (m = n) as -> by congruence.
  specialize (T1 h2 H2 L2). specialize (T2 h1 H1 L1).
  unfold tighter in T1, T2. rewrite M1 in T2. rewrite M2 in T1.
  assert ((n <=? c1) = true) as E1 by lia. assert ((n <=? c2) = true) as E2' by lia.
  rewrite E1 in T2. rewrite E2' in T1. simpl in *. apply orb_false_iff in T1 as [T1 T1'],
    T2 as [T2 T2']. assert (c1 = c2) as -> by lia.
  rewrite Z.eqb_refl in T1', T2'. simpl in *.
  destruct (string_ltb_total _ _ Hne); congruence.
Qed.
End view_props.

(** * Witnesses *)

Module ClaimDemo.
(** A box named box-a of a host, claiming under a 600 s lease. *)
Definition gpu_host : claimant := mkClaimant 0 (Some "host-a") 600 "gpu" "" 1 (Some "box-a").
Definition plain (budget : Z) : gpu_params :=
  mkGpu None [] None [] (Some budget) [] [] [] None None None false.
Definition slots (node : string) (s : json) : enqueue_args :=
  mkArgs "r1" node "mod" "gpu" None None [] 100 None None None None None None None JNull s.
(** Two plain gpu rows, and one that asks for the whole box. *)
Definition two : world := Demo.after [Demo.args "a" "gpu"; Demo.args "b" "gpu"].
Definition wide : world := Demo.after [Demo.args "a" "gpu"; slots "b" (JStr "all")].
Definition flagged : world := (prioritize_node_job (uuid4 1) wide).2.
Definition poisoned : world := Demo.after [slots "a" (JInt 3000000000)].

Lemma two_ok : db_ok two.
Proof. do 2 (apply Demo.enqueue_ok; [|reflexivity]). apply Demo.empty_ok. Qed.
Lemma flagged_ok : db_ok flagged.
Proof.
  apply update_job_db_ok. do 2 (apply Demo.enqueue_ok; [|reflexivity]). apply Demo.empty_ok.
Qed.
Definition nth_job (n : nat) (w : world) : node_job := default Demo.blank (node_jobs w !! n).
Definition hb (host : string) (par : Z) (ctx : option Z) : heartbeat :=
  mkHb host "gpu" "" par 1000 None [] [] None [] None ctx None.
Definition sized : world :=
  set_heartbeats [hb "a" 1 (Some 9000); hb "b" 1 (Some 9000)]
    (Demo.after [mkArgs "r1" "a" "mod" "gpu" None None [] 100 None None None None None None None
                   (JInt 8000) JNull]).
End ClaimDemo.

Lemma cpu_claim_takes_best_witness :
  ∃ j' w', @claim_next_cpu_job Demo.cfg 0 (Some "h") 600 0 None None None None [] Demo.one
             = (Ok (Some j'), w') ∧ status j' = Running.
Proof.
  eexists _, _. split; [reflexivity|].
  pose proof (@cpu_claim_takes_best Demo.cfg 0 (Some "h") 600 0 None None None None [] Demo.one
    _ _ Demo.one_ok eq_refl) as (j & Ht). apply Ht.
Defined.

Lemma claims_are_exclusive_witness :
  ∃ j1 w1 j2 w2,
    claim_next_gpu_job ClaimDemo.gpu_host (ClaimDemo.plain 2) [] ClaimDemo.two = (Ok (Some j1), w1) ∧
    claim_next_gpu_job ClaimDemo.gpu_host (ClaimDemo.plain 2) [job_key j1] ClaimDemo.two
      = (Ok (Some j2), w2) ∧ job_key j1 ≠ job_key j2.
Proof.
  eexists _, _, _, _. split; [reflexivity|]. split; [reflexivity|].
  eapply (claims_are_exclusive ClaimDemo.gpu_host ClaimDemo.gpu_host [] [uuid4 0]
    (gpu_capability ClaimDemo.two ClaimDemo.gpu_host (ClaimDemo.plain 2))
    (gpu_capability ClaimDemo.two ClaimDemo.gpu_host (ClaimDemo.plain 2))
    (gpu_order (ClaimDemo.plain 2) ClaimDemo.gpu_host)
    (gpu_order (ClaimDemo.plain 2) ClaimDemo.gpu_host)
    (λ j, Some (_stamp (ClaimDemo.plain 2) j)) (λ j, Some (_stamp (ClaimDemo.plain 2) j))
    (_model_stamp (ClaimDemo.plain 2)) (_model_stamp (ClaimDemo.plain 2)) ClaimDemo.two).
  - exact ClaimDemo.two_ok.
  - reflexivity.
  - right. split; [reflexivity|]. left.
Defined.

Lemma download_cap_is_never_exceeded_witness :
  downloads (foldl (λ w '(lane, host, lease, hp, box, locked),
      (@claim_next_download_job Demo.cfg lane host lease hp None box 1 (Some 1) locked w).2)
    Demo.one [(0, Some "h", 600, 0, None, []); (0, Some "g", 600, 0, None, [])]) "" ≤ 1.
Proof.
  apply (@download_cap_is_never_exceeded Demo.cfg
    [(0, Some "h", 600, 0, None, []); (0, Some "g", 600, 0, None, [])] None 1 Demo.one).
  - exact Demo.one_ok.
  - lia.
Defined.

Lemma gpu_claim_respects_box_slots_witness :
  ∃ j' w', claim_next_gpu_job ClaimDemo.gpu_host (ClaimDemo.plain 2) [] ClaimDemo.two
             = (Ok (Some j'), w') ∧ slots_in_use w' ClaimDemo.gpu_host 2 ≤ 2.
Proof.
  eexists _, _. split; [reflexivity|].
  eapply (gpu_claim_respects_box_slots ClaimDemo.gpu_host (ClaimDemo.plain 2) [] ClaimDemo.two);
    [exact ClaimDemo.two_ok|reflexivity..].
Defined.

Lemma gpu_claim_respects_kind_caps_witness :
  ∃ j' w', claim_next_gpu_job ClaimDemo.gpu_host (ClaimDemo.plain 2) [] ClaimDemo.two
             = (Ok (Some j'), w') ∧ resolved_server j' = Some "ollama".
Proof.
  eexists _, _. split; [reflexivity|].
  edestruct (gpu_claim_respects_kind_caps ClaimDemo.gpu_host (ClaimDemo.plain 2) [] ClaimDemo.two)
    as (k & Hk & _); [exact ClaimDemo.two_ok|reflexivity..|].
  reflexivity.
Defined.

Lemma run_next_wide_row_reserves_the_box_witness :
  ∃ j' w', claim_next_gpu_job ClaimDemo.gpu_host (ClaimDemo.plain 2) [] ClaimDemo.flagged
             = (Ok (Some j'), w') ∧ run_next_wide 2 j' = true.
Proof.
  eexists _, _. split; [reflexivity|].
  eapply (run_next_wide_row_reserves_the_box ClaimDemo.gpu_host (ClaimDemo.plain 2) []
    ClaimDemo.flagged 2 (ClaimDemo.nth_job 1 ClaimDemo.flagged)).
  - exact ClaimDemo.flagged_ok.
  - reflexivity.
  - reflexivity.
  - right. left.
  - reflexivity.
  - reflexivity.
  - reflexivity.
  - reflexivity.
Defined.

Lemma oversized_gpu_slots_poison_the_lane_witness :
  claim_next_gpu_job ClaimDemo.gpu_host (ClaimDemo.plain 2) [] ClaimDemo.poisoned
    = (Raise (OtherError "integer out of range"), ClaimDemo.poisoned).
Proof.
  apply (oversized_gpu_slots_poison_the_lane ClaimDemo.gpu_host (ClaimDemo.plain 2) []
    ClaimDemo.poisoned 2 (ClaimDemo.nth_job 0 ClaimDemo.poisoned) 3000000000); try reflexivity.
  left.
Defined.

Lemma pool_deferral_is_live_witness :
  @vlm_pool_should_defer Demo.cfg "host-a" 1 30 20 None None ClaimDemo.two
    = (Ok false, ClaimDemo.two).
Proof.
  apply (@pool_deferral_is_live Demo.cfg "host-a" 1 30 20 None None 0 600 0 ClaimDemo.two).
  right. intros h Hh. inversion Hh.
Defined.

Lemma context_election_is_unique_witness :
  context_need ClaimDemo.sized "a" 0 9000 None "" 30 0 true (ClaimDemo.nth_job 0 ClaimDemo.sized)
    = Some 8000 ∧
  context_need ClaimDemo.sized "b" 0 9000 None "" 30 0 true (ClaimDemo.nth_job 0 ClaimDemo.sized)
    = None.
Proof.
  split; [reflexivity|].
  apply (context_election_is_unique ClaimDemo.sized (ClaimDemo.hb "a" 1 (Some 9000))
    (ClaimDemo.hb "b" 1 (Some 9000)) 0 0 9000 9000 None None "" 30 0
    (ClaimDemo.nth_job 0 ClaimDemo.sized) 8000); try reflexivity.
  - left.
  - right. left.
  - discriminate.
Defined.
