(* ===== verification/Reclaim.v ===== *)
(** * Recovery: lease reclaim, requeues, heartbeats and the reaper
      ([queue_workflows/node_queue.py])

    The sweeps of the orchestrator that put a dead worker's jobs back on the
    queue, the frozen-lease detector, the over-claim reaper, and the
    worker-heartbeat table they read. *)

From S2P Require Import Prelude.
From S2P Require Import Json.
From S2P Require Import Refs.
From S2P Require Import Schema.
From S2P Require Import NodeQueue.
From S2P Require Import Claim.
Local Open Scope string_scope.
Local Open Scope list_scope.
Local Open Scope Z_scope.

(** ** Updates that branch on the parent run

    [UPDATE .. FROM workflow_runs r WHERE r.id = j.run_id AND p]: a row of a
    running run goes back to the front of the queue, a row of any other run is
    cancelled. *)

Definition resume_or_cancel (run_running : bool) (now : Z) (s : job_state) : job_state :=
  let s := s |> set_claimed_by None |> set_lease_expires_at None in
  if run_running
  then s |> set_status Queued |> set_started_at None |> set_priority (Z.min (priority s) 10)
         |> set_is_priority true
  else s |> set_status Cancelled |> set_finished_at (Some now).

Definition parent_status (w : world) (j : node_job) : option run_status :=
  rstatus <$> run_of w (run_id j).

Definition resume_where (p : node_job → bool) : M (list node_job) := λ w,
  let q := λ j, p j && is_not_null (parent_status w j) in
  let f := λ j, upd (resume_or_cancel (bool_decide (parent_status w j = Some r_running))
                       (clock w)) j in
  (Ok (returning q f (node_jobs w)), on_jobs (update_where q f) w).

(** A running row whose lease has lapsed. *)
Definition lease_lapsed (now : Z) (s : job_state) : bool :=
  has_status Running s && holds (t_lt (lease_expires_at s) (Some now)).

Definition reclaim_expired_leases : M (list node_job) := λ w,
  resume_where (λ j, lease_lapsed (clock w) (st j)) w.

(** The CAS of the frozen-lease reclaim: the lease still has the value the
    detector saw. *)
Definition requeue_running_if_lease_frozen (job_id : string) (expected : option Z) : M Z :=
  rows ← resume_where (λ j, is_job job_id (λ s, has_status Running s &&
           holds (t_eq (lease_expires_at s) expected)) j);
  mret (Z.of_nat (length (rows : list node_job))).

Definition requeue_over_claimed_running (job_id : string) : M Z :=
  rows ← resume_where (λ j, is_job job_id (has_status Running) j);
  mret (Z.of_nat (length (rows : list node_job))).

(** ** Requeues of a worker's rows *)

(** A heartbeat of this identity seen within [stale_s] seconds. *)
Definition beats (w : world) (host q proj : string) (stale_s : Z) : bool :=
  exists_row (λ h, String.eqb (hhost_label h) host && String.eqb (hqueue h) q &&
    String.eqb (hproject h) proj && (clock w - seconds_us stale_s <? last_seen h))
    (heartbeats w).

Definition reclaim_all_running_for_resume `{QueueConfig} (proj : option string) :
    M (list node_job) := λ w,
  let p := λ j : node_job,
    has_status Running (st j) && String.eqb (project j) (_project proj) &&
    negb (match claimed_by j with
          | Some h => beats w h (queue j) (project j) STALE_WORKER_AFTER_S
          | None => false
          end) in
  (Ok (returning p (upd release) (node_jobs w)), on_jobs (update_where p (upd release)) w).

(** The resume-style release of a node-job: the front of the queue, and no
    [watchdog_retries] bump. *)
Definition release_front (s : job_state) : job_state := release s |> set_is_priority true.

Definition owned (host q proj : string) (j : node_job) : bool :=
  has_status Running (st j) && bool_decide (claimed_by j = Some host) &&
  String.eqb (queue j) q && String.eqb (project j) proj.

(** The twin on [ingest_jobs], which has no run-next flag. *)
Definition release_ingest (i : ingest_job) : ingest_job :=
  i |> set_istatus Queued |> set_istarted_at None |> set_iclaimed_by None
    |> set_ilease_expires_at None |> set_ipriority (Z.min (ipriority i) 10).
Definition owned_ingest (host q proj : string) (i : ingest_job) : bool :=
  bool_decide (istatus i = Running) && bool_decide (iclaimed_by i = Some host) &&
  String.eqb (iqueue i) q && String.eqb (iproject i) proj.

Definition on_ingest (f : list ingest_job → list ingest_job) (w : world) : world :=
  set_ingest_jobs (f (ingest_jobs w)) w.

(** Release the rows of [host]/[q] that [pj] (or [pi], on the ingest table)
    accepts; the queue decides the table. *)
Definition release_owned `{QueueConfig} (host q : string) (proj : string)
    (pj : node_job → bool) (pi : ingest_job → bool) : M Z := λ w,
  if bool_decide (q ∈ config_ingest_queues) then
    let p := λ i, owned_ingest host q proj i && pi i in
    (Ok (Z.of_nat (count p (ingest_jobs w))), on_ingest (update_where p release_ingest) w)
  else
    let p := λ j, owned host q proj j && pj j in
    (Ok (Z.of_nat (count p (node_jobs w))), on_jobs (update_where p (upd release_front)) w).

Definition requeue_running_for_worker `{QueueConfig} (host q : string) (proj : option string) : M Z :=
  release_owned host q (_project proj) (λ _, true) (λ _, true).

(** [requeue_running_job]: one row, and only the claim the caller saw when it
    passes that claim's [started_at]. *)
Definition same_claim (seen now_stamp : option Z) : bool :=
  match seen with None => true | Some t => bool_decide (now_stamp = Some t) end.
Definition requeue_running_job `{QueueConfig} (job_id host q : string) (proj : option string)
    (seen : option Z) : M Z :=
  release_owned host q (_project proj)
    (λ j, bool_decide (job_key j = job_id) && same_claim seen (started_at j))
    (λ i, bool_decide (iid i = job_id) && same_claim seen (istarted_at i)).

(** [requeue_running_if_worker_stale]: all of them, while nobody of that name
    beats. *)
Definition requeue_running_if_worker_stale `{QueueConfig} (host q : string)
    (proj : option string) (stale_after_s : option Z) : M Z := λ w,
  let threshold := Z.max 1 (default STALE_WORKER_AFTER_S stale_after_s) in
  let dead := negb (beats w host q (_project proj) threshold) in
  release_owned host q (_project proj) (λ _, dead) (λ _, dead) w.

(** ** The frozen-lease detector *)

(** What a sweep remembers of a running row: its lease, and since when. *)
Abbreviation sample := (gmap string (option Z * Z)).

Definition frozen_since (prev : sample) (now : Z) (job_id : string) (lease : option Z) : Z :=
  match prev !! job_id with
  | Some (l, since) => if bool_decide (l = lease) then since else now
  | None => now
  end.

Definition detect_frozen_leases (prev : sample) (rows : list (string * option Z))
    (now frozen_after : Z) : list (string * option Z) * sample :=
  foldl (λ acc row,
    let '(to_reclaim, new_sample) := acc in
    let '(job_id, lease) := row in
    let since := frozen_since prev now job_id lease in
    (if frozen_after <=? now - since then to_reclaim ++ [(job_id, lease)] else to_reclaim,
     <[job_id := (lease, since)]> new_sample)) ([], ∅) rows.

Definition running_lease_snapshot (q : option string) : M (list (string * option Z)) :=
  gets (λ w, (λ j : node_job, (jid j, lease_expires_at j)) <$>
    List.filter (λ j, has_status Running (st j) &&
      match or_none q with Some x => String.eqb (queue j) x | None => true end) (node_jobs w)).

(** ** The over-claim reaper *)

(** A running row of a box: (job_id, started_at, lease). *)
Record claim_row := mkRow { row_id : string; row_started : option Z; row_lease : option Z }.

Definition live_floor (rows : list claim_row) (tie : Z) : option Z :=
  (λ m, m - tie) <$> foldr max_opt None (map row_lease rows).
Definition in_live (floor : option Z) (r : claim_row) : bool :=
  holds (t_le floor (row_lease r)).
Definition victim_key (floor : option Z) (r : claim_row) : list Z :=
  (if in_live floor r
   then [0; b2z (is_not_null (row_started r)); default 0 (row_started r)]
   else [1; b2z (is_null (row_lease r)); - default 0 (row_lease r)])
  ++ PyStr.key (row_id r).

Definition ordered_rows (rows : list claim_row) (tie : Z) : list claim_row :=
  sort_by (victim_key (live_floor rows tie)) rows.
Definition pick_over_claim_victims (rows : list claim_row) (capacity tie : Z) : list string :=
  map row_id (drop (Z.to_nat (Z.max capacity 0)) (ordered_rows rows tie)).

(** The boxes with a running row, in the order they first appear. *)
Definition row_of_job (j : node_job) : claim_row :=
  mkRow (jid j) (started_at j) (lease_expires_at j).
Definition box_of (j : node_job) : option string * string := (claimed_by j, project j).
Definition running_on (q : string) (j : node_job) : bool :=
  has_status Running (st j) && String.eqb (queue j) q && is_not_null (claimed_by j).
Fixpoint boxes_of (l : list node_job) (seen : list (option string * string)) :
    list (option string * string) :=
  match l with
  | [] => []
  | j :: r => if bool_decide (box_of j ∈ seen) then boxes_of r seen
              else box_of j :: boxes_of r (box_of j :: seen)
  end.
Definition group_of (l : list node_job) (b : option string * string) : list claim_row :=
  map row_of_job (List.filter (λ j, bool_decide (box_of j = b)) l).
(** [caps.get((host, project))]: a dict built from the heartbeats *)
Definition capacity_of (w : world) (q : string) (b : option string * string) : option Z :=
  concurrency <$> last (List.filter (λ h, String.eqb (hqueue h) q &&
    bool_decide ((Some (hhost_label h), hproject h) = b)) (heartbeats w)).

(** The victims of one box, requeued one by one; returns those that took. *)
Fixpoint reap_ids (ids : list string) : M (list string) :=
  match ids with
  | [] => mret []
  | i :: r =>
      n ← requeue_over_claimed_running i;
      rest ← reap_ids r;
      mret (if negb ((n : Z) =? 0) then i :: rest else rest)
  end.

Definition box_victims (w : world) (q : string) (l : list node_job)
    (b : option string * string) : list string :=
  let rows := group_of l b in
  match capacity_of w q b with
  | None => []
  | Some cap => if Z.of_nat (length rows) <=? cap then []
                else pick_over_claim_victims rows cap (seconds_us 30)
  end.

Definition reap_over_claimed_boxes (q : string) : M (list string) := λ w,
  let l := List.filter (running_on q) (node_jobs w) in
  reap_ids (concat (map (box_victims w q l) (boxes_of l []))) w.

(** ** Heartbeats *)

Definition is_beat (host q proj : string) (h : heartbeat) : bool :=
  String.eqb (hhost_label h) host && String.eqb (hqueue h) q && String.eqb (hproject h) proj.

(** [upsert_worker_heartbeat]; [ctx] is [Some (length, max)] when the caller
    named a context column. *)
Definition upsert_worker_heartbeat `{QueueConfig} (host q : string) (conc : Z)
    (model : option string) (known servers : option (list string)) (vram : option Z)
    (fits : option (list string)) (update_current_model : bool) (proj : option string)
    (ctx : option (option Z * option Z)) : M () := λ w,
  let p := _project proj in
  let known := default [] known in
  let servers := default ["ollama"] servers in
  let fits := default [] fits in
  let fresh := mkHb host q p conc (clock w) model known servers vram fits
                 (ctx ≫= fst) (ctx ≫= snd) None in
  let refresh := λ h, h |> set_concurrency conc
    |> set_current_model (if update_current_model then model else current_model h)
    |> set_known_models known |> set_llm_servers_available servers |> set_vram_total_mb vram
    |> set_fits_models fits
    |> set_llm_context_length (match ctx with Some (a, _) => a | None => llm_context_length h end)
    |> set_llm_context_max (match ctx with Some (_, b) => b | None => llm_context_max h end)
    |> set_last_seen (clock w) |> set_last_flagged_dead_at None in
  (Ok (), set_heartbeats (if exists_row (is_beat host q p) (heartbeats w)
                          then update_where (is_beat host q p) refresh (heartbeats w)
                          else heartbeats w ++ [fresh]) w).

(** [clear_worker_current_model] *)
Definition clear_worker_current_model `{QueueConfig} (host q : string) (mark_stale : bool)
    (proj : option string) : M (option heartbeat) := λ w,
  let f := λ h, h |> set_current_model None
    |> set_last_seen (if mark_stale then clock w - seconds_us 100 else last_seen h) in
  let p := is_beat host q (_project proj) in
  (Ok (head (returning p f (heartbeats w))),
   set_heartbeats (update_where p f (heartbeats w)) w).

(** [flag_stale_workers_holding_running_jobs]: the silent workers and the number
    of running jobs each still owns. *)
Definition jobs_held (w : world) (h : heartbeat) : Z :=
  Z.of_nat (count (owned (hhost_label h) (hqueue h) (hproject h)) (node_jobs w)).
Definition stale_holder (w : world) (thr : Z) (proj : string) (h : heartbeat) : bool :=
  let cut := clock w - seconds_us thr in
  String.eqb (hproject h) proj && (last_seen h <? cut) &&
  match last_flagged_dead_at h with None => true | Some t => t <? cut end &&
  (0 <? jobs_held w h).
Definition flag_stale_workers_holding_running_jobs `{QueueConfig} (stale_after_s : option Z)
    (proj : option string) : M (list (heartbeat * Z)) := λ w,
  let thr := match stale_after_s with
             | None => config_stale_worker_after_s
             | Some n => Z.max 1 n
             end in
  let p := stale_holder w thr (_project proj) in
  let f := λ h, set_last_flagged_dead_at (Some (clock w)) h in
  (Ok ((λ h, (f h, jobs_held w h)) <$> List.filter p (heartbeats w)),
   set_heartbeats (update_where p f (heartbeats w)) w).

(** * Lemmas *)

Section resume_lemmas.
Implicit Types (w : world) (j : node_job).

Lemma resume_not_running b now s : status (resume_or_cancel b now s) ≠ Running.
Proof. destruct s, b; done. Qed.

Lemma resume_shape b now s : claim_shape (resume_or_cancel b now s).
Proof. destruct s, b; split; done. Qed.

(** The parent of a row is there, by the foreign key. *)
Lemma parent_exists w j :
  db_ok w → j ∈ node_jobs w → is_not_null (parent_status w j) = true.
Proof.
  intros Hok Hj. destruct (ok_parents w Hok j Hj) as (r & Hr & Hid).
  unfold parent_status, run_of. destruct (List.find _ _) eqn:E; [done|].
  apply list_elem_of_In in Hr. eapply find_none in E; [|done].
  by rewrite bool_decide_eq_true_2 in E.
Qed.

(** The row a resume leaves in the place of [j]. *)
Definition resumed (w : world) (j : node_job) : node_job :=
  upd (resume_or_cancel (bool_decide (parent_status w j = Some r_running)) (clock w)) j.

Lemma resume_where_rows p w :
  db_ok w →
  node_jobs (resume_where p w).2 = update_where p (resumed w) (node_jobs w).
Proof.
  intros Hok. unfold resume_where, resumed. simpl. rewrite node_jobs_on_jobs.
  apply map_ext_in. intros j Hj%list_elem_of_In.
  rewrite parent_exists, andb_true_r by done. done.
Qed.

Lemma resume_where_world p w :
  (resume_where p w).2 = on_jobs (λ _, node_jobs (resume_where p w).2) w.
Proof. by destruct w. Qed.

Lemma resume_where_db_ok p w : db_ok w → db_ok (resume_where p w).2.
Proof. intros Hok. apply db_ok_update_rows; [done|done]. Qed.

Lemma resume_where_shaped p w : jobs_shaped w → jobs_shaped (resume_where p w).2.
Proof.
  intros Hw j. simpl. rewrite node_jobs_on_jobs.
  intros (j0 & Hj0 & ->)%elem_of_update_where.
  case_match; [apply resume_shape|by apply Hw].
Qed.

Lemma resume_where_miss p w :
  (∀ j, j ∈ node_jobs w → p j = false) → resume_where p w = (Ok [], w).
Proof.
  intros Hp. unfold resume_where, returning.
  rewrite Lfilter_none; [|intros j Hj; by rewrite Hp].
  f_equal. destruct w; unfold on_jobs; simpl in *. f_equal.
  apply update_where_none. intros j Hj. by rewrite Hp.
Qed.

Lemma parent_status_on_jobs g w j : parent_status (on_jobs g w) j = parent_status w j.
Proof. by destruct w. Qed.
End resume_lemmas.

#[export] Hint Resolve resume_where_db_ok resume_where_shaped : engine.

(** * Properties *)

(** A row put back at the front of the queue: unclaimed, unstarted, the next one
    to be claimed, with the retry budget it had. *)
Definition at_the_front (old new : node_job) : Prop :=
  spec new = spec old ∧ status new = Queued ∧ claimed_by new = None ∧
  lease_expires_at new = None ∧ started_at new = None ∧ is_priority new = true ∧
  priority new ≤ 10 ∧ watchdog_retries new = watchdog_retries old.
Definition cancelled_from (now : Z) (old new : node_job) : Prop :=
  spec new = spec old ∧ status new = Cancelled ∧ claimed_by new = None ∧
  lease_expires_at new = None ∧ finished_at new = Some now.

Section resume_props.
Implicit Types (w : world) (j : node_job).

Lemma resumed_spec w j :
  (parent_status w j = Some r_running → at_the_front j (resumed w j)) ∧
  (parent_status w j ≠ Some r_running → cancelled_from (clock w) j (resumed w j)).
Proof.
  unfold resumed, at_the_front, cancelled_from. destruct j as [sp []].
  split; intros Hp; simpl; [rewrite bool_decide_eq_true_2 by done
                           |rewrite bool_decide_eq_false_2 by done];
    simpl; split_and!; try done; lia.
Qed.

(** C11: the expired-lease sweep is exact.  Every running row whose lease has
    lapsed goes to the front of the queue when its run is running and is
    cancelled otherwise; every other row is untouched; afterwards no lapsed row
    is left, so a second sweep at the same instant finds nothing; the schema
    constraints and the claim bookkeeping still hold. *)
Theorem reclaim_expired_leases_exact w rows w' :
  db_ok w → jobs_shaped w → reclaim_expired_leases w = (Ok rows, w') →
  db_ok w' ∧ jobs_shaped w' ∧
  (∀ k j, node_jobs w !! k = Some j → ∃ j', node_jobs w' !! k = Some j' ∧
     if lease_lapsed (clock w) (st j)
     then (parent_status w j = Some r_running → at_the_front j j') ∧
          (parent_status w j ≠ Some r_running → cancelled_from (clock w) j j')
     else j' = j) ∧
  length rows = count (λ j : node_job, lease_lapsed (clock w) (st j)) (node_jobs w) ∧
  reclaim_expired_leases w' = (Ok [], w').
Proof.
  intros Hok Hsh E. set (p := λ j : node_job, lease_lapsed (clock w) (st j)).
  change (resume_where p w = (Ok rows, w')) in E.
  assert (w' = (resume_where p w).2) as -> by by rewrite E.
  split_and!; [auto with engine..| | |].
  - intros k j Hk. rewrite resume_where_rows by done. exists (if p j then resumed w j else j).
    split; [by apply list_lookup_fmap_Some; exists j|]. unfold p.
    destruct (lease_lapsed _ _); [apply resumed_spec|done].
  - injection E as <-. unfold returning, count. rewrite length_fmap. f_equal.
    apply filter_ext_in. intros j Hj%list_elem_of_In. by rewrite parent_exists, andb_true_r.
  - apply resume_where_miss. rewrite resume_where_rows by done. intros j.
    replace (clock (resume_where p w).2) with (clock w) by by destruct w.
    intros (j0 & _ & ->)%elem_of_update_where. destruct (p j0) eqn:Hp; [|done].
    unfold lease_lapsed, has_status. simpl.
    rewrite bool_decide_eq_false_2 by apply resume_not_running. done.
Qed.

(** A row of a run that is still queued (or already completed) passes the
    run guard of every claim, but once its lease lapses the sweep cancels it for
    good instead of requeueing it: the two guards disagree on which runs are
    alive. *)
Lemma claimable_row_is_cancelled_on_lapse w j r :
  db_ok w → j ∈ node_jobs w → lease_lapsed (clock w) (st j) = true →
  r ∈ runs w → rid r = run_id j → rstatus r = r_queued ∨ rstatus r = r_completed →
  parent_run w run_claimable j = true ∧
  ∃ j', j' ∈ node_jobs (reclaim_expired_leases w).2 ∧ cancelled_from (clock w) j j'.
Proof.
  intros Hok Hj Hl Hr Hid Hs. split.
  - apply exists_row_true. exists r. split; [done|]. rewrite bool_decide_eq_true_2 by done.
    unfold run_claimable. by destruct Hs as [-> | ->].
  - exists (resumed w j). split.
    + unfold reclaim_expired_leases. rewrite resume_where_rows by done.
      apply elem_of_update_where. exists j. by rewrite Hl.
    + apply resumed_spec. intros Hp. unfold parent_status, run_of in Hp.
      destruct (List.find _ _) as [r'|] eqn:E; [|done]. apply find_some in E as [Hr' E].
      split_bool. apply list_elem_of_In in Hr'.
      assert (r' = r) as -> by (eapply (run_by_id_unique w); congruence).
      destruct Hs as [Hs|Hs]; simpl in Hp; rewrite Hs in Hp; done.
Qed.
End resume_props.

(** ** Frozen leases *)

Section frozen.
(** A sweep: when it ran and the running rows it saw. *)
Abbreviation sweep := (Z * list (string * option Z))%type.

Definition sweep_once (frozen_after : Z) (prev : sample) (s : sweep) : sample :=
  (detect_frozen_leases prev s.2 s.1 frozen_after).2.
(** The sample the orchestrator holds after a history of sweeps, oldest first. *)
Definition sample_after (frozen_after : Z) (h : list sweep) : sample :=
  foldl (sweep_once frozen_after) ∅ h.

(** The row was running under that very lease at each of the last sweeps, the
    earliest of them at time [since]. *)
Definition unmoved (h : list sweep) (id : string) (lease : option Z) (since : Z) : Prop :=
  ∃ pre rows post, h = pre ++ (since, rows) :: post ∧
    Forall (λ s : sweep, (id, lease) ∈ s.2) ((since, rows) :: post).

Definition detect_step (prev : sample) (now frozen_after : Z)
    (acc : list (string * option Z) * sample) (row : string * option Z) :=
  let '(to_reclaim, new_sample) := acc in
  let '(job_id, lease) := row in
  let since := frozen_since prev now job_id lease in
  (if frozen_after <=? now - since then to_reclaim ++ [(job_id, lease)] else to_reclaim,
   <[job_id := (lease, since)]> new_sample).

Lemma detect_fold prev rows now fa acc :
  let '(rc, ns) := foldl (detect_step prev now fa) acc rows in
  (∀ id lease, (id, lease) ∈ rc ↔ (id, lease) ∈ acc.1 ∨
     (id, lease) ∈ rows ∧ fa ≤ now - frozen_since prev now id lease) ∧
  (∀ id lease since, ns !! id = Some (lease, since) →
     acc.2 !! id = Some (lease, since) ∨
     (id, lease) ∈ rows ∧ since = frozen_since prev now id lease) ∧
  (NoDup (rows.*1) → ∀ id lease, (id, lease) ∈ rows →
     ns !! id = Some (lease, frozen_since prev now id lease)) ∧
  (∀ id, id ∉ rows.*1 → ns !! id = acc.2 !! id).
Proof.
  revert acc. induction rows as [|[i l] rows IH]; intros acc; cbn [foldl].
  { destruct acc. split_and!; [set_solver|by left|set_solver|done]. }
  specialize (IH (detect_step prev now fa acc (i, l))).
  destruct (foldl _ _ _) as [rc ns]. destruct acc as [rc0 ns0]; simpl in *.
  destruct IH as (H1 & H2 & H3 & H4). split_and!.
  - intros id lease. rewrite H1, elem_of_cons.
    destruct (fa <=? now - frozen_since prev now i l) eqn:E;
      [apply Z.leb_le in E|apply Z.leb_gt in E];
      rewrite ?elem_of_app, ?list_elem_of_singleton; naive_solver lia.
  - intros id lease since Hn. apply H2 in Hn as [Hn|[? ?]]; [|right; set_solver].
    destruct (decide (i = id)) as [->|Hne].
    + rewrite lookup_insert_eq in Hn. simplify_eq. right. set_solver.
    + rewrite lookup_insert_ne in Hn by done. auto.
  - intros [Hi Hnd]%NoDup_cons id lease [E|Hin]%elem_of_cons; simplify_eq.
    + by rewrite H4, lookup_insert_eq.
    + by apply H3.
  - intros id [Hne Hni]%not_elem_of_cons. by rewrite H4, lookup_insert_ne.
Qed.

Lemma detect_spec prev rows now fa :
  let '(rc, ns) := detect_frozen_leases prev rows now fa in
  (∀ id lease, (id, lease) ∈ rc ↔
     (id, lease) ∈ rows ∧ fa ≤ now - frozen_since prev now id lease) ∧
  (∀ id lease since, ns !! id = Some (lease, since) →
     (id, lease) ∈ rows ∧ since = frozen_since prev now id lease) ∧
  (NoDup (rows.*1) → ∀ id lease, (id, lease) ∈ rows →
     ns !! id = Some (lease, frozen_since prev now id lease)).
Proof.
  pose proof (detect_fold prev rows now fa ([], ∅)) as H.
  change (detect_frozen_leases prev rows now fa)
    with (foldl (detect_step prev now fa) ([], ∅) rows).
  destruct (foldl _ _ _) as [rc ns]. destruct H as (H1 & H2 & H3 & _).
  split_and!; [set_solver| |done].
  intros id lease since [Hn|Hn]%H2; [simpl in Hn; by rewrite lookup_empty in Hn|done].
Qed.

Lemma unmoved_snoc h n r id l t :
  unmoved (h ++ [(n, r)]) id l t ↔ (id, l) ∈ r ∧ (t = n ∨ unmoved h id l t).
Proof.
  split.
  - intros (pre & rows & post & E & HF). destruct post as [|x post _] using rev_ind.
    + apply app_inj_tail in E as [-> E]. simplify_eq. apply Forall_inv in HF. auto.
    + rewrite app_comm_cons, app_assoc in E. apply app_inj_tail in E as [-> <-].
      rewrite app_comm_cons in HF. apply Forall_app in HF as [HF Hx%Forall_inv].
      split; [done|]. right. by exists pre, rows, post.
  - intros [Hr [->|(pre & rows & post & -> & HF)]].
    + exists h, r, []. split; [done|]. by constructor.
    + exists pre, rows, (post ++ [(n, r)]). rewrite <- app_assoc. split; [done|].
      rewrite app_comm_cons. apply Forall_app. split; [done|]. by constructor.
Qed.

Lemma unmoved_time h id l t : unmoved h id l t → t ∈ h.*1.
Proof. intros (pre & rows & post & -> & _). rewrite fmap_app. set_solver. Qed.

Lemma frozen_since_spec prev now id lease :
  frozen_since prev now id lease = now ∨
  prev !! id = Some (lease, frozen_since prev now id lease).
Proof.
  unfold frozen_since. destruct (prev !! id) as [[l s]|]; [|by left].
  case_bool_decide; [right; by subst|by left].
Qed.

Lemma sample_sound fa h id lease since :
  sample_after fa h !! id = Some (lease, since) → unmoved h id lease since.
Proof.
  revert lease since. induction h as [|[n r] h IH] using rev_ind; intros lease since.
  { unfold sample_after. simpl. by rewrite lookup_empty. }
  unfold sample_after. rewrite foldl_snoc. fold (sample_after fa h).
  unfold sweep_once. simpl. pose proof (detect_spec (sample_after fa h) r n fa) as D.
  destruct (detect_frozen_leases _ _ _ _) as [rc ns]; simpl. destruct D as (_ & D & _).
  intros [Hr ->]%D. apply unmoved_snoc. split; [done|].
  destruct (frozen_since_spec (sample_after fa h) n id lease) as [E|E]; auto.
Qed.

Lemma sample_complete fa h id lease t :
  Forall (λ s : sweep, NoDup (s.2.*1)) h → StronglySorted Z.le (h.*1) →
  unmoved h id lease t →
  ∃ since, since ≤ t ∧ sample_after fa h !! id = Some (lease, since).
Proof.
  revert t. induction h as [|[n r] h IH] using rev_ind; intros t.
  { intros _ _ (pre & rows & post & E & _). by destruct pre. }
  intros [Hnd Hr%Forall_inv]%Forall_app Hs [Hin Hu]%unmoved_snoc.
  rewrite fmap_app in Hs. apply StronglySorted_app in Hs as (Hle & Hs & _).
  unfold sample_after. rewrite foldl_snoc. fold (sample_after fa h).
  unfold sweep_once. simpl. pose proof (detect_spec (sample_after fa h) r n fa) as D.
  destruct (detect_frozen_leases _ _ _ _) as [rc ns]; simpl. destruct D as (_ & _ & D).
  exists (frozen_since (sample_after fa h) n id lease). split; [|by apply D].
  destruct Hu as [->|(since & Hle' & E)%IH]; [|unfold frozen_since|done..].
  - destruct (frozen_since_spec (sample_after fa h) n id lease) as [E|E]; [lia|].
    apply sample_sound, unmoved_time in E. apply (Hle _ n); set_solver.
  - rewrite E. by rewrite bool_decide_eq_true_2.
Qed.

(** The frozen-lease detector reclaims exactly the dead.  A row is handed
    to the reclaim at a sweep if and only if it was seen running under one and
    the same lease at every sweep of some window that ends now and began at
    least [frozen_after] ago: a claimant that renews its lease between two
    sweeps is never reclaimed, and one that stops is, once the window is full. *)
Lemma frozen_detection_is_exact fa h now rows id lease :
  Forall (λ s : sweep, NoDup (s.2.*1)) (h ++ [(now, rows)]) →
  StronglySorted Z.le ((h ++ [(now, rows)]).*1) →
  (id, lease) ∈ (detect_frozen_leases (sample_after fa h) rows now fa).1 ↔
  ∃ since, unmoved (h ++ [(now, rows)]) id lease since ∧ fa ≤ now - since.
Proof.
  intros Hnd Hs. pose proof (detect_spec (sample_after fa h) rows now fa) as D.
  destruct (detect_frozen_leases _ _ _ _) as [rc ns] eqn:Ed; simpl.
  destruct D as (D1 & D2 & D3). rewrite D1. split.
  - intros [Hin Hfa]. eexists. split; [|exact Hfa]. apply unmoved_snoc. split; [done|].
    destruct (frozen_since_spec (sample_after fa h) now id lease) as [E|E]; [by left|].
    right. by eapply sample_sound.
  - intros (t & Hu & Hfa). pose proof Hu as [Hin _]%unmoved_snoc. split; [done|].
    destruct (sample_complete fa _ id lease t Hnd Hs Hu) as (since & Hle & E).
    unfold sample_after in E. rewrite foldl_snoc in E. fold (sample_after fa h) in E.
    unfold sweep_once in E. simpl in E. rewrite Ed in E. apply D2 in E as [_ <-]. lia.
Qed.
End frozen.

(** The reclaim of a frozen row is a compare-and-swap: it is a no-op when the
    lease has moved, or the row has left [running]. *)
Lemma frozen_cas_miss w id lease :
  (∀ j, j ∈ node_jobs w → job_key j = id → status j = Running → lease_expires_at j ≠ lease) →
  requeue_running_if_lease_frozen id lease w = (Ok 0, w).
Proof.
  intros Hm. unfold requeue_running_if_lease_frozen, mbind, M_bind.
  rewrite resume_where_miss; [done|]. intros j Hj. unfold is_job, has_status, t_eq, t_lift2.
  destruct (bool_decide (job_key j = id)) eqn:E1; [|done].
  destruct (bool_decide (status j = Running)) eqn:E2; [|done]. split_bool. simpl.
  specialize (Hm j Hj E1 E2).
  destruct (lease_expires_at j), lease; simpl; try done.
  apply bool_decide_eq_false_2. congruence.
Qed.

(** ** The over-claim reaper *)

Section victims.
Implicit Types (rows : list claim_row).

(** The victims of an over-claimed box are exactly the rows beyond its
    capacity, and no row whose lease is still renewed is among them while a row
    with a frozen lease (or with none) keeps its slot. *)
Lemma victims_are_the_stalest_excess rows capacity tie :
  let kept := take (Z.to_nat (Z.max capacity 0)) (ordered_rows rows tie) in
  let reaped := drop (Z.to_nat (Z.max capacity 0)) (ordered_rows rows tie) in
  pick_over_claim_victims rows capacity tie = map row_id reaped ∧
  kept ++ reaped ≡ₚ rows ∧
  Z.of_nat (length kept) = Z.min (Z.of_nat (length rows)) (Z.max capacity 0) ∧
  (∀ k v, k ∈ kept → v ∈ reaped →
     in_live (live_floor rows tie) v = true → in_live (live_floor rows tie) k = true).
Proof.
  intros kept reaped. split_and!; [done| | |].
  - unfold kept, reaped. rewrite take_drop. apply sort_by_perm.
  - unfold kept. rewrite length_take. unfold ordered_rows. rewrite sort_by_perm. lia.
  - intros k v Hk Hv Hl. pose proof (sorted_split _ _ _ _ _
      (sort_by_sorted (victim_key (live_floor rows tie)) rows) Hk Hv) as Hle.
    unfold victim_key in Hle. rewrite Hl in Hle.
    destruct (in_live (live_floor rows tie) k); [done|].
    apply key_le_head in Hle. lia.
Qed.

Lemma kept_bound rows capacity tie :
  (count (λ r, negb (bool_decide (row_id r ∈ pick_over_claim_victims rows capacity tie)))
     rows ≤ Z.to_nat (Z.max capacity 0))%nat.
Proof.
  unfold pick_over_claim_victims. set (n := Z.to_nat _).
  set (vs := map row_id (drop n (ordered_rows rows tie))).
  rewrite <- (sort_by_perm (victim_key (live_floor rows tie)) rows) at 1.
  fold (ordered_rows rows tie). rewrite <- (take_drop n (ordered_rows rows tie)) at 1.
  unfold count. rewrite List.filter_app, length_app.
  rewrite (Lfilter_none _ (drop _ _)); simpl.
  - pose proof (filter_length_le (λ r, negb (bool_decide (row_id r ∈ vs)))
      (take n (ordered_rows rows tie))) as Hf. rewrite length_take in Hf. lia.
  - intros r Hr. apply negb_false_iff, bool_decide_eq_true. apply list_elem_of_fmap. eauto.
Qed.
End victims.

Section reaper.
Implicit Types (w : world) (j : node_job).

(** What reaping a list of ids leaves: their running rows resumed, in one pass. *)
Lemma reap_ids_rows ids w :
  db_ok w →
  ∃ out w', reap_ids ids w = (Ok out, w') ∧ db_ok w' ∧ runs w' = runs w ∧
    clock w' = clock w ∧ out ⊆ ids ∧
    node_jobs w' = update_where (λ j, has_status Running (st j) &&
      bool_decide (job_key j ∈ ids)) (resumed w) (node_jobs w).
Proof.
  revert w. induction ids as [|i ids IH]; intros w Hok.
  { eexists [], w. split_and!; try done. symmetry. apply update_where_none.
    intros j _. by rewrite andb_false_r. }
  set (p := λ j, is_job i (has_status Running) j).
  pose proof (resume_where_db_ok p w Hok) as Hok1.
  destruct (IH _ Hok1) as (out & w' & E & Hok' & Hr & Hc & Hsub & Hj).
  unfold p in E, Hr, Hc, Hj.
  eexists (if negb (_ =? 0) then i :: out else out), w'. split_and!.
  - cbn [reap_ids]. unfold requeue_over_claimed_running, mbind, M_bind. simpl in *.
    rewrite E. reflexivity.
  - done.
  - rewrite Hr. by destruct w.
  - rewrite Hc. by destruct w.
  - intros x Hx. case_match; [|right; by apply Hsub].
    apply elem_of_cons in Hx as [->|Hx]; [left|right; by apply Hsub].
  - rewrite Hj, resume_where_rows by done. unfold update_where. rewrite map_map.
    apply map_ext_in. intros j Hin%list_elem_of_In. unfold is_job.
    assert (∀ x, resumed (resume_where (λ j, is_job i (has_status Running) j) w).2 x
              = resumed w x) as Hres
      by (intros x; unfold resumed; destruct w; reflexivity).
    destruct (bool_decide (job_key j = i)) eqn:E1; simpl.
    + split_bool. destruct (has_status Running j) eqn:E2; simpl; [|by rewrite E2].
      rewrite (bool_decide_eq_true_2 (job_key j ∈ i :: ids)) by (rewrite E1; left).
      unfold has_status at 1.
      rewrite (bool_decide_eq_false_2 (_ = Running)) by apply resume_not_running. done.
    + split_bool. destruct (has_status Running j) eqn:E2; simpl; [|done].
      rewrite (bool_decide_ext (job_key j ∈ i :: ids) (job_key j ∈ ids))
        by (rewrite elem_of_cons; naive_solver).
      by rewrite Hres.
Qed.

Lemma boxes_of_spec l seen b : b ∈ boxes_of l seen ↔ b ∈ map box_of l ∧ b ∉ seen.
Proof.
  revert seen. induction l as [|j l IH]; intros seen; simpl; [set_solver|].
  case_bool_decide as Hb; rewrite ?elem_of_cons, IH; [naive_solver|].
  rewrite not_elem_of_cons. destruct (decide (b = box_of j)) as [->|Hne]; naive_solver.
Qed.

(** The ids a sweep over [q] reaps. *)
Definition victims_of (w : world) (q : string) : list string :=
  let l := List.filter (running_on q) (node_jobs w) in
  concat (map (box_victims w q l) (boxes_of l [])).

Lemma box_victims_rows w q l b i :
  i ∈ box_victims w q l b → ∃ j, j ∈ l ∧ box_of j = b ∧ jid j = i.
Proof.
  unfold box_victims. destruct (capacity_of w q b); [|set_solver].
  case_match; [set_solver|].
  intros (r & -> & Hr%elem_of_drop_elem)%list_elem_of_fmap.
  unfold ordered_rows in Hr. rewrite sort_by_perm in Hr.
  apply list_elem_of_fmap in Hr as (j & -> & [Hj Hb]%elem_of_Lfilter). split_bool. eauto.
Qed.

Lemma victims_of_box w q j :
  db_ok w → j ∈ node_jobs w → job_key j ∈ victims_of w q →
  job_key j ∈ box_victims w q (List.filter (running_on q) (node_jobs w)) (box_of j).
Proof.
  intros Hok Hj (b & Hi & Hb)%elem_of_concat_map.
  destruct (box_victims_rows _ _ _ _ _ Hi) as (j' & [Hj' _]%elem_of_Lfilter & <- & E).
  assert (j' = j) as -> by by apply (job_by_id_unique w). done.
Qed.

Lemma in_victims_of w q j i :
  j ∈ node_jobs w → running_on q j = true →
  i ∈ box_victims w q (List.filter (running_on q) (node_jobs w)) (box_of j) →
  i ∈ victims_of w q.
Proof.
  intros Hj Hr Hi. apply elem_of_concat_map. exists (box_of j). split; [done|].
  apply boxes_of_spec. split; [|set_solver]. apply list_elem_of_fmap. exists j.
  split; [done|]. by apply elem_of_Lfilter.
Qed.

(** The rows of box [b] on [q], and how many they are. *)
Definition runs_on_box (q : string) (b : option string * string) (j : node_job) : bool :=
  running_on q j && bool_decide (box_of j = b).
Definition load (w : world) (q : string) (b : option string * string) : Z :=
  Z.of_nat (count (runs_on_box q b) (node_jobs w)).

Lemma group_count P w q b :
  count P (group_of (List.filter (running_on q) (node_jobs w)) b) =
  count (λ j, runs_on_box q b j && P (row_of_job j)) (node_jobs w).
Proof.
  unfold group_of. rewrite count_map.
  fold (count (λ j, P (row_of_job j)) (List.filter (λ j, bool_decide (box_of j = b))
    (List.filter (running_on q) (node_jobs w)))).
  rewrite !count_filter. apply count_ext. intros j. unfold runs_on_box. by rewrite andb_assoc.
Qed.

Lemma load_group w q b :
  load w q b = Z.of_nat (length (group_of (List.filter (running_on q) (node_jobs w)) b)).
Proof.
  rewrite <- (count_true (group_of _ b)), group_count. unfold load. f_equal.
  apply count_ext. intros j. by rewrite andb_true_r.
Qed.

(** The rows of a box that its victims leave. *)
Definition spared (w : world) (q : string) (b : option string * string) (j : node_job) : bool :=
  runs_on_box q b j && negb (bool_decide (job_key j ∈
    box_victims w q (List.filter (running_on q) (node_jobs w)) b)).

Lemma box_bound w q b cap :
  capacity_of w q b = Some cap → Z.of_nat (count (spared w q b) (node_jobs w)) ≤ Z.max cap 0.
Proof.
  intros Hcap. unfold spared, box_victims. rewrite Hcap.
  destruct (Z.leb_spec (Z.of_nat (length (group_of (List.filter (running_on q) (node_jobs w)) b)))
              cap) as [Hle|Hgt].
  - rewrite <- load_group in Hle. unfold load in Hle.
    assert (count (λ j, runs_on_box q b j && negb (bool_decide (job_key j ∈ [])))
              (node_jobs w) ≤ count (runs_on_box q b) (node_jobs w))%nat
      by (apply count_mono; intros j _ Hp; by split_bool). lia.
  - pose proof (kept_bound (group_of (List.filter (running_on q) (node_jobs w)) b) cap
      (seconds_us 30)) as Hk.
    rewrite group_count in Hk. etransitivity; [apply inj_le, Hk|lia].
Qed.

(** A row still running on the box after the sweep was spared. *)
Lemma survivor_on_box w q b j :
  j ∈ node_jobs w →
  runs_on_box q b (if has_status Running (st j) && bool_decide (job_key j ∈ victims_of w q)
                   then resumed w j else j) = true →
  spared w q b j = true.
Proof.
  intros Hj. destruct (has_status Running (st j)) eqn:Hs; simpl.
  - case_bool_decide as Hv; intros Hp.
    + exfalso. unfold runs_on_box, running_on, has_status in Hp. split_bool.
      match goal with Hr : status _ = Running |- _ => exact (resume_not_running _ _ _ Hr) end.
    + unfold spared. rewrite Hp. simpl. apply negb_true_iff, bool_decide_eq_false.
      intros Hb. apply Hv. unfold runs_on_box in Hp. split_bool. subst b.
      by eapply in_victims_of.
  - unfold runs_on_box, running_on. by rewrite Hs.
Qed.

(** One pass of the reaper brings every box whose capacity is known down to
    it, and touches no row of a box that is within its capacity or has no
    heartbeat. *)
Lemma reap_brings_boxes_to_capacity q w :
  db_ok w →
  ∃ out w', reap_over_claimed_boxes q w = (Ok out, w') ∧ db_ok w' ∧
    (∀ b cap, capacity_of w q b = Some cap → load w' q b ≤ Z.max cap 0) ∧
    (∀ j, j ∈ node_jobs w →
       match capacity_of w q (box_of j) with
       | Some cap => load w q (box_of j) ≤ cap
       | None => True
       end → j ∈ node_jobs w').
Proof.
  intros Hok. destruct (reap_ids_rows (victims_of w q) w Hok)
    as (out & w' & E & Hok' & Hr & Hc & _ & Hj).
  exists out, w'. split_and!; [done..| |].
  - intros b cap Hcap. unfold load at 1. rewrite Hj.
    etransitivity; [|apply (box_bound w q b cap Hcap)].
    apply inj_le. unfold update_where. rewrite count_map. fold (count (λ j,
      runs_on_box q b (if has_status Running j && bool_decide (job_key j ∈ victims_of w q)
                       then resumed w j else j)) (node_jobs w)).
    apply count_mono. intros j Hin. apply survivor_on_box; done.
  - intros j Hin Hcap. rewrite Hj. apply elem_of_update_where. exists j. split; [done|].
    rewrite (bool_decide_eq_false_2 (job_key j ∈ _)); [by rewrite andb_false_r|].
    intros Hv%victims_of_box; [|done..]. unfold box_victims in Hv.
    destruct (capacity_of w q (box_of j)) as [cap|]; [|set_solver].
    rewrite load_group in Hcap. rewrite (proj2 (Z.leb_le _ _)) in Hv by done. set_solver.
Qed.
End reaper.

(** ** Requeues of a worker's rows *)

Section requeue_props.
Context `{QueueConfig}.
Implicit Types (w : world) (j : node_job).

Lemma release_front_spec j : at_the_front j (upd release_front j).
Proof. destruct j as [sp []]. unfold at_the_front. simpl. split_and!; try done. lia. Qed.

Lemma release_owned_rows host q proj pj pi w :
  q ∉ config_ingest_queues →
  release_owned host q proj pj pi w =
    (Ok (Z.of_nat (count (λ j, owned host q proj j && pj j) (node_jobs w))),
     on_jobs (update_where (λ j, owned host q proj j && pj j) (upd release_front)) w).
Proof. intros Hq. unfold release_owned. by rewrite bool_decide_eq_false_2. Qed.

Lemma release_owned_miss host q proj pj pi w :
  (∀ j, j ∈ node_jobs w → owned host q proj j = true → pj j = false) →
  (∀ i, i ∈ ingest_jobs w → owned_ingest host q proj i = true → pi i = false) →
  release_owned host q proj pj pi w = (Ok 0, w).
Proof.
  intros Hj Hi. unfold release_owned. case_bool_decide.
  - assert (∀ i, i ∈ ingest_jobs w → owned_ingest host q proj i && pi i = false) as Hn.
    { intros i Hin. destruct (owned_ingest host q proj i) eqn:E; [|done]. by apply Hi. }
    rewrite (proj2 (count_zero _ _) Hn). f_equal. destruct w; unfold on_ingest; simpl in *.
    f_equal. by apply update_where_none.
  - assert (∀ j, j ∈ node_jobs w → owned host q proj j && pj j = false) as Hn.
    { intros j Hin. destruct (owned host q proj j) eqn:E; [|done]. by apply Hj. }
    rewrite (proj2 (count_zero _ _) Hn). f_equal. destruct w; unfold on_jobs; simpl in *.
    f_equal. by apply update_where_none.
Qed.

(** What a shutdown requeue does to the rows *)
Lemma requeue_for_worker_spec host q proj w n w' :
  q ∉ config_ingest_queues →
  requeue_running_for_worker host q proj w = (Ok n, w') →
  (∀ k j, node_jobs w !! k = Some j → ∃ j', node_jobs w' !! k = Some j' ∧
     if owned host q (_project proj) j then at_the_front j j' else j' = j) ∧
  (∀ j, j ∈ node_jobs w' → owned host q (_project proj) j = false).
Proof.
  intros Hq. unfold requeue_running_for_worker. rewrite release_owned_rows by done.
  intros [= <- <-]. rewrite node_jobs_on_jobs. split.
  - intros k j Hk. eexists. split; [by apply list_lookup_fmap_Some; exists j|].
    rewrite andb_true_r. destruct (owned _ _ _ j); [apply release_front_spec|done].
  - intros j (j0 & _ & ->)%elem_of_update_where. rewrite andb_true_r.
    destruct (owned host q _ j0) eqn:E; [|done]. by destruct j0 as [? []].
Qed.

(** An ingest row as it is released: queued, unowned, in the front band; [ingest_jobs] has no
    run-next flag *)
Definition in_the_front_band (old new : ingest_job) : Prop :=
  istatus new = Queued ∧ istarted_at new = None ∧ iclaimed_by new = None ∧ ilease_expires_at new = None ∧
  ipriority new ≤ 10 ∧ ipriority new ≤ ipriority old ∧
  iid new = iid old ∧ task_name new = task_name old ∧ iqueue new = iqueue old ∧ args new = args old ∧
  reason new = reason old ∧ iproject new = iproject old ∧ ifinished_at new = ifinished_at old ∧
  iresult new = iresult old ∧ ierror new = ierror old ∧ iseconds new = iseconds old ∧ icreated_at new = icreated_at old.
Lemma release_ingest_spec i : in_the_front_band i (release_ingest i).
Proof. destruct i. unfold in_the_front_band. simpl. split_and!; try done; lia. Qed.
Lemma release_owned_ingest_rows host q proj pj pi w :
  q ∈ config_ingest_queues →
  release_owned host q proj pj pi w =
    (Ok (Z.of_nat (count (λ i, owned_ingest host q proj i && pi i) (ingest_jobs w))),
     on_ingest (update_where (λ i, owned_ingest host q proj i && pi i) release_ingest) w).
Proof. intros Hq. unfold release_owned. by rewrite bool_decide_eq_true_2. Qed.
(** The same on the table of an ingest lane *)
Lemma requeue_for_ingest_worker_spec host q proj w n w' :
  q ∈ config_ingest_queues →
  requeue_running_for_worker host q proj w = (Ok n, w') →
  (∀ k i, ingest_jobs w !! k = Some i → ∃ i', ingest_jobs w' !! k = Some i' ∧
     if owned_ingest host q (_project proj) i then in_the_front_band i i' else i' = i) ∧
  (∀ i, i ∈ ingest_jobs w' → owned_ingest host q (_project proj) i = false).
Proof.
  intros Hq. unfold requeue_running_for_worker. rewrite release_owned_ingest_rows by done. intros [= <- <-].
  assert (∀ f, ingest_jobs (on_ingest f w) = f (ingest_jobs w)) as -> by (by destruct w). split.
  - intros k i Hk. eexists. split; [by apply list_lookup_fmap_Some; exists i|].
    rewrite andb_true_r. destruct (owned_ingest _ _ _ i); [apply release_ingest_spec|done].
  - intros i (i0 & _ & ->)%elem_of_update_where. rewrite andb_true_r.
    destruct (owned_ingest host q _ i0) eqn:E; [|done]. by destruct i0.
Qed.

(** C12: a worker's requeues are fenced by its identity, on either table.  A shutdown requeue
    works on the table its lane draws from and leaves the other one alone; there it puts
    every running row this worker owns at the front of the queue (on a DAG lane with the
    run-next flag and the front band; on an ingest lane, whose table has no such flag, in the
    front band), leaves every other row as it is and none running under its name; the
    stale-worker requeue does nothing while a heartbeat of that name is fresh; and the
    requeue of one job does nothing once the row carries another claim (another
    [started_at]), another owner or another status. *)
Theorem worker_requeues_are_fenced host q proj w :
  (∃ n w', requeue_running_for_worker host q proj w = (Ok n, w') ∧
     if bool_decide (q ∈ config_ingest_queues)
     then node_jobs w' = node_jobs w ∧
       (∀ k i, ingest_jobs w !! k = Some i → ∃ i', ingest_jobs w' !! k = Some i' ∧
          if owned_ingest host q (_project proj) i then in_the_front_band i i' else i' = i) ∧
       (∀ i, i ∈ ingest_jobs w' → owned_ingest host q (_project proj) i = false)
     else ingest_jobs w' = ingest_jobs w ∧
       (∀ k j, node_jobs w !! k = Some j → ∃ j', node_jobs w' !! k = Some j' ∧
          if owned host q (_project proj) j then at_the_front j j' else j' = j) ∧
       (∀ j, j ∈ node_jobs w' → owned host q (_project proj) j = false)) ∧
  (∀ s, beats w host q (_project proj) (Z.max 1 (default STALE_WORKER_AFTER_S s)) = true →
     requeue_running_if_worker_stale host q proj s w = (Ok 0, w)) ∧
  (∀ id seen,
     (if bool_decide (q ∈ config_ingest_queues)
      then ∀ i, i ∈ ingest_jobs w → owned_ingest host q (_project proj) i = true → iid i = id → istarted_at i ≠ Some seen
      else ∀ j, j ∈ node_jobs w → owned host q (_project proj) j = true → job_key j = id → started_at j ≠ Some seen) →
     requeue_running_job id host q proj (Some seen) w = (Ok 0, w)).
Proof.
  split_and!.
  - case_bool_decide as Hq; unfold requeue_running_for_worker;
      [rewrite release_owned_ingest_rows by done|rewrite release_owned_rows by done];
      (eexists _, _; split; [reflexivity|]; split; [by destruct w|]).
    + eapply requeue_for_ingest_worker_spec; [done|]. unfold requeue_running_for_worker. by rewrite release_owned_ingest_rows.
    + eapply requeue_for_worker_spec; [done|]. unfold requeue_running_for_worker. by rewrite release_owned_rows.
  - intros s Hb. apply release_owned_miss; intros; by rewrite Hb.
  - intros id seen Hne. unfold requeue_running_job, release_owned. case_bool_decide.
    + assert (∀ i, i ∈ ingest_jobs w → owned_ingest host q (_project proj) i &&
        (bool_decide (iid i = id) && same_claim (Some seen) (istarted_at i)) = false) as Hn.
      { intros i Hi. destruct (owned_ingest host q _ i) eqn:E; [|done]. simpl.
        case_bool_decide as Hk; [|done]. apply bool_decide_eq_false_2. auto. }
      rewrite (proj2 (count_zero _ _) Hn). f_equal. destruct w; unfold on_ingest; simpl in *.
      f_equal. by apply update_where_none.
    + assert (∀ j, j ∈ node_jobs w → owned host q (_project proj) j &&
        (bool_decide (job_key j = id) && same_claim (Some seen) (started_at j)) = false) as Hn.
      { intros j Hj. destruct (owned host q _ j) eqn:E; [|done]. simpl.
        case_bool_decide as Hk; [|done]. apply bool_decide_eq_false_2. auto. }
      rewrite (proj2 (count_zero _ _) Hn). f_equal. destruct w; unfold on_jobs; simpl in *.
      f_equal. by apply update_where_none.
Qed.
End requeue_props.

(** * Witnesses *)

Module ReclaimDemo.
(** One cpu row claimed by host h under a 600 s lease, and the clock moved past it. *)
Definition claimed : world :=
  (@claim_next_cpu_job Demo.cfg 0 (Some "h") 600 0 None None None None [] Demo.one).2.
Definition lapsed : world := set_clock 900000000000 claimed.
Definition of_queued_run : world := on_runs (map (set_rstatus r_queued)) lapsed.
Definition job : node_job := Demo.first claimed.

Lemma lapsed_ok : db_ok lapsed.
Proof. apply (db_ok_same Demo.one); [reflexivity..|apply Demo.one_ok]. Qed.
Lemma of_queued_run_ok : db_ok of_queued_run.
Proof. apply (db_ok_same Demo.one); [reflexivity..|apply Demo.one_ok]. Qed.
Lemma lapsed_shaped : jobs_shaped lapsed.
Proof.
  intros j Hj. apply list_elem_of_singleton in Hj as ->. split; [done|].
  intros _. split; eexists; reflexivity.
Qed.
Lemma claimed_ok : db_ok claimed.
Proof. apply (db_ok_same Demo.one); [reflexivity..|apply Demo.one_ok]. Qed.
(** A box with one slot that runs two rows. *)
Definition over : world :=
  set_heartbeats [ClaimDemo.hb "host-a" 1 None]
    (on_jobs (map (upd (λ s, s |> set_status Running |> set_claimed_by (Some "host-a"))))
      ClaimDemo.two).
Lemma over_ok : db_ok over.
Proof. apply (db_ok_same ClaimDemo.two); [reflexivity..|apply ClaimDemo.two_ok]. Qed.
End ReclaimDemo.

Lemma reclaim_expired_leases_exact_witness :
  ∃ rows w', reclaim_expired_leases ReclaimDemo.lapsed = (Ok rows, w') ∧
    length rows = 1%nat ∧ reclaim_expired_leases w' = (Ok [], w').
Proof.
  eexists _, _. split; [reflexivity|]. split; [reflexivity|].
  eapply (reclaim_expired_leases_exact ReclaimDemo.lapsed);
    [exact ReclaimDemo.lapsed_ok|exact ReclaimDemo.lapsed_shaped|reflexivity].
Defined.

Lemma claimable_row_is_cancelled_on_lapse_witness :
  ∃ j' : node_job, j' ∈ node_jobs (reclaim_expired_leases ReclaimDemo.of_queued_run).2 ∧
    status j' = Cancelled.
Proof.
  destruct (claimable_row_is_cancelled_on_lapse ReclaimDemo.of_queued_run ReclaimDemo.job
    (set_rstatus r_queued Demo.run1)) as (_ & j' & Hj & Hc).
  - exact ReclaimDemo.of_queued_run_ok.
  - left.
  - reflexivity.
  - left.
  - reflexivity.
  - left. reflexivity.
  - exists j'. split; [exact Hj|]. apply Hc.
Defined.

Lemma frozen_detection_is_exact_witness :
  ("j", Some 5) ∈ (detect_frozen_leases (sample_after 35 [(0, [("j", Some 5)])])
                     [("j", Some 5)] 40 35).1.
Proof.
  apply (frozen_detection_is_exact 35 [(0, [("j", Some 5)])] 40 [("j", Some 5)] "j" (Some 5)).
  - repeat constructor; simpl; set_solver.
  - repeat constructor; simpl; lia.
  - exists 0. split; [|lia]. exists [], [("j", Some 5)], [(40, [("j", Some 5)])].
    split; [reflexivity|]. repeat constructor; simpl; left.
Defined.

Lemma reap_brings_boxes_to_capacity_witness :
  load ReclaimDemo.over "gpu" (Some "host-a", "") = 2 ∧
  ∃ w', (reap_over_claimed_boxes "gpu" ReclaimDemo.over).2 = w' ∧
    load w' "gpu" (Some "host-a", "") ≤ 1.
Proof.
  split; [reflexivity|].
  destruct (reap_brings_boxes_to_capacity "gpu" ReclaimDemo.over ReclaimDemo.over_ok)
    as (out & w' & E & _ & Hc & _).
  exists w'. split; [rewrite E; reflexivity|]. apply (Hc _ 1). reflexivity.
Defined.

Lemma worker_requeues_are_fenced_witness :
  @requeue_running_job Demo.cfg (uuid4 0) "h" "cpu" None (Some 7) ReclaimDemo.claimed
    = (Ok 0, ReclaimDemo.claimed).
Proof.
  apply (@worker_requeues_are_fenced Demo.cfg "h" "cpu" None ReclaimDemo.claimed).
  rewrite bool_decide_eq_false_2 by by apply (bool_decide_unpack _).
  intros j Hj _ _. apply list_elem_of_singleton in Hj as ->. discriminate.
Defined.
