(* ===== verification/RunStore.v ===== *)
(** * The run table ([queue_workflows/run_store.py])

    Reads and writes of [workflow_runs]: the column whitelist of [update_run],
    the queued-to-running flip, the cascade of a delete, the startup resume, and
    the claim of step-mode runs. *)

From S2P Require Import Prelude.
From S2P Require Import Json.
From S2P Require Import Schema.
From S2P Require Import NodeQueue.
Local Open Scope string_scope.
Local Open Scope list_scope.
Local Open Scope Z_scope.

Definition get_run (run_id : string) : M (option run) := gets (λ w, run_of w run_id).

(** [ORDER BY priority ASC, queued_at ASC NULLS LAST] *)
Definition nulls_last (t : option Z) : list Z := [b2z (is_null t); default 0 t].

Definition list_queued_node_run_ids `{QueueConfig} (proj : option string) (limit : nat) :
    M (list string) :=
  gets (λ w, map rid (take limit (sort_by (λ r, rpriority r :: nulls_last (queued_at r))
    (List.filter (λ r, String.eqb (mode r) "node" && bool_decide (rstatus r = r_queued) &&
                       String.eqb (rproject r) (_project proj)) (runs w))))).

(** A live node-job of a run: [status IN ('queued', 'running', 'awaiting_input')]. *)
Definition live_status (s : node_status) : bool :=
  bool_decide (s ∈ [Queued; Running; AwaitingInput]).
Definition has_live_job (w : world) (r : run) : bool :=
  exists_row (λ j : node_job, bool_decide (run_id j = rid r) && live_status (status j))
    (node_jobs w).

Definition list_stuck_node_run_ids `{QueueConfig} (proj : option string) : M (list string) :=
  gets (λ w, map rid (List.filter (λ r, String.eqb (mode r) "node" &&
    bool_decide (rstatus r ∈ [r_queued; r_running]) && String.eqb (rproject r) (_project proj) &&
    negb (has_live_job w r)) (runs w))).

(** The keyword arguments of [update_run]: a column of the whitelist and its new
    value, or any other name. *)
Inductive run_field :=
  | f_status (s : run_status)
  | f_priority (p : Z)
  | f_context (c : option dict)
  | f_error (e : option string)
  | f_out_dir (d : option string)
  | f_resume_count (n : Z)
  | f_mode (m : string)
  | f_queued_at (t : option Z)
  | f_started_at (t : option Z)
  | f_finished_at (t : option Z)
  (** [current_step_id], [progress_pct], [steps_done], [input_spec] and
      [parcel_id]: writable columns no modelled function reads *)
  | f_opaque (column : string)
  | f_unknown (column : string).

Definition set_field (f : run_field) (r : run) : run :=
  match f with
  | f_status s => set_rstatus s r
  | f_priority p => set_rpriority p r
  | f_context c => set_context (default [] c) r
  | f_error e => set_rerror e r
  | f_out_dir d => set_out_dir d r
  | f_resume_count n => set_resume_count n r
  | f_mode m => set_mode m r
  | f_queued_at t => set_queued_at t r
  | f_started_at t => set_rstarted_at t r
  | f_finished_at t => set_rfinished_at t r
  | f_opaque _ | f_unknown _ => r
  end.
Definition updatable (f : run_field) : bool :=
  match f with f_unknown _ => false | _ => true end.

(** The column types: [priority] and [resume_count] are smallint, [mode] has a
    CHECK. *)
Definition mode_ok (m : string) : bool := bool_decide (m ∈ ["step"; "node"]).
Definition value_ok (f : run_field) : bool :=
  match f with
  | f_priority p => in_smallint p
  | f_resume_count n => in_smallint n
  | f_mode m => mode_ok m
  | _ => true
  end.
Definition bad_column : exc := OtherError "NumericValueOutOfRange or CheckViolation".

(** [UPDATE workflow_runs .. WHERE id = %s AND guard]: the updated row, if any *)
Definition update_run_where (run_id : string) (guard : run → bool) (f : Z → run → run) :
    M (option run) := λ w,
  let p := λ r, bool_decide (rid r = run_id) && guard r in
  (Ok (head (returning p (f (clock w)) (runs w))), on_runs (update_where p (f (clock w))) w).

Definition update_run (run_id : string) (fields : list run_field) : M (option run) := λ w,
  match fields with
  | [] => get_run run_id w
  | _ =>
      if negb (forallb updatable fields) then raise (ValueError "unknown columns") w
      else if negb (forallb value_ok fields) && is_not_null (run_of w run_id)
      then raise bad_column w
      else update_run_where run_id (λ _, true) (λ now r,
             set_updated_at now (foldl (λ r f, set_field f r) r fields)) w
  end.

Definition mark_run_running_if_expanded (run_id : string) : M bool := λ w,
  let expanded := λ r, exists_row (λ j : node_job, bool_decide (Schema.run_id j = rid r)) (node_jobs w) in
  let m := update_run_where run_id (λ r, bool_decide (rstatus r = r_queued) && expanded r)
             (λ now r, r |> set_rstatus r_running |> set_updated_at now) in
  (is_not_null <$> m) w.

(** [INSERT INTO workflow_runs] *)
Definition insert_run `{QueueConfig} (run_id workflow : string) (dir : option string)
    (s : run_status) (prio : Z) (md : string) (ctx : option dict) (proj : option string) :
    M run := λ w,
  let r := mkRun run_id workflow s prio md (default [] ctx) dir (_project proj) 0
             (if decide (s = r_queued) then Some (clock w) else None) None None None (clock w) in
  if negb (in_smallint prio && mode_ok md) then (Raise bad_column, w)
  else if exists_row (λ x, bool_decide (rid x = run_id)) (runs w)
  then (Raise (IntegrityError "workflow_runs_pkey"), w)
  else (Ok r, on_runs (λ t, t ++ [r]) w).

(** [DELETE FROM workflow_runs], with the ON DELETE CASCADE of its children. *)
Definition delete_run (run_id : string) : M () := modify (λ w,
  w |> on_runs (List.filter (λ r, negb (bool_decide (rid r = run_id))))
    |> on_jobs (List.filter (λ j : node_job, negb (bool_decide (Schema.run_id j = run_id))))
    |> on_events (List.filter (λ e, negb (bool_decide (erun_id e = run_id))))
    |> (λ w, set_node_events
              (List.filter (λ e, negb (bool_decide (nrun_id e = run_id))) (node_events w)) w)).

Definition reenqueue_running_for_resume `{QueueConfig} (proj : option string) : M Z := λ w,
  let p := λ r, bool_decide (rstatus r = r_running) && String.eqb (rproject r) (_project proj) &&
                negb (has_live_job w r) in
  let f := λ r, r |> set_rstatus r_queued |> set_rpriority 10
                  |> set_resume_count (resume_count r + 1)
                  |> set_queued_at (Some (clock w)) |> set_updated_at (clock w) in
  if forallb (λ r, in_smallint (resume_count r + 1)) (List.filter p (runs w))
  then (Ok (Z.of_nat (count p (runs w))), on_runs (update_where p f) w)
  else (Raise bad_column, w).

(** [claim_next_queued]; [locked] are the rows another claim holds. *)
Definition claim_next_queued (locked : list string) : M (option run) := λ w,
  match first_by (λ r, rpriority r :: nulls_last (queued_at r))
          (List.filter (λ r, bool_decide (rstatus r = r_queued) && String.eqb (mode r) "step" &&
                             negb (bool_decide (rid r ∈ locked))) (runs w)) with
  | None => (Ok None, w)
  | Some r0 =>
      update_run_where (rid r0) (λ _, true) (λ now r,
        r |> set_rstatus r_running |> set_rstarted_at (coalesce (rstarted_at r) (Some now))
          |> set_updated_at now) w
  end.

(** * Lemmas *)

Section run_lemmas.
Implicit Types (w : world) (r : run).

Lemma runs_on_runs g w : runs (on_runs g w) = g (runs w).
Proof. by destruct w. Qed.
Lemma node_jobs_on_runs g w : node_jobs (on_runs g w) = node_jobs w.
Proof. by destruct w. Qed.
Lemma clock_on_runs g w : clock (on_runs g w) = clock w.
Proof. by destruct w. Qed.

Lemma run_of_Some w i r : db_ok w → run_of w i = Some r ↔ r ∈ runs w ∧ rid r = i.
Proof.
  intros Hok. unfold run_of. split.
  - intros [Hin E]%find_some. split_bool. split; [by apply list_elem_of_In|done].
  - intros [Hin Hi]. destruct (List.find _ _) as [r'|] eqn:E.
    + apply find_some in E as [Hin' E]. split_bool. apply list_elem_of_In in Hin'.
      f_equal. apply (run_by_id_unique w); congruence.
    + apply list_elem_of_In in Hin. eapply find_none in E; [|done].
      by rewrite bool_decide_eq_true_2 in E.
Qed.

(** What an update by id does to the row it names, and to the others. *)
Lemma run_of_update (p : run → bool) (f : run → run) w i :
  (∀ r, rid (f r) = rid r) →
  run_of (on_runs (update_where p f) w) i = (λ r, if p r then f r else r) <$> run_of w i.
Proof.
  intros Hf. unfold run_of. rewrite runs_on_runs. induction (runs w) as [|r l IH]; [done|].
  simpl. assert (rid (if p r then f r else r) = rid r) as -> by (destruct (p r); auto).
  by destruct (bool_decide (rid r = i)).
Qed.

(** An update of run rows keeps the schema constraints. *)
Lemma db_ok_on_runs (p : run → bool) (f : run → run) w :
  (∀ r, rid (f r) = rid r) → db_ok w → db_ok (on_runs (update_where p f) w).
Proof.
  intros Hf. apply db_ok_same; [by destruct w| |by destruct w].
  rewrite runs_on_runs. by apply update_where_map.
Qed.

Lemma set_fields_rid fields r : rid (foldl (λ r f, set_field f r) r fields) = rid r.
Proof.
  revert r. induction fields as [|f fields IH]; intros r; [done|]. simpl.
  rewrite IH. by destruct f, r.
Qed.

Lemma jobs_of_run_on_runs g w i : jobs_of_run (on_runs g w) i = jobs_of_run w i.
Proof. by destruct w. Qed.

Lemma on_runs_id g w : g (runs w) = runs w → on_runs g w = w.
Proof. intros E. destruct w; unfold on_runs; simpl in *. by rewrite E. Qed.

(** A second flip finds the run running. *)
Lemma mark_running_idemp i w :
  let w' := (mark_run_running_if_expanded i w).2 in
  (mark_run_running_if_expanded i w').2 = w'.
Proof.
  simpl. apply on_runs_id. apply update_where_none. rewrite runs_on_runs.
  intros r (r0 & _ & ->)%elem_of_update_where. rewrite node_jobs_on_runs.
  destruct (bool_decide (rid r0 = i)) eqn:Ei; simpl; [|by rewrite Ei].
  destruct (bool_decide (rstatus r0 = r_queued)) eqn:Eq; simpl; [|by rewrite Eq, andb_false_r].
  destruct (exists_row _ _) eqn:Ex; simpl.
  - destruct r0; simpl. by rewrite andb_false_r.
  - by rewrite Ex, !andb_false_r.
Qed.
End run_lemmas.

#[export] Hint Rewrite runs_on_runs node_jobs_on_runs clock_on_runs jobs_of_run_on_runs : engine.
