(* ===== verification/Workflow.v ===== *)
(** * Workflow definitions and their expansion ([queue_workflows/dispatcher.py])

    The shape of a workflow and of a pipeline schema, the expansion of a
    workflow into its node DAG ([_nodes_of]), the routing of a node, and the
    context its references resolve against. *)

From S2P Require Import Prelude.
From S2P Require Import Json.
From S2P Require Import Refs.
From S2P Require Import Schema.
From S2P Require Import NodeQueue.
Local Open Scope string_scope.
Local Open Scope list_scope.
Local Open Scope Z_scope.

(** ** What a host defines *)

(** An entry of a schema node's [inputs]; an absent key is the empty string. *)
Record schema_input := mkInput { i_from : string; i_name : string }.

(** A node of a pipeline schema.  Keys whose values the engine resolves or
    validates itself are JSON; an absent key is [JNull] or None. *)
Record schema_node := mkSchemaNode {
  sn_id : string;
  sn_node : option string;
  sn_depends_on : list string;
  sn_gpu : bool;
  sn_model : option string;
  sn_inputs : list schema_input;
  sn_skip_if : json;
  sn_avoid_box : option (list string);
  sn_force_box : option (list string);
  sn_server_types : option (list string);
  sn_required_models : option (list json);
  sn_download : bool;
  sn_dedup_key : json;
  sn_cpu_slots : json;
  sn_context_length : json;
}.

(** A step of a workflow; [s_extra] has the keys only input widgets read. *)
Record step := mkStep {
  s_id : string;
  s_kind : string;
  s_widget : option string;
  s_target : option string;
  s_pipeline : string;
  s_inputs : dict;
  s_depends_on : list string;
  s_skip_if : json;
  s_extra : dict;
}.
Record workflow := mkWorkflow { steps : list step }.

(** What the dispatcher reads of the engine configuration: the injected loaders
    (None when the host set none), the reference resolver, and the modules that
    may run on the GPU without a declared model; and of Python and the machine:
    [ast.literal_eval] (None when it raises), the scan of a run's output
    directory (the files of each top-level directory, empty when it is not a
    directory), [Path.is_file], and the text of a timestamp. *)
Class DispatchConfig := {
  config_workflow_loader : option (string → result workflow);
  config_pipeline_schema_loader : option (string → result (list schema_node));
  config_resolve_ref : json → json → result json;
  config_vlm_pool_node_modules : list string;
  config_gpu_self_load_node_modules : list string;
  literal_eval : string → option json;
  step_files : string → list (string * json);
  is_file : string → bool;
  isoformat : Z → string;
}.

(** A node of the expanded DAG. *)
Record node := mkNode {
  n_id : string;
  n_input : bool;
  n_widget : option string;
  n_target : option string;
  n_node : string;
  n_depends_on : list string;
  n_gpu : bool;
  n_model : option string;
  n_inputs : dict;
  n_pipeline_name : option string;
  n_skip_if : json;
  n_avoid_box : option (list string);
  n_force_box : option (list string);
  n_server_types : option (list string);
  n_required_models : option (list json);
  n_download : bool;
  n_dedup_key : json;
  n_cpu_slots : json;
  n_context_length : json;
}.

(** [x or None] on a string *)
Definition nonempty (x : option string) : option string :=
  match x with Some s => if PyStr.truthy s then Some s else None | None => None end.
Definition json_of_opt (x : option string) : json :=
  match x with Some s => JStr s | None => JNull end.

Section workflow.
Context `{PyEnv} `{DispatchConfig}.

Definition _load_workflow (name : string) : result workflow :=
  match config_workflow_loader with
  | None => Raise (RuntimeError "no workflow loader configured")
  | Some loader => loader name
  end.
Definition _pipeline_schema (name : string) : result (list schema_node) :=
  match config_pipeline_schema_loader with
  | None => Raise (RuntimeError "no pipeline-schema loader configured")
  | Some loader => loader name
  end.
Definition _resolve_ref (value : json) (context : dict) : result json :=
  config_resolve_ref value (JObj context).

(** ** [_resolve_input_ref] *)

(** The group of a full match of [^pre(.+)\)$]: the dot stops at a newline,
    and the dollar also matches before a final one. *)
Definition newline : string := String "010" EmptyString.
Fixpoint unparen (s : string) : option string :=
  match s with
  | EmptyString => None
  | String c r =>
      if Ascii.eqb c ")" && (String.eqb r "" || String.eqb r newline) then Some ""
      else if Ascii.eqb c "010" then None
      else String c <$> unparen r
  end.
Definition call_arg (pre src : string) : option string :=
  if PyStr.startswith pre src then
    match unparen (PyStr.removeprefix pre src) with
    | Some "" | None => None
    | Some m => Some (PyStr.strip m)
    end
  else None.

Definition _resolve_input_ref (src step_id : string) (step_inputs : dict)
    (run_out_dir : option string) : json :=
  match call_arg "pipeline._implicit(" src with
  | Some raw => default (JStr raw) (literal_eval raw)
  | None =>
      match call_arg "pipeline._siblings(" src with
      | Some raw =>
          match literal_eval raw with
          | Some (JArr ids) =>
              match nonempty run_out_dir with
              | None => JArr ids
              | Some dir =>
                  JArr (map (λ i, JStr (dir +:+ "/" +:+ step_id +:+ "/" +:+ py_str i)) ids)
              end
          | _ => JArr []
          end
      | None =>
          if PyStr.startswith "pipeline." src then
            default JNull (dict_get (PyStr.removeprefix "pipeline." src) step_inputs)
          else
            match nonempty run_out_dir with
            | Some dir =>
                let '(sib_id, rest) := PyStr.split1 "." src in
                let base := dir +:+ "/" +:+ step_id +:+ "/" +:+ sib_id in
                match nonempty rest with
                | Some r => JStr (base +:+ "/" +:+ r)
                | None => JStr base
                end
            | None => JStr src
            end
      end
  end.

(** ** [_nodes_of] *)

Definition prefixed (sid nid : string) : string := sid +:+ "/" +:+ nid.

(** The terminal nodes of a pipeline step ([nodes[-1]] of an empty schema
    raises). *)
Definition leaves_of (sid : string) (nodes : list schema_node) : result (list string) :=
  let referenced := concat (map sn_depends_on nodes) in
  match map (λ sn, prefixed sid (sn_id sn))
          (List.filter (λ sn, negb (bool_decide (sn_id sn ∈ referenced))) nodes) with
  | [] => match last nodes with
          | Some sn => Ok [prefixed sid (sn_id sn)]
          | None => Raise (OtherError "IndexError")
          end
  | leaves => Ok leaves
  end.

(** The [step_leaves] dict, built step by step. *)
Fixpoint step_leaves (l : list step) (acc : gmap string (list string)) :
    result (gmap string (list string)) :=
  match l with
  | [] => Ok acc
  | s :: r =>
      if String.eqb (s_kind s) "input" then step_leaves r (<[s_id s := [s_id s]]> acc)
      else if negb (String.eqb (s_kind s) "pipeline") then step_leaves r acc
      else
        nodes ← _pipeline_schema (s_pipeline s);
        leaves ← leaves_of (s_id s) nodes;
        step_leaves r (<[s_id s := leaves]> acc)
  end.

Definition _expand_step_deps (leaves : gmap string (list string)) (deps : list string) :
    list string :=
  concat (map (λ d, default [d] (leaves !! d)) deps).

Definition input_step_node (leaves : gmap string (list string)) (s : step) : node :=
  mkNode (s_id s) true (s_widget s) (s_target s) "" (_expand_step_deps leaves (s_depends_on s))
    false None [] None (s_skip_if s) None None None None false JNull JNull JNull.

(** [resolved_inputs[name] = ..], entry by entry; a nameless entry is dropped. *)
Definition node_inputs (s : step) (run_out_dir : option string) (l : list schema_input) : dict :=
  foldl (λ d i, if PyStr.truthy (i_name i)
                then dict_set (i_name i)
                       (_resolve_input_ref (i_from i) (s_id s) (s_inputs s) run_out_dir) d
                else d) [] l.

Definition expand_schema_node (leaves : gmap string (list string)) (s : step)
    (run_out_dir : option string) (sn : schema_node) : node :=
  mkNode (prefixed (s_id s) (sn_id sn)) false None None
    (default (sn_id sn) (nonempty (sn_node sn)))
    (map (prefixed (s_id s)) (sn_depends_on sn) ++
     match sn_depends_on sn with
     | [] => _expand_step_deps leaves (s_depends_on s)
     | _ => []
     end)
    (sn_gpu sn) (sn_model sn) (node_inputs s run_out_dir (sn_inputs sn))
    (Some (s_pipeline s))
    (if truthy (sn_skip_if sn) then sn_skip_if sn else s_skip_if s)
    (sn_avoid_box sn) (sn_force_box sn) (sn_server_types sn) (sn_required_models sn)
    (sn_download sn) (sn_dedup_key sn) (sn_cpu_slots sn) (sn_context_length sn).

Definition expand_step (leaves : gmap string (list string)) (run_out_dir : option string)
    (s : step) : result (list node) :=
  if String.eqb (s_kind s) "input" then Ok [input_step_node leaves s]
  else if negb (String.eqb (s_kind s) "pipeline") then Ok []
  else map (expand_schema_node leaves s run_out_dir) <$> _pipeline_schema (s_pipeline s).

Definition _nodes_of (wf : workflow) (run_out_dir : option string) : result (list node) :=
  leaves ← step_leaves (steps wf) ∅;
  @concat node <$> mapR (expand_step leaves run_out_dir) (steps wf).

(** ** Routing *)

Definition _queue_of (n : node) : result string :=
  if n_download n then
    if n_gpu n then Raise (ValueError "'download' and 'gpu' are mutually exclusive")
    else Ok "download"
  else Ok (if n_gpu n then "gpu" else "cpu").

(** [int(raw)] of a JSON value; None is TypeError or ValueError *)
Definition py_int (v : json) : option Z :=
  match v with
  | JInt z => Some z
  | JBool b => Some (b2z b)
  | JFloat q => Some (Z.quot (Qnum q) (Zpos (Qden q)))
  | JStr s => PyStr.int s
  | _ => None
  end.
Definition _node_cpu_slots (n : node) : option Z :=
  match py_int (n_cpu_slots n) with
  | Some v => if 1 <? v then Some v else None
  | None => None
  end.

Definition _required_model (n : node) : option string :=
  if n_gpu n then nonempty (n_model n) else None.

Definition model_blind (n : node) : bool :=
  n_gpu n && is_null (nonempty (n_model n)) &&
  negb (bool_decide (default (n_id n) (nonempty (Some (n_node n))) ∈
          config_vlm_pool_node_modules ++ config_gpu_self_load_node_modules)).
Definition _assert_gpu_nodes_declare_model (wf : workflow) (run_out_dir : option string) :
    result () :=
  nodes ← _nodes_of wf run_out_dir;
  if existsb model_blind nodes
  then Raise (ValueError "gpu:true node(s) without a declared 'model'")
  else Ok ().

(** ** Ready nodes *)

(** [existing], the dict from node id to job: the rows of one run, whose node
    ids are distinct by UNIQUE (run_id, node_id). *)
Definition lookup_node (existing : list node_job) (nid : string) : option node_job :=
  List.find (λ j : node_job, String.eqb (node_id j) nid) existing.
Definition _jobs_by_node_id (run : string) : M (list node_job) := list_jobs_for_run run.

Definition done_status (s : node_status) : bool := bool_decide (s ∈ [Completed; Skipped]).
Definition satisfied (existing : list node_job) (nid : string) : bool :=
  match lookup_node existing nid with Some j => done_status (status j) | None => false end.

Definition ready_in (nodes : list node) (existing : list node_job) : list node :=
  List.filter (λ n, is_null (lookup_node existing (n_id n)) &&
                    forallb (satisfied existing) (n_depends_on n)) nodes.
Definition _find_ready_nodes (wf : workflow) (existing : list node_job)
    (run_out_dir : option string) : result (list node) :=
  nodes ← _nodes_of wf run_out_dir;
  Ok (ready_in nodes existing).

(** ** Skips *)

Definition _eval_skip_context (r : run) (existing : list node_job) : dict :=
  foldl (λ ctx (j : node_job),
    if bool_decide (status j = Completed) && truthy (JObj (context_delta j))
    then dict_set (node_id j) (JObj (context_delta j)) ctx else ctx)
    (context r) existing.

Definition _should_skip_node (n : node) (r : run) (existing : list node_job) : result bool :=
  if negb (truthy (n_skip_if n)) then Ok false
  else match _resolve_ref (n_skip_if n) (_eval_skip_context r existing) with
       | Ok v => Ok (truthy v)
       | Raise (KeyError _) | Raise (TypeError _) => Ok false
       | Raise e => Raise e
       end.

(** ** [_ref_context] *)

(** [{**(ctx.get(k) or {}), **d}]: a truthy value that is no dictionary cannot
    be unpacked. *)
Definition merge_under (k : string) (d : dict) (ctx : dict) : result dict :=
  match default JNull (dict_get k ctx) with
  | JObj fs => Ok (dict_set k (JObj (dict_merge fs d)) ctx)
  | v => if truthy v then Raise (TypeError "not a mapping")
         else Ok (dict_set k (JObj d) ctx)
  end.

(** The merge of the siblings: an exception ends the loop and is swallowed. *)
Fixpoint merge_siblings (l : list node_job) (ctx : dict) : dict :=
  match l with
  | [] => ctx
  | j :: r =>
      if bool_decide (status j = Completed) && truthy (JObj (context_delta j)) &&
         PyStr.truthy (node_id j)
      then match merge_under (node_id j) (context_delta j) ctx with
           | Ok ctx' => merge_siblings r ctx'
           | Raise _ => ctx
           end
      else merge_siblings r ctx
  end.

Fixpoint merge_files (l : list (string * json)) (ctx : dict) : result dict :=
  match l with
  | [] => Ok ctx
  | (dir, files) :: r => ctx' ← merge_under dir [("files", files)] ctx; merge_files r ctx'
  end.

Definition _ref_context (r : run) : M dict :=
  siblings ← (if PyStr.truthy (rid r) then list_jobs_for_run (rid r) else mret []);
  let ctx := merge_siblings siblings (context r) in
  match nonempty (out_dir r) with
  | None => mret ctx
  | Some dir => lift (merge_files (step_files dir) ctx)
  end.

(** ** [_context_length_of] *)

Definition coerce_context_length (v : json) : json :=
  match v with
  | JFloat q => if Z.eqb (Z.modulo (Qnum q) (Zpos (Qden q))) 0
                then JInt (Z.div (Qnum q) (Zpos (Qden q))) else v
  | JStr s => if PyStr.isdigit (PyStr.strip s)
              then JInt (PyStr.int_of_digits (PyStr.strip s)) else v
  | _ => v
  end.
Definition _context_length_of (n : node) (ctx : dict) : result (option Z) :=
  match n_context_length n with
  | JNull => Ok None
  | raw =>
      v ← _resolve_ref raw ctx;
      match v with
      | JNull | JStr "" => Ok None
      | _ => validate_context_length (coerce_context_length v)
      end
  end.
End workflow.
