(* ===== verification/Dispatcher.v ===== *)
(** * The DAG dispatcher ([queue_workflows/dispatcher.py])

    Run expansion, the callbacks of finished nodes, patch jobs, the reconciler
    of stuck runs and the resumption of parked inputs. *)

From S2P Require Import Prelude.
From S2P Require Import Json.
From S2P Require Import Refs.
From S2P Require Import Schema.
From S2P Require Import NodeQueue.
From S2P Require Import RunStore.
From S2P Require Import Workflow.
Local Open Scope string_scope.
Local Open Scope list_scope.
Local Open Scope Z_scope.

Definition PATCH_INPUT_KEY : string := "__patch__".

(** [_patch_meta]: the marker of a patch job *)
Definition _patch_meta (job : option node_job) : option dict :=
  match job with
  | None => None
  | Some j => match dict_get PATCH_INPUT_KEY (inputs j) with
              | Some (JObj meta) => Some meta
              | _ => None
              end
  end.

(** The order in which one tick enqueues its ready nodes: by model, those
    without one last ("\uFFFF"), and by position within a model. *)
Definition no_model_key : string := String "239" (String "191" (String "191" EmptyString)).
Definition model_key (n : node) : list Z :=
  PyStr.key (default no_model_key (nonempty (n_model n))).
Definition batch_order (ready : list node) : list node := sort_by model_key ready.

Section dispatcher.
Context `{PyEnv} `{QueueConfig} `{DispatchConfig}.

(** ** [_enqueue] *)

Definition input_node_args (run_id : string) (n : node) (r : run) : enqueue_args :=
  mkArgs run_id (n_id n) ("__input__" +:+ default "None" (n_widget n)) "cpu" None None
    [("widget", json_of_opt (n_widget n)); ("target", json_of_opt (n_target n))]
    (rpriority r) None (Some (rproject r)) None None None None None JNull JNull.

(** [str(_resolve_ref(key, context) or "") or None] *)
Definition dedup_key_of (n : node) (ctx : dict) : result (option string) :=
  match n_dedup_key n with
  | JNull => Ok None
  | key => v ← _resolve_ref key ctx;
           Ok (nonempty (Some (if truthy v then py_str v else "")))
  end.

(** The arguments of a schema node's row, in the order the source evaluates
    them; [gpu_slots] is not among them. *)
Definition node_args (run_id : string) (n : node) (r : run) (ctx : dict) : result enqueue_args :=
  resolved ← mapR (λ kv, v ← _resolve_ref kv.2 ctx; Ok (kv.1, v)) (n_inputs n);
  queue ← _queue_of n;
  dedup ← dedup_key_of n ctx;
  ctx_len ← _context_length_of n ctx;
  Ok (mkArgs run_id (n_id n) (default (n_id n) (nonempty (Some (n_node n)))) queue
        (_required_model n) (n_required_models n) resolved (rpriority r) (n_pipeline_name n)
        (Some (rproject r)) (n_avoid_box n) (n_force_box n) (n_server_types n)
        (_node_cpu_slots n) dedup
        (match ctx_len with Some z => JInt z | None => JNull end) JNull).

Definition _enqueue (run_id : string) (n : node) (r : run) : M string :=
  if n_input n then enqueue_node_job (input_node_args run_id n r)
  else
    ctx ← _ref_context r;
    a ← lift (node_args run_id n r ctx);
    enqueue_node_job a.

(** ** [_process_ready] *)

Definition dispatch_node (run_id : string) (r : run) (existing : list node_job) (n : node) :
    M () :=
  skip ← lift (_should_skip_node n r existing);
  _ ← (if (skip : bool)
       then insert_skipped_job run_id (n_id n) (n_pipeline_name n) (Some (rproject r))
       else _enqueue run_id n r);
  mret ().

(** The [while True] loop; None when the fuel runs out. *)
Fixpoint process_ready_loop (fuel : nat) (run_id : string) (wf : workflow) (r : run) :
    M (option Z) :=
  match fuel with
  | O => mret None
  | S n =>
      existing ← _jobs_by_node_id run_id;
      ready ← lift (_find_ready_nodes wf existing (out_dir r));
      match ready with
      | [] => mret (Some 0)
      | _ =>
          _ ← forM (batch_order ready) (dispatch_node run_id r existing);
          rest ← process_ready_loop n run_id wf r;
          mret (Z.add (Z.of_nat (length ready)) <$> rest)
      end
  end.

(** Every round adds a row for each ready node, so one round per node and a
    last one are enough (see [process_ready_terminates]). *)
Definition loop_fuel (wf : workflow) (r : run) : nat :=
  match _nodes_of wf (out_dir r) with Ok nodes => S (length nodes) | Raise _ => 1 end.

Definition _process_ready (run_id : string) (wf : workflow) (r : run) : M Z :=
  n ← process_ready_loop (loop_fuel wf r) run_id wf r;
  mret (default 0 n).

(** ** [start_run] *)

Definition fail_run (run_id err : string) : M () := λ w,
  (_ ← update_run run_id [f_status r_failed; f_finished_at (Some (clock w)); f_error (Some err)];
   mret ()) w.
Definition complete_run (run_id : string) : M () := λ w,
  (_ ← update_run run_id [f_status r_completed; f_finished_at (Some (clock w))];
   mret ()) w.

Definition start_run (run_id : string) : M Z :=
  found ← get_run run_id;
  match (found : option run) with
  | None => raise (KeyError run_id)
  | Some r =>
      wf ← lift (_load_workflow (workflow_name r));
      match _assert_gpu_nodes_declare_model wf (out_dir r) with
      | Raise (ValueError e) => _ ← fail_run run_id e; mret 0
      | Raise e => raise e
      | Ok _ =>
          n ← _process_ready run_id wf r;
          _ ← mark_run_running_if_expanded run_id;
          mret n
      end
  end.

(** ** Patch jobs *)

(** [_bump_input_spec]: merge [fields] into the parked input's spec, a None
    value dropping the key. *)
Definition merge_spec (spec : dict) (fields : list (string * option json)) : dict :=
  foldl (λ d f, match f.2 with
                | Some v => dict_set f.1 v d
                | None => dict_pop f.1 d
                end) spec fields.
Definition _bump_input_spec (run_id : string) (target_input : option string)
    (fields : list (string * option json)) : M () :=
  match nonempty target_input with
  | None => mret ()
  | Some t =>
      jobs ← _jobs_by_node_id run_id;
      match lookup_node jobs t ≫= (λ j : node_job, input_spec j) with
      | None => mret ()
      | Some spec => NodeQueue.set_input_spec run_id t (Some (merge_spec spec fields))
      end
  end.

(** The files a finished patch copies, as (source, destination). *)
Definition patch_copy (dir : string) (old : dict) (kv : string * json) : option (string * string) :=
  match kv.2, default JNull (dict_get kv.1 old) with
  | JStr new_val, JStr old_val =>
      if negb (String.eqb new_val old_val) && PyStr.truthy dir &&
         PyStr.startswith dir new_val && PyStr.startswith dir old_val && is_file new_val
      then Some (new_val, old_val) else None
  | _, _ => None
  end.
Definition patch_copies (dir : string) (new old : dict) : list (string * string) :=
  omap (patch_copy dir old) new.

Definition meta_str (meta : dict) (key : string) : string :=
  match dict_get key meta with Some v => if truthy v then py_str v else "" | None => "" end.

(** [_finish_patch_job]; returns the copies it made. *)
Definition _finish_patch_job (r : run) (job : node_job) (meta : dict) :
    M (list (string * string)) := λ w,
  (jobs ← _jobs_by_node_id (rid r);
   let delta_old := match lookup_node jobs (meta_str meta "source_node") with
                    | Some j => context_delta j
                    | None => []
                    end in
   let copied := patch_copies (default "" (out_dir r)) (context_delta job) delta_old in
   _ ← _bump_input_spec (rid r) (nonempty (Some (meta_str meta "target_input")))
         [("patched_at", Some (JStr (isoformat (clock w)))); ("patch_error", None);
          ("patch_pending", None); ("patch_node_id", None)];
   mret copied) w.

Definition _flag_patch_error (run_id : string) (job : node_job) (meta : dict) : M () :=
  let err := PyStr.take 500 (default "patch failed" (nonempty (error job))) in
  _bump_input_spec run_id (nonempty (Some (meta_str meta "target_input")))
    [("patch_error", Some (JStr err)); ("patch_pending", None); ("patch_node_id", None)].

(** ** Callbacks *)

(** [all_nodes and all(existing.get(nid) and .. for nid in all_nodes)] *)
Definition dag_done (nodes : list node) (existing : list node_job) : bool :=
  match nodes with [] => false | _ => forallb (λ n, satisfied existing (n_id n)) nodes end.

(** The tail of the completion callback: expand, then test for the end. *)
Definition advance_run (run_id : string) (r : run) : M Z :=
  wf ← lift (_load_workflow (workflow_name r));
  new_rows ← _process_ready run_id wf r;
  existing ← _jobs_by_node_id run_id;
  nodes ← lift (_nodes_of wf (out_dir r));
  _ ← (if dag_done nodes existing then complete_run run_id else mret ());
  mret new_rows.

Definition on_node_completed (run_id node_id : string) : M Z :=
  found ← get_run run_id;
  match (found : option run) with
  | None => mret 0
  | Some r =>
      if bool_decide (rstatus r ∈ [r_cancelled; r_failed]) then mret 0
      else
        jobs ← _jobs_by_node_id run_id;
        match lookup_node jobs node_id, _patch_meta (lookup_node jobs node_id) with
        | Some job, Some (_ :: _ as meta) => _ ← _finish_patch_job r job meta; mret 0
        | _, _ => advance_run run_id r
        end
  end.

Definition on_node_failed (run_id node_id : string) : M () :=
  found ← get_run run_id;
  if match (found : option run) with
     | Some r => bool_decide (rstatus r ∈ [r_cancelled; r_failed])
     | None => false
     end
  then mret ()
  else
    jobs ← _jobs_by_node_id run_id;
    match lookup_node jobs node_id, _patch_meta (lookup_node jobs node_id) with
    | Some job, Some (_ :: _ as meta) =>
        _flag_patch_error (match (found : option run) with Some r => rid r | None => "" end) job meta
    | _, _ =>
        _ ← cancel_siblings_after_failure run_id;
        fail_run run_id "node failed (see workflow_node_jobs.error)"
    end.

(** ** [reconcile_run] *)

Inductive reconcile_tag := noop | completed | enqueued | requeued | failed.

Definition set_run_running (run_id : string) : M () :=
  _ ← update_run run_id [f_status r_running]; mret ().

(** The wedged case: drop the dead rows and expand again. *)
Definition unwedge_run (run_id : string) (wf : workflow) (r : run) : M reconcile_tag :=
  dropped ← delete_non_terminal_jobs_for_run run_id;
  n ← (match (dropped : list string) with
       | [] => mret 0
       | _ => _process_ready run_id wf r
       end);
  if 0 <? (n : Z) then _ ← set_run_running run_id; mret requeued
  else _ ← fail_run run_id "reconciler: no runnable node-jobs and run not complete";
       mret failed.

(** A run with no live job: finalise it, enqueue what is ready, or unwedge. *)
Definition reconcile_stuck (run_id : string) (r : run) (existing : list node_job) :
    M reconcile_tag :=
  wf ← lift (_load_workflow (workflow_name r));
  nodes ← lift (_nodes_of wf (out_dir r));
  if dag_done nodes existing then _ ← complete_run run_id; mret completed
  else
    n ← _process_ready run_id wf r;
    if 0 <? (n : Z) then _ ← set_run_running run_id; mret enqueued
    else unwedge_run run_id wf r.

Definition reconcile_run (run_id : string) : M reconcile_tag :=
  found ← get_run run_id;
  match (found : option run) with
  | None => mret noop
  | Some r =>
      if bool_decide (rstatus r ∈ [r_completed; r_failed; r_cancelled]) then mret noop
      else
        existing ← _jobs_by_node_id run_id;
        if existsb (λ j : node_job, live_status (status j)) existing then mret noop
        else reconcile_stuck run_id r existing
  end.

(** ** [resume_after_input] *)

(** [context_delta[target] = value], with [target] any truthy JSON value: an
    unhashable one raises, a number or boolean becomes a JSON key. *)
Definition delta_key (target : json) : result string :=
  match target with
  | JStr s => Ok s
  | JBool b => Ok (if b then "true" else "false")
  | JArr _ | JObj _ => Raise (TypeError "unhashable type")
  | v => Ok (py_str v)
  end.
Definition submitted_delta (target value : json) : result dict :=
  if truthy target && negb (is_none value)
  then k ← delta_key target; Ok [(k, value)]
  else Ok [].

Definition resume_after_input (run_id node_id : string) (value : json) : M Z :=
  jobs ← _jobs_by_node_id run_id;
  match lookup_node jobs node_id with
  | None => raise (KeyError "no job")
  | Some job =>
      if negb (bool_decide (status job ∈ [AwaitingInput; Queued])) then mret 0
      else
        delta ← lift (submitted_delta (default JNull (dict_get "target" (inputs job))) value);
        _ ← mark_completed (jid job) delta 0 None;
        on_node_completed run_id node_id
  end.

(** ** [resolve_inputs_for_job] *)

Fixpoint resolve_or_keep (raw : dict) (ctx : dict) : result dict :=
  match raw with
  | [] => Ok []
  | (k, v) :: r =>
      v' ← (match _resolve_ref v ctx with
            | Raise (KeyError _) => Ok v
            | res => res
            end);
      rest ← resolve_or_keep r ctx;
      Ok ((k, v') :: rest)
  end.

Definition resolve_inputs_for_job (job : option node_job) : M dict :=
  match job with
  | None => mret []
  | Some j =>
      if PyStr.startswith "__input__" (node_module j) then mret (inputs j)
      else
        found ← get_run (Schema.run_id j);
        match (found : option run) with
        | None => lift (resolve_or_keep (inputs j) [])
        | Some r => ctx ← _ref_context r; lift (resolve_or_keep (inputs j) ctx)
        end
  end.
End dispatcher.

(** * Lemmas *)

Section lookup_lemmas.
Implicit Types (w : world) (j : node_job).

Lemma elem_of_jobs_of_run w run j :
  j ∈ jobs_of_run w run ↔ j ∈ node_jobs w ∧ Schema.run_id j = run.
Proof.
  unfold jobs_of_run. rewrite sort_by_perm, elem_of_Lfilter, bool_decide_eq_true. done.
Qed.

Lemma lookup_node_Some w run nid j :
  db_ok w → lookup_node (jobs_of_run w run) nid = Some j ↔ j ∈ node_jobs w ∧ cell j = (run, nid).
Proof.
  intros Hok. unfold lookup_node. split.
  - intros [Hin E]%find_some. apply list_elem_of_In, elem_of_jobs_of_run in Hin as [Hj Hr].
    apply String.eqb_eq in E. split; [done|]. unfold cell. congruence.
  - intros [Hj Hc]. assert (j ∈ jobs_of_run w run) as Hin.
    { apply elem_of_jobs_of_run. split; [done|]. by injection Hc. }
    destruct (List.find _ _) as [j'|] eqn:E.
    + apply find_some in E as [Hin' E]. apply list_elem_of_In, elem_of_jobs_of_run in Hin' as [Hj' Hr'].
      apply String.eqb_eq in E. f_equal. apply (job_by_cell_unique w); [done..|].
      unfold cell in *. congruence.
    + apply list_elem_of_In in Hin. eapply find_none in E; [|done]. simpl in E.
      injection Hc as _ Hn. rewrite Hn, String.eqb_refl in E. done.
Qed.

Lemma lookup_node_None w run nid :
  lookup_node (jobs_of_run w run) nid = None ↔ ∀ j, j ∈ node_jobs w → cell j ≠ (run, nid).
Proof.
  unfold lookup_node. split.
  - intros E j Hj [= Hr Hn]. assert (j ∈ jobs_of_run w run) as Hin%list_elem_of_In
      by (by apply elem_of_jobs_of_run). eapply find_none in E; [|done]. simpl in E.
    rewrite Hn, String.eqb_refl in E. done.
  - intros Hn. destruct (List.find _ _) as [j|] eqn:E; [|done].
    apply find_some in E as [Hin E]. apply list_elem_of_In, elem_of_jobs_of_run in Hin as [Hj Hr].
    apply String.eqb_eq in E. exfalso. apply (Hn j Hj). unfold cell. congruence.
Qed.

Lemma satisfied_true w run nid :
  db_ok w → satisfied (jobs_of_run w run) nid = true ↔
  ∃ j, j ∈ node_jobs w ∧ cell j = (run, nid) ∧ done_status (status j) = true.
Proof.
  intros Hok. unfold satisfied. split.
  - destruct (lookup_node _ _) as [j|] eqn:E; [|done].
    apply lookup_node_Some in E as [? ?]; [|done]. eauto.
  - intros (j & Hj & Hc & Hd). rewrite (proj2 (lookup_node_Some w run nid j Hok)); done.
Qed.
End lookup_lemmas.

(** The effect of dispatching nodes: one new row for each, queued or skipped, at
    the end of the table. *)
Record grows (run_id : string) (l : list node) (w w' : world) : Prop := {
  g_ok : db_ok w';
  g_runs : runs w' = runs w;
  g_clock : clock w' = clock w;
  g_events : dispatch_events w' = dispatch_events w;
  g_rows : ∃ js, node_jobs w' = node_jobs w ++ js ∧
    map cell js = map (λ n, (run_id, n_id n)) l ∧
    Forall (λ j : node_job, (status j = Queued ∨ status j = Skipped) ∧ claim_shape (st j)) js;
}.

Section grows_lemmas.
Implicit Types (w : world) (j : node_job).

Lemma grows_refl run_id w : db_ok w → grows run_id [] w w.
Proof. intros Hok. split; [done..|]. exists []. by rewrite app_nil_r. Qed.

Lemma grows_trans run_id l1 l2 w1 w2 w3 :
  grows run_id l1 w1 w2 → grows run_id l2 w2 w3 → grows run_id (l1 ++ l2) w1 w3.
Proof.
  intros [A1 B1 C1 D1 (js1 & E1 & F1 & G1)] [A2 B2 C2 D2 (js2 & E2 & F2 & G2)].
  split; [done|congruence..|]. exists (js1 ++ js2).
  rewrite E2, E1, app_assoc, !map_app, F1, F2. split_and!; [done..|].
  by apply Forall_app.
Qed.

Lemma grows_old run_id l w w' j : grows run_id l w w' → j ∈ node_jobs w → j ∈ node_jobs w'.
Proof. intros [_ _ _ _ (js & -> & _)] Hj. apply elem_of_app. by left. Qed.

Lemma grows_new run_id l w w' n :
  grows run_id l w w' → n ∈ l → ∃ j, j ∈ node_jobs w' ∧ cell j = (run_id, n_id n).
Proof.
  intros [_ _ _ _ (js & -> & E & _)] Hn.
  assert ((run_id, n_id n) ∈ map cell js) as (j & -> & Hj)%list_elem_of_fmap.
  { rewrite E. apply list_elem_of_fmap. eauto. }
  exists j. split; [|done]. apply elem_of_app. by right.
Qed.

Lemma grows_rows run_id l w w' j :
  grows run_id l w w' → j ∈ node_jobs w' →
  j ∈ node_jobs w ∨ ∃ n, n ∈ l ∧ cell j = (run_id, n_id n) ∧
    (status j = Queued ∨ status j = Skipped).
Proof.
  intros [_ _ _ _ (js & -> & E & F)] [Hj|Hj]%elem_of_app; [by left|right].
  assert (cell j ∈ map cell js) as Hc by (apply list_elem_of_fmap; eauto).
  rewrite E in Hc. apply list_elem_of_fmap in Hc as (n & Hc & Hn).
  exists n. split_and!; [done..|]. rewrite Forall_forall in F. by apply F.
Qed.

Lemma grows_satisfied run_id l w w' nid :
  db_ok w → grows run_id l w w' →
  satisfied (jobs_of_run w run_id) nid = true → satisfied (jobs_of_run w' run_id) nid = true.
Proof.
  intros Hok Hg (j & Hj & Hc & Hd)%satisfied_true; [|done].
  apply satisfied_true; [by eapply g_ok|]. eauto using grows_old.
Qed.
End grows_lemmas.

Section process_ready_lemmas.
Context `{PyEnv} `{QueueConfig} `{DispatchConfig}.
Implicit Types (w : world) (j : node_job) (r : run).

Lemma ref_context_world r w : (_ref_context r w).2 = w.
Proof.
  unfold _ref_context, mbind, M_bind. destruct (PyStr.truthy (rid r)); simpl.
  all: destruct (nonempty (out_dir r)); simpl; [|done]; unfold lift; done.
Qed.

Lemma enqueue_grows run_id n r w res w' :
  db_ok w → _enqueue run_id n r w = (res, w') →
  grows run_id (if is_ok res then [n] else []) w w'.
Proof.
  assert (∀ a, a_run_id a = run_id → a_node_id a = n_id n → db_ok w →
    enqueue_node_job a w = (res, w') → grows run_id (if is_ok res then [n] else []) w w')
    as Hrow.
  { intros a Ha1 Ha2 Hok E. apply enqueue_frame in E as (A & B & C & D & js & E & F); [|done].
    split; [done..|]. exists js. split; [done|]. destruct (is_ok res); [|by subst].
    destruct F as (j & -> & Hc & Hs & Hsh). split; [simpl; congruence|].
    apply Forall_singleton. auto. }
  intros Hok. unfold _enqueue. destruct (n_input n); [by apply Hrow|].
  unfold mbind, M_bind. pose proof (ref_context_world r w) as Hw.
  destruct (_ref_context r w) as [[ctx|e] w1]; simpl in Hw; subst w1.
  2: { intros [= <- <-]. by apply grows_refl. }
  unfold lift. destruct (node_args run_id n r ctx) as [a|e] eqn:Ha.
  2: { intros [= <- <-]. by apply grows_refl. }
  unfold node_args, mbind, result_bind in Ha.
  repeat case_match; simplify_eq; by apply Hrow.
Qed.

Lemma dispatch_node_grows run_id r existing n w res w' :
  db_ok w → dispatch_node run_id r existing n w = (res, w') →
  grows run_id (if is_ok res then [n] else []) w w'.
Proof.
  intros Hok. unfold dispatch_node, lift, mbind, M_bind.
  destruct (_should_skip_node n r existing) as [[]|e].
  - destruct (insert_skipped_job _ _ _ _ w) as [res1 w1] eqn:E.
    apply insert_skipped_frame in E as (A & B & C & D & js & E & F); [|done].
    destruct res1; intros [= <- <-]; simpl in *; (split; [done..|]); exists js;
      (split; [done|]); [|by subst].
    destruct F as (j & -> & Hc & Hs & Hsh). split; [simpl; congruence|].
    apply Forall_singleton. auto.
  - destruct (_enqueue run_id n r w) as [res1 w1] eqn:E. apply enqueue_grows in E; [|done].
    destruct res1; intros [= <- <-]; done.
  - intros [= <- <-]. by apply grows_refl.
Qed.

(** A loop over nodes stops at the first exception; what it did before that
    stays. *)
Lemma dispatch_all_grows run_id r existing l w res w' :
  db_ok w → forM l (dispatch_node run_id r existing) w = (res, w') →
  ∃ l1 l2, l = l1 ++ l2 ∧ grows run_id l1 w w' ∧ (is_ok res = true → l2 = []).
Proof.
  revert w. induction l as [|n l IH]; intros w Hok; cbn [forM].
  { intros [= <- <-]. exists [], []. split_and!; [done|by apply grows_refl|done]. }
  unfold mbind, M_bind. destruct (dispatch_node run_id r existing n w) as [[u|e] w1] eqn:E.
  - apply dispatch_node_grows in E; [|done]. simpl in E.
    intros (l1 & l2 & -> & Hg & Hr)%IH; [|by eapply g_ok].
    exists (n :: l1), l2. split_and!; [done| |done]. by apply (grows_trans _ [n] l1 _ w1).
  - apply dispatch_node_grows in E; [|done]. intros [= <- <-].
    exists [], (n :: l). by split_and!.
Qed.

(** One round of the loop. *)
Lemma ready_spec nodes w run_id n :
  db_ok w → n ∈ ready_in nodes (jobs_of_run w run_id) ↔
  n ∈ nodes ∧ (∀ j, j ∈ node_jobs w → cell j ≠ (run_id, n_id n)) ∧
  ∀ d, d ∈ n_depends_on n → satisfied (jobs_of_run w run_id) d = true.
Proof.
  intros Hok. unfold ready_in. rewrite elem_of_Lfilter, andb_true_iff, forallb_forall.
  rewrite <- (lookup_node_None w run_id). setoid_rewrite <- list_elem_of_In.
  destruct (lookup_node _ _); naive_solver.
Qed.

(** The nodes of the DAG that have no row yet. *)
Definition pending (nodes : list node) (w : world) (run_id : string) : nat :=
  count (λ n, is_null (lookup_node (jobs_of_run w run_id) (n_id n))) nodes.

Lemma pending_decreases nodes w w' run_id l n :
  db_ok w → grows run_id l w w' → n ∈ l → n ∈ nodes →
  (∀ j, j ∈ node_jobs w → cell j ≠ (run_id, n_id n)) →
  (pending nodes w' run_id < pending nodes w run_id)%nat.
Proof.
  intros Hok Hg Hl Hn Hno. unfold pending.
  apply (count_lt _ _ nodes n); [| done | |].
  - intros m _ Hm. destruct (lookup_node (jobs_of_run w run_id) (n_id m)) as [j|] eqn:E; [|done].
    apply lookup_node_Some in E as [Hj Hc]; [|done].
    assert (lookup_node (jobs_of_run w' run_id) (n_id m) = Some j) as E'.
    { apply lookup_node_Some; [by eapply g_ok|]. eauto using grows_old. }
    by rewrite E' in Hm.
  - rewrite (proj2 (lookup_node_None w run_id (n_id n)) Hno). done.
  - destruct (grows_new _ _ _ _ _ Hg Hl) as (j & Hj & Hc).
    rewrite (proj2 (lookup_node_Some w' run_id (n_id n) j (g_ok _ _ _ _ Hg))); done.
Qed.

(** Rows were added for nodes of the DAG only, each after all its
    predecessors were completed or skipped. *)
Definition expands (nodes : list node) (run_id : string) (l : list node) (w w' : world) : Prop :=
  grows run_id l w w' ∧
  ∀ n, n ∈ l → n ∈ nodes ∧
    ∀ d, d ∈ n_depends_on n → satisfied (jobs_of_run w' run_id) d = true.

Lemma expands_refl nodes run_id w : db_ok w → expands nodes run_id [] w w.
Proof. intros Hok. split; [by apply grows_refl|]. set_solver. Qed.

Lemma expands_trans nodes run_id l1 l2 w1 w2 w3 :
  expands nodes run_id l1 w1 w2 → expands nodes run_id l2 w2 w3 →
  expands nodes run_id (l1 ++ l2) w1 w3.
Proof.
  intros [G1 H1'] [G2 H2']. split; [by eapply grows_trans|].
  intros n [Hn|Hn]%elem_of_app; [|auto]. destruct (H1' n Hn) as [Hin Hd].
  split; [done|]. intros d Hdd. apply (grows_satisfied _ l2 w2); [by eapply g_ok|done|auto].
Qed.

Lemma round_expands nodes run_id r w res w' l :
  db_ok w → l ≡ₚ ready_in nodes (jobs_of_run w run_id) →
  forM l (dispatch_node run_id r (jobs_of_run w run_id)) w = (res, w') →
  ∃ l1, expands nodes run_id l1 w w' ∧ (is_ok res = true → l1 = l).
Proof.
  intros Hok Hp E. apply dispatch_all_grows in E as (l1 & l2 & -> & Hg & Hr); [|done].
  exists l1. split.
  - split; [done|]. intros n Hn.
    assert (n ∈ ready_in nodes (jobs_of_run w run_id)) as Hrd
      by (rewrite <- Hp; apply elem_of_app; by left).
    apply ready_spec in Hrd as (Hin & _ & Hd); [|done].
    split; [done|]. intros d Hdd. eapply grows_satisfied; eauto.
  - intros ->%Hr. by rewrite app_nil_r.
Qed.

Lemma loop_spec nodes fuel run_id wf r w res w' :
  db_ok w → _nodes_of wf (out_dir r) = Ok nodes → (pending nodes w run_id < fuel)%nat →
  process_ready_loop fuel run_id wf r w = (res, w') →
  ∃ l, expands nodes run_id l w w' ∧
    match res with
    | Ok (Some k) => k = Z.of_nat (length l) ∧ ready_in nodes (jobs_of_run w' run_id) = []
    | Ok None => False
    | Raise _ => True
    end.
Proof.
  intros Hok Hn. revert w res w' Hok.
  induction fuel as [|fuel IH]; intros w res w' Hok Hf; [lia|].
  cbn [process_ready_loop]. unfold _jobs_by_node_id, list_jobs_for_run, gets, lift, mbind, M_bind.
  unfold _find_ready_nodes. rewrite Hn. simpl.
  destruct (ready_in nodes (jobs_of_run w run_id)) as [|n0 rest] eqn:Er.
  { intros [= <- <-]. exists []. split; [by apply expands_refl|done]. }
  destruct (forM _ _ w) as [res1 w1] eqn:E1.
  eapply round_expands in E1 as (l1 & Hx & Hl1); [|done|by rewrite Er; apply sort_by_perm].
  destruct res1 as [u|e]; [|intros [= <- <-]; exists l1; by split].
  specialize (Hl1 eq_refl). subst l1.
  destruct (process_ready_loop fuel run_id wf r w1) as [res2 w2] eqn:E2.
  assert (n0 ∈ ready_in nodes (jobs_of_run w run_id)) as Hn0 by (rewrite Er; left).
  apply ready_spec in Hn0 as (Hin0 & Hno & _); [|done].
  assert (pending nodes w1 run_id < pending nodes w run_id)%nat as Hlt.
  { eapply pending_decreases; [done|apply Hx| |done..].
    unfold batch_order. rewrite sort_by_perm. left. }
  apply IH in E2 as (l2 & Hx2 & Hres); [|eapply g_ok, Hx|lia].
  assert (length (batch_order (n0 :: rest)) = S (length rest)) as Hlen
    by (unfold batch_order; by rewrite sort_by_perm).
  destruct res2 as [[k|]|e]; [|done|].
  - destruct Hres as [-> Hno']. intros [= <- <-]. eexists. split; [by eapply expands_trans|].
    split; [|done]. rewrite length_app, Hlen. lia.
  - intros [= <- <-]. eexists. split; [by eapply expands_trans|done].
Qed.

(** Beyond the rounds it needs, the fuel does not matter. *)
Lemma loop_fuel_irrelevant nodes f1 f2 run_id wf r w :
  db_ok w → _nodes_of wf (out_dir r) = Ok nodes →
  (pending nodes w run_id < f1)%nat → (pending nodes w run_id < f2)%nat →
  process_ready_loop f1 run_id wf r w = process_ready_loop f2 run_id wf r w.
Proof.
  intros Hok Hn. revert f2 w Hok. induction f1 as [|f1 IH]; intros f2 w Hok Hf1 Hf2; [lia|].
  destruct f2 as [|f2]; [lia|]. cbn [process_ready_loop].
  unfold _jobs_by_node_id, list_jobs_for_run, gets, lift, mbind, M_bind.
  unfold _find_ready_nodes. rewrite Hn. simpl.
  destruct (ready_in nodes (jobs_of_run w run_id)) as [|n0 rest] eqn:Er; [done|].
  destruct (forM _ _ w) as [res1 w1] eqn:E1.
  eapply round_expands in E1 as (l1 & Hx & Hl1); [|done|by rewrite Er; apply sort_by_perm].
  destruct res1 as [u|e]; [|done]. specialize (Hl1 eq_refl). subst l1.
  assert (n0 ∈ ready_in nodes (jobs_of_run w run_id)) as Hn0 by (rewrite Er; left).
  apply ready_spec in Hn0 as (Hin0 & Hno & _); [|done].
  assert (pending nodes w1 run_id < pending nodes w run_id)%nat as Hlt.
  { eapply pending_decreases; [done|apply Hx| |done..].
    unfold batch_order. rewrite sort_by_perm. left. }
  rewrite (IH f2 w1); [done|eapply g_ok, Hx|lia|lia].
Qed.

Lemma pending_bound nodes w run_id : (pending nodes w run_id ≤ length nodes)%nat.
Proof. apply filter_length_le. Qed.

(** [_process_ready] as a whole. *)
Lemma process_ready_spec nodes run_id wf r w res w' :
  db_ok w → _nodes_of wf (out_dir r) = Ok nodes →
  _process_ready run_id wf r w = (res, w') →
  ∃ l, expands nodes run_id l w w' ∧
    match res with
    | Ok k => k = Z.of_nat (length l) ∧ ready_in nodes (jobs_of_run w' run_id) = []
    | Raise _ => True
    end.
Proof.
  intros Hok Hn. unfold _process_ready, mbind, M_bind, mret, M_ret.
  destruct (process_ready_loop _ run_id wf r w) as [res1 w1] eqn:E.
  eapply loop_spec in E as (l & Hx & Hr); [|done..|]; cycle 1.
  { unfold loop_fuel. rewrite Hn. pose proof (pending_bound nodes w run_id). lia. }
  destruct res1 as [[k|]|e]; [|done|]; intros [= <- <-]; eauto.
Qed.

(** With no ready node, nothing happens. *)
Lemma process_ready_idle nodes run_id wf r w :
  _nodes_of wf (out_dir r) = Ok nodes → ready_in nodes (jobs_of_run w run_id) = [] →
  _process_ready run_id wf r w = (Ok 0, w).
Proof.
  intros Hn Hr. unfold _process_ready, loop_fuel. rewrite Hn. cbn [process_ready_loop].
  unfold _jobs_by_node_id, list_jobs_for_run, gets, lift, mbind, M_bind.
  unfold _find_ready_nodes. rewrite Hn. simpl. rewrite Hr. done.
Qed.
End process_ready_lemmas.

Section run_row_lemmas.
Implicit Types (w : world) (r : run).

(** The status writes of the dispatcher, as updates of one run row. *)
Definition finished_run (s : run_status) (err : option string) (now : Z) (r : run) : run :=
  let r := r |> set_rstatus s |> set_rfinished_at (Some now) in
  set_updated_at now (match err with Some e => set_rerror (Some e) r | None => r end).
Definition named (i : string) (r : run) : bool := bool_decide (rid r = i) && true.

Lemma fail_run_world i e w :
  fail_run i e w =
    (Ok (), on_runs (update_where (named i) (finished_run r_failed (Some e) (clock w))) w).
Proof. done. Qed.
Lemma complete_run_world i w :
  complete_run i w =
    (Ok (), on_runs (update_where (named i) (finished_run r_completed None (clock w))) w).
Proof. done. Qed.
Lemma finished_run_rid s e now r : rid (finished_run s e now r) = rid r.
Proof. by destruct r, e. Qed.

Lemma run_of_finished i s e now w r :
  run_of w i = Some r →
  run_of (on_runs (update_where (named i) (finished_run s e now)) w) i =
    Some (finished_run s e now r).
Proof.
  intros Hr. rewrite run_of_update by apply finished_run_rid. rewrite Hr. simpl.
  unfold run_of in Hr. apply find_some in Hr as [_ E]. unfold named. by rewrite E.
Qed.

Lemma finish_twice i s e now w :
  let f := update_where (named i) (finished_run s e now) in
  on_runs f (on_runs f w) = on_runs f w.
Proof.
  simpl. apply on_runs_id. rewrite runs_on_runs. apply update_where_id.
  intros r (r0 & _ & ->)%elem_of_update_where Hn.
  destruct (named i r0) eqn:E; [by destruct r0, e|]. by rewrite E in Hn.
Qed.

Lemma mark_running_run i w r :
  run_of w i = Some r → ∃ r', run_of (mark_run_running_if_expanded i w).2 i = Some r' ∧
    workflow_name r' = workflow_name r ∧ out_dir r' = out_dir r.
Proof.
  intros Hr. simpl. rewrite run_of_update by by intros []. rewrite Hr. simpl.
  eexists. split; [done|]. by destruct (_ && _), r.
Qed.
End run_row_lemmas.

(** * Properties *)

Section dispatcher_props.
Context `{PyEnv} `{QueueConfig} `{DispatchConfig}.
Implicit Types (w : world) (j : node_job) (r : run).

(** C7: the expansion loop terminates.  Each round adds a row for every ready
    node, so with one round per node of the DAG and one more it never runs out of
    fuel, and more fuel changes nothing: it stops with no ready node left, or
    with the exception of the first dispatch that failed. *)
Theorem process_ready_terminates nodes run_id wf r w fuel :
  db_ok w → _nodes_of wf (out_dir r) = Ok nodes → (length nodes < fuel)%nat →
  ∃ res w', process_ready_loop fuel run_id wf r w = (res, w') ∧ res ≠ Ok None ∧
    (∀ k, res = Ok (Some k) → ready_in nodes (jobs_of_run w' run_id) = []) ∧
    process_ready_loop fuel run_id wf r w = process_ready_loop (loop_fuel wf r) run_id wf r w.
Proof.
  intros Hok Hn Hf. destruct (process_ready_loop fuel run_id wf r w) as [res w'] eqn:E.
  exists res, w'. pose proof (pending_bound nodes w run_id) as Hb. pose proof E as E'.
  eapply loop_spec in E' as (l & Hx & Hr); [|done..|lia].
  split_and!; [done|by intros ->|by intros k ->; apply Hr|].
  unfold loop_fuel. rewrite Hn, <- E. apply (loop_fuel_irrelevant nodes); [done..|lia|lia].
Qed.

Lemma assert_models_nodes wf dir : _assert_gpu_nodes_declare_model wf dir = Ok () →
  ∃ nodes, _nodes_of wf dir = Ok nodes.
Proof.
  unfold _assert_gpu_nodes_declare_model, mbind, result_bind.
  destruct (_nodes_of wf dir); [eauto|done].
Qed.

Lemma start_run_twice run_id w n w' :
  db_ok w → start_run run_id w = (Ok n, w') →
  db_ok w' ∧ start_run run_id w' = (Ok 0, w').
Proof.
  intros Hok. unfold start_run at 1, get_run, gets, lift, raise, mbind, M_bind, mret, M_ret.
  destruct (run_of w run_id) as [r|] eqn:Er; [|done].
  destruct (_load_workflow (workflow_name r)) as [wf|] eqn:Ew; [|done].
  destruct (_assert_gpu_nodes_declare_model wf (out_dir r)) as [[]|e] eqn:Ea.
  - destruct (assert_models_nodes _ _ Ea) as [nodes Hn].
    destruct (_process_ready run_id wf r w) as [[k|] w1] eqn:Ep; [|done].
    eapply process_ready_spec in Ep as (l & Hx & -> & Hidle); [|done..].
    destruct (mark_run_running_if_expanded run_id w1) as [[b|] w2] eqn:Em; [|done].
    intros [= <- <-].
    assert (w2 = (mark_run_running_if_expanded run_id w1).2) as -> by by rewrite Em.
    destruct Hx as [[Hok1 Hruns _ _ _] _].
    assert (run_of w1 run_id = Some r) as Er1 by (unfold run_of; by rewrite Hruns).
    destruct (mark_running_run run_id w1 r Er1) as (r' & Er' & Hwf & Hdir).
    split; [apply db_ok_on_runs; [by intros []|done]|].
    unfold start_run, get_run, gets, lift, mbind, M_bind, mret, M_ret.
    rewrite Er', Hwf, Ew, Hdir, Ea.
    rewrite (process_ready_idle nodes); [|by rewrite Hdir|by simpl; autorewrite with engine].
    destruct (mark_run_running_if_expanded run_id (mark_run_running_if_expanded run_id w1).2)
      as [[b'|] w3] eqn:Em'; [|done].
    assert (w3 = (mark_run_running_if_expanded run_id
      (mark_run_running_if_expanded run_id w1).2).2) as -> by by rewrite Em'.
    by rewrite mark_running_idemp.
  - destruct e as [| |what| | | |]; try done. rewrite fail_run_world. intros [= <- <-].
    split; [apply db_ok_on_runs; [apply finished_run_rid|done]|].
    unfold start_run, get_run, gets, lift, mbind, M_bind, mret, M_ret.
    rewrite (run_of_finished _ _ _ _ _ r) by done.
    replace (workflow_name (finished_run _ _ _ r)) with (workflow_name r) by by destruct r.
    replace (out_dir (finished_run _ _ _ r)) with (out_dir r) by by destruct r.
    rewrite Ew, Ea, fail_run_world, clock_on_runs. by rewrite finish_twice.
Qed.

(** [start_run] is idempotent.  When it returns, a second call inserts
    nothing, changes nothing and returns 0, whether the first one expanded the
    run or rejected its definition. *)
Lemma start_run_idempotent run_id w n w' :
  db_ok w → start_run run_id w = (Ok n, w') →
  db_ok w' ∧ start_run run_id w' = (Ok 0, w').
Proof. apply start_run_twice. Qed.

Lemma on_node_completed_body run_id nid w r :
  run_of w run_id = Some r → rstatus r ∉ [r_cancelled; r_failed] →
  _patch_meta (lookup_node (jobs_of_run w run_id) nid) = None →
  on_node_completed run_id nid w = advance_run run_id r w.
Proof.
  intros Hr Hs Hm. unfold on_node_completed, get_run, gets, mbind, M_bind.
  rewrite Hr, bool_decide_eq_false_2 by done.
  unfold _jobs_by_node_id, list_jobs_for_run, gets. rewrite Hm.
  by destruct (lookup_node _ _).
Qed.

(** C8: the callback of a completed node advances its run.  It adds a queued or
    skipped row for nodes of the DAG only, each with every predecessor completed
    or skipped, until no node is ready; it returns the number of those rows; and
    it marks the run completed exactly when every node of the DAG is completed or
    skipped by then. *)
Theorem on_node_completed_advances run_id nid w n w' r wf nodes :
  db_ok w → run_of w run_id = Some r → rstatus r ∉ [r_cancelled; r_failed] →
  _patch_meta (lookup_node (jobs_of_run w run_id) nid) = None →
  _load_workflow (workflow_name r) = Ok wf → _nodes_of wf (out_dir r) = Ok nodes →
  on_node_completed run_id nid w = (Ok n, w') →
  ∃ l w1, n = Z.of_nat (length l) ∧ expands nodes run_id l w w1 ∧
    ready_in nodes (jobs_of_run w1 run_id) = [] ∧
    w' = if dag_done nodes (jobs_of_run w1 run_id)
         then on_runs (update_where (named run_id)
                (finished_run r_completed None (clock w))) w1
         else w1.
Proof.
  intros Hok Hr Hs Hm Hw Hn.
  rewrite (on_node_completed_body _ _ _ r) by done.
  unfold advance_run, _jobs_by_node_id, list_jobs_for_run, gets, lift, mbind, M_bind. rewrite Hw.
  destruct (_process_ready run_id wf r w) as [[k|e] w1] eqn:Ep; [|done].
  eapply process_ready_spec in Ep as (l & Hx & -> & Hidle); [|done..].
  rewrite Hn. intros E. exists l, w1. rewrite <- (g_clock _ _ _ _ (proj1 Hx)).
  destruct (dag_done nodes (jobs_of_run w1 run_id)); [rewrite complete_run_world in E|];
    injection E as <- <-; done.
Qed.

Lemma terminal_run_ignores_callbacks run_id nid w r :
  run_of w run_id = Some r → rstatus r ∈ [r_cancelled; r_failed] →
  on_node_completed run_id nid w = (Ok 0, w) ∧ on_node_failed run_id nid w = (Ok (), w).
Proof.
  intros Hr Hs. unfold on_node_completed, on_node_failed, get_run, gets, mbind, M_bind.
  rewrite Hr, bool_decide_eq_true_2 by done. done.
Qed.

Lemma on_node_failed_world run_id nid w r :
  run_of w run_id = Some r → rstatus r ∉ [r_cancelled; r_failed] →
  _patch_meta (lookup_node (jobs_of_run w run_id) nid) = None →
  on_node_failed run_id nid w = fail_run run_id "node failed (see workflow_node_jobs.error)"
    (cancel_siblings_after_failure run_id w).2.
Proof.
  intros Hr Hs Hm. unfold on_node_failed, get_run, _jobs_by_node_id, list_jobs_for_run, gets,
    mbind, M_bind. rewrite Hr, bool_decide_eq_false_2, Hm by done.
  by destruct (lookup_node _ _).
Qed.

(** C10: a failed node fails its run for good.  The callback leaves the run
    failed with no queued row, keeps every row of it that was not queued and
    every row of other runs, and from then on every callback of the run is a
    no-op: nothing downstream is ever enqueued. *)
Theorem on_node_failed_stops_the_run run_id nid w r :
  db_ok w → run_of w run_id = Some r → rstatus r ∉ [r_cancelled; r_failed] →
  _patch_meta (lookup_node (jobs_of_run w run_id) nid) = None →
  ∃ w' r', on_node_failed run_id nid w = (Ok (), w') ∧ db_ok w' ∧
    run_of w' run_id = Some r' ∧ rstatus r' = r_failed ∧
    (∀ j, j ∈ node_jobs w' → Schema.run_id j = run_id → status j ≠ Queued) ∧
    (∀ j, j ∈ node_jobs w → Schema.run_id j ≠ run_id ∨ status j ≠ Queued → j ∈ node_jobs w') ∧
    ∀ m, on_node_completed run_id m w' = (Ok 0, w') ∧ on_node_failed run_id m w' = (Ok (), w').
Proof.
  intros Hok Hr Hs Hm. rewrite (on_node_failed_world _ _ _ r) by done. rewrite fail_run_world.
  set (w1 := (cancel_siblings_after_failure run_id w).2).
  set (f := finished_run r_failed (Some "node failed (see workflow_node_jobs.error)") (clock w1)).
  assert (run_of w1 run_id = Some r) as Hr1
    by (unfold run_of, w1; simpl; by rewrite runs_on_jobs).
  pose proof (run_of_finished run_id r_failed
    (Some "node failed (see workflow_node_jobs.error)") (clock w1) w1 r Hr1) as Hr'.
  assert (rstatus (f r) = r_failed) as Hf by by destruct r.
  eexists _, (f r). split_and!; [done| |done|done| | |].
  - apply db_ok_on_runs; [apply finished_run_rid|]. unfold w1. simpl. by apply db_ok_update.
  - intros j. rewrite node_jobs_on_runs. unfold w1. simpl. rewrite node_jobs_on_jobs.
    intros (j0 & _ & ->)%elem_of_update_where.
    destruct (bool_decide (Schema.run_id j0 = run_id)) eqn:E; simpl.
    + destruct (has_status Queued j0) eqn:Eq; [by destruct j0 as [? []]|].
      unfold has_status in Eq. by split_bool.
    + by split_bool.
  - intros j Hj Hne. rewrite node_jobs_on_runs. unfold w1. simpl. rewrite node_jobs_on_jobs.
    apply elem_of_update_where. exists j. split; [done|]. unfold has_status.
    destruct Hne; [rewrite (bool_decide_eq_false_2 (_ = run_id)) by done
                  |rewrite (bool_decide_eq_false_2 (_ = Queued)), andb_false_r by done]; done.
  - intros m. eapply terminal_run_ignores_callbacks; [exact Hr'|]. fold f. rewrite Hf. set_solver.
Qed.

(** A DAG: every dependency names a node, of a smaller rank. *)
Definition acyclic (nodes : list node) : Prop :=
  ∃ rank : string → nat, ∀ n, n ∈ nodes → ∀ d, d ∈ n_depends_on n →
    (∃ m, m ∈ nodes ∧ n_id m = d) ∧ (rank d < rank (n_id n))%nat.

(** In a DAG whose existing rows are all done, a node without a row means a
    ready node. *)
Lemma nothing_ready_all_rows nodes w run_id :
  db_ok w → acyclic nodes → ready_in nodes (jobs_of_run w run_id) = [] →
  (∀ j, j ∈ node_jobs w → Schema.run_id j = run_id → done_status (status j) = true) →
  ∀ n, n ∈ nodes → satisfied (jobs_of_run w run_id) (n_id n) = true.
Proof.
  intros Hok [rank Hrank] Hidle Hdone.
  assert (∀ k n, n ∈ nodes → (rank (n_id n) < k)%nat →
    satisfied (jobs_of_run w run_id) (n_id n) = true) as Hall; [|eauto].
  induction k as [|k IH]; intros n Hn Hk; [lia|].
  destruct (lookup_node (jobs_of_run w run_id) (n_id n)) as [j|] eqn:E.
  - apply lookup_node_Some in E as [Hj Hc]; [|done]. apply satisfied_true; [done|].
    exists j. split_and!; [done..|]. apply Hdone; [done|]. by injection Hc.
  - exfalso. assert (n ∈ ready_in nodes (jobs_of_run w run_id)) as Hin; [|by rewrite Hidle in Hin; set_solver].
    apply ready_spec; [done|]. split_and!; [done|by apply lookup_node_None|].
    intros d Hd. destruct (Hrank n Hn d Hd) as [(m & Hm & <-) Hlt]. apply IH; [done|lia].
Qed.

Lemma dag_done_all nodes w run_id :
  nodes ≠ [] → (∀ n, n ∈ nodes → satisfied (jobs_of_run w run_id) (n_id n) = true) →
  dag_done nodes (jobs_of_run w run_id) = true.
Proof.
  intros Hne Hall. unfold dag_done. destruct nodes as [|n0 nodes]; [done|].
  apply forallb_forall. intros n Hn%list_elem_of_In. by apply Hall.
Qed.

(** What the drop of the dead rows leaves: the completed and skipped rows of
    the run, and every row of the others. *)
Definition without_dead (run_id : string) (w : world) : world :=
  (delete_non_terminal_jobs_for_run run_id w).2.

Lemma without_dead_rows run_id w j :
  j ∈ node_jobs (without_dead run_id w) ↔
  j ∈ node_jobs w ∧ (Schema.run_id j ≠ run_id ∨ done_status (status j) = true).
Proof.
  unfold without_dead. simpl. rewrite node_jobs_on_jobs, elem_of_Lfilter.
  unfold unsatisfied, done_status. rewrite negb_true_iff, andb_false_iff.
  rewrite negb_false_iff, bool_decide_eq_false. done.
Qed.

Lemma without_dead_ok run_id w : db_ok w → db_ok (without_dead run_id w).
Proof.
  intros [H1' H2' H3 H4 H5 H6]. unfold without_dead. simpl.
  split; autorewrite with engine; rewrite ?uuids_on_jobs; auto using NoDup_map_Lfilter.
  - intros j [Hj _]%elem_of_Lfilter. auto.
  - intros j [Hj _]%elem_of_Lfilter. auto.
  - intros n Hn (y & E & [Hy _]%elem_of_Lfilter)%list_elem_of_fmap.
    apply (H6 n Hn). apply list_elem_of_fmap. by exists y.
Qed.

Lemma grows_fresh run_id l w w' :
  grows run_id l w w' → l ≠ [] →
  ∃ j, j ∈ node_jobs w' ∧ j ∉ node_jobs w ∧ Schema.run_id j = run_id ∧
    (status j = Queued ∨ status j = Skipped).
Proof.
  intros [[_ Hnd _ _ _ _] _ _ _ (js & E & Hc & HF)] Hne.
  destruct js as [|j js]; [by destruct l|]. exists j. rewrite E in *.
  rewrite map_app, NoDup_app in Hnd. destruct Hnd as (_ & Hnd & _).
  split_and!.
  - apply elem_of_app. right. left.
  - intros Hj. apply (Hnd (cell j)); [apply list_elem_of_fmap; by exists j|left].
  - destruct l as [|n l]; [done|]. by injection Hc.
  - apply Forall_inv in HF. apply HF.
Qed.

Definition running_run (now : Z) (r : run) : run :=
  r |> set_rstatus r_running |> set_updated_at now.
Lemma set_run_running_world i w :
  set_run_running i w = (Ok (), on_runs (update_where (named i) (running_run (clock w))) w).
Proof. done. Qed.
Lemma run_of_running i now w r :
  run_of w i = Some r →
  run_of (on_runs (update_where (named i) (running_run now)) w) i = Some (running_run now r).
Proof.
  intros Hr. rewrite run_of_update by by intros []. rewrite Hr. simpl.
  unfold run_of in Hr. apply find_some in Hr as [_ E]. unfold named. by rewrite E.
Qed.

Lemma run_of_grows run_id l w w' i : grows run_id l w w' → run_of w' i = run_of w i.
Proof. intros [_ Hr _ _ _]. unfold run_of. by rewrite Hr. Qed.
Lemma grows_nil run_id w w' : grows run_id [] w w' → node_jobs w' = node_jobs w.
Proof.
  intros [_ _ _ _ (js & -> & E & _)]. apply map_eq_nil in E as ->. by rewrite app_nil_r.
Qed.

(** In a stuck run of a DAG that is not done, dropping the dead rows makes a
    node ready. *)
Lemma wedged_run_has_ready_node nodes run_id w w1 :
  db_ok w → db_ok w1 → nodes ≠ [] → acyclic nodes →
  dag_done nodes (jobs_of_run w run_id) = false →
  (∀ j, j ∈ node_jobs w1 → j ∈ node_jobs w) →
  (∀ j, j ∈ node_jobs w1 → Schema.run_id j = run_id → done_status (status j) = true) →
  ready_in nodes (jobs_of_run w1 run_id) ≠ [].
Proof.
  intros Hok Hok1 Hne Hac Hnd Hsub Hdone Hidle.
  pose proof (nothing_ready_all_rows _ _ _ Hok1 Hac Hidle Hdone) as Hall.
  rewrite dag_done_all in Hnd; [done|done|]. intros n Hn.
  specialize (Hall n Hn). apply satisfied_true in Hall as (j & Hj & Hc & Hd); [|done].
  apply satisfied_true; [done|]. eauto.
Qed.

(** The two ways a stuck run gets going again. *)
Definition revived (run_id : string) (w w' : world) : Prop :=
  (∃ r', run_of w' run_id = Some r' ∧ rstatus r' = r_running) ∧
  ∃ j, j ∈ node_jobs w' ∧ j ∉ node_jobs w ∧ Schema.run_id j = run_id.

Lemma revived_by_growth run_id l w w1 r :
  run_of w run_id = Some r → grows run_id l w w1 → l ≠ [] →
  revived run_id w (on_runs (update_where (named run_id) (running_run (clock w1))) w1).
Proof.
  intros Hr Hg Hne. split.
  - exists (running_run (clock w1) r). split; [|by destruct r].
    apply run_of_running. by rewrite (run_of_grows _ _ _ _ _ Hg).
  - destruct (grows_fresh _ _ _ _ Hg Hne) as (j & Hj & Hn & Hi & _).
    exists j. by rewrite node_jobs_on_runs.
Qed.

Lemma unwedge_revives run_id wf r nodes w tag w' :
  db_ok w → run_of w run_id = Some r → _nodes_of wf (out_dir r) = Ok nodes →
  nodes ≠ [] → acyclic nodes → dag_done nodes (jobs_of_run w run_id) = false →
  ready_in nodes (jobs_of_run w run_id) = [] →
  (∀ j, j ∈ node_jobs w → Schema.run_id j = run_id → live_status (status j) = false) →
  unwedge_run run_id wf r w = (Ok tag, w') →
  tag = requeued ∧ revived run_id w w' ∧
  ∀ j, j ∈ node_jobs w → Schema.run_id j ≠ run_id ∨ done_status (status j) = true →
       j ∈ node_jobs w'.
Proof.
  intros Hok Hr Hn Hne Hac Hnd Hidle Hlive.
  pose proof (without_dead_ok run_id w Hok) as Hok2.
  assert (∀ j, j ∈ node_jobs (without_dead run_id w) → Schema.run_id j = run_id →
            done_status (status j) = true) as Hdone2.
  { intros j [_ [?|?]]%without_dead_rows; done. }
  assert (ready_in nodes (jobs_of_run (without_dead run_id w) run_id) ≠ []) as Hrd.
  { apply (wedged_run_has_ready_node _ _ w); try done.
    intros j [Hj _]%without_dead_rows. done. }
  unfold unwedge_run, mbind, M_bind. unfold delete_non_terminal_jobs_for_run at 1.
  fold (without_dead run_id w). destruct (_ <$> List.filter _ _) as [|d ds] eqn:Ed.
  { exfalso. apply Hrd. rewrite <- Hidle. f_equal. unfold jobs_of_run. do 2 f_equal.
    unfold without_dead. simpl. rewrite node_jobs_on_jobs. apply fmap_nil_inv in Ed.
    apply Lfilter_all. intros j Hj. apply negb_true_iff. apply not_true_iff_false. intros Hp.
    assert (j ∈ List.filter (λ j : node_job, bool_decide (Schema.run_id j = run_id) &&
      unsatisfied j) (node_jobs w)) as Hin by by apply elem_of_Lfilter.
    rewrite Ed in Hin. set_solver. }
  change (on_jobs _ w) with (without_dead run_id w).
  destruct (_process_ready run_id wf r (without_dead run_id w)) as [[k|e] w2] eqn:Ep; [|done].
  eapply process_ready_spec in Ep as (l & Hx & -> & Hidle2); [|done..].
  destruct l as [|n0 l]; simpl.
  { exfalso. apply Hrd. rewrite <- Hidle2. unfold jobs_of_run.
    by rewrite (grows_nil _ _ _ (proj1 Hx)). }
  intros [= <- <-]. split; [done|]. split.
  - assert (run_of (without_dead run_id w) run_id = Some r) as Hr2
      by (rewrite <- Hr; by destruct w).
    destruct (revived_by_growth run_id (n0 :: l) (without_dead run_id w) w2 r Hr2 (proj1 Hx))
      as [Hrun _]; [done|].
    split; [done|]. destruct (grows_fresh _ _ _ _ (proj1 Hx)) as (j & Hj & Hnj & Hi & Hs); [done|].
    exists j. rewrite node_jobs_on_runs. split_and!; [done| |done].
    intros Hj0. apply Hnj, without_dead_rows. split; [done|]. right.
    destruct Hs as [Hs|Hs]; rewrite Hs; [|done]. exfalso.
    specialize (Hlive j Hj0 Hi). by rewrite Hs in Hlive.
  - intros j Hj Hk. rewrite node_jobs_on_runs. eapply grows_old; [apply Hx|].
    by apply without_dead_rows.
Qed.

(** C9: the reconciler revives every stuck run of a DAG.  For a run that is not
    terminal and has no live job, it either marks it completed, when every node
    is done, or sets it running with at least one new row (enqueueing what was
    ready, else dropping the cancelled and failed rows first); it never gives up
    on it, and the completed and skipped rows all survive. *)
Theorem reconcile_revives_stuck_runs run_id w r wf nodes tag w' :
  db_ok w → run_of w run_id = Some r → rstatus r ∉ [r_completed; r_failed; r_cancelled] →
  (∀ j, j ∈ node_jobs w → Schema.run_id j = run_id → live_status (status j) = false) →
  _load_workflow (workflow_name r) = Ok wf → _nodes_of wf (out_dir r) = Ok nodes →
  nodes ≠ [] → acyclic nodes →
  reconcile_run run_id w = (Ok tag, w') →
  (if dag_done nodes (jobs_of_run w run_id)
   then tag = completed ∧ ∃ r', run_of w' run_id = Some r' ∧ rstatus r' = r_completed
   else (tag = enqueued ∨ tag = requeued) ∧ revived run_id w w') ∧
  ∀ j, j ∈ node_jobs w → done_status (status j) = true → j ∈ node_jobs w'.
Proof.
  intros Hok Hr Hs Hlive Hw Hn Hne Hac.
  unfold reconcile_run, get_run, _jobs_by_node_id, list_jobs_for_run, gets, mbind, M_bind.
  rewrite Hr, bool_decide_eq_false_2 by done.
  replace (existsb _ (jobs_of_run w run_id)) with false; cycle 1.
  { symmetry. apply exists_row_false. intros j [Hj Hi]%elem_of_jobs_of_run. auto. }
  unfold reconcile_stuck, lift, mbind, M_bind. rewrite Hw, Hn.
  destruct (dag_done nodes (jobs_of_run w run_id)) eqn:Hd.
  { rewrite complete_run_world. intros [= <- <-]. split; [split; [done|]|].
    - rewrite (run_of_finished _ _ _ _ _ r) by done. eexists. split; [done|]. by destruct r.
    - intros j Hj _. by rewrite node_jobs_on_runs. }
  destruct (_process_ready run_id wf r w) as [[k|e] w1] eqn:Ep; [|done].
  eapply process_ready_spec in Ep as (l & Hx & -> & Hidle); [|done..].
  destruct l as [|n0 l]; simpl.
  - pose proof (grows_nil _ _ _ (proj1 Hx)) as Hsame.
    assert (jobs_of_run w1 run_id = jobs_of_run w run_id) as Hjobs
      by (unfold jobs_of_run; by rewrite Hsame).
    intros E. eapply (unwedge_revives _ _ _ nodes) in E as (-> & [Hrun Hnew] & Hkeep); try done.
    + rewrite Hsame in Hnew, Hkeep. split; [split; [by right|by split]|]. intros j Hj Hdj. auto.
    + eapply g_ok, Hx.
    + by rewrite (run_of_grows _ _ _ _ _ (proj1 Hx)).
    + by rewrite Hjobs.
    + by rewrite Hsame.
  - intros [= <- <-]. split.
    + split; [by left|]. by eapply revived_by_growth; [|apply Hx|].
    + intros j Hj _. rewrite node_jobs_on_runs. eapply grows_old; [apply Hx|done].
Qed.
End dispatcher_props.

(** * Witnesses *)

Module DispatchDemo.
(** A pipeline of two cpu nodes, the second after the first, behind one step. *)
Definition plain_node (i : string) (deps : list string) : schema_node :=
  mkSchemaNode i None deps false None [] JNull None None None None false JNull JNull JNull.
Definition pipe : list schema_node := [plain_node "a" []; plain_node "b" ["a"]].
Definition wf : workflow :=
  mkWorkflow [mkStep "s" "pipeline" None None "pipe" [] [] JNull []].
#[local] Instance dcfg : DispatchConfig := {|
  config_workflow_loader := Some (λ _, Ok wf);
  config_pipeline_schema_loader := Some (λ _, Ok pipe);
  config_resolve_ref := @resolve_ref Demo.py;
  config_vlm_pool_node_modules := [];
  config_gpu_self_load_node_modules := [];
  literal_eval _ := None;
  step_files _ := [];
  is_file _ := false;
  isoformat t := pretty t;
|}.
#[local] Existing Instance Demo.py.
#[local] Existing Instance Demo.cfg.
Definition nodes : list node :=
  match _nodes_of wf None with Ok l => l | Raise _ => [] end.

(** The run started, its first node completed, and the run with that node
    cancelled instead. *)
Definition started : world := (start_run "r1" Demo.empty_world).2.
Definition a_done : world := (mark_completed (uuid4 0) [] 1 None started).2.
Definition a_cancelled : world := (cancel_queued_jobs_for_run "r1" started).2.

Lemma started_ok : db_ok started.
Proof.
  apply (start_run_twice "r1" Demo.empty_world 1); [apply Demo.empty_ok|].
  vm_compute. reflexivity.
Qed.
Lemma a_done_ok : db_ok a_done.
Proof. apply update_job_db_ok, started_ok. Qed.
Lemma a_cancelled_ok : db_ok a_cancelled.
Proof. apply db_ok_update, started_ok. Qed.
End DispatchDemo.

Lemma process_ready_terminates_witness :
  ∃ w', @process_ready_loop Demo.py Demo.cfg DispatchDemo.dcfg 9 "r1" DispatchDemo.wf Demo.run1
          Demo.empty_world = (Ok (Some 1), w') ∧
    ready_in DispatchDemo.nodes (jobs_of_run w' "r1") = [].
Proof.
  destruct (@process_ready_terminates Demo.py Demo.cfg DispatchDemo.dcfg DispatchDemo.nodes "r1"
    DispatchDemo.wf Demo.run1 Demo.empty_world 9) as (res & w' & E & _ & Hr & _).
  - exact Demo.empty_ok.
  - reflexivity.
  - vm_compute. lia.
  - assert (res = Ok (Some 1)) as ->.
    { transitivity ((@process_ready_loop Demo.py Demo.cfg DispatchDemo.dcfg 9 "r1"
        DispatchDemo.wf Demo.run1 Demo.empty_world).1); [rewrite E; reflexivity|].
      vm_compute. reflexivity. }
    exists w'. split; [exact E|]. apply (Hr 1). reflexivity.
Defined.

Lemma start_run_idempotent_witness :
  @start_run Demo.py Demo.cfg DispatchDemo.dcfg "r1" DispatchDemo.started
    = (Ok 0, DispatchDemo.started).
Proof.
  apply (@start_run_idempotent Demo.py Demo.cfg DispatchDemo.dcfg "r1" Demo.empty_world 1).
  - exact Demo.empty_ok.
  - vm_compute. reflexivity.
Defined.

Lemma on_node_completed_advances_witness :
  ∃ n w', @on_node_completed Demo.py Demo.cfg DispatchDemo.dcfg "r1" "s/a" DispatchDemo.a_done
            = (Ok n, w') ∧ ∃ l : list node, n = Z.of_nat (length l) ∧ length l = 1%nat.
Proof.
  eexists 1, _. split; [vm_compute; reflexivity|].
  destruct (@on_node_completed_advances Demo.py Demo.cfg DispatchDemo.dcfg "r1" "s/a"
    DispatchDemo.a_done 1
    (@on_node_completed Demo.py Demo.cfg DispatchDemo.dcfg "r1" "s/a" DispatchDemo.a_done).2
    Demo.run1 DispatchDemo.wf DispatchDemo.nodes) as (l & w1 & Hl & _).
  - exact DispatchDemo.a_done_ok.
  - vm_compute. reflexivity.
  - apply (bool_decide_unpack _). vm_compute. exact I.
  - vm_compute. reflexivity.
  - reflexivity.
  - reflexivity.
  - vm_compute. reflexivity.
  - exists l. split; [exact Hl|lia].
Defined.

Lemma on_node_failed_stops_the_run_witness :
  ∃ w', @on_node_failed Demo.py "r1" "s/a" DispatchDemo.started = (Ok (), w') ∧
    ∀ m, @on_node_completed Demo.py Demo.cfg DispatchDemo.dcfg "r1" m w' = (Ok 0, w').
Proof.
  destruct (@on_node_failed_stops_the_run Demo.py Demo.cfg DispatchDemo.dcfg "r1" "s/a"
    DispatchDemo.started Demo.run1) as (w' & r' & E & _ & _ & _ & _ & _ & Hm).
  - exact DispatchDemo.started_ok.
  - vm_compute. reflexivity.
  - apply (bool_decide_unpack _). vm_compute. exact I.
  - vm_compute. reflexivity.
  - exists w'. split; [exact E|]. intros m. apply Hm.
Defined.

Lemma reconcile_revives_stuck_runs_witness :
  ∃ w', @reconcile_run Demo.py Demo.cfg DispatchDemo.dcfg "r1" DispatchDemo.a_cancelled
          = (Ok requeued, w') ∧ revived "r1" DispatchDemo.a_cancelled w'.
Proof.
  eexists. split; [vm_compute; reflexivity|].
  destruct (@reconcile_revives_stuck_runs Demo.py Demo.cfg DispatchDemo.dcfg "r1"
    DispatchDemo.a_cancelled Demo.run1 DispatchDemo.wf DispatchDemo.nodes requeued
    (@reconcile_run Demo.py Demo.cfg DispatchDemo.dcfg "r1" DispatchDemo.a_cancelled).2)
    as [Hif _].
  - exact DispatchDemo.a_cancelled_ok.
  - vm_compute. reflexivity.
  - apply (bool_decide_unpack _). vm_compute. exact I.
  - intros j Hj _. vm_compute in Hj. apply list_elem_of_singleton in Hj as ->. reflexivity.
  - reflexivity.
  - reflexivity.
  - discriminate.
  - exists (λ i, if String.eqb i "s/b" then 1%nat else 0%nat). intros n Hn d Hd.
    vm_compute in Hn. apply elem_of_cons in Hn as [->|Hn]; [inversion Hd|].
    apply list_elem_of_singleton in Hn as ->. apply list_elem_of_singleton in Hd as ->.
    split; [|vm_compute; lia]. eexists. split; [left|reflexivity].
  - vm_compute. reflexivity.
  - exact (proj2 Hif).
Defined.
