(* ===== verification/Executor.v ===== *)
(** * The execution of a claimed node-job ([queue_workflows/node_executor.py])

    [execute_node] from the dedup short-circuit to the terminal mark, the outbox
    row written in the same transaction, and the bounded requeue of transient
    accelerator errors.  The node bodies, the model cache and the invoke hooks
    are the host's. *)

From S2P Require Import Prelude.
From S2P Require Import Json.
From S2P Require Import Refs.
From S2P Require Import Schema.
From S2P Require Import NodeQueue.
From S2P Require Import Claim.
From S2P Require Import RunStore.
From S2P Require Import Workflow.
From S2P Require Import Dispatcher.
Local Open Scope string_scope.
Local Open Scope list_scope.
Local Open Scope Z_scope.

(** What a worker process brings to an execution: the model cache
    ([require_model], None when the lane has no cache; the load time in
    microseconds), the invoke hook (its [finalize], when it yields one), the
    resolver of the LLM server, the node body (the [context_delta] that [_invoke]
    returns), the text and traceback of an exception, [repr] of a string, the
    elapsed time, the process's memory and the retry cap of the environment. *)
Class Worker := {
  model_cache : option (string → result Z);
  invoke_context : node_job → option run → result (option (dict → result dict));
  resolve_llm_server : node_job → result ();
  run_body : node_job → dict → result dict;
  exc_text : exc → string;
  format_exc : exc → string;
  repr_text : string → string;
  round_s : Z → json;
  elapsed_us : Z;
  _rss_mb : option Z;
  _watchdog_max_retries : Z;
}.

Inductive outcome := o_completed | o_failed | o_skipped | o_requeued.

(** [_is_transient_gpu_error] *)
Definition _GPU_ERROR_MARKERS : list string :=
  ["acceleratorerror"; "cuda error"; "cuda-capable"; "cublas"; "cudnn"; "nvml";
   "out of memory"; "device-side assert"; "hip error"; "rocm error";
   "busy or unavailable"; "cudaerrordevicesunavailable"; "no cuda-capable device"].
Definition _is_transient_gpu_error (text : string) : bool :=
  existsb (λ m, PyStr.contains m (PyStr.lower text)) _GPU_ERROR_MARKERS.

Section executor.
Context `{QueueConfig} `{DispatchConfig} `{Worker}.

(** [record_node_event(.., **_event_base(job))] *)
Definition _event_base (job : node_job) (type : string) (secs : option Z) (err : option string)
    (det : dict) : M () := λ w,
  record_node_event
    (mkNodeEvent (Schema.run_id job) (node_id job) (Some (jid job)) (watchdog_retries job) type
       (coalesce (nonempty (claimed_by job)) (host_label job)) (Some (queue job))
       (required_model job) secs (clip_error <$> err) det (_project None) (clock w)) w.

(** The terminal mark and its dispatch event, in one transaction; true when the
    mark took. *)
Definition mark_and_dispatch (job : node_job) (mark : M (option node_job)) (k : event_kind) :
    M bool :=
  transaction (
    row ← mark;
    match (row : option node_job) with
    | None => mret false
    | Some _ => _ ← enqueue_dispatch_event_in_txn (Schema.run_id job) (node_id job) k;
                mret true
    end).

Definition _finalise_completed (job : node_job) (delta det : dict) : M outcome :=
  took ← mark_and_dispatch job
           (mark_completed_in_txn (jid job) delta elapsed_us _rss_mb) k_completed;
  if (took : bool) then
    _ ← _event_base job "completed" (Some elapsed_us) None det;
    mret o_completed
  else mret o_skipped.

Definition _finalise_failed (job : node_job) (err : string) : M outcome :=
  took ← mark_and_dispatch job
           (mark_failed_in_txn (jid job) err (Some elapsed_us)) k_failed;
  if (took : bool) then
    _ ← _event_base job "failed" (Some elapsed_us) (Some err) [];
    mret o_failed
  else mret o_skipped.

Definition _requeue_for_transient_gpu (job : node_job) (err : string) : M outcome :=
  if _watchdog_max_retries <=? watchdog_retries job then _finalise_failed job err
  else
    requeued ← requeue_job_for_retry (jid job);
    match (requeued : option node_job) with
    | None => _finalise_failed job err
    | Some r =>
        _ ← _event_base job "requeued" (Some elapsed_us) (Some err)
              [("retry", JInt (watchdog_retries r)); ("reason", JStr "transient_gpu_error")];
        mret o_requeued
    end.

(** How an exception of the load or of the body ends the job. *)
Definition end_with_error (job : node_job) (short err : string) : M outcome :=
  if _is_transient_gpu_error short then _requeue_for_transient_gpu job err
  else _finalise_failed job err.

(** The invoke, inside the host's context manager. *)
Definition invoke_and_finalise (job : node_job) (run : option run) (fresh : dict) : M outcome :=
  finalize ← lift (invoke_context job run);
  match (_ ← (if is_cluster_reservation job then Ok () else resolve_llm_server job);
         run_body job fresh) with
  | Raise e => end_with_error job (exc_text e) (exc_text e +:+ newline +:+ format_exc e)
  | Ok delta =>
      final ← lift (match (finalize : option (dict → result dict)) with
                    | Some f => f delta
                    | None => Ok delta
                    end);
      _finalise_completed job final []
  end.

Definition resolve_and_invoke (job : node_job) (run : option run) : M outcome :=
  fresh ← resolve_inputs_for_job (Some job);
  _ ← try_except (NodeQueue.set_resolved_inputs (jid job) fresh) (λ _, Some (mret ()));
  invoke_and_finalise job run fresh.

(** [if required_model and not remote_served] *)
Definition needs_cache (job : node_job) : option string :=
  if match server_types job with Some (_ :: _) => true | _ => false end then None
  else nonempty (required_model job).

Definition execute_loaded (job : node_job) (run : option run) : M outcome :=
  match needs_cache job with
  | None => resolve_and_invoke job run
  | Some m =>
      match model_cache with
      | None => _finalise_failed job
          ("node " +:+ repr_text (node_id job) +:+ " declares required_model " +:+
           repr_text m +:+ " but no model_cache was supplied")
      | Some require_model =>
          match require_model m with
          | Raise e => end_with_error job ("model load failed: " +:+ exc_text e)
                         ("model load failed: " +:+ exc_text e)
          | Ok t =>
              _ ← _event_base job "model_load_done" (Some t) None [("model_load_s", round_s t)];
              resolve_and_invoke job run
          end
      end
  end.

(** [execute_node] *)
Definition execute_node (job : node_job) : M outcome :=
  run ← get_run (Schema.run_id job);
  twin ← (match nonempty (dedup_key job) with
          | Some k => find_completed_duplicate (Some k) (Some (project job)) (Some (jid job))
          | None => mret None
          end);
  match (twin : option node_job) with
  | Some t =>
      _finalise_completed job (dict_set "_deduped_from" (JStr (jid t)) (context_delta t))
        [("deduped_from", JStr (jid t)); ("dedup_key", json_of_opt (dedup_key job))]
  | None => execute_loaded job run
  end.
End executor.

(** * Lemmas *)

Section executor_lemmas.
Context `{QueueConfig} `{DispatchConfig} `{Worker}.
Implicit Types (w : world) (j job : node_job).

(** A step that settles nothing: the row keeps its status and retries, and no
    dispatch event is written. *)
Record quiet (i : string) (w w' : world) : Prop := {
  q_ok : db_ok w';
  q_events : dispatch_events w' = dispatch_events w;
  q_seq : event_seq w' = event_seq w;
  q_clock : clock w' = clock w;
  q_row : ∀ j, j ∈ node_jobs w → jid j = i → ∃ j', j' ∈ node_jobs w' ∧ spec j' = spec j ∧
    status j' = status j ∧ watchdog_retries j' = watchdog_retries j;
}.

Lemma quiet_refl i w : db_ok w → quiet i w w.
Proof. intros Hok. split; eauto. Qed.
Lemma quiet_trans i w1 w2 w3 : quiet i w1 w2 → quiet i w2 w3 → quiet i w1 w3.
Proof.
  intros [A1 B1 C1 D1 E1] [A2 B2 C2 D2 E2]. split; [done|congruence..|].
  intros j Hj Hi. destruct (E1 j Hj Hi) as (j' & Hj' & Hs & Hst & Hr).
  destruct (E2 j' Hj') as (j'' & Hj'' & Hs' & Hst' & Hr'); [congruence|].
  exists j''. split_and!; congruence.
Qed.

Lemma set_node_events_quiet i e w : db_ok w → quiet i w (set_node_events e w).
Proof.
  intros Hok. split; [|by destruct w..|].
  - apply (db_ok_same w); [by destruct w..|done].
  - intros j Hj Hi. exists j. by destruct w.
Qed.

Lemma event_base_quiet i job type secs err det w :
  db_ok w → ∃ w', _event_base job type secs err det w = (Ok (), w') ∧ quiet i w w'.
Proof.
  intros Hok. unfold _event_base, record_node_event, record_node_event_in_txn, try_except.
  destruct (negb (bool_decide _)); [eexists; split; [done|by apply quiet_refl]|].
  destruct (negb (exists_row _ _)); [eexists; split; [done|by apply quiet_refl]|].
  eexists. split; [done|]. by apply set_node_events_quiet.
Qed.

Lemma resolve_inputs_world o w : (resolve_inputs_for_job o w).2 = w.
Proof.
  unfold resolve_inputs_for_job. destruct o as [j|]; [|done].
  destruct (PyStr.startswith _ _); [done|]. unfold get_run, gets, mbind, M_bind.
  destruct (run_of w _) as [r|]; [|done]. pose proof (ref_context_world r w) as E.
  destruct (_ref_context r w) as [[]]; simpl in E; by subst.
Qed.

Lemma set_resolved_inputs_quiet i k d w :
  db_ok w → ∃ w', try_except (NodeQueue.set_resolved_inputs k d) (λ _, Some (mret ())) w
              = (Ok (), w') ∧ quiet i w w'.
Proof.
  intros Hok. eexists. split; [done|]. split; [by apply db_ok_update|by destruct w..|].
  intros j Hj _. rewrite node_jobs_on_jobs. eexists. split.
  - apply elem_of_update_where. exists j. split; [done|reflexivity].
  - destruct (is_job _ _ _); [by destruct j as [? []]|done].
Qed.

(** The world after a terminal mark that took, with its event. *)
Lemma mark_and_dispatch_spec job j k mark g f w :
  (∀ w, mark w = update_job (jid job) g f w) →
  db_ok w → j ∈ node_jobs w → jid j = jid job →
  mark_and_dispatch job mark k w =
    if g (st j) then
      (Ok true,
       w |> on_jobs (update_where (is_job (jid job) g) (upd (f (clock w))))
         |> on_events (λ t, t ++ [mkEvent (event_seq w + 1) (Schema.run_id job) (node_id job)
                                    k None None 0 (clock w)])
         |> set_event_seq (event_seq w + 1))
    else (Ok false, w).
Proof.
  intros Hm Hok Hj Hi. unfold mark_and_dispatch, transaction, mbind, M_bind. rewrite Hm.
  destruct (g (st j)) eqn:Hg.
  - rewrite (update_job_hit _ _ _ _ j) by done. by destruct w.
  - rewrite update_job_miss; [done|]. intros j' Hj'. unfold is_job.
    case_bool_decide as E; [|done].
    assert (j' = j) as -> by (apply (job_by_id_unique w); unfold job_key in *; congruence).
    done.
Qed.

(** How an execution may leave the job's row and the outbox. *)
Definition event_of (w : world) (job : node_job) (k : event_kind) : dispatch_event :=
  mkEvent (event_seq w + 1) (Schema.run_id job) (node_id job) k None None 0 (clock w).
Definition row_settled (job : node_job) (w : world) (res : result outcome) (w' : world)
    (j j' : node_job) : Prop :=
  match res with
  | Ok o_completed => not_terminal (st j) = true ∧ status j' = Completed ∧
      dispatch_events w' = dispatch_events w ++ [event_of w job k_completed]
  | Ok o_failed => not_terminal (st j) = true ∧ status j' = Failed ∧
      dispatch_events w' = dispatch_events w ++ [event_of w job k_failed]
  | Ok o_requeued => status j = Running ∧ status j' = Queued ∧
      watchdog_retries j' = watchdog_retries j + 1 ∧
      watchdog_retries job < _watchdog_max_retries ∧
      dispatch_events w' = dispatch_events w
  | Ok o_skipped => not_terminal (st j) = false ∧ status j' = status j ∧
      dispatch_events w' = dispatch_events w
  | Raise _ => status j' = status j ∧ dispatch_events w' = dispatch_events w
  end.
Definition settles (job : node_job) (w : world) (res : result outcome) (w' : world) : Prop :=
  db_ok w' ∧ ∀ j, j ∈ node_jobs w → jid j = jid job →
    ∃ j', j' ∈ node_jobs w' ∧ spec j' = spec j ∧ row_settled job w res w' j j'.

Lemma settles_after_quiet job w w1 res w' :
  quiet (jid job) w w1 → settles job w1 res w' → settles job w res w'.
Proof.
  intros Q [Hok Hs]. split; [done|]. intros j Hj Hi.
  destruct (q_row _ _ _ Q j Hj Hi) as (j1 & Hj1 & Hsp & Hst & Hr).
  destruct (Hs j1 Hj1) as (j' & Hj' & Hsp' & Hrow); [congruence|].
  exists j'. split; [done|]. split; [congruence|]. revert Hrow.
  unfold row_settled, event_of, not_terminal.
  rewrite (q_events _ _ _ Q), (q_seq _ _ _ Q), (q_clock _ _ _ Q), Hst, Hr. done.
Qed.

Lemma settles_before_quiet job w res w1 w' :
  settles job w res w1 → quiet (jid job) w1 w' → settles job w res w'.
Proof.
  intros [Hok Hs] Q. split; [by eapply q_ok|]. intros j Hj Hi.
  destruct (Hs j Hj Hi) as (j1 & Hj1 & Hsp & Hrow).
  destruct (q_row _ _ _ Q j1 Hj1) as (j' & Hj' & Hsp' & Hst & Hr); [congruence|].
  exists j'. split; [done|]. split; [congruence|]. revert Hrow.
  unfold row_settled. by rewrite (q_events _ _ _ Q), Hst, Hr.
Qed.

Lemma settles_raise job w e w' : quiet (jid job) w w' → settles job w (Raise e) w'.
Proof.
  intros Q. split; [by eapply q_ok|]. intros j Hj Hi.
  destruct (q_row _ _ _ Q j Hj Hi) as (j' & Hj' & Hsp & Hst & _).
  exists j'. split_and!; [done..|]. split; [done|]. by apply (q_events _ _ _ Q).
Qed.

(** A mark and its event, then the forensic event. *)
Lemma finalise_settles job mark k f (o : outcome) s' w :
  (∀ w, mark w = update_job (jid job) not_terminal f w) →
  (∀ now s, status (f now s) = s') →
  (o = o_completed ∧ s' = Completed ∧ k = k_completed ∨
   o = o_failed ∧ s' = Failed ∧ k = k_failed) →
  db_ok w → (∃ j, j ∈ node_jobs w ∧ jid j = jid job) →
  ∃ took w1, mark_and_dispatch job mark k w = (Ok took, w1) ∧ db_ok w1 ∧
    settles job w (Ok (if took then o else o_skipped)) w1.
Proof.
  intros Hm Hf Ho Hok (j & Hj & Hi). rewrite (mark_and_dispatch_spec job j k mark not_terminal f)
    by done.
  destruct (not_terminal (st j)) eqn:Hg; (eexists _, _; split; [done|]).
  - assert (db_ok (w |> on_jobs (update_where (is_job (jid job) not_terminal) (upd (f (clock w))))
      |> on_events (λ t, t ++ [event_of w job k]) |> set_event_seq (event_seq w + 1))) as Hok'.
    { eapply db_ok_same; [| | |exact (db_ok_update w (is_job (jid job) not_terminal)
        (f (clock w)) Hok)]; by destruct w. }
    split; [done|]. split; [done|]. intros j0 Hj0 Hi0.
    assert (j0 = j) as -> by (apply (job_by_id_unique w); congruence).
    exists (upd (f (clock w)) j). split.
    { replace (node_jobs _) with (update_where (is_job (jid job) not_terminal)
        (upd (f (clock w))) (node_jobs w)) by by destruct w.
      apply elem_of_update_where. exists j. split; [done|]. unfold is_job.
      rewrite bool_decide_eq_true_2 by done. by rewrite Hg. }
    split; [done|].
    assert (dispatch_events (w |> on_jobs (update_where (is_job (jid job) not_terminal)
      (upd (f (clock w)))) |> on_events (λ t, t ++ [event_of w job k])
      |> set_event_seq (event_seq w + 1)) = dispatch_events w ++ [event_of w job k]) as He
      by by destruct w.
    destruct Ho as [(-> & -> & ->)|(-> & -> & ->)]; simpl;
      (split_and!; [done|apply Hf|exact He]).
  - split; [done|]. split; [done|]. intros j0 Hj0 Hi0.
    assert (j0 = j) as -> by (apply (job_by_id_unique w); congruence).
    exists j. done.
Qed.

Lemma finalise_completed_settles job delta det w res w' :
  db_ok w → (∃ j, j ∈ node_jobs w ∧ jid j = jid job) →
  _finalise_completed job delta det w = (res, w') → settles job w res w'.
Proof.
  intros Hok Hj. unfold _finalise_completed, mbind, M_bind.
  edestruct (finalise_settles job (mark_completed_in_txn (jid job) delta elapsed_us _rss_mb)
    k_completed (completed_set delta elapsed_us _rss_mb) o_completed Completed w) as (took & w1 & -> & Hok1 & Hs);
    [done|by intros ? []|by left|done|done|].
  destruct took; [|by intros [= <- <-]].
  destruct (event_base_quiet (jid job) job "completed" (Some elapsed_us) None det w1 Hok1)
    as (w2 & -> & Q). intros [= <- <-]. by eapply settles_before_quiet.
Qed.

Lemma finalise_failed_settles job err w res w' :
  db_ok w → (∃ j, j ∈ node_jobs w ∧ jid j = jid job) →
  _finalise_failed job err w = (res, w') → settles job w res w'.
Proof.
  intros Hok Hj. unfold _finalise_failed, mbind, M_bind.
  edestruct (finalise_settles job (mark_failed_in_txn (jid job) err (Some elapsed_us))
    k_failed (failed_set err (Some elapsed_us)) o_failed Failed w) as (took & w1 & -> & Hok1 & Hs);
    [done|by intros ? []|by right|done|done|].
  destruct took; [|by intros [= <- <-]].
  destruct (event_base_quiet (jid job) job "failed" (Some elapsed_us) (Some err) [] w1 Hok1)
    as (w2 & -> & Q). intros [= <- <-]. by eapply settles_before_quiet.
Qed.

Lemma requeue_for_transient_settles job err w res w' :
  db_ok w → (∃ j, j ∈ node_jobs w ∧ jid j = jid job) →
  _requeue_for_transient_gpu job err w = (res, w') → settles job w res w'.
Proof.
  intros Hok Hj. unfold _requeue_for_transient_gpu.
  destruct (_watchdog_max_retries <=? watchdog_retries job) eqn:Hmax;
    [by apply finalise_failed_settles|].
  apply Z.leb_gt in Hmax. destruct Hj as (j & Hj & Hi). unfold mbind, M_bind.
  unfold requeue_job_for_retry, requeue_job_for_retry_in_txn.
  destruct (has_status Running (st j)) eqn:Hrun.
  - rewrite (update_job_hit _ _ _ _ j) by done. set (w1 := on_jobs _ w).
    assert (db_ok w1) as Hok1 by by apply db_ok_update.
    assert (settles job w (Ok o_requeued) w1) as Hs.
    { split; [done|]. intros j0 Hj0 Hi0.
      assert (j0 = j) as -> by (apply (job_by_id_unique w); congruence).
      exists (upd (retry_set (clock w)) j). split.
      { unfold w1. rewrite node_jobs_on_jobs. apply elem_of_update_where. exists j.
        split; [done|]. unfold is_job. rewrite bool_decide_eq_true_2 by done. by rewrite Hrun. }
      split; [done|]. unfold has_status in Hrun. split_bool.
      simpl. split_and!; [done|by destruct j as [? []]..|done|by destruct w]. }
    match goal with |- context [_event_base job "requeued" ?a ?b ?c] =>
      destruct (event_base_quiet (jid job) job "requeued" a b c w1 Hok1) as (w2 & -> & Q) end.
    intros [= <- <-]. by eapply settles_before_quiet.
  - rewrite update_job_miss; [apply finalise_failed_settles; eauto|].
    intros j0 Hj0. unfold is_job. case_bool_decide as E; [|done].
    assert (j0 = j) as -> by (apply (job_by_id_unique w); unfold job_key in *; congruence).
    done.
Qed.

Lemma end_with_error_settles job short err w res w' :
  db_ok w → (∃ j, j ∈ node_jobs w ∧ jid j = jid job) →
  end_with_error job short err w = (res, w') → settles job w res w'.
Proof.
  unfold end_with_error. destruct (_is_transient_gpu_error short);
    [apply requeue_for_transient_settles|apply finalise_failed_settles].
Qed.

Lemma row_after_quiet job w w' :
  (∃ j, j ∈ node_jobs w ∧ jid j = jid job) → quiet (jid job) w w' →
  ∃ j, j ∈ node_jobs w' ∧ jid j = jid job.
Proof.
  intros (j & Hj & Hi) Q. destruct (q_row _ _ _ Q j Hj Hi) as (j' & Hj' & Hs & _).
  exists j'. split; [done|congruence].
Qed.

Lemma invoke_settles job r fresh w res w' :
  db_ok w → (∃ j, j ∈ node_jobs w ∧ jid j = jid job) →
  invoke_and_finalise job r fresh w = (res, w') → settles job w res w'.
Proof.
  intros Hok Hj. unfold invoke_and_finalise, lift, mbind, M_bind.
  destruct (invoke_context job r) as [fin|e];
    [|intros [= <- <-]; by apply settles_raise, quiet_refl].
  destruct (result_bind _ _ _ _) as [delta|e]; [|by apply end_with_error_settles].
  destruct (match fin with Some f => f delta | None => Ok delta end) as [d|e];
    [by apply finalise_completed_settles|intros [= <- <-]; by apply settles_raise, quiet_refl].
Qed.

Lemma resolve_and_invoke_settles job r w res w' :
  db_ok w → (∃ j, j ∈ node_jobs w ∧ jid j = jid job) →
  resolve_and_invoke job r w = (res, w') → settles job w res w'.
Proof.
  intros Hok Hj. unfold resolve_and_invoke, mbind, M_bind.
  pose proof (resolve_inputs_world (Some job) w) as Hw.
  destruct (resolve_inputs_for_job (Some job) w) as [[fresh|e] w0]; simpl in Hw; subst w0.
  2: { intros [= <- <-]. by apply settles_raise, quiet_refl. }
  destruct (set_resolved_inputs_quiet (jid job) (jid job) fresh w Hok) as (w1 & -> & Q).
  intros E. eapply settles_after_quiet; [done|]. eapply invoke_settles; [by eapply q_ok| |done].
  by eapply row_after_quiet.
Qed.

Lemma find_duplicate_world k p x w : (find_completed_duplicate k p x w).2 = w.
Proof. unfold find_completed_duplicate. by destruct (strip_or_none k). Qed.

Lemma execute_node_settles job w res w' :
  db_ok w → (∃ j, j ∈ node_jobs w ∧ jid j = jid job) →
  execute_node job w = (res, w') → settles job w res w'.
Proof.
  intros Hok Hj. unfold execute_node, get_run, gets, mbind, M_bind.
  assert (∀ r, execute_loaded job r w = (res, w') → settles job w res w') as Hloaded.
  { intros r. unfold execute_loaded. destruct (needs_cache job) as [m|];
      [|by apply resolve_and_invoke_settles].
    destruct model_cache as [rm|]; [|by apply finalise_failed_settles].
    destruct (rm m) as [t|e]; [|by apply end_with_error_settles]. unfold mbind, M_bind.
    destruct (event_base_quiet (jid job) job "model_load_done" (Some t) None
      [("model_load_s", round_s t)] w Hok) as (w1 & -> & Q).
    intros E. eapply settles_after_quiet; [done|].
    eapply resolve_and_invoke_settles; [by eapply q_ok| |done]. by eapply row_after_quiet. }
  destruct (nonempty (dedup_key job)) as [k|]; [|by apply Hloaded].
  pose proof (find_duplicate_world (Some k) (Some (project job)) (Some (jid job)) w) as Hw.
  destruct (find_completed_duplicate _ _ _ w) as [[[t|]|e] w0]; simpl in Hw; subst w0.
  - by apply finalise_completed_settles.
  - by apply Hloaded.
  - intros [= <- <-]. by apply settles_raise, quiet_refl.
Qed.
End executor_lemmas.

(** * Properties *)

Section executor_props.
Context `{QueueConfig} `{DispatchConfig} `{Worker}.
Implicit Types (w : world) (j job : node_job).

(** C5: an execution settles its row and the outbox together.  However it ends,
    the row is completed with exactly one new completed event, or failed with
    exactly one new failed event, or requeued with one more retry, within the cap
    and with no event; when the row was terminal already, and on an exception,
    neither its status nor the outbox changes. *)
Theorem execution_settles_row_and_outbox job j w res w' :
  db_ok w → j ∈ node_jobs w → jid j = jid job → execute_node job w = (res, w') →
  db_ok w' ∧
  ∃ j', j' ∈ node_jobs w' ∧ spec j' = spec j ∧ row_settled job w res w' j j'.
Proof.
  intros Hok Hj Hi E. apply execute_node_settles in E as [Hok' Hs]; [|eauto..]. auto.
Qed.

(** The terminal marks carry no claim fence.  When a recovery sweep has
    already put the row back on the queue, a transient accelerator error in the
    old worker does not leave it there: the retry finds no running row and falls
    through to a failure, which marks the queued row failed and writes the event
    that fails the run. *)
Lemma transient_error_fails_a_requeued_row job j err w :
  db_ok w → j ∈ node_jobs w → jid j = jid job → status j = Queued →
  ∃ j' w', _requeue_for_transient_gpu job err w = (Ok o_failed, w') ∧
    j' ∈ node_jobs w' ∧ spec j' = spec j ∧ status j' = Failed ∧
    dispatch_events w' = dispatch_events w ++ [event_of w job k_failed].
Proof.
  intros Hok Hj Hi Hq.
  destruct (_requeue_for_transient_gpu job err w) as [res w'] eqn:E. pose proof E as E'.
  apply requeue_for_transient_settles in E as [_ Hs]; [|eauto..].
  destruct (Hs j Hj Hi) as (j' & Hj' & Hsp & Hrow).
  assert (∀ res w', _finalise_failed job err w = (res, w') → res = Ok o_failed) as Hff.
  { intros res0 w0. unfold _finalise_failed, mbind, M_bind.
    rewrite (mark_and_dispatch_spec job j _ _ not_terminal (failed_set err (Some elapsed_us)))
      by done.
    replace (not_terminal (st j)) with true by (unfold not_terminal; by rewrite Hq).
    destruct (event_base_quiet (jid job) job "failed" (Some elapsed_us) (Some err) []
      (w |> on_jobs (update_where (is_job (jid job) not_terminal)
              (upd (failed_set err (Some elapsed_us) (clock w))))
         |> on_events (λ t, t ++ [event_of w job k_failed])
         |> set_event_seq (event_seq w + 1))) as (w1 & Ew & _).
    { eapply db_ok_same; [| | |exact (db_ok_update w (is_job (jid job) not_terminal)
        (failed_set err (Some elapsed_us) (clock w)) Hok)]; by destruct w. }
    unfold event_of in Ew. rewrite Ew. by intros [= <- <-]. }
  assert (res = Ok o_failed) as ->.
  { unfold _requeue_for_transient_gpu in E'. case_match; [by apply Hff in E'|].
    unfold mbind, M_bind, requeue_job_for_retry, requeue_job_for_retry_in_txn in E'.
    rewrite update_job_miss in E'; [by apply Hff in E'|].
    intros j0 Hj0. unfold is_job. case_bool_decide as Ei; [|done].
    assert (j0 = j) as -> by (apply (job_by_id_unique w); unfold job_key in *; congruence).
    unfold has_status. by rewrite Hq. }
  destruct Hrow as (_ & Hf & He). eauto 10.
Qed.
End executor_props.

(** * Witnesses *)

Module ExecDemo.
(** A worker whose bodies return one output. *)
Definition worker : Worker := {|
  model_cache := None;
  invoke_context _ _ := Ok None;
  resolve_llm_server _ := Ok ();
  run_body _ _ := Ok [("x", JInt 1)];
  exc_text _ := "cuda error";
  format_exc _ := "";
  repr_text s := s;
  round_s t := JInt t;
  elapsed_us := 5;
  _rss_mb := None;
  _watchdog_max_retries := 3;
|}.
Definition job : node_job := Demo.first Demo.one.
End ExecDemo.

Lemma execution_settles_row_and_outbox_witness :
  ∃ w', @execute_node Demo.cfg DispatchDemo.dcfg ExecDemo.worker ExecDemo.job Demo.one
          = (Ok o_completed, w') ∧
    dispatch_events w' = [event_of Demo.one ExecDemo.job k_completed].
Proof.
  eexists. split; [vm_compute; reflexivity|].
  destruct (@execution_settles_row_and_outbox Demo.cfg DispatchDemo.dcfg ExecDemo.worker
    ExecDemo.job ExecDemo.job Demo.one (Ok o_completed)
    (@execute_node Demo.cfg DispatchDemo.dcfg ExecDemo.worker ExecDemo.job Demo.one).2)
    as (_ & j' & _ & _ & _ & _ & He).
  - exact Demo.one_ok.
  - left.
  - reflexivity.
  - vm_compute. reflexivity.
  - exact He.
Defined.

Lemma transient_error_fails_a_requeued_row_witness :
  ∃ w', @_requeue_for_transient_gpu Demo.cfg ExecDemo.worker ExecDemo.job "cuda error" Demo.one
          = (Ok o_failed, w') ∧ length (dispatch_events w') = 1%nat.
Proof.
  destruct (@transient_error_fails_a_requeued_row Demo.cfg
    ExecDemo.worker ExecDemo.job ExecDemo.job "cuda error" Demo.one) as (j' & w' & E & _ & _ & _ & He).
  - exact Demo.one_ok.
  - left.
  - reflexivity.
  - reflexivity.
  - exists w'. split; [exact E|]. rewrite He. reflexivity.
Defined.
