(* ===== verification/Ingest.v ===== *)
(** * The ingest queue ([node_queue.py], [ingest_store.py], [ingest_executor.py])

    The flat queue of periodic jobs: enqueue, claim, lease renewal, terminal
    marks, reclaim, and the execution of a claimed row. *)

From S2P Require Import Prelude.
From S2P Require Import Json.
From S2P Require Import Refs.
From S2P Require Import Schema.
From S2P Require Import NodeQueue.
From S2P Require Import Claim.
From S2P Require Import Reclaim.
Local Open Scope string_scope.
Local Open Scope list_scope.
Local Open Scope Z_scope.

Section ingest.
Context `{QueueConfig}.

(** [enqueue_ingest_job]: both names are checked before the write. *)
Definition ingest_row (task q reason : string) (prio : Z) (a : option dict)
    (proj : option string) (i : string) (now : Z) : ingest_job :=
  mkIngest i task q reason (default [] a) (_project proj) Queued prio None None None None []
    None None now.
Definition enqueue_ingest_job (task q reason : string) (prio : Z) (a : option dict)
    (proj : option string) : M string :=
  if negb (bool_decide (q ∈ config_ingest_queues)) then raise (ValueError "ingest queue")
  else if negb (bool_decide (task ∈ config_ingest_tasks)) then raise (ValueError "task_name")
  else
    i ← fresh_uuid;
    now ← gets clock;
    if negb (in_smallint prio) then raise (OtherError "NumericValueOutOfRange")
    else _ ← modify (on_ingest (λ t, t ++ [ingest_row task q reason prio a proj i now]));
         mret i.

Definition get_ingest_job (i : string) : M (option ingest_job) :=
  gets (λ w, List.find (λ x, bool_decide (iid x = i)) (ingest_jobs w)).

(** [UPDATE ingest_jobs SET .. WHERE id = %s AND guard RETURNING *] *)
Definition update_ingest (i : string) (guard : ingest_job → bool)
    (f : Z → ingest_job → ingest_job) : M (option ingest_job) := λ w,
  let p := λ x, bool_decide (iid x = i) && guard x in
  (Ok (head (returning p (f (clock w)) (ingest_jobs w))),
   on_ingest (update_where p (f (clock w))) w).

(** [claim_next_ingest_job]; [locked] are the rows another claim holds. *)
Definition ingest_claimable (q proj : string) (locked : list string) (x : ingest_job) : bool :=
  String.eqb (iqueue x) q && bool_decide (istatus x = Queued) && String.eqb (iproject x) proj &&
  negb (bool_decide (iid x ∈ locked)).
Definition ingest_order (x : ingest_job) : list Z := [ipriority x; icreated_at x].
Definition claim_next_ingest_job (q : string) (host : option string) (lease_s : Z)
    (proj : option string) (locked : list string) : M (option ingest_job) := λ w,
  match first_by ingest_order
          (List.filter (ingest_claimable q (_project proj) locked) (ingest_jobs w)) with
  | None => (Ok None, w)
  | Some x =>
      update_ingest (iid x) (λ _, true) (λ now x,
        x |> set_istatus Running |> set_istarted_at (Some now) |> set_iclaimed_by host
          |> set_ilease_expires_at (Some (now + seconds_us lease_s))) w
  end.

(** [ingest_store.renew_ingest_lease] *)
Definition renew_ingest_lease (i host : string) (lease_s : Z) : M bool :=
  is_not_null <$> update_ingest i
    (λ x, bool_decide (istatus x = Running) && bool_decide (iclaimed_by x = Some host))
    (λ now x, set_ilease_expires_at (Some (now + seconds_us lease_s)) x).

Definition ingest_not_terminal (x : ingest_job) : bool :=
  negb (bool_decide (istatus x ∈ [Completed; Failed; Cancelled])).
Definition mark_ingest_completed (i : string) (res : option dict) (secs : option Z) :
    M (option ingest_job) :=
  update_ingest i ingest_not_terminal (λ now x,
    x |> set_istatus Completed |> set_ifinished_at (Some now)
      |> set_iresult (default [] res) |> set_iseconds secs).
Definition mark_ingest_failed (i err : string) (secs : option Z) : M (option ingest_job) :=
  update_ingest i ingest_not_terminal (λ now x,
    x |> set_istatus Failed |> set_ifinished_at (Some now)
      |> set_ierror (Some (clip_error err)) |> set_iseconds secs).

Definition ingest_lapsed (now : Z) (x : ingest_job) : bool :=
  bool_decide (istatus x = Running) && holds (t_lt (ilease_expires_at x) (Some now)).
Definition reclaim_expired_ingest_leases : M (list ingest_job) := λ w,
  (Ok (returning (ingest_lapsed (clock w)) release_ingest (ingest_jobs w)),
   on_ingest (update_where (ingest_lapsed (clock w)) release_ingest) w).
End ingest.

(** The host's side of an execution: the registered callable of a task (None when
    there is none) on a reason and the job's arguments, the text of an exception
    with its traceback, and the elapsed time. *)
Class IngestHost := {
  ingest_task : string → option (string → dict → result json);
  ingest_exc_text : exc → string;
  ingest_elapsed : Z;
}.

Inductive ingest_outcome := i_completed | i_failed | i_skipped.

Section ingest_executor.
Context `{QueueConfig} `{IngestHost}.

(** [_run_task]: a result that is no dictionary is wrapped. *)
Definition _run_task (task reason : string) (a : dict) : result dict :=
  match ingest_task task with
  | None => Raise (ValueError "unknown ingest task_name")
  | Some fn => v ← fn reason a;
               Ok (match v with JObj fs => fs | _ => [("result", v)] end)
  end.

Definition execute_ingest_job (job : ingest_job) : M ingest_outcome :=
  let why := if PyStr.truthy (reason job) then reason job else "tick" in
  match _run_task (task_name job) why (args job) with
  | Raise e =>
      row ← mark_ingest_failed (iid job) (ingest_exc_text e) (Some ingest_elapsed);
      mret (if is_not_null (row : option ingest_job) then i_failed else i_skipped)
  | Ok res =>
      row ← mark_ingest_completed (iid job) (Some res) (Some ingest_elapsed);
      mret (if is_not_null (row : option ingest_job) then i_completed else i_skipped)
  end.
End ingest_executor.

(** * Properties *)

Section ingest_props.
Context `{QueueConfig} `{IngestHost}.
Implicit Types (w : world) (x : ingest_job).

Lemma ingest_on_ingest g w : ingest_jobs (on_ingest g w) = g (ingest_jobs w).
Proof. by destruct w. Qed.

Lemma update_ingest_row i g f w x :
  NoDup (map iid (ingest_jobs w)) → x ∈ ingest_jobs w → iid x = i →
  (update_ingest i g f w).1 = Ok (if g x then Some (f (clock w) x) else None) ∧
  ∀ y, y ∈ ingest_jobs w →
    (if decide (iid y = i) then if g x then f (clock w) x else x else y)
      ∈ ingest_jobs (update_ingest i g f w).2.
Proof.
  intros Hnd Hx Hi. set (p := λ y, bool_decide (iid y = i) && g y).
  assert (∀ y, y ∈ ingest_jobs w → p y = if decide (iid y = i) then g x else false) as Hp.
  { intros y Hy. unfold p. case_decide as E; [|by rewrite bool_decide_eq_false_2].
    rewrite bool_decide_eq_true_2 by done. simpl. f_equal.
    apply (key_unique iid (ingest_jobs w)); congruence. }
  assert (∀ y, y ∈ ingest_jobs w → iid y = i → y = x) as Hu
    by (intros y Hy Ey; apply (key_unique iid (ingest_jobs w)); congruence).
  split.
  - simpl. do 2 f_equal. fold p. destruct (g x) eqn:Hg.
    + assert (x ∈ List.filter p (ingest_jobs w)) as Hin.
      { apply elem_of_Lfilter. split; [done|]. rewrite Hp by done. by rewrite decide_True. }
      destruct (List.filter p (ingest_jobs w)) as [|y l] eqn:E; [set_solver|].
      assert (y ∈ List.filter p (ingest_jobs w)) as [Hy Hpy]%elem_of_Lfilter
        by (rewrite E; left).
      rewrite Hp in Hpy by done. case_decide; [|done]. unfold returning. rewrite E. simpl.
      by rewrite (Hu y).
    + unfold returning. rewrite Lfilter_none; [done|]. intros y Hy. rewrite Hp by done.
      by case_decide.
  - intros y Hy. simpl. rewrite ingest_on_ingest. apply elem_of_update_where. exists y.
    split; [done|]. fold (p y). rewrite Hp by done. case_decide as Ey; [|done].
    by rewrite (Hu y).
Qed.

(** An ingest execution settles its row once.  On a row that is not
    terminal, the result of the task decides: completed with the task's result,
    or failed when the task is unknown or raised; a row already terminal is left
    as it is and the execution reports it was skipped. *)
Lemma ingest_execution_settles job x w :
  NoDup (map iid (ingest_jobs w)) → x ∈ ingest_jobs w → iid x = iid job →
  ∃ o w' x', execute_ingest_job job w = (Ok o, w') ∧ x' ∈ ingest_jobs w' ∧
    match o with
    | i_skipped => ingest_not_terminal x = false ∧ x' = x
    | i_completed => ingest_not_terminal x = true ∧ istatus x' = Completed ∧
        _run_task (task_name job) (if PyStr.truthy (reason job) then reason job else "tick")
          (args job) = Ok (iresult x')
    | i_failed => ingest_not_terminal x = true ∧ istatus x' = Failed ∧
        ∃ e, _run_task (task_name job)
               (if PyStr.truthy (reason job) then reason job else "tick") (args job) = Raise e
    end.
Proof.
  intros Hnd Hx Hi. unfold execute_ingest_job.
  destruct (_run_task _ _ _) as [res|e] eqn:E; unfold mark_ingest_failed, mark_ingest_completed,
    mbind, M_bind.
  - match goal with |- context [update_ingest ?i ?g ?f w] =>
      destruct (update_ingest_row i g f w x Hnd Hx Hi) as [H1' H2'];
      destruct (update_ingest i g f w) as [r w'] end.
    simpl in *. subst r. specialize (H2' x Hx). rewrite decide_True in H2' by done.
    destruct (ingest_not_terminal x); (eexists _, w', _; split; [done|]; split; [exact H2'|]);
      [|done]. by destruct x.
  - match goal with |- context [update_ingest ?i ?g ?f w] =>
      destruct (update_ingest_row i g f w x Hnd Hx Hi) as [H1' H2'];
      destruct (update_ingest i g f w) as [r w'] end.
    simpl in *. subst r. specialize (H2' x Hx). rewrite decide_True in H2' by done.
    destruct (ingest_not_terminal x); (eexists _, w', _; split; [done|]; split; [exact H2'|]);
      [|done]. destruct x. split_and!; [done..|by exists e].
Qed.
End ingest_props.

(** * Witness *)

Module IngestDemo.
Definition host : IngestHost := {|
  ingest_task t := if String.eqb t "run_fetch" then Some (λ _ _, Ok (JInt 3)) else None;
  ingest_exc_text _ := "boom";
  ingest_elapsed := 1;
|}.
Definition queued : world :=
  (@enqueue_ingest_job Demo.cfg "run_fetch" "fetch" "tick" 100 None None Demo.empty_world).2.
Definition row : ingest_job :=
  default (@ingest_row Demo.cfg "" "" "" 0 None None "" 0) (head (ingest_jobs queued)).
End IngestDemo.

Lemma ingest_execution_settles_witness :
  ∃ w', @execute_ingest_job IngestDemo.host IngestDemo.row IngestDemo.queued
          = (Ok i_completed, w').
Proof.
  destruct (@ingest_execution_settles IngestDemo.host IngestDemo.row IngestDemo.row
    IngestDemo.queued) as (o & w' & x' & E & _ & Ho).
  - apply NoDup_singleton.
  - left.
  - reflexivity.
  - exists w'. rewrite E. f_equal. f_equal.
    assert (o = i_completed) as ->; [|reflexivity].
    transitivity (match (@execute_ingest_job IngestDemo.host IngestDemo.row IngestDemo.queued).1
                  with Ok o => o | Raise _ => i_skipped end); [by rewrite E|vm_compute; reflexivity].
Defined.
