(* ===== verification/Watchdogs.v ===== *)
(** * The guards of a job in flight ([queue_workflows/claim_worker.py])

    What a worker process runs beside a node: the lease renewer, the wall-clock,
    no-progress and gpu-health watchdogs, the watcher that abandons a job taken
    away, and the policy all watchdogs share for a job they trip.

    A guard is a thread that polls.  One poll is one definition; what it reads
    (clock, gpu and memory samples) is its argument.  Instants and durations are
    microseconds. *)

From S2P Require Import Prelude Json Schema NodeQueue Claim Reclaim Workflow Ingest.
Local Open Scope Z_scope.

(** The host's settings the guards read. *)
Class GuardConfig := {
  video_model_ids : list string;
  ingest_default_budget_s : Z;
  guard_max_retries : Z;
}.

Definition GPU_DEFAULT_BUDGET_S : Z := 8100.
Definition VIDEO_BUDGET_S : Z := 1800.
Definition CPU_BUDGET_S : Z := 2100.
Definition INPUT_BUDGET_S : Z := 120.
Definition DOWNLOAD_BUDGET_S : Z := 3600.
Definition FETCH_BUDGET_S : Z := 2 * 3600.
Definition LOAD_BUDGET_S : Z := 3600.
Definition _NODE_QUEUES : list string := ["cpu"; "gpu"; "download"].

(** [budget_for], of the columns it reads of a claimed row *)
Definition budget_for `{GuardConfig} (q : string) (model module : option string) : Z :=
  if String.eqb q "gpu" then
    if bool_decide (default "" model ∈ video_model_ids) then VIDEO_BUDGET_S
    else GPU_DEFAULT_BUDGET_S
  else if String.eqb q "download" then DOWNLOAD_BUDGET_S
  else if String.eqb q "fetch" then FETCH_BUDGET_S
  else if String.eqb q "load" then LOAD_BUDGET_S
  else if negb (bool_decide (q ∈ _NODE_QUEUES)) then ingest_default_budget_s
  else if PyStr.startswith "__input__" (default "" module) then INPUT_BUDGET_S
  else CPU_BUDGET_S.

(** [_LEASE_TABLES], and the check of every guard's constructor *)
Inductive lease_table := t_node_jobs | t_ingest_jobs.
Definition lease_table_of (table : string) : result lease_table :=
  if String.eqb table "workflow_node_jobs" then Ok t_node_jobs
  else if String.eqb table "ingest_jobs" then Ok t_ingest_jobs
  else Raise (ValueError "lease table").

(** The word of a status *)
Definition status_text (s : node_status) : string :=
  match s with
  | Queued => "queued" | Running => "running" | Completed => "completed" | Failed => "failed"
  | Cancelled => "cancelled" | AwaitingInput => "awaiting_input" | Skipped => "skipped"
  end.

(** How a guard ends the process: the hook it was given, on an exit code. *)
Abbreviation exit_hook := (Z → M Z).
Definition os_exit : exit_hook := λ code, mret code.

Section guards.
Context `{QueueConfig} `{GuardConfig}.

(** ** Lease renewal *)

(** [LeaseRenewer._renew_once] *)
Definition _renew_once (table : lease_table) (job_id host : string) (lease_s : Z) : M bool :=
  try_except
    (match table with
     | t_ingest_jobs => renew_ingest_lease job_id host lease_s
     | t_node_jobs =>
         is_not_null <$> update_job job_id
           (λ s, bool_decide (claimed_by s = Some host) && has_status Running s)
           (λ now s, set_lease_expires_at (Some (now + seconds_us lease_s)) s)
     end)
    (λ _, Some (mret false)).

(** ** What a trip does *)

Definition _clear_busy_ghost (host q : option string) : M () :=
  match or_none host, or_none q with
  | Some h, Some k =>
      try_except (_ ← clear_worker_current_model h k true None; mret ()) (λ _, Some (mret ()))
  | _, _ => mret ()
  end.

Definition _trip_event_type (label : string) : string :=
  let lbl := PyStr.lower label in
  if PyStr.contains "stall" lbl then "stall_trip"
  else if PyStr.contains "gpu" lbl then "gpu_health_trip"
  else "budget_trip".

(** The row's part of an event, [job_id] and [type] given *)
Definition record_for_row (job_id type : string) (host q err : option string) (det : dict)
    (r : node_job) : M () := λ w,
  record_node_event
    (mkNodeEvent (Schema.run_id r) (node_id r) (Some job_id) (watchdog_retries r) type
       host q (required_model r) None (clip_error <$> err) det (_project None) (clock w)) w.

Definition _emit_node_event (job_id type : string) (host q err : option string) (det : dict)
    (row : option node_job) : M () :=
  try_except
    (r ← (match row with Some r => mret (Some r) | None => get_node_job job_id end);
     match (r : option node_job) with
     | None => mret ()
     | Some r =>
         if negb (PyStr.truthy (Schema.run_id r)) then mret ()
         else record_for_row job_id type host q err det r
     end)
    (λ _, Some (mret ())).

(** The mark of a doomed job and, for a DAG node, its dispatch event in the same
    transaction. *)
Definition fail_job (table : lease_table) (job_id err : string) (host q : option string) : M () :=
  match table with
  | t_ingest_jobs => _ ← mark_ingest_failed job_id err None; mret ()
  | t_node_jobs =>
      row ← transaction (
        row ← mark_failed_in_txn job_id err None;
        match (row : option node_job) with
        | None => mret None
        | Some r =>
            _ ← enqueue_dispatch_event_in_txn (Schema.run_id r) (node_id r) k_failed;
            mret (Some r)
        end);
      match (row : option node_job) with
      | None => mret ()
      | Some r => _emit_node_event job_id "failed" host q (Some err) [] (Some r)
      end
  end.

Definition _fail_job_and_exit (table : lease_table) (job_id err : string) (on_exit : exit_hook)
    (exit_code : Z) (host q : option string) : M Z :=
  _ ← try_except (fail_job table job_id err host q) (λ _, Some (mret ()));
  _ ← _clear_busy_ghost host q;
  on_exit exit_code.

Definition requeue_job (job_id err : string) (host q : option string) : M () :=
  requeued ← requeue_job_for_retry job_id;
  match (requeued : option node_job) with
  | None => mret ()
  | Some r =>
      _emit_node_event job_id "requeued" host q (Some err)
        [("retry", JInt (watchdog_retries r)); ("cap", JInt guard_max_retries)] (Some r)
  end.

Definition _requeue_job_and_exit (job_id err : string) (on_exit : exit_hook)
    (exit_code : Z) (host q : option string) : M Z :=
  _ ← try_except (requeue_job job_id err host q) (λ _, Some (mret ()));
  _ ← _clear_busy_ghost host q;
  on_exit exit_code.

(** [_watchdog_trip]: a retry under the cap, a failure at it *)
Definition _watchdog_trip (table : lease_table) (job_id err label : string)
    (on_exit : exit_hook) (exit_code : Z) (host q : option string) : M Z :=
  match table with
  | t_ingest_jobs => _fail_job_and_exit table job_id err on_exit exit_code host q
  | t_node_jobs =>
      row ← try_except (get_node_job job_id) (λ _, Some (mret None));
      let retries := match (row : option node_job) with
                     | Some r => watchdog_retries r
                     | None => 0
                     end in
      _ ← _emit_node_event job_id (_trip_event_type label) host q (Some err) [] row;
      if retries <? guard_max_retries
      then _requeue_job_and_exit job_id err on_exit exit_code host q
      else _fail_job_and_exit table job_id err on_exit exit_code host q
  end.

(** ** The watcher of the claim *)

(** One poll of [JobStatusWatcher._loop]: the exit code when the row is no longer
    this host's. *)
Definition job_status_poll (job_id host : string) (on_exit : exit_hook) (exit_code : Z) :
    M (option Z) :=
  row ← get_node_job job_id;
  if match (row : option node_job) with
     | None => true
     | Some r => negb (bool_decide (claimed_by r = Some host))
     end
  then
    _ ← (match row with
         | None => mret ()
         | Some r =>
             _emit_node_event job_id "reassigned" (Some host) None None
               [("new_claimed_by", json_of_opt (claimed_by r));
                ("status", JStr (status_text (status r)))] (Some r)
         end);
    Some <$> on_exit exit_code
  else mret None.

(** The branch of [_run_node] and [_run_pool_node] for an input node: park it and
    tell the orchestrator, in one transaction. *)
Definition park_input_node (job : node_job) : M bool :=
  _ ← transaction (
    _ ← mark_awaiting_input_in_txn (jid job);
    _ ← enqueue_dispatch_event_in_txn (Schema.run_id job) (node_id job) k_awaiting_input;
    mret ());
  mret true.

(** ** The wall-clock watchdog *)

(** [Watchdog._trip] *)
Definition budget_trip (table : lease_table) (job_id : string) (budget_s : Z)
    (on_exit : exit_hook) (exit_code : Z) (host q : option string) : M Z :=
  _watchdog_trip table job_id
    ("exceeded wall-clock budget (" +:+ pretty budget_s +:+
     "s) — watchdog hard-stopped the worker") "watchdog" on_exit exit_code host q.

(** One turn of [Watchdog._loop] at the instant [now] *)
Definition watchdog_poll (table : lease_table) (job_id : string) (budget_s deadline now : Z)
    (on_exit : exit_hook) (exit_code : Z) (host q : option string) : M (option Z) :=
  if deadline <=? now
  then Some <$> budget_trip table job_id budget_s on_exit exit_code host q
  else mret None.
End guards.

(** ** Samples *)

(** [_sample_gpu] and [_sample_ram], of what the sampler returned or raised *)
Definition _sample_gpu (r : result (option Z)) : Z :=
  match r with Ok v => default 0 v | Raise _ => 0 end.
Definition _sample_ram (r : result (option Z)) : option Z :=
  match r with Ok v => v | Raise _ => None end.

(** [anchor is not None and now is not None and abs(now - anchor) > delta] *)
Definition ram_moved (delta : Z) (anchor now : option Z) : bool :=
  match anchor, now with
  | Some a, Some b => delta <? Z.abs (b - a)
  | _, _ => false
  end.

Definition show_mb (v : option Z) : string :=
  match v with Some n => pretty n | None => "None" end +:+ "MB".
Definition json_of_int (v : option Z) : json :=
  match v with Some n => JInt n | None => JNull end.
Definition int_seconds (us : Z) : Z := us / 1000000.

(** ** The no-progress watchdog *)

Record stall_config := mkStall {
  stall_timeout : Z;
  s_idle_pct : Z;
  s_ram_delta_mb : Z;
  confirm_samples : Z;
  confirm_idle : bool;
}.

(** What one confirmation reads: the samplers' successive answers, and whether the
    guard was stopped during the wait before an answer. *)
Record readings := mkReadings {
  gpu_at : nat → result (option Z);
  ram_at : nat → result (option Z);
  stopped_before : nat → bool;
}.

(** [StallWatchdog.beat] and [_rearm]: the no-progress deadline of an instant. *)
Definition rearm (c : stall_config) (now : Z) : Z := now + stall_timeout c.

(** The loop of [_confirm_wedged] over the samples after the first: the greatest
    utilisation and the last memory reading, None when stopped. *)
Fixpoint confirm_loop (r : readings) (n i : nat) (max_util : Z) (ram_now : option Z) :
    option (Z * option Z) :=
  match n with
  | O => Some (max_util, ram_now)
  | S n' =>
      if stopped_before r i then None
      else confirm_loop r n' (S i) (Z.max max_util (_sample_gpu (gpu_at r i)))
             (_sample_ram (ram_at r i))
  end.
Definition confirm_window (c : stall_config) (r : readings) : option (Z * option Z) :=
  confirm_loop r (Z.to_nat (Z.max 1 (confirm_samples c) - 1)) 1
    (_sample_gpu (gpu_at r 0)) (_sample_ram (ram_at r 0)).
Definition idle_and_static (c : stall_config) (r : readings) (seen : Z * option Z) : bool :=
  (seen.1 <=? s_idle_pct c) &&
  negb (ram_moved (s_ram_delta_mb c) (_sample_ram (ram_at r 0)) seen.2).

Section stall.
Context `{QueueConfig} `{GuardConfig}.

Definition _confirm_wedged (c : stall_config) (job_id : string) (host q : option string)
    (r : readings) : M bool :=
  match confirm_window c r with
  | None => mret false
  | Some seen =>
      if idle_and_static c r seen then mret true
      else
        _ ← _emit_node_event job_id "stall_suspected" host q
              (Some ("no beat for " +:+ pretty (int_seconds (stall_timeout c)) +:+
                     "s but GPU/RAM active — not killing"))
              [("max_sm_pct", JInt seen.1);
               ("ram_anchor_mb", json_of_int (_sample_ram (ram_at r 0)));
               ("ram_now_mb", json_of_int seen.2)] None;
        mret false
  end.

(** [StallWatchdog._trip] *)
Definition stall_trip (c : stall_config) (table : lease_table) (job_id : string)
    (on_exit : exit_hook) (exit_code : Z) (host q : option string) : M Z :=
  let secs := pretty (int_seconds (stall_timeout c)) in
  let err :=
    if confirm_idle c
    then "no progress for " +:+ secs +:+ "s (no GPU step beat) AND confirmed GPU-idle + static-RAM — stall watchdog hard-stopped a wedged worker"
    else "no progress beat for " +:+ secs +:+ "s from a pool-lane node (its declared POOL_STALL_TIMEOUT_S) — stall watchdog hard-stopped the worker so the stuck request actually ends" in
  _watchdog_trip table job_id err "stall-watchdog" on_exit exit_code host q.

(** One turn of [StallWatchdog._loop]: the exit code of a trip, or the deadline it
    goes on with.  [now] is the clock of the test, [later] that of the re-arm. *)
Definition stall_poll (c : stall_config) (table : lease_table) (job_id : string)
    (on_exit : exit_hook) (exit_code : Z) (host q : option string)
    (deadline : option Z) (now later : Z) (r : readings) : M (Z + option Z) :=
  match deadline with
  | Some d =>
      if d <=? now then
        wedged ← (if confirm_idle c then _confirm_wedged c job_id host q r else mret true);
        if (wedged : bool) then inl <$> stall_trip c table job_id on_exit exit_code host q
        else mret (inr (Some (rearm c later)))
      else mret (inr deadline)
  | None => mret (inr None)
  end.
End stall.

(** ** The gpu-health watchdog *)

Record health_config := mkHealthCfg {
  interval : Z;
  load_grace : Z;
  idle_pct : Z;
  ram_delta_mb : Z;
}.

Record health := mkHealth {
  armed : bool;
  max_util : Z;
  ram_anchor : option Z;
  next_checkpoint : Z;
}.

(** [_reset_window], at an instant and with the memory read then *)
Definition _reset_window (window : Z) (now : Z) (ram : result (option Z)) (s : health) : health :=
  mkHealth (armed s) 0 (_sample_ram ram) (now + window).
Definition arm (s : health) : health :=
  mkHealth true (max_util s) (ram_anchor s) (next_checkpoint s).
Definition health_start (c : health_config) (now : Z) (ram : result (option Z)) : health :=
  _reset_window (load_grace c) now ram (arm (mkHealth false 0 None 0)).
Definition health_beat (c : health_config) (now : Z) (ram : result (option Z)) (s : health) :
    health := _reset_window (interval c) now ram (arm s).

(** What one turn of the loop reads: the utilisation, the clock, and at a
    checkpoint the memory, then clock and memory again for the next window. *)
Record turn := mkTurn {
  p_util : result (option Z);
  p_now : Z;
  p_ram : result (option Z);
  p_later : Z;
  p_ram_later : result (option Z);
}.

Definition saw_util (t : turn) (s : health) : health :=
  mkHealth (armed s) (Z.max (max_util s) (_sample_gpu (p_util t))) (ram_anchor s)
    (next_checkpoint s).
(** The verdict of [_evaluate_window_locked] *)
Definition window_wedged (c : health_config) (s : health) (ram_now : option Z) : bool :=
  (max_util s <=? idle_pct c) && negb (ram_moved (ram_delta_mb c) (ram_anchor s) ram_now).
(** The state after one turn, None when it trips *)
Definition health_turn (c : health_config) (t : turn) (s : health) : option health :=
  if armed s then
    let s1 := saw_util t s in
    if next_checkpoint s1 <=? p_now t then
      if window_wedged c s1 (_sample_ram (p_ram t)) then None
      else Some (_reset_window (interval c) (p_later t) (p_ram_later t) s1)
    else Some s1
  else Some s.

Section health.
Context `{QueueConfig} `{GuardConfig}.

(** [GpuHealthWatchdog._trip] *)
Definition health_trip (c : health_config) (table : lease_table) (job_id : string)
    (on_exit : exit_hook) (exit_code : Z) (host q : option string) (util : Z)
    (anchor ram_now : option Z) : M Z :=
  _watchdog_trip table job_id
    ("no GPU activity (max sm% " +:+ pretty util +:+ " <= " +:+ pretty (idle_pct c) +:+
     ") and static RAM (anchor=" +:+ show_mb anchor +:+ " now=" +:+ show_mb ram_now +:+
     ", |Δ| <= " +:+ pretty (ram_delta_mb c) +:+ "MB) for " +:+
     pretty (int_seconds (interval c)) +:+ "s — health watchdog hard-stopped a wedged worker")
    "gpu-health" on_exit exit_code host q.

(** One turn of [GpuHealthWatchdog._loop] *)
Definition health_poll (c : health_config) (table : lease_table) (job_id : string)
    (on_exit : exit_hook) (exit_code : Z) (host q : option string) (t : turn) (s : health) :
    M (Z + health) :=
  match health_turn c t s with
  | Some s' => mret (inr s')
  | None =>
      inl <$> health_trip c table job_id on_exit exit_code host q (max_util (saw_util t s))
                (ram_anchor s) (_sample_ram (p_ram t))
  end.
End health.

(** * Lemmas *)

Section trip_lemmas.
Context `{QueueConfig} `{GuardConfig}.
Implicit Types (w : world) (j : node_job).

(** A step of the forensic log: nothing but the log changes. *)
Definition logs_only w w' : Prop := ∃ l, w' = set_node_events l w.

Lemma logs_only_refl w : logs_only w w.
Proof. exists (node_events w). by destruct w. Qed.

Lemma emit_logs job_id type host q err det row w :
  ∃ w', _emit_node_event job_id type host q err det row w = (Ok (), w') ∧ logs_only w w'.
Proof.
  assert (∀ r, ∃ w', record_for_row job_id type host q err det r w = (Ok (), w') ∧ logs_only w w')
    as Hr.
  { intros r. unfold record_for_row, record_node_event, record_node_event_in_txn, try_except.
    destruct (negb (bool_decide _)); [eexists; split; [done|apply logs_only_refl]|].
    destruct (negb (exists_row _ _)); [eexists; split; [done|apply logs_only_refl]|].
    eexists. split; [done|]. by eexists. }
  unfold _emit_node_event, try_except, mbind, M_bind.
  destruct row as [r|]; simpl; [|destruct (List.find _ _) as [r|]; simpl;
    [|eexists; split; [done|apply logs_only_refl]]];
  (destruct (negb (PyStr.truthy _)); [eexists; split; [done|apply logs_only_refl]|]);
  destruct (Hr r) as (w' & E & Hl); rewrite E; eauto.
Qed.

(** The hosts' heartbeats aside, the tables survive the clearing of the ghost, and
    no row of this worker advertises a model after it. *)
Record ghost_cleared (host q : option string) w w' : Prop := {
  gc_jobs : node_jobs w' = node_jobs w;
  gc_runs : runs w' = runs w;
  gc_events : dispatch_events w' = dispatch_events w;
  gc_uuids : uuids w' = uuids w;
  gc_model : ∀ h k b, or_none host = Some h → or_none q = Some k →
    b ∈ heartbeats w' → is_beat h k (_project None) b = true → current_model b = None;
  gc_ingest : ingest_jobs w' = ingest_jobs w;
}.

Lemma clear_ghost_spec host q w :
  ∃ w', _clear_busy_ghost host q w = (Ok (), w') ∧ ghost_cleared host q w w'.
Proof.
  unfold _clear_busy_ghost, try_except.
  destruct (or_none host) as [h|] eqn:Eh; [destruct (or_none q) as [k|] eqn:Ek|];
    (eexists; split; [done|]); split; rewrite ?Eh, ?Ek; try by destruct w.
  intros h' k' b [= <-] [= <-]. destruct w; simpl.
  intros (b0 & _ & ->)%elem_of_update_where. destruct (is_beat h k _ b0) eqn:E; [by destruct b0|].
  by rewrite E.
Qed.

Lemma get_node_job_hit w j :
  db_ok w → j ∈ node_jobs w → get_node_job (jid j) w = (Ok (Some j), w).
Proof.
  intros Hok Hj. unfold get_node_job, gets. do 2 f_equal.
  destruct (List.find _ _) as [x|] eqn:E.
  - apply find_some in E as [Hx%list_elem_of_In Hk]. apply bool_decide_eq_true in Hk.
    f_equal. by apply (job_by_id_unique w).
  - apply list_elem_of_In in Hj. eapply find_none in E; [|done].
    by apply bool_decide_eq_false in E.
Qed.
End trip_lemmas.

Section trip_props.
Context `{QueueConfig} `{GuardConfig}.
Implicit Types (w : world) (j : node_job).

Lemma db_ok_beside w w' :
  node_jobs w' = node_jobs w → runs w' = runs w → uuids w' = uuids w → db_ok w → db_ok w'.
Proof. intros Ej Er Eu. by apply db_ok_same; rewrite ?Ej, ?Er. Qed.

Lemma requeue_job_spec job_id err host q w :
  ∃ w', requeue_job job_id err host q w = (Ok (), w') ∧
        logs_only (requeue_job_for_retry job_id w).2 w'.
Proof.
  unfold requeue_job, mbind, M_bind.
  destruct (requeue_job_for_retry job_id w) as [[[r|]|e] w1] eqn:E; simpl; [|eauto using logs_only_refl|].
  - destruct (emit_logs job_id "requeued" host q (Some err)
      [("retry", JInt (watchdog_retries r)); ("cap", JInt guard_max_retries)] (Some r) w1)
      as (w' & Ew & Hl). eauto.
  - done.
Qed.

(** The tables after a doomed job was marked. *)
Definition doomed (err : string) (j : node_job) (w : world) : world :=
  w |> on_jobs (update_where (is_job (jid j) not_terminal) (upd (failed_set err None (clock w))))
    |> on_events (λ t, t ++ [mkEvent (event_seq w + 1) (Schema.run_id j) (node_id j)
                               k_failed None None 0 (clock w)])
    |> set_event_seq (event_seq w + 1).

Lemma fail_job_spec err host q w j :
  db_ok w → j ∈ node_jobs w →
  ∃ w', fail_job t_node_jobs (jid j) err host q w = (Ok (), w') ∧
        logs_only (if not_terminal (st j) then doomed err j w else w) w'.
Proof.
  intros Hok Hj. unfold fail_job, transaction, mbind, M_bind, mark_failed_in_txn.
  destruct (not_terminal (st j)) eqn:Hn.
  - rewrite (update_job_hit _ _ _ w j) by done. cbn -[_emit_node_event].
    match goal with |- context [_emit_node_event ?a ?b ?c ?d ?e ?f ?g ?v] =>
      destruct (emit_logs a b c d e f g v) as (w' & E & Hl); rewrite E end.
    eexists. split; [done|]. unfold doomed. by destruct w.
  - rewrite update_job_miss; [eauto using logs_only_refl|].
    intros x Hx. unfold is_job. case_bool_decide as Hk; [|done].
    by rewrite (job_by_id_unique w x j).
Qed.

(** How the row ends and what the outbox gets. *)
Definition trip_outcome (w w' : world) (j j' : node_job) : Prop :=
  if watchdog_retries j <? guard_max_retries then
    dispatch_events w' = dispatch_events w ∧
    if has_status Running (st j)
    then status j' = Queued ∧ claimed_by j' = None ∧ lease_expires_at j' = None ∧
         watchdog_retries j' = watchdog_retries j + 1
    else j' = j
  else if not_terminal (st j) then
    status j' = Failed ∧
    dispatch_events w' = dispatch_events w ++
      [mkEvent (event_seq w + 1) (Schema.run_id j) (node_id j) k_failed None None 0 (clock w)]
  else j' = j ∧ dispatch_events w' = dispatch_events w.

(** The end of a trip whose step rewrote the job's row by [f] where [g] allows:
    the ghost is cleared, the hook is reached, and nothing else changed. *)
Lemma exit_after (m : M ()) g f w w1 w2 j (on_exit : exit_hook) code host q :
  db_ok w → j ∈ node_jobs w → m w1 = (Ok (), w2) →
  node_jobs w2 = update_where (is_job (jid j) g) (upd f) (node_jobs w) →
  runs w2 = runs w → uuids w2 = uuids w →
  ∃ w', (_ ← try_except m (λ _, Some (mret ())); _ ← _clear_busy_ghost host q; on_exit code) w1
      = on_exit code w' ∧
    db_ok w' ∧ runs w' = runs w ∧ ingest_jobs w' = ingest_jobs w2 ∧ dispatch_events w' = dispatch_events w2 ∧
    (if g (st j) then upd f j else j) ∈ node_jobs w' ∧
    (∀ x : node_job, x ∈ node_jobs w → jid x ≠ jid j → x ∈ node_jobs w') ∧
    (∀ h k b, or_none host = Some h → or_none q = Some k → b ∈ heartbeats w' →
       is_beat h k (_project None) b = true → current_model b = None).
Proof.
  intros Hok Hj Em Ej Er Eu.
  destruct (clear_ghost_spec host q w2) as (w3 & E3 & [G1 G2 G3 G4 G5 G6]).
  exists w3. split_and!; [..|done].
  - unfold mbind, M_bind, try_except. by rewrite Em, E3.
  - apply (db_ok_beside (on_jobs (update_where (is_job (jid j) g) (upd f)) w));
      [rewrite node_jobs_on_jobs|rewrite runs_on_jobs|rewrite uuids_on_jobs|by apply db_ok_update];
      congruence.
  - congruence.
  - done.
  - done.
  - rewrite G1, Ej. apply elem_of_update_where. exists j. split; [done|].
    unfold is_job. by rewrite bool_decide_eq_true_2.
  - intros x Hx Hne. rewrite G1, Ej. apply elem_of_update_where. exists x. split; [done|].
    unfold is_job. by rewrite bool_decide_eq_false_2.
Qed.

Lemma trip_of_a_node_job w j err label on_exit code host q :
  db_ok w → j ∈ node_jobs w →
  ∃ w' j', _watchdog_trip t_node_jobs (jid j) err label on_exit code host q w = on_exit code w' ∧
    db_ok w' ∧ runs w' = runs w ∧ ingest_jobs w' = ingest_jobs w ∧ j' ∈ node_jobs w' ∧ spec j' = spec j ∧
    (∀ x : node_job, x ∈ node_jobs w → jid x ≠ jid j → x ∈ node_jobs w') ∧
    (∀ h k b, or_none host = Some h → or_none q = Some k → b ∈ heartbeats w' →
       is_beat h k (_project None) b = true → current_model b = None) ∧
    trip_outcome w w' j j'.
Proof.
  intros Hok Hj.
  destruct (emit_logs (jid j) (_trip_event_type label) host q (Some err) [] (Some j) w)
    as (w1 & E1 & l & ->).
  assert (db_ok (set_node_events l w)) as Hok1 by (by apply (db_ok_beside w); destruct w).
  assert (j ∈ node_jobs (set_node_events l w)) as Hj1 by by destruct w.
  unfold _watchdog_trip. unfold mbind at 1, M_bind at 1, try_except at 1.
  rewrite get_node_job_hit by done. unfold mbind at 1, M_bind at 1. rewrite E1.
  unfold trip_outcome. destruct (watchdog_retries j <? guard_max_retries).
  - destruct (requeue_job_spec (jid j) err host q (set_node_events l w)) as (w2 & E2 & l2 & ->).
    destruct (exit_after _ (has_status Running) (retry_set (clock w)) w _ _ j on_exit code host q
      Hok Hj E2) as (w' & E & Hok' & Hr & Hi & He & Hj' & Hx & Hb); [by destruct w..|].
    exists w', (if has_status Running (st j) then upd (retry_set (clock w)) j else j).
    rewrite Hi, He. split_and!; try done; try (by destruct w); [by destruct (has_status _ _)|].
    destruct (has_status Running (st j)); [by destruct j as [? []]|done].
  - destruct (fail_job_spec err host q (set_node_events l w) j) as (w2 & E2 & l2 & ->); [done..|].
    destruct (not_terminal (st j)) eqn:Hn.
    + destruct (exit_after _ not_terminal (failed_set err None (clock w)) w _ _ j on_exit code host q
        Hok Hj E2) as (w' & E & Hok' & Hr & Hi & He & Hj' & Hx & Hb); [by destruct w..|].
      rewrite Hn in Hj'. exists w', (upd (failed_set err None (clock w)) j).
      rewrite Hi, He. split_and!; try done; try (by destruct w); by destruct j as [? []].
    + destruct (exit_after _ (λ _, false) (λ s, s) w _ _ j on_exit code host q Hok Hj E2) as
        (w' & E & Hok' & Hr & Hi & He & Hj' & Hx & Hb); [|by destruct w..|].
      { rewrite update_where_none; [by destruct w|]. intros x _. unfold is_job. by rewrite andb_false_r. }
      exists w', j. rewrite Hi, He. split_and!; try done; by destruct w.
Qed.

Lemma trip_of_an_ingest_job w job_id err label on_exit code host q :
  db_ok w →
  ∃ w', _watchdog_trip t_ingest_jobs job_id err label on_exit code host q w = on_exit code w' ∧
    db_ok w' ∧ runs w' = runs w ∧ node_jobs w' = node_jobs w ∧ dispatch_events w' = dispatch_events w ∧
    (∀ h k b, or_none host = Some h → or_none q = Some k → b ∈ heartbeats w' →
       is_beat h k (_project None) b = true → current_model b = None) ∧
    ingest_jobs w' = update_where (λ x, bool_decide (iid x = job_id) && ingest_not_terminal x)
      (λ x, x |> set_istatus Failed |> set_ifinished_at (Some (clock w))
              |> set_ierror (Some (clip_error err)) |> set_iseconds None) (ingest_jobs w).
Proof.
  intros Hok. unfold _watchdog_trip, _fail_job_and_exit, fail_job, mark_ingest_failed, update_ingest.
  unfold mbind at 1, M_bind at 1, try_except at 1, mbind at 1, M_bind at 1. simpl.
  match goal with |- context [(_clear_busy_ghost host q ≫= _) ?x] => set (w1 := x) end.
  destruct (clear_ghost_spec host q w1) as (w2 & E2 & [G1 G2 G3 G4 G5 G6]).
  exists w2. unfold mbind, M_bind. rewrite E2.
  assert (node_jobs w1 = node_jobs w ∧ runs w1 = runs w ∧ dispatch_events w1 = dispatch_events w ∧ uuids w1 = uuids w) as (?&?&?&?)
    by (subst w1; by destruct w).
  split_and!; [done|apply (db_ok_beside w); [congruence..|done]|congruence|congruence|congruence|done|].
  rewrite G6. subst w1. by destruct w.
Qed.

(** C13: every watchdog's trip follows one policy per table.  A DAG row is requeued with one
    more retry while its retries are below the cap, and no event is written, so that the
    run stays alive; at the cap it is failed together with exactly one failed event; a row
    that is not running any more is not requeued, one that is finished is left as it is,
    other rows stay.  An ingest row is never requeued: whatever its past it is failed with the
    error, unless it is finished; no other ingest row, no DAG row and no event changes.  In
    both cases all runs are untouched, the worker's heartbeat stops advertising a model, and
    the exit hook is reached. *)
Theorem watchdog_trip_retries_then_fails w table job_id err label on_exit code host q :
  db_ok w →
  match table with
  | t_node_jobs => ∃ j, j ∈ node_jobs w ∧ jid j = job_id
  | t_ingest_jobs => True
  end →
  ∃ w', _watchdog_trip table job_id err label on_exit code host q w = on_exit code w' ∧
    db_ok w' ∧ runs w' = runs w ∧
    (∀ h k b, or_none host = Some h → or_none q = Some k → b ∈ heartbeats w' →
       is_beat h k (_project None) b = true → current_model b = None) ∧
    match table with
    | t_node_jobs =>
        ingest_jobs w' = ingest_jobs w ∧
        (∀ x : node_job, x ∈ node_jobs w → jid x ≠ job_id → x ∈ node_jobs w') ∧
        ∀ j, j ∈ node_jobs w → jid j = job_id → ∃ j', j' ∈ node_jobs w' ∧ spec j' = spec j ∧ trip_outcome w w' j j'
    | t_ingest_jobs =>
        node_jobs w' = node_jobs w ∧ dispatch_events w' = dispatch_events w ∧
        ∀ k i, ingest_jobs w !! k = Some i → ∃ i', ingest_jobs w' !! k = Some i' ∧
          if bool_decide (iid i = job_id) && ingest_not_terminal i
          then i' = set_ifinished_at (Some (clock w)) (set_istatus Failed (set_ierror (Some (clip_error err)) (set_iseconds None i)))
          else i' = i
    end.
Proof.
  intros Hok Ht. destruct table.
  - destruct Ht as (j & Hj & <-).
    destruct (trip_of_a_node_job w j err label on_exit code host q Hok Hj)
      as (w' & j' & E & Hok' & Hr & Hi & Hj' & Hs & Hx & Hb & Ho).
    exists w'. split_and!; try done. intros j0 Hj0 Eid. rewrite (job_by_id_unique w j0 j) by done. by exists j'.
  - destruct (trip_of_an_ingest_job w job_id err label on_exit code host q Hok)
      as (w' & E & Hok' & Hr & Hj & He & Hb & Hi).
    exists w'. split_and!; try done. intros k i Hk. rewrite Hi. eexists.
    split; [by apply list_lookup_fmap_Some; exists i|]. destruct (_ && _); [by destruct i|done].
Qed.
End trip_props.

Section claim_guard_props.
Context `{QueueConfig}.
Implicit Types (w : world) (j : node_job).

(** The row is this worker's running claim. *)
Definition held_by (host : string) (s : job_state) : bool :=
  bool_decide (claimed_by s = Some host) && has_status Running s.

(** C14: a worker only keeps alive a claim it still has, and stops once it has lost
    it.  The renewal extends the lease of the row it holds and of no other; when
    the row was handed on, requeued or finished it changes nothing and says so.
    The watcher leaves the worker alone while the row names it, its own terminal
    mark included, and ends it at the first poll after the row was handed on or
    deleted. *)
Theorem lost_claims_end_the_worker w j host lease_s on_exit code :
  db_ok w → j ∈ node_jobs w →
  _renew_once t_node_jobs (jid j) host lease_s w =
    (if held_by host (st j)
     then (Ok true, on_jobs (update_where (λ x : node_job, bool_decide (jid x = jid j))
             (upd (set_lease_expires_at (Some (clock w + seconds_us lease_s))))) w)
     else (Ok false, w)) ∧
  (if bool_decide (claimed_by j = Some host)
   then job_status_poll (jid j) host on_exit code w = (Ok None, w)
   else ∃ w', logs_only w w' ∧
          job_status_poll (jid j) host on_exit code w = (Some <$> on_exit code) w') ∧
  (∀ i, (∀ x : node_job, x ∈ node_jobs w → jid x ≠ i) →
     job_status_poll i host on_exit code w = (Some <$> on_exit code) w).
Proof.
  intros Hok Hj. split_and!.
  - unfold _renew_once, try_except, fmap, M_fmap. destruct (held_by host (st j)) eqn:Hh.
    + rewrite (update_job_hit _ _ _ w j) by done. f_equal. unfold on_jobs. f_equal.
      apply map_ext_in. intros x Hx%list_elem_of_In. unfold is_job, job_key.
      destruct (bool_decide (jid x = jid j)) eqn:E; [|done]. apply bool_decide_eq_true in E.
      rewrite (job_by_id_unique w x j Hok Hx Hj E). unfold held_by in Hh. by rewrite Hh.
    + rewrite update_job_miss; [done|]. intros x Hx. unfold is_job. case_bool_decide as E; [|done].
      by rewrite (job_by_id_unique w x j Hok Hx Hj E).
  - assert (∀ A (k : option node_job → M A), (row ← get_node_job (jid j); k row) w = k (Some j) w)
      as Hget by (intros A k; unfold mbind, M_bind; by rewrite get_node_job_hit).
    unfold job_status_poll. case_bool_decide as Hc; [|match goal with
      |- context [_emit_node_event ?a ?b ?c ?d ?e] =>
        edestruct (emit_logs a b c d e) as (w' & E & Hl) end; exists w'; split; [exact Hl|]];
      rewrite Hget; [by rewrite bool_decide_eq_true_2|].
    rewrite bool_decide_eq_false_2 by done. unfold mbind, M_bind. cbn [negb]. by rewrite E.
  - intros i Hi. unfold job_status_poll, mbind, M_bind, get_node_job, gets.
    destruct (List.find _ _) as [x|] eqn:E; [|done].
    apply find_some in E as [Hx%list_elem_of_In Hk]. apply bool_decide_eq_true in Hk.
    by destruct (Hi x Hx).
Qed.
End claim_guard_props.

(** * The no-progress watchdog over time *)

(** Its verdict on a confirmation, and one turn: the new deadline, None when it trips. *)
Definition stall_wedged (c : stall_config) (r : readings) : bool :=
  negb (confirm_idle c) ||
  match confirm_window c r with None => false | Some seen => idle_and_static c r seen end.
Definition stall_turn (c : stall_config) (now later : Z) (r : readings) (d : option Z) :
    option (option Z) :=
  match d with
  | Some x =>
      if x <=? now then if stall_wedged c r then None else Some (Some (rearm c later))
      else Some d
  | None => Some None
  end.

(** A history of the guard: beats of the node and turns of the loop. *)
Inductive stall_input := S_beat (now : Z) | S_turn (now later : Z) (r : readings).
Definition stall_next (c : stall_config) (d : option Z) (x : stall_input) : option (option Z) :=
  match x with
  | S_beat now => Some (Some (rearm c now))
  | S_turn now later r => stall_turn c now later r d
  end.
Definition stall_run (c : stall_config) (d : option Z) (h : list stall_input) :
    option (option Z) :=
  foldl (λ s x, s ≫= λ d, stall_next c d x) (Some d) h.

(** The clock of a history: inputs follow one another and take their time. *)
Definition begins (x : stall_input) : Z :=
  match x with S_beat now => now | S_turn now _ _ => now end.
Definition ends (x : stall_input) : Z :=
  match x with S_beat now => now | S_turn _ later _ => later end.
Definition stall_clocked (h : list stall_input) : Prop :=
  Forall (λ x, begins x ≤ ends x) h ∧ StronglySorted (λ x y, ends x ≤ begins y) h.

Section stall_lemmas.
Context (c : stall_config).

Definition n_samples : nat := Z.to_nat (Z.max 1 (confirm_samples c)).

Lemma confirm_loop_spec r n i m ram u l :
  confirm_loop r n i m ram = Some (u, l) →
  m ≤ u ∧ (∀ k, (i ≤ k < i + n)%nat → _sample_gpu (gpu_at r k) ≤ u ∧ stopped_before r k = false) ∧
  l = (match n with O => ram | S n' => _sample_ram (ram_at r (i + n')) end).
Proof.
  revert i m ram. induction n as [|n IH]; intros i m ram; simpl.
  { intros [= -> ->]. split_and!; [lia|lia|done]. }
  destruct (stopped_before r i) eqn:Hs; [done|]. intros E.
  apply IH in E as (Hm & Hk & ->). split_and!; [lia| |].
  - intros k Hk'. destruct (decide (k = i)) as [->|]; [split; [lia|done]|]. apply Hk. lia.
  - destruct n; do 2 f_equal; lia.
Qed.

(** What a confirmed wedge has read. *)
Definition quiet_readings (r : readings) : Prop :=
  (∀ k, (k < n_samples)%nat → _sample_gpu (gpu_at r k) ≤ s_idle_pct c) ∧
  (∀ k, (1 ≤ k < n_samples)%nat → stopped_before r k = false) ∧
  ram_moved (s_ram_delta_mb c) (_sample_ram (ram_at r 0))
    (_sample_ram (ram_at r (n_samples - 1))) = false.

Lemma confirmed_quiet r : stall_wedged c r = true → confirm_idle c = true → quiet_readings r.
Proof.
  unfold stall_wedged. intros Hw Hc. rewrite Hc in Hw. simpl in Hw.
  destruct (confirm_window c r) as [[u l]|] eqn:E; [|done].
  apply confirm_loop_spec in E as (Hm & Hk & El). unfold idle_and_static in Hw. simpl in Hw.
  apply andb_true_iff in Hw as [Hu%Z.leb_le Hr%negb_true_iff]. unfold quiet_readings, n_samples.
  assert (Z.to_nat (Z.max 1 (confirm_samples c) - 1) =
          (Z.to_nat (Z.max 1 (confirm_samples c)) - 1)%nat) as En by lia.
  rewrite En in Hk, El. split_and!.
  - intros [|k] Hlt; [lia|]. destruct (Hk (S k)); lia.
  - intros k Hlt. apply Hk. lia.
  - destruct (Z.to_nat (Z.max 1 (confirm_samples c)) - 1)%nat; by subst.
Qed.

Lemma stall_run_app d h1 h2 :
  stall_run c d (h1 ++ h2) = stall_run c d h1 ≫= λ d', stall_run c d' h2.
Proof.
  unfold stall_run. rewrite foldl_app. destruct (foldl _ _ h1) as [d'|]; [done|]. simpl.
  by induction h2.
Qed.

(** The deadline is armed by the first beat and follows the last one. *)
Lemma stall_deadline h d :
  stall_run c None h = Some d → stall_clocked h →
  match d with
  | None => ∀ b, S_beat b ∉ h
  | Some x => (∃ b, S_beat b ∈ h) ∧ (∀ b, S_beat b ∈ h → b + stall_timeout c ≤ x)
  end.
Proof.
  revert d. induction h as [|x h IH] using rev_ind; intros d E Hc.
  { injection E as <-. set_solver. }
  rewrite stall_run_app in E. destruct (stall_run c None h) as [d0|] eqn:E0; [|done].
  destruct Hc as [Hf Hs]. apply Forall_app in Hf as [Hf Hx]. rewrite Forall_singleton in Hx.
  assert (∀ y, y ∈ h → ends y ≤ begins x) as Hbe.
  { intros y Hy. by apply (StronglySorted_app_1_elem_of _ h [x] y x Hs); [|left]. }
  assert (stall_clocked h) as Hc0 by (split; [done|by eapply StronglySorted_app_1_l]).
  specialize (IH d0 eq_refl Hc0). cbn in E.
  assert (∀ t, d = Some (rearm c t) → begins x ≤ t → (∃ b, S_beat b ∈ h ++ [x]) →
    match d with
    | None => ∀ b, S_beat b ∉ h ++ [x]
    | Some y => (∃ b, S_beat b ∈ h ++ [x]) ∧ (∀ b, S_beat b ∈ h ++ [x] → b + stall_timeout c ≤ y)
    end) as Hnew.
  { intros t -> Ht He. split; [done|]. unfold rearm. intros b [Hb|Hb%list_elem_of_singleton]%elem_of_app.
    - apply Hbe in Hb. simpl in Hb. lia.
    - subst x. simpl in Ht. lia. }
  destruct x as [now|now later r]; cbn in E.
  - injection E as <-. apply (Hnew now); [done|simpl; lia|]. exists now. set_solver.
  - assert (∀ b, S_beat b ∈ h ++ [S_turn now later r] ↔ S_beat b ∈ h) as Hin by set_solver.
    unfold stall_turn in E. destruct d0 as [x|]; [|by injection E as <-; setoid_rewrite Hin].
    destruct (x <=? now); [|by injection E as <-; setoid_rewrite Hin].
    destruct (stall_wedged c r); [done|]. injection E as <-.
    apply (Hnew later); [done|exact Hx|]. setoid_rewrite Hin. apply IH.
Qed.
End stall_lemmas.

Section stall_props.
Context `{QueueConfig} `{GuardConfig}.

(** One turn of the loop is the turn of the machine above: a trip, or a turn that
    leaves the job and the outbox alone. *)
Lemma stall_poll_turn c table job_id on_exit code host q d now later r w :
  match stall_turn c now later r d with
  | None => stall_poll c table job_id on_exit code host q d now later r w =
            (inl <$> stall_trip c table job_id on_exit code host q) w
  | Some d' => ∃ w', stall_poll c table job_id on_exit code host q d now later r w =
                 (Ok (inr d'), w') ∧ logs_only w w'
  end.
Proof.
  unfold stall_turn, stall_poll, stall_wedged, _confirm_wedged.
  destruct d as [x|]; [|eauto using logs_only_refl].
  destruct (x <=? now); [|eauto using logs_only_refl].
  destruct (confirm_idle c); [|done]. simpl.
  destruct (confirm_window c r) as [seen|]; [|eexists; split; [done|apply logs_only_refl]].
  destruct (idle_and_static c r seen); [done|].
  unfold mbind, M_bind.
  match goal with |- context [_emit_node_event ?a ?b ?c ?d ?e ?f ?g] =>
    destruct (emit_logs a b c d e f g w) as (w' & E & Hl); rewrite E end.
  by exists w'.
Qed.

(** The no-progress watchdog kills only a job that has stopped.  In any history
    of beats and turns it is inert before the first beat; a turn that trips comes
    at least one full window after every beat, and (unless the lane has no samples
    to offer) after a confirmation whose every gpu sample was idle and whose
    memory ended where it began; every other turn leaves the job's row and the
    outbox alone.  Conversely an armed watchdog whose job sends no beat and stays
    idle trips at the first turn past the deadline. *)
Lemma stall_watchdog_kills_only_the_stopped c h d now later r
    table job_id on_exit code host q w :
  stall_clocked (h ++ [S_turn now later r]) → stall_run c None h = Some d →
  (if bool_decide (stall_turn c now later r d = None) then
     (∃ b, S_beat b ∈ h) ∧ (∀ b, S_beat b ∈ h → b + stall_timeout c ≤ now) ∧
     (confirm_idle c = true → quiet_readings c r) ∧
     stall_poll c table job_id on_exit code host q d now later r w =
       (inl <$> stall_trip c table job_id on_exit code host q) w
   else
     ∃ d' w', stall_poll c table job_id on_exit code host q d now later r w = (Ok (inr d'), w') ∧
       logs_only w w') ∧
  (∀ x h', d = Some x →
     (∀ y, y ∈ h' → ∃ n l r', y = S_turn n l r' ∧ stall_wedged c r' = true) →
     (∃ y, y ∈ h' ∧ x ≤ begins y) → stall_run c d h' = None).
Proof.
  intros Hc E. split.
  - assert (stall_clocked h) as Hch.
    { destruct Hc as [Hf Hs]. apply Forall_app in Hf as [Hf _].
      split; [done|by eapply StronglySorted_app_1_l]. }
    pose proof (stall_deadline c h d E Hch) as Hd.
    pose proof (stall_poll_turn c table job_id on_exit code host q d now later r w) as Hp.
    case_bool_decide as Ht.
    + rewrite Ht in Hp. unfold stall_turn in Ht. destruct d as [x|]; [|done].
      destruct (x <=? now) eqn:Hx; [|done]. apply Z.leb_le in Hx.
      destruct (stall_wedged c r) eqn:Hw; [|done]. destruct Hd as [He Hb].
      split_and!; [done| |by apply confirmed_quiet|done].
      intros b Hbin. specialize (Hb b Hbin). lia.
    + destruct (stall_turn c now later r d) as [d'|]; [|done]. by exists d'.
  - intros x h' ->. induction h' as [|y h' IH]; intros Hall (z & Hz & Hxz); [set_solver|].
    destruct (Hall y) as (n & l & r' & -> & Hw); [left|].
    change (stall_run c (Some x) (S_turn n l r' :: h')) with
      (foldl (λ s y, s ≫= λ d, stall_next c d y) (stall_turn c n l r' (Some x)) h').
    simpl. destruct (x <=? n) eqn:Hxn.
    + rewrite Hw. clear. by induction h'.
    + apply IH; [intros; apply Hall; by right|]. apply Z.leb_gt in Hxn.
      apply elem_of_cons in Hz as [->|Hz]; [simpl in Hxz; lia|eauto].
Qed.

(** The confirmation compares the memory of its first and last sample only: what
    it did in between does not matter. *)
Theorem stall_confirmation_ignores_the_middle c r :
  confirm_idle c = true → 0 ≤ s_ram_delta_mb c →
  (∀ k, (k < n_samples c)%nat → _sample_gpu (gpu_at r k) ≤ s_idle_pct c) →
  (∀ k, (1 ≤ k < n_samples c)%nat → stopped_before r k = false) →
  _sample_ram (ram_at r (n_samples c - 1)) = _sample_ram (ram_at r 0) →
  stall_wedged c r = true.
Proof.
  intros Hc Hd Hg Hs Hr. unfold stall_wedged. rewrite Hc. simpl. unfold confirm_window.
  assert (Z.to_nat (Z.max 1 (confirm_samples c) - 1) = (n_samples c - 1)%nat) as -> by (unfold n_samples; lia).
  assert (∀ n i m ram, m ≤ s_idle_pct c →
    (∀ k, (i ≤ k < i + n)%nat → _sample_gpu (gpu_at r k) ≤ s_idle_pct c ∧ stopped_before r k = false) →
    ∃ u l, confirm_loop r n i m ram = Some (u, l) ∧ u ≤ s_idle_pct c) as Hl.
  { induction n as [|n IH]; intros i m ram Hm Hk; [eexists _, _; split; [done|lia]|]. simpl.
    destruct (Hk i) as [Hi ->]; [lia|]. apply IH; [lia|]. intros k Hlt. apply Hk. lia. }
  assert (1 ≤ n_samples c)%nat by (unfold n_samples; lia).
  destruct (Hl (n_samples c - 1)%nat 1%nat (_sample_gpu (gpu_at r 0)) (_sample_ram (ram_at r 0)))
    as (u & l & E & Hu); [apply Hg; lia|intros k Hlt; split; [apply Hg|apply Hs]; lia|].
  rewrite E. unfold idle_and_static. simpl. apply andb_true_iff. split; [by apply Z.leb_le|].
  apply confirm_loop_spec in E as (_ & _ & ->).
  destruct (n_samples c - 1)%nat as [|n]; simpl in *; [|rewrite Hr];
    destruct (_sample_ram (ram_at r 0)); simpl; rewrite ?Z.sub_diag; simpl;
    try (apply negb_true_iff, Z.ltb_ge); try done.
Qed.
End stall_props.

(** * The gpu-health watchdog over time *)

Inductive health_input := H_beat (now : Z) (ram : result (option Z)) | H_turn (t : turn).
Definition health_next (c : health_config) (s : health) (x : health_input) : option health :=
  match x with
  | H_beat now ram => Some (health_beat c now ram s)
  | H_turn t => health_turn c t s
  end.
Definition health_run (c : health_config) (s : health) (h : list health_input) : option health :=
  foldl (λ s x, s ≫= λ s, health_next c s x) (Some s) h.

Definition idle_turn (c : health_config) (x : health_input) : Prop :=
  match x with H_beat _ _ => False | H_turn t => _sample_gpu (p_util t) ≤ idle_pct c end.

(** A window of length [len] was opened at the instant [o] with the memory [a]: by
    the start of the job, by a beat, or by a healthy checkpoint, the last of [pre]. *)
Definition opened (c : health_config) (t0 : Z) (ram0 : result (option Z))
    (pre : list health_input) (o : Z) (a : option Z) (len : Z) : Prop :=
  (pre = [] ∧ o = t0 ∧ a = _sample_ram ram0 ∧ len = load_grace c) ∨
  (∃ pre' x, pre = pre' ++ [x] ∧ len = interval c ∧
     match x with
     | H_beat now ram => o = now ∧ a = _sample_ram ram
     | H_turn t => o = p_later t ∧ a = _sample_ram (p_ram_later t)
     end).

Section health_props.
Context (c : health_config).

Lemma health_run_app s h1 h2 :
  health_run c s (h1 ++ h2) = health_run c s h1 ≫= λ s', health_run c s' h2.
Proof.
  unfold health_run. rewrite foldl_app. destruct (foldl _ _ h1) as [s'|]; [done|]. simpl.
  by induction h2.
Qed.
Lemma health_run_cons s x h :
  health_run c s (x :: h) = health_next c s x ≫= λ s', health_run c s' h.
Proof. apply (health_run_app s [x] h). Qed.

(** What the state remembers of the window. *)
Definition tracks (t0 : Z) (ram0 : result (option Z)) (h : list health_input) (s : health) : Prop :=
  armed s = true ∧ ∃ pre win o len, h = pre ++ win ∧ opened c t0 ram0 pre o (ram_anchor s) len ∧
    next_checkpoint s = o + len ∧
    Forall (λ x, match x with H_beat _ _ => False
                 | H_turn t => _sample_gpu (p_util t) ≤ max_util s end) win.

Lemma tracks_run t0 ram0 h s :
  health_run c (health_start c t0 ram0) h = Some s → tracks t0 ram0 h s.
Proof.
  revert s. induction h as [|x h IH] using rev_ind; intros s E.
  { injection E as <-. split; [done|]. exists [], [], t0, (load_grace c).
    split_and!; [done|by left|done|constructor]. }
  rewrite health_run_app in E.
  destruct (health_run c _ h) as [s0|] eqn:E0; [|done]. cbn in E.
  destruct (IH s0 eq_refl) as (Ha & pre & win & o & len & -> & Ho & Hn & Hw).
  assert (∀ s' o', armed s' = true → next_checkpoint s' = o' + interval c →
    match x with
    | H_beat now ram => o' = now ∧ ram_anchor s' = _sample_ram ram
    | H_turn t => o' = p_later t ∧ ram_anchor s' = _sample_ram (p_ram_later t)
    end → tracks t0 ram0 ((pre ++ win) ++ [x]) s') as Hfresh.
  { intros s' o' Ha' Hn' Hx. split; [done|]. exists ((pre ++ win) ++ [x]), [], o', (interval c).
    split_and!; [by rewrite app_nil_r| |done|constructor]. right. by eexists _, x. }
  destruct x as [now ram|t]; cbn in E.
  - injection E as <-. by apply (Hfresh _ now).
  - unfold health_turn in E. rewrite Ha in E. destruct (_ <=? p_now t).
    + destruct (window_wedged _ _ _); [done|]. injection E as <-. by apply (Hfresh _ (p_later t)).
    + injection E as <-. split; [done|]. exists pre, (win ++ [H_turn t]), o, len.
      split_and!; [by rewrite app_assoc|done|done|]. apply Forall_app. split.
      * eapply Forall_impl; [exact Hw|]. intros [|t'] Ht; simpl in *; [done|lia].
      * constructor; [simpl; lia|constructor].
Qed.

(** The gpu-health watchdog kills only a wedged job, however long it has run.
    When a turn trips, the window that ends there was opened by the start of the
    job (and is as long as the load grace), by a beat or by a healthy checkpoint
    (and is as long as the interval); no beat came in it, every gpu sample of it
    was idle, and the memory now is where it was when the window opened, or is
    unknown. *)
Lemma health_watchdog_kills_only_the_wedged t0 ram0 h s t :
  health_run c (health_start c t0 ram0) h = Some s → health_turn c t s = None →
  ∃ pre win o a len, h = pre ++ win ∧ opened c t0 ram0 pre o a len ∧ o + len ≤ p_now t ∧
    Forall (idle_turn c) (win ++ [H_turn t]) ∧
    ram_moved (ram_delta_mb c) a (_sample_ram (p_ram t)) = false.
Proof.
  intros (Ha & pre & win & o & len & -> & Ho & Hn & Hw)%tracks_run Ht.
  unfold health_turn in Ht. rewrite Ha in Ht.
  destruct (_ <=? p_now t) eqn:Hd; [|done]. apply Z.leb_le in Hd. simpl in Hd.
  destruct (window_wedged _ _ _) eqn:Hv; [|done].
  unfold window_wedged in Hv. apply andb_true_iff in Hv as [Hu%Z.leb_le Hr%negb_true_iff].
  simpl in Hu, Hr. exists pre, win, o, (ram_anchor s), len. split_and!; try done; [lia|].
  apply Forall_app. split; [|constructor; [simpl; lia|constructor]].
  eapply Forall_impl; [exact Hw|]. intros [|t'] Hx; simpl in *; [done|lia].
Qed.

(** A turn of a job that does nothing: gpu idle, memory always at [r]. *)
Definition dead_turn (r : option Z) (t : turn) : Prop :=
  _sample_gpu (p_util t) ≤ idle_pct c ∧ _sample_ram (p_ram t) = r ∧
  _sample_ram (p_ram_later t) = r.

Lemma health_run_None (h : list health_input) :
  foldl (λ s x, s ≫= λ s, health_next c s x) None h = None.
Proof. by induction h. Qed.

Lemma same_ram_unmoved r : 0 ≤ ram_delta_mb c → ram_moved (ram_delta_mb c) r r = false.
Proof. destruct r; [|done]. simpl. rewrite Z.sub_diag. intros. by apply Z.ltb_ge. Qed.

(** A window in which the job did nothing ends in a trip. *)
Lemma dead_window r l s :
  0 ≤ ram_delta_mb c → Forall (dead_turn r) l → armed s = true → max_util s ≤ idle_pct c →
  ram_anchor s = r → (∃ t, t ∈ l ∧ next_checkpoint s ≤ p_now t) →
  health_run c s (map H_turn l) = None.
Proof.
  intros Hdelta. revert s. induction l as [|t l IH]; intros s Hf Ha Hu Hr (t' & Ht' & Hn); [set_solver|].
  apply Forall_cons in Hf as [(Hi & Hram & _) Hf]. simpl map. rewrite health_run_cons. cbn [health_next].
  unfold health_turn. rewrite Ha. cbn [next_checkpoint saw_util].
  destruct (next_checkpoint s <=? p_now t) eqn:E.
  - assert (window_wedged c (saw_util t s) (_sample_ram (p_ram t)) = true) as ->; [|done].
    unfold window_wedged. simpl. rewrite Hr, Hram, same_ram_unmoved by done.
    rewrite andb_true_r. apply Z.leb_le. lia.
  - simpl. apply IH; simpl; try done; [lia|]. apply Z.leb_gt in E.
    apply elem_of_cons in Ht' as [->|Ht']; [lia|eauto].
Qed.

Definition turns_clocked (l : list turn) : Prop :=
  Forall (λ t, p_now t ≤ p_later t) l ∧ StronglySorted (λ x y, p_later x ≤ p_now y) l.

(** The gpu-health watchdog finds a wedged job.  From any armed state, a job
    that does nothing any more (no beat, gpu idle, memory unmoved) is tripped once
    the current checkpoint and one more interval have passed. *)
Lemma health_watchdog_finds_the_wedged r s l1 t1 l2 t2 l3 :
  0 ≤ idle_pct c → 0 ≤ ram_delta_mb c → armed s = true →
  Forall (dead_turn r) (l1 ++ t1 :: l2 ++ t2 :: l3) → turns_clocked (l1 ++ t1 :: l2 ++ t2 :: l3) →
  next_checkpoint s ≤ p_now t1 → p_later t1 + interval c ≤ p_now t2 →
  health_run c s (map H_turn (l1 ++ t1 :: l2 ++ t2 :: l3)) = None.
Proof.
  intros Hi Hdelta. revert s. induction l1 as [|t l1 IH]; intros s Ha Hf Hc H1 H2.
  - simpl in *. apply Forall_cons in Hf as [(_ & _ & Hram) Hf]. rewrite health_run_cons. cbn [health_next].
    unfold health_turn. rewrite Ha. cbn [next_checkpoint saw_util].
    rewrite (proj2 (Z.leb_le _ _) H1). destruct (window_wedged _ _ _); [done|]. simpl.
    apply (dead_window r); simpl; try done. exists t2. split; [set_solver|done].
  - simpl in *. apply Forall_cons in Hf as [(Hu & Hr & Hram) Hf].
    destruct Hc as [Hcf Hcs]. apply Forall_cons in Hcf as [_ Hcf].
    apply StronglySorted_cons in Hcs as [Hcs1 Hcs2].
    rewrite health_run_cons. cbn [health_next]. unfold health_turn. rewrite Ha.
    cbn [next_checkpoint saw_util]. destruct (next_checkpoint s <=? p_now t) eqn:E.
    + destruct (window_wedged _ _ _); [done|]. simpl. apply (dead_window r); simpl; try done.
      exists t2. split; [set_solver|].
      assert (p_later t ≤ p_now t1) by (rewrite Forall_forall in Hcs1; apply Hcs1; set_solver).
      assert (p_now t1 ≤ p_later t1) by (rewrite Forall_forall in Hcf; apply Hcf; set_solver). lia.
    + simpl. by apply IH.
Qed.
End health_props.

(** * Witnesses *)

Module GuardDemo.
Definition guards : GuardConfig :=
  {| video_model_ids := ["wan"]; ingest_default_budget_s := 3600; guard_max_retries := 3 |}.
(** A claimed row and the same row at its third retry. *)
Definition row : node_job := ReclaimDemo.job.
Definition worn : world :=
  on_jobs (update_where (λ _, true) (upd (set_watchdog_retries 3))) ReclaimDemo.claimed.
Lemma worn_ok : db_ok worn.
Proof. apply db_ok_update, ReclaimDemo.claimed_ok. Qed.

(** A node that beats once and then reads idle with its memory unmoved. *)
Definition still : readings :=
  mkReadings (λ _, Ok (Some 2)) (λ _, Ok (Some 900)) (λ _, false).
Definition stall_cfg : stall_config := mkStall 120000000 5 5120 3 true.
Definition beats : list stall_input := [S_turn 0 0 still; S_beat 10; S_turn 60000000 60000000 still].
Definition spiky : readings :=
  mkReadings (λ _, Ok (Some 0)) (λ k, Ok (Some (if bool_decide (k = 1%nat) then 90000 else 900)))
    (λ _, false).

(** A spike of 89 GB between two equal readings goes unseen. *)
Lemma spiky_is_tripped : stall_wedged stall_cfg spiky = true.
Proof. by vm_compute. Qed.

Definition health_cfg : health_config := mkHealthCfg 300000000 1200000000 5 5120.
Definition quiet (now : Z) : turn := mkTurn (Ok (Some 0)) now (Ok (Some 900)) now (Ok (Some 900)).
Definition loaded : list health_input := [H_turn (quiet 5); H_beat 10 (Ok (Some 900))].
End GuardDemo.

Lemma watchdog_trip_retries_then_fails_witness :
  (∃ w' (j' : node_job), _watchdog_trip (H := Demo.cfg) (H0 := GuardDemo.guards) t_node_jobs
      (jid GuardDemo.row) "wedged" "stall-watchdog" os_exit 76 (Some "h") (Some "cpu")
      ReclaimDemo.claimed = os_exit 76 w' ∧ j' ∈ node_jobs w' ∧ status j' = Queued ∧
      watchdog_retries j' = 1) ∧
  (∃ w' (j' : node_job), _watchdog_trip (H := Demo.cfg) (H0 := GuardDemo.guards) t_node_jobs
      (jid (Demo.first GuardDemo.worn)) "wedged" "stall-watchdog" os_exit 76 (Some "h")
      (Some "cpu") GuardDemo.worn = os_exit 76 w' ∧ j' ∈ node_jobs w' ∧ status j' = Failed).
Proof.
  split.
  - destruct (@watchdog_trip_retries_then_fails Demo.cfg GuardDemo.guards ReclaimDemo.claimed t_node_jobs
      (jid GuardDemo.row) "wedged" "stall-watchdog" os_exit 76 (Some "h") (Some "cpu"))
      as (w' & E & _ & _ & _ & _ & _ & Hj);
      [exact ReclaimDemo.claimed_ok|exists GuardDemo.row; split; [vm_compute; left|reflexivity]|].
    destruct (Hj GuardDemo.row) as (j' & Hj' & _ & Ho); [vm_compute; left|reflexivity|].
    exists w', j'. split; [exact E|]. split; [exact Hj'|].
    destruct Ho as (_ & Hs & _ & _ & Hr). split; [exact Hs|]. rewrite Hr. reflexivity.
  - destruct (@watchdog_trip_retries_then_fails Demo.cfg GuardDemo.guards GuardDemo.worn t_node_jobs
      (jid (Demo.first GuardDemo.worn)) "wedged" "stall-watchdog" os_exit 76 (Some "h") (Some "cpu"))
      as (w' & E & _ & _ & _ & _ & _ & Hj);
      [exact GuardDemo.worn_ok|exists (Demo.first GuardDemo.worn); split; [vm_compute; left|reflexivity]|].
    destruct (Hj (Demo.first GuardDemo.worn)) as (j' & Hj' & _ & Ho); [vm_compute; left|reflexivity|].
    exists w', j'. split; [exact E|]. split; [exact Hj'|]. destruct Ho as [Hs _]. exact Hs.
Defined.

Lemma lost_claims_end_the_worker_witness :
  job_status_poll (H := Demo.cfg) (jid GuardDemo.row) "h" os_exit 77 ReclaimDemo.claimed
    = (Ok None, ReclaimDemo.claimed) ∧
  _renew_once t_node_jobs (jid GuardDemo.row) "other" 600 ReclaimDemo.claimed
    = (Ok false, ReclaimDemo.claimed).
Proof.
  split.
  - destruct (@lost_claims_end_the_worker Demo.cfg ReclaimDemo.claimed GuardDemo.row "h" 600
      os_exit 77) as (_ & Hp & _); [exact ReclaimDemo.claimed_ok|vm_compute; left|exact Hp].
  - destruct (@lost_claims_end_the_worker Demo.cfg ReclaimDemo.claimed GuardDemo.row "other" 600
      os_exit 77) as (Hr & _ & _); [exact ReclaimDemo.claimed_ok|vm_compute; left|exact Hr].
Defined.

Lemma stall_watchdog_kills_only_the_stopped_witness :
  stall_run GuardDemo.stall_cfg None GuardDemo.beats = Some (Some 120000010) ∧
  quiet_readings GuardDemo.stall_cfg GuardDemo.still.
Proof.
  split; [reflexivity|].
  destruct (@stall_watchdog_kills_only_the_stopped Demo.cfg GuardDemo.guards GuardDemo.stall_cfg
    GuardDemo.beats (Some 120000010) 120000010 120000010 GuardDemo.still t_node_jobs "j" os_exit 76
    None None Demo.empty_world) as [Ht _].
  - split; [repeat constructor; simpl; lia|]. repeat constructor; simpl; lia.
  - reflexivity.
  - rewrite bool_decide_eq_true_2 in Ht by (vm_compute; reflexivity).
    apply Ht. reflexivity.
Defined.

Lemma health_watchdog_kills_only_the_wedged_witness :
  ∃ pre win o a len, GuardDemo.loaded = pre ++ win ∧
    opened GuardDemo.health_cfg 0 (Ok (Some 100)) pre o a len ∧ o + len ≤ 300000010.
Proof.
  destruct (health_watchdog_kills_only_the_wedged GuardDemo.health_cfg 0 (Ok (Some 100))
    GuardDemo.loaded (mkHealth true 0 (Some 900) 300000010) (GuardDemo.quiet 300000010))
    as (pre & win & o & a & len & E & Ho & Hn & _); [reflexivity|reflexivity|].
  exists pre, win, o, a, len. split; [exact E|]. split; [exact Ho|exact Hn].
Defined.

Lemma health_watchdog_finds_the_wedged_witness :
  health_run GuardDemo.health_cfg (health_start GuardDemo.health_cfg 0 (Ok (Some 100)))
    (map H_turn [GuardDemo.quiet 1200000000; GuardDemo.quiet 1500000000]) = None.
Proof.
  apply (health_watchdog_finds_the_wedged GuardDemo.health_cfg (Some 900)
    (health_start GuardDemo.health_cfg 0 (Ok (Some 100)))
    [] (GuardDemo.quiet 1200000000) [] (GuardDemo.quiet 1500000000) []);
    try (simpl; lia); try reflexivity.
  - repeat constructor; simpl; lia.
  - split; repeat constructor; simpl; lia.
Defined.
