(* ===== verification/WorkerLanes.v ===== *)
(** * The lanes of a worker process ([queue_workflows/claim_worker.py])

    How many jobs a worker takes at once: the operator's knobs and how they are
    read, the slot table of the threaded cpu lane, the budget the inline and the
    pool lane of a gpu worker share, the claims they make, and the release of a
    process's other jobs before it is killed.

    What the worker last observed of its box (served kinds, warm models, windows)
    is memory the heartbeat refreshes: the record [view]. *)

From S2P Require Import Prelude Json Schema NodeQueue Claim Reclaim Watchdogs.
Local Open Scope Z_scope.

(** ** Knobs *)

(** The process environment, and the two settings the host may have configured. *)
Class WorkerEnv := {
  os_environ : list (string * string);
  config_cpu_worker_threads : json;
  config_gpu_box_max_concurrent : json;
}.

Definition CANONICAL_PREFIX : string := "QUEUE_WORKFLOWS_".
Definition LEGACY_PREFIX : string := "AI_LEADS_".

(** [envcompat.env_get]: the retired spelling of a knob is an error *)
Definition env_get `{WorkerEnv} (name : string) (dflt : option string) : result (option string) :=
  if PyStr.startswith CANONICAL_PREFIX name &&
     dict_has (LEGACY_PREFIX +:+ PyStr.removeprefix CANONICAL_PREFIX name) os_environ
  then Raise (RuntimeError "renamed")
  else Ok (match dict_get name os_environ with Some v => Some v | None => dflt end).

(** [int(v)] of a configured value *)
Definition py_int (v : json) : result Z :=
  match v with
  | JInt n => Ok n
  | JBool b => Ok (b2z b)
  | JFloat q => Ok (Z.quot (Qnum q) (Zpos (Qden q)))
  | JStr s => match PyStr.int s with Some n => Ok n | None => Raise (ValueError "int") end
  | _ => Raise (TypeError "int")
  end.

Definition DEFAULT_CPU_WORKER_THREADS : Z := 1.
Definition BOX_MAX_CONCURRENT_ENV : string := "QUEUE_WORKFLOWS_GPU_BOX_MAX_CONCURRENT".
Definition _THIS_BOX : string := "".

Definition resolve_cpu_worker_threads `{WorkerEnv} : result Z :=
  raw ← env_get "QUEUE_WORKFLOWS_CPU_WORKER_THREADS" None;
  let configured :=
    match config_cpu_worker_threads with
    | JNull => DEFAULT_CPU_WORKER_THREADS
    | v => match py_int v with Ok n => Z.max 1 n | Raise _ => DEFAULT_CPU_WORKER_THREADS end
    end in
  Ok (match or_none raw with
      | Some s => match PyStr.int s with Some n => Z.max 1 n | None => configured end
      | None => configured
      end).

(** One entry of the ceilings: ['box=N'], a bare ['N'], None when it is dropped *)
Definition parse_entry (entry : string) : option (string * Z) :=
  let e := PyStr.strip entry in
  if negb (PyStr.truthy e) then None
  else
    let named :=
      match PyStr.split1 "=" e with
      | (box, Some value) =>
          if PyStr.truthy (PyStr.strip box) then Some (PyStr.strip box, value) else None
      | (_, None) => Some (_THIS_BOX, e)
      end in
    match named with
    | None => None
    | Some (box, value) =>
        match PyStr.int (PyStr.strip value) with
        | None => None
        | Some n => if n <=? 0 then None else Some (PyStr.strip box, n)
        end
    end.

Definition add_entry (out : list (string * Z)) (entry : string) : list (string * Z) :=
  match parse_entry entry with
  | Some (box, n) => dict_set box n out
  | None => out
  end.
Definition _parse_box_ceilings (raw : string) : list (string * Z) :=
  foldl add_entry [] (PyStr.split "," raw).

(** The host's ceiling of a box, when it makes sense *)
Definition configured_ceiling `{WorkerEnv} (box : string) : option Z :=
  match config_gpu_box_max_concurrent with
  | JObj fs =>
      match dict_get box fs with
      | None | Some JNull => None
      | Some v => match py_int v with Ok n => if 0 <? n then Some n else None | Raise _ => None end
      end
  | _ => None
  end.

Definition resolve_box_max_concurrent `{WorkerEnv} (box : string) : result (option Z) :=
  raw ← env_get BOX_MAX_CONCURRENT_ENV None;
  let hit :=
    match raw with
    | Some s =>
        if PyStr.truthy (PyStr.strip s) then
          let ceilings := _parse_box_ceilings s in
          match dict_get box ceilings with
          | Some n => Some n
          | None => dict_get _THIS_BOX ceilings
          end
        else None
    | None => None
    end in
  Ok (match hit with Some n => Some n | None => configured_ceiling box end).

(** ** How wide the gpu lanes of a box are *)

(** What a gpu worker knows when it claims.  [v_par] is the operator's parallelism
    as the control plane answered. *)
Record view := mkView {
  v_host : string;
  v_box : string;
  v_host_priority : Z;
  v_lease_s : Z;
  v_par : result (option Z);
  v_vllm_concurrency : option Z;
  v_served : list string;
  v_warm_servers : list string;
  v_warm_models : list string;
  v_serving_context : option Z;
  v_cached_default : result (option string);
  v_pool_modules : list string;
  v_known_inline : list string;
  v_known_pool : list string;
  v_current_model : option string;
  v_vram_total : option Z;
  v_fits : list string;
  v_has_models : bool;
  v_blocks_claims : bool;
  v_spill_paused : bool;
  v_gpu_serving_ok : bool;
  v_holding : bool;
}.

Definition SERVER_TYPE_VLLM : string := "vllm".
Definition DEFAULT_LLM_SERVER_TYPE : string := "ollama".

(** [predict_default_kind] *)
Definition predict_default_kind (warm : list string) (cached : result (option string)) : string :=
  if bool_decide (SERVER_TYPE_VLLM ∈ warm) then SERVER_TYPE_VLLM
  else match cached with
       | Ok v => default DEFAULT_LLM_SERVER_TYPE (or_none v)
       | Raise _ => DEFAULT_LLM_SERVER_TYPE
       end.

Definition _pool_parallelism_configured (par : result (option Z)) : Z :=
  match par with
  | Raise _ => 1
  | Ok p => Z.max 1 (match p with None | Some 0 => 1 | Some n => n end)
  end.

(** [_KIND_CONCURRENCY.get] *)
Definition _KIND_CONCURRENCY (kind : string) : option Z :=
  if String.eqb kind "ollama" then Some 1 else None.

Section widths.
Context `{WorkerEnv}.

Definition _box_ceiling (box : string) (par : Z) : result Z :=
  ceiling ← resolve_box_max_concurrent box;
  Ok (match (ceiling : option Z) with None => par | Some n => Z.min par n end).

Definition _pool_parallelism (v : view) : result Z :=
  let par := _pool_parallelism_configured (v_par v) in
  _box_ceiling (v_box v)
    (match v_vllm_concurrency v with
     | Some n => if negb (n =? 0) && bool_decide (SERVER_TYPE_VLLM ∈ v_served v)
                 then Z.max 1 (Z.min par n) else par
     | None => par
     end).

Definition _kind_caps (v : view) : result (list (string * Z)) :=
  par ← _pool_parallelism v;
  Ok [("ollama", 1); ("vllm", Z.max 1 par)].

Definition _gpu_slot_budget (v : view) : result Z :=
  par ← _pool_parallelism v;
  let par := Z.max 1 par in
  let caps := map _KIND_CONCURRENCY (truthy_only (v_served v)) in
  Ok (match caps with
      | [] => par
      | _ => if existsb is_null caps then par
             else Z.max 1 (Z.min par (foldr Z.max 0 (omap id caps)))
      end).

(** ** The gpu claims *)

Context `{QueueConfig}.

Definition gpu_claimant (v : view) : claimant :=
  mk_claimant 0 (Some (v_host v)) (v_lease_s v) "gpu" None (v_host_priority v) (Some (v_box v)).

(** The arguments both lanes pass alike. *)
Definition gpu_arguments (v : view) (model : option string) (known : list string)
    (require_model reservations_only : bool) (budget : Z) (kinds : list (string * Z)) :
    gpu_params :=
  mkGpu model known (Some require_model) (v_pool_modules v) (Some budget) (v_served v)
    (v_warm_servers v) (v_warm_models v) (Some kinds)
    (Some (predict_default_kind (v_warm_servers v) (v_cached_default v)))
    (v_serving_context v) reservations_only.

(** The gpu branch of [_claim].  The stamp of the artifact a claim will run fills a
    column no modelled function reads, and is left out. *)
Definition claim_inline (v : view) (locked : list string) : M (option node_job) :=
  if v_blocks_claims v || v_spill_paused v then mret None
  else if v_has_models v && is_not_null (v_vram_total v) &&
          match v_fits v with [] => true | _ => false end then mret None
  else
    budget ← lift (_gpu_slot_budget v);
    kinds ← lift (_kind_caps v);
    claim_next_gpu_job (gpu_claimant v)
      (gpu_arguments v (v_current_model v) (v_known_inline v) true false budget kinds) locked.

(** [_reservation_queued_here] *)
Definition _reservation_queued_here (v : view) : M bool :=
  row ← try_except (cluster_reservation_for (Some (v_host v)) (Some (v_box v)) "gpu" None)
          (λ _, Some (mret None));
  mret (match (row : option node_job) with
        | Some r => bool_decide (status r = Queued)
        | None => false
        end).

Definition _claim_pool (v : view) (locked : list string) : M (option node_job) :=
  let only := v_blocks_claims v || negb (v_gpu_serving_ok v) || v_holding v in
  if v_spill_paused v then mret None
  else
    queued ← (if only then _reservation_queued_here v else mret true);
    if negb queued then mret None
    else
      budget ← lift (_gpu_slot_budget v);
      kinds ← lift (_kind_caps v);
      claim_next_gpu_job (gpu_claimant v)
        (gpu_arguments v None (v_known_pool v) false only budget kinds) locked.
End widths.

(** ** One budget for both gpu lanes *)

Record gpu_lanes := mkLanes { pool_inflight : Z; inline_running : bool }.

(** [_pool_budget] *)
Definition _pool_budget (par : Z) (s : gpu_lanes) : Z := Z.max 0 (par - b2z (inline_running s)).
(** The admission at the head of [run_once], under the lock *)
Definition admit_inline (par : Z) (s : gpu_lanes) : option gpu_lanes :=
  if par <=? pool_inflight s then None else Some (mkLanes (pool_inflight s) true).
(** The admission of the pool feeder, under the same lock *)
Definition admit_pool (par : Z) (s : gpu_lanes) : option gpu_lanes :=
  if _pool_budget par s <=? pool_inflight s then None
  else Some (mkLanes (pool_inflight s + 1) (inline_running s)).
Definition end_inline (s : gpu_lanes) : gpu_lanes := mkLanes (pool_inflight s) false.
Definition end_pool (s : gpu_lanes) : gpu_lanes :=
  mkLanes (pool_inflight s - 1) (inline_running s).

(** ** The threaded cpu lane *)

(** A reservation of the lane: the claim it turned into, and the slots it holds. *)
Record slot := mkSlot { s_job : option string; s_started : option Z; s_weight : Z }.
Record cpu_lane := mkLane {
  threads : Z;
  cpu_inflight : list (string * slot);
  cpu_drained : bool;
}.

Definition _inflight_weight_locked (l : cpu_lane) : Z :=
  sum_of (λ e, s_weight e.2) (cpu_inflight l).

(** [_reserve_slot]: all the free capacity, under a fresh token *)
Definition _reserve_slot (token : string) (l : cpu_lane) : option (Z * cpu_lane) :=
  let free := threads l - _inflight_weight_locked l in
  if free <? 1 then None
  else Some (free, mkLane (threads l) (dict_set token (mkSlot None None free) (cpu_inflight l)) false).

Definition _set_slot_weight (token job_id : string) (started : option Z) (weight : Z)
    (l : cpu_lane) : cpu_lane :=
  if dict_has token (cpu_inflight l)
  then mkLane (threads l) (dict_set token (mkSlot (Some job_id) started weight) (cpu_inflight l))
         (cpu_drained l)
  else l.

Definition _release_slot (token : string) (l : cpu_lane) : cpu_lane :=
  let rest := dict_pop token (cpu_inflight l) in
  mkLane (threads l) rest (match rest with [] => true | _ => cpu_drained l end).

(** [max(1, min(int(job.get("cpu_slots") or 1), self.threads))] *)
Definition slot_width (l : cpu_lane) (j : node_job) : Z :=
  Z.max 1 (Z.min (match cpu_slots j with None | Some 0 => 1 | Some n => n end) (threads l)).

(** [_inflight_claims]: the claims of this process, by job id *)
Definition _inflight_claims (l : cpu_lane) : list (string * option Z) :=
  foldl (λ d (e : string * slot),
    match s_job e.2 with Some i => dict_set i (s_started e.2) d | None => d end)
    [] (cpu_inflight l).

Section cpu_lane_ops.
Context `{QueueConfig}.

(** [_claim(free_slots=free)] of a widened lane *)
Definition claim_cpu (v : view) (width free : Z) (locked : list string) : M (option node_job) :=
  claim_next_cpu_job 0 (Some (v_host v)) (v_lease_s v) (v_host_priority v) None (Some (v_box v))
    (Some width) (Some free) locked.

(** [_claim_threaded]; [submits] says whether the pool took the job. *)
Definition _claim_threaded (v : view) (token : string) (locked : list string) (submits : bool)
    (l : cpu_lane) : M (bool * cpu_lane) :=
  match _reserve_slot token l with
  | None => mret (false, l)
  | Some (free, l1) =>
      job ← try_except (claim_cpu v (threads l) free locked) (λ _, Some (mret None));
      match (job : option node_job) with
      | None => mret (false, _release_slot token l1)
      | Some j =>
          let l2 := _set_slot_weight token (jid j) (started_at j) (slot_width l j) l1 in
          if submits then mret (true, l2) else mret (false, _release_slot token l2)
      end
  end.

(** The hook of [_trip_exit]: the other claims of this process go back to the queue,
    then the process ends. *)
Definition release_sibling (host q job_id : string) (claim : string * option Z) : M () :=
  if String.eqb claim.1 job_id then mret ()
  else try_except (_ ← requeue_running_job claim.1 host q None claim.2; mret ())
         (λ _, Some (mret ())).
Definition _sweep_then_exit (host q job_id : string) (l : cpu_lane) (exit_fn : exit_hook) :
    exit_hook := λ code,
  _ ← forM (_inflight_claims l) (release_sibling host q job_id);
  exit_fn code.
Definition _trip_exit (host q job_id : string) (l : cpu_lane) (on_exit : option exit_hook) :
    option exit_hook :=
  if threads l <=? 1 then None
  else Some (_sweep_then_exit host q job_id l (default os_exit on_exit)).

(** [requeue_inflight_for_control] *)
Definition requeue_inflight_for_control (host q : string) : M Z :=
  n ← requeue_running_for_worker host q None;
  _ ← _clear_busy_ghost (Some host) (Some q);
  mret n.
End cpu_lane_ops.

(** * Lemmas *)

Section knob_lemmas.
Context `{WorkerEnv}.

(** The last good entry of a list that names a box. *)
Definition last_entry (box : string) (l : list (string * Z)) : option Z :=
  snd <$> List.find (λ e, String.eqb e.1 box) (rev l).

Lemma ceilings_last box entries :
  dict_get box (foldl add_entry [] entries) = last_entry box (omap parse_entry entries).
Proof.
  induction entries as [|e l IH] using rev_ind; [done|].
  rewrite foldl_app, omap_app. simpl. unfold add_entry at 1.
  destruct (parse_entry e) as [[b n]|]; [|by rewrite IH, app_nil_r].
  unfold last_entry in *. rewrite rev_app_distr. simpl.
  destruct (String.eqb b box) eqn:E.
  - apply String.eqb_eq in E as ->. by rewrite dict_get_set_eq.
  - apply String.eqb_neq in E. by rewrite dict_get_set_ne.
Qed.

Lemma parse_entry_positive e b n : parse_entry e = Some (b, n) → 1 ≤ n.
Proof.
  unfold parse_entry. repeat case_match; intros E; try done; injection E as _ <-;
    match goal with H : (_ <=? 0) = false |- _ => apply Z.leb_gt in H; lia end.
Qed.

Lemma ceiling_positive box raw n : dict_get box (_parse_box_ceilings raw) = Some n → 1 ≤ n.
Proof.
  unfold _parse_box_ceilings. rewrite ceilings_last. unfold last_entry.
  destruct (List.find _ _) as [[b m]|] eqn:E; [|done]. intros [= <-].
  apply find_some in E as [Hin _]. apply in_rev, list_elem_of_In, list_elem_of_omap in Hin
    as (e & _ & He). by apply parse_entry_positive in He.
Qed.

Lemma resolved_positive box n : resolve_box_max_concurrent box = Ok (Some n) → 1 ≤ n.
Proof.
  unfold resolve_box_max_concurrent. destruct (env_get _ _) as [raw|]; [|done]. simpl.
  intros [= E]. destruct (match raw with Some _ => _ | None => None end) as [m|] eqn:Eh.
  - injection E as <-. destruct raw as [s|]; [|done]. destruct (PyStr.truthy _); [|done].
    destruct (dict_get box _) as [k|] eqn:Ek; [|by apply ceiling_positive in Eh].
    injection Eh as <-. by apply ceiling_positive in Ek.
  - unfold configured_ceiling in E. repeat case_match; try done; injection E as <-;
      match goal with H : (0 <? _) = true |- _ => apply Z.ltb_lt in H; lia end.
Qed.

Lemma pool_parallelism_bounds v par :
  _pool_parallelism v = Ok par →
  1 ≤ par ∧ ∀ n, resolve_box_max_concurrent (v_box v) = Ok (Some n) → par ≤ n.
Proof.
  unfold _pool_parallelism, _box_ceiling.
  assert (1 ≤ _pool_parallelism_configured (v_par v)) by (unfold _pool_parallelism_configured; case_match; lia).
  set (base := match v_vllm_concurrency v with Some _ => _ | None => _ end).
  assert (1 ≤ base) by (subst base; repeat case_match; lia).
  destruct (resolve_box_max_concurrent (v_box v)) as [[n|]|] eqn:E; [| |done];
    intros [= <-]; (split; [|by intros m [= <-]; lia]).
  - apply resolved_positive in E. lia.
  - lia.
Qed.

Lemma slot_budget_bounds v par b :
  _pool_parallelism v = Ok par → _gpu_slot_budget v = Ok b → 1 ≤ b ≤ par.
Proof.
  intros Ep Eb. apply pool_parallelism_bounds in Ep as Hp. unfold _gpu_slot_budget in Eb.
  rewrite Ep in Eb. simpl in Eb. injection Eb as <-.
  destruct (map _ _); [lia|]. case_match; lia.
Qed.
End knob_lemmas.

(** * Properties *)

Section knob_props.
Context `{WorkerEnv}.

(** No knob can park a lane, and one bad entry of the fleet-wide variable costs
    only that entry.  The width of the cpu lane and every ceiling that is obeyed
    are at least 1; the ceiling the variable gives a box is the last readable,
    positive entry that names it, whatever the other entries are. *)
Lemma knobs_never_park_a_lane :
  (∀ n, resolve_cpu_worker_threads = Ok n → 1 ≤ n) ∧
  (∀ box n, resolve_box_max_concurrent box = Ok (Some n) → 1 ≤ n) ∧
  (∀ box raw, dict_get box (_parse_box_ceilings raw) =
     last_entry box (omap parse_entry (PyStr.split "," raw))).
Proof.
  split_and!.
  - intros n. unfold resolve_cpu_worker_threads, DEFAULT_CPU_WORKER_THREADS.
    destruct (env_get _ _); [|done]. simpl. intros [= <-]. repeat case_match; lia.
  - apply resolved_positive.
  - intros box raw. apply ceilings_last.
Qed.

Context `{QueueConfig}.
Implicit Types (w : world) (j : node_job).

(** Both lanes claim under the budget. *)
Lemma claims_under_budget v locked w j' w' :
  claim_inline v locked w = (Ok (Some j'), w') ∨ _claim_pool v locked w = (Ok (Some j'), w') →
  ∃ b g, _gpu_slot_budget v = Ok b ∧ g_max_running g = Some b ∧
    claim_next_gpu_job (gpu_claimant v) g locked w = (Ok (Some j'), w').
Proof.
  intros [E|E].
  - unfold claim_inline in E. destruct (_ || _); [done|].
    destruct (_ && _); [done|]. unfold mbind, M_bind, lift in E.
    destruct (_gpu_slot_budget v) as [b|]; [|done]. destruct (_kind_caps v); [|done].
    eexists b, _. split_and!; [done| |exact E]. done.
  - unfold _claim_pool in E. case_match; [done|].
    assert (∀ k, ((if v_blocks_claims v || negb (v_gpu_serving_ok v) || v_holding v
                   then _reservation_queued_here v else mret true) ≫= k) w = (Ok (Some j'), w') →
      ∃ q, k q w = (Ok (Some j'), w')) as Hq.
    { intros k. case_match; [|by exists true]. unfold mbind, M_bind.
      unfold _reservation_queued_here, cluster_reservation_for, gets. intros E'.
      eexists. exact E'. }
    apply Hq in E as (queued & E). destruct queued; [|done].
    unfold mbind, M_bind, lift in E. simpl in E.
    destruct (_gpu_slot_budget v) as [b|]; [|done]. destruct (_kind_caps v); [|done].
    eexists b, _. split_and!; [done| |exact E]. done.
Qed.

(** The operator's ceiling binds every gpu claim of the box.  Whatever the
    server could hold, a claim of either lane leaves the weighted rows running
    under this worker within the budget it advertises, the budget within the
    ceiling and at least 1; and a box that serves only ollama takes one job at a
    time. *)
Lemma operator_ceiling_binds_the_claims v locked w j' w' :
  db_ok w → v_host v ≠ "" →
  claim_inline v locked w = (Ok (Some j'), w') ∨ _claim_pool v locked w = (Ok (Some j'), w') →
  ∃ b, _gpu_slot_budget v = Ok b ∧ slots_in_use w' (gpu_claimant v) b ≤ b ∧ 1 ≤ b ∧
    (∀ n, resolve_box_max_concurrent (v_box v) = Ok (Some n) → b ≤ n) ∧
    (truthy_only (v_served v) ≠ [] → (∀ k, k ∈ truthy_only (v_served v) → k = "ollama") → b = 1).
Proof.
  intros Hok Hh Hc. apply claims_under_budget in Hc as (b & g & Eb & Hg & Hc).
  exists b. assert (∃ par, _pool_parallelism v = Ok par) as [par Ep].
  { unfold _gpu_slot_budget in Eb. destruct (_pool_parallelism v); [eauto|done]. }
  pose proof (slot_budget_bounds v par b Ep Eb) as Hb.
  apply pool_parallelism_bounds in Ep as Hp. destruct Hp as [Hp Hn]. split_and!; [done| |lia| |].
  - apply (gpu_claim_slots _ g locked w _ j'); [done| |done..].
    unfold host_truthy, gpu_claimant. simpl. unfold PyStr.truthy.
    destruct (String.eqb_spec (v_host v) ""); done.
  - intros n E. specialize (Hn n E). lia.
  - intros Hne Hall. unfold _gpu_slot_budget in Eb. rewrite Ep in Eb. simpl in Eb.
    injection Eb as <-.
    assert (∀ l, (∀ k, k ∈ l → k = "ollama"%string) →
      existsb is_null (map _KIND_CONCURRENCY l) = false ∧
      foldr Z.max 0 (omap id (map _KIND_CONCURRENCY l)) ≤ 1) as Hl.
    { induction l as [|k l IH]; intros Hk; [split; [done|simpl; lia]|].
      destruct IH as [I1 I2]; [intros; apply Hk; by right|].
      rewrite (Hk k) by left. split; [exact I1|]. revert I2. cbn. lia. }
    destruct (Hl _ Hall) as [-> Hle]. revert Hle.
    destruct (truthy_only (v_served v)); [done|]. cbn [map]. lia.
Qed.
End knob_props.

Section gpu_lane_props.

(** The moves of the two lanes of one process, whose parallelism is never read
    above [most]: the inline lane is one thread, and a pool job ends once. *)
Inductive lanes_step (most : Z) : gpu_lanes → gpu_lanes → Prop :=
  | inline_admitted par s s' :
      par ≤ most → inline_running s = false → admit_inline par s = Some s' → lanes_step most s s'
  | pool_admitted par s s' :
      par ≤ most → admit_pool par s = Some s' → lanes_step most s s'
  | inline_ended s : lanes_step most s (end_inline s)
  | pool_ended s : 1 ≤ pool_inflight s → lanes_step most s (end_pool s).

Definition lanes_total (s : gpu_lanes) : Z := pool_inflight s + b2z (inline_running s).

(** The two gpu lanes of a process share one budget.  In every interleaving of
    admissions and ends, with the parallelism re-read at each, the jobs of both
    lanes together never exceed the greatest value read, and the count never goes
    negative; while there is room, a lane that asks is admitted. *)
Lemma gpu_lanes_share_one_budget most s s' :
  0 ≤ most → 0 ≤ pool_inflight s → lanes_total s ≤ most → rtc (lanes_step most) s s' →
  0 ≤ pool_inflight s' ∧ lanes_total s' ≤ most ∧
  (∀ par, lanes_total s' < par →
     is_Some (admit_pool par s') ∧ (inline_running s' = false → is_Some (admit_inline par s'))).
Proof.
  intros Hm Hp Ht Hs.
  assert (0 ≤ pool_inflight s' ∧ lanes_total s' ≤ most) as [Hp' Ht'].
  { induction Hs as [|x y z Hxy _ IH]; [done|]. apply IH; clear IH;
      destruct Hxy as [par x y Hpar Hi E|par x y Hpar E|x|x Hx];
      unfold admit_inline, admit_pool, _pool_budget, end_inline, end_pool, lanes_total in *;
      try (destruct (_ <=? _) eqn:Hle in E; [done|]; apply Z.leb_gt in Hle; injection E as <-);
      simpl in *; try rewrite Hi in *; try destruct (inline_running x); simpl in *; try lia. }
  split_and!; [done..|]. intros par Hlt. unfold admit_pool, admit_inline, _pool_budget.
  unfold lanes_total in Hlt. split; [|intros Hi; rewrite Hi in Hlt; simpl in Hlt];
    (rewrite (proj2 (Z.leb_gt _ _)); [done|]); [|lia]. destruct (inline_running s'); simpl in *; lia.
Qed.
End gpu_lane_props.

Section slot_lemmas.
Abbreviation table := (list (string * slot)).
Implicit Types (d : table) (k : string).

Definition held (d : table) (k : string) : Z :=
  match dict_get k d with Some s => s_weight s | None => 0 end.
Definition total (d : table) : Z := sum_of (λ e, s_weight e.2) d.

Lemma total_cons e d : total (e :: d) = s_weight e.2 + total d.
Proof. done. Qed.

Lemma total_set d k s : NoDup d.*1 → total (dict_set k s d) = total d - held d k + s_weight s.
Proof.
  unfold held. induction d as [|[k' s'] d IH]; cbn [dict_set dict_get fmap list_fmap];
    [rewrite total_cons; cbn; lia|]. intros [Hk Hd]%NoDup_cons.
  destruct (String.eqb k k') eqn:E; rewrite !total_cons; cbn [snd]; [lia|].
  rewrite IH by done. lia.
Qed.

Lemma total_pop d k : NoDup d.*1 → total (dict_pop k d) = total d - held d k.
Proof.
  unfold held. induction d as [|[k' s'] d IH]; [done|]. cbn [fmap list_fmap].
  intros [Hk Hd]%NoDup_cons. unfold dict_pop. cbn [List.filter dict_get fst].
  change (List.filter _ d) with (dict_pop k d). rewrite total_cons.
  destruct (String.eqb k k') eqn:E; cbn [negb snd].
  - apply String.eqb_eq in E as ->. rewrite dict_pop_absent by done. lia.
  - rewrite total_cons, (IH Hd). cbn [snd]. lia.
Qed.
End slot_lemmas.

(** What holds of a lane between any two operations: the slots held are within the
    width, every hold is at least one slot, and the drained flag tells the truth. *)
Record lane_ok (l : cpu_lane) : Prop := {
  lo_width : 1 ≤ threads l;
  lo_keys : NoDup (cpu_inflight l).*1;
  lo_each : ∀ e, e ∈ cpu_inflight l → 1 ≤ s_weight e.2;
  lo_sum : _inflight_weight_locked l ≤ threads l;
  lo_drained : cpu_drained l = match cpu_inflight l with [] => true | _ => false end;
}.

Section cpu_lane_props.
Context `{QueueConfig}.
Implicit Types (w : world) (j : node_job) (l : cpu_lane).

Lemma set_absent (d : list (string * slot)) k s : dict_get k d = None → dict_set k s d = d ++ [(k, s)].
Proof.
  induction d as [|[k' s'] d IH]; [done|]. cbn. destruct (String.eqb k k'); [done|].
  intros Hk. by rewrite IH.
Qed.
Lemma pop_snoc (d : list (string * slot)) k s : dict_get k d = None → dict_pop k (d ++ [(k, s)]) = d.
Proof.
  intros Hk. unfold dict_pop. rewrite List.filter_app. cbn. rewrite String.eqb_refl. cbn.
  rewrite app_nil_r. induction d as [|[k' s'] d IH]; [done|]. cbn in *.
  destruct (String.eqb k k'); [done|]. cbn. by rewrite IH.
Qed.

(** The width the lane books is the width the claim statement tested. *)
Lemma claimed_width_fits v free locked w j w' l :
  db_ok w → 1 ≤ threads l → claim_cpu v (threads l) free locked w = (Ok (Some j), w') →
  1 ≤ slot_width l j ≤ free ∧ j ∈ node_jobs w' ∧ status j = Running ∧ is_Some (started_at j).
Proof.
  intros Hok Hl Hc. apply claim_sql_took in Hc as (j0 & Ht & Est); [|done].
  destruct Ht as (_ & _ & Hfit & _ & _ & Hs & Hrun & _ & _ & (l1 & l2 & _ & E2) & _).
  unfold cpu_fits, cpu_weight in Hfit. apply Z.leb_le in Hfit. rewrite <- Hs in Hfit.
  split_and!; [unfold slot_width; lia| |rewrite E2; set_solver|done|].
  - unfold slot_width. destruct (cpu_slots j) as [[|p|p]|]; simpl in *; lia.
  - rewrite Est. by destruct (st j0).
Qed.

Lemma reserve_ok tok l free l' :
  lane_ok l → dict_get tok (cpu_inflight l) = None → _reserve_slot tok l = Some (free, l') →
  lane_ok l' ∧ 1 ≤ free ∧
  l' = mkLane (threads l) (cpu_inflight l ++ [(tok, mkSlot None None free)]) false.
Proof.
  intros [Hw Hk He Hs Hd] Hf. unfold _reserve_slot. destruct (_ <? 1) eqn:E; [done|].
  apply Z.ltb_ge in E. intros [= <- <-]. split_and!; [|done|by rewrite set_absent].
  unfold _inflight_weight_locked in *. split; simpl; [done|by apply dict_set_NoDup| | |].
  - intros e [->|Hin]%elem_of_dict_set; [done|auto].
  - fold (total (cpu_inflight l)) in *. unfold _inflight_weight_locked. simpl.
    rewrite total_set by done. unfold held. rewrite Hf. simpl. lia.
  - rewrite set_absent by done. by destruct (cpu_inflight l).
Qed.

Lemma book_ok tok job started n l s :
  lane_ok l → dict_get tok (cpu_inflight l) = Some s → 1 ≤ n ≤ s_weight s →
  lane_ok (_set_slot_weight tok job started n l).
Proof.
  intros [Hw Hk He Hs Hd] Hg Hn. unfold _set_slot_weight, dict_has. rewrite Hg. simpl.
  split; simpl; [done|by apply dict_set_NoDup| | |].
  - intros e [->|Hin]%elem_of_dict_set; [simpl; lia|auto].
  - unfold _inflight_weight_locked in *. fold (total (cpu_inflight l)) in *. simpl.
    rewrite total_set by done. unfold held. rewrite Hg. simpl. lia.
  - rewrite Hd. destruct (cpu_inflight l) as [|[k' s'] d]; [done|]. simpl. by destruct (String.eqb tok k').
Qed.

Lemma release_ok tok l : lane_ok l → lane_ok (_release_slot tok l).
Proof.
  intros [Hw Hk He Hs Hd]. split; simpl; [done|by apply dict_pop_NoDup| | |].
  - intros e Hin%dict_pop_sub. auto.
  - unfold _inflight_weight_locked in *. fold (total (cpu_inflight l)) in *. simpl.
    rewrite total_pop by done. unfold held. destruct (dict_get tok _) as [s|] eqn:E; [|lia].
    apply dict_get_elem in E. specialize (He _ E). simpl in He. lia.
  - destruct (dict_pop tok (cpu_inflight l)) eqn:E; [done|]. rewrite Hd.
    destruct (cpu_inflight l); [done|]. done.
Qed.

(** The moves of the threads of one process on its slot table; tokens are fresh. *)
Inductive lane_step : cpu_lane → cpu_lane → Prop :=
  | slot_reserved l tok free l' :
      dict_get tok (cpu_inflight l) = None → _reserve_slot tok l = Some (free, l') →
      lane_step l l'
  | slot_claimed l tok free v locked w j w' :
      dict_get tok (cpu_inflight l) = Some (mkSlot None None free) → db_ok w →
      claim_cpu v (threads l) free locked w = (Ok (Some j), w') →
      lane_step l (_set_slot_weight tok (jid j) (started_at j) (slot_width l j) l)
  | slot_released l tok : lane_step l (_release_slot tok l).

(** C17: the threaded cpu lane never over-commits.  In every interleaving of
    reservations, claims and releases, on any database, the widths of the jobs in
    flight add up to at most the width of the lane, each counts at least one slot
    (so there are at most as many jobs as threads), and the lane reports itself
    drained exactly when nothing is in flight. *)
Theorem cpu_lane_never_overcommits l l' :
  lane_ok l → rtc lane_step l l' →
  threads l' = threads l ∧ _inflight_weight_locked l' ≤ threads l ∧
  (∀ e, e ∈ cpu_inflight l' → 1 ≤ s_weight e.2) ∧
  Z.of_nat (length (cpu_inflight l')) ≤ threads l ∧
  (cpu_drained l' = true ↔ cpu_inflight l' = []).
Proof.
  intros Hl Hs. assert (lane_ok l' ∧ threads l' = threads l) as [[Hw Hk He Hsum Hd] Ht].
  { induction Hs as [|x y z Hxy _ IH]; [done|].
    assert (lane_ok y ∧ threads y = threads x) as [Hy Et].
    { destruct Hxy as [l tok free l' Hf E|l tok free v locked w j w' Hg Hok Hc|l tok].
      - by apply (reserve_ok tok) in E as (Hok & _ & ->).
      - split; [|unfold _set_slot_weight; by case_match]. apply (book_ok _ _ _ _ _ _ Hl Hg).
        apply (claimed_width_fits v free locked w j w' l Hok (lo_width _ Hl) Hc).
      - split; [by apply release_ok|done]. }
    destruct (IH Hy) as [Hz Etz]. split; [done|congruence]. }
  rewrite <- Ht. split_and!; try done.
  - etrans; [|exact Hsum]. unfold _inflight_weight_locked. clear -He.
    induction (cpu_inflight l') as [|e d IH]; [done|].
    change (sum_of _ (e :: d)) with (s_weight e.2 + sum_of (λ e, s_weight e.2) d).
    pose proof (He e ltac:(left)). cbn [length].
    assert (Z.of_nat (length d) ≤ sum_of (λ e : string * slot, s_weight e.2) d)
      by (apply IH; intros; apply He; by right). lia.
  - rewrite Hd. by destruct (cpu_inflight l').
Qed.

(** One cycle of the threaded lane holds exactly what it runs.  It never
    raises; when it reports a claim, the table gained one entry, for a row that is
    running in the database, under its claim stamp and its real width; when it
    reports none (lane full, nothing to claim, the pool refused the job) the table
    is exactly what it was. *)
Lemma claim_threaded_leaks_no_slot v tok locked submits l w :
  lane_ok l → db_ok w → dict_get tok (cpu_inflight l) = None →
  ∃ taken l' w', _claim_threaded v tok locked submits l w = (Ok (taken, l'), w') ∧
    if (taken : bool) then
      ∃ j : node_job, j ∈ node_jobs w' ∧ status j = Running ∧ is_Some (started_at j) ∧
        cpu_inflight l' =
          cpu_inflight l ++ [(tok, mkSlot (Some (jid j)) (started_at j) (slot_width l j))]
    else l' = l.
Proof.
  intros Hl Hok Hf. unfold _claim_threaded.
  destruct (_reserve_slot tok l) as [[free l1]|] eqn:E; [|by eexists false, _, _].
  apply (reserve_ok tok) in E as (_ & _ & ->); [|done..].
  assert (∀ s, _release_slot tok (mkLane (threads l) (cpu_inflight l ++ [(tok, s)]) false) = l)
    as Hback.
  { intros s. unfold _release_slot. simpl. rewrite pop_snoc by done.
    pose proof (lo_drained _ Hl) as Hd. destruct l as [n d b]. simpl in *. subst b.
    by destruct d. }
  assert (dict_has tok (cpu_inflight l ++ [(tok, mkSlot None None free)]) = true) as Hh.
  { unfold dict_has. clear -Hf. induction (cpu_inflight l) as [|[k s] d IH]; cbn in *;
      [by rewrite String.eqb_refl|]. destruct (String.eqb tok k); [done|]. by apply IH. }
  assert (∀ s, dict_set tok s (cpu_inflight l ++ [(tok, mkSlot None None free)]) =
    cpu_inflight l ++ [(tok, s)]) as Hset.
  { intros s. clear -Hf. induction (cpu_inflight l) as [|[k s'] d IH]; cbn in *;
      [by rewrite String.eqb_refl|]. destruct (String.eqb tok k); [done|]. by rewrite IH. }
  unfold mbind, M_bind, try_except.
  destruct (claim_cpu v (threads l) free locked w) as [[[j|]|e] w'] eqn:Ec; simpl.
  - unfold _set_slot_weight. simpl. rewrite Hh, Hset.
    destruct submits; [|eexists false, _, _; split; [done|apply Hback]].
    eexists true, _, w'. split; [done|]. exists j.
    apply (claimed_width_fits v free locked w j w' l Hok (lo_width _ Hl)) in Ec.
    split_and!; try apply Ec. done.
  - eexists false, _, _. split; [done|apply Hback].
  - eexists false, _, _. split; [done|apply Hback].
Qed.
End cpu_lane_props.

Section trip_exit_props.
Context `{QueueConfig}.
Implicit Types (w : world) (j : node_job).

(** A row this process still runs under a claim of [claims], other than the wedged
    job's. *)
Definition sibling_row (host q job_id : string) (claims : list (string * option Z))
    (j : node_job) : bool :=
  owned host q (_project None) j &&
  existsb (λ c, negb (String.eqb c.1 job_id) && bool_decide (jid j = c.1) &&
                same_claim c.2 (started_at j)) claims.

Lemma update_where_twice {A} (p q : A → bool) (f : A → A) t :
  (∀ x, p x = true → q (f x) = false) →
  update_where q f (update_where p f t) = update_where (λ x, p x || q x) f t.
Proof.
  intros Hpq. unfold update_where. rewrite map_map. apply map_ext. intros x.
  destruct (p x) eqn:E; [by rewrite Hpq|done].
Qed.

Lemma sweep_rows host q job_id claims w :
  q ∉ config_ingest_queues →
  forM claims (release_sibling host q job_id) w =
    (Ok (), on_jobs (update_where (sibling_row host q job_id claims) (upd release_front)) w).
Proof.
  intros Hq. revert w. induction claims as [|[i t] claims IH]; intros w.
  { unfold forM, mret, M_ret. f_equal. destruct w; unfold on_jobs; simpl. f_equal.
    symmetry. apply update_where_none. intros j _. unfold sibling_row. simpl. by rewrite andb_false_r. }
  cbn [forM]. unfold mbind, M_bind. unfold release_sibling at 1. cbn [fst snd].
  destruct (String.eqb i job_id) eqn:Ei.
  - unfold mret, M_ret. rewrite IH. do 2 f_equal. unfold sibling_row. cbn [existsb fst].
    by rewrite Ei.
  - unfold try_except, requeue_running_job, mbind, M_bind. rewrite release_owned_rows by done.
    unfold mret, M_ret. rewrite IH. f_equal. destruct w; unfold on_jobs; simpl. f_equal.
    rewrite update_where_twice.
    + apply map_ext. intros j. unfold sibling_row. cbn [existsb fst snd]. rewrite Ei. simpl.
      unfold job_key. by destruct (owned _ _ _ j).
    + intros x _. unfold sibling_row, owned. by destruct x as [? []].
Qed.

(** Killing one job of a widened lane gives its neighbours back, and only them.
    Before the process ends, every other row it still runs under the claim it
    remembers goes to the front of the queue with the retries it had; the wedged
    row, a row that a sibling process has claimed since (under another stamp) and
    every other row are untouched; and the process does end, with the code it was
    given.  A lane of one thread has nothing to release and gets no hook. *)
Lemma trip_releases_only_own_siblings host q job_id l on_exit code w :
  q ∉ config_ingest_queues → 1 < threads l →
  ∃ hook w', _trip_exit host q job_id l (Some on_exit) = Some hook ∧
    hook code w = on_exit code w' ∧
    (∀ k j, node_jobs w !! k = Some j → ∃ j', node_jobs w' !! k = Some j' ∧
       if sibling_row host q job_id (_inflight_claims l) j then at_the_front j j' else j' = j) ∧
    (∀ j, (jid j = job_id ∨ owned host q (_project None) j = false ∨
           (∀ t, (jid j, t) ∈ _inflight_claims l → ∃ s, t = Some s ∧ started_at j ≠ Some s)) →
       sibling_row host q job_id (_inflight_claims l) j = false).
Proof.
  intros Hq Hl. unfold _trip_exit. rewrite (proj2 (Z.leb_gt _ _)) by lia.
  eexists _, _. split; [done|]. split_and!.
  - unfold _sweep_then_exit, mbind, M_bind. rewrite sweep_rows by done. done.
  - intros k j Hk. rewrite node_jobs_on_jobs.
    eexists. split; [by apply list_lookup_fmap_Some; exists j|].
    destruct (sibling_row _ _ _ _ j); [apply release_front_spec|done].
  - intros j Hj. unfold sibling_row. destruct (owned host q _ j) eqn:Ho; [|done]. simpl.
    apply not_true_iff_false. intros ([i t] & Hin & Hc)%existsb_exists.
    cbn [fst snd] in Hc. apply andb_true_iff in Hc as [[Hne Hi]%andb_true_iff Ht].
    apply bool_decide_eq_true in Hi as <-. destruct Hj as [Hj|[Hj|Hj]].
    + rewrite Hj, String.eqb_refl in Hne. done.
    + congruence.
    + apply list_elem_of_In in Hin. destruct (Hj t Hin) as (s & -> & Hs).
      simpl in Ht. by apply bool_decide_eq_true in Ht.
Qed.
End trip_exit_props.

(** * Witnesses *)

Module LaneDemo.
Definition env : WorkerEnv := {|
  os_environ := [("QUEUE_WORKFLOWS_GPU_BOX_MAX_CONCURRENT", "box-b=2, box-c=x,=7,3")];
  config_cpu_worker_threads := JInt 4;
  config_gpu_box_max_concurrent := JObj [("box-b", JInt 9)];
|}.
Definition v : view :=
  mkView "h" "box-b" 0 600 (Ok (Some 8)) (Some 6) ["vllm"] [] [] None (Ok None) [] [] []
    None None [] false false false true false.
Definition lane : cpu_lane := mkLane 4 [] true.
Lemma lane_fine : lane_ok lane.
Proof. split; [by vm_compute|constructor|intros e He; by apply elem_of_nil in He|by vm_compute|done]. Qed.

(** The lane after one cycle on the one-row database of [Demo]. *)
Definition busy : cpu_lane :=
  match (_claim_threaded (H := Demo.cfg) v "tok" [] true lane Demo.one).1 with
  | Ok (_, l) => l
  | Raise _ => lane
  end.
Definition claimed : world :=
  (_claim_threaded (H := Demo.cfg) v "tok" [] true lane Demo.one).2.
Definition reserved : cpu_lane := mkLane 4 [("tok", mkSlot None None 4)] false.
Lemma busy_booked :
  busy = _set_slot_weight "tok" (jid (Demo.first claimed)) (started_at (Demo.first claimed))
           (slot_width reserved (Demo.first claimed)) reserved.
Proof. vm_compute. reflexivity. Qed.
End LaneDemo.

Lemma operator_ceiling_binds_the_claims_witness :
  ∃ j' w', @_claim_pool LaneDemo.env Demo.cfg LaneDemo.v [] ClaimDemo.two = (Ok (Some j'), w') ∧
    slots_in_use w' (gpu_claimant (H0 := Demo.cfg) LaneDemo.v) 2 ≤ 2.
Proof.
  eexists _, _. split; [vm_compute; reflexivity|].
  edestruct (@operator_ceiling_binds_the_claims LaneDemo.env Demo.cfg LaneDemo.v [] ClaimDemo.two)
    as (b & Eb & Hs & _); [exact ClaimDemo.two_ok|discriminate|right; vm_compute; reflexivity|].
  vm_compute in Eb. injection Eb as <-. exact Hs.
Defined.

Lemma gpu_lanes_share_one_budget_witness :
  0 ≤ 1 ∧ lanes_total (mkLanes 1 true) ≤ 2.
Proof.
  edestruct (gpu_lanes_share_one_budget 2 (mkLanes 0 false) (mkLanes 1 true))
    as (Hp & Ht & _); [lia|simpl; lia|vm_compute; discriminate| |].
  - eapply rtc_l; [apply (pool_admitted 2 2); [lia|reflexivity]|].
    apply rtc_once. apply (inline_admitted 2 2); [lia|reflexivity|reflexivity].
  - split; [exact Hp|exact Ht].
Defined.

Lemma cpu_lane_never_overcommits_witness :
  _inflight_weight_locked LaneDemo.busy ≤ 4 ∧ length (cpu_inflight LaneDemo.busy) = 1%nat.
Proof.
  split; [|reflexivity].
  apply (@cpu_lane_never_overcommits Demo.cfg LaneDemo.lane LaneDemo.busy).
  - exact LaneDemo.lane_fine.
  - eapply rtc_l; [apply (slot_reserved LaneDemo.lane "tok" 4 LaneDemo.reserved); reflexivity|].
    apply rtc_once. rewrite LaneDemo.busy_booked.
    apply (slot_claimed LaneDemo.reserved "tok" 4 LaneDemo.v [] Demo.one _ LaneDemo.claimed);
      [reflexivity|exact Demo.one_ok|vm_compute; reflexivity].
Defined.

Lemma claim_threaded_leaks_no_slot_witness :
  ∃ taken l' w', @_claim_threaded Demo.cfg LaneDemo.v "tok" [] false LaneDemo.lane Demo.one
    = (Ok (taken, l'), w') ∧ taken = false ∧ l' = LaneDemo.lane.
Proof.
  destruct (@claim_threaded_leaks_no_slot Demo.cfg LaneDemo.v "tok" [] false LaneDemo.lane Demo.one
    LaneDemo.lane_fine Demo.one_ok eq_refl) as (taken & l' & w' & E & Hl).
  exists taken, l', w'. split; [exact E|].
  vm_compute in E. injection E as <- <- <-. split; [reflexivity|exact Hl].
Defined.

Lemma trip_releases_only_own_siblings_witness :
  ∃ hook w', @_trip_exit Demo.cfg "h" "cpu" "other" LaneDemo.busy (Some os_exit) = Some hook ∧
    hook 76 LaneDemo.claimed = os_exit 76 w' ∧
    ∃ j' : node_job, node_jobs w' !! 0%nat = Some j' ∧ status j' = Queued.
Proof.
  destruct (@trip_releases_only_own_siblings Demo.cfg "h" "cpu" "other" LaneDemo.busy os_exit 76
    LaneDemo.claimed) as (hook & w' & Eh & Ec & Hrow & _);
    [by apply (bool_decide_unpack _)|reflexivity|].
  exists hook, w'. split; [exact Eh|]. split; [exact Ec|].
  destruct (Hrow 0%nat (Demo.first LaneDemo.claimed)) as (j' & Hj & Hf); [reflexivity|].
  exists j'. split; [exact Hj|].
  assert (sibling_row (H := Demo.cfg) "h" "cpu" "other" (_inflight_claims LaneDemo.busy)
    (Demo.first LaneDemo.claimed) = true) as E by (vm_compute; reflexivity).
  rewrite E in Hf. apply Hf.
Defined.
