(* ===== verification/DbAccess.v ===== *)
(** * Access to the database ([queue_workflows/db.py])

    What may be said of a connection string in a log, which failures are worth waiting for
    and how long, the process-wide pool, the reconnecting listener and the one shared SQLite
    connection with its nested transactions.  Text is bytes, spans are microseconds; what
    libpq makes of a connection string is a parameter. *)

From S2P Require Import Prelude Json PyText WorkerLanes.
Local Open Scope string_scope.
Local Open Scope list_scope.
Local Open Scope Z_scope.

(** ** Secrets *)

Definition _MIN_SECRET_FRAGMENT : nat := 6.
(** [s.partition(p)] for a longer separator: what follows the first occurrence *)
Fixpoint after_first (p s : string) : option string :=
  if String.prefix p s then Some (PyStr.drop (String.length p) s)
  else match s with EmptyString => None | String _ r => after_first p r end.

(** [x.lower().startswith("password=")], then [x.split("=", 1)[1]] *)
Definition password_param (x : string) : option string :=
  if PyStr.startswith "password=" (PyStr.lower x) then Some (default "" (PyStr.split1 "=" x).2) else None.
Fixpoint first_some {A B} (f : A → option B) (l : list A) : option B :=
  match l with
  | [] => None
  | x :: r => match f x with Some y => Some y | None => first_some f r end
  end.
(** [s.strip] of the two quotes *)
Definition dquote : ascii := "034"%char.
Definition is_quote (c : ascii) : bool := Ascii.eqb c "'" || Ascii.eqb c dquote.
Fixpoint lstrip_quotes (s : string) : string :=
  match s with String c r => if is_quote c then lstrip_quotes r else s | EmptyString => "" end.
Definition strip_quotes (s : string) : string := String.rev (lstrip_quotes (String.rev (lstrip_quotes s))).

Definition _password_of (dsn : string) : string :=
  let query :=
    if PyStr.contains "password=" dsn && PyStr.contains "?" dsn
    then first_some password_param (Txt.words (Txt.replace "&" " " (default "" (PyStr.split1 "?" dsn).2)))
    else None in
  match query with
  | Some p => p
  | None =>
      match after_first "://" dsn with
      | Some after =>
          match Txt.rsplit1 "@" after with
          | (Some authority, _) => default "" (PyStr.split1 ":" authority).2
          | (None, _) => ""
          end
      | None => match first_some password_param (Txt.words dsn) with Some p => strip_quotes p | None => "" end
      end
  end.

(** [_DSN_CREDENTIALS_RE]: a user, a colon, a password, an at sign, not inside a word *)
Definition not_space (c : ascii) : bool := negb (PyStr.is_space c).
Definition user_char (c : ascii) : bool :=
  not_space c && negb (Ascii.eqb c ":") && negb (Ascii.eqb c "/") && negb (Ascii.eqb c "@").
Definition secret_char (c : ascii) : bool := not_space c && negb (Ascii.eqb c "@").
Definition in_word (prev : option ascii) : bool :=
  match prev with Some c => Txt.is_word c || Ascii.eqb c "." || Ascii.eqb c "-" | None => false end.
Definition credentials : Txt.matcher := λ prev s,
  if in_word prev then None else
  let '(user, r) := Txt.span user_char s in
  if (1 <=? String.length user)%nat && (String.length user <=? 64)%nat then
    match r with
    | String ":" r =>
        let '(pw, r) := Txt.span secret_char r in
        if (String.length pw <=? 256)%nat then
          match r with
          | String "@" _ => Some ((String.length user + 1 + String.length pw + 1)%nat, "***:***@")
          | _ => None
          end
        else None
    | _ => None
    end
  else None.

(** [_PASSWORD_KV_RE], whatever the case *)
Definition password_kv : Txt.matcher := λ _ s,
  let key := PyStr.take 8 s in
  if String.eqb (PyStr.lower key) "password" then
    let '(b1, r) := Txt.span PyStr.is_space (PyStr.drop 8 s) in
    match r with
    | String "=" r =>
        let '(b2, r) := Txt.span PyStr.is_space r in
        let '(v, _) := Txt.span not_space r in
        if PyStr.truthy v
        then Some ((8 + String.length b1 + 1 + String.length b2 + String.length v)%nat,
                   key +:+ b1 +:+ String "=" (b2 +:+ "***"))
        else None
    | _ => None
    end
  else None.

(** The redactions of a short password: before an at sign, after a colon, alone in quotes *)
Definition is_alnum (c : ascii) : bool := Txt.is_alpha c || PyStr.is_digit c.
Definition prev_is (p : ascii → bool) (prev : option ascii) : bool :=
  match prev with Some c => p c | None => false end.
Definition next_is (p : ascii → bool) (s : string) : bool :=
  match s with String c _ => p c | EmptyString => false end.
Definition in_context (before : option ascii → bool) (after : string → bool) (secret : string) : Txt.matcher := λ prev s,
  if before prev && String.prefix secret s && after (PyStr.drop (String.length secret) s)
  then Some (String.length secret, "***") else None.
Definition before_at (secret : string) : Txt.matcher :=
  in_context (λ p, negb (prev_is is_alnum p)) (next_is (Ascii.eqb "@")) secret.
Definition after_colon (secret : string) : Txt.matcher :=
  in_context (prev_is (Ascii.eqb ":")) (λ s, negb (next_is is_alnum s)) secret.
Definition in_quotes (secret : string) : Txt.matcher :=
  in_context (prev_is is_quote) (next_is is_quote) secret.

(** Every run of a long password, the longest first *)
Definition fragments (secret : string) : list string :=
  let n := String.length secret in
  flat_map (λ size, (λ start, String.substring start size secret) <$> seq 0 (n - size + 1))
           (rev (seq _MIN_SECRET_FRAGMENT (n - _MIN_SECRET_FRAGMENT))).

Definition redact (secret out : string) : string :=
  if negb (PyStr.truthy secret) then out
  else if (_MIN_SECRET_FRAGMENT <=? String.length secret)%nat
  then foldl (λ out frag, Txt.replace frag "***" out) (Txt.replace secret "***" out) (fragments secret)
  else Txt.resub (in_quotes secret) (Txt.resub (after_colon secret) (Txt.resub (before_at secret) out)).
Definition scrub_shapes (out : string) : string := Txt.resub password_kv (Txt.resub credentials out).

Class LibPq := { conninfo_to_dict : string → result (list (string * string)) }.

Section secrets.
Context `{LibPq}.

(** [str(info.get(k) or dflt)] *)
Definition info_get (k dflt : string) (info : list (string * string)) : string :=
  match dict_get k info with Some v => if PyStr.truthy v then v else dflt | None => dflt end.
Definition suspect (host port name : string) : bool :=
  let has := λ c s, PyStr.contains c s in
  let socket_host := PyStr.startswith "/" host in
  let ipv6_host := (PyStr.startswith "[" host && Txt.endswith "]" host)
                   || (has ":" host && negb (has "@" host) && negb (has "/" host)) in
  has "@" host || has "@" port || has "@" name || has ":" port || has ":" name
  || (has ":" host && negb ipv6_host) || (negb socket_host && has "/" host) || negb (PyStr.isdigit port).
Definition mask_dsn (dsn : string) : string :=
  if negb (PyStr.truthy dsn) then "?" else
  match conninfo_to_dict dsn with
  | Raise _ => "?"
  | Ok info =>
      let host := info_get "host" "?" info in
      let port := info_get "port" "5432" info in
      let name := info_get "dbname" "?" info in
      if suspect host port name then "?" else scrub_shapes (host +:+ ":" +:+ port +:+ "/" +:+ name)
  end.

Definition scrub_secrets (text : string) (dsn : option string) : string :=
  scrub_shapes (match dsn with
                | Some d => if PyStr.truthy d then redact (_password_of d) (Txt.replace d (mask_dsn d) text) else text
                | None => text
                end).

(** ** Which failures are worth waiting for *)

Record Reachability := mkReach { r_ok : bool; r_transient : bool; r_target : string; r_error : string }.
Definition _FATAL_DB_ERRORS : list string :=
  ["password authentication failed"; "authentication failed for user"; "no password supplied"; "does not exist";
   "invalid connection option"; "missing " +:+ String dquote ("=" +:+ String dquote " after"); "invalid dsn"; "unexpected spaces found in";
   "invalid percent-encoded token"; "invalid uri query parameter"; "unterminated quoted string";
   "end of string reached when looking for matching"].
(** [message] is [str(exc)] *)
Definition classify_db_error (message target : string) (dsn : option string) : Reachability :=
  let fatal := existsb (λ marker, PyStr.contains marker (PyStr.lower message)) _FATAL_DB_ERRORS in
  mkReach false (negb fatal) target (scrub_secrets message dsn).

(** One direct attempt: [connected] is the message of the exception that [connect] raised,
    [answered] that of the query *)
Definition probe (sqlite : bool) (sqlite_target : string) (dsn : option string) (url : result string) (no_url : string)
    (connected answered : result () * string) : Reachability :=
  match dsn, sqlite with
  | None, true => mkReach true false sqlite_target ""
  | _, _ =>
      match (match dsn with Some d => if PyStr.truthy d then Ok d else url | None => url end) with
      | Raise _ => mkReach false false "?" (scrub_secrets no_url None)
      | Ok u =>
          match connected, answered with
          | (Raise _, msg), _ => classify_db_error msg (mask_dsn u) (Some u)
          | (Ok _, _), (Ok _, _) => mkReach true false (mask_dsn u) ""
          | (Ok _, _), (Raise _, msg) => classify_db_error msg (mask_dsn u) (Some u)
          end
      end
  end.
End secrets.

(** ** The pool *)

(** [int((env_get(name) or "").strip() or default)] *)
Definition read_size `{WorkerEnv} (name : string) (dflt : Z) : result Z :=
  raw ← env_get name None;
  let s := PyStr.strip (default "" raw) in
  Ok (if PyStr.truthy s then default dflt (PyStr.int s) else dflt).
Definition _pool_sizes `{WorkerEnv} : result (Z * Z) :=
  mx ← read_size "QUEUE_WORKFLOWS_DB_POOL_MAX" 10;
  mn ← read_size "QUEUE_WORKFLOWS_DB_POOL_MIN" 1;
  let max_size := Z.max 1 mx in
  Ok (Z.max 0 (Z.min mn max_size), max_size).

Definition db_url `{WorkerEnv} (env_name : string) : result string :=
  url ← env_get env_name None;
  match url with
  | Some u => if PyStr.truthy u then Ok u else Raise (RuntimeError "not set")
  | None => Raise (RuntimeError "not set")
  end.

Definition DbUnreachable : exc := OtherError "DbUnreachable".
Definition DbMisconfigured : exc := OtherError "DbMisconfigured".
(** A pool that was opened, by its number; [opens] is what its [open] comes to *)
Definition get_pool (sizes : result (Z * Z)) (url : result string) (fresh : nat) (opens : result ()) (pool : option nat)
    : result nat * option nat :=
  match pool with
  | Some p => (Ok p, pool)
  | None =>
      match sizes, url with
      | Raise x, _ => (Raise x, None)
      | _, Raise x => (Raise x, None)
      | Ok _, Ok _ => match opens with
                      | Ok _ => (Ok fresh, Some fresh)
                      | Raise _ => (Raise DbUnreachable, None)
                      end
      end
  end.
Definition close_pool (pool : option nat) : option nat := None.

(** [sqlite_path] *)
Definition sqlite_path `{WorkerEnv} (env_name : string) : result string :=
  url ← env_get env_name None;
  let raw := PyStr.strip (default "" url) in
  if negb (PyStr.truthy raw) then Raise (RuntimeError "not set")
  else if String.eqb raw ":memory:" then Ok raw
  else if PyStr.startswith "sqlite://" raw then
    let rest := PyStr.removeprefix "sqlite://" raw in
    Ok (if PyStr.startswith "///" rest then PyStr.drop 1 rest
        else if PyStr.startswith "//" rest then Txt.lstrip_char "/" rest
        else if PyStr.truthy rest then rest else ":memory:")
  else Ok raw.

(** ** Waiting for the database *)

Definition DB_WAIT_BASE : Z := 1000000.
Definition DB_WAIT_CAP : Z := 30 * 1000000.
(** [min(base * 2 ** (attempt - 1), cap)] *)
Definition backoff_delay (base cap : Z) (attempt : nat) : Z := Z.min (base * 2 ^ (Z.of_nat attempt - 1)) cap.

(** What one turn of the loop meets: the stop flag, the probe, the clock after it, and the
    stop flag after the sleep *)
Record turn := mkTurn { t_stopped : bool; t_probe : Reachability; t_now : Z; t_stopped_after : bool }.

(** The answer, None while the turns have not ended the wait, and the sleeps; a [max_wait]
    of 0 is no limit *)
Fixpoint wait_loop (base cap max_wait started : Z) (attempt : nat) (l : list turn)
    : option (result bool) * list Z :=
  match l with
  | [] => (None, [])
  | t :: r =>
      if t_stopped t then (Some (Ok false), [])
      else if r_ok (t_probe t) then (Some (Ok true), [])
      else if negb (r_transient (t_probe t)) then (Some (Raise DbMisconfigured), [])
      else
        let delay := backoff_delay base cap (S attempt) in
        if negb (max_wait =? 0) && (max_wait <? (t_now t - started) + delay) then (Some (Ok false), [])
        else if t_stopped_after t then (Some (Ok false), [delay])
        else let '(a, ds) := wait_loop base cap max_wait started (S attempt) r in (a, delay :: ds)
  end.
(** The limit as it is configured, in seconds *)
Definition db_wait_max `{WorkerEnv} : result Q :=
  raw ← env_get "QUEUE_WORKFLOWS_DB_WAIT_MAX_S" None;
  let s := PyStr.strip (default "" raw) in
  Ok (if PyStr.truthy s then match Txt.py_float s with Some (Some q) => q | _ => 0%Q end else 0%Q).
Definition wait_for_db (sqlite local : bool) (base cap max_wait started : Z) (l : list turn)
    : option (result bool) * list Z :=
  if local && sqlite then (Some (Ok true), []) else wait_loop base cap max_wait started O l.

(** ** The listener *)

Definition _LISTEN_RECONNECT_BASE : Z := 1000000.
Definition _LISTEN_RECONNECT_MAX : Z := 30 * 1000000.
(** How one connection ends: it is never made, the server drops it, something else is
    raised, the body returns *)
Inductive ending := NeverConnected | Severed | Failed (x : exc) | Returned.
Record session := mkSession { s_stopped : bool; s_ending : ending; s_stop_in_wait : bool }.
Fixpoint listen_loop (base max_ backoff : Z) (l : list session) : option (result ()) * list Z :=
  match l with
  | [] => (None, [])
  | s :: r =>
      if s_stopped s then (Some (Ok ()), []) else
      match s_ending s with
      | Returned => (Some (Ok ()), [])
      | Failed x => (Some (Raise x), [])
      | NeverConnected | Severed =>
          let backoff := match s_ending s with Severed => base | _ => backoff end in
          if s_stop_in_wait s then (Some (Ok ()), [backoff])
          else let '(a, ws) := listen_loop base max_ (Z.min (backoff * 2) max_) r in (a, backoff :: ws)
      end
  end.
Definition listen_with_reconnect (base max_ : Z) (l : list session) : option (result ()) * list Z :=
  listen_loop base max_ base l.

(** ** The shared SQLite connection *)

(** What code does with the connection: writes, exceptions, an explicit [commit()] or
    [rollback()], an [executescript] of statements that open no transaction of their own, and
    blocks inside blocks, whose exception the code around them may catch *)
Inductive tx (S : Type) :=
  | TxEnd
  | TxWrite (f : S → S) (k : tx S)
  | TxRaise (x : exc)
  | TxCommit (k : tx S)
  | TxRollback (k : tx S)
  | TxScript (l : list (S → result S)) (k : tx S)
  | TxBlock (body : tx S) (caught : bool) (k : tx S).
Arguments TxEnd {S}.
Arguments TxWrite {S} _ _.
Arguments TxRaise {S} _.
Arguments TxCommit {S} _.
Arguments TxRollback {S} _.
Arguments TxScript {S} _ _.
Arguments TxBlock {S} _ _ _.

(** The file, the open transaction, the depth of the blocks *)
Record shared S := mkShared { q_committed : S; q_open : option S; q_depth : nat }.
Arguments mkShared {S} _ _ _.
Arguments q_committed {S} _.
Arguments q_open {S} _.
Arguments q_depth {S} _.
Definition q_write {S} (f : S → S) (q : shared S) : shared S :=
  match q_open q with
  | Some s => mkShared (q_committed q) (Some (f s)) (q_depth q)
  | None => mkShared (f (q_committed q)) None (q_depth q)
  end.
(** [_SqliteConn.commit], [rollback]: the driver does nothing when no transaction is open. *)
Definition commit {S} (q : shared S) : shared S := mkShared (default (q_committed q) (q_open q)) None (q_depth q).
Definition rollback {S} (q : shared S) : shared S := mkShared (q_committed q) None (q_depth q).
(** [executescript]: what is open is committed first, then every statement by itself. *)
Fixpoint script {S} (l : list (S → result S)) (s : S) : result () * S :=
  match l with
  | [] => (Ok (), s)
  | f :: r => match f s with Ok s => script r s | Raise x => (Raise x, s) end
  end.
Definition executescript {S} (l : list (S → result S)) (q : shared S) : result () * shared S :=
  let q := commit q in
  let '(r, s) := script l (q_committed q) in (r, mkShared s None (q_depth q)).
Definition q_begin {S} (q : shared S) : shared S :=
  let outer := (q_depth q =? 0)%nat in
  mkShared (q_committed q) (if outer then Some (q_committed q) else q_open q) (q_depth q + 1)%nat.
Definition q_exit {S} (outer ok : bool) (q : shared S) : shared S :=
  let q := mkShared (q_committed q) (q_open q) (q_depth q - 1)%nat in
  if negb outer then q else if ok then commit q else rollback q.

(** [_sqlite_connection]: the outermost block begins, commits and rolls back *)
Fixpoint run_tx {S} (p : tx S) (q : shared S) : result () * shared S :=
  match p with
  | TxEnd => (Ok (), q)
  | TxWrite f k => run_tx k (q_write f q)
  | TxRaise x => (Raise x, q)
  | TxCommit k => run_tx k (commit q)
  | TxRollback k => run_tx k (rollback q)
  | TxScript l k => match executescript l q with
                    | (Ok _, q) => run_tx k q
                    | (Raise x, q) => (Raise x, q)
                    end
  | TxBlock body caught k =>
      let outer := (q_depth q =? 0)%nat in
      let '(r, q') := run_tx body (q_begin q) in
      let q' := q_exit outer (is_ok r) q' in
      match r with
      | Raise x => if caught then run_tx k q' else (Raise x, q')
      | Ok _ => run_tx k q'
      end
  end.

(** ** What a scrubbed text cannot say *)

(** [masked old new]: [new] is [old] with some stretches put out of sight behind stars. *)
Inductive masked : string → string → Prop :=
  | masked_nil : masked "" ""
  | masked_keep c r r' : masked r r' → masked (String c r) (String c r')
  | masked_star p r x : masked r x → masked (p +:+ r) (String "*" x).

Fixpoint star_free (s : string) : bool :=
  match s with EmptyString => true | String c r => negb (Ascii.eqb c "*") && star_free r end.

Section masking.
Implicit Types (s t f p : string).

Lemma string_cons_app c s t : String c s +:+ t = String c (s +:+ t).
Proof. done. Qed.
Lemma masked_refl s : masked s s.
Proof. induction s; by constructor. Qed.
Lemma masked_app p s t : masked s t → masked (p +:+ s) (p +:+ t).
Proof. induction p as [|c p IH]; [done|]. rewrite !string_cons_app. intros. constructor. auto. Qed.
Lemma masked_stars p s t : masked s t → masked (p +:+ s) ("***" +:+ t).
Proof.
  intros Hm. apply masked_star. apply (masked_star "" s). by apply (masked_star "" s).
Qed.

Lemma masked_prefix f s t : masked s t → star_free f = true → String.prefix f t = true → String.prefix f s = true.
Proof.
  intros Hm. revert f. induction Hm as [|c r r' Hm IH|p r x Hm IH]; intros f Hf.
  - done.
  - destruct f as [|d f]; [done|]. cbn in *. destruct (ascii_dec d c); [|done]. split_bool. auto.
  - destruct f as [|d f]; [by destruct (p +:+ r)|]. cbn in *. destruct (ascii_dec d "*") as [->|]; [done|done].
Qed.
Lemma contains_app f p s : PyStr.contains f s = true → PyStr.contains f (p +:+ s) = true.
Proof.
  intros H. induction p as [|c p IH]; [done|]. rewrite string_cons_app. cbn [PyStr.contains]. by rewrite IH, orb_true_r.
Qed.
(** A run of characters that has no star and is seen in the masked text was in the text. *)
Lemma masked_contains f s t :
  masked s t → star_free f = true → PyStr.truthy f = true → PyStr.contains f t = true → PyStr.contains f s = true.
Proof.
  intros Hm Hf Ht. induction Hm as [|c r r' Hm IH|p r x Hm IH].
  - done.
  - cbn [PyStr.contains]. rewrite !orb_true_iff. intros [H|H]; [left|right; auto].
    eapply masked_prefix; [|done|exact H]. by constructor.
  - cbn [PyStr.contains]. rewrite orb_true_iff. intros [H|H]; [|by apply contains_app, IH].
    destruct f as [|d f]; [done|]. cbn in *. destruct (ascii_dec d "*") as [->|]; done.
Qed.

Lemma prefix_drop f s : String.prefix f s = true → s = f +:+ PyStr.drop (String.length f) s.
Proof. intros (t & ->)%prefix_spec. by rewrite drop_app. Qed.
Lemma take_drop_string n s : String.substring 0 n s +:+ PyStr.drop n s = s.
Proof.
  revert s. induction n as [|n IH]; intros [|c s]; try done. cbn [String.substring PyStr.drop].
  rewrite string_cons_app. by rewrite IH.
Qed.

(** Replacing masks, and leaves no occurrence behind. *)
Lemma replace_go_masked f k s : masked (PyStr.drop k s) (Txt.replace_go f "***" k s).
Proof.
  revert k. induction s as [|c s IH]; intros [|k]; [constructor..| |exact (IH k)].
  cbn [Txt.replace_go PyStr.drop]. destruct (String.prefix f (String c s)) eqn:E.
  - specialize (IH (String.length f - 1)%nat).
    rewrite <- (take_drop_string (String.length f - 1) s) at 1.
    change (String c (?x +:+ ?y)) with (String c x +:+ y). apply (masked_stars (String c _)). exact IH.
  - constructor. exact (IH O).
Qed.
Lemma replace_masked f s : masked s (Txt.replace f "***" s).
Proof. exact (replace_go_masked f 0 s). Qed.

Lemma contains_star f t :
  star_free f = true → PyStr.truthy f = true → PyStr.contains f (String "*" t) = PyStr.contains f t.
Proof.
  intros Hf Ht. destruct f as [|d f]; [done|]. cbn [PyStr.contains String.prefix].
  destruct (ascii_dec d "*") as [->|]; done.
Qed.
Lemma replace_go_absent f k s :
  star_free f = true → PyStr.truthy f = true → PyStr.contains f (Txt.replace_go f "***" k s) = false.
Proof.
  intros Hf Ht. revert k. induction s as [|c s IH]; intros k.
  { cbn. by destruct f. }
  destruct k as [|k]; [|apply IH]. pose proof (replace_go_masked f 0 (String c s)) as Hm. cbn [Txt.replace_go PyStr.drop] in *.
  destruct (String.prefix f (String c s)) eqn:E.
  - change ("***" +:+ ?t) with (String "*" (String "*" (String "*" t))). by rewrite !contains_star, IH.
  - cbn [PyStr.contains]. rewrite IH, orb_false_r.
    apply not_true_is_false. intros E'. by rewrite (masked_prefix _ _ _ Hm Hf E') in E.
Qed.

(** A pattern masks when what it puts in place of a match masks the match. *)
Definition masking (m : Txt.matcher) : Prop :=
  ∀ prev s n new, m prev s = Some (n, new) → (1 <= n)%nat ∧ ∀ t, masked (PyStr.drop n s) t → masked s (new +:+ t).
Lemma resub_masked m s : masking m → masked s (Txt.resub m s).
Proof.
  intros Hm. unfold Txt.resub. assert (∀ s prev k, masked (PyStr.drop k s) (Txt.resub_go m prev k s)) as H; [|exact (H s None O)].
  clear s. induction s as [|c s IH]; intros prev [|k]; [constructor..| |exact (IH _ k)].
  cbn [Txt.resub_go PyStr.drop]. destruct (m prev (String c s)) as [[n new]|] eqn:E.
  - destruct (Hm _ _ _ _ E) as [Hn Hmask]. apply Hmask. destruct n as [|n]; [lia|]. cbn [PyStr.drop].
    rewrite Nat.sub_succ, Nat.sub_0_r. apply IH.
  - constructor. exact (IH _ O).
Qed.

Lemma drop_plus n m s : PyStr.drop (n + m) s = PyStr.drop m (PyStr.drop n s).
Proof.
  revert s. induction n as [|n IH]; intros s; [done|]. destruct s as [|c s]; [by destruct m|]. apply IH.
Qed.
Lemma span_drop (p : ascii → bool) s : (Txt.span p s).2 = PyStr.drop (String.length (Txt.span p s).1) s.
Proof. rewrite <- (span_app p s) at 3. by rewrite drop_app. Qed.

Lemma credentials_masking : masking credentials.
Proof.
  intros prev s n new. unfold credentials. destruct (in_word prev); [done|].
  pose proof (span_app user_char s) as Hs. destruct (Txt.span user_char s) as [u r]. cbn [fst snd] in Hs.
  destruct (_ && _); [|done]. destruct r as [|c r]; [done|].
  destruct (ascii_dec c ":") as [->|Hc]; cycle 1.
  { intros H. exfalso. revert H. by destruct c as [[] [] [] [] [] [] [] []]. }
  pose proof (span_app secret_char r) as Hr. destruct (Txt.span secret_char r) as [p r2]. cbn [fst snd] in Hr.
  destruct (_ <=? 256)%nat; [|done]. destruct r2 as [|d r2]; [done|].
  destruct (ascii_dec d "@") as [->|Hd]; cycle 1.
  { intros H. exfalso. revert H. by destruct d as [[] [] [] [] [] [] [] []]. }
  intros [= <- <-]. split; [lia|]. intros t Ht. subst s r.
  rewrite !drop_plus, drop_app in Ht. cbn [PyStr.drop] in Ht. rewrite drop_app in Ht. cbn [PyStr.drop] in Ht.
  change ("***:***@" +:+ t) with ("***" +:+ String ":" ("***" +:+ String "@" t)).
  apply masked_stars. constructor. apply masked_stars. by constructor.
Qed.
Lemma password_kv_masking : masking password_kv.
Proof.
  intros prev s n new. unfold password_kv. destruct (String.eqb _ _); [|done].
  pose proof (take_drop_string 8 s) as Hs. set (r := PyStr.drop 8 s) in *.
  pose proof (span_app PyStr.is_space r) as Hr. destruct (Txt.span PyStr.is_space r) as [b1 r1]. cbn [fst snd] in Hr.
  destruct r1 as [|c r1]; [done|]. destruct (ascii_dec c "=") as [->|Hc]; cycle 1.
  { intros H. exfalso. revert H. by destruct c as [[] [] [] [] [] [] [] []]. }
  pose proof (span_app PyStr.is_space r1) as Hr1. destruct (Txt.span PyStr.is_space r1) as [b2 r2]. cbn [fst snd] in Hr1.
  pose proof (span_app not_space r2) as Hr2. destruct (Txt.span not_space r2) as [v r3]. cbn [fst snd] in Hr2.
  destruct (PyStr.truthy v); [|done]. intros Heq.
  assert (n = 8 + (String.length b1 + (1 + (String.length b2 + String.length v))))%nat as -> by (injection Heq; lia).
  injection Heq as _ <-. split; [lia|]. intros t Ht.
  rewrite !drop_plus in Ht. fold r in Ht. rewrite <- Hr, drop_app in Ht. cbn [PyStr.drop] in Ht.
  rewrite <- Hr1, drop_app, <- Hr2, drop_app in Ht.
  rewrite <- Hs at 1. rewrite <- Hr, <- Hr1, <- Hr2. unfold PyStr.take. rewrite !string_app_assoc, string_cons_app.
  apply masked_app, masked_app. constructor. rewrite string_app_assoc. apply masked_app. by apply masked_stars.
Qed.

Lemma scrub_shapes_hides f out :
  star_free f = true → PyStr.truthy f = true → PyStr.contains f out = false → PyStr.contains f (scrub_shapes out) = false.
Proof.
  intros Hf Ht Ho. destruct (PyStr.contains f (scrub_shapes out)) eqn:E; [|done].
  apply (masked_contains f _ _ (resub_masked _ _ password_kv_masking)) in E; [|done|done].
  apply (masked_contains f _ _ (resub_masked _ _ credentials_masking)) in E; [congruence|done|done].
Qed.
Lemma fold_replace_hides f l out :
  star_free f = true → PyStr.truthy f = true →
  f ∈ l ∨ PyStr.contains f out = false →
  PyStr.contains f (foldl (λ out frag, Txt.replace frag "***" out) out l) = false.
Proof.
  intros Hf Ht. revert out. induction l as [|g l IH]; intros out Hor; cbn [foldl].
  { destruct Hor as [[]%elem_of_nil|]; done. }
  apply IH. destruct (decide (f ∈ l)) as [|Hn]; [by left|right].
  destruct Hor as [[->|?]%elem_of_cons|Ho]; [by apply replace_go_absent|done|].
  destruct (PyStr.contains f (Txt.replace g "***" out)) eqn:E; [|done].
  apply (masked_contains f _ _ (replace_masked g out)) in E; congruence.
Qed.
Lemma star_free_substring s start size : star_free s = true → star_free (String.substring start size s) = true.
Proof.
  revert start size. induction s as [|c s IH]; intros [|start] [|size] Hs; try done; cbn in *; split_bool.
  - apply andb_true_iff. split; [by apply negb_true_iff|]. by apply IH.
  - by apply IH.
  - by apply IH.
Qed.
Lemma length_substring s start size :
  (start + size <= String.length s)%nat → String.length (String.substring start size s) = size.
Proof.
  revert start size. induction s as [|c s IH]; intros [|start] [|size] Hl; cbn in *; try lia; try done.
  - f_equal. apply IH. lia.
  - apply IH. lia.
  - apply IH. lia.
Qed.
End masking.

(** C30: what is logged of a database error does not give the password away: no run of six or
    more characters of the password that the connection string is written with is left in a
    scrubbed text, whatever the text was and however the driver read the string.  (For a
    password of six or more characters, without a star, the sign of a redaction.) *)
Theorem scrubbed_text_hides_the_password `{LibPq} text dsn start size :
  let secret := _password_of dsn in
  PyStr.truthy dsn = true → star_free secret = true →
  (_MIN_SECRET_FRAGMENT <= size)%nat → (start + size <= String.length secret)%nat →
  PyStr.contains (String.substring start size secret) (scrub_secrets text (Some dsn)) = false.
Proof.
  intros secret Hd Hs Hsize Hlen. unfold scrub_secrets. rewrite Hd. fold secret.
  pose proof (length_substring secret start size Hlen) as Hl. set (f := String.substring start size secret) in *.
  assert (star_free f = true) as Hf by (by apply star_free_substring).
  assert (PyStr.truthy f = true) as Ht by (destruct f; [cbn in Hl; unfold _MIN_SECRET_FRAGMENT in *; lia|done]).
  apply scrub_shapes_hides; [done|done|]. unfold redact.
  assert (PyStr.truthy secret = true) as -> by (destruct secret; [cbn in Hlen; unfold _MIN_SECRET_FRAGMENT in *; lia|done]).
  cbn [negb]. rewrite (proj2 (Nat.leb_le _ _)) by lia. apply fold_replace_hides; [done|done|].
  destruct (decide (size = String.length secret)) as [->|Hne].
  - right. assert (f = secret) as ->; [|apply replace_go_absent; [done|by rewrite <- Ht]].
    unfold f. assert (start = O) as -> by lia. clear. induction secret as [|c s IH]; [done|]. cbn. by rewrite IH.
  - left. unfold fragments. apply list_elem_of_In, in_flat_map. exists size. split.
    + rewrite <- in_rev. apply in_seq. lia.
    + apply list_elem_of_In, list_elem_of_fmap. exists start. split; [done|]. apply list_elem_of_In, in_seq. lia.
Qed.

(** ** Waits *)

(** The clock of a wait: it never runs slower than the sleeps. *)
Fixpoint clock_runs (from : Z) (l : list turn) (sleeps : list Z) : Prop :=
  match l with
  | [] => True
  | t :: r => from <= t_now t ∧
              match sleeps with d :: ds => clock_runs (t_now t + d) r ds | [] => True end
  end.
Definition total (l : list Z) : Z := foldr Z.add 0 l.

Lemma backoff_delay_pos base cap n : 0 < base → 0 < cap → 0 < backoff_delay base cap (S n).
Proof.
  intros. unfold backoff_delay. apply Z.min_glb_lt; [|done]. apply Z.mul_pos_pos; [done|]. apply Z.pow_pos_nonneg; lia.
Qed.

Lemma wait_loop_bounds base cap max_wait started attempt l from :
  0 < base → 0 < cap → 0 < max_wait →
  let '(a, ds) := wait_loop base cap max_wait started attempt l in
  clock_runs from l ds → started <= from → ds = [] ∨ (from - started) + total ds <= max_wait.
Proof.
  intros Hb Hc Hm. revert attempt from. induction l as [|t r IH]; intros attempt from; cbn [wait_loop]; [by left|].
  destruct (t_stopped t); [by left|]. destruct (r_ok _); [by left|]. destruct (negb (r_transient _)); [by left|].
  set (d := backoff_delay base cap (S attempt)).
  assert (0 < d) as Hd by (by apply backoff_delay_pos).
  rewrite (proj2 (Z.eqb_neq max_wait 0)) by lia. cbn [negb andb].
  destruct (Z.ltb_spec max_wait (t_now t - started + d)); [by left|].
  destruct (t_stopped_after t); [intros [H1 _] H2; right; unfold total; cbn; lia|].
  specialize (IH (S attempt) (t_now t + d)). destruct (wait_loop _ _ _ _ _ r) as [a ds].
  intros [H1 H2] H3. right. destruct (IH H2 ltac:(lia)) as [->|Hle]; unfold total in *; cbn [foldr]; lia.
Qed.

(** The n-th sleep, by its number *)
Lemma wait_loop_sleeps base cap max_wait started attempt l n d :
  (wait_loop base cap max_wait started attempt l).2 !! n = Some d → d = backoff_delay base cap (S (attempt + n)).
Proof.
  revert attempt n. induction l as [|t r IH]; intros attempt n; cbn [wait_loop]; [done|].
  destruct (t_stopped t); [done|]. destruct (r_ok _); [done|]. destruct (negb (r_transient _)); [done|].
  destruct (_ && _); [done|]. destruct (t_stopped_after t).
  { destruct n as [|n]; cbn; [intros [= <-]; by rewrite Nat.add_0_r|done]. }
  specialize (IH (S attempt)). destruct (wait_loop _ _ _ _ (S attempt) r) as [a ds]. cbn [snd] in *.
  destruct n as [|n]; cbn; [intros [= <-]; by rewrite Nat.add_0_r|]. intros Hl. rewrite (IH n Hl). f_equal. lia.
Qed.

(** The wait for the database keeps its promises: it answers yes only on a probe that
    succeeded and gives up only on a probe that says waiting is useless; its sleeps double
    from the base up to the cap; and with a limit, it never sleeps past it. *)
Lemma wait_for_db_is_bounded base cap max_wait started l :
  0 < base → 0 < cap → 0 < max_wait →
  let '(a, ds) := wait_for_db false false base cap max_wait started l in
  (a = Some (Ok true) → ∃ t, t ∈ l ∧ r_ok (t_probe t) = true) ∧
  (∀ x, a = Some (Raise x) → x = DbMisconfigured ∧ ∃ t, t ∈ l ∧ r_ok (t_probe t) = false ∧ r_transient (t_probe t) = false) ∧
  (∀ n d, ds !! n = Some d → d = Z.min (base * 2 ^ Z.of_nat n) cap) ∧
  (clock_runs started l ds → total ds <= max_wait).
Proof.
  intros Hb Hc Hm. unfold wait_for_db. cbn [andb].
  pose proof (wait_loop_sleeps base cap max_wait started 0 l) as Hs.
  pose proof (wait_loop_bounds base cap max_wait started 0 l started Hb Hc Hm) as Hbd.
  assert (let '(a, ds) := wait_loop base cap max_wait started 0 l in
    (a = Some (Ok true) → ∃ t, t ∈ l ∧ r_ok (t_probe t) = true) ∧
    (∀ x, a = Some (Raise x) → x = DbMisconfigured ∧
      ∃ t, t ∈ l ∧ r_ok (t_probe t) = false ∧ r_transient (t_probe t) = false)) as Ha.
  { clear. generalize O. induction l as [|t r IH]; intros n; cbn [wait_loop]; [done|].
    destruct (t_stopped t); [done|]. destruct (r_ok (t_probe t)) eqn:E1; [split; [|done]; exists t; split; [left|done]|].
    destruct (r_transient (t_probe t)) eqn:E2; cbn [negb].
    2:{ split; [done|]. intros x [= <-]. split; [done|]. exists t. split; [left|done]. }
    destruct (_ && _); [done|]. destruct (t_stopped_after t); [done|].
    specialize (IH (S n)). destruct (wait_loop _ _ _ _ (S n) r) as [a ds]. destruct IH as [I1 I2]. split.
    - intros (t' & ? & ?)%I1. exists t'. split; [by right|done].
    - intros x (? & t' & ? & ?)%I2. split; [done|]. exists t'. split; [by right|done]. }
  destruct (wait_loop _ _ _ _ _ _) as [a ds]. destruct Ha as [A1 A2]. split_and!; [done|done| |].
  - intros n d Hn. rewrite (Hs n d Hn). unfold backoff_delay. do 3 f_equal. lia.
  - intros Hck. destruct (Hbd Hck ltac:(lia)) as [->|?]; [cbn; lia|lia].
Qed.

(** ** The listener *)

(** How many connections in a row were not even made, before each wait *)
Fixpoint streaks (k : nat) (l : list session) : list nat :=
  match l with
  | [] => []
  | s :: r =>
      if s_stopped s then [] else
      match s_ending s with
      | Returned | Failed _ => []
      | NeverConnected => k :: (if s_stop_in_wait s then [] else streaks (S k) r)
      | Severed => O :: (if s_stop_in_wait s then [] else streaks 1 r)
      end
  end.
Definition doubled (base max_ : Z) (k : nat) : Z := Z.min (base * 2 ^ Z.of_nat k) max_.

Lemma doubled_next base max_ k : 0 < base <= max_ → Z.min (doubled base max_ k * 2) max_ = doubled base max_ (S k).
Proof.
  intros Hb. unfold doubled. rewrite Nat2Z.inj_succ, Z.pow_succ_r by lia.
  replace (base * (2 * 2 ^ Z.of_nat k)) with (2 * (base * 2 ^ Z.of_nat k)) by ring. lia.
Qed.
Lemma listen_loop_waits base max_ k l :
  0 < base <= max_ → (listen_loop base max_ (doubled base max_ k) l).2 = doubled base max_ <$> streaks k l.
Proof.
  intros Hb. revert k. assert (base = doubled base max_ 0) as H0 by (unfold doubled; cbn; lia).
  induction l as [|s r IH]; intros k; [done|]. cbn [listen_loop streaks]. destruct (s_stopped s); [done|].
  destruct (s_ending s); [| |done|done].
  - destruct (s_stop_in_wait s); [done|]. specialize (IH (S k)). rewrite doubled_next by lia.
    destruct (listen_loop _ _ _ r). cbn in *. by rewrite IH.
  - destruct (s_stop_in_wait s); [by rewrite H0 at 1|]. specialize (IH 1%nat). rewrite H0 at 2. rewrite doubled_next by lia.
    destruct (listen_loop _ _ _ r). cbn in *. rewrite IH. by rewrite H0 at 1.
Qed.

(** The listener backs off and recovers: its waits double with every connection that is
    not made, up to the ceiling, and start again from the floor after one that was. *)
Lemma listener_backs_off_and_recovers base max_ l :
  0 < base <= max_ →
  (listen_with_reconnect base max_ l).2 = doubled base max_ <$> streaks 0 l.
Proof.
  intros Hb. unfold listen_with_reconnect. rewrite <- (listen_loop_waits base max_ 0 l Hb). f_equal.
  f_equal. unfold doubled. cbn. lia.
Qed.

(** ** Transactions *)

(** The reference: one state the program works on, and whether the transaction has been ended
    inside; [base] is the state before the outermost block.  Blocks mean nothing; an explicit
    rollback gives [base] back while the transaction lasts, and nothing after it. *)
Fixpoint plain {S} (base : S) (p : tx S) (s : S) (ended : bool) : result () * S * bool :=
  match p with
  | TxEnd => (Ok (), s, ended)
  | TxWrite f k => plain base k (f s) ended
  | TxRaise x => (Raise x, s, ended)
  | TxCommit k => plain base k s true
  | TxRollback k => plain base k (if ended then s else base) true
  | TxScript l k => match script l s with
                    | (Ok _, s) => plain base k s true
                    | (Raise x, s) => (Raise x, s, true)
                    end
  | TxBlock body caught k =>
      match plain base body s ended with
      | (Raise x, s, ended) => if caught then plain base k s ended else (Raise x, s, ended)
      | (Ok _, s, ended) => plain base k s ended
      end
  end.
(** The connection inside the outermost block: an open transaction, or every write at once *)
Definition inside {S} (base s : S) (ended : bool) (n : nat) : shared S :=
  if ended then mkShared s None n else mkShared base (Some s) n.

Lemma run_tx_inside {S} (p : tx S) base s ended n :
  run_tx p (inside base s ended (Datatypes.S n)) =
  let '(r, s', ended') := plain base p s ended in (r, inside base s' ended' (Datatypes.S n)).
Proof.
  revert s ended n. induction p as [|f k IH|x|k IH|k IH|l k IH|body IHb caught k IHk]; intros s ended n; cbn [run_tx plain]; [done|..].
  - rewrite <- IH. by destruct ended.
  - done.
  - rewrite <- IH. by destruct ended.
  - rewrite <- IH. by destruct ended.
  - unfold executescript.
    assert (commit (inside base s ended (Datatypes.S n)) = mkShared s None (Datatypes.S n)) as -> by by destruct ended.
    cbn [q_committed q_depth]. destruct (script l s) as [[[]|x] s']; [apply (IH s' true)|done].
  - assert ((q_depth (inside base s ended (Datatypes.S n)) =? 0)%nat = false) as -> by by destruct ended.
    assert (q_begin (inside base s ended (Datatypes.S n)) = inside base s ended (Datatypes.S (Datatypes.S n))) as ->.
    { unfold q_begin, inside. destruct ended; cbn; by rewrite Nat.add_1_r. }
    rewrite IHb. destruct (plain base body s ended) as [[r s'] ended'].
    assert (∀ ok, q_exit false ok (inside base s' ended' (Datatypes.S (Datatypes.S n))) = inside base s' ended' (Datatypes.S n)) as Hq
      by (by destruct ended'). rewrite Hq.
    destruct r as [[]|x]; [apply IHk|]. destruct caught; [apply IHk|done].
Qed.

(** C29: on SQLite a block and all the blocks inside it are one transaction, for as long as
    nothing inside ends it.  When no [commit()], [rollback()] or [executescript] of the code
    inside runs, an exception that leaves the outermost block undoes everything and a clean
    exit commits exactly what the code would have written without any transaction.  The
    first of these that runs ends the transaction of all the blocks around it: a commit or a
    script makes durable what they wrote, a rollback undoes all of it, and from there
    on every write is durable at once and no exception undoes anything.  The depth is back to zero
    in every case. *)
Theorem outermost_block_is_one_transaction {S} (body : tx S) c :
  run_tx (TxBlock body false TxEnd) (mkShared c None 0) =
  let '(r, s, ended) := plain c body c false in
  (r, mkShared (if ended || is_ok r then s else c) None 0).
Proof.
  cbn [run_tx]. unfold q_begin. cbn [q_depth q_open q_committed Nat.eqb Nat.add].
  change (mkShared c (Some c) 1) with (inside c c false 1). rewrite run_tx_inside.
  destruct (plain c body c false) as [[[[]|x] s] []]; done.
Qed.

(** What an inner block wrote before it failed is committed when the code around it goes
    on: an inner block is not undone by its own exception. *)
Theorem caught_block_is_not_rolled_back {S} (f : S → S) x c :
  run_tx (TxBlock (TxBlock (TxWrite f (TxRaise x)) true TxEnd) false TxEnd) (mkShared c None 0) =
  (Ok (), mkShared (f c) None 0).
Proof. done. Qed.
(** A function that commits inside its own block, called from another block, commits what the
    caller wrote before it, and the caller's exception undoes nothing any more. *)
Lemma inner_commit_ends_the_outer_transaction {S} (f g h : S → S) x c :
  run_tx (TxBlock (TxWrite f (TxBlock (TxWrite g (TxCommit TxEnd)) false (TxWrite h (TxRaise x)))) false TxEnd) (mkShared c None 0) =
  (Raise x, mkShared (h (g (f c))) None 0).
Proof. done. Qed.

(** ** The pool and the path *)

(** No configuration makes a pool the driver would refuse. *)
Lemma pool_sizes_are_valid `{WorkerEnv} mn mx : _pool_sizes = Ok (mn, mx) → 0 <= mn <= mx ∧ 1 <= mx.
Proof.
  unfold _pool_sizes. destruct (read_size "QUEUE_WORKFLOWS_DB_POOL_MAX" 10) as [a|]; cbn; [|done].
  destruct (read_size "QUEUE_WORKFLOWS_DB_POOL_MIN" 1) as [b|]; cbn; [|done]. intros [= <- <-]. lia.
Qed.
(** A pool that did not open is not kept: the next call opens another. *)
Lemma failed_open_is_not_installed sizes url fresh x fresh' :
  let '(r, pool) := get_pool (Ok sizes) (Ok url) fresh (Raise x) None in
  r = Raise DbUnreachable ∧ get_pool (Ok sizes) (Ok url) fresh' (Ok ()) pool = (Ok fresh', Some fresh').
Proof. done. Qed.

(** ** Witnesses *)

Module AccessDemo.
Definition env (url : string) : WorkerEnv := {|
  os_environ := [("QUEUE_WORKFLOWS_DB_URL", url)];
  config_cpu_worker_threads := JInt 4;
  config_gpu_box_max_concurrent := JNull;
|}.
Definition pq : LibPq := {| conninfo_to_dict _ := Ok [("host", "db"); ("port", "5432"); ("dbname", "q")] |}.
Definition dsn : string := "postgresql://qw:p@ssSECRET@db/q".
Definition message : string := "failed to resolve host 'ssSECRET@db': u:p@ssSECRET@x password = hunter22".
Definition down (now : Z) : turn := mkTurn false (mkReach false true "?" "") now false.
Definition up (now : Z) : turn := mkTurn false (mkReach true false "?" "") now false.
End AccessDemo.

(** An address with four slashes, which is meant to be absolute, is read as a relative path,
    and one with three, meant to be relative, as an absolute one. *)
Theorem sqlite_url_slashes_are_shifted :
  @sqlite_path (AccessDemo.env "sqlite:////abs/path.db") "QUEUE_WORKFLOWS_DB_URL" = Ok "abs/path.db" ∧
  @sqlite_path (AccessDemo.env "sqlite:///rel.db") "QUEUE_WORKFLOWS_DB_URL" = Ok "/rel.db".
Proof. split; reflexivity. Qed.

Lemma scrubbed_text_hides_the_password_witness :
  _password_of AccessDemo.dsn = "p@ssSECRET" ∧
  @scrub_secrets AccessDemo.pq AccessDemo.message (Some AccessDemo.dsn) =
    "failed to resolve host '***@db': ***:***@x password = ***" ∧
  PyStr.contains (String.substring 2 8 (_password_of AccessDemo.dsn))
    (@scrub_secrets AccessDemo.pq AccessDemo.message (Some AccessDemo.dsn)) = false.
Proof.
  split; [reflexivity|]. split; [vm_compute; reflexivity|].
  apply (@scrubbed_text_hides_the_password AccessDemo.pq); [reflexivity|reflexivity|unfold _MIN_SECRET_FRAGMENT; lia|].
  vm_compute. lia.
Defined.

Lemma wait_for_db_is_bounded_witness :
  let ds := (wait_for_db false false 1 30 20 0 [AccessDemo.down 0; AccessDemo.down 1; AccessDemo.down 3; AccessDemo.down 7; AccessDemo.down 15]).2 in
  ds = [1; 2; 4; 8] ∧ total ds <= 20.
Proof.
  pose proof (wait_for_db_is_bounded 1 30 20 0
    [AccessDemo.down 0; AccessDemo.down 1; AccessDemo.down 3; AccessDemo.down 7; AccessDemo.down 15]) as H.
  split; [reflexivity|]. apply H; [lia|lia|lia|]. vm_compute. repeat split; discriminate.
Defined.

Lemma listener_backs_off_and_recovers_witness :
  (listen_with_reconnect 1 30 [mkSession false NeverConnected false; mkSession false NeverConnected false;
     mkSession false Severed false; mkSession false NeverConnected true]).2 = [1; 2; 1; 2].
Proof. rewrite (listener_backs_off_and_recovers 1 30) by lia. reflexivity. Defined.
