(* ===== verification/WorkerControl.v ===== *)
(** * On and off ([queue_workflows/worker_control.py])

    The operator's desired state of a worker, one row of [worker_controls] per
    (host_label, queue, project): the accessors that write and read it, the LLM
    server settings the same row carries, the two stop policies and the watcher
    that applies them to a running worker.

    The database a read meets may be older than the code: [database] is how far it
    is migrated, or that it does not answer.  What the watcher does to its process
    is the record [ctl]: the drain flag of the claim loop, and in order the calls
    of the inference server's stop hook and of [os._exit]. *)

From S2P Require Import Prelude Json Schema NodeQueue Claim Reclaim Watchdogs WorkerLanes.
Local Open Scope Z_scope.

Definition EXIT_CONTROL_HARD_STOP : Z := 79.
Definition STATE_ON : string := "on".
Definition STATE_OFF : string := "off".
Definition _VALID_STATES : list string := [STATE_ON; STATE_OFF].
Definition SERVER_TYPE_OLLAMA : string := "ollama".
Definition SERVER_TYPE_VLLM : string := "vllm".
Definition VALID_SERVER_TYPES : list string := [SERVER_TYPE_OLLAMA; SERVER_TYPE_VLLM].
Definition DEFAULT_LLM_SERVER_TYPE : string := SERVER_TYPE_OLLAMA.
Definition DEFAULT_LLM_PARALLELISM : Z := 1.
Definition DEFAULT_VLLM_IDLE_TTL_S : Z := 60.

Record LLMConfig := mkLLM { server_type : string; parallelism : Z; idle_ttl_s : Z }.
Definition default_llm : LLMConfig := mkLLM DEFAULT_LLM_SERVER_TYPE DEFAULT_LLM_PARALLELISM DEFAULT_VLLM_IDLE_TTL_S.

(** ** The database as a reader meets it *)

(** The migration the database is still waiting for: 0012 has the table, 0013 the
    LLM columns, 0019 the tenant column *)
Inductive database := Before0012 | Before0013 | Before0019 | Migrated | Unreachable.

Definition UndefinedTable : exc := OtherError "UndefinedTable".
Definition UndefinedColumn : exc := OtherError "UndefinedColumn".
Definition OperationalError : exc := OtherError "OperationalError".

(** Can a statement name the LLM columns, the tenant column? *)
Definition has_columns (db : database) (llm project : bool) : result () :=
  match db with
  | Unreachable => Raise OperationalError
  | Before0012 => Raise UndefinedTable
  | Before0013 => if llm || project then Raise UndefinedColumn else Ok ()
  | Before0019 => if project then Raise UndefinedColumn else Ok ()
  | Migrated => Ok ()
  end.

(** The rows of a (host_label, queue), and of a tenant's *)
Definition at_worker (host q : string) (k : worker_control) : bool :=
  String.eqb (whost_label k) host && String.eqb (wqueue k) q.
Definition at_key (host q proj : string) (k : worker_control) : bool :=
  at_worker host q k && String.eqb (wproject k) proj.

Definition select_control (db : database) (llm : bool) (host q : string) (proj : option string)
    : M (option worker_control) :=
  _ ← lift (has_columns db llm (bool_decide (is_Some proj)));
  gets (λ w, List.find (match proj with Some p => at_key host q p | None => at_worker host q end)
               (worker_controls w)).

(** ** The accessors *)

(** The label of the box a lane's label names: one trailing segment less *)
Fixpoint rpartition (sep : ascii) (s : string) : option (string * string) :=
  match s with
  | EmptyString => None
  | String c r =>
      match rpartition sep r with
      | Some (base, tail) => Some (String c base, tail)
      | None => if Ascii.eqb c sep then Some (EmptyString, r) else None
      end
  end.
Definition _box_address (host_label : string) : option string :=
  match rpartition "-" host_label with
  | Some (base, tail) => if PyStr.truthy base && PyStr.truthy tail then Some base else None
  | None => None
  end.

Section accessors.
Context `{QueueConfig}.

Definition _lookup_worker_control (db : database) (host q : string) (proj : option string)
    : M (option worker_control) :=
  let absent (x : exc) : option (M (option worker_control)) :=
    if bool_decide (x = UndefinedTable) then Some (mret None) else None in
  try_except (select_control db false host q (Some (_project proj))) (λ x,
    if bool_decide (x = UndefinedColumn) then Some (try_except (select_control db false host q None) absent)
    else absent x).

Definition get_worker_control (db : database) (host q : string) (proj : option string)
    : M (option worker_control) :=
  row ← _lookup_worker_control db host q proj;
  match row, _box_address host with
  | None, Some box => _lookup_worker_control db box q proj
  | _, _ => mret row
  end.

Definition desired_state_for (db : database) (host q : string) (proj : option string) : M string :=
  row ← get_worker_control db host q proj;
  mret (match row with
        | Some k => if String.eqb (desired_state k) STATE_OFF then STATE_OFF else STATE_ON
        | None => STATE_ON
        end).

(** [INSERT .. ON CONFLICT (host_label, queue, project) DO UPDATE] *)
Definition upsert_control (host q proj : string) (fresh : world → worker_control)
    (refresh : world → worker_control → worker_control) : M () := modify (λ w,
  set_worker_controls
    (if exists_row (at_key host q proj) (worker_controls w)
     then update_where (at_key host q proj) (refresh w) (worker_controls w)
     else worker_controls w ++ [fresh w]) w).

(** The registered policies *)
Inductive policy := Hard | Drain.
Definition STOP_POLICIES : list (string * policy) := [("hard", Hard); ("drain", Drain)]%string.

Definition set_worker_control (db : database) (host q state pol : string) (by_ proj : option string) : M () :=
  if negb (bool_decide (state ∈ _VALID_STATES)) then raise (ValueError "desired_state")
  else if negb (dict_has pol STOP_POLICIES) then raise (ValueError "stop_policy")
  else
    _ ← lift (has_columns db false true);
    upsert_control host q (_project proj)
      (λ w, mkWc host q (_project proj) state pol by_ (clock w)
              DEFAULT_LLM_SERVER_TYPE DEFAULT_LLM_PARALLELISM DEFAULT_VLLM_IDLE_TTL_S)
      (λ w k, mkWc (whost_label k) (wqueue k) (wproject k) state pol by_ (clock w)
                (llm_server_type k) (llm_parallelism k) (vllm_idle_ttl_s k)).

Definition disable_worker (db : database) (host q pol : string) (by_ proj : option string) : M () :=
  set_worker_control db host q STATE_OFF pol by_ proj.
Definition enable_worker (db : database) (host q : string) (by_ proj : option string) : M () :=
  set_worker_control db host q STATE_ON "hard" by_ proj.

Definition below (bound : Z) (v : option Z) : bool :=
  match v with Some n => n <? bound | None => false end.

(** [INTEGER] columns: a value beyond the width is the database's error. *)
Definition fits_integer (v : option Z) : bool :=
  match v with Some n => in_integer n | None => true end.

Definition set_llm_config (db : database) (host q : string) (kind : option string) (par ttl : option Z)
    (proj : option string) : M () :=
  if match kind with Some k => negb (bool_decide (k ∈ VALID_SERVER_TYPES)) | None => false end
  then raise (ValueError "server_type")
  else if below 1 par then raise (ValueError "parallelism")
  else if below 0 ttl then raise (ValueError "vllm_idle_ttl_s")
  else
    _ ← lift (has_columns db true true);
    if negb (fits_integer par && fits_integer ttl) then raise (OtherError "NumericValueOutOfRange")
    else
      upsert_control host q (_project proj)
        (λ w, mkWc host q (_project proj) STATE_ON "hard" None (clock w)
                (default DEFAULT_LLM_SERVER_TYPE kind) (default DEFAULT_LLM_PARALLELISM par)
                (default DEFAULT_VLLM_IDLE_TTL_S ttl))
        (λ w k, mkWc (whost_label k) (wqueue k) (wproject k) (desired_state k) (stop_policy k)
                  (requested_by k) (clock w) (default (llm_server_type k) kind)
                  (default (llm_parallelism k) par) (default (vllm_idle_ttl_s k) ttl)).

Definition _lookup_llm_row (db : database) (host q : string) (proj : option string)
    : M (option worker_control) :=
  let undefined (x : exc) (k : M (option worker_control)) : option (M (option worker_control)) :=
    if bool_decide (x = UndefinedTable) || bool_decide (x = UndefinedColumn) then Some k else None in
  try_except (select_control db true host q (Some (_project proj))) (λ x,
    undefined x (try_except (select_control db true host q None) (λ x, undefined x (mret None)))).

Definition llm_of (k : worker_control) : LLMConfig :=
  mkLLM (llm_server_type k) (llm_parallelism k) (vllm_idle_ttl_s k).
Definition llm_config_for (db : database) (host q : string) (proj : option string) : M LLMConfig :=
  row ← _lookup_llm_row db host q proj;
  row ← match row, _box_address host with
        | None, Some box => _lookup_llm_row db box q proj
        | _, _ => mret row
        end;
  mret (match row with Some k => llm_of k | None => default_llm end).

(** ** The watcher of a running worker *)

Inductive ccall := StopInference | Exit (code : Z).
Record ctl := mkCtl { drain_requested : bool; ctl_calls : list ccall }.

(** The host's hook is called for the gpu lane; what it raises is dropped. *)
Definition _stop_inference_server (hook : option (result ())) (q : string) (c : ctl) : ctl :=
  match hook with
  | Some _ => if String.eqb q "gpu" then mkCtl (drain_requested c) (ctl_calls c ++ [StopInference]) else c
  | None => c
  end.

Section watcher.
Context (hook : option (result ())) (host q : string).

Definition _apply_hard_stop (c : ctl) : M (bool * ctl) :=
  let c := _stop_inference_server hook q c in
  _ ← try_except (requeue_inflight_for_control host q ≫= λ _, mret ()) (λ _, Some (mret ()));
  mret (true, mkCtl (drain_requested c) (ctl_calls c ++ [Exit EXIT_CONTROL_HARD_STOP])).

Definition _apply_drain_stop (c : ctl) : M (bool * ctl) := mret (false, mkCtl true (ctl_calls c)).

Definition apply_policy (p : policy) : ctl → M (bool * ctl) :=
  match p with Hard => _apply_hard_stop | Drain => _apply_drain_stop end.

(** An unreadable row is retried at the next tick; an unregistered policy is hard. *)
Definition check_once (db : database) (c : ctl) : M (bool * ctl) := λ w,
  match get_worker_control db host q None w with
  | (Raise _, w) => (Ok (false, c), w)
  | (Ok None, w) => (Ok (false, c), w)
  | (Ok (Some k), w) =>
      if negb (String.eqb (desired_state k) STATE_OFF) then (Ok (false, c), w)
      else let pol := if PyStr.truthy (stop_policy k) then stop_policy k else "hard"%string in
           apply_policy (default Hard (dict_get pol STOP_POLICIES)) c w
  end.

(** One wake of the loop: what changed in the meantime, the database it meets, and
    whether the worker asked the watcher to stop *)
Record wake := mkWake { wk_change : world → world; wk_db : database; wk_stop : bool }.

Fixpoint watch (l : list wake) (c : ctl) : M (bool * ctl) :=
  match l with
  | [] => mret (false, c)
  | k :: r => λ w,
      let w := wk_change k w in
      if wk_stop k then (Ok (false, c), w)
      else match check_once (wk_db k) c w with
           | (Ok (true, c), w) => (Ok (true, c), w)
           | (Ok (false, c), w) => watch r c w
           | (Raise x, w) => (Raise x, w)
           end
  end.
(** The check before the subscription, then the wakes *)
Definition _loop (db : database) (l : list wake) (c : ctl) : M (bool * ctl) :=
  '(stopped, c) ← check_once db c;
  if (stopped : bool) then mret (true, c) else watch l c.
End watcher.
End accessors.

(** * Lemmas *)

Section upserts.
Context {A : Type} (p P : A → bool) (f : A → A).

Lemma find_update_where_same l :
  (∀ a, p a = true → p (f a) = true) →
  List.find p (update_where p f l) = f <$> List.find p l.
Proof.
  intros Hp. induction l as [|a l IH]; [done|]. simpl.
  destruct (p a) eqn:E; [by rewrite Hp|by rewrite E].
Qed.

Lemma find_update_where_other l :
  (∀ a, p a = true → P a = false ∧ P (f a) = false) →
  List.find P (update_where p f l) = List.find P l.
Proof.
  intros Hp. induction l as [|a l IH]; [done|]. simpl.
  destruct (p a) eqn:E; [|by rewrite IH].
  destruct (Hp a E) as [-> ->]. done.
Qed.

Lemma find_app l1 l2 :
  List.find P (l1 ++ l2) = match List.find P l1 with Some a => Some a | None => List.find P l2 end.
Proof. induction l1 as [|a l IH]; [done|]. simpl. by destruct (P a). Qed.

Lemma find_exists l : exists_row P l = bool_decide (is_Some (List.find P l)).
Proof.
  induction l as [|a l IH]; [done|]. simpl. destruct (P a) eqn:E; [done|].
  by rewrite IH.
Qed.
End upserts.

(** A lane's label addresses its box: [box-c-gpu] is a lane of [box-c]. *)
Lemma lane_of_box box lane :
  rpartition "-" lane = None → PyStr.truthy box = true → PyStr.truthy lane = true →
  _box_address (box +:+ "-" +:+ lane) = Some box.
Proof.
  intros Hl Hb Ht. unfold _box_address.
  assert (rpartition "-" (box +:+ "-" +:+ lane) = Some (box, lane)) as ->.
  { clear Hb. induction box as [|c box IH]; [|simpl; by rewrite IH].
    change (EmptyString +:+ "-" +:+ lane) with (String "-" lane). simpl. by destruct (rpartition _ lane). }
  by rewrite Hb, Ht.
Qed.

Lemma rpartition_shorter sep s b t :
  rpartition sep s = Some (b, t) → (String.length b < String.length s)%nat.
Proof.
  revert b. induction s as [|c s IH]; intros b; simpl; [done|].
  destruct (rpartition sep s) as [[b' t']|].
  - intros [= <- <-]. simpl. specialize (IH b' eq_refl). lia.
  - destruct (Ascii.eqb c sep); intros [= <- <-]. simpl. lia.
Qed.
Lemma box_address_ne host : _box_address host ≠ Some host.
Proof.
  unfold _box_address. destruct (rpartition "-" host) as [[b t]|] eqn:E; [|done].
  apply rpartition_shorter in E. destruct (_ && _); [|done]. intros [= ->]. lia.
Qed.

Section control_rows.
Context `{QueueConfig}.
Implicit Types (w : world) (k : worker_control).

Definition wkey k : string * string * string := (whost_label k, wqueue k, wproject k).

Lemma at_key_spec host q proj k : at_key host q proj k = true ↔ wkey k = (host, q, proj).
Proof.
  unfold at_key, at_worker, wkey. rewrite !andb_true_iff, !String.eqb_eq.
  split; [by intros [[-> ->] ->]|by intros [= -> -> ->]].
Qed.
Lemma at_key_other host q proj k :
  wkey k ≠ (host, q, proj) → at_key host q proj k = false.
Proof. intros Hk. apply not_true_is_false. by rewrite at_key_spec. Qed.

(** The row the readers find, in a migrated database *)
Definition row_at host q proj w : option worker_control :=
  List.find (at_key host q proj) (worker_controls w).
Definition governing host q proj w : option worker_control :=
  match row_at host q proj w, _box_address host with
  | None, Some box => row_at box q proj w
  | r, _ => r
  end.

Lemma lookup_migrated host q proj w :
  _lookup_worker_control Migrated host q proj w = (Ok (row_at host q (_project proj) w), w).
Proof. reflexivity. Qed.
Lemma lookup_llm_migrated host q proj w :
  _lookup_llm_row Migrated host q proj w = (Ok (row_at host q (_project proj) w), w).
Proof. reflexivity. Qed.

Lemma get_migrated host q proj w :
  get_worker_control Migrated host q proj w = (Ok (governing host q (_project proj) w), w).
Proof.
  unfold get_worker_control, governing, mbind, M_bind. rewrite lookup_migrated.
  destruct (row_at _ _ _ w); [done|]. by destruct (_box_address host).
Qed.
Lemma desired_migrated host q proj w :
  desired_state_for Migrated host q proj w =
  (Ok (match governing host q (_project proj) w with
       | Some k => if String.eqb (desired_state k) STATE_OFF then STATE_OFF else STATE_ON
       | None => STATE_ON
       end), w).
Proof. unfold desired_state_for, mbind, M_bind. by rewrite get_migrated. Qed.
Lemma llm_migrated host q proj w :
  llm_config_for Migrated host q proj w =
  (Ok (match governing host q (_project proj) w with Some k => llm_of k | None => default_llm end), w).
Proof.
  unfold llm_config_for, governing, mbind, M_bind. rewrite lookup_llm_migrated.
  destruct (row_at _ _ _ w); [done|]. by destruct (_box_address host).
Qed.

Section upsert_control.
Context (host q proj : string) (fresh : world → worker_control) (refresh : world → worker_control → worker_control).
Hypothesis Hfresh : ∀ w, wkey (fresh w) = (host, q, proj).
Hypothesis Hrefresh : ∀ w k, wkey (refresh w k) = wkey k.

Definition upserted w : world := (upsert_control host q proj fresh refresh w).2.

Lemma controls_upserted w :
  worker_controls (upserted w) =
    if bool_decide (is_Some (row_at host q proj w))
    then update_where (at_key host q proj) (refresh w) (worker_controls w)
    else worker_controls w ++ [fresh w].
Proof. unfold upserted, upsert_control, row_at. rewrite <- find_exists. by destruct w. Qed.

Lemma row_upserted_same w :
  row_at host q proj (upserted w) =
    Some (match row_at host q proj w with Some k => refresh w k | None => fresh w end).
Proof.
  unfold row_at at 1. rewrite controls_upserted. case_bool_decide as E.
  - rewrite find_update_where_same.
    + destruct E as [k Hk]. unfold row_at in *. by rewrite Hk.
    + intros k. rewrite !at_key_spec. by rewrite Hrefresh.
  - rewrite find_app. unfold row_at in *. destruct (List.find _ _); [by destruct E|]. simpl.
    by rewrite (proj2 (at_key_spec _ _ _ _) (Hfresh w)).
Qed.

Lemma row_upserted_other w h' q' p' :
  (h', q', p') ≠ (host, q, proj) → row_at h' q' p' (upserted w) = row_at h' q' p' w.
Proof.
  intros Hne. unfold row_at at 1. rewrite controls_upserted. case_bool_decide as E.
  - apply find_update_where_other. intros k Hk%at_key_spec.
    split; apply at_key_other; rewrite ?Hrefresh, Hk; congruence.
  - rewrite find_app. fold (row_at h' q' p' w). destruct (row_at h' q' p' w); [done|]. simpl.
    rewrite at_key_other; [done|]. rewrite Hfresh. congruence.
Qed.

(** Who a write can reach: its key, and the lanes of its box without a row *)
Lemma governing_upserted_other w h' q' p' :
  (h', q', p') ≠ (host, q, proj) →
  (is_Some (row_at h' q' p' w) ∨ _box_address h' ≠ Some host ∨ q' ≠ q ∨ p' ≠ proj) →
  governing h' q' p' (upserted w) = governing h' q' p' w.
Proof.
  intros Hne Hor. unfold governing. rewrite row_upserted_other by done.
  destruct (row_at h' q' p' w) eqn:E; [done|].
  destruct (_box_address h') as [box|] eqn:Eb; [|done].
  apply row_upserted_other. intros [= -> -> ->]. destruct Hor as [[? ?]|[?|[?|?]]]; congruence.
Qed.
End upsert_control.

(** ** The two writers *)

(** What the columns allow: the CHECKs of the migrations, the INTEGER width and the
    primary key *)
Record control_ok k : Prop := {
  co_state : desired_state k ∈ _VALID_STATES;
  co_policy : dict_has (stop_policy k) STOP_POLICIES = true;
  co_kind : llm_server_type k ∈ VALID_SERVER_TYPES;
  co_par : 1 ≤ llm_parallelism k ≤ 2147483647;
  co_ttl : 0 ≤ vllm_idle_ttl_s k ≤ 2147483647;
}.
Record controls_ok w : Prop := {
  cs_keys : NoDup (map wkey (worker_controls w));
  cs_rows : ∀ k, k ∈ worker_controls w → control_ok k;
}.

Definition control_fresh host q proj state pol by_ w : worker_control :=
  mkWc host q proj state pol by_ (clock w)
    DEFAULT_LLM_SERVER_TYPE DEFAULT_LLM_PARALLELISM DEFAULT_VLLM_IDLE_TTL_S.
Definition control_refresh state pol by_ w k : worker_control :=
  mkWc (whost_label k) (wqueue k) (wproject k) state pol by_ (clock w)
    (llm_server_type k) (llm_parallelism k) (vllm_idle_ttl_s k).
Definition llm_fresh host q proj kind par ttl w : worker_control :=
  mkWc host q proj STATE_ON "hard" None (clock w) (default DEFAULT_LLM_SERVER_TYPE kind)
    (default DEFAULT_LLM_PARALLELISM par) (default DEFAULT_VLLM_IDLE_TTL_S ttl).
Definition llm_refresh kind par ttl w k : worker_control :=
  mkWc (whost_label k) (wqueue k) (wproject k) (desired_state k) (stop_policy k) (requested_by k) (clock w)
    (default (llm_server_type k) kind) (default (llm_parallelism k) par) (default (vllm_idle_ttl_s k) ttl).

(** A write either is refused and changes nothing, or is the upsert of good values. *)
Lemma set_control_cases db host q state pol by_ proj w :
  (∃ x, set_worker_control db host q state pol by_ proj w = (Raise x, w)) ∨
  (db = Migrated ∧ state ∈ _VALID_STATES ∧ dict_has pol STOP_POLICIES = true ∧
   set_worker_control db host q state pol by_ proj w =
     (Ok (), upserted host q (_project proj) (control_fresh host q (_project proj) state pol by_)
               (control_refresh state pol by_) w)).
Proof.
  unfold set_worker_control. case_bool_decide as Hs; simpl; [|left; eexists; reflexivity].
  destruct (dict_has pol STOP_POLICIES) eqn:Hp; simpl; [|left; eexists; reflexivity].
  destruct db; try (left; eexists; reflexivity). right. by split_and!.
Qed.

Lemma set_llm_cases db host q kind par ttl proj w :
  (∃ x, set_llm_config db host q kind par ttl proj w = (Raise x, w)) ∨
  (db = Migrated ∧ (∀ s, kind = Some s → s ∈ VALID_SERVER_TYPES) ∧
   (∀ n, par = Some n → 1 ≤ n ≤ 2147483647) ∧ (∀ n, ttl = Some n → 0 ≤ n ≤ 2147483647) ∧
   set_llm_config db host q kind par ttl proj w =
     (Ok (), upserted host q (_project proj) (llm_fresh host q (_project proj) kind par ttl)
               (llm_refresh kind par ttl) w)).
Proof.
  unfold set_llm_config.
  destruct (match kind with Some _ => _ | None => _ end) eqn:Hk; [left; eexists; reflexivity|].
  destruct (below 1 par) eqn:Hp; [left; eexists; reflexivity|].
  destruct (below 0 ttl) eqn:Ht; [left; eexists; reflexivity|].
  destruct db; try (left; eexists; reflexivity).
  unfold mbind, M_bind, lift, has_columns.
  destruct (fits_integer par && fits_integer ttl) eqn:Hf; simpl; [|left; eexists; reflexivity].
  right. unfold fits_integer, in_integer, below in *. split_and!; try done.
  - intros s ->. by apply negb_false_iff, bool_decide_eq_true in Hk.
  - intros n ->. lia.
  - intros n ->. lia.
Qed.

Lemma upserted_ok host q proj fresh refresh w :
  (∀ w, wkey (fresh w) = (host, q, proj)) → (∀ w k, wkey (refresh w k) = wkey k) →
  control_ok (fresh w) → (∀ k, control_ok k → control_ok (refresh w k)) →
  controls_ok w → controls_ok (upserted host q proj fresh refresh w).
Proof.
  intros Hf Hr Hfo Hro [Hk Hrows]. split; rewrite controls_upserted; case_bool_decide as E.
  - assert (map wkey (update_where (at_key host q proj) (refresh w) (worker_controls w))
            = map wkey (worker_controls w)) as ->; [|done].
    unfold update_where. rewrite map_map. apply map_ext. intros k.
    destruct (at_key host q proj k); [apply Hr|done].
  - rewrite map_app. apply NoDup_app. split_and!; [done| |apply NoDup_singleton].
    intros x Hx ->%list_elem_of_singleton. apply E.
    apply list_elem_of_In, in_map_iff in Hx as (k & Hk' & Hin).
    unfold row_at. destruct (List.find _ _) eqn:Ef; [eauto|].
    eapply find_none in Ef; [|exact Hin]. rewrite Hf in Hk'.
    by rewrite (proj2 (at_key_spec _ _ _ _) Hk') in Ef.
  - intros k (k0 & Hin & ->)%elem_of_update_where. destruct (at_key _ _ _ k0); auto.
  - intros k [?| ->%list_elem_of_singleton]%elem_of_app; auto.
Qed.

Lemma set_control_ok db host q state pol by_ proj w :
  controls_ok w → controls_ok (set_worker_control db host q state pol by_ proj w).2.
Proof.
  intros Hw. destruct (set_control_cases db host q state pol by_ proj w) as [[x ->]|(_ & Hs & Hp & ->)]; [done|].
  apply upserted_ok; try done; [|by intros k []; split].
  split; simpl; try done; by repeat constructor.
Qed.
Lemma set_llm_ok db host q kind par ttl proj w :
  controls_ok w → controls_ok (set_llm_config db host q kind par ttl proj w).2.
Proof.
  intros Hw. destruct (set_llm_cases db host q kind par ttl proj w)
    as [[x ->]|(_ & Hk & Hp & Ht & ->)]; [done|].
  assert (∀ s d, d ∈ VALID_SERVER_TYPES → kind = s → default d s ∈ VALID_SERVER_TYPES) as Hk'.
  { intros [s|] d ? ->; simpl; auto. }
  apply upserted_ok; try done; [|intros k []]; split; simpl; try done.
  - by repeat constructor.
  - apply Hk'; [by repeat constructor|done].
  - destruct par; simpl; [auto|unfold DEFAULT_LLM_PARALLELISM; lia].
  - destruct ttl; simpl; [auto|unfold DEFAULT_VLLM_IDLE_TTL_S; lia].
  - by apply Hk'.
  - destruct par; simpl; auto.
  - destruct ttl; simpl; auto.
Qed.

(** C25: the control table stays well typed.  Whatever arguments the operator's two
    writers are called with and however far the database is migrated, every row
    keeps its own (host, queue, project) key, a desired state of the CHECK, a
    registered stop policy, a known server type, and a parallelism and an idle
    window inside the INTEGER column; a refused call changes nothing. *)
Theorem control_rows_stay_well_typed db host q state pol by_ kind par ttl proj w :
  controls_ok w →
  let a := set_worker_control db host q state pol by_ proj w in
  let b := set_llm_config db host q kind par ttl proj w in
  controls_ok a.2 ∧ controls_ok b.2 ∧
  (∀ x, a.1 = Raise x → a.2 = w) ∧ (∀ x, b.1 = Raise x → b.2 = w).
Proof.
  intros Hw. split_and!; [by apply set_control_ok|by apply set_llm_ok| |].
  - intros x. destruct (set_control_cases db host q state pol by_ proj w) as [[y E]|(_ & _ & _ & E)];
      rewrite E; [done|discriminate].
  - intros x. destruct (set_llm_cases db host q kind par ttl proj w) as [[y E]|(_ & _ & _ & _ & E)];
      rewrite E; [done|discriminate].
Qed.

(** A control write reaches its worker, the lanes of its box, and nobody else.
    After [set_worker_control] the worker of that key reads the state just written,
    and so does every lane of the box that has no row of its own; a worker with its
    own row, of another box, another queue or another tenant reads what it read
    before. *)
Lemma control_write_reaches_its_workers host q state pol by_ proj w w' :
  set_worker_control Migrated host q state pol by_ proj w = (Ok (), w') →
  desired_state_for Migrated host q proj w' = (Ok state, w') ∧
  (∀ lane, _box_address lane = Some host → row_at lane q (_project proj) w = None →
     desired_state_for Migrated lane q proj w' = (Ok state, w')) ∧
  (∀ h' q' p', (h', q', _project p') ≠ (host, q, _project proj) →
     (is_Some (row_at h' q' (_project p') w) ∨ _box_address h' ≠ Some host ∨ q' ≠ q ∨
      _project p' ≠ _project proj) →
     get_worker_control Migrated h' q' p' w' = (Ok (governing h' q' (_project p') w), w')).
Proof.
  intros Hset. destruct (set_control_cases Migrated host q state pol by_ proj w)
    as [[x E]|(_ & Hs & Hp & E)]; rewrite E in Hset; [discriminate|]. injection Hset as <-.
  assert ((if String.eqb state STATE_OFF then STATE_OFF else STATE_ON) = state) as Hstate.
  { by apply elem_of_cons in Hs as [->|[->|[]%not_elem_of_nil]%elem_of_cons]. }
  assert (∃ k, row_at host q (_project proj) (upserted host q (_project proj)
      (control_fresh host q (_project proj) state pol by_) (control_refresh state pol by_) w) = Some k ∧
      desired_state k = state) as (k & Hrow & Hd).
  { rewrite row_upserted_same by done. destruct (row_at _ _ _ w); by eexists. }
  split_and!.
  - rewrite desired_migrated. unfold governing. by rewrite Hrow, Hd, Hstate.
  - intros lane Hl Hn. rewrite desired_migrated. unfold governing.
    rewrite row_upserted_other, Hn, Hl; try done; [by rewrite Hrow, Hd, Hstate|].
    intros [= ->]. by apply box_address_ne in Hl.
  - intros h' q' p' Hne Hor. rewrite get_migrated. by rewrite governing_upserted_other.
Qed.

(** ** The LLM settings *)

(** A settings edit is read back and switches nobody on or off.  After
    [set_llm_config] the worker of that key reads the fields the call named and
    keeps the others (the defaults when it had no row); and provided the worker was
    on or already had a row of its own, every worker's desired state is what it was
    before. *)
Lemma llm_edit_is_read_back host q kind par ttl proj w w' :
  set_llm_config Migrated host q kind par ttl proj w = (Ok (), w') →
  (let old := match row_at host q (_project proj) w with Some k => llm_of k | None => default_llm end in
   llm_config_for Migrated host q proj w' =
     (Ok (mkLLM (default (server_type old) kind) (default (parallelism old) par)
            (default (idle_ttl_s old) ttl)), w')) ∧
  (is_Some (row_at host q (_project proj) w) ∨ (desired_state_for Migrated host q proj w).1 = Ok STATE_ON →
   ∀ h' q' p', (desired_state_for Migrated h' q' p' w').1 = (desired_state_for Migrated h' q' p' w).1).
Proof.
  intros Hset. destruct (set_llm_cases Migrated host q kind par ttl proj w)
    as [[x E]|(_ & _ & _ & _ & E)]; rewrite E in Hset; [discriminate|]. injection Hset as <-.
  split.
  - simpl. rewrite llm_migrated. unfold governing. rewrite row_upserted_same by done.
    by destruct (row_at _ _ _ w).
  - intros Hor h' q' p'. rewrite !desired_migrated in *. simpl in *. f_equal.
    destruct (decide ((h', q', _project p') = (host, q, _project proj))) as [[= -> -> Ep]|Hne].
    { rewrite Ep. unfold governing at 1. rewrite row_upserted_same by done. unfold governing in *.
      destruct (row_at host q (_project proj) w) as [k|]; [done|]. simpl.
      destruct Hor as [[? ?]|Hor]; [done|]. by injection Hor as ->. }
    unfold governing. rewrite row_upserted_other by done.
    destruct (row_at h' q' (_project p') w) as [k|]; [done|].
    destruct (_box_address h') as [box|] eqn:Eb; [|done].
    destruct (decide ((box, q', _project p') = (host, q, _project proj))) as [[= -> -> Ep]|Hne'].
    + rewrite Ep, row_upserted_same by done. unfold governing in Hor.
      destruct (row_at host q (_project proj) w) as [k|]; done.
    + by rewrite row_upserted_other.
Qed.

(** ** The stop of a running worker *)

(** The calls of a hard stop, and what it does to the rows *)
Definition hard_calls (hook : option (result ())) (q : string) : list ccall :=
  (match hook with Some _ => if String.eqb q "gpu" then [StopInference] else [] | None => [] end)
  ++ [Exit EXIT_CONTROL_HARD_STOP].
Definition given_back (host q : string) w w' : Prop :=
  (∀ i j, node_jobs w !! i = Some j → ∃ j', node_jobs w' !! i = Some j' ∧
     if owned host q (_project None) j then at_the_front j j' else j' = j) ∧
  (∀ j, j ∈ node_jobs w' → owned host q (_project None) j = false).

Lemma hard_stop_spec hook host q c w :
  q ∉ config_ingest_queues →
  ∃ w', _apply_hard_stop hook host q c w =
    (Ok (true, mkCtl (drain_requested c) (ctl_calls c ++ hard_calls hook q)), w') ∧ given_back host q w w'.
Proof.
  intros Hq.
  destruct (requeue_running_for_worker host q None w) as [[n|x] w1] eqn:E;
    [|unfold requeue_running_for_worker in E; by rewrite release_owned_rows in E].
  destruct (clear_ghost_spec (Some host) (Some q) w1) as (w2 & E2 & G).
  exists w2. split.
  - unfold _apply_hard_stop, try_except, requeue_inflight_for_control, mbind, M_bind.
    rewrite E, E2. simpl. unfold _stop_inference_server, hard_calls.
    destruct hook; [destruct (String.eqb q "gpu")|]; simpl; by rewrite <- ?app_assoc.
  - apply requeue_for_worker_spec in E as [E1 E3]; [|done].
    split; rewrite (gc_jobs _ _ _ _ G); done.
Qed.

(** What a reading asks of the worker *)
Definition asks (db : database) (host q : string) w : option policy :=
  match (get_worker_control db host q None w).1 with
  | Ok (Some k) =>
      if String.eqb (desired_state k) STATE_OFF
      then Some (default Hard (dict_get (if PyStr.truthy (stop_policy k) then stop_policy k else "hard"%string)
                                 STOP_POLICIES))
      else None
  | _ => None
  end.

Lemma lookup_reads db host q proj w : (_lookup_worker_control db host q proj w).2 = w.
Proof. by destruct db. Qed.
Lemma get_reads db host q proj w : (get_worker_control db host q proj w).2 = w.
Proof.
  unfold get_worker_control, mbind, M_bind. pose proof (lookup_reads db host q proj w) as E.
  destruct (_lookup_worker_control db host q proj w) as [[[k|]|x] w1]; simpl in E; subst w1; [done| |done].
  destruct (_box_address host); [apply lookup_reads|done].
Qed.

Lemma check_once_asks hook host q db c w :
  check_once hook host q db c w =
  match asks db host q w with Some p => apply_policy hook host q p c w | None => (Ok (false, c), w) end.
Proof.
  unfold check_once, asks. pose proof (get_reads db host q None w) as Hr.
  destruct (get_worker_control db host q None w) as [[[k|]|x] w']; simpl in *; subst; try done.
  by destruct (String.eqb _ _).
Qed.

(** The first wake that asks for a hard stop, and the world it meets *)
Fixpoint first_hard (host q : string) (l : list wake) w : option world :=
  match l with
  | [] => None
  | k :: r =>
      let w := wk_change k w in
      if wk_stop k then None
      else match asks (wk_db k) host q w with
           | Some Hard => Some w
           | _ => first_hard host q r w
           end
  end.

(** Off reaches a running worker.  The watcher ends the process at the first
    wake whose governing row is off under any policy but drain: it stops the gpu
    box's inference server, puts the worker's running rows (and no other row) back
    at the front of the queue, and exits with code 79, in that order.  At every
    other wake, whether the row is on or absent, the policy is drain, or the
    database does not answer, it makes no call, and once the row asks for a drain
    the claim loop's flag is set. *)
Lemma off_stops_a_running_worker hook host q l c w :
  q ∉ config_ingest_queues →
  match first_hard host q l w with
  | Some w1 => ∃ d w2, watch hook host q l c w = (Ok (true, mkCtl d (ctl_calls c ++ hard_calls hook q)), w2) ∧
                 given_back host q w1 w2
  | None => ∃ d w2, watch hook host q l c w = (Ok (false, mkCtl d (ctl_calls c)), w2)
  end ∧
  (∀ db, asks db host q w = Some Drain →
     check_once hook host q db c w = (Ok (false, mkCtl true (ctl_calls c)), w)).
Proof.
  intros Hq. split; [|intros db E; by rewrite check_once_asks, E].
  revert c w. induction l as [|k l IH]; intros c w; simpl.
  { exists (drain_requested c), w. by destruct c. }
  destruct (wk_stop k). { eexists (drain_requested c), _. by destruct c. }
  rewrite check_once_asks.
  destruct (asks _ _ _ _) as [[]|] eqn:E; simpl.
  - destruct (hard_stop_spec hook host q c (wk_change k w) Hq) as (w2 & -> & Hg).
    exists (drain_requested c), w2. by rewrite <- ?app_assoc.
  - apply (IH (mkCtl true (ctl_calls c))).
  - apply IH.
Qed.
End control_rows.

(** * Witnesses *)

Module ControlDemo.
Definition set_ (host state pol : string) (w : world) : world :=
  (@set_worker_control Demo.cfg Migrated host "gpu" state pol (Some "op") None w).2.
(** The operator parks box-c by its name, its lane draining or killed. *)
Definition parked : world := set_ "box-c" "off" "hard" Demo.empty_world.
Definition draining : world := set_ "box-c" "off" "drain" Demo.empty_world.
Definition edited : world :=
  (@set_llm_config Demo.cfg Migrated "box-c" "gpu" (Some "vllm") (Some 8) None None parked).2.
Definition on_wake (f : world → world) : wake := mkWake f Migrated false.

Lemma parked_ok : controls_ok parked.
Proof. apply (@set_control_ok Demo.cfg). split; [constructor|]. intros k []%not_elem_of_nil. Qed.
End ControlDemo.

Lemma control_rows_stay_well_typed_witness :
  controls_ok ControlDemo.parked ∧
  controls_ok (@set_llm_config Demo.cfg Migrated "box-c" "gpu" (Some "vllm") (Some 8) None None
                 ControlDemo.parked).2.
Proof.
  split; [apply ControlDemo.parked_ok|].
  apply (@control_rows_stay_well_typed Demo.cfg Migrated "box-c" "gpu" "on" "hard" None
           (Some "vllm"%string) (Some 8) None None ControlDemo.parked ControlDemo.parked_ok).
Defined.

Lemma control_write_reaches_its_workers_witness :
  @desired_state_for Demo.cfg Migrated "box-c-gpu" "gpu" None ControlDemo.parked
    = (Ok "off"%string, ControlDemo.parked).
Proof.
  apply (@control_write_reaches_its_workers Demo.cfg "box-c" "gpu" "off" "hard" (Some "op"%string) None
           Demo.empty_world ControlDemo.parked); reflexivity.
Defined.

Lemma llm_edit_is_read_back_witness :
  @llm_config_for Demo.cfg Migrated "box-c" "gpu" None ControlDemo.edited
    = (Ok (mkLLM "vllm" 8 60), ControlDemo.edited).
Proof.
  apply (@llm_edit_is_read_back Demo.cfg "box-c" "gpu" (Some "vllm"%string) (Some 8) None None
           ControlDemo.parked ControlDemo.edited). reflexivity.
Defined.

(** A drain that the operator escalates: the second wake ends the worker. *)
Lemma off_stops_a_running_worker_witness :
  ∃ d w2, @watch Demo.cfg (Some (Ok ())) "box-c-gpu" "gpu"
    [ControlDemo.on_wake (λ w, w); ControlDemo.on_wake (ControlDemo.set_ "box-c" "off" "hard")]
    (mkCtl false []) ControlDemo.draining = (Ok (true, mkCtl d [StopInference; Exit 79]), w2) ∧
    @given_back Demo.cfg "box-c-gpu" "gpu" ControlDemo.parked w2.
Proof.
  apply (@off_stops_a_running_worker Demo.cfg (Some (Ok ())) "box-c-gpu" "gpu"
    [ControlDemo.on_wake (λ w, w); ControlDemo.on_wake (ControlDemo.set_ "box-c" "off" "hard")]
    (mkCtl false []) ControlDemo.draining).
  apply (bool_decide_unpack _). reflexivity.
Defined.

(** A settings edit keyed by the lane inserts a row whose state is the column's
    default, and that row outranks the box's: the parked lane is back on. *)
Lemma llm_edit_unparks_a_lane :
  (@desired_state_for Demo.cfg Migrated "box-c-gpu" "gpu" None ControlDemo.parked).1 = Ok STATE_OFF ∧
  (@desired_state_for Demo.cfg Migrated "box-c-gpu" "gpu" None
     (@set_llm_config Demo.cfg Migrated "box-c-gpu" "gpu" (Some "vllm") None None None
        ControlDemo.parked).2).1 = Ok STATE_ON.
Proof. split; reflexivity. Qed.

(** The election of the context switch reads the exact label only: a lane parked by
    its box's name, which goes on beating while it drains, is a live candidate. *)
Lemma election_misses_a_box_keyed_park :
  let h := mkHb "box-c-gpu" "gpu" "" 1 1000 None [] [] None [] None (Some 65536) None in
  (@desired_state_for Demo.cfg Migrated "box-c-gpu" "gpu" None ControlDemo.draining).1 = Ok STATE_OFF ∧
  live_box ControlDemo.draining "" 30 h = true.
Proof. split; reflexivity. Qed.
