(* ===== verification/ServerSwitch.v ===== *)
(** * One server at a time ([queue_workflows/server_switch.py])

    A gpu box moves from one LLM server kind to another through a window in which
    it takes no work: drain what is in flight, unload the outgoing server, start the
    incoming one, wait until it is ready.  This file has the whole class
    [ServerSwitch]: the phases and their timeouts, what the caller reports of a
    start, the quarantine of a kind whose start failed, and the record a restarted
    process resumes from.

    Durations and instants are integers of microseconds.  What one call reads of its
    surroundings (the monotonic clock, the wall clock, whether the file system takes
    the write) is the argument [e]; a call reads each clock once.  The file is the
    record it holds, with the fields [_persist] writes. *)

From S2P Require Import Prelude Json Refs.
Local Open Scope Z_scope.

(** ** States, actions, outcomes of a start *)

Inductive phase := IDLE | DRAINING | SWITCHING | WARMING.
Inductive action := UNLOAD_OUTGOING | START_INCOMING | DONE | ABORT.

#[export] Instance phase_eq_dec : EqDecision phase.
Proof. solve_decision. Defined.
#[export] Instance action_eq_dec : EqDecision action.
Proof. solve_decision. Defined.

Definition STARTED : string := "started".
Definition ALREADY_RUNNING : string := "already_running".
Definition TRANSIENT : string := "transient".
Definition PERMANENT : string := "permanent".
Definition UNKNOWN : string := "unknown".
Definition _STATUSES : list string := [STARTED; ALREADY_RUNNING; TRANSIENT; PERMANENT; UNKNOWN].
Definition _ACKNOWLEDGED : list string := [STARTED; ALREADY_RUNNING; UNKNOWN].

Record StartOutcome := mkOutcome { o_status : string; o_reason : string }.
Definition acknowledged (o : StartOutcome) : bool := bool_decide (o_status o ∈ _ACKNOWLEDGED).
Definition fatal (o : StartOutcome) : bool := String.eqb (o_status o) PERMANENT.

(** What a host's lever may return; an attribute of another object is a value, is
    missing, or raises *)
Inductive lever_value :=
  | LOutcome (o : StartOutcome)
  | LNone
  | LBool (b : bool)
  | LDict (d : dict)
  | LObject (status reason : result (option json)).

Section coerce.
Context `{PyEnv}.

(** [str(v or "")] *)
Definition str_or_empty (v : option json) : string :=
  match v with Some v => if truthy v then py_str v else "" | None => "" end.

Definition coerce (value : lever_value) : StartOutcome :=
  let normal := λ raw reason : option json,
    let status := PyStr.lower (PyStr.strip (str_or_empty raw)) in
    mkOutcome (if bool_decide (status ∈ _STATUSES) then status else UNKNOWN) (str_or_empty reason) in
  match value with
  | LOutcome o => o
  | LNone => mkOutcome UNKNOWN ""
  | LBool b => mkOutcome (if b then STARTED else TRANSIENT) ""
  | LDict d => normal (dict_get "status" d) (dict_get "reason" d)
  | LObject (Ok raw) (Ok reason) => normal raw reason
  | LObject _ _ => mkOutcome UNKNOWN ""
  end.
End coerce.

(** ** The object and its file *)

Record hold := mkHold {
  until_wall : Z;
  failures : Z;
  h_reason : string;
  since_wall : Z;
}.

(** The "switch" part of a persisted record *)
Record switch_rec := mkSwitchRec {
  r_target : string;
  r_requested_wall : option Z;
  r_context_length : option Z;
  r_resize : bool;
}.

(** The file: absent, unreadable, not a dictionary, or a record of either version *)
Inductive file :=
  | NoFile
  | Garbage
  | NotADict
  | V1 (target : string) (wall : option Z)
  | V2 (quarantine : list (string * hold)) (switch : option switch_rec).

Record switch := mkSwitch {
  _state : phase;
  _target : option string;
  _target_context : option Z;
  _resize : bool;
  _since : Z;
  _last_try : Z;
  _start_ack : bool;
  _start_unack_since : option Z;
  _last_start : option (StartOutcome * Z);
  _requested_wall : option Z;
  _quarantine : list (string * hold);
  _file : file;
}.

Class SwitchConfig := {
  _drain_timeout_s : Z;
  _unload_timeout_s : Z;
  _warm_timeout_s : Z;
  _retry_every_s : Z;
  _start_ack_timeout_s : Z;
  _quarantine_s : Z;
  _quarantine_max_s : Z;
  _persist_path : option string;
}.

(** The surroundings of one call *)
Record env := mkEnv { _now : Z; _wall : Z; io_ok : bool }.

Definition SECOND : Z := 1000000.
(** [f"{x:.0f}"] of a duration: whole seconds, a half goes to the even one *)
Definition fmt_seconds (us : Z) : string :=
  let q := us / SECOND in
  let r := us mod SECOND in
  pretty (if (2 * r <? SECOND) || ((2 * r =? SECOND) && Z.even q) then q else q + 1).

Definition _resize_key (kind : string) : string := kind +:+ ":context".
(** The quarantine key of a request *)
Definition request_key (target : string) (resize : bool) : string :=
  if resize then _resize_key target else target.

Section server_switch.
Context `{SwitchConfig}.
Implicit Types (s : switch) (e : env).

(** ** Persistence *)

Definition _budget_total : Z := _drain_timeout_s + _unload_timeout_s + _warm_timeout_s.

Definition _remaining_locked e s : Z :=
  match _requested_wall s with
  | None => _budget_total
  | Some w => _budget_total - (_wall e - w)
  end.

Definition with_quarantine (q : list (string * hold)) s : switch :=
  mkSwitch (_state s) (_target s) (_target_context s) (_resize s) (_since s) (_last_try s)
    (_start_ack s) (_start_unack_since s) (_last_start s) (_requested_wall s) q (_file s).
Definition with_file (f : file) s : switch :=
  mkSwitch (_state s) (_target s) (_target_context s) (_resize s) (_since s) (_last_try s)
    (_start_ack s) (_start_unack_since s) (_last_start s) (_requested_wall s) (_quarantine s) f.

(** An entry is forgotten a full cap after it expired *)
Definition kept e (kv : string * hold) : bool :=
  negb (until_wall kv.2 <=? _wall e - _quarantine_max_s).
Definition _prune_quarantine_locked e s : switch :=
  with_quarantine (List.filter (kept e) (_quarantine s)) s.

Definition has_path : bool :=
  match _persist_path with Some p => PyStr.truthy p | None => false end.

Definition _unpersist e s : switch :=
  if has_path && io_ok e then with_file NoFile s else s.

Definition switch_record e s : option switch_rec :=
  match _state s with
  | IDLE => None
  | _ => Some (mkSwitchRec (default "" (_target s)) (Some (default (_wall e) (_requested_wall s)))
                 (_target_context s) (_resize s))
  end.

Definition _persist e s : switch :=
  if negb has_path then s
  else
    let s := _prune_quarantine_locked e s in
    match _state s, _quarantine s with
    | IDLE, [] => _unpersist e s
    | _, _ => if io_ok e then with_file (V2 (_quarantine s) (switch_record e s)) s else s
    end.

(** ** Quarantine *)

Definition _quarantined_locked e (key : string) s : bool :=
  match dict_get key (_quarantine s) with
  | Some h => _wall e <? until_wall h
  | None => false
  end.

Definition quarantine_hold (n : Z) : Z :=
  Z.min (_quarantine_s * 2 ^ Z.min n 8) _quarantine_max_s.
Definition _quarantine_locked e (key reason : string) s : switch :=
  let n := match dict_get key (_quarantine s) with Some h => failures h | None => 0 end in
  with_quarantine
    (dict_set key (mkHold (_wall e + quarantine_hold n) (n + 1) (PyStr.take 300 reason) (_wall e))
       (_quarantine s)) s.

Definition quarantined e (kind : string) s : bool := _quarantined_locked e kind s.
Definition resize_quarantined e (kind : string) s : bool := _quarantined_locked e (_resize_key kind) s.

Definition _quarantine_remaining_locked e (key : string) s : Z * switch :=
  let s := _prune_quarantine_locked e s in
  (match dict_get key (_quarantine s) with
   | Some h => Z.max 0 (until_wall h - _wall e)
   | None => 0
   end, s).

Definition quarantine_reason e (kind : string) s : option string :=
  if _quarantined_locked e kind s then h_reason <$> dict_get kind (_quarantine s) else None.

Definition clear_quarantine e (kind : string) s : switch :=
  if dict_has kind (_quarantine s)
  then _persist e (with_quarantine (dict_pop kind (_quarantine s)) s) else s.

(** ** Giving up *)

Definition _reset e s : switch :=
  _persist e (mkSwitch IDLE None None false 0 0 true None (_last_start s) None (_quarantine s) (_file s)).

Definition _abort e s : list action * switch := ([ABORT], _reset e s).

Definition _abort_and_quarantine e (reason : string) s : list action * switch :=
  _abort e
    match _target s with
    | Some t => if PyStr.truthy t then _quarantine_locked e (request_key t (_resize s)) reason s else s
    | None => s
    end.

Definition abandon e s : switch :=
  match _state s with IDLE => s | _ => _reset e s end.

(** ** The read model *)

Definition remaining_budget_s e s : Z :=
  match _state s with IDLE => 0 | _ => _remaining_locked e s end.

Definition start_in_flight e s : bool :=
  match _state s with
  | WARMING => _start_ack s ||
      match _start_unack_since s with
      | Some since => _now e - since <? _start_ack_timeout_s
      | None => false
      end
  | _ => false
  end.

Definition phase_budget (p : phase) : Z :=
  match p with
  | WARMING => _warm_timeout_s
  | SWITCHING => _unload_timeout_s
  | _ => _drain_timeout_s
  end.

(** The claim path asks this: it aborts a switch past its deadline by itself *)
Definition blocks_claims e s : bool * switch :=
  match _state s with
  | IDLE => (false, s)
  | p =>
      if _remaining_locked e s <=? 0 then (false, _reset e s)
      else if phase_budget p * 2 <=? _now e - _since s then (false, _reset e s)
      else (true, s)
  end.

Definition protected_kind s : option string :=
  match _state s with WARMING => _target s | _ => None end.

(** ** Transitions *)

Definition request e (target : string) (context_length : option Z) (resize : bool) s : bool * switch :=
  if negb (PyStr.truthy target) then (false, s)
  else match _state s with
  | IDLE =>
      let s := _prune_quarantine_locked e s in
      if _quarantined_locked e (request_key target resize) s then (false, s)
      else (true, _persist e
              (mkSwitch DRAINING (Some target) context_length resize (_now e) (_last_try s)
                 true None None (Some (_wall e)) (_quarantine s) (_file s)))
  | _ => (false, s)
  end.

(** [self._state = p], its phase clock started *)
Definition enter e (p : phase) s : switch :=
  mkSwitch p (_target s) (_target_context s) (_resize s) (_now e) (_now e)
    (_start_ack s) (_start_unack_since s) (_last_start s) (_requested_wall s) (_quarantine s) (_file s).
(** WARMING, with the start taken as acknowledged until a lever says otherwise *)
Definition enter_warming e s : switch :=
  _persist e
    (mkSwitch WARMING (_target s) (_target_context s) (_resize s) (_now e) (_now e)
       true None (_last_start s) (_requested_wall s) (_quarantine s) (_file s)).
Definition with_last_try (t : Z) s : switch :=
  mkSwitch (_state s) (_target s) (_target_context s) (_resize s) (_since s) t
    (_start_ack s) (_start_unack_since s) (_last_start s) (_requested_wall s) (_quarantine s) (_file s).

Definition tick_draining e (in_flight : Z) (outgoing_loaded : bool) s : list action * switch :=
  if 0 <? in_flight then
    if _drain_timeout_s <=? _now e - _since s then _abort e s else ([], s)
  else if _resize s then ([START_INCOMING], enter_warming e s)
  else (if outgoing_loaded then [UNLOAD_OUTGOING] else [], enter e SWITCHING s).

Definition tick_switching e (outgoing_loaded : bool) s : list action * switch :=
  if outgoing_loaded then
    if _unload_timeout_s <=? _now e - _since s then _abort e s
    else if _retry_every_s <=? _now e - _last_try s
         then ([UNLOAD_OUTGOING], with_last_try (_now e) s)
    else ([], s)
  else ([START_INCOMING], enter_warming e s).

(** The ack budget: a start that goes without an acknowledgement for too long *)
Definition unacked_too_long e s : bool :=
  negb (_start_ack s) &&
  match _start_unack_since s with
  | Some since => _start_ack_timeout_s <=? _now e - since
  | None => false
  end.

Definition or_question (reason : string) : string :=
  if PyStr.truthy reason then reason else "?".
Definition last_reason s : string :=
  match _last_start s with Some (o, _) => or_question (o_reason o) | None => "?" end.

Definition tick_warming e (outgoing_loaded incoming_ready : bool) s : list action * switch :=
  let waited := _now e - _since s in
  if incoming_ready then
    let s := match _target s with
             | Some t => if PyStr.truthy t
                         then with_quarantine (dict_pop (request_key t (_resize s)) (_quarantine s)) s
                         else s
             | None => s
             end in
    ([DONE], _reset e s)
  else if _warm_timeout_s <=? waited
       then _abort_and_quarantine e ("not ready within " +:+ fmt_seconds waited +:+ "s") s
  else if unacked_too_long e s then _abort_and_quarantine e (last_reason s) s
  else if outgoing_loaded && negb (_resize s) then ([], s)
  else if _retry_every_s <=? _now e - _last_try s
       then ([START_INCOMING], with_last_try (_now e) s)
  else ([], s).

Definition tick e (in_flight : Z) (outgoing_loaded incoming_ready : bool) s : list action * switch :=
  match _state s with
  | IDLE => ([], s)
  | p =>
      if _remaining_locked e s <=? 0 then _abort e s
      else match p with
           | DRAINING => tick_draining e in_flight outgoing_loaded s
           | SWITCHING => tick_switching e outgoing_loaded s
           | _ => tick_warming e outgoing_loaded incoming_ready s
           end
  end.

(** The part of [report_start_outcome] after the coercion *)
Definition with_start e (o : StartOutcome) (ack : bool) (unack : option Z) s : switch :=
  mkSwitch (_state s) (_target s) (_target_context s) (_resize s) (_since s) (_last_try s)
    ack unack (Some (o, _wall e)) (_requested_wall s) (_quarantine s) (_file s).
Definition report e (o : StartOutcome) s : list action * switch :=
  match _state s with
  | IDLE => ([], s)
  | _ =>
      if fatal o
      then _abort_and_quarantine e (o_reason o) (with_start e o (_start_ack s) (_start_unack_since s) s)
      else if acknowledged o then ([], _persist e (with_start e o true None s))
      else if _start_ack s then ([], _persist e (with_start e o false (Some (_now e)) s))
      else ([], _persist e (with_start e o false (_start_unack_since s) s))
  end.
Definition report_start_outcome `{PyEnv} e (value : lever_value) s : list action * switch :=
  report e (coerce value) s.

(** ** A new process *)

Definition fresh (f : file) : switch :=
  mkSwitch IDLE None None false 0 0 true None None None [] f.

(** What a record of either version holds *)
Definition resume e (r : switch_rec) s : switch :=
  let age := (λ w, _wall e - w) <$> r_requested_wall r in
  if PyStr.truthy (r_target r) && _quarantined_locked e (request_key (r_target r) (r_resize r)) s then s
  else if PyStr.truthy (r_target r) &&
          match age with Some a => (0 <=? a) && (a <? _budget_total) | None => false end
  then mkSwitch DRAINING (Some (r_target r)) (r_context_length r) (r_resize r) (_now e) (_last_try s)
         (_start_ack s) (_start_unack_since s) (_last_start s) (r_requested_wall r) (_quarantine s) (_file s)
  else s.

Definition _resume_persisted e s : switch :=
  if negb has_path then s
  else match _file s with
  | NoFile => s
  | Garbage | NotADict => _unpersist e s
  | V1 target wall => _persist e (resume e (mkSwitchRec target wall None false) s)
  | V2 q sw =>
      let s := _prune_quarantine_locked e (with_quarantine q s) in
      _persist e (resume e (default (mkSwitchRec "" None None false) sw) s)
  end.

(** [ServerSwitch(...)] over the file another process left *)
Definition construct e (f : file) : switch := _resume_persisted e (fresh f).
End server_switch.

(** ** Histories

    One call of the object, or a new process over the file of the last one. *)

Inductive op :=
  | Request (target : string) (context_length : option Z) (resize : bool)
  | Tick (in_flight : Z) (outgoing_loaded incoming_ready : bool)
  | Report (outcome : StartOutcome)
  | BlocksClaims
  | Abandon
  | ClearQuarantine (kind : string)
  | QuarantineRemaining (key : string)
  | NewProcess.

Section histories.
Context `{SwitchConfig}.
Implicit Types (s : switch) (e : env) (h : list (env * op)).

Definition perform e (o : op) s : switch :=
  match o with
  | Request t c r => (request e t c r s).2
  | Tick n out ready => (tick e n out ready s).2
  | Report o => (report e o s).2
  | BlocksClaims => (blocks_claims e s).2
  | Abandon => abandon e s
  | ClearQuarantine k => clear_quarantine e k s
  | QuarantineRemaining k => (_quarantine_remaining_locked e k s).2
  | NewProcess => construct e (_file s)
  end.

Definition run h s : switch := foldl (λ s eo, perform eo.1 eo.2 s) s h.

(** The instants of the wall clock at which the history granted a request *)
Fixpoint granted h s : list Z :=
  match h with
  | [] => []
  | (e, o) :: h =>
      match o with
      | Request t c r => if (request e t c r s).1 then [_wall e] else []
      | _ => []
      end ++ granted h (perform e o s)
  end.

(** The phases of the diagram, in order *)
Definition rank (p : phase) : Z :=
  match p with IDLE => 0 | DRAINING => 1 | SWITCHING => 2 | WARMING => 3 end.
End histories.

(** ** A box with one gpu worker

    The worker claims only when the switch does not block claims, and passes the
    number of jobs it runs to [tick]. *)

Record box := mkBox { b_switch : switch; b_running : Z }.

Inductive box_op :=
  | Claim
  | Finish
  | Drive (outgoing_loaded incoming_ready : bool)
  | Other (o : op).

Section boxes.
Context `{SwitchConfig}.

Definition box_step (e : env) (o : box_op) (b : box) : list action * box :=
  match o with
  | Claim =>
      let '(blocked, s) := blocks_claims e (b_switch b) in
      ([], mkBox s (if blocked then b_running b else b_running b + 1))
  | Finish => ([], mkBox (b_switch b) (Z.max 0 (b_running b - 1)))
  | Drive out ready =>
      let '(acts, s) := tick e (b_running b) out ready (b_switch b) in (acts, mkBox s (b_running b))
  | Other (Tick _ _ _) => ([], b)
  | Other o => ([], mkBox (perform e o (b_switch b)) (b_running b))
  end.
Definition box_run (h : list (env * box_op)) (b : box) : box :=
  foldl (λ b eo, (box_step eo.1 eo.2 b).2) b h.
End boxes.

(** ** Lemmas *)

Section lemmas.
Context `{SwitchConfig}.
Implicit Types (s : switch) (e : env) (h : list (env * op)).

(** Everything but the file and old holds survives [_persist]. *)
Lemma persist_state e s : _state (_persist e s) = _state s.
Proof. unfold _persist, _unpersist. repeat case_match; done. Qed.
Lemma persist_target e s : _target (_persist e s) = _target s.
Proof. unfold _persist, _unpersist. repeat case_match; done. Qed.
Lemma persist_context e s : _target_context (_persist e s) = _target_context s.
Proof. unfold _persist, _unpersist. repeat case_match; done. Qed.
Lemma persist_resize e s : _resize (_persist e s) = _resize s.
Proof. unfold _persist, _unpersist. repeat case_match; done. Qed.
Lemma persist_wall e s : _requested_wall (_persist e s) = _requested_wall s.
Proof. unfold _persist, _unpersist. repeat case_match; done. Qed.
Lemma persist_since e s : _since (_persist e s) = _since s.
Proof. unfold _persist, _unpersist. repeat case_match; done. Qed.
Lemma persist_quarantine e s :
  _quarantine (_persist e s) = if has_path then List.filter (kept e) (_quarantine s) else _quarantine s.
Proof. unfold _persist, _unpersist. repeat case_match; simplify_eq/=; done. Qed.
#[local] Hint Rewrite persist_state persist_target persist_context persist_resize persist_wall
  persist_since persist_quarantine : persist.

(** The record [_persist] leaves, whatever it was *)
Definition file_switch (f : file) : option switch_rec :=
  match f with V2 _ r => r | _ => None end.
Definition file_quarantine (f : file) : list (string * hold) :=
  match f with V2 q _ => q | _ => [] end.
Definition well_formed_file (f : file) : bool :=
  match f with NoFile | V2 _ _ => true | _ => false end.

Lemma persist_file e s :
  has_path = true → io_ok e = true →
  file_switch (_file (_persist e s)) = switch_record e s ∧
  file_quarantine (_file (_persist e s)) = List.filter (kept e) (_quarantine s) ∧
  well_formed_file (_file (_persist e s)) = true.
Proof.
  intros Hp Hio. unfold _persist, _unpersist. rewrite Hp, Hio. simpl.
  unfold switch_record. destruct (_state s) eqn:E; simpl;
    [destruct (List.filter _ _) eqn:F|..]; simpl; rewrite ?E; done.
Qed.

(** ** The deadline belongs to the request *)

(** Every request under way, in memory or in the file, is one of [G]. *)
Definition owned (G : Z → Prop) s : Prop :=
  (_state s ≠ IDLE → ∃ w, _requested_wall s = Some w ∧ G w) ∧
  match _file s with
  | V1 _ _ => False
  | V2 _ (Some r) => ∃ w, r_requested_wall r = Some w ∧ G w
  | _ => True
  end.

Lemma owned_mono (G G' : Z → Prop) s : (∀ w, G w → G' w) → owned G s → owned G' s.
Proof.
  unfold owned. intros HG [H1 H2]. split; [naive_solver|].
  destruct (_file s) as [| | |? ?|? [r|]]; naive_solver.
Qed.

Lemma owned_persist G e s :
  owned G s → owned G (_persist e s).
Proof.
  intros [H1 H2]. split.
  { autorewrite with persist. done. }
  unfold _persist, _unpersist.
  destruct (negb has_path); [done|]. simpl.
  assert (match switch_record e s with
          | Some r => ∃ w, r_requested_wall r = Some w ∧ G w
          | None => True end) as H3.
  { unfold switch_record. destruct (_state s) eqn:E; [done|..]; simpl;
      (destruct H1 as (w & -> & Hw); [done|]); eauto. }
  change (switch_record e s) with (switch_record e (_prune_quarantine_locked e s)) in H3.
  destruct (_state s); [destruct (List.filter _ _)|..]; simpl;
    try (destruct (has_path && io_ok e); done); destruct (io_ok e); simpl; done.
Qed.

(** [owned] looks at three fields only. *)
Lemma owned_ext G s s' :
  _state s' = _state s → _requested_wall s' = _requested_wall s → _file s' = _file s →
  owned G s → owned G s'.
Proof. unfold owned. intros -> -> ->. done. Qed.

Lemma owned_idle G s s' : _state s' = IDLE → _file s' = _file s → owned G s → owned G s'.
Proof. unfold owned. intros -> ->. naive_solver. Qed.

Lemma owned_reset G e s : owned G s → owned G (_reset e s).
Proof. intros Hs. apply owned_persist. by apply (owned_idle G s). Qed.

Lemma owned_abort_and_quarantine G e reason s :
  owned G s → owned G (_abort_and_quarantine e reason s).2.
Proof.
  intros Hs. apply owned_reset. repeat case_match; try done; by apply (owned_ext G s).
Qed.

#[local] Hint Resolve owned_reset owned_persist owned_abort_and_quarantine : persist.
#[local] Hint Extern 2 (owned _ _) =>
  match goal with Hs : owned _ ?s |- _ => apply (owned_ext _ s); done end : persist.


(** A switch under way keeps its request whatever phase it enters. *)
Lemma owned_enter G s s' :
  _state s ≠ IDLE → _requested_wall s' = _requested_wall s → _file s' = _file s →
  owned G s → owned G s'.
Proof. unfold owned. intros Hne -> ->. naive_solver. Qed.

Lemma owned_tick G e n out ready s : owned G s → owned G (tick e n out ready s).2.
Proof.
  intros Hs. unfold tick, _abort. destruct (_state s) eqn:E; [done|..];
    (destruct (_remaining_locked e s <=? 0); [by apply owned_reset|]).
  - unfold tick_draining. repeat case_match; simpl; eauto with persist;
      try apply owned_persist; apply (owned_enter G s); by rewrite ?E.
  - unfold tick_switching. repeat case_match; simpl; eauto with persist.
    apply owned_persist, (owned_enter G s); by rewrite ?E.
  - unfold tick_warming. cbv zeta.
    repeat (case_match; try (by apply owned_abort_and_quarantine); try done); simpl; eauto with persist.
Qed.

Lemma owned_resume G e r s :
  (match r_requested_wall r with Some w => G w | None => True end) →
  owned G s → owned G (resume e r s).
Proof.
  intros Hr Hs. unfold resume.
  destruct (_ && _quarantined_locked _ _ _); [done|].
  destruct (r_requested_wall r) as [w|]; simpl; [|by rewrite andb_false_r].
  destruct (_ && _); [|done]. destruct Hs as [H1 H2]. split; simpl; eauto.
Qed.

Lemma owned_construct G e s : owned G s → owned G (construct e (_file s)).
Proof.
  intros [_ Hf]. unfold construct, _resume_persisted.
  assert (owned G (fresh (_file s))) as Hs by (split; [done|]; done).
  destruct has_path; simpl; [|done].
  assert (owned G (_unpersist e (fresh (_file s)))).
  { unfold _unpersist. destruct (_ && _); done. }
  destruct (_file s) as [| | |t w|q [r|]] eqn:E; try done; apply owned_persist, owned_resume;
    simpl; try done. by destruct Hf as (w & -> & Hw).
Qed.

Lemma owned_perform G e o s :
  (∀ t c r, o = Request t c r → (request e t c r s).1 = true → G (_wall e)) →
  owned G s → owned G (perform e o s).
Proof.
  intros HG Hs. destruct o as [t c r|n out ready|o| | |k|k|]; simpl.
  - specialize (HG t c r eq_refl). unfold request in *.
    destruct (negb _); [done|]. destruct (_state s) eqn:E; [|done..].
    destruct (_quarantined_locked _ _ _); [by apply (owned_idle G s)|].
    apply owned_persist. destruct Hs as [H1 H2]. split; simpl; eauto.
  - by apply owned_tick.
  - unfold report. repeat case_match; eauto with persist; simpl; eauto with persist.
  - unfold blocks_claims. repeat case_match; simpl; auto with persist.
  - unfold abandon. repeat case_match; auto with persist.
  - unfold clear_quarantine. case_match; eauto with persist.
  - by apply (owned_ext G s).
  - by apply owned_construct.
Qed.

Lemma owned_run G h s :
  (∀ w, w ∈ granted h s → G w) → owned G s → owned G (run h s).
Proof.
  revert s. induction h as [|[e o] h IH]; intros s HG Hs; [done|]. simpl in *.
  apply IH; [intros w Hw; apply HG, elem_of_app; by right|].
  apply owned_perform; [|done]. intros t c r -> Hg. apply HG. rewrite Hg. set_solver.
Qed.

Lemma blocks_claims_true e s :
  (blocks_claims e s).1 = true →
  _state s ≠ IDLE ∧ 0 < _remaining_locked e s ∧ _now e - _since s < phase_budget (_state s) * 2.
Proof.
  unfold blocks_claims. destruct (_state s); simpl; [done|..];
    destruct (Z.leb_spec (_remaining_locked e s) 0); try done;
    destruct (Z.leb_spec (_drain_timeout_s * 2) (_now e - _since s));
    destruct (Z.leb_spec (_unload_timeout_s * 2) (_now e - _since s));
    destruct (Z.leb_spec (_warm_timeout_s * 2) (_now e - _since s)); done.
Qed.
End lemmas.

(** C19: A box is never out of service past the budget of a request.  In every
    history of calls, restarts, failed writes and arbitrary readings of both clocks
    that starts without a file, claims are blocked at a wall instant only if the
    history granted a request less than [drain + unload + warm] before it. *)
Theorem claims_blocked_only_within_a_budget `{SwitchConfig} (h : list (env * op)) (e : env) :
  let s := run h (fresh NoFile) in
  (blocks_claims e s).1 = true →
  ∃ w, w ∈ granted h (fresh NoFile) ∧ _requested_wall s = Some w ∧ _wall e - w < _budget_total.
Proof.
  intros s (Hne & Hrem & _)%blocks_claims_true.
  destruct (owned_run (λ w, w ∈ granted h (fresh NoFile)) h (fresh NoFile)) as [Hs _]; [done..|].
  destruct Hs as (w & Hw & Hg); [done|]. exists w. split_and!; [done..|].
  unfold _remaining_locked in Hrem. fold s in Hw. rewrite Hw in Hrem. lia.
Qed.

Section phases.
Context `{SwitchConfig}.
Implicit Types (s : switch) (e : env).

Lemma reset_idle e s : _state (_reset e s) = IDLE.
Proof. unfold _reset. by rewrite persist_state. Qed.

(** What a tick may do to the phase, and what it emits on the way *)
Lemma tick_edges e n out ready s acts s' :
  tick e n out ready s = (acts, s') →
  match _state s with
  | IDLE => acts = [] ∧ s' = s
  | p =>
      (acts = [ABORT] ∧ _state s' = IDLE) ∨
      (acts = [] ∧ s' = s) ∨
      match p with
      | DRAINING =>
          n <= 0 ∧ ((_resize s = true ∧ acts = [START_INCOMING] ∧ _state s' = WARMING) ∨
                    (_resize s = false ∧ acts = (if out then [UNLOAD_OUTGOING] else []) ∧ _state s' = SWITCHING))
      | SWITCHING =>
          (out = true ∧ acts = [UNLOAD_OUTGOING] ∧ _state s' = SWITCHING) ∨
          (out = false ∧ acts = [START_INCOMING] ∧ _state s' = WARMING)
      | _ =>
          (ready = true ∧ acts = [DONE] ∧ _state s' = IDLE) ∨
          ((out = false ∨ _resize s = true) ∧ acts = [START_INCOMING] ∧ _state s' = WARMING)
      end
  end.
Proof.
  unfold tick. destruct (_state s) eqn:E; [by intros [= <- <-]|..];
    (destruct (_remaining_locked e s <=? 0);
      [intros [= <- <-]; left; split; [done|apply reset_idle]|]).
  - unfold tick_draining, enter_warming. destruct (Z.ltb_spec 0 n).
    + destruct (_ <=? _); intros [= <- <-]; [left; split; [done|apply reset_idle]|tauto].
    + right; right. split; [lia|].
      destruct (_resize s); simplify_eq/=; rewrite ?persist_state; tauto.
  - unfold tick_switching, enter_warming. destruct out.
    + destruct (_ <=? _); [intros [= <- <-]; left; split; [done|apply reset_idle]|].
      destruct (_ <=? _); intros [= <- <-]; simpl; rewrite ?E; tauto.
    + intros [= <- <-]. rewrite persist_state. simpl. tauto.
  - unfold tick_warming. cbv zeta. destruct ready.
    { intros [= <- <-]. right; right; left. split_and!; [done..|apply reset_idle]. }
    destruct (_ <=? _); [intros [= <- <-]; left; split; [done|apply reset_idle]|].
    destruct (unacked_too_long e s);
      [intros [= <- <-]; left; split; [done|apply reset_idle]|].
    destruct (out && _) eqn:O; [intros [= <- <-]; tauto|].
    destruct (_ <=? _); intros [= <- <-]; [|tauto]. right; right; right. simpl.
    split_and!; [|done..]. destruct out, (_resize s); auto; done.
Qed.

(** A start is asked for with the outgoing server observed gone. *)
Lemma start_observed e n out ready s acts s1 :
  tick e n out ready s = (acts, s1) → START_INCOMING ∈ acts → out = false ∨ _resize s = true.
Proof.
  intros Et Hin. pose proof (tick_edges _ _ _ _ _ _ _ Et) as Hx.
  destruct (_state s); [destruct Hx as [-> _]; set_solver|destruct Hx as [[-> _]|[[-> _]|Hx]]; [set_solver..|] ..].
  - destruct Hx as [_ [[-> _]|(_ & -> & _)]]; [by right|]. destruct out; set_solver.
  - destruct Hx as [(_ & -> & _)|[-> _]]; [set_solver|by left].
  - destruct Hx as [(_ & -> & _)|[? _]]; [set_solver|done].
Qed.
Lemma blocks_claims_false e s :
  (blocks_claims e s).1 = false → _state (blocks_claims e s).2 = IDLE.
Proof.
  unfold blocks_claims. destruct (_state s) eqn:E; [done|..];
    repeat case_match; intros; try done; apply reset_idle.
Qed.

Lemma blocks_claims_true_same e s :
  (blocks_claims e s).1 = true → (blocks_claims e s).2 = s.
Proof. unfold blocks_claims. repeat case_match; done. Qed.

(** Where the other calls can lead *)
Lemma perform_phase e o s :
  (∀ n out ready, o ≠ Tick n out ready) →
  _state (perform e o s) = _state s ∨ _state (perform e o s) = IDLE ∨ _state (perform e o s) = DRAINING.
Proof.
  intros Ho. destruct o as [t c r|n out ready|o| | |k|k|]; simpl.
  - unfold request. repeat case_match; simpl; rewrite ?persist_state; auto.
  - by edestruct Ho.
  - unfold report. repeat case_match; simpl; unfold _abort_and_quarantine, _abort; simpl;
      rewrite ?persist_state, ?reset_idle; simpl; auto.
  - unfold blocks_claims. repeat case_match; simpl; rewrite ?reset_idle; auto.
  - unfold abandon. repeat case_match; simpl; rewrite ?reset_idle; auto.
  - unfold clear_quarantine. case_match; rewrite ?persist_state; auto.
  - by left.
  - unfold construct, _resume_persisted, resume, _unpersist.
    repeat case_match; simpl; rewrite ?persist_state; simpl; repeat case_match; simpl; auto.
Qed.

(** A box past its drain runs nothing. *)
Definition drained (b : box) : Prop :=
  0 ≤ b_running b ∧ (1 < rank (_state (b_switch b)) → b_running b = 0).

Lemma drained_step e o b : drained b → drained (box_step e o b).2.
Proof.
  intros [H0 Hd]. destruct o as [| |out ready|o]; simpl.
  - destruct (blocks_claims e (b_switch b)) as [[] s] eqn:E; split; simpl; try lia.
    + assert (s = b_switch b) as -> by (rewrite <- (blocks_claims_true_same e (b_switch b)); by rewrite E).
      done.
    + pose proof (blocks_claims_false e (b_switch b)) as HI. rewrite E in HI. specialize (HI eq_refl). simpl in HI.
      unfold drained; simpl; rewrite HI; simpl; lia.
  - split; simpl; [lia|]. intros Hr. rewrite Hd; [lia|done].
  - destruct (tick e (b_running b) out ready (b_switch b)) as [acts s] eqn:E. split; [done|]. simpl.
    apply tick_edges in E. intros Hr.
    destruct (_state (b_switch b)) eqn:P; [destruct E as [_ ->]; rewrite P in Hr; simpl in Hr; lia| |apply Hd; simpl; lia..].
    destruct E as [[_ Hs]|[[_ ->]|[Hn _]]]; [rewrite Hs in Hr|rewrite P in Hr|]; simpl in Hr; lia.
  - pose proof (perform_phase e o (b_switch b)) as Hp.
    destruct o; try done; (split; [done|]); intros Hr; apply Hd;
      (destruct Hp as [Hp|[Hp|Hp]]; [done|..]; simpl in *; rewrite Hp in Hr; simpl in *; lia).
Qed.

Lemma drained_run h b : drained b → drained (box_run h b).
Proof. revert b. induction h as [|[e o] h IH]; intros b Hb; [done|]. apply IH, drained_step, Hb. Qed.
End phases.

(** C18: Never two copies of the weights.  On a box whose gpu work one worker claims,
    whatever calls, claims, finished jobs, restarts and clock readings precede it, a
    start of the incoming server is asked for only when no job runs and the outgoing
    server was observed gone in the same tick (a resize, which replaces the server it
    restarts, has none); and from then on no job runs until the switch is over. *)
Theorem start_only_on_a_drained_box `{SwitchConfig} (h h' : list (env * box_op)) (e : env)
    (out ready : bool) (running : Z) :
  0 ≤ running →
  let b := box_run h (mkBox (fresh NoFile) running) in
  START_INCOMING ∈ (box_step e (Drive out ready) b).1 →
  b_running b = 0 ∧ (out = false ∨ _resize (b_switch b) = true) ∧
  let b' := box_run h' (box_step e (Drive out ready) b).2 in
  (_state (b_switch b') = SWITCHING ∨ _state (b_switch b') = WARMING → b_running b' = 0).
Proof.
  intros H0 b Hin.
  assert (drained b) as Hb by (apply drained_run; split; simpl; lia).
  pose proof (drained_run h' _ (drained_step e (Drive out ready) b Hb)) as [_ Hd'].
  simpl in Hin. destruct (tick e (b_running b) out ready (b_switch b)) as [acts s] eqn:E. simpl in Hin.
  split_and!; [|by apply (start_observed _ _ _ _ _ _ _ E)|].
  - clear Hd'. destruct Hb as [Hr Hd]. apply tick_edges in E.
    destruct (_state (b_switch b)) eqn:P;
      [destruct E as [-> _]; set_solver| |apply Hd; simpl; lia..].
    destruct E as [[-> _]|[[-> _]|[Hn _]]]; [set_solver..|lia].
  - intros b' Hp. unfold b' in *. simpl in *. rewrite E in *. apply Hd'.
    destruct Hp as [-> | ->]; simpl; lia.
Qed.

(** No phase outlives its budget.  A tick that comes after the budget of the
    phase always leaves it, for a later phase or for service; a tick or a claim that
    comes after the deadline of the request puts the box back in service at once;
    and a box whose ticks stopped unblocks its claims at twice the phase's budget. *)
Lemma no_phase_outlives_its_budget `{SwitchConfig} (e : env) (n : Z) (out ready : bool) (s : switch) :
  _state s ≠ IDLE →
  let s' := (tick e n out ready s).2 in
  (phase_budget (_state s) <= _now e - _since s →
     _state s' = IDLE ∨ rank (_state s) < rank (_state s') ∧ _since s' = _now e) ∧
  (_remaining_locked e s <= 0 →
     (tick e n out ready s).1 = [ABORT] ∧ _state s' = IDLE ∧ (blocks_claims e s).1 = false) ∧
  (phase_budget (_state s) * 2 <= _now e - _since s → (blocks_claims e s).1 = false).
Proof.
  intros Hne. split_and!.
  - intros Hlate. unfold tick. destruct (_state s) eqn:E; [done|..]; simpl in Hlate;
      (destruct (_ <=? 0); [left; apply reset_idle|]).
    + unfold tick_draining. destruct (0 <? n).
      { apply Z.leb_le in Hlate as ->. left. apply reset_idle. }
      right. unfold enter_warming. destruct (_resize s); simpl; rewrite ?persist_state, ?persist_since; done.
    + unfold tick_switching, enter_warming. destruct out.
      { apply Z.leb_le in Hlate as ->. left. apply reset_idle. }
      right. simpl. rewrite persist_state, persist_since. done.
    + unfold tick_warming. destruct ready; [left; apply reset_idle|].
      apply Z.leb_le in Hlate as ->. left. apply reset_idle.
  - intros Hrem. apply Z.leb_le in Hrem. unfold tick, blocks_claims, _abort.
    destruct (_state s); [done|..]; rewrite Hrem; (split_and!; [done|apply reset_idle|done]).
  - intros Hlate. apply not_true_iff_false. intros (_ & _ & Hb)%blocks_claims_true. lia.
Qed.

Section holds.
Context `{SwitchConfig}.
Implicit Types (s : switch) (e : env).

(** A hold that has not expired survives every prune. *)
Lemma live_kept e k h : 0 ≤ _quarantine_max_s → _wall e < until_wall h → kept e (k, h) = true.
Proof. intros. unfold kept. simpl. destruct (Z.leb_spec (until_wall h) (_wall e - _quarantine_max_s)); [lia|done]. Qed.

Lemma refuse_quarantined e t c r s h :
  0 ≤ _quarantine_max_s → PyStr.truthy t = true →
  dict_get (request_key t r) (_quarantine s) = Some h → _wall e < until_wall h →
  (request e t c r s).1 = false.
Proof.
  intros Hmax Ht Hd Hw. unfold request. rewrite Ht. simpl. destruct (_state s); [|done..].
  unfold _quarantined_locked. simpl.
  rewrite (dict_get_filter _ _ h) by auto using live_kept.
  apply Z.ltb_lt in Hw as ->. done.
Qed.

(** What giving a target up leaves in memory and on disk *)
Lemma abort_and_quarantine_spec e reason s t :
  _target s = Some t → PyStr.truthy t = true → 0 < _quarantine_s → 0 < _quarantine_max_s →
  let key := request_key t (_resize s) in
  let n := match dict_get key (_quarantine s) with Some h => failures h | None => 0 end in
  let h := mkHold (_wall e + quarantine_hold n) (n + 1) (PyStr.take 300 reason) (_wall e) in
  let s' := (_abort_and_quarantine e reason s).2 in
  (0 ≤ n) →
  _state s' = IDLE ∧ dict_get key (_quarantine s') = Some h ∧
  (has_path = true → io_ok e = true → ∃ q, _file s' = V2 q None ∧ dict_get key q = Some h).
Proof.
  intros Ht Htt Hq Hmax key n h s' Hn.
  assert (0 < quarantine_hold n) as Hh.
  { unfold quarantine_hold. assert (0 < 2 ^ Z.min n 8) by (apply Z.pow_pos_nonneg; lia). nia. }
  assert (kept e (key, h) = true) as Hk by (apply live_kept; simpl; lia).
  assert (dict_get key (List.filter (kept e) (dict_set key h (_quarantine s))) = Some h) as Hget.
  { apply dict_get_filter; [apply dict_get_set_eq|done]. }
  split_and!; [apply reset_idle|..].
  - unfold s', _abort_and_quarantine. rewrite Ht, Htt. unfold _abort, _reset. simpl.
    rewrite persist_quarantine. simpl. destruct has_path; [done|apply dict_get_set_eq].
  - intros Hp Hio. unfold s', _abort_and_quarantine. rewrite Ht, Htt. unfold _abort, _reset. simpl.
    unfold _persist. rewrite Hp, Hio. simpl. fold key n h.
    destruct (List.filter _ _) as [|x l] eqn:F; [done|]. simpl. eauto.
Qed.

Lemma construct_V2_None e q :
  has_path = true →
  _state (construct e (V2 q None)) = IDLE ∧
  _quarantine (construct e (V2 q None)) = List.filter (kept e) (List.filter (kept e) q).
Proof.
  intros Hp. unfold construct, _resume_persisted. rewrite Hp. simpl.
  rewrite persist_state, persist_quarantine, Hp. done.
Qed.

Lemma hold_monotone n : 0 ≤ _quarantine_s → 0 ≤ n → quarantine_hold n ≤ quarantine_hold (n + 1).
Proof.
  intros Hq Hn. unfold quarantine_hold. apply Z.min_le_compat_r, Z.mul_le_mono_nonneg_l; [done|].
  apply Z.pow_le_mono_r; lia.
Qed.
End holds.

(** C21: A start that cannot succeed is given up at once and held back.  When the lever
    reports a permanent failure, the switch aborts in that call; until the hold ends
    every request for the same key is refused, in this process and in a new one that
    reads its file; the hold doubles with every failure up to the cap, and the count
    of failures outlives the hold itself by a full cap. *)
Theorem failed_starts_are_held_back `{SwitchConfig} (e e' : env) (o : StartOutcome) (s : switch)
    (t : string) (n : Z) :
  _state s ≠ IDLE → _target s = Some t → PyStr.truthy t = true → fatal o = true →
  0 < _quarantine_s → 0 < _quarantine_max_s → 0 ≤ n →
  n = match dict_get (request_key t (_resize s)) (_quarantine s) with Some h => failures h | None => 0 end →
  let s' := (report e o s).2 in
  let hold := quarantine_hold n in
  (report e o s).1 = [ABORT] ∧ _state s' = IDLE ∧
  (_wall e' < _wall e + hold → ∀ c,
     (request e' t c (_resize s) s').1 = false ∧
     (has_path = true → io_ok e = true →
        (request e' t c (_resize s) (construct e' (_file s'))).1 = false)) ∧
  (_wall e' < _wall e + hold + _quarantine_max_s →
     failures <$> dict_get (request_key t (_resize s)) (_quarantine (_prune_quarantine_locked e' s')) = Some (n + 1)) ∧
  hold = Z.min (_quarantine_s * 2 ^ Z.min n 8) _quarantine_max_s ∧ hold ≤ quarantine_hold (n + 1).
Proof.
  intros Hne Ht Htt Hf Hq Hmax Hn Hdef s' hold0.
  set (s0 := with_start e o (_start_ack s) (_start_unack_since s) s).
  assert (report e o s = _abort_and_quarantine e (o_reason o) s0) as Er.
  { unfold report. rewrite Hf. by destruct (_state s). }
  pose proof (abort_and_quarantine_spec e (o_reason o) s0 t Ht Htt Hq Hmax) as Hspec.
  change (_resize s0) with (_resize s) in Hspec.
  change (_quarantine s0) with (_quarantine s) in Hspec.
  cbv zeta in Hspec. rewrite <- Hdef, <- Er in Hspec.
  destruct (Hspec Hn) as (Hi & Hg & Hfile). fold hold0 in Hg, Hfile.
  split_and!; [by rewrite Er|done|..|done|apply hold_monotone; lia].
  - intros Hw c. split.
    + eapply refuse_quarantined; [lia|done|exact Hg|done].
    + intros Hp Hio. destruct (Hfile Hp Hio) as (q & Efile & Hgq). fold s' in Efile. rewrite Efile.
      destruct (construct_V2_None e' q Hp) as [_ Eq].
      assert (∀ k, kept e' (k, mkHold (_wall e + hold0) (n + 1) (PyStr.take 300 (o_reason o)) (_wall e)) = true)
        by (intros k; apply live_kept; simpl; lia).
      eapply refuse_quarantined; [lia|done|rewrite Eq|].
      { by repeat apply dict_get_filter. }
      done.
  - intros Hw. unfold _prune_quarantine_locked. simpl. fold s' in Hg.
    rewrite (dict_get_filter _ _ _ _ Hg); [done|]. unfold kept. simpl.
    destruct (Z.leb_spec (_wall e + hold0) (_wall e' - _quarantine_max_s)); [lia|done].
Qed.

(** ** A restart inherits the switch *)

Section restarts.
Context `{SwitchConfig}.
Implicit Types (s : switch) (e : env) (h : list (env * op)).
Context (Hpath : has_path = true) (Hmax : 0 ≤ _quarantine_max_s).

(** The record of the switch under way *)
Definition current s : option switch_rec :=
  match _state s with
  | IDLE => None
  | _ => Some (mkSwitchRec (default "" (_target s)) (_requested_wall s) (_target_context s) (_resize s))
  end.

(** A switch under way has a target and a request no later than [W], and its kind is
    not held back from [W] on. *)
Definition sound (W : Z) s : Prop :=
  NoDup ((_quarantine s).*1) ∧
  (_state s ≠ IDLE → ∃ t w, _target s = Some t ∧ PyStr.truthy t = true ∧ _requested_wall s = Some w ∧ w ≤ W ∧
    ∀ hd, (request_key t (_resize s), hd) ∈ _quarantine s → until_wall hd ≤ W).

(** The file is the memory, up to holds long expired at [W]. *)
Definition mirrored (W : Z) s : Prop :=
  sound W s ∧ well_formed_file (_file s) = true ∧ file_switch (_file s) = current s ∧
  ∀ e, W ≤ _wall e →
    List.filter (kept e) (file_quarantine (_file s)) = List.filter (kept e) (_quarantine s).

Lemma filter_kept_twice e e' (q : list (string * hold)) :
  _wall e ≤ _wall e' → List.filter (kept e') (List.filter (kept e) q) = List.filter (kept e') q.
Proof.
  intros Hw. induction q as [|[k hd] q IH]; simpl; [done|].
  destruct (kept e (k, hd)) eqn:E; simpl; [by rewrite IH|].
  assert (kept e' (k, hd) = false) as ->; [|done].
  unfold kept in *. simpl in *. apply negb_false_iff, Z.leb_le in E. apply negb_false_iff, Z.leb_le. lia.
Qed.

#[local] Hint Extern 0 (?x ≤ ?x) => reflexivity : core.
Lemma sound_sub W W' s s' :
  W ≤ W' → _target s' = _target s → _resize s' = _resize s → _requested_wall s' = _requested_wall s →
  (_state s' ≠ IDLE → _state s ≠ IDLE) →
  (∃ p, _quarantine s' = List.filter p (_quarantine s)) →
  sound W s → sound W' s'.
Proof.
  unfold sound. intros HW -> -> -> Hst [p Hq] [Hd Hs]. rewrite Hq.
  split; [by apply NoDup_map_Lfilter|]. intros Hne. destruct (Hs (Hst Hne)) as (t & w & ? & ? & ? & ? & Hh).
  exists t, w. split_and!; [done..|lia|]. intros hd [Hin _]%elem_of_Lfilter. specialize (Hh hd Hin). lia.
Qed.

Lemma sound_same W W' s s' :
  W ≤ W' → _target s' = _target s → _resize s' = _resize s → _requested_wall s' = _requested_wall s →
  (_state s' ≠ IDLE → _state s ≠ IDLE) → _quarantine s' = _quarantine s → sound W s → sound W' s'.
Proof.
  intros. apply (sound_sub W _ s); try done. exists (λ _, true). by rewrite Lfilter_all.
Qed.

Lemma mirrored_persist e s : io_ok e = true → sound (_wall e) s → mirrored (_wall e) (_persist e s).
Proof.
  intros Hio Hs. destruct (persist_file e s Hpath Hio) as (F1 & F2 & F3).
  split_and!; [|done|..].
  - eapply sound_sub; [reflexivity|..|exact Hs]; rewrite ?persist_target, ?persist_resize, ?persist_wall,
      ?persist_state, ?persist_quarantine; try done.
    rewrite Hpath. eauto.
  - rewrite F1. unfold current, switch_record.
    rewrite persist_state, persist_target, persist_wall, persist_context, persist_resize.
    destruct (_state s) eqn:E; [done|..];
      (destruct Hs as [_ Hs]; destruct Hs as (t & w & _ & _ & -> & _); [by rewrite E|]); done.
  - intros e' He. rewrite F2, persist_quarantine, Hpath. done.
Qed.

Lemma mirrored_le W W' s : W ≤ W' → mirrored W s → mirrored W' s.
Proof.
  intros HW (H1 & H2 & H3 & H4). split_and!; [by apply (sound_same W _ s)|done..|].
  intros e He. apply H4. lia.
Qed.

(** A change of the fields the record does not hold *)
Lemma mirrored_same W s s' :
  sound W s' → current s' = current s → _file s' = _file s →
  (∀ e, W ≤ _wall e → List.filter (kept e) (_quarantine s') = List.filter (kept e) (_quarantine s)) →
  mirrored W s → mirrored W s'.
Proof.
  intros Hs Hc Hf Hq (_ & H2 & H3 & H4). split_and!; rewrite ?Hf; [done..| |]; [congruence|].
  intros e He. by rewrite H4, Hq.
Qed.

Lemma sound_idle W s : NoDup ((_quarantine s).*1) → _state s = IDLE → sound W s.
Proof. intros Hd E. split; [done|]. by rewrite E. Qed.

Lemma mirrored_reset e s :
  io_ok e = true → NoDup ((_quarantine s).*1) → mirrored (_wall e) (_reset e s).
Proof. intros. apply mirrored_persist; [done|]. by apply sound_idle. Qed.
Lemma mirrored_give_up e r s :
  io_ok e = true → NoDup ((_quarantine s).*1) → mirrored (_wall e) (_abort_and_quarantine e r s).2.
Proof.
  intros. apply mirrored_reset; [done|]. repeat case_match; try done. by apply dict_set_NoDup.
Qed.
Create HintDb mirror.
#[local] Hint Resolve mirrored_reset mirrored_give_up : mirror.

Lemma mirrored_tick e n out ready s :
  io_ok e = true → mirrored (_wall e) s → mirrored (_wall e) (tick e n out ready s).2.
Proof.
  intros Hio Hm. pose proof Hm as [Hs _]. pose proof Hs as [Hd _]. unfold tick, _abort.
  assert (_state s ≠ IDLE → mirrored (_wall e) (enter_warming e s)) as Hwarm.
  { intros Hne. apply mirrored_persist; [done|]. by apply (sound_same (_wall e) _ s). }
  destruct (_state s) eqn:E; [done|..]; (destruct (_ <=? 0); [by apply mirrored_reset|]).
  - unfold tick_draining. repeat case_match; simpl; auto with mirror.
    all: eapply mirrored_same; [..|exact Hm]; try done; [|unfold current; by rewrite E].
    all: apply (sound_same (_wall e) _ s); rewrite ?E; done.
  - unfold tick_switching. repeat case_match; simpl; auto with mirror.
    all: apply (mirrored_same _ s); first [exact Hs|exact Hm|done].
  - unfold tick_warming. cbv zeta. destruct ready.
    { apply mirrored_reset; [done|]. repeat case_match; try done. by apply dict_pop_NoDup. }
    destruct (_ <=? _); [by apply mirrored_give_up|].
    destruct (unacked_too_long e s); [by apply mirrored_give_up|].
    repeat case_match; simpl; auto with mirror.
    all: apply (mirrored_same _ s); first [exact Hs|exact Hm|done].
Qed.

Lemma mirrored_prune e s : mirrored (_wall e) s → mirrored (_wall e) (_prune_quarantine_locked e s).
Proof.
  intros Hm. apply (mirrored_same _ s); [|done|done| |done].
  - apply (sound_sub (_wall e) _ s); try done; [|apply Hm]. simpl. eauto.
  - intros e' He. simpl. by apply filter_kept_twice.
Qed.

(** The object a new process builds before it persists again: the record is taken up
    when its budget has not run out. *)
Lemma resume_current e s q :
  mirrored (_wall e) s → _quarantine q = List.filter (kept e) (_quarantine s) → _state q = IDLE →
  let q' := resume e (default (mkSwitchRec "" None None false) (current s)) q in
  _quarantine q' = _quarantine q ∧
  match _state s with
  | IDLE => _state q' = IDLE
  | _ => if 0 <? _remaining_locked e s
         then _state q' = DRAINING ∧ current q' = current s else _state q' = IDLE
  end.
Proof.
  intros [Hs _] Hq Hi. cbv zeta. destruct (decide (_state s = IDLE)) as [E|E].
  { unfold current. by rewrite E. }
  destruct Hs as [_ Hs]. destruct (Hs E) as (t & w & Ht & Htt & Hw & Hle & Hh).
  assert (current s = Some (mkSwitchRec t (Some w) (_target_context s) (_resize s))) as ->.
  { unfold current. rewrite Ht, Hw. by destruct (_state s). }
  unfold resume; simpl; rewrite Htt; simpl.
  assert (_quarantined_locked e (request_key t (_resize s)) q = false) as ->.
  { unfold _quarantined_locked. destruct (dict_get _ _) as [hd|] eqn:G; [|done].
    apply dict_get_elem in G. rewrite Hq, elem_of_Lfilter in G. destruct G as [G _].
    apply Hh in G. apply Z.ltb_ge. lia. }
  unfold _remaining_locked. rewrite Hw, (proj2 (Z.leb_le 0 _)) by lia. simpl.
  destruct (Z.ltb_spec (_wall e - w) _budget_total), (Z.ltb_spec 0 (_budget_total - (_wall e - w)));
    try lia; (split; [done|]); by destruct (_state s).
Qed.

(** What a new process makes of the file *)
Lemma mirrored_construct e s :
  io_ok e = true → mirrored (_wall e) s →
  let s' := construct e (_file s) in
  mirrored (_wall e) s' ∧
  _quarantine s' = List.filter (kept e) (_quarantine s) ∧
  match _state s with
  | IDLE => _state s' = IDLE
  | _ => if 0 <? _remaining_locked e s
         then _state s' = DRAINING ∧ current s' = current s else _state s' = IDLE
  end.
Proof.
  intros Hio Hm. pose proof Hm as (Hs & Hwf & Hfs & Hfq). cbv zeta.
  specialize (Hfq e ltac:(lia)).
  unfold construct, _resume_persisted. rewrite Hpath. simpl.
  destruct (_file s) as [| | | |q sw] eqn:F; try done; simpl in *.
  { unfold current in Hfs. destruct (_state s) eqn:E; [|done..].
    split_and!; [|by rewrite <- Hfq|done]. split_and!; [|done..]. by apply sound_idle; [constructor|]. }
  subst sw. set (q0 := _prune_quarantine_locked _ _).
  destruct (resume_current e s q0 Hm Hfq eq_refl) as [R1 R2].
  set (q1 := resume _ _ q0) in *.
  assert (current (_persist e q1) = current q1) as Ec.
  { unfold current. by rewrite persist_state, persist_target, persist_wall, persist_context, persist_resize. }
  rewrite persist_state, persist_quarantine, Hpath, R1, Ec. split_and!; [|..|done].
  - apply mirrored_persist; [done|]. split; [rewrite R1; simpl; rewrite Hfq; apply NoDup_map_Lfilter, Hs|]. intros Hne.
    assert (_state s ≠ IDLE) as Hne' by (intros E; rewrite E in R2; done).
    assert (current q1 = current s) as Ec1.
    { destruct (_state s); [done|..]; (destruct (0 <? _); [apply R2|done]). }
    destruct Hs as [Hd Hs]. destruct (Hs Hne') as (t & w & Ht & Htt & Hw & Hle & Hh).
    unfold current in Ec1. rewrite Ht, Hw in Ec1.
    assert (∃ t', _target q1 = Some t') as [t' Ht'].
    { unfold q1, resume in *. repeat case_match; simpl in *; eauto; by rewrite ?R1 in Hne. }
    rewrite Ht' in Ec1. destruct (_state q1); [done|..]; destruct (_state s); try done;
      injection Ec1 as -> Hw' _ Hr; exists t, w; rewrite Hr; split_and!; try done;
      intros hd; rewrite R1; simpl; rewrite Hfq, elem_of_Lfilter; intros [? _]; auto.
  - simpl. by rewrite Hfq, filter_kept_twice.
Qed.

(** A request that was not refused *)
Lemma sound_request e t c r s q :
  PyStr.truthy t = true → NoDup (_quarantine s).*1 →
  _quarantined_locked e (request_key t r) (_prune_quarantine_locked e s) = false →
  sound (_wall e) (mkSwitch DRAINING (Some t) c r (_now e) q true None None (Some (_wall e))
                     (List.filter (kept e) (_quarantine s)) (_file s)).
Proof.
  intros Ht Hd HQ. split; simpl; [by apply NoDup_map_Lfilter|]. intros _.
  exists t, (_wall e). split_and!; try done. intros hd Hin.
  unfold _quarantined_locked in HQ. simpl in HQ.
  rewrite (dict_get_unique _ _ hd) in HQ; [by apply Z.ltb_ge|by apply NoDup_map_Lfilter|done].
Qed.

Lemma mirrored_perform e o s :
  io_ok e = true → mirrored (_wall e) s → mirrored (_wall e) (perform e o s).
Proof.
  intros Hio Hm. pose proof Hm as [Hs _].
  destruct o as [t c r|n out ready|o| | |k|k|]; simpl.
  - unfold request. destruct (PyStr.truthy t) eqn:Ht; simpl; [|done].
    destruct (_state s) eqn:E; [|done..].
    destruct (_quarantined_locked _ _ _) eqn:Q; [by apply mirrored_prune|].
    apply mirrored_persist; [done|]. apply sound_request; [done|apply Hs|done].
  - by apply mirrored_tick.
  - assert (∀ o a u, mirrored (_wall e) (_persist e (with_start e o a u s))) as Hw.
    { intros. apply mirrored_persist; [done|]. by apply (sound_same (_wall e) _ s). }
    unfold report. destruct (_state s); [done|..];
      (destruct (fatal o); [apply mirrored_give_up; [done|]; exact (proj1 Hs)|]);
      repeat case_match; simpl; auto.
  - unfold blocks_claims. destruct Hs. repeat case_match; simpl; auto with mirror.
  - unfold abandon. destruct Hs. repeat case_match; simpl; auto with mirror.
  - unfold clear_quarantine. case_match; [|done]. apply mirrored_persist; [done|].
    apply (sound_sub (_wall e) _ s); try done. by eexists.
  - by apply mirrored_prune.
  - by apply mirrored_construct.
Qed.

(** A prune changes no answer: it forgets expired holds only. *)
Lemma quarantined_pruned e k s s' :
  NoDup (_quarantine s).*1 → _quarantine s' = List.filter (kept e) (_quarantine s) →
  quarantined e k s' = quarantined e k s.
Proof.
  intros Hd Hq. unfold quarantined, _quarantined_locked. rewrite Hq.
  destruct (dict_get k (List.filter _ _)) as [hd|] eqn:G.
  - apply dict_get_elem in G. rewrite elem_of_Lfilter in G. destruct G as [G _].
    by rewrite (dict_get_unique _ _ hd).
  - destruct (dict_get k (_quarantine s)) as [hd|] eqn:G'; [|done].
    destruct (kept e (k, hd)) eqn:K; [by rewrite (dict_get_filter _ _ hd) in G|].
    unfold kept in K. simpl in K. apply negb_false_iff, Z.leb_le in K. symmetry. apply Z.ltb_ge. lia.
Qed.

(** Clocks that never go back and a file system that works *)
Fixpoint steady (W : Z) h : bool :=
  match h with
  | [] => true
  | (e, _) :: h => (W <=? _wall e) && io_ok e && steady (_wall e) h
  end.

Lemma mirrored_run W h e o s :
  steady W (h ++ [(e, o)]) = true → mirrored W s → mirrored (_wall e) (run h s) ∧ io_ok e = true.
Proof.
  revert W s. induction h as [|[e0 o0] h IH]; intros W s; simpl;
    rewrite !andb_true_iff, Z.leb_le; intros [[HW Hio] Hh] Hm.
  - split; [by apply (mirrored_le W)|done].
  - apply (IH _ _ Hh). apply mirrored_perform; [done|]. by apply (mirrored_le W).
Qed.
End restarts.

(** C20: A restart inherits the switch.  In any history with a wall clock that does not
    go back, a file system that works and a ceiling of the holds that is not negative, a new
    process started over the file resumes the switch of the old one when its budget has not
    run out: same target, window and kind of switch, again in its first phase, in which the
    box drains and takes no claims, and exactly the budget that was left; a box that was in
    service, or whose switch is past its deadline, comes up in service; and the same kinds
    are held back. *)
Theorem restart_inherits_the_switch `{SwitchConfig} (h : list (env * op)) (e : env) (W : Z) :
  has_path = true → 0 ≤ _quarantine_max_s → steady W (h ++ [(e, NewProcess)]) = true →
  let s := run h (fresh NoFile) in
  let s' := construct e (_file s) in
  (_state s = IDLE ∨ _remaining_locked e s ≤ 0 → _state s' = IDLE) ∧
  (_state s ≠ IDLE → 0 < _remaining_locked e s →
     _state s' = DRAINING ∧ _target s' = _target s ∧ _target_context s' = _target_context s ∧
     _resize s' = _resize s ∧ remaining_budget_s e s' = remaining_budget_s e s) ∧
  (∀ k, quarantined e k s' = quarantined e k s).
Proof.
  intros Hp Hmax Hst s s'.
  destruct (mirrored_run Hp W h e NewProcess (fresh NoFile) Hst) as [Hm Hio].
  { split_and!; [apply sound_idle; [constructor|done]|done..]. }
  fold s in Hm. destruct (mirrored_construct Hp e s Hio Hm) as (Hm' & Hq & Hst').
  fold s' in Hm', Hq, Hst'. split_and!.
  - intros [E|E]; [by rewrite E in Hst'|]. apply Z.ltb_ge in E. rewrite E in Hst'.
    by destruct (_state s).
  - intros Hne Hrem. apply Z.ltb_lt in Hrem. rewrite Hrem in Hst'.
    assert (_state s' = DRAINING ∧ current s' = current s) as [E Ec] by by destruct (_state s).
    destruct Hm' as [[_ Hs'] _]. destruct Hs' as (t' & w' & Ht' & _ & Hw' & _); [by rewrite E|].
    destruct Hm as [[_ Hs] _]. destruct (Hs Hne) as (t & w & Ht & _ & Hw & _).
    unfold current in Ec. rewrite E, Ht, Hw, Ht', Hw' in Ec.
    unfold remaining_budget_s, _remaining_locked. rewrite E, Hw, Hw', Ht, Ht'.
    destruct (_state s); [done|..]; simplify_eq/=; split_and!; congruence.
  - intros k. destruct Hm as [[Hd _] _]. by apply quarantined_pruned.
Qed.

(** ** Witnesses *)

Module ExampleSwitch.
#[export] Instance defaults : SwitchConfig := {|
  _drain_timeout_s := 3600 * SECOND;
  _unload_timeout_s := 300 * SECOND;
  _warm_timeout_s := 1800 * SECOND;
  _retry_every_s := 30 * SECOND;
  _start_ack_timeout_s := 300 * SECOND;
  _quarantine_s := 900 * SECOND;
  _quarantine_max_s := 14400 * SECOND;
  _persist_path := Some "/var/lease/switch.json";
|}.
Definition at_s (n : Z) : env := mkEnv (n * SECOND) ((1000000 + n) * SECOND) true.
Definition to_vllm : env * op := (at_s 10, Request "vllm" (Some 32768) false).
Definition warming : list (env * op) :=
  [to_vllm; (at_s 20, Tick 1 true false); (at_s 40, Tick 0 true false); (at_s 50, Tick 0 false false)].
End ExampleSwitch.
Import ExampleSwitch.

(** The whole run of a switch that works *)
Example switch_completes :
  tick (at_s 700) 0 false true (run warming (fresh NoFile)) =
    ([DONE], fresh NoFile) ∧
  (tick (at_s 50) 0 false false (run (take 3 warming) (fresh NoFile))).1 = [START_INCOMING].
Proof. by vm_compute. Qed.

Lemma claims_blocked_only_within_a_budget_witness :
  let s := run warming (fresh NoFile) in
  (blocks_claims (at_s 700) s).1 = true ∧
  ∃ w, w ∈ granted warming (fresh NoFile) ∧ _requested_wall s = Some w ∧
    _wall (at_s 700) - w < _budget_total.
Proof.
  split; [by vm_compute|].
  apply (claims_blocked_only_within_a_budget warming (at_s 700)). by vm_compute.
Defined.

Definition on_box (eo : env * op) : env * box_op :=
  match eo with
  | (e, Tick _ out ready) => (e, Drive out ready)
  | (e, o) => (e, Other o)
  end.

Lemma start_only_on_a_drained_box_witness :
  let h := [on_box to_vllm; (at_s 20, Claim); (at_s 30, Finish); (at_s 40, Drive true false)] in
  let b := box_run h (mkBox (fresh NoFile) 1) in
  START_INCOMING ∈ (box_step (at_s 50) (Drive false false) b).1 ∧ b_running b = 0.
Proof.
  intros h b.
  assert (START_INCOMING ∈ (box_step (at_s 50) (Drive false false) b).1) as Hin
    by (vm_compute; left).
  split; [exact Hin|].
  refine (proj1 (start_only_on_a_drained_box h [] (at_s 50) false false 1 _ Hin)). lia.
Defined.

Lemma no_phase_outlives_its_budget_witness :
  let s := run warming (fresh NoFile) in
  _state s = WARMING ∧ _state (tick (at_s 1850) 0 false false s).2 = IDLE.
Proof.
  assert (_state (run warming (fresh NoFile)) = WARMING) as E by by vm_compute.
  split; [exact E|].
  destruct (no_phase_outlives_its_budget (at_s 1850) 0 false false (run warming (fresh NoFile)))
    as [H _]; [by rewrite E|].
  destruct H as [H|[H _]]; [by vm_compute|exact H|by vm_compute in H].
Defined.

Lemma failed_starts_are_held_back_witness :
  let s := run warming (fresh NoFile) in
  let s' := (report (at_s 60) (mkOutcome PERMANENT "no such container") s).2 in
  _state s' = IDLE ∧ (request (at_s 900) "vllm" None (_resize s) s').1 = false.
Proof.
  intros s s'.
  destruct (failed_starts_are_held_back (at_s 60) (at_s 900)
    (mkOutcome PERMANENT "no such container") s "vllm" 0) as (_ & Hi & Hq & _);
    [by vm_compute|by vm_compute|done|done|done|done|done|by vm_compute|].
  split; [exact Hi|]. refine (proj1 (Hq _ None)). by vm_compute.
Defined.

Lemma restart_inherits_the_switch_witness :
  let s := run warming (fresh NoFile) in
  let s' := construct (at_s 100) (_file s) in
  _state s' = DRAINING ∧ _target s' = Some "vllm" ∧ remaining_budget_s (at_s 100) s' = 5610 * SECOND.
Proof.
  intros s s'.
  destruct (restart_inherits_the_switch warming (at_s 100) 0) as (_ & H & _);
    [by vm_compute|by vm_compute|by vm_compute|].
  destruct H as (H1 & H2 & _ & _ & H3); [by vm_compute|by vm_compute|].
  split_and!; [exact H1|unfold s'; etransitivity; [exact H2|by vm_compute]|].
  unfold s', s. etransitivity; [exact H3|by vm_compute].
Defined.
