(* ===== verification/ModelLease.v ===== *)
(** * One model per gpu box ([queue_workflows/gpu_model_lease.py])

    Several workers, of several projects, share the memory of one box.  A worker
    acquires the box's lease for a model before it loads it; the lease is a small
    file every worker of the box can lock.  This file has the pure decision, the
    stores, the lease object, the keys of occupants that are not models, and the
    admission of a claimed job with the brake on a box that was denied
    ([claim_worker.py]).

    Instants are integers.  The store is what is on disk; that the lock stayed taken
    for the whole bounded wait is an argument of the update ([contended]). *)

From S2P Require Import Prelude Json Schema NodeQueue Claim WorkerLanes.
Local Open Scope Z_scope.

(** ** The keys of a box *)

Definition LLM_SERVER_SLOT : string := "__llm_server__".
Definition COMFYUI_SERVER_SLOT : string := "__comfyui_server__".
Definition CLUSTER_RESERVATION_SLOT : string := "__cluster_reservation__".
Definition SELF_MANAGED_SLOT_PREFIX : string := "__gpu__:".
Definition SWITCH_SLOT : string := "__server_switch__".
Definition DEFAULT_TTL_S : Z := 120.

Definition self_managed_slot (module : string) : string := SELF_MANAGED_SLOT_PREFIX +:+ module.

Definition describe_slot (slot : option string) : string :=
  match slot with
  | None => "idle"
  | Some slot =>
      if negb (PyStr.truthy slot) then "idle"
      else if String.eqb slot LLM_SERVER_SLOT then "LLM server"
      else if String.eqb slot COMFYUI_SERVER_SLOT then "ComfyUI render"
      else if String.eqb slot CLUSTER_RESERVATION_SLOT then "cluster reservation"
      else if PyStr.startswith SELF_MANAGED_SLOT_PREFIX slot
      then "GPU job: " +:+ PyStr.removeprefix SELF_MANAGED_SLOT_PREFIX slot
      else slot
  end.

(** [s.endswith(p)] *)
Definition endswith (p s : string) : bool := String.prefix (String.rev p) (String.rev s).

Definition is_sentinel_slot (slot : option string) : bool :=
  match slot with
  | None => false
  | Some text =>
      if negb (PyStr.truthy text) then false
      else PyStr.startswith SELF_MANAGED_SLOT_PREFIX text ||
           (PyStr.startswith "__" text && endswith "__" text)
  end.

Definition is_llm_slot (slot : option string) : bool :=
  match slot with Some s => String.eqb s LLM_SERVER_SLOT | None => false end.

(** ** The decision *)

(** The resident model and who holds it until when *)
Record LeaseState := mkLease { l_model : option string; l_holders : list (string * Z) }.
Definition empty_lease : LeaseState := mkLease None [].

Definition live_at (now : Z) (kv : string * Z) : bool := now <? kv.2.
Definition not_holder (holder : string) (kv : string * Z) : bool := negb (String.eqb kv.1 holder).

Definition holds_model (state : LeaseState) (model_id : string) : bool :=
  match l_model state with Some m => String.eqb m model_id | None => false end.

Definition decide (state : LeaseState) (model_id holder : string) (now ttl_s : Z) : bool * LeaseState :=
  let live := List.filter (live_at now) (l_holders state) in
  let others := List.filter (not_holder holder) live in
  let same := holds_model state model_id in
  if same || match others with [] => true | _ => false end
  then (true, mkLease (Some model_id) (dict_set holder (now + ttl_s) (if same then live else [])))
  else (false, mkLease (l_model state) live).

Definition release_state (state : LeaseState) (holder : string) : LeaseState :=
  let holders := List.filter (not_holder holder) (l_holders state) in
  mkLease (match holders with [] => None | _ => l_model state end) holders.

(** ** The stores *)

(** A lease file: blank, not JSON, or the document [update] writes *)
Inductive body :=
  | Blank
  | Unparsable
  | Document (model : option string) (holders : list (string * Z)).

Definition parse_body (b : option body) : LeaseState :=
  match b with Some (Document m hs) => mkLease m hs | _ => empty_lease end.

Inductive store := NullLeaseStore | FileLeaseStore (directory : string).
(** Paths and what they hold *)
Abbreviation disk := (list (string * body)).

Definition is_alnum (c : ascii) : bool :=
  let n := N_of_ascii c in
  PyStr.is_digit c || ((65 <=? n)%N && (n <=? 90)%N) || ((97 <=? n)%N && (n <=? 122)%N).
Definition safe_char (c : ascii) : ascii :=
  if is_alnum c || Ascii.eqb c "-" || Ascii.eqb c "_" || Ascii.eqb c "." then c else "_".
Fixpoint safe_name (s : string) : string :=
  match s with
  | EmptyString => EmptyString
  | String c r => String (safe_char c) (safe_name r)
  end.
Definition _path (directory box_id : string) : string :=
  directory +:+ "/gpu_model_lease_" +:+ safe_name box_id +:+ ".json".

Definition read (st : store) (box_id : string) (fs : disk) : LeaseState :=
  match st with
  | NullLeaseStore => empty_lease
  | FileLeaseStore dir => parse_body (dict_get (_path dir box_id) fs)
  end.

Definition LeaseContended : exc := OtherError "LeaseContended".

(** The atomic read-modify-write; opening the file creates it *)
Definition update {A} (st : store) (box_id : string) (contended : bool)
    (fn : LeaseState → A * LeaseState) (fs : disk) : result A * disk :=
  match st with
  | NullLeaseStore => (Ok (fn empty_lease).1, fs)
  | FileLeaseStore dir =>
      let path := _path dir box_id in
      let fs := if dict_has path fs then fs else dict_set path Blank fs in
      if contended then (Raise LeaseContended, fs)
      else let '(res, new) := fn (parse_body (dict_get path fs)) in
           (Ok res, dict_set path (Document (l_model new) (l_holders new)) fs)
  end.

(** ** The lease *)

Record ModelLease := mkModelLease {
  box_id : string;
  lease_store : store;
  lease_holder : string;
  ttl_s : Z;
}.

Definition enforcing (l : ModelLease) : bool :=
  match lease_store l with NullLeaseStore => false | _ => true end.

Definition current (l : ModelLease) (fs : disk) : LeaseState := read (lease_store l) (box_id l) fs.

Definition acquire (l : ModelLease) (now : Z) (contended : bool) (model_id : string) (fs : disk)
    : bool * disk :=
  let '(r, fs) := update (lease_store l) (box_id l) contended
    (λ state, decide state model_id (lease_holder l) now (ttl_s l)) fs in
  (match r with Ok granted => granted | Raise _ => false end, fs).

Definition ModelLeaseDenied : exc := RuntimeError "ModelLeaseDenied".
Definition acquire_or_raise (l : ModelLease) (now : Z) (contended : bool) (model_id : string) (fs : disk)
    : result () * disk :=
  let '(granted, fs) := acquire l now contended model_id fs in
  (if granted then Ok () else Raise ModelLeaseDenied, fs).

Definition renew := acquire.

Definition release (l : ModelLease) (contended : bool) (fs : disk) : disk :=
  (update (lease_store l) (box_id l) contended (λ state, ((), release_state state (lease_holder l))) fs).2.

(** [(env_get(name) or configured or "").strip()] *)
Definition setting `{WorkerEnv} (name : string) (configured : option string) : result string :=
  raw ← env_get name None;
  Ok (PyStr.strip (match or_none raw with
                   | Some s => s
                   | None => default "" (or_none configured)
                   end)).

Definition default_box_id `{WorkerEnv} (gpu_box_id : option string) (hostname : string) : result string :=
  s ← setting "QUEUE_WORKFLOWS_GPU_BOX_ID" gpu_box_id;
  Ok (if PyStr.truthy s then s else hostname).

(** The store [build_lease] settles on *)
Definition build_store `{WorkerEnv} (configured : option store) (lease_dir : option string) : result store :=
  dir ← setting "QUEUE_WORKFLOWS_GPU_MODEL_LEASE_DIR" lease_dir;
  Ok (match configured with
      | Some st => st
      | None => if PyStr.truthy dir then FileLeaseStore dir else NullLeaseStore
      end).

(** ** Admission of a claimed job ([claim_worker.py]) *)

(** What the host configured of a gpu worker: the modules that bring their own
    occupant, and whether the box serves ComfyUI (a lifecycle wired, or a URL) *)
Class BoxConfig := {
  gpu_self_load_node_modules : list string;
  comfyui_url : option string;
  comfyui_lifecycle : bool;
}.

Definition _box_serves_comfyui `{WorkerEnv} `{BoxConfig} : result bool :=
  url ← setting "QUEUE_WORKFLOWS_COMFYUI_URL" comfyui_url;
  Ok (PyStr.truthy url || comfyui_lifecycle).

Definition _job_serves_llm (j : node_job) : bool :=
  let kinds := default "" (resolved_server j) :: default [] (server_types j) in
  existsb (λ k, let k := PyStr.lower (PyStr.strip k) in String.eqb k "ollama" || String.eqb k "vllm") kinds.

(** What occupies the card while a job runs *)
Definition _effective_gpu_model `{WorkerEnv} `{BoxConfig} (j : node_job) : result string :=
  if is_cluster_reservation j then Ok CLUSTER_RESERVATION_SLOT
  else match or_none (required_model j) with
  | Some required => Ok required
  | None =>
      let module := PyStr.strip (node_module j) in
      if PyStr.truthy module && bool_decide (module ∈ gpu_self_load_node_modules)
      then Ok (self_managed_slot module)
      else if _job_serves_llm j then Ok LLM_SERVER_SLOT
      else comfy ← _box_serves_comfyui;
           Ok (if (comfy : bool) then COMFYUI_SERVER_SLOT else LLM_SERVER_SLOT)
  end.

Definition SPILL_PAUSE_S : Z := 1.
Definition SPILL_PAUSE_MAX_S : Z := 30.

(** What a worker remembers of its box *)
Record admission := mkAdmission {
  _spill_streak : Z;
  _spill_pause_until : Z;
  _box_held_model : option string;
  _box_active_jobs : Z;
}.

Definition _spill_paused (clock : Z) (a : admission) : bool := clock <? _spill_pause_until a.

(** The bookkeeping of a granted acquire.  Whether the card's other occupant gives
    its memory back is a request to the LLM server, not state of the worker. *)
Definition _box_acquire_granted (model : string) (a : admission) : admission :=
  mkAdmission 0 0 (Some model) (_box_active_jobs a + 1).

Definition spill_pause (streak : Z) : Z :=
  Z.min (SPILL_PAUSE_S * 2 ^ Z.min streak 8) SPILL_PAUSE_MAX_S.

(** Granted: run.  Denied: pause this box's claims, give the row back, do not run. *)
Definition _acquire_box_or_spill (l : ModelLease) (now clock : Z) (contended : bool)
    (model : string) (job_id : string) (a : admission) (fs : disk) : bool * admission * disk * M () :=
  let '(granted, fs) := acquire l now contended model fs in
  if granted then (true, _box_acquire_granted model a, fs, mret ())
  else
    let a := mkAdmission (_spill_streak a + 1) (clock + spill_pause (_spill_streak a))
               (_box_held_model a) (_box_active_jobs a) in
    (false, a, fs, try_except (requeue_job_for_retry job_id ≫= λ _, mret ()) (λ _, Some (mret ()))).

Definition _box_job_done (a : admission) : admission :=
  mkAdmission (_spill_streak a) (_spill_pause_until a) (_box_held_model a)
    (if 0 <? _box_active_jobs a then _box_active_jobs a - 1 else _box_active_jobs a).

(** The lease part of a heartbeat tick: renewed while a job runs or the model stays
    on the card, left to the switch while one is under way, given back otherwise *)
Definition box_lease_tick (l : ModelLease) (now : Z) (contended switching resident : bool)
    (a : admission) (fs : disk) : admission * disk :=
  if switching then (a, fs)
  else match or_none (_box_held_model a) with
  | None => (a, fs)
  | Some held =>
      if (0 <? _box_active_jobs a) || resident then (a, (renew l now contended held fs).2)
      else (mkAdmission (_spill_streak a) (_spill_pause_until a) None (_box_active_jobs a),
            release l contended fs)
  end.

(** ** Many workers on one box

    A worker believes it may keep its model until the expiry of its last granted
    acquire, or until it releases.  An event is one call of one worker: it takes
    effect at [ev_at] with a clock the worker read no later. *)

Record event := mkEvent {
  ev_at : Z;
  ev_read : Z;
  ev_contended : bool;
  ev_holder : string;
  ev_ttl : Z;
  ev_ask : option string;   (* acquire a model, or release *)
}.

Abbreviation beliefs := (list (string * (string * Z))).

Section one_box.
Context (dir box : string).

Definition lease_of (ev : event) : ModelLease :=
  mkModelLease box (FileLeaseStore dir) (ev_holder ev) (ev_ttl ev).

Definition lease_step (ev : event) (s : disk * beliefs) : disk * beliefs :=
  match ev_ask ev with
  | Some m =>
      let '(granted, fs) := acquire (lease_of ev) (ev_read ev) (ev_contended ev) m s.1 in
      (fs, if granted then dict_set (ev_holder ev) (m, ev_read ev + ev_ttl ev) s.2 else s.2)
  | None => (release (lease_of ev) (ev_contended ev) s.1, dict_pop (ev_holder ev) s.2)
  end.
Definition lease_run (evs : list event) (s : disk * beliefs) : disk * beliefs :=
  foldl (λ s ev, lease_step ev s) s evs.

(** Events in the order they take effect *)
Fixpoint in_order (t : Z) (evs : list event) : bool :=
  match evs with
  | [] => true
  | ev :: evs => (t <=? ev_at ev) && (ev_read ev <=? ev_at ev) && in_order (ev_at ev) evs
  end.
Definition end_time (t : Z) (evs : list event) : Z := foldl (λ _ ev, ev_at ev) t evs.

Definition believes (s : disk * beliefs) (t : Z) (h m : string) : Prop :=
  ∃ e, dict_get h s.2 = Some (m, e) ∧ t < e.

(** Every belief still live is in the file. *)
Definition recorded (t : Z) (s : disk * beliefs) : Prop :=
  ∀ h m e, dict_get h s.2 = Some (m, e) → t < e →
    let S := parse_body (dict_get (_path dir box) s.1) in
    l_model S = Some m ∧ (h, e) ∈ l_holders S.

Lemma elem_of_dict_set_ne {V} k k' (v v' : V) d :
  k ≠ k' → (k', v') ∈ d → (k', v') ∈ dict_set k v d.
Proof.
  intros Hne. induction d as [|[j u] d IH]; cbn; [set_solver|].
  destruct (String.eqb_spec k j) as [->|Hkj]; set_solver.
Qed.
Lemma elem_of_dict_set_eq {V} k (v : V) d : (k, v) ∈ dict_set k v d.
Proof. apply dict_get_elem, dict_get_set_eq. Qed.

Lemma update_file {A} contended (fn : LeaseState → A * LeaseState) fs :
  let S := parse_body (dict_get (_path dir box) fs) in
  let '(r, fs') := update (FileLeaseStore dir) box contended fn fs in
  let S' := parse_body (dict_get (_path dir box) fs') in
  if contended then r = Raise LeaseContended ∧ S' = S
  else r = Ok (fn S).1 ∧ S' = (fn S).2.
Proof.
  simpl. set (path := _path dir box).
  assert (parse_body (dict_get path (if dict_has path fs then fs else dict_set path Blank fs)) =
          parse_body (dict_get path fs)) as E.
  { unfold dict_has. destruct (dict_get path fs) eqn:G; simpl; [by rewrite G|].
    by rewrite dict_get_set_eq. }
  destruct contended; [done|]. rewrite E.
  destruct (fn _) as [res new]. rewrite dict_get_set_eq. by destruct new.
Qed.

(** The decision keeps every other live holder of the model it leaves in place. *)
Lemma decide_keeps S m h now ttl h' e :
  h' ≠ h → now < e → (h', e) ∈ l_holders S →
  let '(granted, S') := decide S m h now ttl in
  (h', e) ∈ l_holders S' ∧ l_model S' = l_model S ∧ (granted = true → l_model S = Some m).
Proof.
  intros Hne He Hin. unfold decide.
  assert ((h', e) ∈ List.filter (live_at now) (l_holders S)) as Hl
    by (apply elem_of_Lfilter; split; [done|]; by apply Z.ltb_lt).
  destruct (holds_model S m) eqn:Hm; simpl.
  - unfold holds_model in Hm. destruct (l_model S) as [m'|]; [|done]. apply String.eqb_eq in Hm as ->.
    split_and!; [by apply elem_of_dict_set_ne|done..].
  - destruct (List.filter (not_holder h) _) eqn:F; [|done]. exfalso.
    assert ((h', e) ∈ List.filter (not_holder h) (List.filter (live_at now) (l_holders S))) as Hin'.
    { apply elem_of_Lfilter. split; [done|]. by apply negb_true_iff, String.eqb_neq. }
    rewrite F in Hin'. set_solver.
Qed.

Lemma decide_grants S m h now ttl :
  let '(granted, S') := decide S m h now ttl in
  granted = true → l_model S' = Some m ∧ (h, now + ttl) ∈ l_holders S'.
Proof.
  unfold decide. destruct (_ || _); simpl; [|done]. intros _. split; [done|]. apply elem_of_dict_set_eq.
Qed.

(** A denial drops dead holders only. *)
Lemma decide_denies S m h now ttl h' e :
  (decide S m h now ttl).1 = false → now < e → (h', e) ∈ l_holders S →
  let S' := (decide S m h now ttl).2 in (h', e) ∈ l_holders S' ∧ l_model S' = l_model S.
Proof.
  unfold decide. destruct (_ || _); simpl; [done|]. intros _ He Hin.
  split; [|done]. apply elem_of_Lfilter. split; [done|]. by apply Z.ltb_lt.
Qed.

Lemma recorded_step t ev s :
  t ≤ ev_at ev → ev_read ev ≤ ev_at ev → recorded t s → recorded (ev_at ev) (lease_step ev s).
Proof.
  intros Ht Hr Hrec h m e. unfold lease_step. destruct (ev_ask ev) as [ask|].
  - pose proof (update_file (ev_contended ev)
      (λ state, decide state ask (ev_holder ev) (ev_read ev) (ev_ttl ev)) s.1) as Hu.
    unfold acquire. simpl lease_store. simpl box_id. simpl lease_holder. simpl ttl_s.
    destruct (update _ _ _ _ _) as [r fs']. simpl. cbv zeta in Hu.
    set (S := parse_body (dict_get _ s.1)) in *.
    pose proof (decide_grants S ask (ev_holder ev) (ev_read ev) (ev_ttl ev)) as Hg.
    pose proof (decide_denies S ask (ev_holder ev) (ev_read ev) (ev_ttl ev) h e) as Hd.
    pose proof (decide_keeps S ask (ev_holder ev) (ev_read ev) (ev_ttl ev) h e) as Hk.
    destruct (ev_contended ev).
    { destruct Hu as [-> ->]. intros Hb He. apply Hrec; [done|lia]. }
    destruct Hu as [-> ->]. destruct (decide _ _ _ _ _) as [[] S']; simpl in *; intros Hb He.
    + destruct (base.decide (h = ev_holder ev)) as [->|Hne].
      * rewrite dict_get_set_eq in Hb. simplify_eq. auto.
      * rewrite dict_get_set_ne in Hb by done. destruct (Hrec h m e Hb) as [Hm Hin]; [lia|].
        destruct Hk as (? & E & Hs); [done|lia|done|]. rewrite E. done.
    + destruct (Hrec h m e Hb) as [Hm Hin]; [lia|]. destruct Hd as [? E]; [done|lia|done|].
      by rewrite E.
  - pose proof (update_file (ev_contended ev) (λ state, ((), release_state state (ev_holder ev))) s.1) as Hu.
    unfold release. simpl lease_store. simpl box_id. simpl lease_holder.
    destruct (update _ _ _ _ _) as [r fs']. simpl. cbv zeta in Hu. intros Hb He.
    assert (h ≠ ev_holder ev) as Hne by (intros ->; by rewrite dict_get_pop_eq in Hb).
    rewrite dict_get_pop_ne in Hb by done. destruct (Hrec h m e Hb) as [Hm Hin]; [lia|].
    destruct (ev_contended ev); destruct Hu as [_ ->]; [done|]. simpl.
    assert ((h, e) ∈ List.filter (not_holder (ev_holder ev))
              (l_holders (parse_body (dict_get (_path dir box) s.1)))) as Hf.
    { apply elem_of_Lfilter. split; [done|]. by apply negb_true_iff, String.eqb_neq. }
    split; [|done]. destruct (List.filter _ _); [set_solver|done].
Qed.

Lemma recorded_run t evs s :
  in_order t evs = true → recorded t s → recorded (end_time t evs) (lease_run evs s).
Proof.
  revert t s. induction evs as [|ev evs IH]; intros t s; simpl; [done|].
  rewrite !andb_true_iff, !Z.leb_le. intros [[Ht Hr] Ho] Hs. apply IH; [done|].
  by apply (recorded_step t).
Qed.
End one_box.

(** C22: One model per box, across all the workers and projects that share it.  Over any
    sequence of acquires, renewals and releases in any interleaving, from any content
    of the file, with lock waits and lost locks, two workers whose leases are both
    alive hold the same model. *)
Theorem one_model_per_box (dir box : string) (fs : disk) (evs : list event) (t0 t : Z) (h1 h2 m1 m2 : string) :
  in_order t0 evs = true → end_time t0 evs ≤ t →
  let s := lease_run dir box evs (fs, []) in
  believes s t h1 m1 → believes s t h2 m2 → m1 = m2.
Proof.
  intros Ho Ht s (e1 & H1 & L1) (e2 & H2 & L2).
  assert (recorded dir box (end_time t0 evs) s) as Hs by by apply recorded_run.
  destruct (Hs h1 m1 e1 H1) as [E1 _]; [lia|]. destruct (Hs h2 m2 e2 H2) as [E2 _]; [lia|]. congruence.
Qed.

Section acquire_props.
Implicit Types (l : ModelLease) (fs : disk).

(** A live holder other than the asker *)
Definition live_other (S : LeaseState) (holder : string) (now : Z) (kv : string * Z) : Prop :=
  kv ∈ l_holders S ∧ kv.1 ≠ holder ∧ now < kv.2.

Lemma decide_exact S m h now ttl :
  (decide S m h now ttl).1 = true ↔ l_model S = Some m ∨ (∀ kv, ~ live_other S h now kv).
Proof.
  unfold decide, holds_model.
  assert (List.filter (not_holder h) (List.filter (live_at now) (l_holders S)) = [] ↔
          (∀ kv, ~ live_other S h now kv)) as Hothers.
  { split.
    - intros E [k e] (Hin & Hne & Hlt). cut ((k, e) ∈ ([] : list (string * Z))); [set_solver|].
      rewrite <- E. rewrite !elem_of_Lfilter. split_and!; [done|by apply Z.ltb_lt|].
      by apply negb_true_iff, String.eqb_neq.
    - intros Hno. apply Lfilter_none. intros [k e] [Hin Hlt]%elem_of_Lfilter.
      apply negb_false_iff, String.eqb_eq. apply Z.ltb_lt in Hlt. simpl in *.
      destruct (String.eqb_spec k h); [done|]. exfalso. by apply (Hno (k, e)). }
  rewrite <- Hothers. destruct (List.filter (not_holder h) _) eqn:F.
  - rewrite orb_true_r. simpl. tauto.
  - rewrite orb_false_r. destruct (l_model S) as [m'|]; simpl.
    + destruct (String.eqb_spec m' m) as [->|Hne]; simpl; [tauto|].
      split; [done|]. intros [E|E]; simplify_eq.
    + split; [done|]. intros [E|E]; simplify_eq.
Qed.

(** The lease does not tell apart the jobs of one worker: a holder that is alone on the
    box may take it for another model while its first lease is alive. *)
Lemma own_lease_does_not_exclude S h m now ttl :
  (∀ kv, kv ∈ l_holders S → kv.1 = h) → (decide S m h now ttl).1 = true.
Proof. intros Hown. apply decide_exact. right. intros kv (Hin & Hne & _). by apply Hne, Hown. Qed.

Lemma acquire_spec l now contended m fs :
  (acquire l now contended m fs).1 =
  match lease_store l with
  | NullLeaseStore => true
  | FileLeaseStore _ => negb contended && (decide (current l fs) m (lease_holder l) now (ttl_s l)).1
  end.
Proof.
  unfold acquire, current, read. destruct (lease_store l) as [|dir]; [done|].
  pose proof (update_file dir (box_id l) contended
    (λ state, decide state m (lease_holder l) now (ttl_s l)) fs) as Hu.
  destruct (update _ _ _ _ _) as [r fs']. cbv zeta in Hu.
  destruct contended; destruct Hu as [-> _]; done.
Qed.
End acquire_props.

(** The lease is denied exactly to protect a live holder, and a dead worker holds no
    memory hostage: with a store configured, an acquire that gets the lock is granted
    if and only if the box's model is the one asked for, or no other holder's lease is
    alive; without a store it is always granted. *)
Lemma lease_denied_only_for_a_live_holder (l : ModelLease) (now : Z) (contended : bool) (m : string) (fs : disk) :
  (acquire l now contended m fs).1 = true ↔
  enforcing l = false ∨
  (contended = false ∧
   (l_model (current l fs) = Some m ∨ ∀ kv, ~ live_other (current l fs) (lease_holder l) now kv)).
Proof.
  rewrite acquire_spec. unfold enforcing. destruct (lease_store l) eqn:E; [tauto|].
  rewrite andb_true_iff, negb_true_iff, decide_exact. naive_solver.
Qed.

(** ** Occupants *)

Section occupants.
Context `{WorkerEnv} `{BoxConfig}.

(** Only a reservation takes the reservation's slot. *)
Lemma effective_model_reservation j k :
  _effective_gpu_model j = Ok k → is_cluster_reservation j = false →
  required_model j ≠ Some CLUSTER_RESERVATION_SLOT → k ≠ CLUSTER_RESERVATION_SLOT.
Proof.
  unfold _effective_gpu_model. intros E Hres Hr ->. rewrite Hres in E.
  unfold or_none in E. destruct (required_model j) as [r|].
  { destruct (PyStr.truthy r); [|]; [congruence|].
    destruct (_ && _); [done|]. destruct (_job_serves_llm j); [done|].
    destruct _box_serves_comfyui as [[]|]; done. }
  destruct (_ && _); [done|]. destruct (_job_serves_llm j); [done|].
  destruct _box_serves_comfyui as [[]|]; done.
Qed.
End occupants.

(** A claimed job is admitted to its box, or gives way.  A granted acquire lifts the
    brake and counts the job; a denied one runs nothing, gives the row back for another
    box, and stops this worker's gpu claims for a pause that doubles with every denial
    in a row, from one second up to thirty. *)
Lemma admission_grants_or_spills (l : ModelLease) (now clock : Z) (contended : bool)
    (model job_id : string) (a : admission) (fs : disk) :
  0 ≤ _spill_streak a →
  let '(granted, a', fs', io) := _acquire_box_or_spill l now clock contended model job_id a fs in
  granted = (acquire l now contended model fs).1 ∧ fs' = (acquire l now contended model fs).2 ∧
  if granted
  then _spill_streak a' = 0 ∧ (∀ c, 0 ≤ c → _spill_paused c a' = false) ∧
       _box_held_model a' = Some model ∧ _box_active_jobs a' = _box_active_jobs a + 1 ∧
       io = mret ()
  else _box_active_jobs a' = _box_active_jobs a ∧ _spill_streak a' = _spill_streak a + 1 ∧
       (∀ c, _spill_paused c a' = (c <? clock + spill_pause (_spill_streak a))) ∧
       1 ≤ spill_pause (_spill_streak a) ≤ 30 ∧
       (_spill_streak a < 5 → spill_pause (_spill_streak a) = 2 ^ _spill_streak a) ∧
       (∀ w, (io w).1 = Ok () ∧ (io w).2 = (requeue_job_for_retry job_id w).2).
Proof.
  intros Hst. unfold _acquire_box_or_spill.
  destruct (acquire l now contended model fs) as [[] fs'] eqn:E; simpl.
  { split_and!; try done. intros c Hc. by apply Z.ltb_ge. }
  split_and!; try done; unfold spill_pause, SPILL_PAUSE_S, SPILL_PAUSE_MAX_S.
  - assert (0 < 2 ^ Z.min (_spill_streak a) 8) by (apply Z.pow_pos_nonneg; lia). lia.
  - lia.
  - intros Hlt. rewrite (Z.min_l _ 8) by lia.
    assert (2 ^ _spill_streak a ≤ 2 ^ 4) by (apply Z.pow_le_mono_r; lia). lia.
Qed.

(** ** Witnesses *)

Module ExampleLease.
Definition ask (t : Z) (h : string) (m : option string) : event := mkEvent t t false h 120 m.
(** A worker shares its model, another project is denied, the model changes hands when
    the first two are gone *)
Definition day : list event :=
  [ask 0 "a:1" (Some "flux"); ask 10 "b:1" (Some "flux"); ask 20 "c:1" (Some "wan");
   ask 30 "a:1" None; ask 131 "c:1" (Some "wan"); ask 140 "b:1" (Some "flux")].
Definition worker : ModelLease := mkModelLease "box-a" (FileLeaseStore "/lease") "c:1" 120.
End ExampleLease.
Import ExampleLease.

Lemma one_model_per_box_witness :
  let s := lease_run "/lease" "box-a" (take 2 day) ([], []) in
  believes s 15 "a:1" "flux" ∧ believes s 15 "b:1" "flux" ∧ "flux" = "flux".
Proof.
  assert (believes (lease_run "/lease" "box-a" (take 2 day) ([], [])) 15 "a:1" "flux") as H1
    by (exists 120; by vm_compute).
  assert (believes (lease_run "/lease" "box-a" (take 2 day) ([], [])) 15 "b:1" "flux") as H2
    by (exists 130; by vm_compute).
  split_and!; [exact H1|exact H2|].
  apply (one_model_per_box "/lease" "box-a" [] (take 2 day) 0 15 "a:1" "b:1"); [by vm_compute..|exact H1|exact H2].
Defined.

Lemma admission_grants_or_spills_witness :
  let fs := (lease_run "/lease" "box-a" (take 2 day) ([], [])).1 in
  let r := _acquire_box_or_spill worker 20 20 false "wan" "j1" (mkAdmission 3 0 None 0) fs in
  r.1.1.1 = false ∧ _spill_paused 27 r.1.1.2 = true ∧ _spill_paused 28 r.1.1.2 = false.
Proof.
  pose proof (admission_grants_or_spills worker 20 20 false "wan" "j1" (mkAdmission 3 0 None 0)
    (lease_run "/lease" "box-a" (take 2 day) ([], [])).1 ltac:(simpl; lia)) as H.
  cbv zeta. destruct (_acquire_box_or_spill _ _ _ _ _ _ _ _) as [[[granted a'] fs'] io].
  destruct H as (Hg & _ & H). simpl.
  assert (granted = false) as Eg by (etransitivity; [exact Hg|by vm_compute]).
  clear Hg. subst granted. destruct H as (_ & _ & Hp & _).
  split; [reflexivity|]. split; rewrite Hp; by vm_compute.
Defined.
