(* ===== verification/Catalog.v ===== *)
(** * Which box serves which model
      ([queue_workflows/model_catalog.py], [queue_workflows/model_registry.py])

    The registry of the models the software knows, the observed catalog of what each
    box's servers can serve, the capability a worker advertises, the flattening of a
    job's acceptable models and the first of them a box serves, and the artifact a
    role tag stands for.  A float estimate is a rational, compared exactly. *)

From S2P Require Import Prelude Json Refs.
Local Open Scope Z_scope.

(** [sorted({..})] of strings *)
Definition sorted_set (l : list string) : list string := sort_by PyStr.key (remove_dups l).

Lemma elem_of_sorted_set l x : x ∈ sorted_set l ↔ x ∈ l.
Proof. unfold sorted_set. by rewrite sort_by_perm, elem_of_remove_dups. Qed.
Lemma sorted_set_NoDup l : NoDup (sorted_set l).
Proof. unfold sorted_set. rewrite sort_by_perm. apply NoDup_remove_dups. Qed.

(** [s.endswith(p)] and [s[:-len(p)]] *)
Definition endswith (p s : string) : bool := String.prefix (String.rev p) (String.rev s).
Definition removesuffix (p s : string) : string :=
  PyStr.take (String.length s - String.length p) s.

(** ** Tags *)

Definition canonical_tag (model_id : string) : string :=
  let tag := PyStr.strip model_id in
  if endswith ":latest" tag then removesuffix ":latest" tag else tag.

(** ** The registry *)

Record ModelSpec := mkModelSpec {
  m_id : string;
  est_vram_gb : Q;
  served_by : list string;
  server_models : option (list (string * list string));
}.
Abbreviation registry := (list (string * ModelSpec)).

Definition register (spec : ModelSpec) (models : registry) : registry := dict_set (m_id spec) spec models.
Definition get (model_id : string) (models : registry) : result ModelSpec :=
  match dict_get model_id models with Some s => Ok s | None => Raise (KeyError model_id) end.
Definition known_ids (models : registry) : list string := sort_by PyStr.key models.*1.
Definition server_served_ids (models : registry) : list string :=
  map m_id (List.filter (λ s, negb (bool_decide (length (served_by s) = 0%nat))) models.*2).

Definition fits (cap : Z) (headroom : Q) (spec : ModelSpec) : bool :=
  Qle_bool (est_vram_gb spec) 0 ||
  Qle_bool (est_vram_gb spec * 1024 * headroom)%Q (inject_Z cap).
Definition fits_within (vram_total_mb : option Z) (headroom : Q) (models : registry) : list string :=
  match vram_total_mb with
  | None => known_ids models
  | Some cap =>
      let hr := if Qle_bool 1 headroom then headroom else 1%Q in
      sort_by PyStr.key (List.filter (λ kv, fits cap hr kv.2) models).*1
  end.

Definition server_model_options (model_id : string) (models : registry) : list (string * list string) :=
  match dict_get model_id models with
  | Some s => default [] (server_models s)
  | None => []
  end.

(** ** What a worker advertises *)

Definition stripped (l : list string) : list string := List.filter PyStr.truthy (map PyStr.strip l).

Definition narrow_to_observed (declared observed : list string) (narrowable : option (list string)) : list string :=
  let declared_ids := stripped declared in
  let observed_canon := map canonical_tag (List.filter (λ m, PyStr.truthy (PyStr.strip m)) observed) in
  match observed_canon with
  | [] => declared_ids
  | _ =>
      let subject := map PyStr.strip <$> narrowable in
      let kept := List.filter (λ m,
        match subject with Some s => negb (bool_decide (m ∈ s)) | None => false end ||
        bool_decide (canonical_tag m ∈ observed_canon)) declared_ids in
      match kept with [] => declared_ids | _ => kept end
  end.

(** ** The observed catalog *)

Record CatalogEntry := mkEntry {
  c_host : string;
  c_server : string;
  c_model : string;
  c_enabled : bool;
  c_digest : string;
}.

Record ModelCatalog := mkCatalog {
  _ttl_s : Z;
  _rows : list CatalogEntry;
  _fetched_at : option Z;
}.

Definition fresh_at (now : Z) (c : ModelCatalog) : bool :=
  match _fetched_at c with
  | Some at_ => (0 <? _ttl_s c) && (now - at_ <? _ttl_s c)
  | None => false
  end.

(** [_current]: the rows of the last fetch, refreshed after the TTL; a fetch that
    raises keeps the last good ones *)
Definition _current (now : Z) (fetch : result (list CatalogEntry)) (c : ModelCatalog)
    : list CatalogEntry * ModelCatalog :=
  let c := if fresh_at now c then c
           else mkCatalog (_ttl_s c)
                  (match fetch with
                   | Ok rows => List.filter c_enabled rows
                   | Raise _ => _rows c
                   end) (Some now) in
  (_rows c, c).

Section lookups.
Context (rows : list CatalogEntry).

Definition on_host (host server : string) (r : CatalogEntry) : bool :=
  String.eqb (c_host r) host && String.eqb (c_server r) server.
Definition models_for (host server : string) : list string :=
  sorted_set (map c_model (List.filter (on_host host server) rows)).
Definition can_serve (host server model : string) : bool :=
  existsb (λ r, on_host host server r && String.eqb (c_model r) model) rows.
Definition kinds_for (host model : string) : list string :=
  sorted_set (map c_server
    (List.filter (λ r, String.eqb (c_host r) host && String.eqb (c_model r) model) rows)).
Definition boxes_serving (model : string) : list string :=
  sorted_set (map c_host (List.filter (λ r, String.eqb (c_model r) model) rows)).

(** ** The first acceptable pair a box serves *)

(** None: nothing this box serves.  [Some None]: the job names no model. *)
Fixpoint best_of (host : string) (pairs : list (string * option string)) : option (string * string) :=
  match pairs with
  | [] => None
  | (model_id, Some kind) :: r =>
      if can_serve host kind model_id then Some (model_id, kind) else best_of host r
  | (model_id, None) :: r =>
      match kinds_for host model_id with
      | kind :: _ => Some (model_id, kind)
      | [] => best_of host r
      end
  end.
Definition best_match (host : string) (pairs : list (string * option string))
    : option (option (string * string)) :=
  match pairs with
  | [] => Some None
  | _ => Some <$> best_of host pairs
  end.
End lookups.

(** ** The models a job accepts *)

Section acceptable.
Context `{PyEnv}.

(** [str(v or "").strip()], and [str(k).strip()] *)
Definition text_of (v : json) : string := PyStr.strip (if truthy v then py_str v else "").

(** One model on the given kinds.  A value that cannot be iterated raises. *)
Definition add_pairs (model : json) (kinds : json) (out : list (string * option string))
    : result (list (string * option string)) :=
  let model_id := text_of model in
  if negb (PyStr.truthy model_id) then Ok out
  else
    kind_list ← match kinds with
                | JArr l => Ok (stripped (map py_str l))
                | JStr s => Ok (stripped (map (λ c, String c EmptyString) (String.list_ascii_of_string s)))
                | JObj fs => Ok (stripped fs.*1)
                | v => if truthy v then Raise (TypeError "not iterable") else Ok []
                end;
    Ok (match kind_list with
        | [] => out ++ [(model_id, None)]
        | _ => foldl (λ out kind, if bool_decide ((model_id, Some kind) ∈ out) then out
                                  else out ++ [(model_id, Some kind)]) out kind_list
        end).

Fixpoint add_entries (entries : list json) (out : list (string * option string))
    : result (list (string * option string)) :=
  match entries with
  | [] => Ok out
  | JObj fs :: r =>
      out ← add_pairs (default JNull (dict_get "model" fs)) (default JNull (dict_get "server_types" fs)) out;
      add_entries r out
  | _ :: r => add_entries r out
  end.

Definition acceptable_models (required_model : option string) (required_models : option (list json))
    (server_types : option (list string)) : result (list (string * option string)) :=
  match required_models with
  | Some ((_ :: _) as entries) => add_entries entries []
  | _ =>
      match required_model with
      | Some m => if PyStr.truthy m
                  then add_pairs (JStr m) (JArr (map JStr (default [] server_types))) [] else Ok []
      | None => Ok []
      end
  end.
End acceptable.

(** ** The artifact a role stands for *)

Definition lower_alnum (c : ascii) : bool :=
  let n := N_of_ascii c in PyStr.is_digit c || ((97 <=? n)%N && (n <=? 122)%N).
Fixpoint all_chars (p : ascii → bool) (s : string) : bool :=
  match s with EmptyString => true | String c r => p c && all_chars p r end.
Fixpoint join (sep : string) (l : list string) : string :=
  match l with [] => "" | [x] => x | x :: r => x +:+ sep +:+ join sep r end.

(** [_ARTIFACT_RE]: [<role>-v<N>-<precision>-<server>]; the last two segments hold no
    dash, so the match is by segments *)
Definition artifact_role (tag : string) : option string :=
  match reverse (PyStr.split "-" (canonical_tag tag)) with
  | server :: precision :: version :: ((_ :: _) as role) =>
      let r := join "-" (reverse role) in
      if PyStr.truthy server && all_chars lower_alnum server &&
         PyStr.truthy precision && all_chars (λ c, lower_alnum c || Ascii.eqb c "_") precision &&
         match version with String "v" n => PyStr.isdigit n | _ => false end &&
         PyStr.truthy r && all_chars (λ c, negb (N.eqb (N_of_ascii c) 10)) r
      then Some r else None
  | _ => None
  end.

Definition is_candidate (role role_digest : string) (e : CatalogEntry) : bool :=
  let tag := canonical_tag (c_model e) in
  negb (String.eqb tag role) && bool_decide (artifact_role tag = Some role) &&
  if PyStr.truthy role_digest then String.eqb (c_digest e) role_digest
  else negb (PyStr.truthy (c_digest e)).

Definition resolve_artifact (role_id : string) (server_type : option string)
    (entries : list CatalogEntry) (options : list string) : option string :=
  let role := canonical_tag role_id in
  if negb (PyStr.truthy role) then None
  else
    let rows := List.filter (λ e,
      match server_type with Some t => String.eqb (c_server e) t | None => true end && c_enabled e) entries in
    let role_digest := default "" (c_digest <$>
      List.find (λ e, String.eqb (canonical_tag (c_model e)) role && PyStr.truthy (c_digest e)) rows) in
    let candidates := map (λ e, canonical_tag (c_model e)) (List.filter (is_candidate role role_digest) rows) in
    match List.find (λ o, bool_decide (o ∈ candidates)) (map canonical_tag options) with
    | Some o => Some o
    | None => head (sort_by PyStr.key candidates)
    end.

Example artifact_tags :
  artifact_role "chat-expert-a-v1-q4-ollama" = Some "chat-expert-a" ∧
  artifact_role "chat-expert-a" = None ∧
  artifact_role "chat-v2-q4_k-ollama:latest" = Some "chat" ∧
  canonical_tag " chat-model-a:latest" = "chat-model-a".
Proof. by vm_compute. Qed.

(** ** What the lookups answer *)

Section lookup_lemmas.
Context (rows : list CatalogEntry).

Definition serves (host : string) (p : string * string) : Prop :=
  ∃ r, r ∈ rows ∧ c_host r = host ∧ c_model r = p.1 ∧ c_server r = p.2.

Lemma can_serve_spec host server model :
  can_serve rows host server model = true ↔ serves host (model, server).
Proof.
  unfold can_serve, serves, on_host. rewrite existsb_exists. split.
  - intros (r & Hr & E). rewrite !andb_true_iff, !String.eqb_eq in E. exists r.
    rewrite list_elem_of_In. naive_solver.
  - intros (r & Hr & <- & E1 & E2). exists r. simpl in *. subst.
    rewrite <- list_elem_of_In, !String.eqb_refl. done.
Qed.

Lemma elem_of_kinds_for host model kind : kind ∈ kinds_for rows host model ↔ serves host (model, kind).
Proof.
  unfold kinds_for, serves. rewrite elem_of_sorted_set, list_elem_of_fmap. split.
  - intros (r & -> & [Hr E]%elem_of_Lfilter). rewrite andb_true_iff, !String.eqb_eq in E.
    exists r. naive_solver.
  - intros (r & Hr & E1 & E2 & E3). simpl in *. exists r. split; [done|]. apply elem_of_Lfilter.
    subst. by rewrite !String.eqb_refl.
Qed.

(** A pair of the job the box can serve, on the kind it gives or on some kind *)
Definition pair_served (host : string) (p : string * option string) : Prop :=
  ∃ kind, serves host (p.1, kind) ∧ (p.2 = None ∨ p.2 = Some kind).

Lemma best_of_spec host pairs :
  match best_of rows host pairs with
  | Some (m, k) => ∃ l1 p l2, pairs = l1 ++ p :: l2 ∧ p.1 = m ∧ serves host (m, k) ∧
      (p.2 = None ∨ p.2 = Some k) ∧ ∀ q, q ∈ l1 → ~ pair_served host q
  | None => ∀ q, q ∈ pairs → ~ pair_served host q
  end.
Proof.
  induction pairs as [|[m kind] pairs IH]; simpl; [set_solver|].
  assert (∀ P : ~ pair_served host (m, kind),
    match best_of rows host pairs with
    | Some (m', k) => ∃ l1 p l2, (m, kind) :: pairs = l1 ++ p :: l2 ∧ p.1 = m' ∧ serves host (m', k) ∧
        (p.2 = None ∨ p.2 = Some k) ∧ ∀ q, q ∈ l1 → ~ pair_served host q
    | None => ∀ q, q ∈ (m, kind) :: pairs → ~ pair_served host q
    end) as Hskip.
  { intros P. destruct (best_of rows host pairs) as [[m' k]|]; [|set_solver].
    destruct IH as (l1 & p & l2 & -> & ? & ? & ? & H1). exists ((m, kind) :: l1), p, l2.
    split_and!; [done..|]. set_solver. }
  destruct kind as [kind|].
  - destruct (can_serve rows host kind m) eqn:E.
    + apply can_serve_spec in E. exists [], (m, Some kind), pairs. split_and!; [done|done|done|by right|set_solver].
    + apply Hskip. intros (k & Hs & [?|[= <-]]); [done|]. apply can_serve_spec in Hs. simpl in *. congruence.
  - destruct (kinds_for rows host m) as [|k ks] eqn:E.
    + apply Hskip. intros (k & Hs%elem_of_kinds_for & _). simpl in Hs. rewrite E in Hs. set_solver.
    + assert (serves host (m, k)) by (apply elem_of_kinds_for; rewrite E; left).
      exists [], (m, None), pairs. split_and!; [done|done|done|by left|set_solver].
Qed.
End lookup_lemmas.

(** Preference order decides.  For a job that accepts some pairs, a box answers with the
    first of them its catalog can serve, on the kind the pair names or, when it names
    none, on a kind the box holds the model on; it answers None exactly when it can serve
    none of them; a job that names no model matches any box. *)
Lemma best_match_is_the_first_served (rows : list CatalogEntry) (host : string)
    (pairs : list (string * option string)) :
  match best_match rows host pairs with
  | Some None => pairs = []
  | Some (Some (m, k)) => ∃ l1 p l2, pairs = l1 ++ p :: l2 ∧ p.1 = m ∧ serves rows host (m, k) ∧
      (p.2 = None ∨ p.2 = Some k) ∧ ∀ q, q ∈ l1 → ~ pair_served rows host q
  | None => pairs ≠ [] ∧ ∀ q, q ∈ pairs → ~ pair_served rows host q
  end.
Proof.
  pose proof (best_of_spec rows host pairs) as Hb. unfold best_match.
  destruct pairs as [|p0 pairs]; [done|].
  destruct (best_of rows host (p0 :: pairs)) as [[m k]|]; simpl; [done|]. split; [done|exact Hb].
Qed.

(** A worker never advertises less than the truth.  What it advertises is declared; it is
    empty only when nothing is declared; and a declared model is left out only when the
    box's servers reported something, the model is one they could report, and none of
    what they reported is that model under its canonical tag. *)
Lemma narrowing_keeps_every_served_model (declared observed : list string) (narrowable : option (list string)) :
  let out := narrow_to_observed declared observed narrowable in
  let seen := map canonical_tag (List.filter (λ m, PyStr.truthy (PyStr.strip m)) observed) in
  out ⊆ stripped declared ∧ (out = [] → stripped declared = []) ∧
  ∀ m, m ∈ stripped declared → m ∉ out →
    seen ≠ [] ∧ canonical_tag m ∉ seen ∧
    match narrowable with Some s => m ∈ map PyStr.strip s | None => True end.
Proof.
  cbv zeta. unfold narrow_to_observed.
  set (decl := stripped declared). set (seen := map canonical_tag _).
  destruct seen as [|o os] eqn:Es; [split_and!; [done|done|]; intros m Hm Hn; done|]. rewrite <- Es.
  destruct (List.filter _ decl) as [|k ks] eqn:F.
  { split_and!; [done|done|]. intros m Hm Hn. done. }
  rewrite <- F. split_and!.
  - intros x [Hx _]%elem_of_Lfilter. done.
  - rewrite F. done.
  - intros m Hm Hn. rewrite elem_of_Lfilter in Hn.
    match type of Hn with ~ (_ ∧ ?b = true) => destruct b eqn:E; [tauto|] end.
    apply orb_false_iff in E as [E1 E2]. apply bool_decide_eq_false in E2.
    split_and!; [by rewrite Es|done|]. destruct narrowable as [s|]; [|done]. simpl in E1.
    by apply negb_false_iff, bool_decide_eq_true in E1.
Qed.

(** ** The cache of the catalog *)

Section catalog_lemmas.
Implicit Types (c : ModelCatalog) (fetch : result (list CatalogEntry)).

(** Disabled rows are never served, an outage keeps the last rows, and within the TTL
    the store is not read. *)
Lemma current_spec now fetch c :
  let '(rows, c') := _current now fetch c in
  rows = _rows c' ∧ _ttl_s c' = _ttl_s c ∧
  (fresh_at now c = true → c' = c) ∧
  (fresh_at now c = false →
     _fetched_at c' = Some now ∧
     match fetch with
     | Ok l => ∀ r, r ∈ rows ↔ r ∈ l ∧ c_enabled r = true
     | Raise _ => rows = _rows c
     end).
Proof.
  unfold _current. destruct (fresh_at now c); simpl; split_and!; try done; intros _.
  split; [done|]. destruct fetch as [l|e]; simpl; [|done]. intros r. by rewrite elem_of_Lfilter.
Qed.
End catalog_lemmas.

(** The artifact stamped on a job is observed, never guessed.  When a role resolves, the
    tag is one an enabled entry of that server kind reported, has the shape of an
    artifact of the role, and either has the very digest of the role's tag on this box,
    or neither the role nor the artifact has one. *)
Lemma resolved_artifact_is_observed (role_id : string) (server_type : option string)
    (entries : list CatalogEntry) (options : list string) (tag : string) :
  resolve_artifact role_id server_type entries options = Some tag →
  ∃ e, e ∈ entries ∧ c_enabled e = true ∧ canonical_tag (c_model e) = tag ∧
    match server_type with Some t => c_server e = t | None => True end ∧
    artifact_role tag = Some (canonical_tag role_id) ∧
    (c_digest e = "" ∨
     ∃ e', e' ∈ entries ∧ c_enabled e' = true ∧ canonical_tag (c_model e') = canonical_tag role_id ∧
       c_digest e' = c_digest e).
Proof.
  unfold resolve_artifact. set (role := canonical_tag role_id).
  destruct (negb (PyStr.truthy role)); [done|].
  set (rows := List.filter _ entries).
  set (found := List.find (λ e, String.eqb (canonical_tag (c_model e)) role && PyStr.truthy (c_digest e)) rows).
  set (digest := default "" (c_digest <$> found)).
  set (cands := map (λ e, canonical_tag (c_model e)) (List.filter (is_candidate role digest) rows)).
  intros Hres. assert (tag ∈ cands) as Hc.
  { destruct (List.find (λ o, bool_decide (o ∈ cands)) _) as [o|] eqn:Fo.
    - simplify_eq. apply List.find_some in Fo as [_ Fo]. by apply bool_decide_eq_true in Fo.
    - rewrite <- (sort_by_perm PyStr.key cands). destruct (sort_by PyStr.key cands); simplify_eq/=. left. }
  unfold cands in Hc. apply list_elem_of_fmap in Hc as (e & -> & [He Hcand]%elem_of_Lfilter).
  apply elem_of_Lfilter in He as [Hin He]. apply andb_true_iff in He as [Hsrv Hen].
  unfold is_candidate in Hcand. apply andb_true_iff in Hcand as [Hcand Hd].
  apply andb_true_iff in Hcand as [_ Hrole]. apply bool_decide_eq_true in Hrole.
  exists e. split_and!; try done.
  { destruct server_type; [by apply String.eqb_eq|done]. }
  destruct (PyStr.truthy digest) eqn:Ed; cycle 1.
  { left. apply negb_true_iff in Hd. unfold PyStr.truthy in Hd. apply negb_false_iff, String.eqb_eq in Hd. done. }
  right. apply String.eqb_eq in Hd. unfold digest in *.
  destruct found as [e'|] eqn:Ff; [|done]. apply List.find_some in Ff as [Hin' E'].
  apply list_elem_of_In, elem_of_Lfilter in Hin' as [Hin' He']. apply andb_true_iff in He' as [_ Hen'].
  apply andb_true_iff in E' as [E' _]. apply String.eqb_eq in E'. simpl in *. eauto.
Qed.

Module ExampleCatalog.
Definition box : list CatalogEntry :=
  [mkEntry "box-a" "ollama" "chat-expert-a:latest" true "d1";
   mkEntry "box-a" "ollama" "chat-expert-a-v1-q4-ollama" true "d0";
   mkEntry "box-a" "ollama" "chat-expert-a-v2-q4-ollama" true "d1";
   mkEntry "box-a" "vllm" "chat-model-a" true ""].
End ExampleCatalog.

Lemma resolved_artifact_is_observed_witness :
  resolve_artifact "chat-expert-a" (Some "ollama") ExampleCatalog.box [] = Some "chat-expert-a-v2-q4-ollama" ∧
  artifact_role "chat-expert-a-v2-q4-ollama" = Some (canonical_tag "chat-expert-a").
Proof.
  assert (resolve_artifact "chat-expert-a" (Some "ollama") ExampleCatalog.box []
            = Some "chat-expert-a-v2-q4-ollama") as E by by vm_compute.
  split; [exact E|].
  destruct (resolved_artifact_is_observed _ _ _ _ _ E) as (e & _ & _ & _ & _ & Hr & _). exact Hr.
Defined.
