(* ===== verification/LlmProbe.v ===== *)
(** * Asking a server what it serves ([queue_workflows/llm_probe.py])

    What a box's LLM and diffusion servers answer, read defensively: which kind answers at
    an address, which models it has, whether they are on the card, how busy it is, and
    whether the address is this machine.  The answers of HTTP are arguments; JSON is read
    the way Python reads it, with the exceptions a surprising payload raises. *)

From S2P Require Import Prelude Json PyText Refs Schema NodeQueue Claim Reclaim Watchdogs WorkerLanes Catalog.
Local Open Scope string_scope.
Local Open Scope list_scope.
Local Open Scope Z_scope.

(** ** The network *)

(** What the servers of the network answer: a status, a JSON body, a text *)
Class Http := {
  http_get : string → result (option Z);
  http_json : string → result json;
  http_text : string → result string;
  http_post : string → json → result Z;
  http_post_json : string → json → result json;
}.

Definition PROBE_OLLAMA : string := "ollama".
Definition PROBE_VLLM : string := "vllm".
Definition COMFYUI_MODEL_VRAM_FLOOR : Z := Z.shiftl 1 30.
Definition GPU : string := "gpu".
Definition CPU : string := "cpu".
Definition UNKNOWN : string := "unknown".

(** An address that is absent or empty is no address. *)
Definition root_of (base_url : option string) : option string :=
  match base_url with
  | Some u => if PyStr.truthy u then Some (Txt.rstrip_char "/" u) else None
  | None => None
  end.

(** *** Python on a JSON value *)

(** [for x in v] *)
Fixpoint chars (s : string) : list json :=
  match s with EmptyString => [] | String c r => JStr (String c "") :: chars r end.
Definition py_iter (v : json) : result (list json) :=
  match v with
  | JArr l => Ok l
  | JObj d => Ok (JStr ∘ fst <$> d)
  | JStr s => Ok (chars s)
  | _ => Raise (TypeError "not iterable")
  end.
(** [v.get(k)] *)
Definition py_get (k : string) (v : json) : result json :=
  match v with
  | JObj d => Ok (default JNull (dict_get k d))
  | _ => Raise (AttributeError "get")
  end.
(** [for x in (v or [])] *)
Definition iter_or_empty (v : json) : result (list json) := if truthy v then py_iter v else Ok [].
(** [data.get(k) if isinstance(data, dict) else None] *)
Definition get_if_dict (k : string) (data : json) : json :=
  match data with JObj d => default JNull (dict_get k d) | _ => JNull end.
(** [int(v or 0)] *)
Definition int_or_zero (v : json) : result Z := if truthy v then py_int v else Ok 0.
(** [_int_or_none] *)
Definition _int_or_none (v : json) : option Z :=
  match v with
  | JBool _ | JNull => None
  | _ => match py_int v with Ok n => Some n | Raise _ => None end
  end.
(** The objects of a list that have a truthy [key], as [f] reads them *)
Definition named {A} (key : string) (f : dict → json → A) (rows : list json) : list A :=
  omap (λ m, match m with
             | JObj d => match dict_get key d with
                         | Some v => if truthy v then Some (f d v) else None
                         | None => None
                         end
             | _ => None
             end) rows.
(** A body in [try: ... except Exception: return dflt] *)
Definition guarded {A} (dflt : A) (r : result A) : A := match r with Ok a => a | Raise _ => dflt end.

#[export] Instance CatalogEntry_eq_dec : EqDecision CatalogEntry.
Proof. solve_decision. Defined.

Section probes.
Context `{PyEnv} `{Http}.
Implicit Types (base_url : option string).

(** ** Which server answers *)

Definition probe_llm_servers base_url : list string :=
  match root_of base_url with
  | None => []
  | Some root =>
      guarded [] (tags ← http_get (root +:+ "/api/tags");
                  if bool_decide (tags = Some 200) then Ok [PROBE_OLLAMA] else
                  models ← http_get (root +:+ "/v1/models");
                  Ok (if bool_decide (models = Some 200) then [PROBE_VLLM] else []))
  end.

(** Is every loaded model in the card's memory?  The read of an entry is guarded, but only
    against the errors of [int]. *)
Fixpoint placement_of (models : list json) : result string :=
  match models with
  | [] => Ok GPU
  | m :: r =>
      match (s ← py_get "size" m; size ← int_or_zero s; v ← py_get "size_vram" m; vram ← int_or_zero v; Ok (size, vram)) with
      | Ok (size, vram) => if (0 <? size) && (vram <? size) then Ok CPU else placement_of r
      | Raise (TypeError _) | Raise (ValueError _) => placement_of r
      | Raise x => Raise x
      end
  end.
Definition probe_gpu_placement base_url : result string :=
  match root_of base_url with
  | None => Ok UNKNOWN
  | Some root =>
      match http_json (root +:+ "/api/ps") with
      | Ok (JObj d) =>
          let models := default JNull (dict_get "models" d) in
          if truthy models then l ← py_iter models; placement_of l else Ok UNKNOWN
      | _ => Ok UNKNOWN
      end
  end.
Definition gpu_usable (servers : list string) (placement : string) : bool :=
  negb (bool_decide (servers = [])) && negb (String.eqb placement CPU).

(** ** Which models *)

Definition loaded_models base_url : list string :=
  match root_of base_url with
  | None => []
  | Some root => guarded [] (data ← http_json (root +:+ "/api/ps");
                             rows ← iter_or_empty (get_if_dict "models" data);
                             Ok (named "name" (λ _ v, py_str v) rows))
  end.
Definition vllm_served_models base_url : list string :=
  match root_of base_url with
  | None => []
  | Some root => guarded [] (data ← http_json (root +:+ "/v1/models");
                             rows ← iter_or_empty (get_if_dict "data" data);
                             Ok (named "id" (λ _ v, py_str v) rows))
  end.
Definition ollama_available_models base_url : list string :=
  match root_of base_url with
  | None => []
  | Some root => guarded [] (data ← http_json (root +:+ "/api/tags");
                             rows ← iter_or_empty (get_if_dict "models" data);
                             Ok (named "name" (λ _ v, py_str v) rows))
  end.
(** [str(m.get(k) or "")] *)
Definition text_or_empty (k : string) (d : dict) : string :=
  match dict_get k d with Some v => if truthy v then py_str v else "" | None => "" end.
Definition ollama_available_models_with_digests base_url : list (string * string) :=
  match root_of base_url with
  | None => []
  | Some root => guarded [] (data ← http_json (root +:+ "/api/tags");
                             rows ← iter_or_empty (get_if_dict "models" data);
                             Ok (named "name" (λ d v, (py_str v, text_or_empty "digest" d)) rows))
  end.

(** What this box can serve, as rows of the catalog *)
Definition add_new (out : list CatalogEntry) (e : CatalogEntry) : list CatalogEntry :=
  if bool_decide (e ∈ out) then out else out ++ [e].
Definition observed_of (kind : string) (url : option string) : list (string * string) :=
  if String.eqb kind "ollama" then ollama_available_models_with_digests url
  else if String.eqb kind "vllm" then (λ m, (m, "")) <$> vllm_served_models url
  else [].
Definition add_rows (host_label kind : string) (out : list CatalogEntry) (rows : list (string * string)) : list CatalogEntry :=
  foldl (λ out md, add_new out (mkEntry host_label kind md.1 true md.2)) out rows.
Definition observe_kind (host_label : string) (out : list CatalogEntry) (ku : string * option string) : list CatalogEntry :=
  match ku.2 with
  | Some u => if PyStr.truthy u then add_rows host_label ku.1 out (observed_of ku.1 (Some u)) else out
  | None => out
  end.
Definition observe_box_models (host_label : string) (urls_by_kind : list (string * option string)) : list CatalogEntry :=
  foldl (observe_kind host_label) [] urls_by_kind.

(** ** Windows and sizes *)

Record Runner := mkRunner { rn_name : string; rn_size : option Z; rn_vram : option Z; rn_context : option Z }.
Definition int_at (k : string) (d : dict) : option Z := _int_or_none (default JNull (dict_get k d)).
Definition ollama_runners base_url : list Runner :=
  match root_of base_url with
  | None => []
  | Some root => guarded [] (data ← http_json (root +:+ "/api/ps");
                             rows ← iter_or_empty (get_if_dict "models" data);
                             Ok (named "name" (λ d v, mkRunner (py_str v) (int_at "size" d) (int_at "size_vram" d)
                                                        (int_at "context_length" d)) rows))
  end.
Definition ollama_model_sizes base_url : list (string * Z) :=
  match root_of base_url with
  | None => []
  | Some root => guarded [] (data ← http_json (root +:+ "/api/tags");
                             rows ← iter_or_empty (get_if_dict "models" data);
                             Ok (foldl (λ out (ns : string * option Z),
                                          match ns.2 with
                                          | Some n => if n =? 0 then out else dict_set ns.1 n out
                                          | None => out
                                          end) [] (named "name" (λ d v, (py_str v, int_at "size" d)) rows)))
  end.
Definition ollama_model_info base_url (model : string) : dict :=
  match root_of base_url with
  | None => []
  | Some root =>
      if negb (PyStr.truthy model) then []
      else guarded [] (data ← http_post_json (root +:+ "/api/show") (JObj [("model", JStr model)]);
                       Ok (match get_if_dict "model_info" data with JObj info => info | _ => [] end))
  end.
(** The first card that says how long a request may be *)
Fixpoint first_max_len (rows : list json) : option Z :=
  match rows with
  | [] => None
  | JObj d :: r => match int_at "max_model_len" d with
                   | Some n => if n =? 0 then first_max_len r else Some n
                   | None => first_max_len r
                   end
  | _ :: r => first_max_len r
  end.
Definition vllm_max_model_len base_url : option Z :=
  match root_of base_url with
  | None => None
  | Some root => guarded None (data ← http_json (root +:+ "/v1/models");
                               rows ← iter_or_empty (get_if_dict "data" data);
                               Ok (first_max_len rows))
  end.

(** ** Metrics *)

Record Activity := mkActivity { a_served : bool; a_running : Z; a_finished : Z }.
Definition no_activity : Activity := mkActivity false 0 0.
(** [float(line.rsplit(" ", 1)[1])]: None when the line has no number *)
Definition metric_value (line : string) : option (option Q) :=
  match Txt.rsplit1 " " line with (Some _, v) => Txt.py_float v | (None, _) => None end.
(** The value of a line that counts; [Some None] is an infinity or nan *)
Definition metric (prefix line : string) : option (option Q) :=
  let line := PyStr.strip line in
  if PyStr.truthy line && negb (PyStr.startswith "#" line) && PyStr.startswith prefix line then metric_value line else None.
(** The sum of a metric over its labels, None once an infinity is in it *)
Definition add_metric (acc v : option Q) : option Q :=
  match acc, v with Some a, Some q => Some (a + q)%Q | _, _ => None end.
Definition metric_sum (prefix : string) (lines : list string) : option Q :=
  foldl add_metric (Some 0%Q) (omap (metric prefix) lines).
Definition trunc (q : Q) : Z := Z.quot (Qnum q) (Zpos (Qden q)).
(** [int(x)] of an infinity or nan raises *)
Definition not_finite : exc := OtherError "OverflowError".
Definition int_of (q : option Q) : result Z := match q with Some q => Ok (trunc q) | None => Raise not_finite end.
Definition vllm_activity base_url : result Activity :=
  match root_of base_url with
  | None => Ok no_activity
  | Some root =>
      match http_text (root +:+ "/metrics") with
      | Raise _ => Ok no_activity
      | Ok text =>
          if negb (PyStr.truthy text) then Ok no_activity else
          running ← int_of (metric_sum "vllm:num_requests_running" (Txt.splitlines text));
          finished ← int_of (metric_sum "vllm:request_success_total" (Txt.splitlines text));
          Ok (mkActivity true running finished)
      end
  end.

(** [re.findall] of the labels of a metric: a word, an equals sign and a quoted value *)
Definition dquote : ascii := "034"%char.
Fixpoint labels_go (skip : nat) (s : string) : list (string * string) :=
  match s with
  | EmptyString => []
  | String c r =>
      match skip with
      | S k => labels_go k r
      | O =>
          match Txt.span Txt.is_word s with
          | (String _ w', String "=" (String q body)) =>
              match Txt.span (λ c, negb (Ascii.eqb c dquote)) body with
              | (v, String _ _) =>
                  if Ascii.eqb q dquote
                  then (String c w', v) :: labels_go (String.length w' + 3 + String.length v) r
                  else labels_go O r
              | _ => labels_go O r
              end
          | _ => labels_go O r
          end
      end
  end.
Definition labels (line : string) : list (string * string) :=
  foldl (λ d kv, dict_set kv.1 kv.2 d) [] (labels_go O line).
Definition label_int (k : string) (d : list (string * string)) : option Z :=
  match dict_get k d with Some v => _int_or_none (JStr v) | None => None end.
Fixpoint first_capacity (lines : list string) : option Z :=
  match lines with
  | [] => None
  | line :: r =>
      if PyStr.startswith "vllm:cache_config_info{" line then
        match label_int "num_gpu_blocks" (labels line), label_int "block_size" (labels line) with
        | Some blocks, Some size => if (blocks =? 0) || (size =? 0) then first_capacity r else Some (blocks * size)
        | _, _ => first_capacity r
        end
      else first_capacity r
  end.
Definition vllm_kv_capacity_tokens base_url : option Z :=
  match root_of base_url with
  | None => None
  | Some root => guarded None (text ← http_text (root +:+ "/metrics"); Ok (first_capacity (Txt.splitlines text)))
  end.

(** ** The diffusion server *)

(** What one device holds, as the errors of [int] and the shape of the entry allow *)
Definition device_used (dev : json) : Z :=
  match dev with
  | JObj d =>
      match (t ← int_or_zero (default JNull (dict_get "torch_vram_total" d));
             f ← int_or_zero (default JNull (dict_get "torch_vram_free" d)); Ok (t, f)) with
      | Ok (total, free) => if (0 <? total) && (0 <=? free) then Z.max 0 (total - free) else 0
      | Raise _ => 0
      end
  | _ => 0
  end.
Definition comfyui_loaded base_url (vram_floor : Z) : result bool :=
  match root_of base_url with
  | None => Ok false
  | Some root =>
      match http_json (root +:+ "/system_stats") with
      | Ok (JObj d) =>
          devices ← iter_or_empty (default JNull (dict_get "devices" d));
          Ok (vram_floor <=? sum_of device_used devices)
      | _ => Ok false
      end
  end.
Definition comfyui_reachable base_url : bool :=
  match root_of base_url with
  | None => false
  | Some root => match http_json (root +:+ "/system_stats") with
                 | Ok (JObj d) => truthy (JObj d)
                 | _ => false
                 end
  end.
Definition comfyui_free base_url : bool :=
  match root_of base_url with
  | None => false
  | Some root => match http_post (root +:+ "/free") (JObj [("unload_models", JBool true); ("free_memory", JBool true)]) with
                 | Ok status => (200 <=? status) && (status <? 300)
                 | Raise _ => false
                 end
  end.
(** The models that were asked to unload: one failure does not keep the rest *)
Definition unload_ollama_models base_url (models : list string) : list string :=
  match root_of base_url with
  | None => []
  | Some root => List.filter (λ m, is_ok (http_post (root +:+ "/api/generate")
                                   (JObj [("model", JStr m); ("keep_alive", JInt 0)]))) models
  end.
End probes.

(** ** Is it this machine? *)

Definition _LOCAL_HOSTS : list string :=
  ["127.0.0.1"; "localhost"; "::1"; "[::1]"; "0.0.0.0"; "host.docker.internal"].

(** [int(s, 16)] of plain digits *)
Definition hex_digit (c : ascii) : option Z :=
  let n := Z.of_N (N_of_ascii c) in
  if (48 <=? n) && (n <=? 57) then Some (n - 48)
  else if (97 <=? n) && (n <=? 102) then Some (n - 87)
  else if (65 <=? n) && (n <=? 70) then Some (n - 55) else None.
Fixpoint hex_acc (acc : Z) (s : string) : option Z :=
  match s with
  | EmptyString => Some acc
  | String c r => match hex_digit c with Some d => hex_acc (16 * acc + d) r | None => None end
  end.
Definition int16 (s : string) : option Z := if PyStr.truthy s then hex_acc 0 s else None.
(** [socket.inet_ntoa(n.to_bytes(4, "little"))]; a number that needs more bytes raises,
    and the reader lets only some errors through *)
Definition byte_at (n : Z) (i : Z) : Z := Z.land (Z.shiftr n (8 * i)) 255.
Definition dotted (n : Z) : string :=
  Txt.join "." ((λ i, pretty (byte_at n i)) <$> [0; 1; 2; 3]).
(** [_read_default_gateway] of the lines of [/proc/net/route] after the first; the outer
    None is [OverflowError], which is not caught there *)
Fixpoint gateway_of (lines : list string) : option (option string) :=
  match lines with
  | [] => Some None
  | line :: r =>
      match Txt.words line with
      | _ :: dest :: gw :: _ =>
          if String.eqb dest "00000000" && negb (String.eqb gw "00000000")
          then match int16 gw with
               | None => Some None
               | Some n => if n <? 2 ^ 32 then Some (Some (dotted n)) else None
               end
          else gateway_of r
      | _ => gateway_of r
      end
  end.
Definition _read_default_gateway (route : option (list string)) : option (option string) :=
  match route with Some lines => gateway_of (drop 1 lines) | None => Some None end.
Definition _host_gateways (route : option (list string)) : list string :=
  match _read_default_gateway route with Some (Some g) => [g] | _ => [] end.

(** [hostname] is what the address parses to *)
Definition is_local_endpoint (gateways : list string) (hostname : string → result (option string)) (base_url : option string) : bool :=
  match base_url with
  | Some u =>
      if negb (PyStr.truthy u) then false else
      match hostname u with
      | Ok (Some h) => PyStr.truthy h && (bool_decide (PyStr.lower h ∈ _LOCAL_HOSTS) || bool_decide (h ∈ gateways))
      | _ => false
      end
  | None => false
  end.
Definition endpoint_is_healthy (base_url : option string) (servers : list string) : bool :=
  PyStr.truthy (default "" base_url) && negb (bool_decide (servers = [])).

(** ** What a probe can be trusted with *)

(** A gauge of vLLM, with a label the reader skips and a quote it stops at *)
Example cache_gauge :
  let q := String dquote "" in
  first_capacity ["# HELP"; "vllm:cache_config_info{block_size=" +:+ q +:+ "16" +:+ q +:+ ",cache_dtype=" +:+ q +:+ "auto" +:+ q
    +:+ ",num_gpu_blocks=" +:+ q +:+ "2048" +:+ q +:+ "} 1.0"] = Some 32768.
Proof. by vm_compute. Qed.

Section probe_lemmas.
Context `{PyEnv} `{Http}.

(** An ollama also answers where a vLLM does: it is never taken for one. *)
Lemma probe_tells_the_kinds_apart base_url root :
  root_of base_url = Some root →
  (probe_llm_servers base_url = [PROBE_OLLAMA] ↔ http_get (root +:+ "/api/tags") = Ok (Some 200)) ∧
  (probe_llm_servers base_url = [PROBE_VLLM] →
   http_get (root +:+ "/api/tags") ≠ Ok (Some 200) ∧ http_get (root +:+ "/v1/models") = Ok (Some 200)).
Proof.
  intros Hr. unfold probe_llm_servers. rewrite Hr. destruct (http_get (root +:+ "/api/tags")) as [t|x]; cbn; [|done].
  case_bool_decide as Ht; [by subst|]. cbn.
  destruct (http_get (root +:+ "/v1/models")) as [m|x]; cbn.
  - case_bool_decide as Hm; [subst; split; [split; [done|]|]; intros; [congruence|split; [congruence|done]]|].
    split; [split; [done|congruence]|done].
  - split; [split; [done|congruence]|done].
Qed.

(** A loaded model as the server reports it *)
Definition ps_entry (sv : Z * Z) : json := JObj [("size", JInt sv.1); ("size_vram", JInt sv.2)].
Lemma int_or_zero_int z : int_or_zero (JInt z) = Ok z.
Proof. unfold int_or_zero. cbn. destruct (Z.eqb_spec z 0) as [->|]; done. Qed.
Lemma placement_of_entries l :
  placement_of (ps_entry <$> l) = Ok (if existsb (λ sv, (0 <? sv.1) && (sv.2 <? sv.1)) l then CPU else GPU).
Proof.
  induction l as [|[s v] l IH]; [done|]. cbn [fmap list_fmap placement_of ps_entry].
  cbn [py_get dict_get fst snd]. cbn. rewrite !int_or_zero_int. cbn.
  rewrite IH. by destruct (_ && _).
Qed.

(** A box is skipped for exactly the reasons the policy gives: no server answers, or a
    model that is loaded is not wholly on the card. *)
Lemma box_is_skipped_when_a_model_spills base_url root d l servers :
  root_of base_url = Some root → http_json (root +:+ "/api/ps") = Ok (JObj d) →
  dict_get "models" d = Some (JArr (ps_entry <$> l)) →
  ∃ p, probe_gpu_placement base_url = Ok p ∧
    (gpu_usable servers p = false ↔ servers = [] ∨ ∃ size vram, (size, vram) ∈ l ∧ 0 < size ∧ vram < size).
Proof.
  intros Hr Hj Hd. unfold probe_gpu_placement. rewrite Hr, Hj, Hd. cbn [default from_option id].
  assert (∀ p, gpu_usable servers p = false ↔ servers = [] ∨ p = CPU) as Hu.
  { intros p. unfold gpu_usable. rewrite andb_false_iff, !negb_false_iff, bool_decide_eq_true, String.eqb_eq. done. }
  destruct l as [|sv l].
  { cbn. exists UNKNOWN. split; [done|]. rewrite Hu. split; [intros [->|?]; [by left|done]|].
    intros [->|(? & ? & []%elem_of_nil & _)]; by left. }
  assert (truthy (JArr (ps_entry <$> sv :: l)) = true) as -> by done. cbn [py_iter mbind result_bind].
  rewrite placement_of_entries. eexists. split; [done|]. rewrite Hu.
  destruct (existsb _ _) eqn:E.
  - split; [intros _|by right]. right. apply existsb_exists in E as ([s v] & Hin & Hb). cbn in Hb. split_bool.
    exists s, v. split; [by apply list_elem_of_In|]. lia.
  - split; [intros [->|?]; [by left|done]|]. intros [->|(s & v & Hin & H1 & H2)]; [by left|]. exfalso.
    apply not_true_iff_false in E. apply E, existsb_exists. exists (s, v). split; [by apply list_elem_of_In|]. cbn. lia.
Qed.

(** What is published of a box: every model its servers have, once *)
Lemma add_new_elem out e x : x ∈ add_new out e ↔ x ∈ out ∨ x = e.
Proof. unfold add_new. case_bool_decide; set_solver. Qed.
Lemma add_new_nodup out e : NoDup out → NoDup (add_new out e).
Proof.
  intros Hn. unfold add_new. case_bool_decide; [done|]. apply NoDup_app. split_and!; [done|set_solver|apply NoDup_singleton].
Qed.
Lemma add_rows_spec host kind out rows :
  NoDup out → NoDup (add_rows host kind out rows) ∧
  ∀ x, x ∈ add_rows host kind out rows ↔ x ∈ out ∨ ∃ md, md ∈ rows ∧ x = mkEntry host kind md.1 true md.2.
Proof.
  unfold add_rows. revert out. induction rows as [|md rows IH]; intros out Hn; cbn [foldl].
  { split; [done|]. intros x. split; [by left|]. intros [?|(? & []%elem_of_nil & _)]; done. }
  destruct (IH _ (add_new_nodup out (mkEntry host kind md.1 true md.2) Hn)) as [I1 I2]. split; [done|].
  intros x. rewrite I2, add_new_elem. split.
  - intros [[?| ->]|(m & ? & ->)]; [by left|right; exists md; split; [left|done]|right; exists m; split; [by right|done]].
  - intros [?|(m & [->|?]%elem_of_cons & ->)]; [by left; left|by left; right|right; by exists m].
Qed.
(** The rows a kind adds *)
Definition published (host : string) (ku : string * option string) (x : CatalogEntry) : Prop :=
  ∃ u md, ku.2 = Some u ∧ PyStr.truthy u = true ∧ md ∈ observed_of ku.1 (Some u) ∧ x = mkEntry host ku.1 md.1 true md.2.
Lemma observe_kind_spec host out ku :
  NoDup out → NoDup (observe_kind host out ku) ∧ ∀ x, x ∈ observe_kind host out ku ↔ x ∈ out ∨ published host ku x.
Proof.
  intros Hn. unfold observe_kind, published. destruct ku as [k [u|]]; cbn [fst snd].
  2:{ split; [done|]. intros x. split; [by left|]. intros [?|(? & ? & [=] & _)]; done. }
  destruct (PyStr.truthy u) eqn:Et.
  2:{ split; [done|]. intros x. split; [by left|]. intros [?|(? & ? & [= <-] & ? & _)]; [done|congruence]. }
  destruct (add_rows_spec host k out (observed_of k (Some u)) Hn) as [L1 L2]. split; [done|]. intros x. rewrite L2. split.
  - intros [?|(md & ? & ->)]; [by left|right]. by exists u, md.
  - intros [?|(u' & md & [= <-] & _ & ? & ->)]; [by left|right; by exists md].
Qed.
Lemma observe_box_models_exact host urls :
  NoDup (observe_box_models host urls) ∧
  ∀ x, x ∈ observe_box_models host urls ↔ ∃ ku, ku ∈ urls ∧ published host ku x.
Proof.
  unfold observe_box_models. assert (∀ out, NoDup out → NoDup (foldl (observe_kind host) out urls) ∧
    ∀ x, x ∈ foldl (observe_kind host) out urls ↔ x ∈ out ∨ ∃ ku, ku ∈ urls ∧ published host ku x) as Hall.
  { induction urls as [|ku urls IH]; intros out Hn; cbn [foldl].
    { split; [done|]. intros x. split; [by left|]. intros [?|(? & []%elem_of_nil & _)]; done. }
    destruct (observe_kind_spec host out ku Hn) as [O1 O2]. destruct (IH _ O1) as [I1 I2]. split; [done|].
    intros x. rewrite I2, O2. split.
    - intros [[?|?]|(k' & ? & ?)]; [by left|right; exists ku; split; [left|done]|right; exists k'; split; [by right|done]].
    - intros [?|(k' & [->|?]%elem_of_cons & ?)]; [by left; left|by left; right|right; by exists k']. }
  destruct (Hall [] (NoDup_nil_2)) as [H1 H2]. split; [done|]. intros x. rewrite H2. split; [|by right].
  intros [[]%elem_of_nil|?]; done.
Qed.
End probe_lemmas.

(** ** The gateway's number *)

Definition hex_char (d : Z) : ascii :=
  default "0"%char (String.get (Z.to_nat d) "0123456789ABCDEF").
Definition hex_byte (b : Z) : string := String (hex_char (b / 16)) (String (hex_char (b mod 16)) "").
(** How the kernel writes an address: its bytes backwards, in hexadecimal *)
Definition route_hex (a b c d : Z) : string := hex_byte d +:+ hex_byte c +:+ hex_byte b +:+ hex_byte a.

Definition is_byte (b : Z) : bool := (0 <=? b) && (b <? 256).
Lemma bytes_all (p : Z → bool) : forallb p (Z.of_nat <$> seq 0 256) = true → ∀ b, is_byte b = true → p b = true.
Proof.
  intros Hf b Hb. unfold is_byte in Hb. split_bool. rewrite forallb_forall in Hf. apply Hf, list_elem_of_In, list_elem_of_fmap.
  exists (Z.to_nat b). split; [lia|]. apply elem_of_seq. lia.
Qed.
Definition hex_ok (b : Z) : bool :=
  bool_decide (hex_digit (hex_char (b / 16)) = Some (b / 16) ∧ hex_digit (hex_char (b mod 16)) = Some (b mod 16)).
Lemma hex_all : forallb hex_ok (Z.of_nat <$> seq 0 256) = true.
Proof. vm_compute. reflexivity. Qed.
Lemma hex_byte_reads b : is_byte b = true → ∀ acc s, hex_acc acc (hex_byte b +:+ s) = hex_acc (256 * acc + b) s.
Proof.
  intros Hb acc s. unfold hex_byte.
  assert (hex_digit (hex_char (b / 16)) = Some (b / 16) ∧ hex_digit (hex_char (b mod 16)) = Some (b mod 16)) as [E1 E2].
  { pose proof (bytes_all hex_ok hex_all b Hb) as Hp. by apply bool_decide_eq_true in Hp. }
  change (hex_acc acc (String (hex_char (b / 16)) (String (hex_char (b mod 16)) s)) = hex_acc (256 * acc + b) s).
  cbn [hex_acc]. rewrite E1. cbn [hex_acc]. rewrite E2. f_equal. pose proof (Z.div_mod b 16). lia.
Qed.
Lemma int16_route a b c d :
  is_byte a = true → is_byte b = true → is_byte c = true → is_byte d = true →
  int16 (route_hex a b c d) = Some (a + 2 ^ 8 * (b + 2 ^ 8 * (c + 2 ^ 8 * d))).
Proof.
  intros Ha Hb Hc Hd. unfold route_hex, int16. assert (PyStr.truthy (hex_byte d +:+ hex_byte c +:+ hex_byte b +:+ hex_byte a) = true) as -> by done.
  rewrite !hex_byte_reads by done. rewrite <- (string_app_nil (hex_byte a)), hex_byte_reads by done. cbn [hex_acc]. f_equal. lia.
Qed.
Lemma byte_at_mod n i : 0 <= i → byte_at n i = (n / 2 ^ (8 * i)) mod 256.
Proof.
  intros Hi. unfold byte_at. rewrite Z.shiftr_div_pow2 by lia. change 255 with (Z.ones 8). by rewrite Z.land_ones by lia.
Qed.

(** The gateway of a box is recognised: from the line of the default route, an address
    is read back as the very dotted number it stands for. *)
Lemma gateway_is_read_back a b c d rest :
  is_byte a = true → is_byte b = true → is_byte c = true → is_byte d = true →
  route_hex a b c d ≠ "00000000" →
  Txt.words rest = ["eth0"; "00000000"; route_hex a b c d] →
  _host_gateways (Some ["Iface Destination Gateway"; rest]) =
  [pretty a +:+ "." +:+ pretty b +:+ "." +:+ pretty c +:+ "." +:+ pretty d].
Proof.
  intros Ha Hb Hc Hd Hne Hw. unfold _host_gateways, _read_default_gateway. cbn [drop gateway_of].
  rewrite Hw, String.eqb_refl. apply String.eqb_neq in Hne. rewrite Hne. cbn [negb andb].
  rewrite int16_route by done. unfold is_byte in *. split_bool.
  set (n := a + 2 ^ 8 * (b + 2 ^ 8 * (c + 2 ^ 8 * d))).
  rewrite (proj2 (Z.ltb_lt n (2 ^ 32))) by (unfold n; lia).
  unfold dotted. cbn [fmap list_fmap Txt.join]. rewrite !byte_at_mod by lia.
  change (2 ^ (8 * 0)) with 1. change (2 ^ (8 * 1)) with 256. change (2 ^ (8 * 2)) with 65536. change (2 ^ (8 * 3)) with 16777216.
  replace ((n / 1) mod 256) with a by (unfold n; Z.div_mod_to_equations; lia).
  replace ((n / 256) mod 256) with b by (unfold n; Z.div_mod_to_equations; lia).
  replace ((n / 65536) mod 256) with c by (unfold n; Z.div_mod_to_equations; lia).
  replace ((n / 16777216) mod 256) with d by (unfold n; Z.div_mod_to_equations; lia).
  done.
Qed.

(** ** Payloads that are not expected *)

Module ProbeDemo.
Definition net (ps stats : json) (metrics : string) : Http := {|
  http_get u := Ok (if Txt.endswith "/v1/models" u || Txt.endswith "/api/tags" u then Some 200 else None);
  http_json u := Ok (if Txt.endswith "/system_stats" u then stats else ps);
  http_text _ := Ok metrics;
  http_post _ _ := Ok 200;
  http_post_json _ _ := Ok JNull;
|}.
Definition ps (l : list json) : json := JObj [("models", JArr l)].
End ProbeDemo.

(** Three probes that promise never to raise do, on a body of an unexpected shape: a list
    of names where the entries should be objects, a number where a list should be, an
    infinite gauge. *)
Theorem probes_raise_on_surprising_bodies :
  @probe_gpu_placement (ProbeDemo.net (ProbeDemo.ps [JStr "m"]) JNull "") (Some "http://o") = Raise (AttributeError "get") ∧
  @comfyui_loaded (ProbeDemo.net JNull (JObj [("devices", JInt 1)]) "") (Some "http://c") 1 = Raise (TypeError "not iterable") ∧
  @vllm_activity (ProbeDemo.net JNull JNull "vllm:num_requests_running{model_name=m} +Inf") (Some "http://v") = Raise not_finite.
Proof. split_and!; vm_compute; reflexivity. Qed.

Lemma box_is_skipped_when_a_model_spills_witness :
  ∃ p, @probe_gpu_placement (ProbeDemo.net (ProbeDemo.ps [ps_entry (10, 4)]) JNull "") (Some "http://o/") = Ok p ∧
    gpu_usable ["ollama"] p = false.
Proof.
  destruct (@box_is_skipped_when_a_model_spills (ProbeDemo.net (ProbeDemo.ps [ps_entry (10, 4)]) JNull "")
    (Some "http://o/") "http://o" [("models", JArr (ps_entry <$> [(10, 4)]))] [(10, 4)] ["ollama"]) as (p & Hp & Hu);
    [reflexivity..|].
  exists p. split; [exact Hp|]. apply Hu. right. exists 10, 4. split; [left|lia].
Defined.

Lemma gateway_is_read_back_witness :
  _host_gateways (Some ["Iface Destination Gateway"; "eth0 00000000 010011AC"]) = ["172.17.0.1"].
Proof.
  apply (gateway_is_read_back 172 17 0 1 "eth0 00000000 010011AC"); [reflexivity..| |vm_compute; reflexivity].
  vm_compute. discriminate.
Defined.
