(* ===== verification/HwWatch.v ===== *)
(** * The hardware flight recorder ([queue_workflows/hw_watch.py])

    Samples of a box in two tiers: what the driver's throttle mask says, the readers of the
    kernel's counters (CPU, network), the derived numbers of a sample, when each tier is
    due, and how long its rows are kept.  The texts of commands and of [/proc] and [/sys]
    files are arguments; instants and spans are microseconds. *)

From S2P Require Import Prelude Json PyText Refs Schema NodeQueue Claim Reclaim Watchdogs WorkerLanes Catalog LlmProbe.
Local Open Scope string_scope.
Local Open Scope list_scope.
Local Open Scope Z_scope.

Definition TIER_DETAIL : string := "detail".
Definition TIER_HISTORY : string := "history".
Definition sec : Z := 1000000.

(** ** Settings *)

Section settings.
Context `{WorkerEnv}.
Definition enabled : result bool :=
  raw ← env_get "QUEUE_WORKFLOWS_HW_WATCH" None;
  Ok (negb (bool_decide (PyStr.lower (PyStr.strip (default "" raw)) ∈ [""; "0"; "false"; "no"]))).
(** A positive number, else the default; an infinity is kept by the source, and is no
    rational: it is read as the default here *)
Definition _env_float (name : string) (dflt : Q) : result Q :=
  raw ← env_get name None;
  let s := PyStr.strip (default "" raw) in
  Ok (if PyStr.truthy s
      then match Txt.py_float s with Some (Some q) => if Qle_bool q 0 then dflt else q | _ => dflt end
      else dflt).
Definition detail_interval_s : result Q := _env_float "QUEUE_WORKFLOWS_HW_WATCH_DETAIL_INTERVAL_S" 2.
Definition history_interval_s : result Q := _env_float "QUEUE_WORKFLOWS_HW_WATCH_HISTORY_INTERVAL_S" 60.
Definition detail_retention_s : result Z := trunc <$> _env_float "QUEUE_WORKFLOWS_HW_WATCH_DETAIL_RETENTION_S" 3600.
Definition history_retention_s : result Z := trunc <$> _env_float "QUEUE_WORKFLOWS_HW_WATCH_HISTORY_RETENTION_S" 86400.
End settings.

(** ** The throttle mask *)

Record throttle_bit := mkBit { bit : Z; bit_name : string; weight : Z }.
Definition _THROTTLE_BITS : list throttle_bit :=
  [mkBit 1 "gpu_idle" 0; mkBit 2 "applications_clocks_setting" 5; mkBit 4 "sw_power_cap" 30; mkBit 8 "hw_slowdown" 85;
   mkBit 16 "sync_boost" 5; mkBit 32 "sw_thermal" 50; mkBit 64 "hw_thermal" 100; mkBit 128 "hw_power_brake" 90;
   mkBit 256 "display_clock_setting" 5].

(** [int(raw, 16)] with its sign and prefix *)
Definition hex_prefix (s : string) : string :=
  if PyStr.startswith "0x" (PyStr.lower s) then PyStr.drop 2 s else s.
Definition _parse_throttle_mask (mask_hex : option string) : option Z :=
  match mask_hex with
  | None => None
  | Some m =>
      match PyStr.strip m with
      | EmptyString => None
      | String "-" r => Z.opp <$> int16 (hex_prefix r)
      | String "+" r => int16 (hex_prefix r)
      | s => int16 (hex_prefix s)
      end
  end.
Definition asserted (mask : Z) (b : throttle_bit) : bool := negb (Z.land mask (bit b) =? 0).
Definition index_of (mask : Z) : Z := foldr Z.max 0 (weight <$> List.filter (asserted mask) _THROTTLE_BITS).
Definition throttle_index (mask_hex : option string) : option Z := index_of <$> _parse_throttle_mask mask_hex.
Definition reasons_of (mask : Z) : list string :=
  bit_name <$> List.filter (λ b, asserted mask b && (0 <? weight b)) _THROTTLE_BITS.
Definition throttle_reasons (mask_hex : option string) : list string :=
  match _parse_throttle_mask mask_hex with Some m => reasons_of m | None => [] end.
Definition _BRAKE_BITS : Z := 136.
Definition _THERMAL_BITS : Z := 96.
Definition power_brake (mask_hex : option string) : option bool :=
  (λ m, negb (Z.land m _BRAKE_BITS =? 0)) <$> _parse_throttle_mask mask_hex.
Definition power_brake_pure (mask_hex : option string) : option bool :=
  (λ m, negb (Z.land m _BRAKE_BITS =? 0) && (Z.land m _THERMAL_BITS =? 0)) <$> _parse_throttle_mask mask_hex.

(** ** What the readers make of a text *)

(** [_num]: None is no number (or one that is no rational) *)
Definition _num (v : string) : option Q := match Txt.py_float (PyStr.strip v) with Some (Some q) => Some q | _ => None end.

Record gpu := mkGpu {
  temp_c : option Q; power_w : option Q; power_inst_w : option Q; sm_mhz : option Q; util_pct : option Q;
  mem_util_pct : option Q; pstate : option string; throttle_hex : option string; vram_used_mb : option Q;
  vram_total_mb : option Q; fan_pct : option Q;
}.
Definition or_none (s : string) : option string := if PyStr.truthy s then Some s else None.
(** One line of [nvidia-smi], with or without the fan *)
Definition nvidia_line (line : string) : option gpu :=
  match PyStr.strip <$> PyStr.split "," line with
  | [a; b; c; d; e; f; g; h; i; j] =>
      Some (mkGpu (_num a) (_num b) (_num c) (_num d) (_num e) (_num f) (or_none g) (or_none h) (_num i) (_num j) None)
  | [a; b; c; d; e; f; g; h; i; j; k] =>
      Some (mkGpu (_num a) (_num b) (_num c) (_num d) (_num e) (_num f) (or_none g) (or_none h) (_num i) (_num j) (_num k))
  | _ => None
  end.
Definition _nvidia_deep (raw : string) : list gpu := omap nvidia_line (Txt.splitlines raw).

(** The sensors of a directory: files that could not be read, or hold no number, are left out *)
Definition milli (raw : option string) : option Z := raw ≫= PyStr.int ∘ PyStr.strip.
Definition _read_thermal_zones (zones : list (option string * option string)) : list (string * Z) :=
  omap (λ zt, match zt.1, milli zt.2 with Some ty, Some m => Some (PyStr.strip ty, m) | _, _ => None end) zones.
(** [_read_hwmon_temps] and [_read_hwmon_fans]: a chip with at least one reading *)
Definition _read_hwmon (chips : list (option string * list (option string))) : list (string * list Z) :=
  omap (λ ct, match ct.1 with
              | Some name => match omap milli ct.2 with [] => None | l => Some (PyStr.strip name, l) end
              | None => None
              end) chips.

(** [_gpu_violations]: the lines [label : digits us] of the driver's report *)
Definition _VIOLATION_LABELS : list (string * string) :=
  [("SW Power Capping", "sw_power_us"); ("HW Power Braking", "hw_power_brake_us");
   ("SW Thermal Slowdown", "sw_thermal_us"); ("HW Thermal Slowdown", "hw_thermal_us")].
Definition _VIOLATION_RE (line : string) : option (string * Z) :=
  let l := PyStr.lstrip line in
  lk ← list_find (λ lk : string * string, PyStr.startswith lk.1 l) _VIOLATION_LABELS;
  match PyStr.lstrip (PyStr.removeprefix lk.2.1 l) with
  | String ":" r =>
      let '(digits, r) := Txt.span PyStr.is_digit (PyStr.lstrip r) in
      let r := PyStr.lstrip r in
      if PyStr.truthy digits && PyStr.startswith "us" r && negb (PyStr.truthy (PyStr.strip (PyStr.drop 2 r)))
      then Some (lk.2.2, PyStr.int_of_digits digits) else None
  | _ => None
  end.
Definition _gpu_violations (raw : string) : list (string * Z) :=
  foldl (λ out kv, dict_set kv.1 kv.2 out) [] (omap _VIOLATION_RE (Txt.splitlines raw)).

(** [_rocm_deep] of the object [rocm-smi] printed: of each card, the first temperature,
    then the first power, then the first use *)
Definition rocm_field `{PyEnv} (acc : option Q * option Q * option Q) (kv : string * json) : option Q * option Q * option Q :=
  let '(temp, power, use) := acc in
  let lk := PyStr.lower kv.1 in
  if is_null temp && PyStr.contains "temperature" lk then (_num (py_str kv.2), power, use)
  else if is_null power && PyStr.contains "power" lk then (temp, _num (py_str kv.2), use)
  else if is_null use && PyStr.contains "gpu use" lk then (temp, power, _num (Txt.rstrip_char "%" (py_str kv.2)))
  else (temp, power, use).
Definition rocm_card `{PyEnv} (val : json) : result gpu :=
  fs ← (if truthy val then match val with JObj fs => Ok fs | _ => Raise (AttributeError "items") end else Ok []);
  let '(temp, power, use) := foldl rocm_field (None, None, None) fs in
  Ok (mkGpu temp power None None use None None None None None None).
Definition _rocm_deep `{PyEnv} (data : dict) : result (list gpu) :=
  mapR (λ kv, rocm_card kv.2) (sort_by (PyStr.key ∘ fst) (List.filter (λ kv, PyStr.startswith "card" kv.1) data)).

(** *** Memory *)

Definition meminfo_keys : list (string * string) :=
  [("MemTotal", "total_kb"); ("MemFree", "free_kb"); ("MemAvailable", "available_kb");
   ("SwapTotal", "swap_total_kb"); ("SwapFree", "swap_free_kb")].
Definition _read_meminfo (lines : list string) : result (list (string * Z)) :=
  foldl (λ out line,
    out ← out;
    match dict_get (PyStr.split1 ":" line).1 meminfo_keys with
    | None => Ok out
    | Some k =>
        match Txt.words line !! 1%nat with
        | None => Raise (OtherError "IndexError: line.split()")
        | Some w => match PyStr.int w with Some n => Ok (dict_set k n out) | None => Raise (ValueError "int") end
        end
    end) (Ok []) lines.

(** *** CPU *)

(** [_proc_stat_jiffies] of the fields after the first; None is an exception *)
Definition _proc_stat_jiffies (fields : list string) : option (Z * Z) :=
  vals ← mapM PyStr.int fields;
  idle ← vals !! 3%nat;
  Some (idle + default 0 (vals !! 4%nat), foldr Z.add 0 vals).
Definition round1 (q : Q) : Q := (inject_Z (Txt.round_half_even (q * 10)) / 10)%Q.
Definition _read_cpu_percent (s0 s1 : option (Z * Z)) : option Q :=
  match s0, s1 with
  | Some (idle0, total0), Some (idle1, total1) =>
      let dt := total1 - total0 in
      if dt <=? 0 then None else Some (round1 (100 * (1 - inject_Z (idle1 - idle0) / inject_Z dt)))
  | _, _ => None
  end.
Definition _read_cpu_throttle_count (cores : list (option string)) : option Z :=
  match omap milli cores with [] => None | l => Some (foldr Z.add 0 l) end.

Definition mean (l : list Q) : Q := (foldr Qplus 0 l / inject_Z (Z.of_nat (length l)))%Q.
(** [_read_cpu_freq_mhz]: the cores' own files, else the lines of [/proc/cpuinfo] (None
    when it cannot be opened); a line without a colon and a value that is not finite raise *)
Fixpoint cpu_mhz (lines : list string) : result (option (list Q)) :=
  match lines with
  | [] => Ok (Some [])
  | line :: r =>
      if negb (PyStr.startswith "cpu mhz" (PyStr.lower line)) then cpu_mhz r else
      match (PyStr.split1 ":" line).2 with
      | None => Raise (OtherError "IndexError: line.split(':', 1)")
      | Some v =>
          match Txt.py_float v with
          | None => Ok None
          | Some None => rest ← cpu_mhz r; match rest with Some _ => Raise (ValueError "round") | None => Ok None end
          | Some (Some q) => rest ← cpu_mhz r; Ok (option_map (cons q) rest)
          end
      end
  end.
Definition _read_cpu_freq_mhz (cores : list (option string)) (cpuinfo : option (list string)) : result (option Z) :=
  match omap milli cores with
  | [] =>
      match cpuinfo with
      | None => Ok None
      | Some lines =>
          mhz ← cpu_mhz lines;
          Ok (match mhz with Some (q :: l) => Some (Txt.round_half_even (mean (q :: l))) | _ => None end)
      end
  | l => Ok (Some (Txt.round_half_even (mean (inject_Z <$> l) / 1000)%Q))
  end.

(** [_read_cpu_temp_c]: a CPU's own chip, else a zone of a CPU, else the hottest generic
    zone *)
Definition max_of (l : list Z) : option Z := match l with [] => None | x :: r => Some (foldr Z.max x r) end.
Definition celsius (m : Z) : Q := round1 (inject_Z m / 1000)%Q.
Definition cpu_chips : list string := ["coretemp"; "k10temp"; "zenpower"; "cpu_thermal"; "x86_pkg_temp"].
Definition cpu_zone (ty : string) : bool := existsb (λ k, PyStr.contains k ty) ["x86_pkg"; "cpu"; "coretemp"].
Definition chip_temp (ct : option string * list (option string)) : option Z :=
  match ct.1 with
  | Some name => if bool_decide (PyStr.strip name ∈ cpu_chips) then max_of (omap milli ct.2) else None
  | None => None
  end.
Definition zone_temp (wanted : string → bool) (zt : option string * option string) : option Z :=
  match zt.1 with
  | Some ty => if wanted (PyStr.lower (PyStr.strip ty)) then milli zt.2 else None
  | None => None
  end.
Definition _read_cpu_temp_c (chips : list (option string * list (option string))) (zones : list (option string * option string))
    : option Q :=
  celsius <$> match head (omap chip_temp chips) with
              | Some m => Some m
              | None => match head (omap (zone_temp cpu_zone) zones) with
                        | Some m => Some m
                        | None => max_of (omap (zone_temp (PyStr.contains "acpitz")) zones)
                        end
              end.

Record cpu := mkCpu { percent : option Q; freq_mhz : option Z; cpu_temp_c : option Q; throttle_count : option Z; ncpu : option Z }.
Definition _cpu_stats (pct : option Q) (freq : result (option Z)) (temp : option Q) (throttled : option Z) (n : result (option Z)) : cpu :=
  mkCpu pct (guarded None freq) temp throttled (guarded None n).

(** *** Network *)

Record counters := mkCounters {
  rx_bytes : Z; rx_packets : Z; rx_errs : Z; rx_drop : Z; tx_bytes : Z; tx_packets : Z; tx_errs : Z; tx_drop : Z;
}.
Definition _NET_VIRTUAL_PREFIXES : list string :=
  ["docker"; "veth"; "br-"; "virbr"; "tap"; "tun"; "cni"; "flannel"; "kube"; "cali"; "vnet"; "vmnet"; "vxlan"; "wg";
   "tailscale"; "zt"; "ppp"; "gre"; "sit"].
Definition _iface_is_virtual (name : string) : bool :=
  String.eqb name "lo" || existsb (λ p, PyStr.startswith p name) _NET_VIRTUAL_PREFIXES.
(** One row of [/proc/net/dev]: None when it is skipped *)
Definition net_row (line : string) : option (string * counters) :=
  match PyStr.split1 ":" line with
  | (_, None) => None
  | (name, Some rest) =>
      let name := PyStr.strip name in
      if negb (PyStr.truthy name) || String.eqb name "lo" then None else
      let cols := Txt.words rest in
      if (length cols <? 16)%nat then None else
      match mapM PyStr.int (take 16 cols) with
      | Some [a; b; c; d; _; _; _; _; e; f; g; h; _; _; _; _] => Some (name, mkCounters a b c d e f g h)
      | _ => None
      end
  end.
Definition _parse_net_dev (text : string) : list (string * counters) :=
  foldl (λ out nc, dict_set nc.1 nc.2 out) [] (omap net_row (drop 2 (Txt.splitlines text))).

(** The link of an interface, as [/sys/class/net] has it *)
Record link := mkLink { operstate : option string; carrier : option bool; speed_mbps : option Z; physical : bool; enslaved : bool }.
Record sysfs := mkSysfs { f_speed : option string; f_carrier : option string; f_operstate : option string; f_device : bool; f_master : bool }.
(** [_net_iface_meta] and [_iface_is_enslaved] *)
Definition _net_iface_meta (f : sysfs) : link :=
  mkLink (PyStr.strip <$> f_operstate f) ((λ c, String.eqb (PyStr.strip c) "1") <$> f_carrier f)
    (s ← f_speed f; n ← PyStr.int (PyStr.strip s); if 0 <? n then Some n else None)
    (f_device f) (f_master f).

Record net := mkNet { ifaces : list (string * (counters * link)); net_rx_bytes : Z; net_tx_bytes : Z; net_speed_mbps : option Z }.
Definition counts (i : string * (counters * link)) : bool :=
  negb (enslaved i.2.2) && negb (bool_decide (operstate i.2.2 = Some "down")).
Definition _net_stats (devs : list (string * counters)) (sys : string → sysfs) : net :=
  let shown := (λ nc : string * counters, (nc.1, (nc.2, _net_iface_meta (sys nc.1))))
               <$> List.filter (λ nc, negb (_iface_is_virtual nc.1)) (sort_by (PyStr.key ∘ fst) devs) in
  let up := List.filter counts shown in
  mkNet shown (sum_of (λ i, rx_bytes i.2.1) up) (sum_of (λ i, tx_bytes i.2.1) up) (max_of (omap (λ i, speed_mbps i.2.2) up)).

(** [_rate]: bytes per second between two samples, or a gap *)
Definition rate (a b : option Z) (dt_s : option Q) : option Q :=
  match a, b, dt_s with
  | Some a, Some b, Some dt => if Qle_bool dt 0 || (b <? a) then None else Some (inject_Z (b - a) / dt)%Q
  | _, _, _ => None
  end.
Definition net_rates (prev curr : option net) (dt_s : option Q) : option Q * option Q :=
  (rate (net_rx_bytes <$> prev) (net_rx_bytes <$> curr) dt_s, rate (net_tx_bytes <$> prev) (net_tx_bytes <$> curr) dt_s).

(** *** One sample *)

(** A GPU with its derived fields *)
Record gpu_row := mkGpuRow { g_gpu : gpu; g_index : option Z; g_reasons : list string; g_violations : option (list (string * Z)) }.
Record deep := mkDeep {
  d_gpu : list gpu_row; d_tz : list (string * Z); d_hwmon : list (string * list Z); d_fan : list (string * list Z);
  d_mem : list (string * Z); d_load1 : option Q; d_disk : option Z; d_cpu : option cpu; d_net : option net;
  d_fan_rpm_max : option Z; d_gpu_fan_pct : option Q; d_throttle_index : option Z;
  d_net_rx : option Z; d_net_tx : option Z; d_net_speed : option Z;
}.
(** What the probes came to; a probe that raises leaves its empty shape *)
Record probed := mkProbed {
  p_gpu : result (list gpu); p_tz : result (list (string * Z)); p_hwmon : result (list (string * list Z));
  p_fan : result (list (string * list Z)); p_mem : result (list (string * Z)); p_load1 : result (option Q);
  p_disk : result (option Z); p_cpu : result cpu; p_net : result net; p_violations : result (list (string * Z));
}.
Definition worst_throttle (gpus : list gpu) : option Z := max_of (omap (λ g, throttle_index (throttle_hex g)) gpus).
Definition fan_rpm_max (fans : list (string * list Z)) : option Z := max_of (fans ≫= snd).
Definition with_violations (vio : list (string * Z)) (rows : list gpu_row) : list gpu_row :=
  match rows, vio with
  | g :: r, _ :: _ => mkGpuRow (g_gpu g) (g_index g) (g_reasons g) (Some vio) :: r
  | _, _ => rows
  end.
Definition deep_sample (p : probed) : deep :=
  let gpus := guarded [] (p_gpu p) in
  let fans := guarded [] (p_fan p) in
  let n := guarded None (Some <$> p_net p) in
  let rows := (λ g, mkGpuRow g (throttle_index (throttle_hex g)) (throttle_reasons (throttle_hex g)) None) <$> gpus in
  mkDeep (with_violations (guarded [] (p_violations p)) rows) (guarded [] (p_tz p)) (guarded [] (p_hwmon p)) fans
    (guarded [] (p_mem p)) (guarded None (p_load1 p)) (guarded None (p_disk p)) (guarded None (Some <$> p_cpu p)) n
    (fan_rpm_max fans) (head (omap fan_pct gpus)) (worst_throttle gpus)
    (net_rx_bytes <$> n) (net_tx_bytes <$> n) (n ≫= net_speed_mbps).

(** ** Rows *)

Record sample := mkSample { s_host : string; s_box : option string; s_project : string; s_tier : string; s_data : json; s_created : Z }.

(** [record_hw_sample]: a failure of the store is swallowed *)
Definition record_hw_sample (store_ok : bool) (host_label : string) (box : option string) (project tier : string) (data : json)
    (now : Z) (t : list sample) : option Z * list sample :=
  if store_ok then (Some 1, t ++ [mkSample host_label box project tier data now]) else (None, t).

Definition recent_hw_samples (host_label : option string) (tier : string) (since_s : Z) (limit : nat) (now : Z) (t : list sample)
    : list sample :=
  take limit (sort_by (λ s, [- s_created s])
    (List.filter (λ s, String.eqb (s_tier s) tier && (now - since_s * sec <=? s_created s)
                       && match host_label with Some h => String.eqb (s_host s) h | None => true end) t)).

Definition expired (tier : string) (retention_s now : Z) (s : sample) : bool :=
  String.eqb (s_tier s) tier && (s_created s <? now - retention_s * sec).
Definition prune_hw_watch (store_ok : bool) (detail_s history_s now : Z) (t : list sample) : Z * Z * list sample :=
  if store_ok then
    let t1 := List.filter (λ s, negb (expired TIER_DETAIL detail_s now s)) t in
    let t2 := List.filter (λ s, negb (expired TIER_HISTORY history_s now s)) t1 in
    (Z.of_nat (count (expired TIER_DETAIL detail_s now) t), Z.of_nat (count (expired TIER_HISTORY history_s now) t1), t2)
  else (0, 0, t).

(** ** The cadence *)

Record recorder := mkRecorder { detail_every : Z; history_every : Z; next_detail : Z; next_history : Z }.
Definition fresh_recorder (detail history : Z) : recorder := mkRecorder detail history 0 0.
Definition rec_tick (now : Z) (r : recorder) : list string * recorder :=
  let d := next_detail r <=? now in
  let h := next_history r <=? now in
  ((if d then [TIER_DETAIL] else []) ++ (if h then [TIER_HISTORY] else []),
   mkRecorder (detail_every r) (history_every r) (if d then now + detail_every r else next_detail r)
     (if h then now + history_every r else next_history r)).

Section recording.
Variables (host project : string) (box : option string).
(** One tick with its writes: the clock reads [now], the database stamps the rows with
    [stamp], and [fails] are the tiers it refuses *)
Definition tick_and_record (fails : string → bool) (data : json) (now stamp : Z) (st : recorder * list sample)
    : recorder * list sample :=
  let '(due, r) := rec_tick now st.1 in
  (r, foldl (λ t tier, (record_hw_sample (negb (fails tier)) host box project tier data stamp t).2) st.2 due).

(** *** [queue-hw-watch] *)

(** A turn of the command's loop: the clock before and after the tick, the database's clock
    at the write and at the prune *)
Record turn := mkTurn { t_now : Z; t_stamp : Z; t_after : Z; t_prune : Z; t_fails : string → bool; t_data : json }.
Record loop_state := mkLoop { l_rec : recorder; l_rows : list sample; l_next_prune : Z }.
Definition PRUNE_EVERY : Z := 300 * sec.
Definition main_turn (detail_s history_s : Z) (x : turn) (st : loop_state) : loop_state :=
  let '(r, rows) := tick_and_record (t_fails x) (t_data x) (t_now x) (t_stamp x) (l_rec st, l_rows st) in
  if l_next_prune st <=? t_after x
  then mkLoop r (prune_hw_watch true detail_s history_s (t_prune x) rows).2 (t_after x + PRUNE_EVERY)
  else mkLoop r rows (l_next_prune st).
Definition main_loop (detail_s history_s : Z) (turns : list turn) (st : loop_state) : loop_state :=
  foldl (λ st x, main_turn detail_s history_s x st) st turns.
End recording.

(** ** The ring is bounded *)

Section ring.
Context (host project : string) (box : option string) (tier : string) (detail_s history_s delay : Z).
Hypothesis Htier : tier = TIER_DETAIL ∨ tier = TIER_HISTORY.

Definition of_tier (s : sample) : bool := String.eqb (s_tier s) tier.
Definition every_of (r : recorder) : Z := if String.eqb tier TIER_DETAIL then detail_every r else history_every r.
Definition next_of (r : recorder) : Z := if String.eqb tier TIER_DETAIL then next_detail r else next_history r.
Definition retention_of : Z := if String.eqb tier TIER_DETAIL then detail_s else history_s.

(** Instants that are [e] apart, in an interval of length [span]: how many fit *)
Definition apart (e : Z) : Z * sample → Z * sample → Prop := λ p q, p.1 + e ≤ q.1.
Lemma spaced_length e lo hi ps :
  0 < e → StronglySorted (apart e) ps → (∀ p, p ∈ ps → lo ≤ p.1 ≤ hi) →
  Z.of_nat (length ps) ≤ Z.max 0 ((hi - lo) / e + 1).
Proof.
  intros He. revert lo. induction ps as [|p ps IH]; intros lo Hs Hb; [simpl; lia|].
  apply StronglySorted_inv in Hs as [Hs Hp]. rewrite Forall_forall in Hp.
  specialize (IH (lo + e) Hs). pose proof (Hb p (list_elem_of_here _ _)) as [Hlo Hhi].
  assert (∀ q, q ∈ ps → lo + e ≤ q.1 ≤ hi) as Hq.
  { intros q Hq. pose proof (Hp q Hq). pose proof (Hb q (list_elem_of_further _ _ _ Hq)). unfold apart in *. lia. }
  specialize (IH Hq). replace (hi - (lo + e)) with (hi - lo + (-1) * e) in IH by lia.
  rewrite Z.div_add in IH by lia. pose proof (Z.div_pos (hi - lo) e ltac:(lia) He). simpl length. lia.
Qed.

Lemma StronglySorted_Lfilter {A} (R : A → A → Prop) (p : A → bool) l :
  StronglySorted R l → StronglySorted R (List.filter p l).
Proof.
  induction 1 as [|x l _ IH Hx]; simpl; [constructor|]. destruct (p x); [|done]. constructor; [done|].
  rewrite Forall_forall in *. intros y Hy. apply Hx. by apply elem_of_Lfilter in Hy as [? _].
Qed.

Lemma Lfilter_Lfilter {A} (p q : A → bool) l : List.filter p (List.filter q l) = List.filter (λ x, q x && p x) l.
Proof. induction l as [|x l IH]; [done|]. simpl. destruct (q x); simpl; [destruct (p x); by rewrite IH|done]. Qed.

(** The rows of the tier, each with the tick that wrote it *)
Record ring (e : Z) (st : recorder * list sample) (ps : list (Z * sample)) : Prop := {
  ring_rows : ps.*2 = List.filter of_tier st.2;
  ring_spaced : StronglySorted (apart e) ps;
  ring_stamp : ∀ p, p ∈ ps → p.1 ≤ s_created p.2 ≤ p.1 + delay;
  ring_next : ∀ p, p ∈ ps → p.1 + e ≤ next_of st.1;
  ring_every : every_of st.1 = e;
}.

Lemma rec_tick_next now r :
  every_of (rec_tick now r).2 = every_of r
  ∧ next_of (rec_tick now r).2 = if next_of r <=? now then now + every_of r else next_of r.
Proof. unfold every_of, next_of. simpl. by destruct Htier as [-> | ->]; simpl. Qed.

(** The rows a tick leaves in the tier *)
Lemma tick_rows fails data now stamp st :
  ∃ new, List.filter of_tier (tick_and_record host project box fails data now stamp st).2 = List.filter of_tier st.2 ++ new
         ∧ (new = [] ∨ next_of st.1 <= now ∧ ∃ s, new = [s] ∧ s_created s = stamp).
Proof.
  destruct st as [r t]. unfold tick_and_record, rec_tick, record_hw_sample, next_of, of_tier. cbn [fst snd].
  destruct Htier as [-> | ->]; cbn;
    destruct (Z.leb_spec (next_detail r) now), (Z.leb_spec (next_history r) now); cbn;
    destruct (fails TIER_DETAIL); cbn; try destruct (fails TIER_HISTORY); cbn;
    rewrite ?List.filter_app; cbn; rewrite ?app_nil_r;
    first [exists []; split; [by rewrite ?app_nil_r|by left]
          | eexists [_]; split; [reflexivity|right; split; [lia|eexists; split; reflexivity]]].
Qed.

Lemma ring_tick e fails data now stamp st ps :
  ring e st ps → 0 < e → now ≤ stamp ≤ now + delay →
  ∃ ps', ring e (tick_and_record host project box fails data now stamp st) ps'
         ∧ ∀ p, p ∈ ps' → p ∈ ps ∨ p.1 = now ∧ s_created p.2 = stamp.
Proof.
  intros [Hrows Hsp Hst Hnx Hev] He Hstamp.
  destruct (tick_rows fails data now stamp st) as (new & Hnew & Hcase).
  destruct (rec_tick_next now st.1) as [Hev' Hnx'].
  assert ((tick_and_record host project box fails data now stamp st).1 = (rec_tick now st.1).2) as Hr by done.
  exists (ps ++ (pair now <$> new)). split; [split|].
  - rewrite fmap_app, Hrows, Hnew. f_equal. by destruct Hcase as [-> | (_ & s & -> & _)].
  - apply StronglySorted_app_2; [|done|].
    + intros p q Hp Hq. destruct Hcase as [-> | (Hdue & s & -> & _)]; [set_solver|].
      apply list_elem_of_singleton in Hq as ->. unfold apart; simpl. pose proof (Hnx p Hp). lia.
    + destruct Hcase as [-> | (_ & s & -> & _)]; repeat constructor.
  - intros p [Hp|Hp]%elem_of_app; [by apply Hst|].
    destruct Hcase as [-> | (_ & s & -> & Hs)]; [set_solver|]. apply list_elem_of_singleton in Hp as ->. simpl. lia.
  - intros p Hp. rewrite Hr, Hnx', Hev. apply elem_of_app in Hp as [Hp|Hp].
    + pose proof (Hnx p Hp). destruct (Z.leb_spec (next_of st.1) now); lia.
    + destruct Hcase as [-> | (Hdue & s & -> & Hs)]; [set_solver|]. apply list_elem_of_singleton in Hp as ->.
      destruct (Z.leb_spec (next_of st.1) now); simpl; lia.
  - by rewrite Hr, Hev'.
  - intros p [Hp|Hp]%elem_of_app; [by left|right].
    destruct Hcase as [-> | (_ & s & -> & Hs)]; [set_solver|]. by apply list_elem_of_singleton in Hp as ->.
Qed.

Lemma pruned_rows now t :
  List.filter of_tier (prune_hw_watch true detail_s history_s now t).2
  = List.filter (λ s, now - retention_of * sec <=? s_created s) (List.filter of_tier t).
Proof.
  unfold prune_hw_watch. simpl. rewrite !Lfilter_Lfilter. apply List.filter_ext. intros s.
  unfold of_tier, retention_of, expired.
  destruct (decide (s_tier s = tier)) as [E|E]; [|apply String.eqb_neq in E; rewrite E; by rewrite !andb_false_r].
  rewrite E, String.eqb_refl, Z.leb_antisym.
  destruct Htier as [-> | ->]; simpl; by rewrite ?andb_true_r.
Qed.

(** The clocks of the loop's turns: none runs backwards, and a sample is in the database
    within [delay] of its tick *)
Fixpoint clocked (t : Z) (turns : list turn) : Prop :=
  match turns with
  | [] => True
  | x :: r => t ≤ t_now x ∧ t_now x ≤ t_stamp x ≤ t_now x + delay ∧ t_stamp x ≤ t_after x ≤ t_prune x ∧ clocked (t_after x) r
  end.

Record recent_ring (e t : Z) (st : loop_state) (ps : list (Z * sample)) : Prop := {
  rr_ring : ring e (l_rec st, l_rows st) ps;
  rr_past : ∀ p, p ∈ ps → p.1 ≤ t;
  rr_kept : ∀ p, p ∈ ps → l_next_prune st - PRUNE_EVERY - retention_of * sec ≤ s_created p.2;
  rr_prune : l_next_prune st - PRUNE_EVERY ≤ t;
}.

Lemma turn_keeps_ring e t x st ps :
  recent_ring e t st ps → 0 < e → 0 ≤ retention_of → clocked t [x] →
  ∃ ps', recent_ring e (t_after x) (main_turn host project box detail_s history_s x st) ps'
         ∧ t_after x < l_next_prune (main_turn host project box detail_s history_s x st).
Proof.
  intros [Hring Hpast Hkept Hpr] He HR (Hnow & Hstamp & Hafter & _).
  destruct (ring_tick e (t_fails x) (t_data x) (t_now x) (t_stamp x) _ ps Hring He Hstamp) as (ps' & Hring' & Hnew).
  assert (∀ p, p ∈ ps' → p.1 ≤ t_after x) as Hpast'.
  { intros p Hp. destruct (Hnew p Hp) as [Ho|[-> _]]; [pose proof (Hpast p Ho)|]; lia. }
  unfold main_turn.
  destruct (tick_and_record host project box _ _ _ _ _) as [r rows] eqn:E.
  destruct (Z.leb_spec (l_next_prune st) (t_after x)) as [L|L].
  - exists (List.filter (λ p, t_prune x - retention_of * sec <=? s_created p.2) ps'). split; [|simpl; unfold PRUNE_EVERY, sec; lia].
    destruct Hring' as [Hrows Hsp Hst Hnx Hev]. split; cbn [l_rec l_rows l_next_prune fst snd] in *; [split; cbn [l_rec l_rows l_next_prune fst snd] in *| | |].
    + rewrite (pruned_rows (t_prune x) rows), <- Hrows. clear.
      induction ps' as [|p ps IH]; [done|]. simpl. destruct (_ <=? _); cbn; by f_equal.
    + by apply StronglySorted_Lfilter.
    + intros p [Hp _]%elem_of_Lfilter. by apply Hst.
    + intros p [Hp _]%elem_of_Lfilter. by apply Hnx.
    + done.
    + intros p [Hp _]%elem_of_Lfilter. by apply Hpast'.
    + intros p [_ Hp%Z.leb_le]%elem_of_Lfilter. lia.
    + lia.
  - exists ps'. split; [|simpl; lia]. split; simpl; [done|done| |lia].
    intros p Hp. destruct (Hnew p Hp) as [Ho|[_ ->]]; [by apply Hkept|]. unfold sec in *. lia.
Qed.

Lemma loop_keeps_ring e turns t st ps :
  recent_ring e t st ps → 0 < e → 0 ≤ retention_of → clocked t turns → turns ≠ [] →
  ∃ t' ps', recent_ring e t' (main_loop host project box detail_s history_s turns st) ps'
            ∧ t' < l_next_prune (main_loop host project box detail_s history_s turns st).
Proof.
  intros Hr He HR. revert t st ps Hr. induction turns as [|x turns IH]; [done|]. intros t st ps Hr (H1 & H2 & H3 & Hc) _.
  destruct (turn_keeps_ring e t x st ps Hr He HR) as (ps' & Hr' & Hlt); [by repeat split; try apply H2; try apply H3|].
  destruct turns as [|y turns]; [by exists (t_after x), ps'|].
  by apply (IH (t_after x) _ ps').
Qed.

Lemma ring_size e t st ps :
  recent_ring e t st ps → t < l_next_prune st → 0 < e → 0 ≤ retention_of → 0 ≤ delay →
  Z.of_nat (count of_tier (l_rows st)) ≤ (retention_of * sec + delay + PRUNE_EVERY) / e + 1.
Proof.
  intros [Hring Hpast Hkept Hpr] Hlt He HR Hd. destruct Hring as [Hrows Hsp Hst _ _].
  unfold count. simpl in Hrows. rewrite <- Hrows, length_fmap.
  etrans; [apply (spaced_length e (t - PRUNE_EVERY - retention_of * sec - delay) t ps He Hsp)|].
  - intros p Hp. pose proof (Hpast p Hp). pose proof (Hkept p Hp). pose proof (Hst p Hp). lia.
  - replace (t - _) with (retention_of * sec + delay + PRUNE_EVERY) by lia.
    pose proof (Z.div_pos (retention_of * sec + delay + PRUNE_EVERY) e). unfold PRUNE_EVERY, sec in *. lia.
Qed.
End ring.

(** The flight recorder of a box keeps a bounded trail however long it runs and
    whichever writes fail: at the end of every turn of the command's loop, a tier has at most
    one row more than its interval fits into its retention, the five minutes between two
    prunes and the delay of a write. *)
Lemma flight_trail_is_bounded host project box tier detail history detail_s history_s delay turns
    (Htier : tier = TIER_DETAIL ∨ tier = TIER_HISTORY)
    (Hd : 0 < detail) (Hh : 0 < history) (Hds : 0 ≤ detail_s) (Hhs : 0 ≤ history_s) (Hdelay : 0 ≤ delay)
    (Hclock : clocked delay 0 turns) :
  Z.of_nat (count (of_tier tier)
              (l_rows (main_loop host project box detail_s history_s turns (mkLoop (fresh_recorder detail history) [] 0))))
  ≤ (retention_of tier detail_s history_s * sec + delay + PRUNE_EVERY) / every_of tier (fresh_recorder detail history) + 1.
Proof.
  set (e := every_of tier (fresh_recorder detail history)).
  assert (0 < e) as He by (subst e; destruct Htier as [-> | ->]; done).
  assert (0 ≤ retention_of tier detail_s history_s) as HR by (destruct Htier as [-> | ->]; done).
  destruct turns as [|x turns].
  { cbn. unfold PRUNE_EVERY, sec in *. pose proof (Z.div_pos (retention_of tier detail_s history_s * 1000000 + delay + 300 * 1000000) e). lia. }
  destruct (loop_keeps_ring host project box tier detail_s history_s delay Htier e (x :: turns) 0
              (mkLoop (fresh_recorder detail history) [] 0) []) as (t & ps & Hr & Hlt); try done.
  { split; simpl; [split; simpl; try done; [constructor|set_solver|set_solver] | set_solver | set_solver | done]. }
  by apply (ring_size tier detail_s history_s delay e t _ ps).
Qed.

(** ** What the mask says *)

Lemma worst_weight_spec l : (∀ x, x ∈ l → 0 ≤ x) →
  (∀ x, x ∈ l → x ≤ foldr Z.max 0 l) ∧ (foldr Z.max 0 l = 0 ∨ foldr Z.max 0 l ∈ l).
Proof.
  induction l as [|y l IH]; intros Hp; simpl; [set_solver|].
  destruct IH as [IH1 IH2]; [set_solver|]. pose proof (Hp y (list_elem_of_here _ _)). split.
  - intros x [->|Hx]%elem_of_cons; [lia|]. pose proof (IH1 x Hx). lia.
  - destruct (Z.max_spec y (foldr Z.max 0 l)) as [[? ->]|[? ->]]; [|set_solver].
    destruct IH2; [by left|set_solver].
Qed.

Lemma weights_bounded b : b ∈ _THROTTLE_BITS → 0 ≤ weight b ≤ 100.
Proof. unfold _THROTTLE_BITS. rewrite !elem_of_cons, elem_of_nil. by intros [->|[->|[->|[->|[->|[->|[->|[->|[->|[]]]]]]]]]]. Qed.

(** The severity of a mask is that of its worst asserted bit: on a scale of 0 to 100,
    at least the weight of each bit the mask asserts and the weight of one of them, zero
    exactly when no reason is named, and a mask that asserts more bits is no less severe. *)
Lemma severity_is_the_worst_reason m :
  0 ≤ index_of m ≤ 100
  ∧ (∀ b, b ∈ _THROTTLE_BITS → asserted m b = true → weight b ≤ index_of m)
  ∧ (index_of m = 0 ∨ ∃ b, b ∈ _THROTTLE_BITS ∧ asserted m b = true ∧ index_of m = weight b)
  ∧ (index_of m = 0 ↔ reasons_of m = [])
  ∧ ∀ m', index_of m ≤ index_of (Z.lor m m').
Proof.
  assert (∀ k, ∀ b, b ∈ _THROTTLE_BITS → asserted k b = true → weight b ≤ index_of k) as Hup.
  { intros k b Hb Ha. unfold index_of. apply worst_weight_spec.
    - intros x (c & -> & Hc)%list_elem_of_fmap. apply elem_of_Lfilter in Hc as [Hc _]. by apply weights_bounded.
    - apply list_elem_of_fmap_2. by apply elem_of_Lfilter. }
  assert (∀ k, index_of k = 0 ∨ ∃ b, b ∈ _THROTTLE_BITS ∧ asserted k b = true ∧ index_of k = weight b) as Hat.
  { intros k. unfold index_of.
    destruct (worst_weight_spec (weight <$> List.filter (asserted k) _THROTTLE_BITS)) as [_ [E|E]]; [|by left|right].
    - intros x (c & -> & Hc)%list_elem_of_fmap. apply elem_of_Lfilter in Hc as [Hc _]. by apply weights_bounded.
    - apply list_elem_of_fmap in E as (b & Eb & Hb). apply elem_of_Lfilter in Hb as [Hb Ha]. eauto. }
  split; [|split; [by apply Hup|split; [by apply Hat|split]]].
  - destruct (Hat m) as [->|(b & Hb & _ & ->)]; [lia|by apply weights_bounded].
  - unfold reasons_of. split.
    + intros E. rewrite Lfilter_none; [done|]. intros b Hb.
      destruct (asserted m b) eqn:Ea; [simpl|done]. pose proof (Hup m b Hb Ea). apply Z.ltb_ge. lia.
    + intros E. destruct (Hat m) as [->|(b & Hb & Ha & Ew)]; [done|].
      destruct (Z.ltb_spec 0 (weight b)) as [L|L]; [|pose proof (weights_bounded b Hb); lia].
      apply (f_equal length) in E. rewrite length_fmap in E. apply nil_length_inv in E.
      assert (b ∈ List.filter (λ b, asserted m b && (0 <? weight b)) _THROTTLE_BITS) as Hin.
      { apply elem_of_Lfilter. split; [done|]. rewrite Ha. by apply Z.ltb_lt. }
      rewrite E in Hin. by apply elem_of_nil in Hin.
  - intros m'. destruct (Hat m) as [->|(b & Hb & Ha & ->)].
    + destruct (Hat (Z.lor m m')) as [->|(b & Hb & _ & ->)]; [lia|by apply weights_bounded].
    + apply Hup; [done|]. unfold asserted in *. apply negb_true_iff, Z.eqb_neq in Ha. apply negb_true_iff, Z.eqb_neq.
      rewrite Z.land_lor_distr_l. intros [? _]%Z.lor_eq_0_iff. done.
Qed.

(** ** What the counters say *)

Lemma insert_by_fmap {A B} (f : A → B) (k : B → list Z) (k' : A → list Z) x l :
  (∀ a, k (f a) = k' a) → insert_by k (f x) (f <$> l) = f <$> insert_by k' x l.
Proof. intros E. induction l as [|y l IH]; [done|]. simpl. rewrite !E. destruct (key_le _ _); simpl; [done|by f_equal]. Qed.
Lemma sort_by_fmap {A B} (f : A → B) (k : B → list Z) (k' : A → list Z) l :
  (∀ a, k (f a) = k' a) → sort_by k (f <$> l) = f <$> sort_by k' l.
Proof.
  intros E. induction l as [|x l IH]; [done|]. simpl. rewrite <- (insert_by_fmap f k k') by done. f_equal. exact IH.
Qed.
Lemma Lfilter_fmap {A B} (f : A → B) (p : B → bool) l : List.filter p (f <$> l) = f <$> List.filter (λ x, p (f x)) l.
Proof. induction l as [|x l IH]; [done|]. cbn. destruct (p (f x)); cbn; by f_equal. Qed.
Lemma sum_of_fmap {A B} (f : A → B) (w : B → Z) l : sum_of w (f <$> l) = sum_of (λ x, w (f x)) l.
Proof. induction l as [|x l IH]; [done|]. cbn. unfold sum_of in IH. by rewrite <- IH. Qed.
Lemma sum_of_sub {A} (w v : A → Z) l : sum_of w l - sum_of v l = sum_of (λ x, w x - v x) l.
Proof. induction l as [|x l IH]; [done|]. unfold sum_of in *. simpl. lia. Qed.
Lemma sum_of_perm {A} (w : A → Z) l l' : l ≡ₚ l' → sum_of w l = sum_of w l'.
Proof. induction 1; unfold sum_of in *; simpl; lia. Qed.

(** The interfaces that count towards the box's traffic *)
Definition on_the_wire (sys : string → sysfs) (n : string) : bool :=
  negb (_iface_is_virtual n) && counts (n, (mkCounters 0 0 0 0 0 0 0 0, _net_iface_meta (sys n))).

Lemma counts_links n c c' l : counts (n, (c, l)) = counts (n, (c', l)).
Proof. done. Qed.

Lemma Lfilter_perm {A} (p : A → bool) l l' : l ≡ₚ l' → List.filter p l ≡ₚ List.filter p l'.
Proof.
  induction 1 as [|x l l' _ IH|x y l|l1 l2 l3 _ IH1 _ IH2]; simpl; [done| | |by rewrite IH1].
  - destruct (p x); by rewrite ?IH.
  - destruct (p x), (p y); try done. apply Permutation_swap.
Qed.

(** The headline is the sum over the interfaces on the wire *)
Lemma net_totals devs sys :
  net_rx_bytes (_net_stats devs sys) = sum_of (λ nc, rx_bytes nc.2) (List.filter (λ nc, on_the_wire sys nc.1) devs)
  ∧ net_tx_bytes (_net_stats devs sys) = sum_of (λ nc, tx_bytes nc.2) (List.filter (λ nc, on_the_wire sys nc.1) devs).
Proof.
  unfold _net_stats. cbn [net_rx_bytes net_tx_bytes]. rewrite !Lfilter_fmap, !sum_of_fmap. cbn [fst snd].
  rewrite !Lfilter_Lfilter.
  by split; apply sum_of_perm, Lfilter_perm, sort_by_perm.
Qed.

(** Between two samples of a box whose links stayed as they were and whose counters did
    not go back, the reported rate is the traffic of the wire: what the interfaces that are
    real, up and not part of a bond have moved, over the time between. *)
Lemma reported_rate_is_the_traffic (devs : list (string * (counters * counters))) sys (dt : Q)
    (Hdt : Qle_bool dt 0 = false)
    (Hmono : ∀ d, d ∈ devs → rx_bytes d.2.1 ≤ rx_bytes d.2.2 ∧ tx_bytes d.2.1 ≤ tx_bytes d.2.2) :
  let prev := _net_stats (prod_map id fst <$> devs) sys in
  let curr := _net_stats (prod_map id snd <$> devs) sys in
  let wire := List.filter (λ d, on_the_wire sys d.1) devs in
  net_rates (Some prev) (Some curr) (Some dt)
  = (Some (inject_Z (sum_of (λ d, rx_bytes d.2.2 - rx_bytes d.2.1)%Z wire) / dt)%Q,
     Some (inject_Z (sum_of (λ d, tx_bytes d.2.2 - tx_bytes d.2.1)%Z wire) / dt)%Q).
Proof.
  intros prev curr wire.
  assert (∀ (w : counters → Z) , (∀ d, d ∈ devs → w d.2.1 ≤ w d.2.2) →
            rate (Some (sum_of (λ d, w d.2.1) wire)) (Some (sum_of (λ d, w d.2.2) wire)) (Some dt)
            = Some (inject_Z (sum_of (λ d, w d.2.2 - w d.2.1)%Z wire) / dt)%Q) as Hrate.
  { intros w Hw. unfold rate. rewrite Hdt. simpl.
    assert (0 ≤ sum_of (λ d, w d.2.2 - w d.2.1) wire) as Hnn.
    { apply sum_of_nonneg. intros d [Hd _]%elem_of_Lfilter. pose proof (Hw d Hd). lia. }
    rewrite <- sum_of_sub in *. destruct (Z.ltb_spec (sum_of (λ d, w d.2.2) wire) (sum_of (λ d, w d.2.1) wire)); [lia|done]. }
  unfold net_rates, prev, curr. cbn [fmap option_fmap option_map].
  pose proof (net_totals (prod_map id fst <$> devs) sys) as [-> ->].
  pose proof (net_totals (prod_map id snd <$> devs) sys) as [-> ->].
  rewrite !Lfilter_fmap, !sum_of_fmap. cbn [prod_map fst snd id].
  f_equal; apply (Hrate _); intros d Hd; by apply Hmono.
Qed.

(** ** Witnesses and findings *)

Module Watch.
Definition turn_at (n : Z) : turn := mkTurn (n * sec) (n * sec + 50000) (n * sec + 60000) (n * sec + 60000) (λ _, false) JNull.
Definition turns : list turn := turn_at <$> [10; 12; 14; 16; 400; 402; 404].
Definition eth (n : Z) : counters := mkCounters n 1 0 0 (2 * n) 1 0 0.
Definition up : sysfs := mkSysfs (Some "1000") (Some "1") (Some "up") true false.
Definition down : sysfs := mkSysfs (Some "1000") (Some "0") (Some "down") true false.
Definition devs : list (string * (counters * counters)) :=
  [("eth0", (eth 100, eth 300)); ("docker0", (eth 5, eth 900)); ("eth1", (eth 7, eth 7))].
End Watch.

(** Witness for [flight_trail_is_bounded] *)
Lemma flight_trail_is_bounded_witness :
  Z.of_nat (count (of_tier TIER_DETAIL)
    (l_rows (main_loop "box" "p" None 3 60 Watch.turns (mkLoop (fresh_recorder (2 * sec) (60 * sec)) [] 0)))) = 3
  ∧ 3 ≤ (3 * sec + 50000 + PRUNE_EVERY) / (2 * sec) + 1.
Proof.
  assert (Z.of_nat (count (of_tier TIER_DETAIL)
    (l_rows (main_loop "box" "p" None 3 60 Watch.turns (mkLoop (fresh_recorder (2 * sec) (60 * sec)) [] 0)))) = 3) as E
    by (vm_compute; reflexivity).
  split; [exact E|]. rewrite <- E at 1.
  apply (flight_trail_is_bounded "box" "p" None TIER_DETAIL (2 * sec) (60 * sec) 3 60 50000 Watch.turns);
    [by left|unfold sec; lia..| ].
  unfold Watch.turns, Watch.turn_at, sec. simpl. lia.
Defined.

(** Witness for [reported_rate_is_the_traffic] *)
Lemma reported_rate_is_the_traffic_witness :
  Qle_bool 2 0 = false
  ∧ net_rates (Some (_net_stats (prod_map id fst <$> Watch.devs) (λ _, Watch.up)))
      (Some (_net_stats (prod_map id snd <$> Watch.devs) (λ _, Watch.up))) (Some 2%Q)
    = (Some (inject_Z 200 / 2)%Q, Some (inject_Z 400 / 2)%Q).
Proof.
  split; [reflexivity|].
  apply (reported_rate_is_the_traffic Watch.devs (λ _, Watch.up) 2 eq_refl).
  intros d. unfold Watch.devs. rewrite !elem_of_cons, elem_of_nil. intros [->|[->|[->|[]]]]; simpl; lia.
Defined.

(** A link that comes up between two samples is reported as traffic: no byte moved, and the
    rate is the lifetime count of the link over the two seconds. *)
Theorem link_up_reads_as_a_burst :
  net_rates (Some (_net_stats [("eth0", Watch.eth 100); ("eth1", Watch.eth 1000000)]
                     (λ n, if String.eqb n "eth1" then Watch.down else Watch.up)))
    (Some (_net_stats [("eth0", Watch.eth 100); ("eth1", Watch.eth 1000000)] (λ _, Watch.up))) (Some 2%Q)
  = (Some (inject_Z 1000000 / 2)%Q, Some (inject_Z 2000000 / 2)%Q).
Proof. vm_compute. reflexivity. Qed.
