(* ===== verification/Residency.v ===== *)
(** * What may stay on the card ([queue_workflows/model_residency.py],
      [queue_workflows/memory_sentinel.py])

    The enforcer of the one-model rule: which resident copies must go so that at most
    [cap] stay, the pass that fires the levers and raises, the two gates a load goes
    through, and the sentinel that hands the free memory to the worker's shedding.

    A recency key is an integer.  The levers are the host's: a pass returns the list of
    the levers it pulls, in order; one that raises is logged and changes nothing else. *)

From S2P Require Import Prelude Json Catalog WorkerLanes.
Local Open Scope Z_scope.

Definition OLLAMA : string := "ollama".
Definition VLLM : string := "vllm".
Definition COMFYUI : string := "comfyui".
Definition INPROCESS : string := "inprocess".

Record Resident := mkResident {
  server : string;
  model : string;
  mru : Z;
  busy : bool;
}.
#[export] Instance Resident_eq_dec : EqDecision Resident.
Proof. solve_decision. Defined.

(** A copy is a model on a server: each server loads its own weights. *)
Abbreviation copy := (string * string)%type.
Definition copy_of (r : Resident) : copy := (server r, model r).

(** The keys of the dictionary [copies], in the order they first occur *)
Definition add_copy (acc : list copy) (r : Resident) : list copy :=
  if bool_decide (copy_of r ∈ acc) then acc else acc ++ [copy_of r].
Definition copies (residents : list Resident) : list copy := foldl add_copy [] residents.
Definition rows_of (residents : list Resident) (c : copy) : list Resident :=
  List.filter (λ r, bool_decide (copy_of r = c)) residents.

(** [l[:n]] for any integer *)
Definition slice_to {A} (n : Z) (l : list A) : list A :=
  take (Z.to_nat (if 0 <=? n then n else Z.of_nat (length l) + n)) l.

(** [x == y if y else False] for an optional server name *)
Definition is_server (y : option string) (x : string) : bool :=
  match y with Some y => PyStr.truthy y && String.eqb x y | None => false end.

Definition max_mru (rows : list Resident) : Z :=
  match rows with [] => 0 | r :: rs => foldr (λ r z, Z.max (mru r) z) (mru r) rs end.

(** ** Evictions *)

Section evictions.
Context (cap : Z) (desired_server protected_server : option string).

Definition rank (residents : list Resident) (c : copy) : list Z :=
  let rows := rows_of residents c in
  [b2z (is_server protected_server c.1); b2z (existsb busy rows);
   b2z (is_server desired_server c.1); max_mru rows].

(** [sorted(.., key=rank, reverse=True)]: equal ranks keep their order *)
Definition ranked (residents : list Resident) : list copy :=
  sort_by (λ c, Z.opp <$> rank residents c) (copies residents).

Definition dup_models (residents : list Resident) : list string :=
  List.filter (λ m, bool_decide ((VLLM, m) ∈ copies residents))
    (map snd (List.filter (λ c : copy, String.eqb c.1 OLLAMA) (copies residents))).

(** A cheap copy: ollama's, of a model vLLM holds too *)
Definition cheap (residents : list Resident) (r : Resident) : bool :=
  String.eqb (server r) OLLAMA && bool_decide (model r ∈ dup_models residents).

(** The recursion of the source, counted: see [decide_evictions_eq] *)
Fixpoint evict_rounds (n : nat) (residents : list Resident) : list Resident :=
  match n with
  | O => []
  | S n =>
      if Z.of_nat (length (copies residents)) <=? cap then []
      else if match dup_models residents with [] => false | _ => true end &&
              negb (bool_decide (protected_server = Some OLLAMA))
      then List.filter (cheap residents) residents ++
           evict_rounds n (List.filter (λ r, negb (cheap residents r)) residents)
      else
        let keep := slice_to cap (ranked residents) in
        List.filter (λ r, negb (bool_decide (copy_of r ∈ keep))) residents
  end.
Definition decide_evictions (residents : list Resident) : list Resident :=
  evict_rounds (S (length residents)) residents.
End evictions.

(** ** The enforcer *)

Inductive lever :=
  | UnloadOllama (models : list string)
  | StopVllm
  | FreeComfyui
  | UnloadInprocess.

Definition ModelResidencyViolation : exc := RuntimeError "ModelResidencyViolation".
Definition ModelAlreadyLoadedError : exc := RuntimeError "ModelAlreadyLoadedError".

Definition on_server (kind : string) (l : list Resident) : bool :=
  existsb (λ r, String.eqb (server r) kind) l.
Definition models_on (kind : string) (l : list Resident) : list string :=
  sorted_set (map model (List.filter (λ r, String.eqb (server r) kind) l)).

(** The levers of a set of evictions *)
Definition kill (evict : list Resident) : list lever :=
  (if on_server OLLAMA evict then [UnloadOllama (models_on OLLAMA evict)] else []) ++
  (if on_server VLLM evict then [StopVllm] else []) ++
  (if on_server COMFYUI evict then [FreeComfyui] else []).

(** One pass over what the collector, the desired and the protected server answered:
    a violation is killed first, then raised *)
Definition enforce_once (cap : Z) (collect : result (list Resident))
    (desired protected : result (option string)) : list lever * result (list Resident) :=
  match collect with
  | Raise _ => ([], Ok [])
  | Ok residents =>
      let opt := λ r : result (option string), match r with Ok v => v | Raise _ => None end in
      match decide_evictions cap (opt desired) (opt protected) residents with
      | [] => ([], Ok [])
      | evict => (kill evict, Raise ModelResidencyViolation)
      end
  end.

(** [tick] swallows what a pass raises *)
Definition tick (cap : Z) (collect : result (list Resident))
    (desired protected : result (option string)) : list lever :=
  (enforce_once cap collect desired protected).1.

(** [_report_residency]: log the box only when what it holds changed *)
Definition report_key (residents : list Resident) : list copy :=
  sort_by (λ c : copy, PyStr.key c.1 ++ [-1] ++ PyStr.key c.2) (remove_dups (map copy_of residents)).
Definition _report_residency (last : option (list copy)) (residents : list Resident)
    : bool * option (list copy) :=
  let key := report_key residents in
  if bool_decide (last = Some key) then (false, last) else (true, Some key).

Definition held_server_types (residents : list Resident) : list string :=
  sorted_set (map server residents).

(** ** The gates of a load *)

Definition assert_can_load (model_id : string) (residents : list Resident) : result () :=
  match List.filter (λ r, negb (String.eqb (canonical_tag (model r)) (canonical_tag model_id))) residents with
  | [] => Ok ()
  | _ => Raise ModelAlreadyLoadedError
  end.

Definition foreign (incoming_kind : string) (incoming_model : option string) (rs : list Resident) : list Resident :=
  List.filter (λ r, negb (String.eqb (server r) incoming_kind &&
    match incoming_model with None => true | Some m => String.eqb (model r) m end)) rs.

(** The levers in the order of the source; [reprobe] is what the box shows afterwards,
    when the caller asked for it *)
Definition clear_box_for (incoming_kind : string) (incoming_model : option string)
    (residents : list Resident) (reprobe : option (result (list Resident)))
    : list lever * result (list Resident) :=
  let f := foreign incoming_kind incoming_model residents in
  match f with
  | [] => ([], Ok [])
  | _ =>
      let fired :=
        (if on_server OLLAMA f then [UnloadOllama (models_on OLLAMA f)] else []) ++
        (if on_server VLLM f then [StopVllm] else []) ++
        (if on_server COMFYUI f then [FreeComfyui] else []) ++
        (if on_server INPROCESS f then [UnloadInprocess] else []) in
      (fired,
       match reprobe with
       | None => Ok f
       | Some r =>
           let still := foreign incoming_kind incoming_model (match r with Ok l => l | Raise _ => [] end) in
           match still with [] => Ok f | _ => Raise ModelAlreadyLoadedError end
       end)
  end.

(** ** The memory sentinel *)

Definition DEFAULT_KILL_FLOOR_MB : Z := 512.
Definition kill_floor_bytes `{WorkerEnv} : result Z :=
  raw ← env_get "QUEUE_WORKFLOWS_LLM_KILL_FLOOR_MB" (Some "");
  let s := PyStr.strip (default "" raw) in
  let mb := if PyStr.truthy s then default DEFAULT_KILL_FLOOR_MB (PyStr.int s) else DEFAULT_KILL_FLOOR_MB in
  Ok (Z.max 0 mb * 1024 * 1024).

Record sentinel := mkSentinel { ticks : Z; failures : Z }.

(** One read, one call: what is handed to the action, and the counters *)
Definition sentinel_tick (read : result (option Z)) (act_raises : Z → bool) (s : sentinel)
    : option Z * sentinel :=
  match read with
  | Raise _ => (None, mkSentinel (ticks s + 1) (failures s + 1))
  | Ok None => (None, mkSentinel (ticks s + 1) (failures s))
  | Ok (Some available) =>
      (Some available, mkSentinel (ticks s + 1) (failures s + b2z (act_raises available)))
  end.

(** The shedding of a dying box ([claim_worker.py]): two floors, a cooldown on one;
    instants are in microseconds *)
Definition SHED_COOLDOWN_S : Z := 60 * 1000000.
Definition _shed_due (available : option Z) (kill_floor danger_floor now : Z) (shed_at : option Z)
    : bool * option Z :=
  match available with
  | None => (false, shed_at)
  | Some available =>
      let kill := available <? kill_floor in
      if negb kill && (danger_floor <=? available) then (false, shed_at)
      else if negb kill && match shed_at with Some last => now - last <? SHED_COOLDOWN_S | None => false end
      then (false, shed_at)
      else (true, Some now)
  end.

(** ** Lemmas on copies *)

Section copies_lemmas.
Implicit Types (rs : list Resident) (r : Resident) (c : copy).

Lemma add_copy_elem acc r c : c ∈ add_copy acc r ↔ c ∈ acc ∨ c = copy_of r.
Proof. unfold add_copy. case_bool_decide; set_solver. Qed.
Lemma foldl_copies_elem rs acc c :
  c ∈ foldl add_copy acc rs ↔ c ∈ acc ∨ ∃ r, r ∈ rs ∧ copy_of r = c.
Proof.
  revert acc. induction rs as [|r rs IH]; intros acc; simpl; [set_solver|].
  rewrite IH, add_copy_elem. set_solver.
Qed.
Lemma elem_of_copies rs c : c ∈ copies rs ↔ ∃ r, r ∈ rs ∧ copy_of r = c.
Proof. unfold copies. rewrite foldl_copies_elem. set_solver. Qed.

Lemma copies_NoDup rs : NoDup (copies rs).
Proof.
  unfold copies. assert (NoDup ([] : list copy)) as H by constructor. revert H.
  generalize ([] : list copy). induction rs as [|r rs IH]; intros acc Hacc; simpl; [done|].
  apply IH. unfold add_copy. case_bool_decide; [done|]. apply NoDup_app.
  split_and!; [done|set_solver|apply NoDup_singleton].
Qed.

(** Distinct copies among [k] keys are at most [k]. *)
Lemma NoDup_sub_length (l k : list copy) : NoDup l → l ⊆ k → (length l ≤ length k)%nat.
Proof. intros H1 H2. apply submseteq_length, NoDup_submseteq; [done|]. set_solver. Qed.
End copies_lemmas.

Section eviction_lemmas.
Context (cap : Z) (desired protected : option string).
Implicit Types (rs : list Resident) (r : Resident) (c : copy).
Let evict := evict_rounds cap desired protected.

Lemma elem_of_dup_models rs m :
  m ∈ dup_models rs ↔ (OLLAMA, m) ∈ copies rs ∧ (VLLM, m) ∈ copies rs.
Proof.
  unfold dup_models. rewrite elem_of_Lfilter, bool_decide_eq_true, list_elem_of_fmap. split.
  - intros [([s m'] & -> & [Hin E]%elem_of_Lfilter) Hv]. simpl in *. apply String.eqb_eq in E as ->. done.
  - intros [Ho Hv]. split; [|done]. exists (OLLAMA, m). split; [done|]. by apply elem_of_Lfilter.
Qed.

Lemma cheap_copy rs r r' : copy_of r = copy_of r' → cheap rs r = cheap rs r'.
Proof. unfold copy_of, cheap. intros [= -> ->]. done. Qed.

(** Without the cheap copies, no model is held twice, *)
Lemma dup_models_survivors rs :
  dup_models (List.filter (λ r, negb (cheap rs r)) rs) = [].
Proof.
  apply elem_of_nil_inv. intros m [Ho Hv]%elem_of_dup_models.
  apply elem_of_copies in Ho as (r & [Hr Hn]%elem_of_Lfilter & E).
  apply elem_of_copies in Hv as (r' & [Hr' _]%elem_of_Lfilter & E').
  apply negb_true_iff in Hn. revert Hn. unfold cheap. unfold copy_of in *.
  injection E as E1 E2. rewrite E1, E2, String.eqb_refl. simpl. apply not_false_iff_true, bool_decide_eq_true.
  apply elem_of_dup_models. split; apply elem_of_copies; [exists r|exists r']; unfold copy_of; split;
    congruence.
Qed.

(** and there are fewer residents. *)
Lemma survivors_fewer rs :
  dup_models rs ≠ [] → (length (List.filter (λ r, negb (cheap rs r)) rs) < length rs)%nat.
Proof.
  intros Hd. destruct (dup_models rs) as [|m ms] eqn:E; [done|].
  assert (m ∈ dup_models rs) as Hm by (rewrite E; left).
  pose proof Hm as [Ho _]%elem_of_dup_models. apply elem_of_copies in Ho as (r & Hr & Er).
  change (length (List.filter (λ r, negb (cheap rs r)) rs)) with (count (λ r, negb (cheap rs r)) rs).
  rewrite <- (count_true rs). apply (count_lt _ _ _ r); [done|done|done|].
  unfold copy_of in Er. injection Er as E1 E2. apply negb_false_iff. unfold cheap.
  rewrite E1, E2, String.eqb_refl. by apply bool_decide_eq_true.
Qed.

(** One round of the source's recursion *)
Definition round_of (rest : list Resident → list Resident) rs : list Resident :=
  if Z.of_nat (length (copies rs)) <=? cap then []
  else if match dup_models rs with [] => false | _ => true end &&
          negb (bool_decide (protected = Some OLLAMA))
  then List.filter (cheap rs) rs ++ rest (List.filter (λ r, negb (cheap rs r)) rs)
  else List.filter (λ r, negb (bool_decide (copy_of r ∈ slice_to cap (ranked desired protected rs)))) rs.

Lemma rounds_enough n m rs :
  (length rs < n)%nat → (length rs < m)%nat → evict n rs = evict m rs.
Proof.
  unfold evict. revert m rs. induction n as [|n IH]; intros m rs Hn Hm; [lia|].
  destruct m as [|m]; [lia|]. simpl. destruct (_ <=? _); [done|].
  destruct (dup_models rs) as [|d ds] eqn:E; simpl; [done|].
  destruct (negb _); [|done]. f_equal.
  assert (dup_models rs ≠ []) as Hd by by rewrite E. apply survivors_fewer in Hd.
  apply IH; lia.
Qed.
End eviction_lemmas.

(** The eviction recursion terminates, and as the source writes it: what
    [decide_evictions] returns satisfies the function's own recursive equation, cheap
    copies first and then the decision on the rest. *)
Lemma decide_evictions_recursion (cap : Z) (desired protected : option string) (rs : list Resident) :
  decide_evictions cap desired protected rs =
  round_of cap desired protected (decide_evictions cap desired protected) rs.
Proof.
  unfold decide_evictions at 1, round_of. simpl. destruct (_ <=? _); [done|].
  destruct (dup_models rs) as [|d ds] eqn:E; simpl; [done|]. destruct (negb _); [|done].
  f_equal. assert (dup_models rs ≠ []) as Hd by by rewrite E. apply survivors_fewer in Hd.
  apply rounds_enough; lia.
Qed.

Section eviction_props.
Context (cap : Z) (desired protected : option string).
Implicit Types (rs : list Resident) (r s : Resident) (c : copy).
Let evict := evict_rounds cap desired protected.

(** [s] stays *)
Definition survives (n : nat) rs s : Prop := s ∈ rs ∧ s ∉ evict_rounds cap desired protected n rs.

Lemma ranked_elem rs c : c ∈ ranked desired protected rs ↔ c ∈ copies rs.
Proof. unfold ranked. by rewrite sort_by_perm. Qed.

Lemma slice_to_length {A} (l : list A) : 0 ≤ cap → Z.of_nat (length (slice_to cap l)) ≤ cap.
Proof.
  intros Hc. unfold slice_to. rewrite length_take, (proj2 (Z.leb_le 0 cap)) by done. lia.
Qed.

(** Shape of one round: nothing to do, cheap copies first, or the vote *)
Lemma evict_cases n rs r :
  let vote := ranked desired protected rs in
  let rest := List.filter (λ r, negb (cheap rs r)) rs in
  (Z.of_nat (length (copies rs)) ≤ cap ∧ evict (S n) rs = []) ∨
  (dup_models rs ≠ [] ∧ protected ≠ Some OLLAMA ∧
     (r ∈ evict (S n) rs ↔ (r ∈ rs ∧ cheap rs r = true) ∨ r ∈ evict n rest)) ∨
  (cap < Z.of_nat (length (copies rs)) ∧ (dup_models rs = [] ∨ protected = Some OLLAMA) ∧
     (r ∈ evict (S n) rs ↔ r ∈ rs ∧ copy_of r ∉ slice_to cap vote)).
Proof.
  cbv zeta. unfold evict. simpl. destruct (Z.leb_spec (Z.of_nat (length (copies rs))) cap); [by left|right].
  destruct (dup_models rs) as [|d ds] eqn:E; simpl.
  { right. split_and!; [done|by left|]. rewrite elem_of_Lfilter, negb_true_iff, bool_decide_eq_false. done. }
  case_bool_decide as Hp; simpl.
  { right. split_and!; [done|by right|]. rewrite elem_of_Lfilter, negb_true_iff, bool_decide_eq_false. done. }
  left. split_and!; [done|done|]. rewrite elem_of_app, elem_of_Lfilter. done.
Qed.

Lemma evict_sub n rs r : r ∈ evict n rs → r ∈ rs.
Proof.
  unfold evict. revert rs. induction n as [|n IH]; intros rs; [set_solver|].
  destruct (evict_cases n rs r) as [[_ E]|[(_ & _ & E)|(_ & _ & E)]]; cbv zeta in E; unfold evict in E.
  - rewrite E. set_solver.
  - rewrite E. intros [[Hr _]|Hr]; [done|]. apply IH, elem_of_Lfilter in Hr. tauto.
  - rewrite E. tauto.
Qed.

(** What stays fits the cap. *)
Lemma survivors_within_cap n rs (l : list copy) :
  0 ≤ cap → (length rs < n)%nat → NoDup l →
  (∀ c, c ∈ l → ∃ s, survives n rs s ∧ copy_of s = c) → Z.of_nat (length l) ≤ cap.
Proof.
  intros Hcap. revert rs. induction n as [|n IH]; intros rs Hn Hl Hs; [lia|].
  destruct l as [|c0 l0] eqn:El; [simpl; lia|]. rewrite <- El in *. clear El.
  set (rest := List.filter (λ r, negb (cheap rs r)) rs).
  destruct (Z.le_gt_cases (Z.of_nat (length (copies rs))) cap) as [Hle|Hgt].
  { assert (length l ≤ length (copies rs))%nat; [|lia]. apply NoDup_sub_length; [done|].
    intros c (s & [Hin _] & E)%Hs. apply elem_of_copies. eauto. }
  destruct (decide (dup_models rs ≠ [] ∧ protected ≠ Some OLLAMA)) as [[Hd Hp]|Hvote].
  - apply (IH rest); [pose proof (survivors_fewer rs Hd); fold rest in H; lia|done|].
    intros c (s & [Hin Hni] & E)%Hs. exists s. split; [|done].
    destruct (evict_cases n rs s) as [[? _]|[(_ & _ & Ei)|(_ & [?|?] & _)]]; [lia| |done..].
    cbv zeta in Ei. fold rest in Ei. unfold survives in *. fold evict in Hni |- *.
    rewrite Ei in Hni. split; [|tauto].
    apply elem_of_Lfilter. split; [done|]. destruct (cheap rs s); tauto.
  - etransitivity; [|apply (slice_to_length (ranked desired protected rs) Hcap)].
    apply Nat2Z.inj_le, NoDup_sub_length; [done|]. intros c (s & [Hin Hni] & <-)%Hs.
    destruct (evict_cases n rs s) as [[? _]|[(? & ? & _)|(_ & _ & Ei)]]; [lia|tauto|].
    cbv zeta in Ei. fold evict in Hni. rewrite Ei in Hni.
    destruct (decide (copy_of s ∈ slice_to cap (ranked desired protected rs))); [done|tauto].
Qed.

Lemma rows_of_rest (p : Resident → bool) rs c :
  (∀ r, copy_of r = c → p r = true) → rows_of (List.filter p rs) c = rows_of rs c.
Proof.
  intros Hp. unfold rows_of. induction rs as [|r rs IH]; simpl; [done|].
  case_bool_decide as E; [rewrite (Hp r E); simpl; rewrite bool_decide_true by done; by rewrite IH|].
  destruct (p r); simpl; [rewrite bool_decide_false by done|]; done.
Qed.

(** A copy that goes ranks no higher than a copy that stays. *)
Lemma vote_order rs (stay go : copy) :
  0 ≤ cap → stay ∈ slice_to cap (ranked desired protected rs) →
  go ∈ copies rs → go ∉ slice_to cap (ranked desired protected rs) →
  key_le (Z.opp <$> rank desired protected rs stay) (Z.opp <$> rank desired protected rs go) = true.
Proof.
  unfold slice_to. intros Hc Hs Hgo Hng. apply ranked_elem in Hgo.
  rewrite <- (take_drop (Z.to_nat (if 0 <=? cap then cap else
    Z.of_nat (length (ranked desired protected rs)) + cap)) (ranked desired protected rs)) in Hgo.
  apply elem_of_app in Hgo as [?|Hgo]; [done|].
  eapply (sorted_split (λ a b, key_le (Z.opp <$> rank desired protected rs a)
    (Z.opp <$> rank desired protected rs b) = true)); [apply sort_by_sorted|exact Hs|exact Hgo].
Qed.

(** A busy copy: some request is in flight on it *)
Definition busy_copy rs c : bool := existsb busy (rows_of rs c).

Lemma vote_protects rs (stay go : copy) :
  key_le (Z.opp <$> rank desired protected rs stay) (Z.opp <$> rank desired protected rs go) = true →
  (is_server protected go.1 = true → is_server protected stay.1 = true) ∧
  (busy_copy rs go = true → is_server protected stay.1 = true ∨ busy_copy rs stay = true).
Proof.
  unfold rank, busy_copy. cbn [fmap list_fmap]. intros Hk. split.
  - intros Hg. apply key_le_head in Hk. rewrite Hg in Hk.
    destruct (is_server protected stay.1); [done|]. simpl in Hk. lia.
  - intros Hb. destruct (is_server protected stay.1) eqn:Ep; [by left|right].
    rewrite Hb in Hk. destruct (existsb busy (rows_of rs stay)); [done|].
    destruct (is_server protected go.1); simpl in Hk; done.
Qed.

Lemma busy_rest rs r :
  cheap rs r = false →
  busy_copy (List.filter (λ r, negb (cheap rs r)) rs) (copy_of r) = busy_copy rs (copy_of r).
Proof.
  intros Hr. unfold busy_copy. rewrite rows_of_rest; [done|]. intros y Hy.
  by rewrite (cheap_copy rs y r Hy), Hr.
Qed.

Lemma cheap_unprotected rs r :
  protected ≠ Some OLLAMA → cheap rs r = true → is_server protected (server r) = false.
Proof.
  unfold cheap, is_server. intros Hp [->%String.eqb_eq _]%andb_true_iff.
  destruct protected as [p|]; [|done]. apply andb_false_iff. right. apply String.eqb_neq. congruence.
Qed.

Lemma nothing_cheap_twice rs r : cheap (List.filter (λ r, negb (cheap rs r)) rs) r = false.
Proof.
  unfold cheap at 1. rewrite dup_models_survivors, bool_decide_false by set_solver. apply andb_false_r.
Qed.

(** Who may be evicted while [s] stays *)
Lemma evict_protects n rs r s :
  0 ≤ cap → r ∈ evict n rs → survives n rs s →
  (is_server protected (server r) = true → is_server protected (server s) = true) ∧
  (busy_copy rs (copy_of r) = true →
     is_server protected (server s) = true ∨ busy_copy rs (copy_of s) = true ∨ cheap rs r = true).
Proof.
  intros Hc. revert rs. induction n as [|n IH]; intros rs Hr [Hin Hs]; [by apply elem_of_nil in Hr|].
  set (rest := List.filter (λ r, negb (cheap rs r)) rs).
  destruct (evict_cases n rs r) as [[_ Er]|[(Hd & Hp & Er)|(Hgt & Hv & Er)]]; cbv zeta in Er.
  - rewrite Er in Hr. set_solver.
  - destruct (evict_cases n rs s) as [[_ Es]|[(_ & _ & Es)|(_ & Hv & Es)]]; cbv zeta in Es;
      [unfold evict in *; rewrite Es in Hr; set_solver| |destruct Hv; done].
    fold evict in Hs. fold rest in Er, Es. rewrite Es in Hs. rewrite Er in Hr.
    assert (cheap rs s = false) as Hcs by (destruct (cheap rs s); tauto).
    destruct Hr as [[Hr Hcr]|Hr].
    + split; [|tauto]. intros Hpr. by rewrite (cheap_unprotected rs r) in Hpr.
    + assert (survives n rest s) as Hsr.
      { split; [|by intros ?; apply Hs; right]. apply elem_of_Lfilter. by rewrite Hcs. }
      assert (cheap rs r = false) as Hcr.
      { apply evict_sub, elem_of_Lfilter in Hr as [_ Hr]. by apply negb_true_iff. }
      destruct (IH rest Hr Hsr) as [H1 H2]. unfold rest in H2. rewrite !busy_rest in H2 by done. split; [done|]. intros Hbr.
      destruct (H2 Hbr) as [?|[?|Hch]]; [tauto|tauto|].
      by rewrite nothing_cheap_twice in Hch.
  - destruct (evict_cases n rs s) as [[? _]|[(? & ? & _)|(_ & _ & Es)]]; [lia|destruct Hv; done|].
    cbv zeta in Es. fold evict in Hs. rewrite Es in Hs. rewrite Er in Hr. destruct Hr as [Hr Hnr].
    destruct (decide (copy_of s ∈ slice_to cap (ranked desired protected rs))) as [Hsl|]; [|tauto].
    destruct (vote_protects rs (copy_of s) (copy_of r)) as [H1 H2].
    { apply vote_order; try done. apply elem_of_copies. eauto. }
    simpl in *. split; [done|]. intros Hb. destruct (H2 Hb); tauto.
Qed.
End eviction_props.

(** What stays after the evictions *)
Definition survivors (cap : Z) (desired protected : option string) (rs : list Resident) : list Resident :=
  List.filter (λ r, negb (bool_decide (r ∈ decide_evictions cap desired protected rs))) rs.

Lemma elem_of_survivors cap desired protected rs s :
  s ∈ survivors cap desired protected rs ↔ survives cap desired protected (S (length rs)) rs s.
Proof.
  unfold survivors, survives. by rewrite elem_of_Lfilter, negb_true_iff, bool_decide_eq_false.
Qed.

Lemma survivors_cap cap desired protected rs :
  0 ≤ cap → Z.of_nat (length (copies (survivors cap desired protected rs))) ≤ cap.
Proof.
  intros Hcap. apply (survivors_within_cap cap desired protected (S (length rs)) rs);
    [done|lia|apply copies_NoDup|].
  intros c (s & Hs%elem_of_survivors & E)%elem_of_copies. eauto.
Qed.

Lemma evictions_empty cap desired protected rs :
  0 ≤ cap → decide_evictions cap desired protected rs = [] ↔ Z.of_nat (length (copies rs)) ≤ cap.
Proof.
  intros Hcap. split.
  - intros E. rewrite <- (Lfilter_all (λ r, negb (bool_decide (r ∈ decide_evictions cap desired protected rs))) rs).
    { by apply survivors_cap. }
    intros r _. rewrite E. by rewrite bool_decide_false by set_solver.
  - intros Hle. unfold decide_evictions. simpl. apply Z.leb_le in Hle. by rewrite Hle.
Qed.

(** One pass brings the box to its cap.  The evictions are residents; they are empty
    exactly when the copies on the box already fit; what stays is at most [cap] copies,
    a copy being a model on one server. *)
Lemma evictions_bring_the_box_to_its_cap (cap : Z) (desired protected : option string) (rs : list Resident) :
  0 ≤ cap →
  decide_evictions cap desired protected rs ⊆ rs ∧
  (decide_evictions cap desired protected rs = [] ↔ Z.of_nat (length (copies rs)) ≤ cap) ∧
  Z.of_nat (length (copies (survivors cap desired protected rs))) ≤ cap.
Proof.
  intros Hcap. split_and!; [|by apply evictions_empty..|by apply survivors_cap].
  intros r. apply evict_sub.
Qed.

(** The vote spares the server a switch is warming and the servers at work.  A resident
    of the protected server is evicted only if all that stays is on that server; a busy
    copy is evicted only if all that stays is protected or busy, or if it is ollama's copy
    of a model vLLM holds too; and on a box over its cap those cheap copies always go,
    unless ollama is the server protected. *)
Lemma evictions_spare_protected_and_busy (cap : Z) (desired protected : option string)
    (rs : list Resident) (r s : Resident) :
  0 ≤ cap →
  r ∈ decide_evictions cap desired protected rs → s ∈ survivors cap desired protected rs →
  (is_server protected (server r) = true → is_server protected (server s) = true) ∧
  (busy_copy rs (copy_of r) = true →
     is_server protected (server s) = true ∨ busy_copy rs (copy_of s) = true ∨ cheap rs r = true) ∧
  (cheap rs s = true → protected = Some OLLAMA).
Proof.
  intros Hcap Hr Hs. pose proof (proj1 (elem_of_survivors _ _ _ _ _) Hs) as Hsv.
  destruct (evict_protects cap desired protected (S (length rs)) rs r s Hcap Hr Hsv) as [H1 H2].
  split_and!; [done|done|]. intros Hc. destruct (decide (protected = Some OLLAMA)) as [|Hp]; [done|].
  exfalso. destruct Hsv as [Hin Hni]. apply Hni.
  destruct (evict_cases cap desired protected (length rs) rs s) as [[_ E]|[(_ & _ & E)|(_ & Hv & _)]];
    cbv zeta in *.
  - unfold decide_evictions in Hr. rewrite E in Hr. set_solver.
  - apply E. by left.
  - destruct Hv as [Hv|]; [|done]. unfold cheap in Hc. rewrite Hv in Hc.
    rewrite bool_decide_false in Hc by set_solver. by rewrite andb_false_r in Hc.
Qed.

(** The vote depends on the order of the residents when two copies rank alike. *)
Lemma vote_depends_on_order :
  let a := mkResident VLLM "chat-a" 0 false in
  let b := mkResident VLLM "chat-b" 0 false in
  decide_evictions 1 None None [a; b] = [b] ∧ decide_evictions 1 None None [b; a] = [a].
Proof. by vm_compute. Qed.

Lemma on_server_elem kind l : on_server kind l = true ↔ ∃ r, r ∈ l ∧ server r = kind.
Proof.
  unfold on_server. rewrite existsb_exists. setoid_rewrite <- list_elem_of_In.
  setoid_rewrite String.eqb_eq. done.
Qed.

Lemma elem_of_models_on kind l m : m ∈ models_on kind l ↔ ∃ r, r ∈ l ∧ server r = kind ∧ model r = m.
Proof.
  unfold models_on. rewrite elem_of_sorted_set, list_elem_of_fmap.
  setoid_rewrite elem_of_Lfilter. setoid_rewrite String.eqb_eq. naive_solver.
Qed.

(** Every evicted resident of a kind with a lever is on the list of that lever. *)
Lemma kill_covers l r :
  r ∈ l →
  (server r = OLLAMA → ∃ ms, UnloadOllama ms ∈ kill l ∧ model r ∈ ms) ∧
  (server r = VLLM → StopVllm ∈ kill l) ∧ (server r = COMFYUI → FreeComfyui ∈ kill l).
Proof.
  intros Hr. unfold kill. split_and!; intros E;
    (match type of E with server r = ?k => assert (on_server k l = true) as -> by (apply on_server_elem; eauto) end).
  - exists (models_on OLLAMA l). split; [left|]. apply elem_of_models_on. eauto.
  - apply elem_of_app. right. left.
  - apply elem_of_app. right. apply elem_of_app. right. left.
Qed.

(** A violation is killed first and is never silent.  A pass over a box above its cap
    pulls the lever of every evicted ollama, vLLM and ComfyUI resident and then raises;
    a box within its cap, or one whose collector failed, is left alone; and the daemon's
    tick pulls the same levers and survives. *)
Lemma violations_are_killed_then_raised (cap : Z) (collect : result (list Resident))
    (desired protected : result (option string)) :
  0 ≤ cap →
  let '(fired, res) := enforce_once cap collect desired protected in
  tick cap collect desired protected = fired ∧
  match collect with
  | Raise _ => fired = [] ∧ res = Ok []
  | Ok rs =>
      if Z.of_nat (length (copies rs)) <=? cap then fired = [] ∧ res = Ok []
      else res = Raise ModelResidencyViolation ∧
        ∀ r, r ∈ decide_evictions cap (match desired with Ok v => v | Raise _ => None end)
                   (match protected with Ok v => v | Raise _ => None end) rs →
          (server r = OLLAMA → ∃ ms, UnloadOllama ms ∈ fired ∧ model r ∈ ms) ∧
          (server r = VLLM → StopVllm ∈ fired) ∧ (server r = COMFYUI → FreeComfyui ∈ fired)
  end.
Proof.
  intros Hcap. unfold tick. destruct (enforce_once _ _ _ _) as [fired res] eqn:E. split; [done|].
  unfold enforce_once in E. destruct collect as [rs|]; [|by simplify_eq].
  set (d := match desired with Ok v => v | Raise _ => None end) in *.
  set (p := match protected with Ok v => v | Raise _ => None end) in *.
  pose proof (evictions_empty cap d p rs Hcap) as He.
  destruct (Z.leb_spec (Z.of_nat (length (copies rs))) cap) as [Hle|Hgt].
  { rewrite (proj2 He Hle) in E. by simplify_eq. }
  destruct (decide_evictions cap d p rs) as [|r0 l] eqn:Ed; [by apply Z.lt_nge in Hgt; destruct Hgt; apply He|].
  simplify_eq.
  split; [done|]. intros r Hr. by apply kill_covers.
Qed.

(** ** The gates *)

Lemma elem_of_foreign kind m rs r :
  r ∈ foreign kind m rs ↔ r ∈ rs ∧ ~ (server r = kind ∧ match m with None => True | Some m => model r = m end).
Proof.
  unfold foreign. rewrite elem_of_Lfilter, negb_true_iff, andb_false_iff, String.eqb_neq.
  destruct m; rewrite ?String.eqb_neq; [|naive_solver].
  split; [naive_solver|]. intros [Hr Hn]. split; [done|].
  destruct (decide (server r = kind)); tauto.
Qed.

(** A load goes ahead only on a cleared box.  When [clear_box_for] returns after looking
    at the box again, nothing foreign to the incoming server and model is left on it; every
    foreign server kind had its lever pulled; and a box that was clean is not touched. *)
Lemma load_gate_clears_the_box (kind : string) (m : option string) (rs after : list Resident)
    (fired : list lever) (res : result (list Resident)) :
  clear_box_for kind m rs (Some (Ok after)) = (fired, res) →
  (foreign kind m rs = [] → fired = [] ∧ res = Ok []) ∧
  (foreign kind m rs ≠ [] →
     (res = Ok (foreign kind m rs) ↔ foreign kind m after = []) ∧
     (foreign kind m after ≠ [] → res = Raise ModelAlreadyLoadedError) ∧
     ∀ r, r ∈ rs → server r ≠ kind →
       (server r = OLLAMA → UnloadOllama (models_on OLLAMA (foreign kind m rs)) ∈ fired) ∧
       (server r = VLLM → StopVllm ∈ fired) ∧ (server r = COMFYUI → FreeComfyui ∈ fired) ∧
       (server r = INPROCESS → UnloadInprocess ∈ fired)).
Proof.
  unfold clear_box_for. intros E. split; [intros H; rewrite H in E; by simplify_eq|]. intros Hne.
  destruct (foreign kind m rs) as [|r0 f] eqn:F; [done|]. rewrite <- F in *. simplify_eq.
  split_and!.
  - destruct (foreign kind m after); done.
  - by destruct (foreign kind m after).
  - intros r Hr Hk. assert (r ∈ foreign kind m rs) as Hf by (apply elem_of_foreign; naive_solver).
    split_and!; intros Es;
      (match type of Es with server r = ?k =>
         assert (on_server k (foreign kind m rs) = true) as -> by (apply on_server_elem; eauto) end);
      set_solver.
Qed.

(** A dying box sheds.  Below the kill floor every reading sheds, cooldown or not; between
    the floors a reading sheds unless one shed less than a minute ago; above the danger
    floor, or with no reading, nothing is shed; and two sheds between the floors are at
    least the cooldown apart. *)
Lemma shedding_follows_the_two_floors (available kill_floor danger_floor now : Z) (last : option Z) :
  kill_floor ≤ danger_floor →
  let '(due, last') := _shed_due (Some available) kill_floor danger_floor now last in
  (available < kill_floor → due = true) ∧
  (danger_floor ≤ available → due = false) ∧
  (kill_floor ≤ available < danger_floor →
     (due = true ↔ ∀ t, last = Some t → SHED_COOLDOWN_S ≤ now - t)) ∧
  last' = (if due then Some now else last) ∧ _shed_due None kill_floor danger_floor now last = (false, last).
Proof.
  intros Hf. unfold _shed_due. destruct (Z.ltb_spec available kill_floor); simpl.
  { split_and!; try done; lia. }
  destruct (Z.leb_spec danger_floor available); simpl; [split_and!; try done; lia|].
  destruct last as [t|]; simpl; [destruct (Z.ltb_spec (now - t) SHED_COOLDOWN_S)|]; split_and!; try done; try lia.
  - split; [done|]. intros H'. specialize (H' t eq_refl). lia.
  - split; [|done]. intros _ t' [= <-]. lia.
Qed.

(** ** Witnesses *)

Module ExampleResidency.
(** The same model on both servers, and a render *)
Definition box : list Resident :=
  [mkResident OLLAMA "chat-a" 50 false; mkResident VLLM "chat-a" 0 true; mkResident COMFYUI "comfyui" 0 false].
End ExampleResidency.
Import ExampleResidency.

Lemma evictions_bring_the_box_to_its_cap_witness :
  Z.of_nat (length (copies box)) = 3 ∧ Z.of_nat (length (copies (survivors 1 (Some OLLAMA) None box))) ≤ 1.
Proof.
  split; [by vm_compute|].
  destruct (evictions_bring_the_box_to_its_cap 1 (Some OLLAMA) None box) as (_ & _ & H); [lia|exact H].
Defined.

Lemma evictions_spare_protected_and_busy_witness :
  mkResident COMFYUI "comfyui" 0 false ∈ decide_evictions 1 (Some OLLAMA) None box ∧
  (cheap box (mkResident VLLM "chat-a" 0 true) = true → None = Some OLLAMA).
Proof.
  assert (mkResident COMFYUI "comfyui" 0 false ∈ decide_evictions 1 (Some OLLAMA) None box) as Hr
    by (vm_compute; right; left).
  split; [exact Hr|].
  apply (evictions_spare_protected_and_busy 1 (Some OLLAMA) None box
    (mkResident COMFYUI "comfyui" 0 false) (mkResident VLLM "chat-a" 0 true)); [lia|exact Hr|].
  vm_compute. left.
Defined.

Lemma violations_are_killed_then_raised_witness :
  (enforce_once 1 (Ok box) (Ok (Some OLLAMA)) (Ok None)).2 = Raise ModelResidencyViolation.
Proof.
  pose proof (violations_are_killed_then_raised 1 (Ok box) (Ok (Some OLLAMA)) (Ok None) ltac:(lia)) as H.
  destruct (enforce_once 1 (Ok box) (Ok (Some OLLAMA)) (Ok None)) as [fired res].
  destruct H as [_ H].
  assert ((Z.of_nat (length (copies box)) <=? 1) = false) as E by by vm_compute.
  rewrite E in H. exact (proj1 H).
Defined.

Lemma load_gate_clears_the_box_witness :
  let r := clear_box_for INPROCESS (Some "flux") box (Some (Ok [mkResident VLLM "chat-a" 0 false])) in
  r.2 = Raise ModelAlreadyLoadedError ∧ StopVllm ∈ r.1.
Proof.
  destruct (clear_box_for INPROCESS (Some "flux") box (Some (Ok [mkResident VLLM "chat-a" 0 false])))
    as [fired res] eqn:E.
  destruct (load_gate_clears_the_box INPROCESS (Some "flux") box _ fired res E) as [_ H].
  destruct H as (_ & H1 & H2); [by vm_compute|].
  split; [apply H1; by vm_compute|].
  apply (H2 (mkResident VLLM "chat-a" 0 true)); [vm_compute; right; left|done|reflexivity].
Defined.

Lemma shedding_follows_the_two_floors_witness :
  (_shed_due (Some 100) 512 12288 70 (Some 50)).1 = true ∧
  (_shed_due (Some 2048) 512 12288 70 (Some 50)).1 = false.
Proof.
  split.
  - pose proof (shedding_follows_the_two_floors 100 512 12288 70 (Some 50) ltac:(lia)) as H.
    destruct (_shed_due (Some 100) 512 12288 70 (Some 50)) as [due last].
    destruct H as [H _]. apply H. lia.
  - by vm_compute.
Defined.
