(* ===== verification/LlmContext.v ===== *)
(** * The context window of a box ([queue_workflows/llm_context.py])

    What a token of window costs, how big a window a box can serve, which window to
    switch to, and how to start vLLM within the memory the box has.  Pure arithmetic:
    bytes and tokens are integers, a Python float is a rational computed exactly. *)

From Stdlib Require Import Qround Lqa.
From S2P Require Import Prelude Json Refs WorkerLanes.
Local Open Scope Z_scope.

(** [int(x)] of a float, and [math.floor], [math.ceil] *)
Definition qtrunc (q : Q) : Z := Z.quot (Qnum q) (Zpos (Qden q)).
(** [round(x, 2)]: to hundredths, a half to the even one *)
Definition round2 (x : Q) : Q :=
  let y := (x * 100)%Q in
  let f := Qfloor y in
  let d := (y - inject_Z f)%Q in
  let n := if Qle_bool d (1 # 2) && (negb (Qeq_bool d (1 # 2)) || Z.even f) then f else f + 1 in
  (inject_Z n * (1 # 100))%Q.
Definition qmin (a b : Q) : Q := if Qle_bool a b then a else b.
Definition qlt_bool (a b : Q) : bool := negb (Qle_bool b a).

Definition CONTEXT_GRANULE : Z := 1024.
Definition FORMULA_SAFETY : Q := 5 # 4.
Definition FORMULA_DEFAULT_PARALLEL : Z := 4.
Definition DEFAULT_RESERVE_MB : Z := 8192.
Definition DEFAULT_VLLM_UTILIZATION : Q := 9 # 10.
Definition VLLM_PLAN_MARGIN : Q := 1 # 20.
Definition MEMORY_REFUSAL : string := "memory: ".

(** ** Reading the model *)

Section model_info.
Context `{PyEnv}.

Definition _arch (info : dict) : option string :=
  match dict_get "general.architecture" info with
  | Some v => if truthy v then Some (py_str v) else None
  | None => None
  end.

Definition _positive_int (v : option json) : option Z :=
  let z := match v with
           | Some (JInt z) => Some z
           | Some (JFloat q) => Some (qtrunc q)
           | _ => None
           end in
  match z with Some z => if 0 <? z then Some z else None | None => None end.

Definition model_info_max_context (info : dict) : option Z :=
  arch ← _arch info; _positive_int (dict_get (arch +:+ ".context_length") info).

(** The layers that keep a cache, times the heads of each *)
Definition positive_head (v : json) : Z :=
  match v with
  | JInt z => if 0 <? z then z else 0
  | JFloat q => if qlt_bool 0 q then qtrunc q else 0
  | _ => 0
  end.
Definition kv_heads_total (info : dict) (arch : string) (blocks : Z) (raw_kv : json) : option Z :=
  match raw_kv with
  | JArr l => Some (foldr (λ v z, positive_head v + z) 0 l)
  | v =>
      kv_heads ← _positive_int (Some v);
      let layers := match _positive_int (dict_get (arch +:+ ".full_attention_interval") info) with
                    | Some interval => blocks / interval
                    | None => blocks
                    end in
      Some (layers * kv_heads)
  end.

(** [key or emb // heads] *)
Definition or_else (v : option Z) (d : Z) : Z := match v with Some 0 | None => d | Some z => z end.
Definition head_widths (info : dict) (arch : string) : option (Z * Z) :=
  let key := _positive_int (dict_get (arch +:+ ".attention.key_length") info) in
  let value := _positive_int (dict_get (arch +:+ ".attention.value_length") info) in
  match key, value with
  | Some k, Some v => Some (k, v)
  | _, _ =>
      emb ← _positive_int (dict_get (arch +:+ ".embedding_length") info);
      heads ← _positive_int (dict_get (arch +:+ ".attention.head_count") info);
      Some (or_else key (emb / heads), or_else value (emb / heads))
  end.

Definition kv_bytes_per_token_formula (info : dict) (parallel : Z) (bytes_per_element safety : Q) : option Z :=
  arch ← _arch info;
  blocks ← _positive_int (dict_get (arch +:+ ".block_count") info);
  raw_kv ← match dict_get (arch +:+ ".attention.head_count_kv") info with
           | None | Some JNull => None
           | Some v => Some v
           end;
  total ← kv_heads_total info arch blocks raw_kv;
  if total <=? 0 then None
  else
    kv ← head_widths info arch;
    let per_slot := (inject_Z (total * (kv.1 + kv.2)) * bytes_per_element)%Q in
    Some (qtrunc (per_slot * inject_Z (Z.max 1 parallel) * safety)).

End model_info.

Definition kv_bytes_per_token_observed (runner_bytes weights_bytes context_length : option Z) : option Z :=
  match runner_bytes, weights_bytes, context_length with
  | Some runner, Some weights, Some ctx =>
      let cache := runner - weights in
      if (cache <=? 0) || (ctx <=? 0) then None else Some (- (- cache / ctx))
  | _, _, _ => None
  end.

(** ** How big a box could go *)

Definition _floor_granule (tokens granule : Z) : Z :=
  if 0 <? granule then tokens / granule * granule else tokens.

(** [max(ceiling, int(current or 0)) or current] *)
Definition at_least_current (ceiling : Z) (current : option Z) : option Z :=
  let m := Z.max ceiling (default 0 current) in
  if m =? 0 then current else Some m.

Definition ollama_ceiling (current model_max per_token weights_bytes : option Z) (runner_bytes : Z)
    (available_bytes : option Z) (reserve_bytes granule : Z) : option Z :=
  match per_token, weights_bytes, available_bytes with
  | Some per_token, Some weights, Some available =>
      let cache_bytes := available + runner_bytes - reserve_bytes - weights in
      if (cache_bytes <=? 0) || (per_token <=? 0) then current
      else
        let tokens := cache_bytes / per_token in
        let ceiling :=
          match model_max with
          | Some m => if m <=? tokens then m else _floor_granule tokens granule
          | None => _floor_granule tokens granule
          end in
        at_least_current ceiling current
  | _, _, _ => current
  end.

Definition vllm_ceiling (current model_max kv_capacity_tokens : option Z) (granule : Z) : option Z :=
  match model_max, kv_capacity_tokens with
  | Some model_max, Some cap =>
      let tokens := Z.min model_max cap in
      at_least_current (if tokens =? model_max then tokens else _floor_granule tokens granule) current
  | _, _ => current
  end.

(** ** What to switch to *)

Definition ceil_div (a b : Z) : Z := - (- a / b).
Definition is_reachable (floor ceiling : Z) (n : option Z) : option Z :=
  match n with Some n => if (floor <? n) && (n <=? ceiling) then Some n else None | None => None end.
Definition switch_target (needs : list (option Z)) (current ceiling : option Z) (granule : Z) : option Z :=
  match ceiling with
  | None => None
  | Some ceiling =>
      match omap (is_reachable (default 0 current) ceiling) needs with
      | [] => None
      | n :: ns =>
          let m := foldr Z.max n ns in
          let target := if 0 <? granule then ceil_div m granule * granule else m in
          Some (Z.min target ceiling)
      end
  end.

(** ** The memory of the box *)

(** The value of a line of /proc/meminfo; None when the file cannot be read, the line
    is missing or its second word is not a number *)
Fixpoint blanks (s : string) : string :=
  match s with
  | EmptyString => EmptyString
  | String c r => String (if PyStr.is_space c then " "%char else c) (blanks r)
  end.
(** [s.split()] *)
Definition words (s : string) : list string := List.filter PyStr.truthy (PyStr.split " " (blanks s)).
Fixpoint meminfo (key : string) (lines : list string) : option Z :=
  match lines with
  | [] => None
  | line :: r =>
      if PyStr.startswith key line then
        match words line with
        | _ :: n :: _ => (λ kb, kb * 1024) <$> PyStr.int n
        | _ => None
        end
      else meminfo key r
  end.
Definition mem_available_bytes (file : option (list string)) : option Z := file ≫= meminfo "MemAvailable:".
Definition mem_total_bytes (file : option (list string)) : option Z := file ≫= meminfo "MemTotal:".

Definition reserve_bytes `{WorkerEnv} : result Z :=
  raw ← env_get "QUEUE_WORKFLOWS_LLM_CONTEXT_RESERVE_MB" None;
  let mb := match raw with
            | Some s => if PyStr.truthy s then default DEFAULT_RESERVE_MB (PyStr.int s) else DEFAULT_RESERVE_MB
            | None => DEFAULT_RESERVE_MB
            end in
  Ok (Z.max 0 mb * (1024 * 1024)).

Definition load_fits (weights_bytes kv_bytes available_bytes : option Z) (reserve_bytes : Z) : option bool :=
  match weights_bytes, available_bytes with
  | Some weights, Some available => Some (weights + default 0 kv_bytes <=? available - reserve_bytes)
  | _, _ => None
  end.

Definition vllm_utilization (configured : option Q) (total_bytes available_bytes : option Z)
    (reserve_bytes : Z) (granule : Q) : option Q :=
  match total_bytes, available_bytes with
  | Some total, Some available =>
      if total <=? 0 then None
      else
        let fitted := (inject_Z (available - reserve_bytes) / inject_Z total)%Q in
        let fitted := (inject_Z (Qfloor ((if Qle_bool fitted 0 then 0 else fitted) / granule)) * granule)%Q in
        Some (round2 (qmin (default DEFAULT_VLLM_UTILIZATION configured) fitted))
  | _, _ => None
  end.

(** ** vLLM sized to what it needs *)

Record VllmProfile := mkProfile {
  p_weights_bytes : Z;
  p_kv_bytes : Z;
  p_kv_tokens : Z;
  p_window : Z;
  p_utilization : Q;
  p_total_bytes : Z;
}.

Definition per_token_bytes (p : VllmProfile) : Q :=
  if p_kv_tokens p =? 0 then 0 else (inject_Z (p_kv_bytes p) / inject_Z (p_kv_tokens p))%Q.
Definition pool_bytes (p : VllmProfile) : Z := qtrunc (p_utilization p * inject_Z (p_total_bytes p))%Q.
Definition overhead_bytes (p : VllmProfile) : Z :=
  Z.max 0 (pool_bytes p - p_weights_bytes p - p_kv_bytes p).
Definition concurrency (p : VllmProfile) : Q :=
  if p_window p =? 0 then 0 else (inject_Z (p_kv_tokens p) / inject_Z (p_window p))%Q.

Definition as_record (p : VllmProfile) (fingerprint : option string) : dict :=
  [("weights_bytes", JInt (p_weights_bytes p)); ("kv_bytes", JInt (p_kv_bytes p));
   ("kv_tokens", JInt (p_kv_tokens p)); ("window", JInt (p_window p));
   ("utilization", JFloat (p_utilization p)); ("total_bytes", JInt (p_total_bytes p));
   ("fingerprint", JStr (default "" fingerprint))].

(** [int(record[k])] and [float(record[k])]; every exception they raise is caught *)
Definition int_field (k : string) (fs : dict) : option Z :=
  match dict_get k fs with
  | Some v => match py_int v with Ok z => Some z | Raise _ => None end
  | None => None
  end.
(** [float(s)] of plain decimal digits; signs and exponents, which neither a record nor
    a log of vLLM holds, are not read *)
Definition decimal (s : string) : option Q :=
  match PyStr.split1 "." s with
  | (i, None) => if PyStr.isdigit i then Some (inject_Z (PyStr.int_of_digits i)) else None
  | (i, Some f) =>
      if PyStr.all_digits i && PyStr.all_digits f && (PyStr.truthy i || PyStr.truthy f)
      then Some (inject_Z (PyStr.int_of_digits i) +
                 inject_Z (PyStr.int_of_digits f) / inject_Z (10 ^ Z.of_nat (String.length f)))%Q
      else None
  end.
Definition float_field (k : string) (fs : dict) : option Q :=
  match dict_get k fs with
  | Some (JStr s) => decimal (PyStr.strip s)
  | Some v => as_number v
  | None => None
  end.
Definition from_record (record : json) : option VllmProfile :=
  match record with
  | JObj fs =>
      weights ← int_field "weights_bytes" fs;
      kv ← int_field "kv_bytes" fs;
      tokens ← int_field "kv_tokens" fs;
      window ← int_field "window" fs;
      utilization ← float_field "utilization" fs;
      total ← int_field "total_bytes" fs;
      Some (mkProfile weights kv tokens window utilization total)
  | _ => None
  end.

Definition vllm_concurrency (kv_tokens window : option Z) : option Z :=
  match kv_tokens, window with
  | Some k, Some w => if (k =? 0) || (w =? 0) then None else Some (Z.max 1 (k / w))
  | _, _ => None
  end.

(** Why a start is refused; after its prefix [MEMORY_REFUSAL], the text of the refusal and of the reason is not kept *)
Inductive refusal :=
  | BelowMinimum (fitted : Q)
  | OneRequestDoesNotFit (need : Q) (usable : Z)
  (** added by the worker: too few requests to be worth a pool beside ollama, and a box
      that has lost loads lately *)
  | TooThin (n minimum : Z)
  | NotWorthTheLoad (losses need : Z).
Record VllmPlan := mkPlan {
  plan_utilization : option Q;
  plan_max_num_seqs : option Z;
  plan_refusal : option refusal;
}.
Definition as_configured : VllmPlan := mkPlan None None None.

(** The plan without a profile of the model *)
Definition unprofiled_plan (fitted : option Q) (op_util min_utilization : Q) : VllmPlan :=
  match fitted with
  | None => as_configured
  | Some f =>
      if qlt_bool f min_utilization then mkPlan None None (Some (BelowMinimum f))
      else if Qle_bool op_util (f + (1 # 200))%Q then as_configured
      else mkPlan (Some f) None None
  end.

(** [max(1, int(operator_max_seqs or 1))] *)
Definition n_max (operator_max_seqs : option Z) : Z :=
  Z.max 1 (match operator_max_seqs with None | Some 0 => 1 | Some n => n end).

Section plan.
Context (total available reserve : Z) (op_util : Q) (profile : VllmProfile) (window : Z) (margin : Q).

Definition usable : Z := Z.min (available - reserve) (qtrunc (op_util * inject_Z total)).
Definition fixed_bytes : Z := p_weights_bytes profile + overhead_bytes profile.
Definition per_seq : Q := (inject_Z window * per_token_bytes profile)%Q.
(** What [n] requests of the window take, with the margin *)
Definition pool_for (n : Z) : Q := ((inject_Z fixed_bytes + inject_Z n * per_seq) * (1 + margin))%Q.

Definition profiled_plan (fitted : option Q) (operator_max_seqs : option Z) (granule : Q) : VllmPlan :=
  if negb (Qle_bool (pool_for 1) (inject_Z usable))
  then mkPlan None None (Some (OneRequestDoesNotFit (pool_for 1) usable))
  else
    let n := Z.min (n_max operator_max_seqs) (Qfloor ((inject_Z usable / (1 + margin) - inject_Z fixed_bytes) / per_seq)%Q) in
    let n := Z.max 1 n in
    let util := (inject_Z (Qceiling (pool_for n / inject_Z total / granule)) * granule)%Q in
    mkPlan (Some (round2 (qmin (qmin util op_util) (default op_util fitted)))) (Some n) None.
End plan.

Definition vllm_plan (total_bytes available_bytes : option Z) (reserve_bytes : Z)
    (operator_utilization : option Q) (operator_max_seqs window : option Z) (profile : option VllmProfile)
    (min_utilization granule margin : Q) : VllmPlan :=
  match total_bytes, available_bytes with
  | Some total, Some available =>
      if total <=? 0 then as_configured
      else
        let op_util := default DEFAULT_VLLM_UTILIZATION operator_utilization in
        let fitted := vllm_utilization (Some op_util) (Some total) (Some available) reserve_bytes (1 # 100) in
        match profile, window with
        | Some p, Some w =>
            if qlt_bool 0 (per_token_bytes p) && negb (w =? 0)
            then profiled_plan total available reserve_bytes op_util p w margin fitted operator_max_seqs granule
            else unprofiled_plan fitted op_util min_utilization
        | _, _ => unprofiled_plan fitted op_util min_utilization
        end
  | _, _ => as_configured
  end.

(** ** The log of a start *)

(** The longest run of characters of a class, and what follows *)
Fixpoint span (p : ascii → bool) (s : string) : string * string :=
  match s with
  | String c r => if p c then let '(a, b) := span p r in (String c a, b) else (EmptyString, s)
  | EmptyString => (EmptyString, EmptyString)
  end.
Definition number_char (sep : ascii) (c : ascii) : bool := PyStr.is_digit c || Ascii.eqb c sep.

(** [before([\d<sep>]+)after] at the start of [s], its rest in [tail]: the group and
    the rest *)
Definition match_here (before : string) (sep : ascii) (after : string) (tail : string → bool) (s : string)
    : option (string * string) :=
  if String.prefix before s then
    let '(num, rest) := span (number_char sep) (PyStr.removeprefix before s) in
    let rest' := PyStr.removeprefix after rest in
    if PyStr.truthy num && String.prefix after rest && tail rest' then Some (num, rest') else None
  else None.
(** [re.search]: the leftmost match *)
Fixpoint search (before : string) (sep : ascii) (after : string) (tail : string → bool) (s : string)
    : option (string * string) :=
  match match_here before sep after tail s with
  | Some r => Some r
  | None => match s with EmptyString => None | String _ r => search before sep after tail r end
  end.
Definition anything (_ : string) : bool := true.
(** [([\d.]+)x] *)
Definition times (s : string) : bool :=
  let '(num, rest) := span (number_char ".") s in PyStr.truthy num && String.prefix "x" rest.

(** The starts of a log, each with its weights and the text up to the next; [n] bounds
    the number of starts by the length of the text *)
Fixpoint cut_at_start (s : string) : string * option (string * string) :=
  match match_here "Model loading took " "." " GiB memory" anything s with
  | Some r => (EmptyString, Some r)
  | None => match s with
            | EmptyString => (EmptyString, None)
            | String c r => let '(a, b) := cut_at_start r in (String c a, b)
            end
  end.
Fixpoint starts_of (n : nat) (s : string) : list (string * string) :=
  match n, cut_at_start s with
  | S n, (_, Some (weights, rest)) => (weights, (cut_at_start rest).1) :: starts_of n rest
  | _, _ => []
  end.

Definition digits_of (s : string) : result Z :=
  match PyStr.int (String.concat "" (PyStr.split "," s)) with
  | Some z => Ok z
  | None => Raise (ValueError "int")
  end.
Definition gib (s : string) : result Z :=
  match decimal s with
  | Some q => Ok (qtrunc (q * inject_Z (2 ^ 30)))
  | None => Raise (ValueError "float")
  end.

(** The last start whose lines are all there *)
Fixpoint latest_complete (total : Z) (utilization : option Q) (starts : list (string * string))
    : result (option VllmProfile) :=
  match starts with
  | [] => Ok None
  | (weights, rest) :: earlier =>
      match search "Available KV cache memory: " "." " GiB" anything rest,
            search "GPU KV cache size: " "," " tokens" anything rest,
            search "Maximum concurrency for " "," " tokens per request: " times rest with
      | Some (kv, _), Some (tokens, _), Some (window, _) =>
          util ← match search "--gpu-memory-utilization=" "." " is equivalent" anything rest with
                 | Some (u, _) => match decimal u with
                                  | Some q => Ok (Some q)
                                  | None => Raise (ValueError "float")
                                  end
                 | None => Ok utilization
                 end;
          match (util : option Q) with
          | None => Ok None
          | Some util =>
              w ← gib weights; k ← gib kv; t ← digits_of tokens; win ← digits_of window;
              Ok (Some (mkProfile w k t win util total))
          end
      | _, _, _ => latest_complete total utilization earlier
      end
  end.
Definition parse_vllm_startup (text : option string) (total_bytes : option Z) (utilization : option Q)
    : result (option VllmProfile) :=
  match text, total_bytes with
  | Some text, Some total =>
      if negb (PyStr.truthy text) || (total =? 0) then Ok None
      else latest_complete total utilization (reverse (starts_of (String.length text) text))
  | _, _ => Ok None
  end.

(** The log of two starts, the second still loading *)
Example startup_log :
  parse_vllm_startup (Some ("Model loading took 18.5 GiB memory and 315.5 seconds
Available KV cache memory: 42.25 GiB
GPU KV cache size: 684,056 tokens
Maximum concurrency for 262,144 tokens per request: 2.61x
INFO --gpu-memory-utilization=0.42 is equivalent to
Model loading took 19.5 GiB memory and 310 seconds"))
    (Some (128 * 2 ^ 30)) (Some (1 # 2)) =
  Ok (Some (mkProfile (37 * 2 ^ 29) (169 * 2 ^ 28) 684056 262144 (42 # 100) (128 * 2 ^ 30))).
Proof. vm_compute. reflexivity. Qed.

(** ** Ceilings *)

Section ceilings.
Lemma floor_granule_le tokens granule : 0 ≤ granule → _floor_granule tokens granule ≤ tokens.
Proof.
  intros Hg. unfold _floor_granule. destruct (Z.ltb_spec 0 granule); [|lia].
  rewrite Z.mul_comm. by apply Z.mul_div_le.
Qed.

Lemma at_least_current_spec c current d :
  at_least_current c current = Some d → (d = c ∨ current = Some d) ∧ (∀ e, current = Some e → e ≤ d).
Proof.
  unfold at_least_current. destruct (Z.eqb_spec (Z.max c (default 0 current)) 0) as [E|E].
  - intros ->. split; [by right|]. intros e [= <-]. done.
  - intros [= <-]. destruct current as [e|]; simpl in *.
    + split; [|intros ? [= <-]; lia]. destruct (Z.max_spec c e) as [[_ ->]|[_ ->]]; auto.
    + split; [|done]. left. destruct (Z.max_spec c 0); lia.
Qed.
End ceilings.

(** An advertised window fits the memory of the box.  A ceiling ollama could be switched
    to is the window it already serves, or one whose cache and weights fit in what is free
    now and what the loaded runner would release, with the reserve kept, and within the
    model's own maximum; and it is never below the window already served. *)
Lemma ollama_ceiling_fits_memory (current model_max : option Z) (per_token weights runner available reserve granule c : Z) :
  0 ≤ granule →
  ollama_ceiling current model_max (Some per_token) (Some weights) runner (Some available) reserve granule = Some c →
  (current = Some c ∨
   (weights + c * per_token ≤ available + runner - reserve ∧ ∀ m, model_max = Some m → c ≤ m)) ∧
  (∀ e, current = Some e → e ≤ c).
Proof.
  intros Hg. unfold ollama_ceiling. set (cache := available + runner - reserve - weights).
  destruct (Z.leb_spec cache 0); simpl; [intros ->; split; [by left|intros e [= <-]; lia]|].
  destruct (Z.leb_spec per_token 0); simpl; [intros ->; split; [by left|intros e [= <-]; lia]|].
  set (tokens := cache / per_token).
  assert (tokens * per_token ≤ cache) as Ht by (rewrite Z.mul_comm; by apply Z.mul_div_le).
  pose proof (floor_granule_le tokens granule Hg) as Hf.
  intros [[->|Hc] Hcur]%at_least_current_spec; (split; [|done]); [right|by left].
  destruct model_max as [m|]; [destruct (Z.leb_spec m tokens)|].
  - split; [unfold cache in *; nia|]. intros ? [= <-]. lia.
  - split; [unfold cache in *; nia|]. intros ? [= <-]. lia.
  - split; [unfold cache in *; nia|done].
Qed.

(** ** Targets *)

Lemma foldr_max_spec (n : Z) ns :
  foldr Z.max n ns ∈ n :: ns ∧ ∀ x, x ∈ n :: ns → x ≤ foldr Z.max n ns.
Proof.
  induction ns as [|y ns [IH1 IH2]]; simpl.
  { split; [left|]. intros x ->%list_elem_of_singleton. done. }
  split.
  - destruct (Z.max_spec y (foldr Z.max n ns)) as [[_ ->]|[_ ->]]; set_solver.
  - intros x Hx. assert (x = y ∨ x ∈ n :: ns) as [->|Hx'] by set_solver; [lia|].
    specialize (IH2 x Hx'). lia.
Qed.

Lemma ceil_div_le a b : 0 < b → a ≤ ceil_div a b * b < a + b.
Proof.
  intros Hb. unfold ceil_div. pose proof (Z.div_mod (- a) b) as E. pose proof (Z.mod_pos_bound (- a) b Hb). lia.
Qed.

(** A box switches to a window for the largest need it can reach.  The target is wider
    than what is served, never past the ceiling, wide enough for every queued need the
    box can reach, and less than a granule wider than the largest of them; there is no
    target exactly when no queued need lies between the window served and the ceiling. *)
Lemma switch_target_serves_the_reachable_needs (needs : list (option Z)) (current : option Z) (ceiling granule : Z) :
  0 < granule →
  let reach n := Some n ∈ needs ∧ default 0 current < n ≤ ceiling in
  match switch_target needs current (Some ceiling) granule with
  | None => ∀ n, ~ reach n
  | Some t => default 0 current < t ≤ ceiling ∧ (∀ n, reach n → n ≤ t) ∧ ∃ n, reach n ∧ t < n + granule
  end.
Proof.
  intros Hg reach. unfold switch_target.
  assert (∀ n, n ∈ omap (is_reachable (default 0 current) ceiling) needs ↔ reach n) as Hr.
  { intros n. rewrite list_elem_of_omap. unfold reach, is_reachable. split.
    - intros (o & Ho & E). destruct o as [o|]; [|done].
      destruct (Z.ltb_spec (default 0 current) o); [|done].
      destruct (Z.leb_spec o ceiling); [|done]. simpl in E. simplify_eq. done.
    - intros (Hin & H1 & H2). exists (Some n). split; [done|].
      rewrite (proj2 (Z.ltb_lt _ _)), (proj2 (Z.leb_le _ _)) by lia. done. }
  destruct (omap _ needs) as [|n ns] eqn:E.
  { intros n Hn%Hr. set_solver. }
  destruct (foldr_max_spec n ns) as [Hin Hmax]. set (m := foldr Z.max n ns) in *.
  pose proof (proj1 (Hr m) Hin) as Hm. destruct Hm as (Hm1 & Hm2 & Hm3).
  rewrite (proj2 (Z.ltb_lt 0 granule)) by done. pose proof (ceil_div_le m granule Hg) as Hcd.
  split_and!; [lia|lia| |exists m; split; [done|lia]].
  intros x Hx%Hr. specialize (Hmax x Hx). lia.
Qed.

(** A start's profile survives its record: reading back what [as_record] wrote gives the
    same profile. *)
Lemma profile_record_roundtrip (p : VllmProfile) (fingerprint : option string) :
  from_record (JObj (as_record p fingerprint)) = Some p.
Proof. by destruct p. Qed.

(** ** The plan of a start *)

Section rationals.
Local Open Scope Q_scope.

Lemma qmin_l a b : qmin a b <= a.
Proof. unfold qmin. destruct (Qle_bool a b) eqn:E; [apply Qle_refl|]. apply Qnot_lt_le. intros H.
  apply Qlt_le_weak, Qle_bool_iff in H. congruence. Qed.
Lemma qmin_r a b : qmin a b <= b.
Proof. unfold qmin. destruct (Qle_bool a b) eqn:E; [by apply Qle_bool_iff|apply Qle_refl]. Qed.

Lemma qle_bool_false a b : Qle_bool a b = false → b < a.
Proof. intros E. apply Qnot_le_lt. intros H. apply Qle_bool_iff in H. congruence. Qed.

(** Hundredths are where [round2] rounds to: it never passes one. *)
Lemma round2_le x (k : Z) : x <= inject_Z k * (1 # 100) → round2 x <= inject_Z k * (1 # 100).
Proof.
  intros Hx. unfold round2. set (y := x * 100). set (f := Qfloor y).
  assert (y <= inject_Z k) as Hy by (unfold y; lra).
  assert (f ≤ k)%Z as Hf by (unfold f; rewrite <- (Qfloor_Z k); by apply Qfloor_resp_le).
  set (b := Qle_bool _ _ && _). enough ((if b then f else f + 1) ≤ k)%Z as Hn.
  { rewrite Zle_Qle in Hn. lra. }
  destruct b eqn:Eb; [done|]. destruct (Z.eq_dec f k) as [E|]; [|lia]. exfalso.
  assert (y - inject_Z f == 0) as E0.
  { pose proof (Qfloor_le y) as H1. fold f in H1. rewrite E in *. lra. }
  unfold b in Eb. apply andb_false_iff in Eb as [Eb|Eb].
  - apply qle_bool_false in Eb. lra.
  - apply orb_false_iff in Eb as [Eb _]. apply negb_false_iff, Qeq_bool_iff in Eb. lra.
Qed.

Lemma round2_near x : round2 x <= x + (1 # 200).
Proof.
  unfold round2. set (y := x * 100). set (f := Qfloor y).
  pose proof (Qfloor_le y) as H1. fold f in H1.
  destruct (Qle_bool (y - inject_Z f) (1 # 2)) eqn:E1; simpl.
  - destruct (negb _ || _) eqn:E2; [unfold y in *; lra|].
    apply orb_false_iff in E2 as [E2 _]. apply negb_false_iff, Qeq_bool_iff in E2.
    rewrite inject_Z_plus. unfold y in *. change (inject_Z 1) with 1. lra.
  - apply qle_bool_false in E1. rewrite inject_Z_plus. unfold y in *. change (inject_Z 1) with 1. lra.
Qed.

Lemma fits_iff (n U F a b : Q) : 0 < a → 0 < b → n <= (U / a - F) / b ↔ (F + n * b) * a <= U.
Proof.
  intros Ha Hb.
  assert ((U / a - F) / b * b == U / a - F) as E1 by (field; lra).
  assert (U / a * a == U) as E2 by (field; lra). split; intros H.
  - assert (n * b <= U / a - F) as H1 by (rewrite <- E1; by apply Qmult_le_compat_r; [|lra]).
    rewrite <- E2. apply Qmult_le_compat_r; lra.
  - apply Qle_shift_div_l; [done|]. assert (F + n * b <= U / a); [|lra].
    apply Qle_shift_div_l; [done|]. lra.
Qed.
End rationals.

Section plans.
Local Open Scope Q_scope.
Context (total available reserve : Z) (op_util : Q).
Context (Htotal : (0 < total)%Z) (Hfree : (0 ≤ available - reserve)%Z).

(** What [vllm_utilization] fits is a number of hundredths within the free memory. *)
Lemma utilization_fits u :
  vllm_utilization (Some op_util) (Some total) (Some available) reserve (1 # 100) = Some u →
  ∃ k, u == inject_Z k * (1 # 100) ∧ u * inject_Z total <= inject_Z (available - reserve).
Proof.
  unfold vllm_utilization. rewrite (proj2 (Z.leb_gt total 0)) by done. intros [= <-].
  set (share := inject_Z (available - reserve) / inject_Z total).
  assert (0 < inject_Z total) as Ht by by rewrite <- (Zlt_Qlt 0).
  assert (0 <= share) as Hs.
  { unfold share. apply Qle_shift_div_l; [done|]. rewrite Qmult_0_l. by rewrite <- (Zle_Qle 0). }
  set (pos := if Qle_bool share 0 then 0 else share).
  assert (pos <= share) as Hp by (unfold pos; destruct (Qle_bool share 0); lra).
  set (k := Qfloor (pos / (1 # 100))).
  assert (inject_Z k * (1 # 100) <= share) as Hk.
  { pose proof (Qfloor_le (pos / (1 # 100))) as H1. fold k in H1.
    assert (pos / (1 # 100) == pos * 100) as E by field. lra. }
  simpl default. set (x := qmin op_util (inject_Z k * (1 # 100))).
  assert (round2 x <= inject_Z k * (1 # 100)) as Hr.
  { apply round2_le. unfold x. pose proof (qmin_r op_util (inject_Z k * (1 # 100))). lra. }
  eexists. split; [unfold round2; reflexivity|].
  assert (round2 x * inject_Z total <= share * inject_Z total) as H1 by (apply Qmult_le_compat_r; lra).
  assert (share * inject_Z total == inject_Z (available - reserve)) as E by (unfold share; field; lra).
  eapply Qle_trans; [exact H1|]. rewrite E. apply Qle_refl.
Qed.

Lemma profiled_concurrency p w margin fitted seqs granule u n :
  0 <= margin → 0 < per_seq p w →
  profiled_plan total available reserve op_util p w margin fitted seqs granule = mkPlan (Some u) (Some n) None →
  (1 ≤ n ≤ n_max seqs)%Z ∧ pool_for p w margin n <= inject_Z (usable total available reserve op_util) ∧
  (n = n_max seqs ∨ inject_Z (usable total available reserve op_util) < pool_for p w margin (n + 1)).
Proof.
  intros Hm Hb. unfold profiled_plan. destruct (negb _) eqn:E1; [done|].
  apply negb_false_iff, Qle_bool_iff in E1.
  set (U := inject_Z (usable _ _ _ _)) in *.
  set (X := (U / (1 + margin) - inject_Z (fixed_bytes p)) / per_seq p w).
  set (k := Qfloor X). intros [= _ <-].
  assert (1 ≤ n_max seqs)%Z by (unfold n_max; lia).
  assert (0 < 1 + margin) as Ha by lra.
  assert (∀ m : Z, inject_Z m <= X ↔ pool_for p w margin m <= U) as Hiff
    by (intros m; apply fits_iff; done).
  assert (1 ≤ k)%Z as Hk.
  { unfold k. rewrite <- (Qfloor_Z 1). apply Qfloor_resp_le. by apply (Hiff 1%Z). }
  pose proof (Qfloor_le X) as HX. fold k in HX.
  split_and!; [lia|lia| |].
  - apply Hiff. eapply Qle_trans; [|exact HX]. rewrite <- Zle_Qle. lia.
  - destruct (Z.le_gt_cases (n_max seqs) k); [left; lia|right].
    replace (Z.max 1 (Z.min (n_max seqs) k)) with k by lia. apply Qnot_le_lt. intros Hle%Hiff.
    pose proof (Qlt_floor X) as Hlt. fold k in Hlt. by apply (Qlt_not_le _ _ Hlt).
Qed.

(** Both kinds of plan stay under the pool that fits. *)
Lemma profiled_pool p w margin f k seqs granule u :
  f == inject_Z k * (1 # 100) →
  plan_utilization (profiled_plan total available reserve op_util p w margin (Some f) seqs granule) = Some u →
  u <= f ∧ u <= op_util + (1 # 200).
Proof.
  intros Ek. unfold profiled_plan. destruct (negb _); simpl; [done|]. intros [= <-].
  set (x := qmin (qmin _ op_util) f). split.
  - rewrite Ek. apply round2_le. rewrite <- Ek. apply qmin_r.
  - eapply Qle_trans; [apply round2_near|]. apply Qplus_le_compat; [|apply Qle_refl].
    unfold x. eapply Qle_trans; [apply qmin_l|apply qmin_r].
Qed.

Lemma unprofiled_pool f min_u u :
  plan_utilization (unprofiled_plan (Some f) op_util min_u) = Some u →
  u = f ∧ plan_max_num_seqs (unprofiled_plan (Some f) op_util min_u) = None.
Proof. unfold unprofiled_plan. repeat case_match; simpl; intros; by simplify_eq. Qed.

Lemma utilization_ceiling f :
  vllm_utilization (Some op_util) (Some total) (Some available) reserve (1 # 100) = Some f →
  f <= op_util + (1 # 200).
Proof.
  unfold vllm_utilization. rewrite (proj2 (Z.leb_gt total 0)) by done. intros [= <-].
  eapply Qle_trans; [apply round2_near|]. apply Qplus_le_compat; [apply qmin_l|apply Qle_refl].
Qed.

Lemma per_seq_pos p w : (0 < w)%Z → 0 < per_token_bytes p → 0 < per_seq p w.
Proof.
  intros Hw Hp. unfold per_seq. rewrite <- (Qmult_0_l (per_token_bytes p)).
  apply Qmult_lt_compat_r; [done|]. by rewrite <- (Zlt_Qlt 0).
Qed.
End plans.

(** C26: A planned start fits the box.  On a box whose free memory is at least the reserve,
    and for a margin that is not negative: whatever pool a plan names, it is within the
    memory that is free with the reserve kept, and above the operator's ceiling by no more than the
    rounding to hundredths; when it names a concurrency, that many requests of the window
    (weights, overhead and cache, with the margin) fit the usable memory, and it is the
    operator's concurrency or the largest that fits. *)
Theorem vllm_plan_fits_the_box (total available reserve : Z) (op : option Q) (seqs window : option Z)
    (profile : option VllmProfile) (min_u granule margin u : Q) :
  0 < total → 0 ≤ available - reserve → (0 <= margin)%Q →
  let op_util := default DEFAULT_VLLM_UTILIZATION op in
  let plan := vllm_plan (Some total) (Some available) reserve op seqs window profile min_u granule margin in
  plan_utilization plan = Some u →
  (u * inject_Z total <= inject_Z (available - reserve))%Q ∧ (u <= op_util + (1 # 200))%Q ∧
  ∀ n, plan_max_num_seqs plan = Some n → ∃ p w, profile = Some p ∧ window = Some w ∧
    (0 < w → 1 ≤ n ∧ (pool_for p w margin n <= inject_Z (usable total available reserve op_util))%Q ∧
     (n = n_max seqs ∨
      (inject_Z (usable total available reserve op_util) < pool_for p w margin (n + 1))%Q)).
Proof.
  intros Ht Hfree Hm op_util plan.
  assert (∃ f, vllm_utilization (Some op_util) (Some total) (Some available) reserve (1 # 100) = Some f) as [f Ef].
  { unfold vllm_utilization. rewrite (proj2 (Z.leb_gt total 0)) by done. eauto. }
  destruct (utilization_fits total available reserve op_util Ht Hfree f Ef) as (k & Ek & Hf).
  pose proof (utilization_ceiling total available reserve op_util Ht f Ef) as Hfo.
  unfold plan, vllm_plan. rewrite (proj2 (Z.leb_gt total 0)) by done. fold op_util. rewrite Ef.
  assert (∀ q, plan_utilization q = Some u → q = unprofiled_plan (Some f) op_util min_u →
    (u * inject_Z total <= inject_Z (available - reserve))%Q ∧ (u <= op_util + (1 # 200))%Q ∧
    ∀ n, plan_max_num_seqs q = Some n → False) as Hun.
  { intros q Hq ->. by destruct (unprofiled_pool op_util f min_u u Hq) as [-> ->]. }
  destruct profile as [p|]; [destruct window as [w|]; [destruct (qlt_bool 0 _ && _) eqn:Ep|]|];
    try (intros Hu; destruct (Hun _ Hu eq_refl) as (? & ? & Hno); split_and!; [done..|];
         intros n Hn; by destruct (Hno n)).
  intros Hu. destruct (profiled_pool total available reserve op_util p w margin f k seqs granule u Ek Hu) as [H1 H2].
  split_and!; [|done|].
  { eapply Qle_trans; [apply Qmult_le_compat_r; [exact H1|]|exact Hf]. rewrite <- (Zle_Qle 0). lia. }
  intros n Hn. exists p, w. split_and!; [done..|]. intros Hw.
  apply andb_true_iff in Ep as [Ep _]. apply negb_true_iff, qle_bool_false in Ep.
  destruct (profiled_concurrency total available reserve op_util p w margin (Some f) seqs granule u n Hm
    (per_seq_pos p w Hw Ep)) as (? & ? & ?); [|split_and!; [lia|done|done]].
  revert Hu Hn. unfold profiled_plan. destruct (negb _); simpl; [done|]. by intros [= <-] [= <-].
Qed.

(** The rounding lets a pool exceed the operator's ceiling, *)
Lemma utilization_rounds_above_the_ceiling :
  ∃ u, vllm_utilization (Some (426 # 1000)) (Some 128) (Some 128) 0 (1 # 100) = Some u ∧ (426 # 1000 < u)%Q.
Proof. eexists. split; [vm_compute; reflexivity|]. by vm_compute. Qed.

(** and the clamp to what is free can leave a pool below what one request of the window
    takes, where the plan is not refused: 1099 MB free of 10000, one request taking 1040. *)
Lemma plan_can_undersize_the_pool :
  let p := mkProfile 500 540 540 540 (104 # 1000) 10000 in
  let plan := vllm_plan (Some 10000) (Some 1099) 0 None (Some 8) (Some 540) (Some p) (1 # 10) (1 # 100) (1 # 20) in
  plan_refusal plan = None ∧ plan_max_num_seqs plan = Some 1 ∧
  ∃ u, plan_utilization plan = Some u ∧ (u * 10000 < inject_Z (fixed_bytes p) + per_seq p 540)%Q.
Proof. split_and!; [vm_compute; reflexivity..|]. eexists. split; [vm_compute; reflexivity|]. by vm_compute. Qed.

(** ** Witnesses *)

Lemma ollama_ceiling_fits_memory_witness :
  ollama_ceiling (Some 4096) (Some 262144) (Some 3700) (Some 17740000000) 18710000000 (Some 40000000000)
    8589934592 1024 = Some 262144 ∧ 4096 ≤ 262144.
Proof.
  assert (ollama_ceiling (Some 4096) (Some 262144) (Some 3700) (Some 17740000000) 18710000000
    (Some 40000000000) 8589934592 1024 = Some 262144) as E by by vm_compute.
  split; [exact E|].
  destruct (ollama_ceiling_fits_memory _ _ _ _ _ _ _ 1024 _ ltac:(lia) E) as [_ H]. by apply H.
Defined.

Lemma switch_target_serves_the_reachable_needs_witness :
  switch_target [Some 9000; None; Some 30000; Some 90000] (Some 8192) (Some 65536) 1024 = Some 30720 ∧
  30000 ≤ 30720.
Proof.
  pose proof (switch_target_serves_the_reachable_needs [Some 9000; None; Some 30000; Some 90000]
    (Some 8192) 65536 1024 ltac:(lia)) as H.
  assert (switch_target [Some 9000; None; Some 30000; Some 90000] (Some 8192) (Some 65536) 1024
    = Some 30720) as E by by vm_compute.
  rewrite E in H. split; [exact E|]. destruct H as (_ & H & _). apply H.
  split; [set_solver|]. simpl. lia.
Defined.

Lemma vllm_plan_fits_the_box_witness :
  let p := mkProfile 19 42 840 320 (42 # 100) 128 in
  let plan := vllm_plan (Some 128) (Some 90) 8 None (Some 8) (Some 320) (Some p) (1 # 10) (1 # 100) (1 # 20) in
  plan_max_num_seqs plan = Some 3 ∧
  ∃ u, plan_utilization plan = Some u ∧ (u * 128 <= 82)%Q.
Proof.
  intros p plan. split; [by vm_compute|].
  assert (∃ u, plan_utilization plan = Some u) as [u Hu] by (eexists; vm_compute; reflexivity).
  exists u. split; [exact Hu|].
  refine (proj1 (vllm_plan_fits_the_box 128 90 8 None (Some 8) (Some 320) (Some p) (1 # 10) (1 # 100)
    (1 # 20) u _ _ _ Hu)); [lia|lia|by vm_compute].
Defined.
