(* ===== verification/CatalogRows.v ===== *)
(** * The rows of the model catalog ([queue_workflows/node_queue.py], migrations 0026, 0027
      and 0029)

    What the boxes have published of the models their servers can serve: the upsert of an
    observation with the retirement of what vanished, the profile a start of vLLM leaves
    behind, and the reads.  A statement that raises is the argument [db]; the functions
    that document themselves as best-effort catch it. *)

From S2P Require Import Prelude Json PyText Refs Schema NodeQueue Claim Reclaim Watchdogs WorkerLanes Catalog LlmContext.
Local Open Scope Z_scope.

(** ** The table *)

Abbreviation cat_key := (string * string * string)%type.

(** [llm_model_catalog], primary key (host_label, server_type, model_id) *)
Record catalog_row := mkCat {
  k_host : string;
  k_server : string;
  k_model : string;
  k_enabled : bool;
  k_observed_at : Z;
  k_digest : string;
  k_profile : option json;
}.
Definition row_key (r : catalog_row) : cat_key := (k_host r, k_server r, k_model r).
Definition entry_key (e : CatalogEntry) : cat_key := (c_host e, c_server e, c_model e).
Definition keyed (k : cat_key) (r : catalog_row) : bool := bool_decide (row_key r = k).

Definition set_observed (now : Z) (digest : string) (r : catalog_row) : catalog_row :=
  mkCat (k_host r) (k_server r) (k_model r) true now digest (k_profile r).
Definition set_disabled (r : catalog_row) : catalog_row :=
  mkCat (k_host r) (k_server r) (k_model r) false (k_observed_at r) (k_digest r) (k_profile r).
Definition set_profile (p : json) (r : catalog_row) : catalog_row :=
  mkCat (k_host r) (k_server r) (k_model r) (k_enabled r) (k_observed_at r) (k_digest r) (Some p).

(** ** Publishing an observation *)

(** INSERT .. ON CONFLICT DO UPDATE *)
Definition upsert_entry (now : Z) (rows : list catalog_row) (e : CatalogEntry) : list catalog_row :=
  if exists_row (keyed (entry_key e)) rows
  then update_where (keyed (entry_key e)) (set_observed now (c_digest e)) rows
  else rows ++ [mkCat (c_host e) (c_server e) (c_model e) true now (c_digest e) None].

(** [covered]: what the observation says of each pair of a box and a server it speaks of *)
Abbreviation coverage := (list (string * string * list string)).
Definition covered_add (cov : coverage) (e : CatalogEntry) : coverage :=
  let pair := (c_host e, c_server e) in
  if existsb (λ c, bool_decide (c.1 = pair)) cov
  then map (λ c, if bool_decide (c.1 = pair) then (c.1, c.2 ++ [c_model e]) else c) cov
  else cov ++ [(pair, [c_model e])].
Definition covered_of (es : list CatalogEntry) : coverage := foldl covered_add [] es.

(** UPDATE .. SET enabled = FALSE WHERE .. AND enabled AND model_id NOT IN (..) *)
Definition vanished (c : string * string * list string) (r : catalog_row) : bool :=
  String.eqb (k_host r) c.1.1 && String.eqb (k_server r) c.1.2 && k_enabled r &&
  negb (bool_decide (k_model r ∈ c.2)).
Definition retire (rows : list catalog_row) (c : string * string * list string) : list catalog_row :=
  update_where (vanished c) set_disabled rows.

Definition upsert_model_catalog (now : Z) (db : result ()) (entries : list CatalogEntry) (rows : list catalog_row)
    : result Z * list catalog_row :=
  match entries with
  | [] => (Ok 0, rows)
  | _ =>
      match db with
      | Raise x => (Raise x, rows)
      | Ok _ => (Ok (Z.of_nat (length entries)),
                 foldl retire (foldl (upsert_entry now) rows entries) (covered_of entries))
      end
  end.

(** ** The profile of a start *)

(** [json.dumps(.., sort_keys=True)] as the column holds it *)
Definition payload (profile : dict) : json := JObj (sort_by (λ kv, PyStr.key kv.1) profile).
Definition record_llm_profile (now : Z) (db : result ()) (k : cat_key) (profile : dict) (rows : list catalog_row)
    : list catalog_row :=
  match db with
  | Raise _ => rows
  | Ok _ =>
      if exists_row (keyed k) rows then update_where (keyed k) (set_profile (payload profile)) rows
      else rows ++ [mkCat k.1.1 k.1.2 k.2 true now "" (Some (payload profile))]
  end.
Definition find_row (k : cat_key) (rows : list catalog_row) : option catalog_row := List.find (keyed k) rows.
Definition llm_profile (db : result ()) (k : cat_key) (rows : list catalog_row) : option dict :=
  match db with
  | Raise _ => None
  | Ok _ => match find_row k rows ≫= k_profile with
            | Some (JObj d) => Some d
            | _ => None
            end
  end.

(** [_vllm_remembered_profile] of the claim worker: only a profile of the same command
    line counts *)
Definition text_or_blank (v : option string) : string := default "" v.
Definition _vllm_remembered_profile `{PyEnv} (db : result ()) (host : string) (served_name fingerprint : option string)
    (rows : list catalog_row) : option VllmProfile :=
  match or_none served_name with
  | None => None
  | Some name =>
      match llm_profile db (host, "vllm", name) rows with
      | Some ((_ :: _) as record) =>
          let recorded := match dict_get "fingerprint" record with
                          | Some v => if truthy v then py_str v else ""
                          | None => ""
                          end in
          if String.eqb recorded (text_or_blank fingerprint) then from_record (JObj record) else None
      | _ => None
      end
  end.

(** ** The read *)

Definition fetch_model_catalog (now : Z) (db : result ()) (stale_after : option Z) (rows : list catalog_row)
    : list CatalogEntry :=
  match db with
  | Raise _ => []
  | Ok _ =>
      map (λ r, mkEntry (k_host r) (k_server r) (k_model r) true (k_digest r))
        (List.filter (λ r, k_enabled r &&
           match stale_after with Some s => now - s <=? k_observed_at r | None => true end) rows)
  end.

(** ** Lemmas *)

Section table_lemmas.
Implicit Types (rows : list catalog_row) (k : cat_key) (es : list CatalogEntry).

Definition unique_keys rows : Prop := NoDup (map row_key rows).

Lemma find_row_key k rows r : find_row k rows = Some r → r ∈ rows ∧ row_key r = k.
Proof.
  intros [Hi Hk]%List.find_some. apply bool_decide_eq_true in Hk. split; [by apply list_elem_of_In|done].
Qed.
Lemma find_row_elem rows r : unique_keys rows → r ∈ rows → find_row (row_key r) rows = Some r.
Proof.
  intros Hu Hr. destruct (find_row (row_key r) rows) as [r'|] eqn:E.
  - apply find_row_key in E as [Hr' Hk]. f_equal. by apply (key_unique row_key rows).
  - apply (List.find_none _ _) with (x := r) in E; [|by apply list_elem_of_In].
    unfold keyed in E. by rewrite bool_decide_true in E.
Qed.

(** An update that keeps the keys is seen through the lookup *)
Lemma find_row_update p f k rows :
  (∀ r, row_key (f r) = row_key r) →
  find_row k (update_where p f rows) = (λ r, if p r then f r else r) <$> find_row k rows.
Proof.
  intros Hf. induction rows as [|r rows IH]; [done|]. simpl.
  assert (row_key (if p r then f r else r) = row_key r) as Hk by by destruct (p r).
  unfold find_row, keyed in *. simpl. rewrite Hk. destruct (bool_decide (row_key r = k)); [done|exact IH].
Qed.
Lemma find_row_app k rows r :
  find_row k (rows ++ [r]) = match find_row k rows with
                             | Some x => Some x
                             | None => if keyed k r then Some r else None
                             end.
Proof. unfold find_row. induction rows as [|x rows IH]; [done|]. simpl. by destruct (keyed k x). Qed.
Lemma exists_find k rows : exists_row (keyed k) rows = bool_decide (is_Some (find_row k rows)).
Proof.
  unfold find_row. induction rows as [|r rows IH]; [done|]. simpl. destruct (keyed k r); [|exact IH].
  by rewrite bool_decide_true by eauto.
Qed.
Lemma keys_update p f rows : (∀ r, row_key (f r) = row_key r) → unique_keys rows → unique_keys (update_where p f rows).
Proof. intros Hf. unfold unique_keys. by rewrite (update_where_map row_key). Qed.
Lemma keys_append r rows : find_row (row_key r) rows = None → unique_keys rows → unique_keys (rows ++ [r]).
Proof.
  intros Hn Hu. unfold unique_keys. rewrite map_app. apply NoDup_app. split_and!; [done| |apply NoDup_singleton].
  intros k (x & -> & Hx)%list_elem_of_fmap Hk. apply list_elem_of_singleton in Hk.
  by rewrite <- Hk, (find_row_elem rows x) in Hn.
Qed.

(** One entry *)
Lemma find_upsert now e k rows :
  find_row k (upsert_entry now rows e) =
  if bool_decide (k = entry_key e)
  then Some (mkCat (c_host e) (c_server e) (c_model e) true now (c_digest e) (find_row k rows ≫= k_profile))
  else find_row k rows.
Proof.
  unfold upsert_entry. rewrite exists_find. case_bool_decide as Hs.
  - rewrite find_row_update by done. destruct (find_row k rows) as [r|] eqn:E.
    + apply find_row_key in E as [_ Hk]. simpl. unfold keyed. rewrite Hk. case_bool_decide as He; [|done].
      rewrite He in Hk. unfold row_key, entry_key in Hk. injection Hk as H1 H2 H3. unfold set_observed. by rewrite H1, H2, H3.
    + case_bool_decide as He; [subst k; rewrite E in Hs; by destruct Hs|done].
  - rewrite find_row_app. unfold keyed. simpl. destruct (find_row k rows) as [r|] eqn:E.
    + rewrite bool_decide_false; [done|]. intros ->. rewrite E in Hs. destruct Hs. eauto.
    + rewrite (bool_decide_ext (row_key _ = k) (k = entry_key e)); [done|]. unfold row_key, entry_key. simpl.
      split; congruence.
Qed.
Lemma keys_upsert now e rows : unique_keys rows → unique_keys (upsert_entry now rows e).
Proof.
  intros Hu. unfold upsert_entry. rewrite exists_find. case_bool_decide as Hs; [by apply keys_update|].
  apply keys_append; [|done]. by apply eq_None_not_Some.
Qed.

(** A whole observation: what it speaks of is enabled and fresh, the profile stays *)
Definition observed_row (now : Z) (prof : option json) (r : catalog_row) : Prop :=
  k_enabled r = true ∧ k_observed_at r = now ∧ k_profile r = prof.
Lemma find_upserts now es : ∀ rows k,
  (k ∉ map entry_key es → find_row k (foldl (upsert_entry now) rows es) = find_row k rows) ∧
  (k ∈ map entry_key es → ∃ r, find_row k (foldl (upsert_entry now) rows es) = Some r ∧
     observed_row now (find_row k rows ≫= k_profile) r ∧ k_digest r ∈ map c_digest (List.filter (λ e, bool_decide (entry_key e = k)) es)).
Proof.
  induction es as [|e es IH]; intros rows k; [split; [done|intros []%not_elem_of_nil]|]. simpl.
  destruct (IH (upsert_entry now rows e) k) as [IHo IHi]. split.
  - intros [Hne Hn]%not_elem_of_cons. rewrite (IHo Hn), find_upsert. by rewrite bool_decide_false.
  - intros Hin. destruct (base.decide (k ∈ map entry_key es)) as [Hk|Hk].
    + destruct (IHi Hk) as (r & Er & (H1 & H2 & H3) & Hd). exists r. split_and!; [done|split_and!; [done..|]|].
      * rewrite H3, find_upsert. by case_bool_decide.
      * case_bool_decide; [by right|done].
    + apply elem_of_cons in Hin as [-> |]; [|done].
      rewrite (IHo Hk), find_upsert, (bool_decide_true (entry_key e = entry_key e)) by done.
      eexists. split_and!; [done|done|]. simpl. left.
Qed.
Lemma keys_upserts now es : ∀ rows, unique_keys rows → unique_keys (foldl (upsert_entry now) rows es).
Proof. induction es as [|e es IH]; [done|]. intros rows Hu. apply IH. by apply keys_upsert. Qed.
End table_lemmas.

Section observation_lemmas.
Implicit Types (rows : list catalog_row) (k : cat_key) (es : list CatalogEntry) (c : string * string * list string).

Definition entry_pair (e : CatalogEntry) : string * string := (c_host e, c_server e).

(** What is covered, in terms of the entries *)
Lemma covered_spec es : ∀ pair,
  (pair ∈ map fst (covered_of es) ↔ pair ∈ map entry_pair es) ∧
  (∀ c, c ∈ covered_of es → c.1 = pair → ∀ m, m ∈ c.2 ↔ (pair, m) ∈ map entry_key es).
Proof.
  induction es as [|e es IH] using rev_ind; intros pair; [split; [done|intros c []%not_elem_of_nil]|].
  unfold covered_of in *. rewrite foldl_app. simpl. set (cov := foldl covered_add [] es) in *.
  unfold covered_add. fold (entry_pair e). destruct (IH (entry_pair e)) as [Hp Hm].
  assert (existsb (λ c, bool_decide (c.1 = entry_pair e)) cov = bool_decide (entry_pair e ∈ map fst cov)) as ->.
  { apply eq_bool_prop_intro. rewrite bool_decide_spec, Is_true_true, existsb_exists, list_elem_of_fmap.
    setoid_rewrite bool_decide_eq_true. setoid_rewrite <- list_elem_of_In. naive_solver. }
  rewrite !map_app. simpl. setoid_rewrite elem_of_app. setoid_rewrite list_elem_of_singleton.
  destruct (IH pair) as [Hp' Hm']. case_bool_decide as Hc.
  - assert (map fst (map (λ c, if bool_decide (c.1 = entry_pair e) then (c.1, c.2 ++ [c_model e]) else c) cov)
      = map fst cov) as ->.
    { rewrite map_map. apply map_ext. intros c. by case_bool_decide. }
    split; [rewrite Hp'; split; [by left|]; intros [?| ->]; [done|by apply Hp]|].
    intros c (c0 & -> & H0)%list_elem_of_fmap. case_bool_decide as He; simpl.
    + intros <- m. rewrite elem_of_app, list_elem_of_singleton, (Hm' c0) by (done || congruence).
      unfold entry_key, entry_pair in *. rewrite He. naive_solver.
    + intros <- m. rewrite (Hm' c0) by done. unfold entry_key, entry_pair in *. naive_solver.
  - split.
    + rewrite map_app, elem_of_app. simpl. rewrite list_elem_of_singleton, Hp'. done.
    + intros c [H0| ->%list_elem_of_singleton]%elem_of_app.
      * intros <- m. rewrite (Hm' c) by done. split; [by left|]. intros [?|Heq]; [done|].
        exfalso. apply Hc. unfold entry_key in Heq. injection Heq as E _. apply list_elem_of_fmap. exists c. by rewrite E.
      * simpl. intros <- m. rewrite list_elem_of_singleton. unfold entry_key, entry_pair in *.
        split; [intros ->; by right|]. intros [Hin|Heq]; [|by injection Heq].
        exfalso. apply Hc, Hp. apply list_elem_of_fmap in Hin as (e' & Heq & He'). apply list_elem_of_fmap.
        exists e'. unfold entry_key in Heq. by injection Heq as -> -> _.
Qed.

Lemma find_retire cov : ∀ rows k,
  find_row k (foldl retire rows cov) =
  (λ r, if existsb (λ c, vanished c r) cov then set_disabled r else r) <$> find_row k rows.
Proof.
  induction cov as [|c cov IH]; intros rows k; simpl; [by destruct (find_row k rows)|].
  rewrite IH. unfold retire. rewrite find_row_update by done. destruct (find_row k rows) as [r|]; [|done].
  simpl. f_equal. destruct (vanished c r); [|done]. simpl.
  assert (existsb (λ c, vanished c (set_disabled r)) cov = false) as ->; [|done].
  apply not_true_iff_false. intros (c' & _ & Hv)%existsb_exists. unfold vanished in Hv. simpl in Hv.
  by rewrite andb_false_r in Hv.
Qed.
Lemma keys_retire cov : ∀ rows, unique_keys rows → unique_keys (foldl retire rows cov).
Proof. induction cov as [|c cov IH]; [done|]. intros rows Hu. apply IH. by apply keys_update. Qed.

(** A row of the table vanishes exactly when its pair is covered and its model is not. *)
Lemma vanished_spec es r :
  existsb (λ c, vanished c r) (covered_of es) =
  k_enabled r && bool_decide ((k_host r, k_server r) ∈ map entry_pair es) && negb (bool_decide (row_key r ∈ map entry_key es)).
Proof.
  apply eq_bool_prop_intro. rewrite !andb_True, negb_True, !bool_decide_spec, Is_true_true, existsb_exists.
  setoid_rewrite <- list_elem_of_In. unfold vanished.
  setoid_rewrite andb_true_iff. setoid_rewrite andb_true_iff. setoid_rewrite andb_true_iff.
  setoid_rewrite String.eqb_eq. setoid_rewrite negb_true_iff. setoid_rewrite bool_decide_eq_false.
  destruct (covered_spec es (k_host r, k_server r)) as [Hp Hm]. split.
  - intros (c & Hc & ((H1 & H2) & H3) & H4). assert (c.1 = (k_host r, k_server r)) as E by (destruct c.1; simpl in *; congruence).
    split_and!; [by rewrite H3| |].
    + apply Hp, list_elem_of_fmap. eauto.
    + unfold row_key. by rewrite <- (Hm c Hc E).
  - intros ((He & Hin) & Hn). apply Hp, list_elem_of_fmap in Hin as (c & E & Hc). exists c.
    rewrite <- E. split_and!; [done..|by apply Is_true_true|]. rewrite (Hm c Hc (eq_sym E)). done.
Qed.
End observation_lemmas.

Lemma set_disabled_off r : k_enabled r = false → set_disabled r = r.
Proof. by destruct r; intros [= ->]. Qed.

Lemma fetched now rows h s m :
  unique_keys rows →
  can_serve (fetch_model_catalog now (Ok ()) None rows) h s m =
  match find_row (h, s, m) rows with Some r => k_enabled r | None => false end.
Proof.
  intros Hu. apply eq_bool_prop_intro. unfold can_serve, fetch_model_catalog.
  rewrite Is_true_true, existsb_exists. split.
  - intros (x & Hx & Hon). apply list_elem_of_In, list_elem_of_fmap in Hx as (r & -> & [Hr He]%elem_of_Lfilter).
    rewrite andb_true_r in He. unfold on_host in Hon. simpl in Hon.
    apply andb_true_iff in Hon as [[<-%String.eqb_eq <-%String.eqb_eq]%andb_true_iff <-%String.eqb_eq].
    fold (row_key r). rewrite (find_row_elem rows r) by done. by rewrite He.
  - destruct (find_row (h, s, m) rows) as [r|] eqn:E; [|done]. intros He. apply find_row_key in E as [Hr Hk].
    unfold row_key in Hk. injection Hk as <- <- <-. eexists. split.
    + apply list_elem_of_In, list_elem_of_fmap. exists r. split; [done|]. apply elem_of_Lfilter.
      split; [done|]. by rewrite (Is_true_true_1 _ He).
    + unfold on_host. simpl. by rewrite !String.eqb_refl.
Qed.

(** C39: The catalog says of a box's server exactly what its last observation said.  After an
    observation is published the keys are still unique; every model it names has an enabled
    row of this instant, with a digest the observation gave and the profile it had; a model
    of a server it speaks of and does not name is disabled and otherwise as it was; every
    row of a server it does not speak of is untouched; and a reader of the catalog matches
    the observed models of that server, and no others. *)
Theorem catalog_follows_the_observation now es rows (Hne : es ≠ []) (Hu : unique_keys rows) :
  let rows' := (upsert_model_catalog now (Ok ()) es rows).2 in
  unique_keys rows' ∧
  (∀ k, k ∈ map entry_key es → ∃ r, find_row k rows' = Some r ∧ observed_row now (find_row k rows ≫= k_profile) r ∧
     k_digest r ∈ map c_digest (List.filter (λ e, bool_decide (entry_key e = k)) es)) ∧
  (∀ h s m, (h, s) ∈ map entry_pair es → (h, s, m) ∉ map entry_key es →
     find_row (h, s, m) rows' = set_disabled <$> find_row (h, s, m) rows) ∧
  (∀ h s m, (h, s) ∉ map entry_pair es → find_row (h, s, m) rows' = find_row (h, s, m) rows) ∧
  (∀ h s m, (h, s) ∈ map entry_pair es →
     can_serve (fetch_model_catalog now (Ok ()) None rows') h s m = bool_decide ((h, s, m) ∈ map entry_key es)).
Proof.
  assert (∀ h s m, (h, s, m) ∈ map entry_key es → (h, s) ∈ map entry_pair es) as Hpair.
  { intros h s m (e & Heq & He)%list_elem_of_fmap. apply list_elem_of_fmap. exists e.
    unfold entry_key in Heq. by injection Heq as -> -> ->. }
  destruct es as [|e0 es']; [done|]. set (es := e0 :: es') in *.
  assert ((upsert_model_catalog now (Ok ()) es rows).2 =
    foldl retire (foldl (upsert_entry now) rows es) (covered_of es)) as -> by done.
  cbv zeta. set (rows1 := foldl (upsert_entry now) rows es).
  assert (unique_keys (foldl retire rows1 (covered_of es))) as Hu' by by apply keys_retire, keys_upserts.
  assert (∀ k, k ∈ map entry_key es → ∃ r, find_row k (foldl retire rows1 (covered_of es)) = Some r ∧
    observed_row now (find_row k rows ≫= k_profile) r ∧
    k_digest r ∈ map c_digest (List.filter (λ e, bool_decide (entry_key e = k)) es)) as Hnamed.
  { intros k Hk. destruct (proj2 (find_upserts now es rows k) Hk) as (r & Er & Ho & Hd). exists r.
    split_and!; [|done..]. rewrite find_retire. fold rows1 in Er. rewrite Er. simpl.
    apply find_row_key in Er as [_ Ek]. rewrite vanished_spec, Ek, (bool_decide_true (k ∈ _)) by done.
    by rewrite andb_false_r. }
  assert (∀ h s m, (h, s) ∈ map entry_pair es → (h, s, m) ∉ map entry_key es →
     find_row (h, s, m) (foldl retire rows1 (covered_of es)) = set_disabled <$> find_row (h, s, m) rows) as Hgone.
  { intros h s m Hp Hk. rewrite find_retire. unfold rows1. rewrite (proj1 (find_upserts now es rows _) Hk).
    destruct (find_row (h, s, m) rows) as [r|] eqn:Er; [|done]. simpl. f_equal.
    apply find_row_key in Er as [_ Ek]. rewrite vanished_spec, Ek. unfold row_key in Ek. injection Ek as -> -> _.
    rewrite bool_decide_true, bool_decide_false by done. rewrite !andb_true_r.
    destruct (k_enabled r) eqn:E; [done|]. by rewrite set_disabled_off. }
  split_and!; [done|exact Hnamed|exact Hgone| |].
  - intros h s m Hp. rewrite find_retire. unfold rows1.
    rewrite (proj1 (find_upserts now es rows _)) by eauto.
    destruct (find_row (h, s, m) rows) as [r|] eqn:Er; [|done]. simpl. f_equal.
    apply find_row_key in Er as [_ Ek]. rewrite vanished_spec. unfold row_key in Ek. injection Ek as -> -> _.
    rewrite (bool_decide_false ((h, s) ∈ _)) by done. by rewrite andb_false_r.
  - intros h s m Hp. rewrite fetched by done. case_bool_decide as Hk.
    + destruct (Hnamed _ Hk) as (r & -> & (He & _) & _). exact He.
    + rewrite (Hgone h s m Hp Hk). by destruct (find_row (h, s, m) rows).
Qed.

(** ** What a start is remembered by *)

(** What the workers of the fleet do to the table *)
Inductive cat_op :=
  | Publish (now : Z) (db : result ()) (es : list CatalogEntry)
  | RecordProfile (now : Z) (db : result ()) (k : cat_key) (profile : dict).
Definition cat_step (rows : list catalog_row) (op : cat_op) : list catalog_row :=
  match op with
  | Publish now db es => (upsert_model_catalog now db es rows).2
  | RecordProfile now db k profile => record_llm_profile now db k profile rows
  end.
(** A step that does not write the profile of a key *)
Definition spares (k : cat_key) (op : cat_op) : bool :=
  match op with Publish _ _ _ => true | RecordProfile _ _ k' _ => negb (bool_decide (k' = k)) end.

Definition profile_at (k : cat_key) (rows : list catalog_row) : option json := find_row k rows ≫= k_profile.

Lemma profile_publish now db es rows k : profile_at k (upsert_model_catalog now db es rows).2 = profile_at k rows.
Proof.
  destruct es as [|e0 es']; [done|]. destruct db as [u|]; [|done]. set (es := e0 :: es').
  change (profile_at k (foldl retire (foldl (upsert_entry now) rows es) (covered_of es)) = profile_at k rows).
  unfold profile_at. rewrite find_retire. destruct (find_upserts now es rows k) as [Ho Hi].
  destruct (base.decide (k ∈ map entry_key es)) as [Hk|Hk].
  - destruct (Hi Hk) as (r & -> & (_ & _ & <-) & _). simpl. by destruct (existsb _ _).
  - rewrite (Ho Hk). destruct (find_row k rows) as [r|]; [|done]. simpl. by destruct (existsb _ _).
Qed.
Lemma profile_record now db k' profile rows k :
  profile_at k (record_llm_profile now db k' profile rows) =
  match db with
  | Ok _ => if bool_decide (k' = k) then Some (payload profile) else profile_at k rows
  | Raise _ => profile_at k rows
  end.
Proof.
  destruct db as [u|]; [|done]. unfold record_llm_profile, profile_at. rewrite exists_find. case_bool_decide as Hs.
  - rewrite find_row_update by done. destruct (find_row k rows) as [r|] eqn:E; simpl.
    + apply find_row_key in E as [_ Ek]. unfold keyed. rewrite Ek.
      rewrite (bool_decide_ext (k = k') (k' = k)) by (split; congruence). by case_bool_decide.
    + rewrite bool_decide_false; [done|]. intros ->. rewrite E in Hs. by destruct Hs.
  - rewrite find_row_app. unfold keyed, row_key. simpl. rewrite <- !surjective_pairing.
    destruct (find_row k rows) as [r|] eqn:E.
    + rewrite bool_decide_false; [done|]. intros ->. rewrite E in Hs. destruct Hs. eauto.
    + by case_bool_decide.
Qed.
Lemma profile_spared k ops : ∀ rows,
  forallb (spares k) ops = true → profile_at k (foldl cat_step rows ops) = profile_at k rows.
Proof.
  induction ops as [|op ops IH]; [done|]. intros rows [Ho Hr]%andb_true_iff. simpl. rewrite (IH _ Hr).
  destruct op as [now db es|now db k' prof]; simpl in *; [apply profile_publish|].
  rewrite profile_record. case_bool_decide; [done|]. by destruct db.
Qed.

(** A start is remembered by what it cost.  The profile recorded for a model of a box's
    vLLM is read back, whatever the fleet publishes or records for other models in
    between, and counts for a container exactly when its command line has the fingerprint
    the profile was taken under. *)
Lemma profile_is_remembered `{PyEnv} now host name p fp ops rows (Hname : PyStr.truthy name = true)
    (Hops : forallb (spares (host, "vllm", name)) ops = true) :
  let rows' := foldl cat_step (record_llm_profile now (Ok ()) (host, "vllm", name) (as_record p fp) rows) ops in
  ∀ fp', _vllm_remembered_profile (Ok ()) host (Some name) fp' rows' =
         if String.eqb (default "" fp) (default "" fp') then Some p else None.
Proof.
  cbv zeta. intros fp'. unfold _vllm_remembered_profile, or_none. rewrite Hname. unfold llm_profile.
  fold (profile_at (host, "vllm", name)). change (find_row ?k ?r ≫= k_profile) with (profile_at k r).
  rewrite (profile_spared _ _ _ Hops), profile_record, bool_decide_true by done.
  destruct p as [w kv t win u tot]. unfold payload, as_record. simpl.
  assert ((if PyStr.truthy (default "" fp) then default "" fp else "") = default "" fp) as ->
    by by destruct (default "" fp).
  done.
Qed.

Module CatalogDemo.
#[export] Instance py : PyEnv := {|
  py_getattr _ _ := None; py_str_other _ := ""; py_repr _ := ""; re_search _ _ := Ok false |}.
Definition seen (kind : string) (m d : string) : CatalogEntry := mkEntry "box-a-gpu" kind m true d.
Definition start : list catalog_row :=
  [mkCat "box-a-gpu" "ollama" "chat-a" true 10 "d1" None; mkCat "box-a-gpu" "ollama" "chat-b" true 10 "d2" None;
   mkCat "box-a-gpu" "vllm" "chat-a" true 10 "" (Some (JObj []))].
Definition profile : VllmProfile := mkProfile 16 8 4096 8192 (3 # 4) 128.
End CatalogDemo.
Import CatalogDemo.

Lemma catalog_follows_the_observation_witness :
  let rows' := (upsert_model_catalog 50 (Ok ()) [CatalogDemo.seen "ollama" "chat-a" "d9"] CatalogDemo.start).2 in
  k_digest <$> find_row ("box-a-gpu", "ollama", "chat-a") rows' = Some "d9" ∧
  can_serve (fetch_model_catalog 50 (Ok ()) None rows') "box-a-gpu" "ollama" "chat-b" = false ∧
  find_row ("box-a-gpu", "vllm", "chat-a") rows' = find_row ("box-a-gpu", "vllm", "chat-a") CatalogDemo.start.
Proof.
  destruct (catalog_follows_the_observation 50 [CatalogDemo.seen "ollama" "chat-a" "d9"] CatalogDemo.start)
    as (_ & _ & _ & Hother & Hread); [done|by apply (bool_decide_unpack _); vm_compute|].
  split_and!; [by vm_compute| |].
  - rewrite (Hread "box-a-gpu" "ollama" "chat-b"); [by vm_compute|]. by apply (bool_decide_unpack _); vm_compute.
  - apply Hother. by apply (bool_decide_unpack _); vm_compute.
Defined.

Lemma profile_is_remembered_witness :
  let rows' := foldl cat_step
    (record_llm_profile 20 (Ok ()) ("box-a-gpu", "vllm", "chat-a") (as_record CatalogDemo.profile (Some "f1")) CatalogDemo.start)
    [Publish 30 (Ok ()) [CatalogDemo.seen "vllm" "chat-a" ""]] in
  _vllm_remembered_profile (Ok ()) "box-a-gpu" (Some "chat-a") (Some "f1") rows' = Some CatalogDemo.profile ∧
  _vllm_remembered_profile (Ok ()) "box-a-gpu" (Some "chat-a") (Some "f2") rows' = None.
Proof.
  split; (etransitivity; [apply (profile_is_remembered 20 "box-a-gpu" "chat-a" CatalogDemo.profile (Some "f1"));
                          by vm_compute|by vm_compute]).
Defined.
