(* ===== verification/ServerContext.v ===== *)
(** * The configured window of a server ([queue_workflows/llm_backends/server_context.py])

    Which window, memory pool and concurrency a server's container is configured for, and
    the change that moves them: the command line and the environment edited in place, the
    operator's own values remembered in labels, the network identity carried over, the
    body of the create call.  A container is what docker's inspect reports of it. *)

From Stdlib Require Import Qabs.
From S2P Require Import Prelude Json PyText.
Local Open Scope string_scope.
Local Open Scope list_scope.
Local Open Scope Z_scope.

Definition OLLAMA : string := "ollama".
Definition VLLM : string := "vllm".
Definition CONTEXT_ENV : string := "OLLAMA_CONTEXT_LENGTH".
Definition CONTEXT_FLAG : string := "--max-model-len".
Definition DEFAULT_LABEL : string := "queue_workflows.llm_context.default".
Definition UTILIZATION_FLAG : string := "--gpu-memory-utilization".
Definition UTILIZATION_LABEL : string := "queue_workflows.llm_context.utilization".
Definition MAX_SEQS_FLAG : string := "--max-num-seqs".
Definition MAX_SEQS_LABEL : string := "queue_workflows.llm_context.max_num_seqs".
Definition _ENGINE_FLAGS : list string := [CONTEXT_FLAG; UTILIZATION_FLAG; MAX_SEQS_FLAG].
Definition _ENDPOINT_KEYS : list string := ["IPAMConfig"; "Links"; "Aliases"; "DriverOpts"; "MacAddress"].
Definition _EXCLUSIVE_MODES : list string := ["host"; "none"].

(** Docker's inspect of a container, as far as the sources read it: a null list or map is
    the empty one *)
Record container := mkContainer {
  c_Id : string;
  c_Image : json;
  c_Cmd : list string;
  c_Env : list string;
  c_Labels : list (string * string);
  c_ExposedPorts : dict;
  c_Entrypoint : json;
  c_WorkingDir : string;
  c_HostConfig : dict;
  c_Networks : list (string * dict);
  c_Running : bool;
  c_StartedAt : string;
}.

Definition _int_or_none (value : string) : option Z :=
  match PyStr.int value with Some n => if 0 <? n then Some n else None | None => None end.

(** ** Reading the container *)

Definition env_name (item : string) : string := (PyStr.split1 "=" item).1.

Fixpoint env_context (env : list string) : option Z :=
  match env with
  | [] => None
  | item :: r =>
      match PyStr.split1 "=" item with
      | (name, Some value) => if String.eqb name CONTEXT_ENV then _int_or_none value else env_context r
      | _ => env_context r
      end
  end.

(** What follows [flag=] on a token *)
Definition after_equals (tok : string) : string := default "" (PyStr.split1 "=" tok).2.
Definition joined (flag tok : string) : bool := PyStr.startswith (flag +:+ "=") tok.

Fixpoint argv_context (argv : list string) : option Z :=
  match argv with
  | [] => None
  | tok :: r =>
      match String.eqb tok CONTEXT_FLAG, r with
      | true, v :: _ => _int_or_none v
      | _, _ => if joined CONTEXT_FLAG tok then _int_or_none (after_equals tok) else argv_context r
      end
  end.

Definition configured_context (c : container) (kind : string) : option Z :=
  if String.eqb kind VLLM then argv_context (c_Cmd c) else env_context (c_Env c).

Definition recorded_default (c : container) : option string := dict_get DEFAULT_LABEL (c_Labels c).

(** ** Writing the container *)

Definition env_with_context (env : list string) (value : option string) : list string :=
  List.filter (λ e, negb (String.eqb (env_name e) CONTEXT_ENV)) env ++
  match value with Some v => [CONTEXT_ENV +:+ "=" +:+ v] | None => [] end.

Fixpoint _argv_flag (argv : list string) (flag : string) : option string :=
  match argv with
  | [] => None
  | tok :: r =>
      match String.eqb tok flag, r with
      | true, v :: _ => Some v
      | _, _ => if joined flag tok then Some (after_equals tok) else _argv_flag r flag
      end
  end.

(** The loop of [_argv_with_flag]: the tokens written, and whether the flag was among them *)
Fixpoint edit_flag (flag : string) (value : option string) (argv : list string) : list string * bool :=
  match argv with
  | [] => ([], false)
  | tok :: r =>
      let keep := let '(out, rep) := edit_flag flag value r in (tok :: out, rep) in
      match String.eqb tok flag, r with
      | true, _ :: r' =>
          let '(out, rep) := edit_flag flag value r' in
          match value with Some v => (flag :: v :: out, true) | None => (out, rep) end
      | _, _ =>
          if joined flag tok then
            let '(out, rep) := edit_flag flag value r in
            match value with Some v => ((flag +:+ "=" +:+ v) :: out, true) | None => (out, rep) end
          else keep
      end
  end.
Definition _argv_with_flag (argv : list string) (flag : string) (value : option string) : list string :=
  let '(out, replaced) := edit_flag flag value argv in
  match value with
  | Some v => if replaced then out else out ++ [flag; v]
  | None => out
  end.

(** A float of the command line or of a label: None in place of a rational is an infinity
    or nan *)
Definition argv_utilization (argv : list string) : option Q :=
  match _argv_flag argv UTILIZATION_FLAG with
  | Some raw => match Txt.py_float raw with
                | Some (Some v) => if negb (Qle_bool v 0) && Qle_bool v 1 then Some v else None
                | _ => None
                end
  | None => None
  end.
Definition argv_with_utilization (argv : list string) (value : option string) : list string :=
  _argv_with_flag argv UTILIZATION_FLAG value.

Definition operator_utilization (c : container) : option (option Q) :=
  let from_argv := Some <$> argv_utilization (c_Cmd c) in
  match dict_get UTILIZATION_LABEL (c_Labels c) with
  | Some raw => if PyStr.truthy raw
                then match Txt.py_float raw with Some f => Some f | None => from_argv end
                else from_argv
  | None => from_argv
  end.

Definition argv_max_seqs (argv : list string) : option Z :=
  match _argv_flag argv MAX_SEQS_FLAG with Some raw => _int_or_none raw | None => None end.
Definition argv_with_max_seqs (argv : list string) (value : option string) : list string :=
  _argv_with_flag argv MAX_SEQS_FLAG value.

Definition operator_max_seqs (c : container) : option Z :=
  match dict_get MAX_SEQS_LABEL (c_Labels c) ≫= _int_or_none with
  | Some n => Some n
  | None => argv_max_seqs (c_Cmd c)
  end.

(** [a or b] of two optional strings *)
Definition argv_served_name (argv : list string) : option string :=
  match _argv_flag argv "--served-model-name" with
  | Some s => if PyStr.truthy s then Some s else _argv_flag argv "--model"
  | None => _argv_flag argv "--model"
  end.

(** The tokens of a profile's identity: the command line without the engine's flags *)
Fixpoint kept_tokens (argv : list string) : list string :=
  match argv with
  | [] => []
  | item :: r =>
      if bool_decide (item ∈ _ENGINE_FLAGS) then match r with [] => [] | _ :: r' => kept_tokens r' end
      else if existsb (λ flag, joined flag item) _ENGINE_FLAGS then kept_tokens r
      else item :: kept_tokens r
  end.
(** [sha1] is hashlib's, in hexadecimal *)
Definition argv_fingerprint (sha1 : string → string) (argv : list string) : string :=
  PyStr.take 16 (sha1 (Txt.join " " (kept_tokens argv))).

Definition argv_with_context (argv : list string) (value : option string) : list string :=
  _argv_with_flag argv CONTEXT_FLAG value.

(** ** The network identity *)

Definition keep_alias (dropped : list string) (a : json) : bool :=
  match a with JStr s => negb (bool_decide (s ∈ dropped)) | _ => true end.

(** One key of an inspected endpoint, when it says anything *)
Definition endpoint_value (config : dict) (dropped : list string) (key : string) : option json :=
  match dict_get key config with
  | Some v =>
      let v := match String.eqb key "Aliases", v with
               | true, JArr l => JArr (List.filter (keep_alias dropped) l)
               | _, _ => v
               end in
      if truthy v then Some v else None
  | None => None
  end.
Definition _endpoint (config : dict) (drop : list string) : dict :=
  let dropped := List.filter PyStr.truthy drop in
  omap (λ key, pair key <$> endpoint_value config dropped key) _ENDPOINT_KEYS.

Definition network_mode (c : container) : string :=
  match dict_get "NetworkMode" (c_HostConfig c) with Some (JStr s) => s | _ => "" end.
Definition shares_namespace (mode : string) : bool :=
  bool_decide (mode ∈ _EXCLUSIVE_MODES) || PyStr.startswith "container:" mode.

Definition networking (c : container) : option (string * dict) * list (string * dict) :=
  let mode := network_mode c in
  if shares_namespace mode then (None, [])
  else match c_Networks c with
       | [] => (None, [])
       | (n0, _) :: _ =>
           let drop := [PyStr.take 12 (c_Id c)] in
           let first := if dict_has mode (c_Networks c) then mode else n0 in
           (Some (first, _endpoint (default [] (dict_get first (c_Networks c))) drop),
            (λ nd, (nd.1, _endpoint nd.2 drop)) <$>
              List.filter (λ nd, negb (String.eqb nd.1 first)) (c_Networks c))
       end.

(** ** The create body *)

Definition jstrings (l : list string) : json := JArr (JStr <$> l).
Definition jlabels (l : list (string * string)) : json := JObj ((λ kv, (kv.1, JStr kv.2)) <$> l).
(** [v not in (None, {}, "")] *)
Definition says_something (v : json) : bool :=
  match v with JNull => false | JObj [] => false | JStr EmptyString => false | _ => true end.

Definition recreate_payload (c : container) (argv env : option (list string))
    (labels : option (list (string * string))) : dict :=
  let cmd := default (c_Cmd c) argv in
  let payload :=
    [("Image", c_Image c);
     ("Cmd", jstrings cmd);
     ("Env", jstrings (default (c_Env c) env));
     ("Labels", jlabels (default (c_Labels c) labels));
     ("ExposedPorts", JObj (c_ExposedPorts c));
     ("Entrypoint", c_Entrypoint c);
     ("WorkingDir", JStr (c_WorkingDir c));
     ("HostConfig", JObj (c_HostConfig c))] in
  let payload := List.filter (λ kv, says_something kv.2) payload in
  let payload := dict_set "Cmd" (jstrings cmd) payload in
  let payload := match env with Some e => dict_set "Env" (jstrings e) payload | None => payload end in
  let payload := match labels with Some l => dict_set "Labels" (jlabels l) payload | None => payload end in
  match (networking c).1 with
  | Some (n, ep) => dict_set "NetworkingConfig" (JObj [("EndpointsConfig", JObj [(n, JObj ep)])]) payload
  | None => payload
  end.

Record ContextPlan := mkPlan {
  payload : dict;
  connect : list (string * dict);
  previous : option Z;
  target : option Z;
}.

(** The window: whether it changes, its target, the text to write, the labels after it *)
Definition plan_window (c : container) (kind : string) (context_length : option Z)
    : bool * option Z * option string * list (string * string) :=
  let current := configured_context c kind in
  let labels := c_Labels c in
  match context_length with
  | None =>
      match recorded_default c with
      | Some recorded =>
          let target := _int_or_none recorded in
          if bool_decide (target = current) then (false, target, None, labels)
          else (true, target, pretty <$> target, dict_pop DEFAULT_LABEL labels)
      | None => (false, current, None, labels)
      end
  | Some n =>
      if bool_decide (Some n = current) then (false, Some n, None, labels)
      else (true, Some n, Some (pretty n),
            match recorded_default c with
            | None => dict_set DEFAULT_LABEL (match current with None => "" | Some z => pretty z end) labels
            | Some _ => labels
            end)
  end.

(** [labels.setdefault(k, v)] as the code spells it *)
Definition remember (k v : string) (labels : list (string * string)) : list (string * string) :=
  if dict_has k labels then labels else dict_set k v labels.

(** The pool and the concurrency of vLLM: the text to write when it changes *)
Definition plan_utilization (c : container) (kind : string) (utilization : option Q)
    (labels : list (string * string)) : option string * list (string * string) :=
  match String.eqb kind VLLM, utilization with
  | true, Some u =>
      let now := argv_utilization (c_Cmd c) in
      let far := match now with Some v => Qle_bool (5 # 1000) (Qabs (v - u)) | None => true end in
      if far then (Some (Txt.fixed2 u),
                   remember UTILIZATION_LABEL (match now with Some v => Txt.fmt_g v | None => "" end) labels)
      else (None, labels)
  | _, _ => (None, labels)
  end.
Definition plan_max_seqs (c : container) (kind : string) (max_num_seqs : option Z)
    (labels : list (string * string)) : option string * list (string * string) :=
  match String.eqb kind VLLM, max_num_seqs with
  | true, Some n =>
      let now := argv_max_seqs (c_Cmd c) in
      if bool_decide (now = Some n) then (None, labels)
      else (Some (pretty n),
            remember MAX_SEQS_LABEL (match now with Some v => pretty v | None => "" end) labels)
  | _, _ => (None, labels)
  end.

(** A flag written only when it changes *)
Definition when_some (f : list string → option string → list string) (v : option string)
    (argv : list string) : list string :=
  match v with Some _ => f argv v | None => argv end.

Definition plan_context (inspected : option container) (kind : string) (context_length : option Z)
    (utilization : option Q) (max_num_seqs : option Z) : option ContextPlan :=
  match inspected with
  | None => None
  | Some c =>
      let '(window_change, target, value, labels) := plan_window c kind context_length in
      let '(util_value, labels) := plan_utilization c kind utilization labels in
      let '(seqs_value, labels) := plan_max_seqs c kind max_num_seqs labels in
      if negb window_change && is_null util_value && is_null seqs_value then None
      else
        let '(argv, env) :=
          if String.eqb kind VLLM then
            let argv := if window_change then argv_with_context (c_Cmd c) value else c_Cmd c in
            let argv := when_some argv_with_utilization util_value argv in
            let argv := when_some argv_with_max_seqs seqs_value argv in
            (Some argv, None)
          else (None, Some (env_with_context (c_Env c) value)) in
        Some (mkPlan (recreate_payload c argv env (Some labels)) (networking c).2
                     (configured_context c kind) target)
  end.

(** ** Editing a command line *)

(** A value of an option does not look like an option; each occurrence of the flag has
    one *)
Definition plain (v : string) : bool := negb (PyStr.startswith "-" v).
Fixpoint valued (flag : string) (argv : list string) : bool :=
  match argv with
  | [] => true
  | tok :: r =>
      (if String.eqb tok flag then match r with v :: _ => plain v | [] => false end else true)
      && valued flag r
  end.
(** The shape of a flag: dashed, without [=] *)
Definition flag_like (f : string) : bool :=
  PyStr.startswith "-" f && is_null (PyStr.split1 "=" f).2.
Definition absent (flag : string) (argv : list string) : Prop :=
  Forall (λ t, t ≠ flag ∧ joined flag t = false) argv.
(** How often a command line names the flag *)
Definition mentions (flag : string) (argv : list string) : nat :=
  count (λ t, String.eqb t flag || joined flag t) argv.

#[local] Arguments Ascii.eqb : simpl never.

Section argv.
Implicit Types (f g v tok : string) (argv : list string) (ov : option string).

Lemma flag_like_dash f : flag_like f = true → PyStr.startswith "-" f = true.
Proof. unfold flag_like. by intros [? _]%andb_true_iff. Qed.
Lemma flag_like_eq f : flag_like f = true → (PyStr.split1 "=" f).2 = None.
Proof. unfold flag_like. intros [_ H]%andb_true_iff. by destruct (PyStr.split1 "=" f) as [? []]. Qed.

Lemma after_equals_joined f v : flag_like f = true → after_equals (f +:+ "=" +:+ v) = v.
Proof. intros Hf%flag_like_eq. unfold after_equals.
  change (f +:+ "=" +:+ v) with (f +:+ String "=" v). by rewrite split1_app.
Qed.

Lemma joined_flag f v : joined f (f +:+ "=" +:+ v) = true.
Proof. unfold joined, PyStr.startswith. rewrite <- string_app_assoc. apply prefix_app. Qed.

Lemma joined_inv f tok : joined f tok = true → ∃ v, tok = f +:+ "=" +:+ v.
Proof. intros (v & ->)%prefix_spec. exists v. by rewrite string_app_assoc. Qed.

(** A token is the [f=v] form of one flag only, and not the bare form of any. *)
Lemma joined_one f g tok :
  flag_like f = true → flag_like g = true → joined f tok = true → joined g tok = true → f = g.
Proof.
  intros Hf%flag_like_eq Hg%flag_like_eq (v & ->)%joined_inv (w & E)%joined_inv.
  pose proof (split1_app "=" f v Hf) as H1. pose proof (split1_app "=" g w Hg) as H2.
  change (f +:+ String "=" v = g +:+ String "=" w) in E. rewrite E in H1. congruence.
Qed.
Lemma joined_bare f g : flag_like g = true → joined f g = false.
Proof.
  intros Hg%flag_like_eq. destruct (joined f g) eqn:E; [|done]. exfalso.
  apply joined_inv in E as (v & ->). revert Hg. clear. induction f as [|c f IH]; [by intros [=]|].
  change ((String c f) +:+ "=" +:+ v) with (String c (f +:+ "=" +:+ v)). simpl.
  destruct (Ascii.eqb "=" c); simpl; [by intros [=]|].
  destruct (PyStr.split1 "=" (f +:+ "=" +:+ v)); auto.
Qed.
Lemma joined_ne f g v : flag_like g = true → (f +:+ "=" +:+ v) ≠ g.
Proof. intros Hg E. pose proof (joined_flag f v) as H. rewrite E, joined_bare in H; done. Qed.

Lemma startswith_app c f v : PyStr.startswith (String c "") f = true → PyStr.startswith (String c "") (f +:+ v) = true.
Proof. destruct f as [|d f]; [done|]. simpl. destruct (ascii_dec c d); [|done]. by destruct f, v. Qed.

(** A plain value is no flag. *)
Lemma plain_ne f v : flag_like f = true → plain v = true → v ≠ f.
Proof. intros Hf%flag_like_dash Hv ->. unfold plain in Hv. by rewrite Hf in Hv. Qed.
Lemma plain_joined f v : flag_like f = true → plain v = true → joined f v = false.
Proof.
  intros Hf%flag_like_dash Hv. destruct (joined f v) eqn:E; [|done].
  apply joined_inv in E as (w & ->). unfold plain in Hv. by rewrite startswith_app in Hv.
Qed.

Lemma absent_flag f argv : absent f argv → _argv_flag argv f = None.
Proof.
  induction 1 as [|t argv [Ht Hj] _ IH]; simpl; [done|].
  apply String.eqb_neq in Ht. rewrite Ht, Hj. exact IH.
Qed.
Lemma absent_append f argv v : absent f argv → _argv_flag (argv ++ [f; v]) f = Some v.
Proof.
  induction 1 as [|t argv [Ht Hj] _ IH]; simpl; [by rewrite String.eqb_refl|].
  apply String.eqb_neq in Ht. rewrite Ht, Hj. exact IH.
Qed.

Lemma valued_tail f tok argv : valued f (tok :: argv) = true → valued f argv = true.
Proof. simpl. by intros [_ ?]%andb_true_iff. Qed.

(** The edit by cases: the flag and its value, the joined form, any other token *)
Lemma edit_pair f ov v r :
  edit_flag f ov (f :: v :: r) =
  let '(out, rep) := edit_flag f ov r in
  match ov with Some w => (f :: w :: out, true) | None => (out, rep) end.
Proof. simpl. by rewrite String.eqb_refl. Qed.
Lemma edit_joined f ov w r :
  flag_like f = true →
  edit_flag f ov ((f +:+ "=" +:+ w) :: r) =
  let '(out, rep) := edit_flag f ov r in
  match ov with Some v => ((f +:+ "=" +:+ v) :: out, true) | None => (out, rep) end.
Proof.
  intros Hf. simpl. rewrite joined_flag.
  destruct (String.eqb_spec (f +:+ "=" +:+ w) f) as [E|_]; [by apply joined_ne in E|done].
Qed.
Lemma edit_other f ov tok r :
  tok ≠ f → joined f tok = false →
  edit_flag f ov (tok :: r) = let '(out, rep) := edit_flag f ov r in (tok :: out, rep).
Proof. intros Hne%String.eqb_neq Hj. simpl. by rewrite Hne, Hj. Qed.

(** Case analysis along a command line in which the flag always has its value *)
Lemma valued_ind f (P : list string → Prop) :
  flag_like f = true →
  P [] →
  (∀ v r, plain v = true → P r → P (f :: v :: r)) →
  (∀ w r, P r → P ((f +:+ "=" +:+ w) :: r)) →
  (∀ tok r, tok ≠ f → joined f tok = false → P r → P (tok :: r)) →
  ∀ argv, valued f argv = true → P argv.
Proof.
  intros Hf H0 Hp Hj Ho. induction argv as [|x|x y l IH1 IH2] using list_ind2; intros Hv; [done|..].
  - destruct (String.eqb_spec x f) as [->|Hne]; [simpl in Hv; by rewrite String.eqb_refl in Hv|].
    destruct (joined f x) eqn:E; [apply joined_inv in E as (w & ->); by apply Hj|by apply Ho].
  - pose proof (valued_tail _ _ _ Hv) as Hv'. destruct (String.eqb_spec x f) as [->|Hne].
    + simpl in Hv. rewrite String.eqb_refl in Hv. apply andb_true_iff in Hv as [Hy _].
      apply Hp; [done|]. apply IH1. by apply valued_tail in Hv'.
    + destruct (joined f x) eqn:E; [apply joined_inv in E as (w & ->); apply Hj|apply Ho]; auto.
Qed.
End argv.

Section edits.
Implicit Types (f g v w tok : string) (argv : list string) (ov : option string).

(** What an edit that replaced nothing says of the command line *)
Lemma edit_not_replaced f v argv :
  flag_like f = true → valued f argv = true → (edit_flag f (Some v) argv).2 = false →
  absent f argv ∧ (edit_flag f (Some v) argv).1 = argv.
Proof.
  intros Hf. revert argv. apply (valued_ind f (λ a, _ → _)); [done|by split; [constructor|]|..].
  - intros x r _ _. rewrite edit_pair. by destruct (edit_flag f (Some v) r).
  - intros x r _. rewrite edit_joined by done. by destruct (edit_flag f (Some v) r).
  - intros tok r Hne Hj IH. rewrite edit_other by done.
    destruct (edit_flag f (Some v) r) as [out rep]; simpl in *. intros (Ha & ->)%IH.
    split; [by constructor|done].
Qed.

Lemma edit_replaced f v argv :
  flag_like f = true → valued f argv = true → (edit_flag f (Some v) argv).2 = true →
  _argv_flag (edit_flag f (Some v) argv).1 f = Some v.
Proof.
  intros Hf. revert argv. apply (valued_ind f (λ a, _ → _)); [done..| | |].
  - intros x r _ _. rewrite edit_pair. destruct (edit_flag f (Some v) r). simpl.
    by rewrite String.eqb_refl.
  - intros x r _. rewrite edit_joined by done. destruct (edit_flag f (Some v) r) as [out rep].
    cbn [fst]. simpl. destruct (String.eqb_spec (f +:+ "=" +:+ v) f) as [E|_]; [by apply joined_ne in E|].
    by rewrite joined_flag, after_equals_joined.
  - intros tok r Hne%String.eqb_neq Hj IH. rewrite edit_other by (done || by apply String.eqb_neq).
    destruct (edit_flag f (Some v) r) as [out rep]; simpl in *. intros Hr. rewrite Hne, Hj. auto.
Qed.

(** Writing a flag and reading it back *)
Lemma with_flag_reads f v argv :
  flag_like f = true → valued f argv = true → _argv_flag (_argv_with_flag argv f (Some v)) f = Some v.
Proof.
  intros Hf Hv. unfold _argv_with_flag.
  pose proof (edit_replaced f v argv Hf Hv) as Hr. pose proof (edit_not_replaced f v argv Hf Hv) as Hn.
  destruct (edit_flag f (Some v) argv) as [out []]; simpl in *; [by apply Hr|].
  destruct Hn as [Ha ->]; [done|]. by apply absent_append.
Qed.

Lemma with_flag_removed f argv :
  flag_like f = true → valued f argv = true → _argv_flag (_argv_with_flag argv f None) f = None.
Proof.
  intros Hf Hv. apply absent_flag. revert argv Hv. unfold _argv_with_flag.
  apply (valued_ind f (λ a, absent f (let '(out, _) := edit_flag f None a in out))); [done|constructor|..].
  - intros x r _. rewrite edit_pair. by destruct (edit_flag f None r).
  - intros x r. rewrite edit_joined by done. by destruct (edit_flag f None r).
  - intros tok r Hne Hj. rewrite edit_other by done. destruct (edit_flag f None r). by constructor.
Qed.

(** A function of the command line that passes over the flag in both its forms, and reads
    every other token together with the value that follows it, does not see an edit. *)
Section insensitive.
Context {B : Type} (reads : list string → B) (f : string).
Hypothesis Hf : flag_like f = true.
(** the other flags whose value the function reads *)
Context (gs : list string).
Hypothesis Hgs : Forall (λ g, flag_like g = true ∧ g ≠ f) gs.
Hypothesis skip_pair : ∀ v r, plain v = true → reads (f :: v :: r) = reads r.
Hypothesis skip_joined : ∀ w r, reads ((f +:+ "=" +:+ w) :: r) = reads r.
Hypothesis skip_end : ∀ argv v, absent f argv → Forall (λ g, valued g argv = true) gs → plain v = true →
  reads (argv ++ [f; v]) = reads argv.
Hypothesis cong_flag : ∀ g v r r', g ∈ gs → plain v = true → reads r = reads r' → reads (g :: v :: r) = reads (g :: v :: r').
Hypothesis cong_other : ∀ tok r r', tok ∉ gs → tok ≠ f → reads r = reads r' → reads (tok :: r) = reads (tok :: r').

Lemma edit_insensitive ov argv :
  (∀ v, ov = Some v → plain v = true) →
  valued f argv = true → Forall (λ g, valued g argv = true) gs →
  reads (edit_flag f ov argv).1 = reads argv.
Proof.
  intros Hov. induction argv as [|x|x y l IH1 IH2] using list_ind2; intros Hv Hg; [done|..].
  - destruct (String.eqb_spec x f) as [->|Hne]; [simpl in Hv; by rewrite String.eqb_refl in Hv|].
    destruct (joined f x) eqn:E; [apply joined_inv in E as (w & ->)|].
    + rewrite edit_joined by done. destruct ov; simpl; by rewrite ?skip_joined.
    + rewrite edit_other by done. done.
  - pose proof (valued_tail _ _ _ Hv) as Hv'.
    assert (Forall (λ g, valued g (y :: l) = true) gs) as Hg'
      by (eapply Forall_impl; [exact Hg|]; intros g; apply valued_tail).
    assert (Forall (λ g, valued g l = true) gs) as Hg''
      by (eapply Forall_impl; [exact Hg'|]; intros g; apply valued_tail).
    pose proof (valued_tail _ _ _ Hv') as Hv''.
    destruct (String.eqb_spec x f) as [->|Hne].
    { rewrite edit_pair. simpl in Hv. rewrite String.eqb_refl in Hv.
      apply andb_true_iff in Hv as [Hy _]. specialize (IH1 Hv'' Hg'').
      rewrite skip_pair by done. destruct (edit_flag f ov l), ov; simpl in *; rewrite ?skip_pair; auto. }
    destruct (joined f x) eqn:E; [apply joined_inv in E as (w & ->)|].
    { rewrite edit_joined by done. specialize (IH2 Hv' Hg').
      destruct (edit_flag f ov (y :: l)), ov; cbn [fst] in *; rewrite ?skip_joined; auto. }
    rewrite edit_other by done. destruct (decide (x ∈ gs)) as [Hx|Hx].
    + pose proof Hgs as Hgs'. rewrite Forall_forall in Hgs', Hg. destruct (Hgs' _ Hx) as [Hgx Hgf].
      specialize (Hg _ Hx). simpl in Hg. rewrite String.eqb_refl in Hg.
      apply andb_true_iff in Hg as [Hy _].
      rewrite edit_other by (by apply plain_ne || by apply plain_joined).
      specialize (IH1 Hv'' Hg''). destruct (edit_flag f ov l); simpl in *. by apply cong_flag.
    + specialize (IH2 Hv' Hg'). destruct (edit_flag f ov (y :: l)); cbn [fst] in *. by apply cong_other.
Qed.

Lemma with_flag_insensitive ov argv :
  (∀ v, ov = Some v → plain v = true) →
  valued f argv = true → Forall (λ g, valued g argv = true) gs →
  reads (_argv_with_flag argv f ov) = reads argv.
Proof.
  intros Hov Hv Hg. unfold _argv_with_flag. pose proof (edit_insensitive ov argv Hov Hv Hg) as He.
  destruct ov as [v|]; [|by destruct (edit_flag f None argv)].
  pose proof (edit_not_replaced f v argv Hf Hv) as Hn.
  destruct (edit_flag f (Some v) argv) as [out []]; simpl in *; [done|].
  destruct Hn as [Ha ->]; [done|]. apply skip_end; auto.
Qed.
End insensitive.
End edits.

(** ** What an edit leaves alone *)

Section other_flags.
Context (f : string) (Hf : flag_like f = true).
Implicit Types (g v w tok : string) (argv : list string) (ov : option string).
Definition plain_value ov : Prop := ∀ v, ov = Some v → plain v = true.

(** The value of another flag *)
Lemma with_flag_other g ov argv :
  flag_like g = true → g ≠ f → plain_value ov → valued f argv = true → valued g argv = true →
  _argv_flag (_argv_with_flag argv f ov) g = _argv_flag argv g.
Proof.
  intros Hg Hne Hov Hv Hvg.
  assert (∀ v r, plain v = true → _argv_flag (v :: r) g = _argv_flag r g) as Hplain.
  { intros v r Hp. simpl. rewrite (proj2 (String.eqb_neq _ _) (plain_ne g v Hg Hp)), plain_joined; done. }
  apply (with_flag_insensitive (λ a, _argv_flag a g) f Hf [g]); try done.
  - repeat constructor; auto.
  - intros v r Hp. simpl. rewrite (proj2 (String.eqb_neq f g)), joined_bare by done. by apply Hplain.
  - intros w r. simpl. rewrite (proj2 (String.eqb_neq _ _) (joined_ne f g w Hg)).
    destruct (joined g (f +:+ "=" +:+ w)) eqn:E; [|done].
    exfalso. apply Hne. eauto using joined_one, joined_flag.
  - intros a v _ Ha Hp. rewrite Forall_singleton in Ha. induction a as [|t a IH]; simpl.
    + by rewrite (proj2 (String.eqb_neq f g)), joined_bare, (proj2 (String.eqb_neq _ _) (plain_ne g v Hg Hp)), plain_joined.
    + pose proof (valued_tail _ _ _ Ha) as Ht. rewrite IH by done.
      destruct (String.eqb_spec t g) as [->|]; [|done]. destruct a; [|done].
      simpl in Ha. by rewrite String.eqb_refl in Ha.
  - intros g' v r r' ->%list_elem_of_singleton _ _. simpl. by rewrite String.eqb_refl.
  - intros tok r r' Hng _ E. simpl. destruct (String.eqb_spec tok g) as [->|]; [set_solver|]. by rewrite E.
  - by constructor.
Qed.

(** Whether another flag has its value *)
Lemma with_flag_valued_other g ov argv :
  flag_like g = true → g ≠ f → plain_value ov → valued f argv = true → valued g argv = true →
  valued g (_argv_with_flag argv f ov) = true.
Proof.
  intros Hg Hne Hov Hv Hvg. transitivity (valued g argv); [|done].
  apply (with_flag_insensitive (valued g) f Hf [g]); try done.
  - repeat constructor; auto.
  - intros v r Hp. simpl. by rewrite (proj2 (String.eqb_neq f g)), (proj2 (String.eqb_neq _ _) (plain_ne g v Hg Hp)).
  - intros w r. simpl. by rewrite (proj2 (String.eqb_neq _ _) (joined_ne f g w Hg)).
  - intros a v _ Ha Hp. rewrite Forall_singleton in Ha. induction a as [|t a IH].
    + simpl. by rewrite (proj2 (String.eqb_neq f g)), (proj2 (String.eqb_neq _ _) (plain_ne g v Hg Hp)).
    + pose proof (valued_tail _ _ _ Ha) as Ht. rewrite <- app_comm_cons. simpl in *.
      rewrite IH by done. destruct (String.eqb_spec t g) as [->|]; [|done]. by destruct a.
  - intros g' v r r' ->%list_elem_of_singleton Hp E. simpl.
    by rewrite E, (proj2 (String.eqb_neq _ _) (plain_ne g v Hg Hp)).
  - intros tok r r' Hng _ E. simpl. rewrite E. destruct (String.eqb_spec tok g) as [->|]; [set_solver|done].
  - by constructor.
Qed.

(** The flag itself keeps a value. *)
Lemma with_flag_valued_self ov argv :
  plain_value ov → valued f argv = true → valued f (_argv_with_flag argv f ov) = true.
Proof.
  intros Hov Hv.
  assert (valued f (edit_flag f ov argv).1 = true) as He.
  { revert argv Hv. apply (valued_ind f (λ a, valued f (edit_flag f ov a).1 = true)); [done..| | |].
    - intros v r _ IH. rewrite edit_pair. destruct (edit_flag f ov r), ov as [w|]; simpl in *; [|done].
      rewrite String.eqb_refl, IH. rewrite (Hov w) by done.
      by rewrite (proj2 (String.eqb_neq _ _) (plain_ne f w Hf (Hov w eq_refl))).
    - intros w r IH. rewrite edit_joined by done. destruct (edit_flag f ov r), ov as [v|]; cbn [fst] in *; [|done].
      simpl. by rewrite (proj2 (String.eqb_neq _ _) (joined_ne f f v Hf)).
    - intros tok r Hne%String.eqb_neq Hj IH. rewrite edit_other by (done || by apply String.eqb_neq).
      destruct (edit_flag f ov r); simpl in *. by rewrite Hne. }
  unfold _argv_with_flag. destruct ov as [v|]; [|by destruct (edit_flag f None argv)].
  pose proof (edit_not_replaced f v argv Hf Hv) as Hn.
  destruct (edit_flag f (Some v) argv) as [out []]; simpl in *; [done|].
  destruct Hn as [Ha ->]; [done|]. clear -Ha Hov Hf. induction Ha as [|t a [Ht%String.eqb_neq _] Ha IH].
  - simpl. rewrite String.eqb_refl, (Hov v) by done.
    by rewrite (proj2 (String.eqb_neq _ _) (plain_ne f v Hf (Hov v eq_refl))).
  - simpl. by rewrite Ht.
Qed.

End other_flags.

Definition engine_ok (argv : list string) : Prop :=
  Forall (λ f, valued f argv = true) _ENGINE_FLAGS.

Lemma engine_flag_like f : f ∈ _ENGINE_FLAGS → flag_like f = true.
Proof. unfold _ENGINE_FLAGS. rewrite !elem_of_cons. intros [->|[->|[->|?]]]; [vm_compute; reflexivity..|set_solver]. Qed.

Section engine_flags.
Implicit Types (f v : string) (argv : list string) (ov : option string).

Lemma engine_ok_valued f argv : engine_ok argv → f ∈ _ENGINE_FLAGS → valued f argv = true.
Proof. unfold engine_ok. rewrite Forall_forall. auto. Qed.

Lemma engine_ok_with_flag f ov argv :
  f ∈ _ENGINE_FLAGS → plain_value ov → engine_ok argv → engine_ok (_argv_with_flag argv f ov).
Proof.
  intros Hf Hov Hok. apply Forall_forall. intros g Hg. pose proof (engine_flag_like _ Hf).
  destruct (decide (g = f)) as [->|]; [apply with_flag_valued_self|apply with_flag_valued_other];
    eauto using engine_ok_valued, engine_flag_like.
Qed.

Lemma engine_flag_other f g ov argv :
  f ∈ _ENGINE_FLAGS → g ∈ _ENGINE_FLAGS → g ≠ f → plain_value ov → engine_ok argv →
  _argv_flag (_argv_with_flag argv f ov) g = _argv_flag argv g.
Proof. intros. apply with_flag_other; eauto using engine_ok_valued, engine_flag_like. Qed.

(** The identity of a profile does not see the engine's own edits. *)
Lemma kept_tokens_with_flag f ov argv :
  f ∈ _ENGINE_FLAGS → plain_value ov → engine_ok argv →
  kept_tokens (_argv_with_flag argv f ov) = kept_tokens argv.
Proof.
  intros Hin Hov Hok. pose proof (engine_flag_like _ Hin) as Hf.
  pose (gs := List.filter (λ g, negb (String.eqb g f)) _ENGINE_FLAGS).
  assert (∀ x, x ∈ gs ↔ x ∈ _ENGINE_FLAGS ∧ x ≠ f) as Hgs.
  { intros x. unfold gs. by rewrite elem_of_Lfilter, negb_true_iff, String.eqb_neq. }
  assert (∀ x r, x ∉ _ENGINE_FLAGS → kept_tokens (x :: r) =
    (if existsb (λ flag, joined flag x) _ENGINE_FLAGS then [] else [x]) ++ kept_tokens r) as Hother.
  { intros x r Hx. cbn [kept_tokens]. rewrite bool_decide_false by done. by destruct (existsb _ _). }
  assert (∀ x y r, x ∈ _ENGINE_FLAGS → kept_tokens (x :: y :: r) = kept_tokens r) as Hpair.
  { intros x y r Hx. cbn [kept_tokens]. by rewrite bool_decide_true by done. }
  apply (with_flag_insensitive kept_tokens f Hf gs); auto using engine_ok_valued.
  - apply Forall_forall. intros g [Hg ?]%Hgs. auto using engine_flag_like.
  - intros w r. rewrite Hother; cycle 1.
    { intros Hx%engine_flag_like. by eapply joined_ne in Hx. }
    replace (existsb _ _) with true; [done|]. symmetry. apply existsb_exists. exists f.
    split; [by apply list_elem_of_In|apply joined_flag].
  - intros a v Ha Hg Hp. induction a as [|x|x y l IH1 IH2] using list_ind2.
    + by rewrite app_nil_l, Hpair.
    + apply Forall_singleton in Ha as [Hne _]. assert (x ∉ _ENGINE_FLAGS) as Hx.
      { intros Hx. rewrite Forall_forall in Hg. specialize (Hg x (proj2 (Hgs x) (conj Hx Hne))).
        simpl in Hg. by rewrite String.eqb_refl in Hg. }
      rewrite <- app_comm_cons, app_nil_l, !(Hother x), Hpair by done. done.
    + pose proof Ha as [[Hne _] Ha1]%Forall_cons. pose proof Ha1 as [_ Ha2]%Forall_cons.
      assert (Forall (λ g, valued g (y :: l) = true) gs) as Hg1
        by (eapply Forall_impl; [exact Hg|]; intros g; apply valued_tail).
      assert (Forall (λ g, valued g l = true) gs) as Hg2
        by (eapply Forall_impl; [exact Hg1|]; intros g; apply valued_tail).
      destruct (decide (x ∈ _ENGINE_FLAGS)).
      * rewrite <- !app_comm_cons, !Hpair by done. auto.
      * rewrite <- app_comm_cons, !Hother by done. f_equal. auto.
  - intros g v r r' [Hg _]%Hgs _ E. by rewrite !Hpair.
  - intros tok r r' Hng Hne E. rewrite !Hother, E; [done|..]; intros Hx; apply Hng, Hgs; done.
  - apply Forall_forall. intros g [Hg _]%Hgs. by apply engine_ok_valued.
Qed.
End engine_flags.

Lemma argv_context_flag argv : argv_context argv = _argv_flag argv CONTEXT_FLAG ≫= _int_or_none.
Proof.
  induction argv as [|tok r IH]; simpl; [done|]. destruct (String.eqb tok CONTEXT_FLAG), r;
    destruct (joined CONTEXT_FLAG tok); try done; exact IH.
Qed.

Lemma pretty_plain n : 1 ≤ n → plain (pretty n) = true.
Proof.
  intros Hn. destruct (pretty_pos_digits n Hn) as [Hd _]. unfold plain, PyStr.isdigit in *.
  destruct (pretty n) as [|c s]; [done|]. simpl in Hd. apply andb_true_iff in Hd as [Hc _].
  unfold PyStr.startswith. cbn [String.prefix]. destruct (ascii_dec "-" c) as [<-|]; [discriminate Hc|done].
Qed.
Lemma int_or_none_pretty n : 1 ≤ n → _int_or_none (pretty n) = Some n.
Proof. intros Hn. unfold _int_or_none. rewrite int_pretty by done. by destruct (Z.ltb_spec 0 n); [|lia]. Qed.
Lemma int_or_none_pos s n : _int_or_none s = Some n → 1 ≤ n.
Proof. unfold _int_or_none. destruct (PyStr.int s) as [m|]; [|done]. destruct (Z.ltb_spec 0 m); [|done]. intros [= <-]. lia. Qed.

(** ** The container after a plan

    Docker's inspect of the replacement reports the command, environment and labels of the
    create body. *)

Definition strings_of (v : option json) : list string :=
  match v with Some (JArr l) => omap (λ x, match x with JStr s => Some s | _ => None end) l | _ => [] end.
Definition labels_of (v : option json) : list (string * string) :=
  match v with
  | Some (JObj fs) => omap (λ kv, match kv.2 with JStr s => Some (kv.1, s) | _ => None end) fs
  | _ => []
  end.
Definition recreated (c : container) (body : dict) : container :=
  {| c_Id := c_Id c; c_Image := c_Image c; c_Cmd := strings_of (dict_get "Cmd" body);
     c_Env := strings_of (dict_get "Env" body); c_Labels := labels_of (dict_get "Labels" body);
     c_ExposedPorts := c_ExposedPorts c; c_Entrypoint := c_Entrypoint c; c_WorkingDir := c_WorkingDir c;
     c_HostConfig := c_HostConfig c; c_Networks := c_Networks c; c_Running := true;
     c_StartedAt := c_StartedAt c |}.
(** One round of the lever: the container it leaves *)
Definition after_plan (kind : string) (c : container) (n : option Z) (u : option Q) (s : option Z) : container :=
  match plan_context (Some c) kind n u s with Some p => recreated c (payload p) | None => c end.

Lemma strings_of_jstrings l : strings_of (Some (jstrings l)) = l.
Proof. unfold strings_of, jstrings. induction l as [|s l IH]; [done|]. cbn in *. by rewrite IH. Qed.
Lemma labels_of_jlabels l : labels_of (Some (jlabels l)) = l.
Proof. unfold labels_of, jlabels. induction l as [|[k v] l IH]; [done|]. cbn in *. by rewrite IH. Qed.

Lemma dict_get_filter_ne {V} (p : string * V → bool) k d :
  (∀ v, (k, v) ∈ d → p (k, v) = true) → dict_get k (List.filter p d) = dict_get k d.
Proof.
  induction d as [|[k' v] d IH]; simpl; [done|]. intros Hp.
  destruct (String.eqb_spec k k') as [<-|Hne].
  - rewrite Hp by left. simpl. by rewrite String.eqb_refl.
  - destruct (p (k', v)); simpl; [apply String.eqb_neq in Hne; rewrite Hne|]; apply IH; set_solver.
Qed.

Section payload.
Context (c : container) (argv env : option (list string)) (labels : list (string * string)).
Let body := recreate_payload c argv env (Some labels).

Lemma payload_cmd : strings_of (dict_get "Cmd" body) = default (c_Cmd c) argv.
Proof.
  unfold body, recreate_payload. destruct (networking c).1 as [[n ep]|], env;
    rewrite ?dict_get_set_ne, ?dict_get_set_eq by done; apply strings_of_jstrings.
Qed.
Lemma payload_labels : labels_of (dict_get "Labels" body) = labels.
Proof.
  unfold body, recreate_payload. destruct (networking c).1 as [[n ep]|];
    rewrite ?dict_get_set_ne, ?dict_get_set_eq by done; apply labels_of_jlabels.
Qed.
Lemma payload_env : strings_of (dict_get "Env" body) = default (c_Env c) env.
Proof.
  unfold body, recreate_payload. destruct (networking c).1 as [[n ep]|], env;
    rewrite ?dict_get_set_ne, ?dict_get_set_eq by done; try apply strings_of_jstrings;
    (rewrite dict_get_filter_ne; [apply strings_of_jstrings|]);
    intros v Hv; repeat (apply elem_of_cons in Hv as [E|Hv]; [first [discriminate E|by injection E as ->]|]); by apply not_elem_of_nil in Hv.
Qed.
End payload.

(** The command line and environment a plan writes *)
Definition planned_argv (kind : string) (c : container) (n : option Z) (u : option Q) (s : option Z) : list string :=
  let '(change, _, value, labels) := plan_window c kind n in
  let '(uv, labels) := plan_utilization c kind u labels in
  let '(sv, _) := plan_max_seqs c kind s labels in
  when_some argv_with_max_seqs sv
    (when_some argv_with_utilization uv
       (if change then argv_with_context (c_Cmd c) value else c_Cmd c)).

Lemma plan_window_id c kind n t v l : plan_window c kind n = (false, t, v, l) → l = c_Labels c.
Proof.
  unfold plan_window. destruct n as [n|], (recorded_default c) as [r|];
    repeat case_bool_decide; intros; by simplify_eq.
Qed.
Lemma plan_utilization_id c kind u l l' : plan_utilization c kind u l = (None, l') → l' = l.
Proof.
  unfold plan_utilization. destruct (String.eqb kind VLLM), u as [q|]; intros E; try by simplify_eq.
  destruct (argv_utilization (c_Cmd c)) as [x|]; [destruct (Qle_bool _ _)|]; by simplify_eq.
Qed.
Lemma plan_max_seqs_id c kind s l l' : plan_max_seqs c kind s l = (None, l') → l' = l.
Proof.
  unfold plan_max_seqs. destruct (String.eqb kind VLLM), s as [q|]; intros E; try by simplify_eq.
  case_bool_decide; by simplify_eq.
Qed.

Lemma plan_utilization_none c kind l : plan_utilization c kind None l = (None, l).
Proof. unfold plan_utilization. by destruct (String.eqb kind VLLM). Qed.
Lemma plan_max_seqs_none c kind l : plan_max_seqs c kind None l = (None, l).
Proof. unfold plan_max_seqs. by destruct (String.eqb kind VLLM). Qed.

Lemma after_plan_vllm c n u s :
  c_Cmd (after_plan VLLM c n u s) = planned_argv VLLM c n u s ∧
  c_Labels (after_plan VLLM c n u s) =
    let '(_, labels) := plan_window c VLLM n in
    let '(_, labels) := plan_utilization c VLLM u labels in (plan_max_seqs c VLLM s labels).2.
Proof.
  unfold after_plan, plan_context, planned_argv.
  destruct (plan_window c VLLM n) as [[[change t] value] l1] eqn:E1.
  destruct (plan_utilization c VLLM u l1) as [uv l2] eqn:E2.
  destruct (plan_max_seqs c VLLM s l2) as [sv l3] eqn:E3.
  destruct change, uv, sv; cbn [negb andb is_null payload recreated c_Cmd c_Labels snd fst];
    try (rewrite String.eqb_refl; cbn [payload recreated c_Cmd c_Labels];
         by rewrite payload_cmd, payload_labels).
  apply plan_window_id in E1 as ->. apply plan_utilization_id in E2 as ->.
  by apply plan_max_seqs_id in E3 as ->.
Qed.

Lemma after_plan_ollama c n kind :
  kind ≠ VLLM →
  let '(change, _, value, labels) := plan_window c kind n in
  c_Env (after_plan kind c n None None) = (if change then env_with_context (c_Env c) value else c_Env c) ∧
  c_Labels (after_plan kind c n None None) = labels.
Proof.
  intros Hk%String.eqb_neq. unfold after_plan, plan_context, plan_utilization, plan_max_seqs.
  destruct (plan_window c kind n) as [[[change t] value] l1] eqn:E1. rewrite Hk.
  destruct change; cbn; [by rewrite payload_env, payload_labels|].
  by apply plan_window_id in E1 as ->.
Qed.

(** ** The window *)

(** The text of the variable that names the window *)
Fixpoint env_text (env : list string) : option string :=
  match env with
  | [] => None
  | e :: r =>
      match PyStr.split1 "=" e with
      | (name, Some value) => if String.eqb name CONTEXT_ENV then Some value else env_text r
      | _ => env_text r
      end
  end.
Lemma env_context_text env : env_context env = env_text env ≫= _int_or_none.
Proof.
  induction env as [|e env IH]; [done|]. cbn [env_context env_text].
  destruct (PyStr.split1 "=" e) as [name [w|]]; [|done]. by destruct (String.eqb name CONTEXT_ENV).
Qed.
Lemma env_text_without env :
  env_text (List.filter (λ e, negb (String.eqb (env_name e) CONTEXT_ENV)) env) = None.
Proof.
  induction env as [|e env IH]; [done|]. cbn [List.filter].
  unfold env_name at 1. destruct (PyStr.split1 "=" e) as [name v] eqn:E. cbn [fst].
  destruct (String.eqb name CONTEXT_ENV) eqn:En; cbn [negb]; [done|].
  cbn [env_text]. rewrite E, En. by destruct v.
Qed.
Lemma env_text_with env v : env_text (env_with_context env v) = v.
Proof.
  unfold env_with_context. pose proof (env_text_without env) as Hw.
  set (l := List.filter _ env) in *. destruct v as [v|]; [|by rewrite app_nil_r].
  assert (Forall (λ e, env_name e ≠ CONTEXT_ENV) l) as Hl.
  { apply Forall_forall. intros e [_ He%negb_true_iff%String.eqb_neq]%elem_of_Lfilter. done. }
  clearbody l. clear Hw. induction Hl as [|e l He _ IH].
  - cbn [app env_text]. replace (PyStr.split1 "=" (CONTEXT_ENV +:+ "=" +:+ v)) with (CONTEXT_ENV, Some v)
      by (symmetry; apply (split1_app "=" CONTEXT_ENV v eq_refl)). by rewrite String.eqb_refl.
  - cbn [app env_text]. unfold env_name in He. destruct (PyStr.split1 "=" e) as [name [w|]]; [|done].
    cbn [fst] in He. apply String.eqb_neq in He. by rewrite He.
Qed.

(** The text the window of a server is written with *)
Definition window_text (kind : string) (c : container) : option string :=
  if String.eqb kind VLLM then _argv_flag (c_Cmd c) CONTEXT_FLAG else env_text (c_Env c).
Lemma configured_text c kind : configured_context c kind = window_text kind c ≫= _int_or_none.
Proof.
  unfold configured_context, window_text. destruct (String.eqb kind VLLM);
    [apply argv_context_flag|apply env_context_text].
Qed.

(** The command line is well formed where it is the one that counts. *)
Definition window_ok (kind : string) (c : container) : Prop := kind = VLLM → engine_ok (c_Cmd c).

Section window.
Context (kind : string).
Implicit Types (c : container) (n : Z).

Lemma configured_pos c n : configured_context c kind = Some n → 1 ≤ n.
Proof. rewrite configured_text. destruct (window_text kind c) as [s|]; [apply int_or_none_pos|done]. Qed.

(** The window, the labels and the shape of the command line after one plan *)
Lemma after_window c on :
  (∀ n, on = Some n → 1 ≤ n) → window_ok kind c →
  let '(change, target, value, labels) := plan_window c kind on in
  (change = true → window_text kind (after_plan kind c on None None) = value) ∧
  (change = false → after_plan kind c on None None = c) ∧
  c_Labels (after_plan kind c on None None) = labels ∧
  window_ok kind (after_plan kind c on None None) ∧
  kept_tokens (c_Cmd (after_plan kind c on None None)) = kept_tokens (c_Cmd c).
Proof.
  intros Hn Hok. destruct (plan_window c kind on) as [[[change target] value] labels] eqn:E.
  destruct change; cycle 1.
  { assert (after_plan kind c on None None = c) as ->.
    { unfold after_plan, plan_context, plan_utilization, plan_max_seqs. rewrite E. by destruct (String.eqb kind VLLM). }
    apply plan_window_id in E as ->. done. }
  assert (plain_value value) as Hpl.
  { intros v ->. unfold plan_window in E. destruct on as [n|].
    - case_bool_decide; simplify_eq. by apply pretty_plain, Hn.
    - destruct (recorded_default c) as [r|]; [|done]. case_bool_decide; simplify_eq.
      destruct (_int_or_none r) as [z|] eqn:Ez; simplify_eq/=. apply pretty_plain. by eapply int_or_none_pos. }
  destruct (String.eqb_spec kind VLLM) as [Hk|Hk].
  - assert (engine_ok (c_Cmd c)) as Hc by auto. rewrite Hk in *.
    destruct (after_plan_vllm c on None None) as [Hcmd Hlab]. unfold planned_argv in Hcmd.
    rewrite E in Hcmd, Hlab. rewrite plan_utilization_none, plan_max_seqs_none in Hcmd, Hlab.
    cbn in Hcmd, Hlab.
    assert (CONTEXT_FLAG ∈ _ENGINE_FLAGS) as Hin by (unfold _ENGINE_FLAGS; set_solver).
    split_and!; [intros _|done|done|intros _; rewrite Hcmd; by apply engine_ok_with_flag|].
    + unfold window_text. rewrite String.eqb_refl, Hcmd.
      unfold argv_with_context. destruct value as [v|].
      * by rewrite with_flag_reads; [|by apply engine_flag_like|by apply engine_ok_valued].
      * by rewrite with_flag_removed; [|by apply engine_flag_like|by apply engine_ok_valued].
    + rewrite Hcmd. by apply kept_tokens_with_flag.
  - pose proof (after_plan_ollama c on kind Hk) as H. rewrite E in H. destruct H as [Henv Hlab].
    split_and!; [intros _|done|done|by intros ?|].
    + unfold window_text. apply String.eqb_neq in Hk. by rewrite Hk, Henv, env_text_with.
    + unfold after_plan, plan_context, plan_utilization, plan_max_seqs. rewrite E.
      apply String.eqb_neq in Hk. rewrite Hk. cbn. by rewrite payload_cmd.
Qed.

(** The number an override or a restore leaves is the number its text says. *)
Lemma text_configured c on : window_text kind c = pretty <$> on → (∀ z, on = Some z → 1 ≤ z) →
  configured_context c kind = on.
Proof.
  intros Ht Hp. rewrite configured_text, Ht. destruct on as [z|]; [|done]. cbn. by apply int_or_none_pretty, Hp.
Qed.

Lemma after_override c n :
  1 ≤ n → window_ok kind c →
  let c' := after_plan kind c (Some n) None None in
  configured_context c' kind = Some n ∧ window_ok kind c' ∧ kept_tokens (c_Cmd c') = kept_tokens (c_Cmd c) ∧
  window_text kind c' = (if bool_decide (Some n = configured_context c kind) then window_text kind c else Some (pretty n)) ∧
  recorded_default c' =
    match recorded_default c with
    | Some r => Some r
    | None => if bool_decide (Some n = configured_context c kind) then None
              else Some (match configured_context c kind with None => "" | Some z => pretty z end)
    end.
Proof.
  intros Hn Hok c'. unfold c'. pose proof (after_window c (Some n)) as H. unfold plan_window in H.
  case_bool_decide as Hb; destruct H as (H1 & H2 & H3 & H4 & H5); [by intros ? [= <-]|done| |by intros ? [= <-]|done|].
  - rewrite H2 by done. split_and!; try done. by destruct (recorded_default c).
  - rewrite (H1 eq_refl). split_and!; try done.
    { apply text_configured; [by apply H1|]. by intros ? [= <-]. }
    unfold recorded_default at 1. rewrite H3. destruct (recorded_default c) as [r|] eqn:Er; [done|].
    by rewrite dict_get_set_eq.
Qed.

Lemma after_restore c :
  window_ok kind c →
  let c' := after_plan kind c None None None in
  window_text kind c' =
    match recorded_default c with
    | Some r => if bool_decide (_int_or_none r = configured_context c kind) then window_text kind c
                else pretty <$> _int_or_none r
    | None => window_text kind c
    end ∧
  kept_tokens (c_Cmd c') = kept_tokens (c_Cmd c).
Proof.
  intros Hok c'. unfold c'. pose proof (after_window c None) as H. unfold plan_window in H.
  destruct (recorded_default c) as [r|] eqn:Er; [case_bool_decide as Hb|]; destruct H as (H1 & H2 & _ & _ & H5);
    try done; [by rewrite H2|by rewrite H1|by rewrite H2].
Qed.

(** Any overrides leave a memory of the operator's window: either none differed from it and
    its text stands, or its number is recorded and the text now is a number. *)
Definition borrowed c0 c : Prop :=
  match recorded_default c with
  | Some r => _int_or_none r = configured_context c0 kind ∧ window_text kind c = pretty <$> configured_context c kind
  | None => window_text kind c = window_text kind c0
  end.
Definition differs c (n : Z) : bool := negb (bool_decide (Some n = configured_context c kind)).

Lemma overrides_remember c0 ns c :
  Forall (Z.le 1) ns → window_ok kind c → borrowed c0 c →
  let c' := foldl (λ c n, after_plan kind c (Some n) None None) c ns in
  window_ok kind c' ∧ kept_tokens (c_Cmd c') = kept_tokens (c_Cmd c) ∧
  configured_context c' kind = match last ns with Some n => Some n | None => configured_context c kind end ∧
  borrowed c0 c' ∧
  (is_Some (recorded_default c') ↔ is_Some (recorded_default c) ∨ existsb (differs c0) ns = true).
Proof.
  intros Hns. revert c. induction Hns as [|n ns Hn _ IH]; intros c Hok Hrec.
  { split_and!; [done..|]. cbn. naive_solver. }
  cbn [foldl]. destruct (after_override c n Hn Hok) as (Hc & Hok' & Hkept & Ht & Hr).
  set (c1 := after_plan kind c (Some n) None None) in *.
  assert (borrowed c0 c1 ∧ (is_Some (recorded_default c1) ↔ is_Some (recorded_default c) ∨ differs c0 n = true)) as [Hb1 Hs1].
  { unfold borrowed, differs in *. rewrite Hr. destruct (recorded_default c) as [r|].
    - split; [|split; [intros _; left|]; by eexists]. destruct Hrec as [Hrec Htxt]. split; [done|]. rewrite Hc.
      case_bool_decide as Hb; rewrite Ht; [by rewrite Htxt, <- Hb|done].
    - assert (configured_context c kind = configured_context c0 kind) as E by (by rewrite !configured_text, Hrec).
      rewrite <- E. case_bool_decide as Hb; cbn [negb]; rewrite Ht.
      + split; [done|]. split; [by intros [? ?]|by intros [[? ?]|?]].
      + split; [|split; [by right|intros _; by eexists]]. rewrite Hc. split; [|done].
        destruct (configured_context c kind) as [z|] eqn:Ez; [|done].
        apply int_or_none_pretty. by eapply configured_pos. }
  destruct (IH c1 Hok' Hb1) as (H1 & H2 & H3 & H4 & H5).
  split_and!; [done|congruence| |done|].
  - rewrite H3, Hc. rewrite last_cons. by destruct (last ns).
  - rewrite H5, Hs1. cbn [existsb]. rewrite orb_true_iff. tauto.
Qed.
End window.

(** C32: the window of a server is borrowed, and its number is given back.  For a container
    that carries no record of an earlier override and, for vLLM, whose command line gives
    every engine flag it names a value, one that does not start like a flag: after any sequence of overrides by positive windows
    the container serves the last one, and the part of the command line that identifies the
    memory profile never changes.  Restoring then gives back the window the operator had
    configured as the code reads it, a positive number or none; its text is the operator's
    own when no override differed from it, and that number in decimal otherwise.  So a
    window written as a plain number comes back to the letter, one that was not set is unset
    again, and one written in another way, such as [32k], is read as none and after an
    override is not given back: its flag is gone ([worded_window_is_lost]). *)
Theorem overrides_are_undone kind c ns :
  Forall (Z.le 1) ns → window_ok kind c → recorded_default c = None →
  let c' := foldl (λ c n, after_plan kind c (Some n) None None) c ns in
  let c'' := after_plan kind c' None None None in
  configured_context c' kind = match last ns with Some n => Some n | None => configured_context c kind end ∧
  configured_context c'' kind = configured_context c kind ∧
  window_text kind c'' =
    (if existsb (λ n, negb (bool_decide (Some n = configured_context c kind))) ns
     then pretty <$> configured_context c kind else window_text kind c) ∧
  kept_tokens (c_Cmd c') = kept_tokens (c_Cmd c) ∧ kept_tokens (c_Cmd c'') = kept_tokens (c_Cmd c).
Proof.
  intros Hns Hok Hrec. destruct (overrides_remember kind c ns c) as (H1 & H2 & H3 & H4 & H5);
    [done..|unfold borrowed; by rewrite Hrec|]. cbv zeta.
  set (c' := foldl _ c ns) in *. destruct (after_restore kind c' H1) as [Hr Hk].
  set (c'' := after_plan kind c' None None None) in *.
  assert (window_text kind c'' = if existsb (differs kind c) ns then pretty <$> configured_context c kind
                                 else window_text kind c) as Ht.
  { rewrite Hr. unfold borrowed in H4. rewrite Hrec in H5. destruct (recorded_default c') as [r|] eqn:Er.
    - destruct (proj1 H5) as [[? ?]| ->]; [by eexists|done|]. destruct H4 as [H4 Htxt].
      case_bool_decide as Hb; [by rewrite Htxt, <- Hb, H4|by rewrite H4].
    - destruct (existsb _ _) eqn:E; [|done]. destruct (proj2 H5) as [? ?]; [by right|done]. }
  split_and!; [done| |exact Ht|done|congruence].
  rewrite configured_text, Ht. destruct (existsb _ _); [|symmetry; apply configured_text].
  destruct (configured_context c kind) as [z|] eqn:Ez; [|done]. apply int_or_none_pretty.
  by eapply configured_pos.
Qed.

(** ** The pool and the concurrency *)

#[export] Instance Q_eq_dec : EqDecision Q.
Proof. solve_decision. Defined.

(** A pool fraction is printed and read back when it is a number of hundredths. *)
Definition hundredths : list Q := (λ k, Qred (Z.of_nat k # 100)) <$> seq 1 100.
Lemma hundredths_print :
  forallb (λ q, bool_decide (Txt.py_float (Txt.fixed2 q) = Some (Some q)) &&
    (bool_decide (Txt.py_float (Txt.fmt_g q) = Some (Some q)) && (PyStr.truthy (Txt.fmt_g q) &&
    (plain (Txt.fixed2 q) && (negb (Qle_bool q 0) && Qle_bool q 1))))) hundredths = true.
Proof. vm_compute. reflexivity. Qed.
Lemma hundredth q : q ∈ hundredths → Txt.py_float (Txt.fixed2 q) = Some (Some q) ∧
  Txt.py_float (Txt.fmt_g q) = Some (Some q) ∧ PyStr.truthy (Txt.fmt_g q) = true ∧
  plain (Txt.fixed2 q) = true ∧ Qle_bool q 0 = false ∧ Qle_bool q 1 = true.
Proof.
  intros Hq%list_elem_of_In. pose proof hundredths_print as H. rewrite forallb_forall in H.
  specialize (H q Hq). rewrite !andb_true_iff, !bool_decide_eq_true, negb_true_iff in H. exact H.
Qed.

Lemma dict_has_remember k v l : dict_get k (remember k v l) = Some (default v (dict_get k l)).
Proof.
  unfold remember, dict_has. destruct (dict_get k l) as [w|] eqn:E; simpl; [done|].
  apply dict_get_set_eq.
Qed.
Lemma dict_get_remember_ne k k' v l : k ≠ k' → dict_get k' (remember k v l) = dict_get k' l.
Proof. intros Hne. unfold remember. destruct (dict_has k l); [done|]. by apply dict_get_set_ne. Qed.

(** What a plan may be asked for: positive window and concurrency *)
Record ask := mkAsk { a_window : option Z; a_pool : option Q; a_seqs : option Z }.
Definition ask_ok (a : ask) : Prop :=
  (∀ n, a_window a = Some n → 1 ≤ n) ∧ (∀ n, a_seqs a = Some n → 1 ≤ n) ∧
  (∀ u, a_pool a = Some u → u ∈ hundredths).
Definition performed (c : container) (a : ask) : container :=
  after_plan VLLM c (a_window a) (a_pool a) (a_seqs a).

Lemma plan_window_labels c kind n k :
  k ≠ DEFAULT_LABEL → dict_get k (plan_window c kind n).2 = dict_get k (c_Labels c).
Proof.
  intros Hk. unfold plan_window. destruct n as [n|], (recorded_default c) as [r|];
    repeat case_bool_decide; cbn [snd]; rewrite ?dict_get_set_ne, ?dict_get_pop_ne by done; done.
Qed.
Lemma plan_window_plain c kind n change t v l :
  (∀ z, n = Some z → 1 ≤ z) → plan_window c kind n = (change, t, v, l) → plain_value v.
Proof.
  intros Hn. unfold plan_window. destruct n as [n|].
  - case_bool_decide; intros [= <- <- <- <-] v'; [done|]. intros [= <-]. by apply pretty_plain, Hn.
  - destruct (recorded_default c) as [r|]; [case_bool_decide|]; intros [= <- <- <- <-] v'; [done| |done].
    destruct (_int_or_none r) as [z|] eqn:Ez; [|done]. intros [= <-].
    by apply pretty_plain, (int_or_none_pos r).
Qed.

(** One conditional edit *)
Definition edited (f : string) (change : bool) (v : option string) (argv : list string) : list string :=
  if change then _argv_with_flag argv f v else argv.
Lemma edited_reads f change v argv :
  f ∈ _ENGINE_FLAGS → plain_value v → engine_ok argv →
  engine_ok (edited f change v argv) ∧
  _argv_flag (edited f change v argv) f = (if change then v else _argv_flag argv f) ∧
  ∀ g, g ∈ _ENGINE_FLAGS → g ≠ f → _argv_flag (edited f change v argv) g = _argv_flag argv g.
Proof.
  intros Hf Hv Hok. destruct change; cbn [edited]; [|done].
  split_and!; [by apply engine_ok_with_flag| |intros; by apply engine_flag_other].
  destruct v; [apply with_flag_reads|apply with_flag_removed]; auto using engine_flag_like, engine_ok_valued.
Qed.
Lemma when_some_edited f v argv :
  when_some (λ a, _argv_with_flag a f) v argv = edited f (is_not_null v) v argv.
Proof. by destruct v. Qed.

(** What one plan leaves on the command line, flag by flag *)
Definition window_read (c : container) (n : option Z) : option string :=
  let '(change, _, value, _) := plan_window c VLLM n in
  if change : bool then value else _argv_flag (c_Cmd c) CONTEXT_FLAG.
Definition pool_text (c : container) (u : option Q) : option string := (plan_utilization c VLLM u []).1.
Definition seqs_text (c : container) (s : option Z) : option string := (plan_max_seqs c VLLM s []).1.

Lemma pool_text_eq c u l : (plan_utilization c VLLM u l).1 = pool_text c u.
Proof. unfold pool_text, plan_utilization. destruct u; [|done]. cbn. by repeat case_match; simplify_eq. Qed.
Lemma seqs_text_eq c s l : (plan_max_seqs c VLLM s l).1 = seqs_text c s.
Proof. unfold seqs_text, plan_max_seqs. destruct s; [|done]. cbn. by repeat case_match; simplify_eq. Qed.
Lemma pool_text_plain c u : (∀ q, u = Some q → q ∈ hundredths) → plain_value (pool_text c u).
Proof.
  unfold pool_text, plan_utilization. intros Hu v. destruct u as [q|]; [|done]. cbn.
  destruct (match argv_utilization _ with Some _ => _ | None => _ end); [|done]. intros [= <-].
  by apply (hundredth q (Hu q eq_refl)).
Qed.
Lemma seqs_text_plain c s : (∀ n, s = Some n → 1 ≤ n) → plain_value (seqs_text c s).
Proof.
  unfold seqs_text, plan_max_seqs. intros Hs v. destruct s as [n|]; [|done]. cbn.
  case_bool_decide; [done|]. intros [= <-]. by apply pretty_plain, Hs.
Qed.

Lemma performed_reads c a :
  ask_ok a → engine_ok (c_Cmd c) →
  engine_ok (c_Cmd (performed c a)) ∧
  _argv_flag (c_Cmd (performed c a)) CONTEXT_FLAG = window_read c (a_window a) ∧
  _argv_flag (c_Cmd (performed c a)) UTILIZATION_FLAG =
    from_option Some (_argv_flag (c_Cmd c) UTILIZATION_FLAG) (pool_text c (a_pool a)) ∧
  _argv_flag (c_Cmd (performed c a)) MAX_SEQS_FLAG =
    from_option Some (_argv_flag (c_Cmd c) MAX_SEQS_FLAG) (seqs_text c (a_seqs a)).
Proof.
  intros (Hw & Hs & Hu) Hok. unfold performed.
  destruct (after_plan_vllm c (a_window a) (a_pool a) (a_seqs a)) as [-> _].
  unfold planned_argv, window_read. destruct (plan_window c VLLM (a_window a)) as [[[change t] v] l1] eqn:E.
  pose proof (pool_text_eq c (a_pool a) l1) as Hp. destruct (plan_utilization c VLLM (a_pool a) l1) as [uv l2].
  pose proof (seqs_text_eq c (a_seqs a) l2) as Hq. destruct (plan_max_seqs c VLLM (a_seqs a) l2) as [sv l3].
  cbn [fst] in Hp, Hq. rewrite <- Hp, <- Hq.
  change argv_with_max_seqs with (λ a, _argv_with_flag a MAX_SEQS_FLAG).
  change argv_with_utilization with (λ a, _argv_with_flag a UTILIZATION_FLAG).
  rewrite !when_some_edited. 
  change (if change then argv_with_context (c_Cmd c) v else c_Cmd c) with (edited CONTEXT_FLAG change v (c_Cmd c)).
  assert (∀ f, f ∈ [CONTEXT_FLAG; UTILIZATION_FLAG; MAX_SEQS_FLAG] → f ∈ _ENGINE_FLAGS) as Hin by done.
  destruct (edited_reads CONTEXT_FLAG change v (c_Cmd c)) as (Ho1 & Hr1 & Hg1);
    [apply Hin; set_solver|exact (plan_window_plain _ _ _ _ _ _ _ Hw E)|done|].
  edestruct (edited_reads UTILIZATION_FLAG (is_not_null uv) uv) as (Ho2 & Hr2 & Hg2);
    [apply Hin; set_solver|rewrite Hp; by apply pool_text_plain|exact Ho1|].
  edestruct (edited_reads MAX_SEQS_FLAG (is_not_null sv) sv) as (Ho3 & Hr3 & Hg3);
    [apply Hin; set_solver|rewrite Hq; by apply seqs_text_plain|exact Ho2|].
  split_and!; [done|..].
  - rewrite Hg3, Hg2, Hr1; [done|..]; first [apply Hin; set_solver|done].
  - rewrite Hg3, Hr2, Hg1; [by destruct uv|..]; first [apply Hin; set_solver|done].
  - rewrite Hr3, Hg2, Hg1; [by destruct sv|..]; first [apply Hin; set_solver|done].
Qed.

(** The labels of the pool after one plan *)
Lemma performed_pool_label c a :
  dict_get UTILIZATION_LABEL (c_Labels (performed c a)) =
  match pool_text c (a_pool a), dict_get UTILIZATION_LABEL (c_Labels c) with
  | Some _, None => Some (match argv_utilization (c_Cmd c) with Some v => Txt.fmt_g v | None => "" end)
  | _, l => l
  end.
Proof.
  unfold performed. destruct (after_plan_vllm c (a_window a) (a_pool a) (a_seqs a)) as [_ ->].
  pose proof (plan_window_labels c VLLM (a_window a) UTILIZATION_LABEL) as Hl.
  destruct (plan_window c VLLM (a_window a)) as [x l1]. cbn [snd] in Hl. rewrite <- Hl by done. clear Hl.
  destruct (plan_utilization c VLLM (a_pool a) l1) as [uv l2] eqn:E.
  assert (dict_get UTILIZATION_LABEL (plan_max_seqs c VLLM (a_seqs a) l2).2 = dict_get UTILIZATION_LABEL l2) as ->.
  { unfold plan_max_seqs. destruct (a_seqs a); [|done]. cbn. case_bool_decide; [done|].
    by apply dict_get_remember_ne. }
  rewrite <- (pool_text_eq c (a_pool a) l1), E. cbn [fst]. destruct uv as [s|].
  - unfold plan_utilization in E. destruct (a_pool a) as [u|]; [|done].
    rewrite String.eqb_refl in E. cbv zeta in E.
    destruct (match argv_utilization _ with Some _ => _ | None => _ end); simplify_eq.
    rewrite dict_has_remember. by destruct (dict_get _ l1).
  - by apply plan_utilization_id in E as ->.
Qed.

(** The pool the operator chose survives every start: however often the engine resizes
    window, pool and concurrency, the value it sizes the next start from is the one the
    operator wrote on the command line. *)
Lemma operator_pool_is_remembered c asks u :
  Forall ask_ok asks → engine_ok (c_Cmd c) →
  dict_get UTILIZATION_LABEL (c_Labels c) = None → argv_utilization (c_Cmd c) = Some u → u ∈ hundredths →
  operator_utilization (foldl performed c asks) = Some (Some u).
Proof.
  intros Hasks Hok Hl Hu Hh. destruct (hundredth u Hh) as (_ & Hg & Ht & _).
  assert (∀ c, dict_get UTILIZATION_LABEL (c_Labels c) = Some (Txt.fmt_g u) →
    operator_utilization c = Some (Some u)) as Hdone.
  { intros c' E. unfold operator_utilization. by rewrite E, Ht, Hg. }
  enough (dict_get UTILIZATION_LABEL (c_Labels (foldl performed c asks)) = Some (Txt.fmt_g u) ∨
    dict_get UTILIZATION_LABEL (c_Labels (foldl performed c asks)) = None ∧
    argv_utilization (c_Cmd (foldl performed c asks)) = Some u) as [E|[E1 E2]]; [auto| |].
  { unfold operator_utilization. by rewrite E1, E2. }
  assert (dict_get UTILIZATION_LABEL (c_Labels c) = Some (Txt.fmt_g u) ∨
    dict_get UTILIZATION_LABEL (c_Labels c) = None ∧ argv_utilization (c_Cmd c) = Some u ∧ engine_ok (c_Cmd c))
    as Hinv by auto. clear Hl Hu Hok. revert c Hinv.
  induction Hasks as [|a asks Ha _ IH]; intros c Hinv; [destruct Hinv as [?|(? & ? & _)]; auto|]. cbn [foldl]. apply IH.
  rewrite performed_pool_label. destruct Hinv as [E|(E1 & E2 & Hok)].
  { left. rewrite E. by destruct (pool_text _ _). }
  rewrite E1, E2. destruct (performed_reads c a Ha Hok) as (Hok' & _ & Hr & _).
  destruct (pool_text c (a_pool a)); [by left|]. right. split_and!; [done| |done].
  unfold argv_utilization in *. by rewrite Hr.
Qed.

Lemma far_from_itself u : Qle_bool (5 # 1000) (Qabs (u - u)) = false.
Proof.
  destruct u as [x d]. unfold Qminus, Qplus, Qopp. cbn [Qnum Qden].
  by replace (x * Z.pos d + - x * Z.pos d) with 0 by ring.
Qed.

(** A plan that was performed is settled: asking for the same window, pool and
    concurrency again plans nothing, so a container is never recreated in a loop. *)
Lemma performed_plan_is_settled c n u s :
  engine_ok (c_Cmd c) → 1 ≤ n → u ∈ hundredths → 1 ≤ s →
  plan_context (Some (performed c (mkAsk (Some n) (Some u) (Some s)))) VLLM (Some n) (Some u) (Some s) = None.
Proof.
  intros Hok Hn Hu Hs. set (a := mkAsk (Some n) (Some u) (Some s)).
  assert (ask_ok a) as Ha by (split_and!; by intros ? [= <-]).
  destruct (performed_reads c a Ha Hok) as (_ & Hw & Hp & Hq). set (c' := performed c a) in *.
  destruct (hundredth u Hu) as (Hfix & _ & _ & _ & Hlo & Hhi).
  assert (configured_context c' VLLM = Some n) as Hc.
  { unfold configured_context. rewrite String.eqb_refl, argv_context_flag, Hw. unfold window_read, plan_window.
    cbn [a_window a]. case_bool_decide as Hb; [|cbn; by apply int_or_none_pretty].
    rewrite Hb. unfold configured_context. by rewrite String.eqb_refl, argv_context_flag. }
  assert (∃ v, argv_utilization (c_Cmd c') = Some v ∧ Qle_bool (5 # 1000) (Qabs (v - u)) = false) as (v & Hv & Hfar).
  { unfold argv_utilization. rewrite Hp. unfold pool_text, plan_utilization. cbn [a_pool a].
    rewrite String.eqb_refl. destruct (argv_utilization (c_Cmd c)) as [w|] eqn:Ew.
    - destruct (Qle_bool (5 # 1000) (Qabs (w - u))) eqn:Ef; cbn [fst from_option].
      + exists u. rewrite Hfix, Hlo, Hhi. split; [done|apply far_from_itself].
      + unfold argv_utilization in Ew. exists w. split; [exact Ew|done].
    - cbn [fst from_option]. exists u. rewrite Hfix, Hlo, Hhi. split; [done|apply far_from_itself]. }
  assert (argv_max_seqs (c_Cmd c') = Some s) as Hm.
  { unfold argv_max_seqs. rewrite Hq. unfold seqs_text, plan_max_seqs. cbn [a_seqs a]. rewrite String.eqb_refl.
    case_bool_decide as Hb; cbn; [exact Hb|]. by apply int_or_none_pretty. }
  unfold plan_context, plan_window, plan_utilization, plan_max_seqs.
  rewrite Hc, bool_decide_true, String.eqb_refl, Hv, Hfar, Hm, bool_decide_true by done. done.
Qed.

(** ** The network identity *)

(** An alias of an endpoint, and what the replacement keeps of it *)
Definition aliases (ep : dict) : list string :=
  match dict_get "Aliases" ep with Some (JArr l) => omap (λ x, match x with JStr s => Some s | _ => None end) l | _ => [] end.

Lemma endpoint_get config drop k :
  k ∈ _ENDPOINT_KEYS → dict_get k (_endpoint config drop) = endpoint_value config (List.filter PyStr.truthy drop) k.
Proof.
  unfold _endpoint. generalize (List.filter PyStr.truthy drop) as dropped. intros dropped.
  assert (∀ ks, dict_get k (omap (λ key, pair key <$> endpoint_value config dropped key) ks) =
    if bool_decide (k ∈ ks) then endpoint_value config dropped k else None) as H.
  { induction ks as [|k' ks IH]; [done|]. cbn [omap list_omap].
    destruct (String.eqb_spec k k') as [<-|Hne].
    - rewrite (bool_decide_true (k ∈ k :: ks)) by left. destruct (endpoint_value config dropped k) eqn:E; cbn.
      + by rewrite String.eqb_refl.
      + rewrite IH. by case_bool_decide.
    - assert (bool_decide (k ∈ k' :: ks) = bool_decide (k ∈ ks)) as -> by (apply bool_decide_ext; set_solver).
      destruct (endpoint_value config dropped k'); cbn; [|done]. apply String.eqb_neq in Hne. by rewrite Hne. }
  intros Hk. by rewrite H, bool_decide_true.
Qed.

Lemma endpoint_aliases config drop s :
  s ∈ aliases config → s ∉ drop → s ∈ aliases (_endpoint config drop).
Proof.
  intros Hs Hd. unfold aliases in *. rewrite endpoint_get by (unfold _ENDPOINT_KEYS; set_solver).
  unfold endpoint_value. destruct (dict_get "Aliases" config) as [[| | | | |l|]|]; try set_solver.
  rewrite String.eqb_refl. apply list_elem_of_omap in Hs as (x & Hx & E).
  destruct x as [| | | |t| |]; simplify_eq.
  assert (JStr s ∈ List.filter (keep_alias (List.filter PyStr.truthy drop)) l) as Hin.
  { apply elem_of_Lfilter. split; [done|]. cbn. apply negb_true_iff, bool_decide_eq_false.
    intros [? _]%elem_of_Lfilter. done. }
  set (l' := List.filter _ l) in *. replace (truthy (JArr l')) with true; cycle 1.
  { destruct l'; [set_solver|done]. }
  apply list_elem_of_omap. by exists (JStr s).
Qed.

Lemma filter_first_perm {V} (l : list (string * V)) k v :
  NoDup l.*1 → dict_get k l = Some v → (k, v) :: List.filter (λ nd, negb (String.eqb nd.1 k)) l ≡ₚ l.
Proof.
  induction l as [|[k' v'] l IH]; [done|]. intros [Hk Hl]%NoDup_cons. cbn.
  destruct (String.eqb_spec k k') as [<-|Hne].
  - intros [= ->]. rewrite String.eqb_refl. cbn. rewrite Lfilter_all; [done|].
    intros [j w] Hj. apply negb_true_iff, String.eqb_neq. cbn. intros ->. apply Hk.
    apply list_elem_of_fmap. by exists (k, w).
  - intros Hg. rewrite String.eqb_sym. apply String.eqb_neq in Hne. rewrite Hne. cbn.
    rewrite Permutation_swap. by rewrite IH.
Qed.

(** A replacement keeps the network identity of the container: every network it was on
    is either part of the create call or connected after it, exactly once, with the
    aliases other containers dial it by; only the old container's own id is dropped. *)
Lemma networks_are_carried c :
  shares_namespace (network_mode c) = false → NoDup (c_Networks c).*1 → c_Networks c ≠ [] →
  (∃ first, (networking c).1 = Some first ∧
    first :: (networking c).2 ≡ₚ (λ nd, (nd.1, _endpoint nd.2 [PyStr.take 12 (c_Id c)])) <$> c_Networks c) ∧
  ∀ net ep s, (net, ep) ∈ c_Networks c → s ∈ aliases ep → s ≠ PyStr.take 12 (c_Id c) →
    s ∈ aliases (_endpoint ep [PyStr.take 12 (c_Id c)]).
Proof.
  intros Hns Hnd Hne. split; [|intros net ep s _ Hs Hid; apply endpoint_aliases; set_solver].
  unfold networking. rewrite Hns. destruct (c_Networks c) as [|[n0 e0] r] eqn:En; [done|].
  set (first := if dict_has _ _ then _ else _).
  assert (∃ ep, dict_get first ((n0, e0) :: r) = Some ep) as (ep & Hep).
  { unfold first, dict_has. destruct (dict_get (network_mode c) ((n0, e0) :: r)) as [ep|] eqn:E; cbn [is_not_null is_null negb].
    - eauto.
    - exists e0. cbn. by rewrite String.eqb_refl. }
  rewrite Hep. cbn [default fst snd]. eexists. split; [done|].
  change ((first, ?x) :: ?l) with ([(first, x)] ++ l).
  rewrite <- (filter_first_perm _ first ep Hnd Hep) at 2. done.
Qed.

(** ** Where the memory of the operator's setting falls short *)

(** The pool of an operator who set none is not remembered: the first lowered value is
    taken for the operator's own from then on. *)
Theorem unset_pool_is_not_remembered c u :
  engine_ok (c_Cmd c) → dict_get UTILIZATION_LABEL (c_Labels c) = None →
  argv_utilization (c_Cmd c) = None → u ∈ hundredths →
  operator_utilization c = None ∧
  operator_utilization (performed c (mkAsk None (Some u) None)) = Some (Some u).
Proof.
  intros Hok Hl Hu Hh. set (a := mkAsk None (Some u) None).
  assert (ask_ok a) as Ha by (split_and!; [done|done|by intros ? [= <-]]).
  destruct (performed_reads c a Ha Hok) as (_ & _ & Hr & _). pose proof (performed_pool_label c a) as Hlab.
  unfold pool_text, plan_utilization in Hr, Hlab. cbn [a_pool a] in Hr, Hlab.
  rewrite String.eqb_refl, Hu in Hr, Hlab. rewrite Hl in Hlab. cbn [fst from_option] in Hr, Hlab.
  destruct (hundredth u Hh) as (Hfix & _ & _ & _ & Hlo & Hhi).
  split; [by unfold operator_utilization; rewrite Hl, Hu|].
  unfold operator_utilization. rewrite Hlab. cbn [PyStr.truthy String.eqb negb].
  unfold argv_utilization. by rewrite Hr, Hfix, Hlo, Hhi.
Qed.

(** ** Concrete containers *)

Module Box.
Definition vllm : container :=
  {| c_Id := "4f1c2ab9d0e37788aa"; c_Image := JStr "vllm/vllm-openai:v0.9";
     c_Cmd := ["--model"; "/models/q"; "--max-model-len"; "32768"; "--gpu-memory-utilization=0.85"; "--dtype"; "auto"];
     c_Env := ["HF_HOME=/models"]; c_Labels := [("team", "ml")]; c_ExposedPorts := [];
     c_Entrypoint := JNull; c_WorkingDir := ""; c_HostConfig := [("NetworkMode", JStr "llm")];
     c_Networks := [("bridge", [("IPAddress", JStr "172.17.0.4")]);
                    ("llm", [("Aliases", JArr [JStr "vllm"; JStr "4f1c2ab9d0e3"]); ("IPAddress", JStr "10.0.0.2")])];
     c_Running := true; c_StartedAt := "2026-01-05T10:00:00Z" |}.
Definition ollama : container :=
  {| c_Id := "aa"; c_Image := JStr "ollama/ollama"; c_Cmd := ["serve"];
     c_Env := ["OLLAMA_KEEP_ALIVE=5m"; "OLLAMA_CONTEXT_LENGTH=8192"; "OLLAMA_NUM_PARALLEL=4"];
     c_Labels := []; c_ExposedPorts := []; c_Entrypoint := JNull; c_WorkingDir := "";
     c_HostConfig := [("NetworkMode", JStr "host")]; c_Networks := []; c_Running := true; c_StartedAt := "" |}.
(** An operator who gave vLLM its window in words, and no pool *)
Definition worded : container :=
  {| c_Id := "bb"; c_Image := JStr "vllm/vllm-openai:v0.9"; c_Cmd := ["--model"; "/models/q"; "--max-model-len"; "32k"];
     c_Env := []; c_Labels := []; c_ExposedPorts := []; c_Entrypoint := JNull; c_WorkingDir := "";
     c_HostConfig := []; c_Networks := []; c_Running := true; c_StartedAt := "" |}.
End Box.

Lemma vllm_engine_ok : engine_ok (c_Cmd Box.vllm).
Proof. by repeat constructor. Qed.

(** The window given in words is not one the code reads: the override forgets it, and the
    restore removes the flag instead of giving it back. *)
Theorem worded_window_is_lost :
  let c' := after_plan VLLM Box.worded (Some 65536) None None in
  let c'' := after_plan VLLM c' None None None in
  _argv_flag (c_Cmd Box.worded) CONTEXT_FLAG = Some "32k" ∧
  _argv_flag (c_Cmd c') CONTEXT_FLAG = Some "65536" ∧ _argv_flag (c_Cmd c'') CONTEXT_FLAG = None.
Proof. vm_compute. done. Qed.

Lemma overrides_are_undone_witness :
  configured_context (foldl (λ c n, after_plan VLLM c (Some n) None None) Box.vllm [65536; 131072]) VLLM = Some 131072 ∧
  configured_context (after_plan VLLM (foldl (λ c n, after_plan VLLM c (Some n) None None) Box.vllm [65536; 131072])
    None None None) VLLM = Some 32768 ∧
  configured_context (after_plan OLLAMA (after_plan OLLAMA Box.ollama (Some 65536) None None) None None None) OLLAMA = Some 8192.
Proof.
  assert (Forall (Z.le 1) [65536; 131072]) as Hns by (repeat constructor; lia).
  destruct (overrides_are_undone VLLM Box.vllm [65536; 131072] Hns (λ _, vllm_engine_ok) eq_refl) as (H1 & H2 & _).
  assert (Forall (Z.le 1) [65536]) as Hn by (repeat constructor; lia).
  destruct (overrides_are_undone OLLAMA Box.ollama [65536] Hn) as (_ & H3 & _); [by intros [=]|reflexivity|].
  split_and!; [exact H1|exact H2|exact H3].
Defined.

Lemma operator_pool_is_remembered_witness :
  operator_utilization (foldl performed Box.vllm
    [mkAsk (Some 65536) (Some (1 # 2)) (Some 4); mkAsk None (Some (3 # 10)) None]) = Some (Some (17 # 20)).
Proof.
  assert (∀ a, a ∈ [mkAsk (Some 65536) (Some (1 # 2)) (Some 4); mkAsk None (Some (3 # 10)) None] → ask_ok a) as Ha.
  { intros a [->|[->|Ha%not_elem_of_nil]%elem_of_cons]%elem_of_cons; [| |done];
      (split_and!; intros z [= <-]; [lia..|apply (bool_decide_unpack _); vm_compute; exact I]) ||
      (split_and!; [done|done|intros z [= <-]; apply (bool_decide_unpack _); vm_compute; exact I]). }
  apply operator_pool_is_remembered; [by apply Forall_forall|exact vllm_engine_ok|vm_compute; reflexivity..|].
  apply (bool_decide_unpack _). vm_compute. exact I.
Defined.

Lemma networks_are_carried_witness :
  "vllm" ∈ aliases (_endpoint [("Aliases", JArr [JStr "vllm"; JStr "4f1c2ab9d0e3"]); ("IPAddress", JStr "10.0.0.2")] ["4f1c2ab9d0e3"]) ∧
  (networking Box.vllm).2 = [("bridge", [])].
Proof.
  destruct (networks_are_carried Box.vllm) as [_ H]; [reflexivity| |discriminate|].
  - apply (bool_decide_unpack _). vm_compute. exact I.
  - split; [|reflexivity]. apply (H "llm"); [| |discriminate].
    + right. left.
    + vm_compute. left.
Defined.
