(* ===== verification/ContextLever.v ===== *)
(** * The lever on a server's container ([queue_workflows/llm_context_lever.py],
      [llm_backends/vllm_sidecar.py], [llm_backends/vllm.py], [llm_backends/docker_api.py])

    The calls that replace a container: the window lever with its verdicts, the model
    switch of the vLLM sidecar, the cached description of a container, and the framed log
    docker answers.  What the docker daemon answers to a call, an exception included, is a
    function of the calls made before it.  The wording of a verdict's reason is left out. *)

From S2P Require Import Prelude Json PyText Refs Schema NodeQueue Claim Reclaim Watchdogs WorkerLanes.
From S2P Require Import ServerSwitch ServerContext.
Local Open Scope string_scope.
Local Open Scope list_scope.
Local Open Scope Z_scope.

Record call := mkCall { method : string; path : string; body : option json }.
#[export] Instance json_opt_call_inh : Inhabited call := populate (mkCall "" "" None).

(** The docker daemon: the answer to an inspect (None when the body is not an object),
    and to any other call; the history is newest first *)
Class Docker := {
  on_inspect : list call → string → result (Z * option container);
  on_call : list call → call → result (Z * json);
}.

(** A program over the daemon threads the history. *)
Definition L (A : Type) := list call → A * list call.
Definition retL {A} (a : A) : L A := λ h, (a, h).

Section lever.
Context `{PyEnv} `{WorkerEnv} `{Docker}.

Definition api_inspect (name : string) : L (result (Z * option container)) := λ h,
  (on_inspect h name, mkCall "GET" ("/containers/" +:+ name +:+ "/json") None :: h).
Definition api (m p : string) (b : option json) : L (result (Z * json)) := λ h,
  (on_call h (mkCall m p b), mkCall m p b :: h).

(** ** Names and verdicts *)

Definition LEVER_DISABLE_ENV : string := "QUEUE_WORKFLOWS_DISABLE_LLM_CONTEXT_SWITCH".
Definition _CONTAINER_ENV : list (string * string) :=
  [(OLLAMA, "QUEUE_WORKFLOWS_OLLAMA_CONTAINER"); (VLLM, "QUEUE_WORKFLOWS_VLLM_CONTAINER")].
Definition _DEFAULT_CONTAINER : list (string * string) := [(OLLAMA, "broker-ollama"); (VLLM, "vllm")].
Definition DESCRIBE_TTL_S : Z := 20 * 1000000.
Definition _PERMANENT_HTTP : list Z := [400; 403; 404; 409; 501].
Definition START_RACE_RETRIES : nat := 3.

Definition container_name (kind : string) : result string :=
  raw ← env_get (default "" (dict_get kind _CONTAINER_ENV)) None;
  let s := PyStr.strip (default "" raw) in
  Ok (if PyStr.truthy s then s else default kind (dict_get kind _DEFAULT_CONTAINER)).

(** [config._env_flag] *)
Definition _env_flag (name : string) : result bool :=
  raw ← env_get name None;
  Ok (match raw with
      | Some s => PyStr.truthy s && bool_decide (PyStr.lower (PyStr.strip s) ∈ ["1"; "true"; "yes"; "on"])
      | None => false
      end).
Definition disabled : result bool := _env_flag LEVER_DISABLE_ENV.

Definition _classify_http (code : Z) : string :=
  if bool_decide (code ∈ _PERMANENT_HTTP) then PERMANENT else TRANSIENT.
(** A missing or unreadable socket will not mend itself. *)
Definition _classify_exception (e : exc) : string :=
  if bool_decide (e = OtherError "FileNotFoundError") || bool_decide (e = OtherError "PermissionError")
  then PERMANENT else TRANSIENT.

(** ** The window lever *)

Definition _detached (c : container) : bool :=
  if shares_namespace (network_mode c) then false
  else match c_Networks c with [] => true | _ => false end.

Definition _stop_quietly (name : string) : L unit := λ h,
  ((), (api "POST" ("/containers/" +:+ name +:+ "/stop?t=5") None h).2).

Definition says (word : string) (b : json) : bool := PyStr.contains word (PyStr.lower (py_str b)).

Definition _classify_start_failure (name : string) (status : Z) (b : json) : L string := λ h,
  let '(_, h) := _stop_quietly name h in
  (if says "connectivity" b || says "already allocated" b then PERMANENT else _classify_http status, h).

Definition start_call (name : string) : call := mkCall "POST" ("/containers/" +:+ name +:+ "/start") None.
(** [n] more tries after a start that lost the race for its port *)
Fixpoint start_retries (n : nat) (name : string) (r : Z * json) : L (result (Z * json)) := λ h,
  match n with
  | O => (Ok r, h)
  | S n' =>
      if (400 <=? r.1) && says "connectivity" r.2 then
        let '(r', h) := api "POST" (path (start_call name)) None h in
        match r' with Ok r' => start_retries n' name r' h | Raise e => (Raise e, h) end
      else (Ok r, h)
  end.
Definition _start_with_port_race_retry (name : string) : L (result (Z * json)) := λ h,
  let '(r, h) := api "POST" (path (start_call name)) None h in
  match r with Ok r => start_retries START_RACE_RETRIES name r h | Raise e => (Raise e, h) end.

(** A start, and what it is worth: both branches of [_docker_set_context] end in it *)
Definition start_verdict (name : string) : L string := λ h,
  let '(r, h) := _start_with_port_race_retry name h in
  match r with
  | Raise e => (_classify_exception e, h)
  | Ok (status, b) =>
      if (400 <=? status) && negb (status =? 304) then _classify_start_failure name status b h
      else (STARTED, h)
  end.

(** The networks beyond the first: an error status is only logged, an exception ends the
    attempt *)
Fixpoint connect_all (name : string) (nets : list (string * dict)) : L (result ()) := λ h,
  match nets with
  | [] => (Ok (), h)
  | (network, ep) :: r =>
      let '(a, h) := api "POST" ("/networks/" +:+ network +:+ "/connect")
                       (Some (JObj [("Container", JStr name); ("EndpointConfig", JObj ep)])) h in
      match a with Ok _ => connect_all name r h | Raise e => (Raise e, h) end
  end.

(** Stop, remove, create, connect, start *)
Definition perform_plan (name : string) (p : ContextPlan) : L string := λ h,
  let '(r, h) := api "POST" ("/containers/" +:+ name +:+ "/stop?t=10") None h in
  match r with
  | Raise e => (_classify_exception e, h)
  | Ok _ =>
      let '(r, h) := api "DELETE" ("/containers/" +:+ name +:+ "?force=1") None h in
      match r with
      | Raise e => (_classify_exception e, h)
      | Ok (status, _) =>
          if (400 <=? status) && negb (status =? 404) then (_classify_http status, h) else
          let '(r, h) := api "POST" ("/containers/create?name=" +:+ name) (Some (JObj (payload p))) h in
          match r with
          | Raise e => (_classify_exception e, h)
          | Ok (status, _) =>
              if 400 <=? status then (_classify_http status, h) else
              let '(r, h) := connect_all name (connect p) h in
              match r with
              | Raise e => (_classify_exception e, h)
              | Ok _ => start_verdict name h
              end
          end
      end
  end.

(** The verdict, and whether a plan was carried out *)
Definition _docker_set_context (name kind : string) (context_length : option Z) (utilization : option Q)
    (max_num_seqs : option Z) : L (string * bool) := λ h,
  let untouched := λ vh : string * list call, ((vh.1, false), vh.2) in
  let '(r, h) := api_inspect name h in
  match r with
  | Raise e => untouched (_classify_exception e, h)
  | Ok (status, data) =>
      match data with
      | None => untouched (PERMANENT, h)
      | Some c =>
          if status =? 404 then untouched (PERMANENT, h)
          else if 400 <=? status then untouched (_classify_http status, h)
          else match plan_context (Some c) kind context_length utilization max_num_seqs with
               | None =>
                   untouched (if c_Running c then
                                if _detached c then let '(_, h) := _stop_quietly name h in (PERMANENT, h)
                                else (ALREADY_RUNNING, h)
                              else start_verdict name h)
               | Some p => let '(v, h) := perform_plan name p h in ((v, true), h)
               end
      end
  end.

(** A container as [describe] reports it; the answers are kept per kind *)
Record ServerContainer := mkServer {
  sc_kind : string;
  sc_name : string;
  sc_exists : bool;
  sc_running : bool;
  sc_configured : option Z;
  sc_default : option Z;
  sc_overridden : bool;
  sc_utilization : option (option Q);
  sc_utilization_now : option Q;
  sc_max_num_seqs : option Z;
  sc_max_num_seqs_now : option Z;
  sc_served_name : option string;
  sc_fingerprint : option string;
  sc_container_id : option string;
  sc_started_at : option string;
}.
Definition no_server (kind name : string) : ServerContainer :=
  mkServer kind name false false None None false None None None None None None None None.
Abbreviation describe_cache := (list (string * (Z * ServerContainer))).

Definition only_vllm {A} (kind : string) (a : option A) : option A :=
  if String.eqb kind VLLM then a else None.
Definition truthy_text (s : string) : option string := if PyStr.truthy s then Some s else None.
Definition server_of (sha1 : string → string) (kind name : string) (c : container) : ServerContainer :=
  let recorded := recorded_default c in
  mkServer kind name true (c_Running c) (configured_context c kind)
    (match recorded with Some r => if PyStr.truthy r then _int_or_none r else None | None => None end)
    (is_not_null recorded)
    (only_vllm kind (operator_utilization c)) (only_vllm kind (argv_utilization (c_Cmd c)))
    (only_vllm kind (operator_max_seqs c)) (only_vllm kind (argv_max_seqs (c_Cmd c)))
    (only_vllm kind (argv_served_name (c_Cmd c)))
    (only_vllm kind (Some (argv_fingerprint sha1 (c_Cmd c))))
    (truthy_text (c_Id c)) (truthy_text (c_StartedAt c)).

(** [describe] at the instant [now], in microseconds *)
Definition describe (sha1 : string → string) (kind : string) (ttl now : Z) (cache : describe_cache)
    : L (result (ServerContainer * describe_cache)) := λ h,
  match container_name kind with
  | Raise e => (Raise e, h)
  | Ok name =>
      let ask := λ _ : (),
        let '(r, h) := api_inspect name h in
        let info := match r with
                    | Ok (status, Some c) => if 400 <=? status then no_server kind name else server_of sha1 kind name c
                    | _ => no_server kind name
                    end in
        (Ok (info, dict_set kind (now, info) cache), h) in
      match dict_get kind cache with
      | Some (at_, info) =>
          if (now - at_ <? ttl) && String.eqb (sc_name info) name then (Ok (info, cache), h) else ask ()
      | None => ask ()
      end
  end.

(** [available]; [host_lever] tells whether the host wired its own *)
Definition available (sha1 : string → string) (host_lever : bool) (kind : string) (now : Z) (cache : describe_cache)
    : L (result (bool * describe_cache)) := λ h,
  match disabled with
  | Raise e => (Raise e, h)
  | Ok true => (Ok (false, cache), h)
  | Ok false =>
      if host_lever then (Ok (true, cache), h)
      else let '(r, h) := describe sha1 kind DESCRIBE_TTL_S now cache h in
           ((λ ic, (sc_exists ic.1, ic.2)) <$> r, h)
  end.

(** The host's own lever: what calling it gave *)
Definition host_answer (r : result lever_value) : lever_value :=
  match r with
  | Raise _ => LOutcome (mkOutcome TRANSIENT "")
  | Ok (LDict d) => LDict d
  | Ok v => LOutcome (coerce v)
  end.

(** [set_context]; the cache forgets the kind whenever a plan was carried out *)
Definition set_context (host_lever : option (result lever_value)) (kind : string) (context_length : option Z)
    (utilization : option Q) (max_num_seqs : option Z) (cache : describe_cache)
    : L (result (lever_value * describe_cache)) := λ h,
  match disabled with
  | Raise e => (Raise e, h)
  | Ok true => (Ok (LOutcome (mkOutcome PERMANENT ""), cache), h)
  | Ok false =>
      match host_lever with
      | Some r => (Ok (host_answer r, cache), h)
      | None =>
          match container_name kind with
          | Raise e => (Raise e, h)
          | Ok name =>
              let '(status, performed, h) := _docker_set_context name kind context_length utilization max_num_seqs h in
              (Ok (LOutcome (mkOutcome status ""), if performed then dict_pop kind cache else cache), h)
          end
      end
  end.

(** ** The model switch of the sidecar *)

Definition _MODEL_FLAG : string := "--model".

Fixpoint current_model (argv : list string) : option string :=
  match argv with
  | [] => None
  | tok :: r =>
      match String.eqb tok _MODEL_FLAG, r with
      | true, v :: _ => Some v
      | _, _ => if joined _MODEL_FLAG tok then Some (after_equals tok) else current_model r
      end
  end.

(** The first occurrence is rewritten; None when there is none *)
Fixpoint swap_model (argv : list string) (model_id : string) : option (list string) :=
  match argv with
  | [] => None
  | tok :: r =>
      match String.eqb tok _MODEL_FLAG, r with
      | true, _ :: r' => Some (tok :: model_id :: r')
      | _, _ => if joined _MODEL_FLAG tok then Some ((_MODEL_FLAG +:+ "=" +:+ model_id) :: r)
                else cons tok <$> swap_model r model_id
      end
  end.
Definition desired_argv (argv : list string) (model_id : string) : list string :=
  match swap_model argv model_id with Some out => out | None => argv ++ [_MODEL_FLAG; model_id] end.

Record SidecarSpec := mkSidecar { ss_name : string; ss_running : bool; ss_argv : list string; ss_image : json }.

Definition _docker_inspect_sidecar (name : string) : L (result (option SidecarSpec)) := λ h,
  let '(r, h) := api_inspect name h in
  (match r with
   | Raise e => Raise e
   | Ok (status, data) =>
       if status =? 404 then Ok None
       else match data with
            | Some c => if 400 <=? status then Raise (RuntimeError "docker inspect")
                        else Ok (Some (mkSidecar name (c_Running c) (c_Cmd c) (c_Image c)))
            | None => Raise (RuntimeError "docker inspect")
            end
   end, h).

Definition _docker_recreate_sidecar (name : string) (argv : list string) : L (result ()) := λ h,
  let '(r, h) := api_inspect name h in
  match r with
  | Raise e => (Raise e, h)
  | Ok (status, Some c) =>
      if 400 <=? status then (Raise (RuntimeError "docker inspect"), h) else
      let body := recreate_payload c (Some argv) None None in
      let '(r, h) := api "POST" ("/containers/" +:+ name +:+ "/stop?t=10") None h in
      match r with
      | Raise e => (Raise e, h)
      | Ok _ =>
          let '(r, h) := api "DELETE" ("/containers/" +:+ name +:+ "?force=1") None h in
          match r with
          | Raise e => (Raise e, h)
          | Ok (status, _) =>
              if (400 <=? status) && negb (status =? 404) then (Raise (RuntimeError "could not remove sidecar"), h) else
              let '(r, h) := api "POST" ("/containers/create?name=" +:+ name) (Some (JObj body)) h in
              match r with
              | Raise e => (Raise e, h)
              | Ok (status, _) =>
                  if 400 <=? status then (Raise (RuntimeError "could not create sidecar"), h) else
                  let '(r, h) := api "POST" (path (start_call name)) None h in
                  (match r with
                   | Raise e => Raise e
                   | Ok (status, _) => if (400 <=? status) && negb (status =? 304)
                                       then Raise (RuntimeError "could not start sidecar") else Ok ()
                   end, h)
              end
          end
      end
  | Ok (_, None) => (Raise (RuntimeError "docker inspect"), h)
  end.

Definition ensure_sidecar (name model_id : string) : L (result bool) := λ h,
  let '(r, h) := _docker_inspect_sidecar name h in
  match r with
  | Raise e => (Raise e, h)
  | Ok None => (Raise (RuntimeError "no vLLM sidecar"), h)
  | Ok (Some spec) =>
      if ss_running spec && bool_decide (current_model (ss_argv spec) = Some model_id) then (Ok false, h)
      else let '(r, h) := _docker_recreate_sidecar (ss_name spec) (desired_argv (ss_argv spec) model_id) h in
           ((λ _, true) <$> r, h)
  end.
End lever.

(** ** The framed log *)

Definition bytes := list Z.
Definition be32 (b : bytes) : Z := foldl (λ acc x, 256 * acc + x) 0 b.
Definition is_header (raw : bytes) : bool :=
  match raw with
  | t :: 0 :: 0 :: 0 :: _ => bool_decide (t ∈ [0; 1; 2])
  | _ => false
  end.
(** The loop of [demux_stream]: each round passes over at least the eight bytes of a header *)
Fixpoint frames (fuel : nat) (raw : bytes) : bytes :=
  match fuel with
  | O => []
  | S fuel' =>
      if (length raw <? 8)%nat then []
      else if negb (is_header raw) then raw
      else let size := Z.to_nat (be32 (take 4 (drop 4 raw))) in
           take size (drop 8 raw) ++ frames fuel' (drop (8 + size) raw)
  end.
(** The bytes that are decoded *)
Definition demux_bytes (raw : bytes) : bytes :=
  if (length raw <? 8)%nat || negb (is_header raw) then raw else frames (length raw) raw.
Definition demux_stream (decode : bytes → string) (raw : bytes) : string :=
  match raw with [] => "" | _ => decode (demux_bytes raw) end.

(** What the log call asks for: the window of the start, or the tail *)
Definition STARTUP_LOG_TAIL : Z := 4000.
Definition STARTUP_WINDOW_S : Z := 1800.
Definition log_window (started : option Z) (tail : Z) : string :=
  match started with
  | Some t => "since=" +:+ pretty (t - 1) +:+ "&until=" +:+ pretty (t + STARTUP_WINDOW_S)
  | None => "tail=" +:+ pretty tail
  end.
(** [raw_fn] answers the log call; [_epoch] reads docker's instant *)
Definition vllm_startup_log (decode : bytes → string) (_epoch : string → option Z)
    (raw_fn : string → result (Z * bytes)) (name : string) (tail : Z) (started_at : option string) : option string :=
  let window := log_window (started_at ≫= _epoch) tail in
  match raw_fn ("/containers/" +:+ name +:+ "/logs?stdout=1&stderr=1&" +:+ window) with
  | Ok (status, raw) => if 400 <=? status then None else Some (demux_stream decode raw)
  | Raise _ => None
  end.

(** ** The order of a replacement *)

Section lever_lemmas.
Context `{PyEnv} `{WorkerEnv} `{Docker}.
Implicit Types (h : list call) (name : string) (p : ContextPlan).

Lemma repeat_snoc {A} (x : A) k (l : list A) : repeat x k ++ x :: l = repeat x (S k) ++ l.
Proof. cbn. induction k as [|k IH]; [done|]. cbn. by rewrite IH. Qed.

(** The answer to the start that follows [i] others *)
Definition tried name h (i : nat) : result (Z * json) :=
  on_call (repeat (start_call name) i ++ h) (start_call name).
Definition lost_race (r : result (Z * json)) : bool :=
  match r with Ok (status, b) => (400 <=? status) && says "connectivity" b | Raise _ => false end.
Definition start_failed (r : result (Z * json)) : bool :=
  match r with Ok (status, _) => (400 <=? status) && negb (status =? 304) | Raise _ => false end.
Definition quiet_stop name : call := mkCall "POST" ("/containers/" +:+ name +:+ "/stop?t=5") None.

(** [m] tries follow the first, each because the one before lost the race, and the last
    of four is the last whatever it lost. *)
Definition retried name h (m most : nat) : Prop :=
  (m ≤ most)%nat ∧ (∀ i, (i < m)%nat → lost_race (tried name h i) = true) ∧
  ((m < most)%nat → lost_race (tried name h m) = false).
Lemma tried_next name h i : tried name (start_call name :: h) i = tried name h (S i).
Proof. unfold tried. by rewrite repeat_snoc. Qed.
Lemma start_retries_spec n name r h :
  tried name h 0 = Ok r →
  ∃ m, retried name h m n ∧
    start_retries n name r (start_call name :: h) = (tried name h m, repeat (start_call name) (S m) ++ h).
Proof.
  revert r h. induction n as [|n IH]; intros r h Hr.
  { exists O. split; [|cbn; by rewrite Hr]. split_and!; [done|lia|lia]. }
  cbn [start_retries]. assert (lost_race (tried name h 0) = (400 <=? r.1) && says "connectivity" r.2) as Hl
    by (rewrite Hr; by destruct r). rewrite <- Hl.
  destruct (lost_race (tried name h 0)) eqn:E; [|exists O; split; [|cbn; by rewrite Hr]; split_and!; [lia|lia|done]].
  unfold api. change (mkCall "POST" (path (start_call name)) None) with (start_call name). cbn [fst snd].
  pose proof (tried_next name h) as Hn. pose proof (Hn O) as Hn0. unfold tried in Hn0 at 1. cbn in Hn0. rewrite Hn0.
  destruct (tried name h 1) as [r'|e] eqn:E1.
  - destruct (IH r' (start_call name :: h)) as (m & (Hm & Hall & Hlast) & Heq); [by rewrite Hn|].
    exists (S m). split; [|by rewrite Heq, Hn, repeat_snoc].
    split_and!; [lia| |intros; rewrite <- Hn; apply Hlast; lia].
    intros [|i] Hi; [done|]. rewrite <- Hn. apply Hall. lia.
  - exists 1%nat. split; [|by rewrite E1]. split_and!; [lia| |by rewrite E1]. intros i Hi. by replace i with O by lia.
Qed.

(** A start, its retries, its verdict and the stop that follows a failure *)
Lemma start_verdict_spec name h :
  ∃ m, retried name h m START_RACE_RETRIES ∧
    (start_verdict name h).2 =
      (if start_failed (tried name h m) then [quiet_stop name] else []) ++ repeat (start_call name) (S m) ++ h ∧
    ((start_verdict name h).1 = STARTED ↔ (∃ r, tried name h m = Ok r) ∧ start_failed (tried name h m) = false).
Proof.
  unfold start_verdict, _start_with_port_race_retry, api.
  change (mkCall "POST" (path (start_call name)) None) with (start_call name).
  change (on_call h (start_call name)) with (tried name h 0).
  assert (∀ e, _classify_exception e ≠ STARTED) as He.
  { intros e. unfold _classify_exception. by destruct (_ || _). }
  destruct (tried name h 0) as [r|e] eqn:E0; cycle 1.
  { exists O. rewrite E0. split_and!; [split_and!; [lia|lia|by rewrite E0]|done|].
    split; [intros Hx; by apply He in Hx|by intros [[? ?] _]]. }
  destruct (start_retries_spec START_RACE_RETRIES name r h E0) as (m & Hm & ->). exists m. split; [done|].
  destruct (tried name h m) as [[status b]|e]; cycle 1.
  { split; [done|]. split; [intros Hx; by apply He in Hx|by intros [[? ?] _]]. }
  cbn [start_failed]. destruct (_ && _); [|split; [done|]; split; eauto].
  split; [done|]. split; [|by intros [_ ?]]. unfold _classify_start_failure. cbn [fst].
  unfold _classify_http, PERMANENT, TRANSIENT, STARTED. destruct (_ || _); [done|]. by case_bool_decide.
Qed.

(** The calls of a replacement before its start, oldest first *)
Definition connect_call name (ne : string * dict) : call :=
  mkCall "POST" ("/networks/" +:+ ne.1 +:+ "/connect")
    (Some (JObj [("Container", JStr name); ("EndpointConfig", JObj ne.2)])).
Definition stop_step name : call := mkCall "POST" ("/containers/" +:+ name +:+ "/stop?t=10") None.
Definition remove_step name : call := mkCall "DELETE" ("/containers/" +:+ name +:+ "?force=1") None.
Definition create_step name p : call :=
  mkCall "POST" ("/containers/create?name=" +:+ name) (Some (JObj (payload p))).
(** Each with the answers it goes on after: any but an exception for the stop and the
    connects, no error for the create, none but "no such container" for the remove *)
Definition any_answer (status : Z) : bool := true.
Definition removed_answer (status : Z) : bool := (status <? 400) || (status =? 404).
Definition created_answer (status : Z) : bool := status <? 400.
Definition steps name p : list (call * (Z → bool)) :=
  (stop_step name, any_answer) :: (remove_step name, removed_answer) :: (create_step name p, created_answer) ::
  ((λ ne, (connect_call name ne, any_answer)) <$> connect p).

(** The steps in order, up to the first that was not answered as it should *)
Fixpoint until_refused (cs : list (call * (Z → bool))) h : bool * list call :=
  match cs with
  | [] => (true, h)
  | (c, goes_on) :: r =>
      match on_call h c with
      | Ok (status, _) => if goes_on status then until_refused r (c :: h) else (false, c :: h)
      | Raise _ => (false, c :: h)
      end
  end.

Lemma connect_all_spec name nets h :
  let '(r, h') := connect_all name nets h in
  until_refused ((λ ne, (connect_call name ne, any_answer)) <$> nets) h =
    (match r with Ok _ => true | Raise _ => false end, h').
Proof.
  revert h. induction nets as [|[n ep] nets IH]; intros h; [done|]. cbn [connect_all fmap list_fmap until_refused].
  unfold api. cbn [fst snd]. fold (connect_call name (n, ep)).
  change (mkCall "POST" _ _) with (connect_call name (n, ep)).
  destruct (on_call h (connect_call name (n, ep))) as [[st b]|e]; [apply IH|done].
Qed.

Lemma perform_plan_spec name p h :
  match until_refused (steps name p) h with
  | (true, h1) => perform_plan name p h = start_verdict name h1
  | (false, h1) => (perform_plan name p h).2 = h1 ∧ (perform_plan name p h).1 ≠ STARTED
  end.
Proof.
  assert (∀ s, _classify_http s ≠ STARTED) as Hh by (intros s; unfold _classify_http; by case_bool_decide).
  assert (∀ e, _classify_exception e ≠ STARTED) as He.
  { intros e. unfold _classify_exception. by destruct (_ || _). }
  unfold perform_plan, api, steps. cbn [until_refused].
  change (mkCall "POST" ("/containers/" +:+ name +:+ "/stop?t=10") None) with (stop_step name).
  change (mkCall "DELETE" ("/containers/" +:+ name +:+ "?force=1") None) with (remove_step name).
  change (mkCall "POST" ("/containers/create?name=" +:+ name) (Some (JObj (payload p)))) with (create_step name p).
  destruct (on_call h (stop_step name)) as [[st1 b1]|e]; [|split; [done|apply He]]. cbn [any_answer].
  destruct (on_call _ (remove_step name)) as [[st2 b2]|e]; [|split; [done|apply He]].
  assert (removed_answer st2 = negb ((400 <=? st2) && negb (st2 =? 404))) as ->.
  { unfold removed_answer. rewrite Z.ltb_antisym, negb_andb, negb_involutive. done. }
  destruct (_ && _); cbn [negb]; [split; [done|apply Hh]|].
  destruct (on_call _ (create_step name p)) as [[st3 b3]|e]; [|split; [done|apply He]].
  unfold created_answer. rewrite Z.ltb_antisym. destruct (400 <=? st3); cbn [negb]; [split; [done|apply Hh]|].
  pose proof (connect_all_spec name (connect p) (create_step name p :: remove_step name :: stop_step name :: h)) as Hc.
  destruct (connect_all _ _ _) as [[[]|e] h4]; rewrite Hc; [done|]. split; [done|apply He].
Qed.

(** C33: a container is replaced in one order and no other.  Docker is asked to stop it, to
    remove it, to create it from the plan and to connect it to its further networks, each
    step only after the one before was answered as it should: no exception, for the create
    no error, for the remove none but that there was no such container.  At the first that
    was not, nothing more is called, no start in particular, and the verdict is not
    [started].  After all of them it is started: once, and again at most three times, each
    time because the try before lost the race for its port.  Only a last try that docker
    refused is followed by a further call, the stop of the container; the verdict is
    [started] exactly when docker answered that try without refusing it. *)
Theorem replacement_runs_in_order name kind n u s h c st p v performed h' :
  on_inspect h name = Ok (st, Some c) → st < 400 →
  plan_context (Some c) kind n u s = Some p →
  _docker_set_context name kind n u s h = ((v, performed), h') →
  performed = true ∧
  match until_refused (steps name p) (mkCall "GET" ("/containers/" +:+ name +:+ "/json") None :: h) with
  | (false, h1) => h' = h1 ∧ v ≠ STARTED
  | (true, h1) =>
      ∃ m, retried name h1 m 3 ∧
        h' = (if start_failed (tried name h1 m) then [quiet_stop name] else []) ++
             repeat (start_call name) (S m) ++ h1 ∧
        (v = STARTED ↔ (∃ r, tried name h1 m = Ok r) ∧ start_failed (tried name h1 m) = false)
  end.
Proof.
  intros Hi Hst Hp E. unfold _docker_set_context, api_inspect in E. rewrite Hi in E. cbn [fst snd] in E.
  destruct (Z.eqb_spec st 404); [lia|]. destruct (Z.leb_spec 400 st); [lia|]. rewrite Hp in E.
  pose proof (perform_plan_spec name p (mkCall "GET" ("/containers/" +:+ name +:+ "/json") None :: h)) as Hs.
  destruct (perform_plan _ _ _) as [v' h''] eqn:Ep. injection E as <- <- <-. split; [done|].
  destruct (until_refused _ _) as [[] h1]; [|by destruct Hs].
  destruct (start_verdict_spec name h1) as (m & Hm & Hh & Hv). rewrite <- Hs in Hh, Hv. eauto.
Qed.

(** A server that was replaced as asked is left alone: when docker reports the
    replacement running and attached, asking for the same window, pool and concurrency
    again only inspects it. *)
Lemma settled_server_is_left_alone name h c n u s st :
  engine_ok (c_Cmd c) → 1 ≤ n → u ∈ hundredths → 1 ≤ s → st < 400 →
  on_inspect h name = Ok (st, Some (performed c (mkAsk (Some n) (Some u) (Some s)))) →
  c_Running (performed c (mkAsk (Some n) (Some u) (Some s))) = true →
  _detached (performed c (mkAsk (Some n) (Some u) (Some s))) = false →
  _docker_set_context name VLLM (Some n) (Some u) (Some s) h =
    ((ALREADY_RUNNING, false), mkCall "GET" ("/containers/" +:+ name +:+ "/json") None :: h).
Proof.
  intros Hok Hn Hu Hs Hst Hi Hr Hd. unfold _docker_set_context, api_inspect. rewrite Hi. cbn [fst snd].
  destruct (Z.eqb_spec st 404); [lia|]. destruct (Z.leb_spec 400 st); [lia|].
  rewrite performed_plan_is_settled by done. by rewrite Hr, Hd.
Qed.
End lever_lemmas.

(** ** The framed log *)

(** How docker frames a chunk *)
Definition be_bytes (n : Z) : bytes := [n / 16777216; n / 65536 mod 256; n / 256 mod 256; n mod 256].
Definition frame (tc : Z * bytes) : bytes := tc.1 :: 0 :: 0 :: 0 :: be_bytes (Z.of_nat (length tc.2)) ++ tc.2.
Definition chunk_ok (tc : Z * bytes) : Prop := tc.1 ∈ [0; 1; 2] ∧ Z.of_nat (length tc.2) < 4294967296.

Lemma be32_bytes n : 0 ≤ n < 4294967296 → be32 (be_bytes n) = n.
Proof. intros Hn. unfold be32, be_bytes. cbn. Z.div_mod_to_equations. lia. Qed.

Lemma frame_length tc : length (frame tc) = (8 + length tc.2)%nat.
Proof. done. Qed.
Lemma frame_header tc r : chunk_ok tc → is_header (frame tc ++ r) = true.
Proof. intros [Ht _]. cbn. by apply bool_decide_eq_true. Qed.
(** The size field of a frame, and what follows the frame *)
Lemma frame_size tc r :
  chunk_ok tc → Z.to_nat (be32 (take 4 (drop 4 (frame tc ++ r)))) = length tc.2.
Proof.
  intros [_ Hl]. change (take 4 (drop 4 (frame tc ++ r))) with (be_bytes (Z.of_nat (length tc.2))).
  rewrite be32_bytes by lia. lia.
Qed.
Lemma frame_payload tc r : drop 8 (frame tc ++ r) = tc.2 ++ r.
Proof. done. Qed.

Lemma frames_complete fuel chunks r :
  Forall chunk_ok chunks → (length (concat (frame <$> chunks) ++ r) ≤ fuel)%nat →
  (length r < 8)%nat →
  frames fuel (concat (frame <$> chunks) ++ r) = concat (snd <$> chunks).
Proof.
  intros Hc. revert fuel. induction Hc as [|tc chunks Htc _ IH]; intros fuel Hf Hr.
  - cbn in *. destruct fuel as [|fuel]; [done|]. cbn [frames]. by destruct (Nat.ltb_spec (length r) 8); [|lia].
  - cbn [fmap list_fmap concat] in *. rewrite <- app_assoc in *.
    set (rest := concat (frame <$> chunks) ++ r) in *.
    assert (length (frame tc ++ rest) = (8 + length tc.2 + length rest)%nat) as Hl
      by (rewrite length_app, frame_length; lia).
    destruct fuel as [|fuel]; [lia|]. cbn [frames]. rewrite Hl.
    destruct (Nat.ltb_spec (8 + length tc.2 + length rest) 8); [lia|].
    rewrite frame_header by done. cbn [negb]. rewrite frame_size, frame_payload by done.
    rewrite take_app_length, <- drop_drop, frame_payload, drop_app_length.
    f_equal. apply IH; [lia|done].
Qed.

(** Docker's log framing is undone exactly: a stream of frames, of either output and of
    any size, reads as its chunks put together. *)
Lemma framed_log_reads_back chunks :
  chunks ≠ [] → Forall chunk_ok chunks →
  demux_bytes (concat (frame <$> chunks)) = concat (snd <$> chunks).
Proof.
  intros Hne Hc. rewrite <- (app_nil_r (concat (frame <$> chunks))). unfold demux_bytes.
  destruct chunks as [|tc chunks]; [done|]. pose proof Hc as [Htc _]%Forall_cons.
  replace (is_header _) with true.
  2: { cbn [fmap list_fmap concat]. rewrite <- app_assoc. symmetry. by apply frame_header. }
  destruct (Nat.ltb_spec (length (concat (frame <$> tc :: chunks) ++ [])) 8) as [Hlt|].
  { cbn [fmap list_fmap concat] in Hlt. rewrite !length_app, frame_length in Hlt. lia. }
  cbn [orb negb]. apply frames_complete; [done|lia|cbn; lia].
Qed.

Lemma framed_log_reads_back_witness :
  demux_bytes (concat (frame <$> [(1, [104; 105; 10]); (2, []); (1, [33])])) = [104; 105; 10; 33].
Proof.
  apply framed_log_reads_back; [done|].
  repeat constructor; cbn; try lia; apply (bool_decide_unpack _); vm_compute; exact I.
Defined.

(** ** The model switch *)

Lemma current_model_flag argv : current_model argv = _argv_flag argv _MODEL_FLAG.
Proof. induction argv as [|tok r IH]; [done|]. cbn. by rewrite IH. Qed.

(** The rewritten command line selects the model, in whichever form it was written. *)
Lemma desired_argv_selects argv m :
  valued _MODEL_FLAG argv = true → current_model (desired_argv argv m) = Some m.
Proof.
  assert (flag_like _MODEL_FLAG = true) as Hf by done. intros Hv. rewrite current_model_flag.
  enough (match swap_model argv m with
          | Some out => _argv_flag out _MODEL_FLAG = Some m
          | None => absent _MODEL_FLAG argv
          end) as Hs.
  { unfold desired_argv. destruct (swap_model argv m); [done|]. by apply absent_append. }
  revert argv Hv. apply (valued_ind _MODEL_FLAG (λ a, match swap_model a m with
    | Some out => _argv_flag out _MODEL_FLAG = Some m | None => absent _MODEL_FLAG a end)); [done|constructor|..].
  - intros v r _ _. cbn [swap_model]. rewrite String.eqb_refl. cbn [_argv_flag]. by rewrite String.eqb_refl.
  - intros w r _. cbn [swap_model].
    destruct (String.eqb_spec (_MODEL_FLAG +:+ "=" +:+ w) _MODEL_FLAG) as [E|_]; [by apply joined_ne in E|].
    rewrite joined_flag. cbn [_argv_flag].
    destruct (String.eqb_spec (_MODEL_FLAG +:+ "=" +:+ m) _MODEL_FLAG) as [E|_]; [by apply joined_ne in E|].
    by rewrite joined_flag, after_equals_joined.
  - intros tok r Hne%String.eqb_neq Hj IH. cbn [swap_model]. rewrite Hne, Hj.
    destruct (swap_model r m) as [out|]; cbn [fmap option_fmap option_map].
    + cbn [_argv_flag]. by rewrite Hne, Hj.
    + constructor; [|done]. split; [by apply String.eqb_neq|done].
Qed.

Section sidecar.
Context `{PyEnv} `{Docker}.

(** The calls of a model switch *)
Lemma recreate_sidecar_calls name argv h c st :
  on_inspect h name = Ok (st, Some c) → st < 400 →
  ∃ done, done `prefix_of`
    [mkCall "POST" ("/containers/" +:+ name +:+ "/stop?t=10") None;
     mkCall "DELETE" ("/containers/" +:+ name +:+ "?force=1") None;
     mkCall "POST" ("/containers/create?name=" +:+ name) (Some (JObj (recreate_payload c (Some argv) None None)));
     start_call name] ∧
    (_docker_recreate_sidecar name argv h).2 =
      rev done ++ mkCall "GET" ("/containers/" +:+ name +:+ "/json") None :: h.
Proof.
  intros Hi Hst. unfold _docker_recreate_sidecar, api_inspect, api. rewrite Hi.
  destruct (Z.leb_spec 400 st); [lia|].
  change (mkCall "POST" (path (start_call name)) None) with (start_call name).
  set (s1 := mkCall "POST" (_ +:+ _ +:+ _) None). set (s2 := mkCall "DELETE" _ None). set (s3 := mkCall "POST" _ (Some _)).
  set (h0 := _ :: h). destruct (on_call h0 s1) as [r1|e]; [|exists [s1]; by split; [eexists|]].
  destruct (on_call (s1 :: h0) s2) as [[st2 b2]|e]; [|exists [s1; s2]; by split; [eexists|]].
  destruct (_ && _); [exists [s1; s2]; by split; [eexists|]|].
  destruct (on_call (s2 :: s1 :: h0) s3) as [[st3 b3]|e]; [|exists [s1; s2; s3]; by split; [eexists|]].
  destruct (400 <=? st3); [exists [s1; s2; s3]; by split; [eexists|]|].
  exists [s1; s2; s3; start_call name]. split; [|done]. by exists [].
Qed.

(** A model switch reconnects no network: whatever networks the container is on beyond the
    one of the create body, no call names them. *)
Theorem model_switch_reconnects_nothing name argv h c st k :
  on_inspect h name = Ok (st, Some c) → st < 400 →
  k ∈ (_docker_recreate_sidecar name argv h).2 → k ∉ h → PyStr.startswith "/networks/" (path k) = false.
Proof.
  intros Hi Hst. destruct (recreate_sidecar_calls name argv h c st Hi Hst) as (d & Hd & ->).
  intros Hk Hh. apply elem_of_app in Hk as [Hk|[->|Hk]%elem_of_cons]; [|done|done].
  apply list_elem_of_In, in_rev, list_elem_of_In in Hk. destruct Hd as [r Hr].
  assert (k ∈ d ++ r) as Hin by (apply elem_of_app; by left). rewrite <- Hr in Hin.
  repeat (apply elem_of_cons in Hin as [->|Hin]; [done|]). by apply not_elem_of_nil in Hin.
Qed.
End sidecar.

(** ** Concrete daemons *)

Module Daemon.
(** One that does what it is told *)
#[export] Instance obliging : Docker := {|
  on_inspect _ _ := Ok (200, Some Box.vllm);
  on_call _ _ := Ok (204, JNull);
|}.
(** One that reports the replacement *)
#[export] Instance settled : Docker := {|
  on_inspect _ _ := Ok (200, Some (performed Box.vllm (mkAsk (Some 65536) (Some (1 # 2)) (Some 4))));
  on_call _ _ := Ok (204, JNull);
|}.
(** One that removes the container and then fails to create it *)
Definition removed (h : list call) : bool := existsb (λ c, String.eqb (method c) "DELETE") h.
#[export] Instance failing : Docker := {|
  on_inspect h _ := if removed h then Ok (404, None) else Ok (200, Some Box.vllm);
  on_call _ c := if PyStr.startswith "/containers/create" (path c) then Ok (500, JNull) else Ok (204, JNull);
|}.
End Daemon.

(** A create that fails after the remove is reported as worth retrying; the retry finds no
    container and reports that nothing can be done. *)
Theorem failed_create_strands_the_box :
  let '(v, h) := @_docker_set_context RefsDemo.env Daemon.failing "vllm" VLLM (Some 65536) None None [] in
  let '(v', _) := @_docker_set_context RefsDemo.env Daemon.failing "vllm" VLLM (Some 65536) None None h in
  v = (TRANSIENT, true) ∧ v' = (PERMANENT, false).
Proof. vm_compute. done. Qed.

Lemma replacement_runs_in_order_witness :
  ∃ v performed h' p, plan_context (Some Box.vllm) VLLM (Some 65536) None None = Some p ∧
  @_docker_set_context RefsDemo.env Daemon.obliging "vllm" VLLM (Some 65536) None None [] = ((v, performed), h') ∧
  performed = true ∧ v = STARTED.
Proof.
  destruct (plan_context (Some Box.vllm) VLLM (Some 65536) None None) as [p|] eqn:Hp; [|discriminate Hp].
  destruct (@_docker_set_context RefsDemo.env Daemon.obliging "vllm" VLLM (Some 65536) None None [])
    as [[v perf] h'] eqn:E.
  destruct (@replacement_runs_in_order RefsDemo.env Daemon.obliging "vllm" VLLM (Some 65536) None None [] Box.vllm 200
    p v perf h' eq_refl ltac:(lia) Hp E) as [Hperf _].
  exists v, perf, h', p. split_and!; [done|done|exact Hperf|].
  vm_compute in E. by injection E as <- _ _.
Defined.

Lemma settled_server_is_left_alone_witness :
  @_docker_set_context RefsDemo.env Daemon.settled "vllm" VLLM (Some 65536) (Some (1 # 2)) (Some 4) [] =
    ((ALREADY_RUNNING, false), [mkCall "GET" "/containers/vllm/json" None]).
Proof.
  apply (@settled_server_is_left_alone RefsDemo.env Daemon.settled "vllm" [] Box.vllm 65536 (1 # 2) 4 200);
    [exact vllm_engine_ok|lia| |lia|lia|reflexivity|vm_compute; reflexivity|vm_compute; reflexivity].
  apply (bool_decide_unpack _). vm_compute. exact I.
Defined.
