(* ===== verification/RogueLlm.v ===== *)
(** * Tenants of a box that the engine does not arbitrate ([queue_workflows/rogue_llm.py])

    A second LLM daemon beside the engine's own, and GPU containers nobody allowed: found
    in the listing of the docker daemon, named or stopped by a sweep on every heartbeat,
    and by the memory guard when nothing else is left to give.  What the daemon answers is
    a function of the calls made before, newest first; log lines are left out. *)

From S2P Require Import Prelude Json PyText Refs Schema NodeQueue Claim Reclaim Watchdogs WorkerLanes.
From S2P Require Import ServerSwitch ServerContext ContextLever.
Local Open Scope string_scope.
Local Open Scope list_scope.
Local Open Scope Z_scope.

(** ** What docker says of a container *)

Record listed := mkListed { l_state : string; l_names : list string; l_image : string; l_id : string; l_project : string }.
Record inspected := mkInspected {
  i_device_requests : bool;
  i_runtime : string;
  i_devices : list string;
  i_restart : string;
}.
(** The daemon: None is a body of another shape *)
Class Dockerd := {
  on_list : list call → result (Z * option (list listed));
  on_look : list call → string → result (Z * option inspected);
  on_post : list call → call → result (Z * json);
}.

Definition RESTARTING_POLICIES : list string := ["always"; "unless-stopped"; "on-failure"].
Definition _GPU_DEVICE_PREFIXES : list string := ["/dev/dri"; "/dev/kfd"; "/dev/nvidia"].
Definition _REPOS : list (string * list string) :=
  [("ollama", ["ollama/ollama"; "ollama"]); ("vllm", ["vllm/vllm-openai"; "vllm-openai"])].
Definition NO_SOCKET_RETRY : Z := 60 * 1000000.

Definition uses_gpu (i : inspected) : bool :=
  i_device_requests i || String.eqb (PyStr.lower (i_runtime i)) "nvidia"
  || existsb (λ d, existsb (λ p, PyStr.startswith p d) _GPU_DEVICE_PREFIXES) (i_devices i).
Definition restart_policy (i : inspected) : string :=
  let s := PyStr.lower (if PyStr.truthy (i_restart i) then i_restart i else "no") in
  if PyStr.truthy s then s else "no".

Definition is_allowed (name project : string) (allow ours : list string) : bool :=
  bool_decide (name ∈ ours)
  || existsb (λ p, PyStr.startswith p name || (PyStr.truthy project && String.eqb project p)) allow.

(** The repository of a reference: digest and tag dropped *)
Definition repository (image : string) : string :=
  let ref := (PyStr.split1 "@" (PyStr.strip image)).1 in
  match Txt.rsplit1 "/" ref with
  | (Some before, last) => before +:+ "/" +:+ (PyStr.split1 ":" last).1
  | (None, last) => (PyStr.split1 ":" last).1
  end.
(** [parts[-n:] == want] *)
Definition ends_with_parts (want parts : list string) : bool := bool_decide (drop (length parts - length want) parts = want).
Fixpoint kind_of (repos : list (string * list string)) (parts : list string) : option string :=
  match repos with
  | [] => None
  | (kind, names) :: r =>
      if existsb (λ repo, ends_with_parts (PyStr.split "/" repo) parts) names then Some kind else kind_of r parts
  end.
Definition image_kind (image : string) : option string :=
  if negb (PyStr.truthy (PyStr.strip image)) then None else kind_of _REPOS (PyStr.split "/" (repository image)).

Definition _name (c : listed) : string := match l_names c with n :: _ => Txt.lstrip_char "/" n | [] => "" end.
Definition is_running_ (c : listed) : bool := String.eqb (PyStr.lower (l_state c)) "running".

(** ** A second daemon *)

Record Rogue := mkRogue { r_name : string; r_kind : string; r_image : string; r_ours : string }.
Definition ours_of (ollama_name vllm_name kind : string) : string :=
  if String.eqb kind "ollama" then ollama_name else vllm_name.
Definition find_rogues (containers : list listed) (ollama_name vllm_name : string) : list Rogue :=
  let running := List.filter is_running_ containers in
  let ours := ours_of ollama_name vllm_name in
  let present := λ kind, existsb (λ c, String.eqb (_name c) (ours kind) && bool_decide (image_kind (l_image c) = Some kind)) running in
  omap (λ c, match image_kind (l_image c) with
             | Some kind => if negb (present kind) then None
                            else if String.eqb (_name c) (ours kind) then None
                            else Some (mkRogue (_name c) kind (l_image c) (ours kind))
             | None => None
             end) running.

(** ** GPU containers *)

Record RogueGpu := mkRogueGpu { g_name : string; g_image : string; g_restart : string; g_project : string }.
Definition is_service (g : RogueGpu) : bool := bool_decide (g_restart g ∈ RESTARTING_POLICIES).

(** The memory of the guard: when to ask the socket again, what was found of each
    container, which runs were named *)
Record guard := mkGuard { no_socket_until : Z; gpu_facts : list (string * (bool * string)); named_runs : list string }.
Definition fresh_guard : guard := mkGuard 0 [] [].

(** Its programs: the memory and the calls *)
Definition G (A : Type) : Type := guard → list call → result A * guard * list call.
#[export] Instance G_ret : MRet G := λ A a g h, (Ok a, g, h).
#[export] Instance G_bind : MBind G := λ A B f m g h,
  match m g h with
  | (Ok a, g, h) => f a g h
  | (Raise x, g, h) => (Raise x, g, h)
  end.
Definition G_lift {A} (r : result A) : G A := λ g h, (r, g, h).

Section guard.
Context `{WorkerEnv} `{Dockerd}.

(** [allowed_prefixes] *)
Definition allowed_prefixes : result (list string) :=
  raw ← env_get "QUEUE_WORKFLOWS_GPU_CONTAINER_ALLOW" None;
  Ok (List.filter PyStr.truthy (PyStr.strip <$> PyStr.split "," (default "" raw))).

(** A call whose exception the program sees as a value *)
Definition post (p : string) (b : option json) : G (result (Z * json)) := λ g h,
  (Ok (on_post h (mkCall "POST" p b)), g, mkCall "POST" p b :: h).
Definition list_containers : G (result (Z * option (list listed))) := λ g h,
  (Ok (on_list h), g, mkCall "GET" "/containers/json" None :: h).

(** The facts of the containers that are gone are forgotten. *)
Definition forget_gone (listing : list listed) : G () := λ g h,
  let live := l_id <$> listing in
  let gone := λ cid, dict_has cid (gpu_facts g) && negb (bool_decide (cid ∈ live)) in
  (Ok (), mkGuard (no_socket_until g) (List.filter (λ kf, bool_decide (kf.1 ∈ live)) (gpu_facts g))
            (List.filter (λ cid, negb (gone cid)) (named_runs g)), h).
(** The facts of a container, asked of docker once *)
Definition inspect (cid : string) : G (option (bool * string)) := λ g h,
  match dict_get cid (gpu_facts g) with
  | Some f => (Ok (Some f), g, h)
  | None =>
      let h' := mkCall "GET" ("/containers/" +:+ cid +:+ "/json") None :: h in
      match on_look h cid with
      | Ok (status, Some i) =>
          if 400 <=? status then (Ok None, g, h')
          else let f := (uses_gpu i, restart_policy i) in
               (Ok (Some f), mkGuard (no_socket_until g) (dict_set cid f (gpu_facts g)) (named_runs g), h')
      | _ => (Ok None, g, h')
      end
  end.
(** [str(name or "no").lower() or "no"], of the remembered policy *)
Definition again (policy : string) : string := restart_policy (mkInspected false "" [] policy).

Fixpoint find_rogue_gpu (containers : list listed) (allow ours : list string) : G (list RogueGpu) :=
  match containers with
  | [] => mret []
  | c :: r =>
      if negb (is_running_ c) || is_allowed (_name c) (l_project c) allow ours then find_rogue_gpu r allow ours
      else f ← inspect (l_id c);
           rest ← find_rogue_gpu r allow ours;
           mret (match f with
                 | Some (true, policy) => mkRogueGpu (_name c) (l_image c) (again policy) (l_project c) :: rest
                 | _ => rest
                 end)
  end.

Definition stop_path (name t : string) : string := "/containers/" +:+ name +:+ "/stop?t=" +:+ t.
Definition stopped (r : result (Z * json)) : bool :=
  match r with Ok (status, _) => negb ((400 <=? status) && negb (status =? 304)) | Raise _ => false end.

(** ** The memory guard's last move *)

Fixpoint stop_each (rogues : list RogueGpu) : G (list string) :=
  match rogues with
  | [] => mret []
  | g :: r => a ← post (stop_path (g_name g) "10") None;
              rest ← stop_each r;
              mret (if stopped a then g_name g :: rest else rest)
  end.
Definition stop_gpu_outsiders : G (list string) :=
  allow ← G_lift allowed_prefixes;
  match allow with
  | [] => mret []
  | _ =>
      a ← list_containers;
      match a with
      | Ok (status, Some listing) =>
          if 400 <=? status then mret [] else
          ollama_name ← G_lift (container_name "ollama");
          vllm_name ← G_lift (container_name "vllm");
          _ ← forget_gone listing;
          rogues ← find_rogue_gpu listing allow [ollama_name; vllm_name];
          stop_each rogues
      | _ => mret []
      end
  end.

(** ** The sweep *)

Definition name_run (cid : string) : G () := λ g h,
  (Ok (), mkGuard (no_socket_until g) (gpu_facts g) (if bool_decide (cid ∈ named_runs g) then named_runs g else named_runs g ++ [cid]), h).
(** [ids.get(name, "")]: the last container of a name *)
Definition id_of (listing : list listed) (name : string) : string :=
  foldl (λ acc c, if String.eqb (_name c) name then l_id c else acc) "" listing.
(** A service loses its restart policy and is stopped; an exception ends the attempt *)
Definition evict (g : RogueGpu) : G bool :=
  pinned ← (if is_service g
            then post ("/containers/" +:+ g_name g +:+ "/update") (Some (JObj [("RestartPolicy", JObj [("Name", JStr "no")])]))
            else mret (Ok (200, JNull)));
  match pinned with
  | Raise _ => mret false
  | Ok _ => a ← post (stop_path (g_name g) "10") None; mret (stopped a)
  end.
Fixpoint sweep_each (listing : list listed) (report_only : bool) (rogues : list RogueGpu) : G (list string) :=
  match rogues with
  | [] => mret []
  | g :: r =>
      runs ← G_lift (env_get "QUEUE_WORKFLOWS_ROGUE_GPU_RUNS" None);
      let stop_runs := String.eqb (PyStr.lower (PyStr.strip (default "" runs))) "stop" in
      acted ← (if negb (is_service g) && negb stop_runs
               then _ ← name_run (id_of listing (g_name g)); mret false
               else if report_only then mret true else evict g);
      rest ← sweep_each listing report_only r;
      mret (if (acted : bool) then g_name g :: rest else rest)
  end.
Definition _sweep_gpu (listing : list listed) (allow ours : list string) (report_only : bool) : G (list string) :=
  _ ← forget_gone listing;
  rogues ← find_rogue_gpu listing allow ours;
  sweep_each listing report_only rogues.

Fixpoint stop_daemons (report_only : bool) (rogues : list Rogue) : G (list string) :=
  match rogues with
  | [] => mret []
  | r :: rs =>
      acted ← (if report_only then mret true
               else a ← post (stop_path (r_name r) "5") None; mret (stopped a));
      rest ← stop_daemons report_only rs;
      mret (if (acted : bool) then r_name r :: rest else rest)
  end.

Definition no_socket (e : exc) : bool :=
  bool_decide (e = OtherError "FileNotFoundError") || bool_decide (e = OtherError "PermissionError").
Definition back_off (now : Z) : G (list string) := λ g h,
  (Ok [], mkGuard (now + NO_SOCKET_RETRY) (gpu_facts g) (named_runs g), h).
Definition waits (now : Z) : G bool := λ g h, (Ok (now <? no_socket_until g), g, h).
(** What the sweep does with a listing *)
Definition sweep_listing (listing : list listed) : G (list string) :=
  ollama_name ← G_lift (container_name "ollama");
  vllm_name ← G_lift (container_name "vllm");
  mode ← G_lift (env_get "QUEUE_WORKFLOWS_ROGUE_LLM_GUARD" None);
  let report_only := String.eqb (PyStr.lower (PyStr.strip (default "" mode))) "report" in
  allow ← G_lift allowed_prefixes;
  acted ← (match allow with
           | [] => mret []
           | _ => _sweep_gpu listing allow [ollama_name; vllm_name] report_only
           end);
  more ← stop_daemons report_only (find_rogues listing ollama_name vllm_name);
  mret (acted ++ more).
Definition sweep (now : Z) : G (list string) :=
  off ← G_lift (_env_flag "QUEUE_WORKFLOWS_DISABLE_ROGUE_LLM_GUARD");
  if (off : bool) then mret [] else
  later ← waits now;
  if (later : bool) then mret [] else
  a ← list_containers;
  match a with
  | Raise e => if no_socket e then back_off now else mret []
  | Ok (status, Some listing) => if 400 <=? status then mret [] else sweep_listing listing
  | Ok (_, None) => mret []
  end.
End guard.

(** ** What the guard may touch *)

(** A call that reads, or one that changes a container of [T] *)
Definition on_container (n : string) (c : call) : Prop :=
  path c = stop_path n "10" ∨ path c = stop_path n "5" ∨ path c = "/containers/" +:+ n +:+ "/update".
Definition confined (T : string → Prop) (c : call) : Prop := method c = "GET" ∨ ∃ n, T n ∧ on_container n c.
(** The containers known to use the GPU are among [P]. *)
Definition knows (P : string → Prop) (g : guard) : Prop :=
  ∀ cid policy, dict_get cid (gpu_facts g) = Some (true, policy) → P cid.
(** A program whose calls are all confined to [T] and that learns of no other GPU user than
    those of [P], with the values it may return *)
Definition touches {A} (T P : string → Prop) (m : G A) (Q : A → Prop) : Prop :=
  ∀ g h, knows P g →
    match m g h with
    | (r, g', h') => knows P g' ∧ (∃ k, h' = k ++ h ∧ Forall (confined T) k) ∧ ∀ a, r = Ok a → Q a
    end.
Abbreviation anything := (λ _, True).

Section touches_rules.
Context (T P : string → Prop).
Implicit Types (A B : Type).

Lemma touches_ret {A} (a : A) (Q : A → Prop) : Q a → touches T P (mret a) Q.
Proof. intros HQ g h Hg. cbn. split_and!; [done|by exists []|by intros ? [= <-]]. Qed.
Lemma touches_lift {A} (r : result A) : touches T P (G_lift r) (λ a, r = Ok a).
Proof. intros g h Hg. cbn. split_and!; [done|by exists []|by intros]. Qed.
Lemma touches_bind {A B} (m : G A) (f : A → G B) (R : A → Prop) (Q : B → Prop) :
  touches T P m R → (∀ a, R a → touches T P (f a) Q) → touches T P (a ← m; f a) Q.
Proof.
  intros Hm Hf g h Hg. unfold mbind, G_bind. specialize (Hm g h Hg). destruct (m g h) as [[[a|x] g1] h1].
  - destruct Hm as (Hg1 & (k & -> & Hk) & HR). specialize (Hf a (HR a eq_refl) g1 (k ++ h) Hg1).
    destruct (f a g1 (k ++ h)) as [[r g2] h2]. destruct Hf as (Hg2 & (k2 & -> & Hk2) & HQ). split_and!; [done| |done].
    exists (k2 ++ k). rewrite app_assoc. split; [done|]. by apply Forall_app.
  - destruct Hm as (Hg1 & Hk & _). by split_and!.
Qed.
End touches_rules.

Section guard_lemmas.
Context `{WorkerEnv} `{Dockerd} (T P : string → Prop).
Hypothesis looked_up : ∀ h cid status i,
  on_look h cid = Ok (status, Some i) → status < 400 → uses_gpu i = true → P cid.

Lemma touches_post n p b :
  T n → on_container n (mkCall "POST" p b) → touches T P (post p b) anything.
Proof. intros HT Hc g h Hg. cbn. split_and!; [done| |done]. exists [mkCall "POST" p b]. split; [done|]. constructor; [|constructor]. right. eauto. Qed.
Lemma dict_get_kept {A} (f : string → bool) k (v : A) l :
  dict_get k (List.filter (λ kv, f kv.1) l) = Some v → dict_get k l = Some v.
Proof.
  assert (f k = false → dict_get k (List.filter (λ kv, f kv.1) l) = None) as Hno.
  { intros Hk. induction l as [|[k' w] l IH]; [done|]. cbn. destruct (f k') eqn:E; [|done]. cbn.
    destruct (String.eqb_spec k k') as [->|]; [congruence|done]. }
  destruct (f k) eqn:Hk; [|by rewrite Hno]. clear Hno. induction l as [|[k' w] l IH]; [done|]. cbn.
  destruct (f k') eqn:E; cbn; destruct (String.eqb_spec k k') as [->|]; try done. congruence.
Qed.
Lemma touches_forget listing : touches T P (forget_gone listing) anything.
Proof.
  intros g h Hg. cbn. split_and!; [|by exists []|done]. intros cid policy Hc. apply (Hg cid policy).
  by apply (dict_get_kept (λ k, bool_decide (k ∈ l_id <$> listing))).
Qed.
Lemma touches_name cid : touches T P (name_run cid) anything.
Proof. intros g h Hg. cbn. split_and!; [exact Hg|by exists []|done]. Qed.
Lemma touches_inspect cid :
  touches T P (inspect cid) (λ f, ∀ policy, f = Some (true, policy) → P cid).
Proof.
  intros g h Hg. unfold inspect. destruct (dict_get cid (gpu_facts g)) as [f|] eqn:Ef.
  { split_and!; [done|by exists []|]. intros a [= <-] policy [= ->]. by eapply Hg. }
  set (c := mkCall "GET" _ _). assert (∃ k, c :: h = k ++ h ∧ Forall (confined T) k) as Hk.
  { exists [c]. split; [done|]. constructor; [by left|constructor]. }
  destruct (on_look h cid) as [[status [i|]]|x] eqn:El; try (split_and!; [done..|by intros ? [= <-]]).
  destruct (Z.leb_spec 400 status); [split_and!; [done..|by intros ? [= <-]]|].
  split_and!; [|done|].
  - intros cid' policy. cbn [gpu_facts]. destruct (decide (cid = cid')) as [<-|Hne].
    + rewrite dict_get_set_eq. intros [= Hu _]. by eapply looked_up.
    + rewrite dict_get_set_ne by done. apply Hg.
  - intros a [= <-] policy [= Hu _]. by eapply looked_up.
Qed.

(** A container that runs, that neither is ours nor was allowed, and that uses the GPU *)
Definition outsider (listing : list listed) (allow ours : list string) (n : string) : Prop :=
  ∃ c, c ∈ listing ∧ is_running_ c = true ∧ _name c = n ∧ is_allowed n (l_project c) allow ours = false ∧ P (l_id c).
Lemma find_rogue_gpu_sound listing allow ours :
  touches T P (find_rogue_gpu listing allow ours) (Forall (λ g, outsider listing allow ours (g_name g))).
Proof.
  assert (∀ l, (∀ c, c ∈ l → c ∈ listing) →
    touches T P (find_rogue_gpu l allow ours) (Forall (λ g, outsider listing allow ours (g_name g)))) as Hall; [|by apply Hall].
  induction l as [|c l IH]; intros Hin; cbn [find_rogue_gpu]; [apply touches_ret; constructor|].
  assert (∀ c, c ∈ l → c ∈ listing) as Hin' by set_solver. specialize (IH Hin').
  destruct (negb (is_running_ c) || _) eqn:E; [done|]. apply orb_false_iff in E as [E1%negb_false_iff E2].
  eapply touches_bind; [apply touches_inspect|]. intros f Hf. eapply touches_bind; [exact IH|]. intros rest Hrest.
  apply touches_ret. destruct f as [[[] p]|]; [|done|done]. constructor; [|done]. exists c.
  split_and!; [set_solver|done..|by eapply Hf].
Qed.
Lemma touches_stop_each rogues : Forall (λ g, T (g_name g)) rogues → touches T P (stop_each rogues) anything.
Proof.
  induction 1 as [|g rogues Hg _ IH]; cbn [stop_each]; [by apply touches_ret|].
  eapply touches_bind; [eapply touches_post; [exact Hg|by left]|]. intros a _.
  eapply touches_bind; [exact IH|]. intros rest _. by apply touches_ret.
Qed.
Lemma touches_evict g : T (g_name g) → touches T P (evict g) anything.
Proof.
  intros Hg. unfold evict. apply (touches_bind _ _ _ _ anything).
  { destruct (is_service g); [eapply touches_post; [exact Hg|by right; right]|]. by apply touches_ret. }
  intros [p|x] _; [|by apply touches_ret]. eapply touches_bind; [eapply touches_post; [exact Hg|by left]|].
  intros a _. by apply touches_ret.
Qed.
(** In report mode nothing is a target. *)
Lemma touches_sweep_each listing (report_only : bool) rogues :
  (report_only = false → Forall (λ g, T (g_name g)) rogues) → touches T P (sweep_each listing report_only rogues) anything.
Proof.
  intros HT. induction rogues as [|g rogues IH]; cbn [sweep_each]; [by apply touches_ret|].
  eapply touches_bind; [apply touches_lift|]. intros runs _. cbv zeta. apply (touches_bind _ _ _ _ anything).
  - destruct (negb (is_service g) && _).
    + eapply touches_bind; [apply touches_name|]. intros _ _. by apply touches_ret.
    + destruct report_only; [by apply touches_ret|]. apply touches_evict. specialize (HT eq_refl). by inversion HT.
  - intros acted _. eapply touches_bind; [|intros rest _; by apply touches_ret].
    apply IH. intros Hr. specialize (HT Hr). by inversion HT.
Qed.
Lemma touches_stop_daemons (report_only : bool) rogues :
  (report_only = false → Forall (λ r, T (r_name r)) rogues) → touches T P (stop_daemons report_only rogues) anything.
Proof.
  intros HT. induction rogues as [|r rogues IH]; cbn [stop_daemons]; [by apply touches_ret|].
  apply (touches_bind _ _ _ _ anything).
  - destruct report_only; [by apply touches_ret|]. specialize (HT eq_refl). inversion HT; subst.
    eapply touches_bind; [eapply touches_post; [done|by right; left]|]. intros a _. by apply touches_ret.
  - intros acted _. eapply touches_bind; [|intros rest _; by apply touches_ret].
    apply IH. intros Hr. specialize (HT Hr). by inversion HT.
Qed.

Lemma touches_sweep_listing listing :
  (∀ allow o v, allowed_prefixes = Ok allow → container_name "ollama" = Ok o → container_name "vllm" = Ok v →
     ∀ n, (allow ≠ [] ∧ outsider listing allow [o; v] n) ∨ n ∈ r_name <$> find_rogues listing o v → T n) →
  touches T P (sweep_listing listing) anything.
Proof.
  intros HT. unfold sweep_listing. eapply touches_bind; [apply touches_lift|]. intros o Ho.
  eapply touches_bind; [apply touches_lift|]. intros v Hv. eapply touches_bind; [apply touches_lift|]. intros mode Hmode.
  cbv zeta. eapply touches_bind; [apply touches_lift|]. intros allow Hal. specialize (HT allow o v Hal Ho Hv).
  apply (touches_bind _ _ _ _ anything).
  - destruct allow as [|a0 al]; [by apply touches_ret|]. unfold _sweep_gpu.
    eapply touches_bind; [apply touches_forget|]. intros _ _.
    eapply touches_bind; [apply find_rogue_gpu_sound|]. intros rogues Hr. apply touches_sweep_each. intros _.
    eapply Forall_impl; [exact Hr|]. intros g Hg. apply HT. left. by split.
  - intros acted _. eapply touches_bind; [|intros more _; by apply touches_ret]. apply touches_stop_daemons. intros _.
    apply Forall_forall. intros r Hr. apply HT. right. by apply list_elem_of_fmap_2.
Qed.
End guard_lemmas.

(** A second daemon: it runs an image of its kind, it is not ours, and ours of that kind
    runs too. *)
Definition second_daemon (listing : list listed) (o v n : string) : Prop :=
  ∃ c own kind, c ∈ listing ∧ is_running_ c = true ∧ _name c = n ∧ image_kind (l_image c) = Some kind ∧
    n ≠ ours_of o v kind ∧
    own ∈ listing ∧ is_running_ own = true ∧ _name own = ours_of o v kind ∧ image_kind (l_image own) = Some kind.
Lemma find_rogues_sound containers o v r :
  r ∈ find_rogues containers o v → second_daemon containers o v (r_name r).
Proof.
  unfold find_rogues. intros (c & [Hc Hrun]%elem_of_Lfilter & Hr)%list_elem_of_omap.
  destruct (image_kind (l_image c)) as [k|] eqn:Ek; [|done].
  destruct (existsb _ _) eqn:Ep; [|done]. cbn [negb] in Hr.
  apply existsb_exists in Ep as (own & [Ho Horun]%list_elem_of_In%elem_of_Lfilter & [Hn Hk]%andb_true_iff).
  apply String.eqb_eq in Hn. apply bool_decide_eq_true in Hk.
  destruct (String.eqb_spec (_name c) (ours_of o v k)) as [|Hne]; [done|]. injection Hr as <-. cbn.
  exists c, own, k. by split_and!.
Qed.

(** The names the engine's own containers go by are not worn by a server of the other kind. *)
Definition names_are_true (listing : list listed) (o v : string) : Prop :=
  ∀ c, c ∈ listing → is_running_ c = true →
    (_name c = o → image_kind (l_image c) ≠ Some "vllm") ∧ (_name c = v → image_kind (l_image c) ≠ Some "ollama").

Lemma image_kind_two image k : image_kind image = Some k → k = "ollama" ∨ k = "vllm".
Proof.
  unfold image_kind. destruct (negb _); [done|]. cbn [kind_of _REPOS]. destruct (existsb _ _); [intros [= <-]; by left|].
  destruct (existsb _ _); [intros [= <-]; by right|done].
Qed.

(** What the memory of the guard or docker itself says of a container: it uses the GPU *)
Definition uses_gpu_by `{Dockerd} (g : guard) (cid : string) : Prop :=
  (∃ policy, dict_get cid (gpu_facts g) = Some (true, policy)) ∨
  (∃ h status i, on_look h cid = Ok (status, Some i) ∧ status < 400 ∧ uses_gpu i = true).
(** What a sweep may change: a GPU user that was not allowed, where an allow-list is set,
    and a second daemon *)
Definition target `{WorkerEnv} `{Dockerd} (g : guard) (listing : list listed) (o v n : string) : Prop :=
  (∃ allow, allowed_prefixes = Ok allow ∧ allow ≠ [] ∧ outsider (uses_gpu_by g) listing allow [o; v] n) ∨
  second_daemon listing o v n.

Lemma target_is_not_ours `{WorkerEnv} `{Dockerd} g listing o v n :
  names_are_true listing o v → target g listing o v n → n ≠ o ∧ n ≠ v.
Proof.
  intros Hnames [(allow & _ & _ & c & _ & _ & _ & Hna & _)|(c & _ & kind & Hc & Hrun & Hn & Hik & Hne & _)].
  - unfold is_allowed in Hna. apply orb_false_iff in Hna as [Hna%bool_decide_eq_false _]. set_solver.
  - destruct (Hnames c Hc Hrun) as [N1 N2]. rewrite Hn, Hik in N1, N2. unfold ours_of in Hne.
    destruct (image_kind_two _ _ Hik) as [->| ->]; cbn in Hne;
      (split; intros E; [|]; try (by destruct (N1 E)); try (by destruct (N2 E)); congruence).
Qed.

(** C34: what the sweep may stop.  Every call of a sweep that changes a container changes one
    that the listing docker just gave shows running, and that is a second daemon (an ollama
    or vLLM image beside our own running container of that kind, and not that container) or,
    only where an allow-list is set, a container that uses the GPU, is neither of ours by
    name nor named by the list, as a prefix or as a project.  It is neither our ollama nor
    our vLLM, as long as no running container that wears the name of one runs the image of
    the other; one that does counts as a second daemon ([misnamed_server_is_stopped]).
    This holds whatever the guard remembers and docker answers, errors included. *)
Theorem sweep_spares_our_servers `{WorkerEnv} `{Dockerd} now o v g h r g' h' :
  container_name "ollama" = Ok o → container_name "vllm" = Ok v →
  sweep now g h = (r, g', h') →
  ∃ k, h' = k ++ h ∧
    Forall (confined (λ n, ∃ status listing, on_list h = Ok (status, Some listing) ∧
      target g listing o v n ∧ (names_are_true listing o v → n ≠ o ∧ n ≠ v))) k.
Proof.
  intros Ho Hv Hs. set (T := λ n : string, ∃ status listing, _).
  unfold sweep in Hs. unfold mbind at 1, G_bind at 1 in Hs. unfold G_lift at 1 in Hs.
  destruct (_env_flag _) as [off|x]; [|injection Hs as <- <- <-; by exists []].
  destruct off; [injection Hs as <- <- <-; by exists []|].
  unfold mbind at 1, G_bind at 1 in Hs. unfold waits at 1 in Hs.
  destruct (now <? no_socket_until g); [injection Hs as <- <- <-; by exists []|].
  unfold mbind at 1, G_bind at 1 in Hs. unfold list_containers at 1 in Hs.
  set (c := mkCall "GET" "/containers/json" None) in *.
  assert (∃ k, c :: h = k ++ h ∧ Forall (confined T) k) as Hk.
  { exists [c]. split; [done|]. constructor; [by left|constructor]. }
  destruct (on_list h) as [[status [listing|]]|x] eqn:El.
  2:{ injection Hs as <- <- <-. exact Hk. }
  2:{ destruct (no_socket x); injection Hs as <- <- <-; exact Hk. }
  destruct (400 <=? status); [injection Hs as <- <- <-; exact Hk|].
  assert (touches T (uses_gpu_by g) (sweep_listing listing) anything) as Ht.
  { apply touches_sweep_listing; [unfold uses_gpu_by; eauto 8|].
    intros allow o' v' Hal Ho' Hv'. assert (o' = o ∧ v' = v) as [-> ->] by (split; congruence).
    assert (∀ n, target g listing o v n → T n) as HT.
    { intros n Hn. exists status, listing. split_and!; [done..|]. intros Hnames. by eapply target_is_not_ours. }
    intros n [[Hne Hout]|(r0 & -> & Hr0)%list_elem_of_fmap]; apply HT; [left; eauto|right].
    by apply find_rogues_sound. }
  specialize (Ht g (c :: h)). rewrite Hs in Ht. destruct Ht as (_ & (k & -> & Hk1) & _).
  { intros cid policy Hg. left. eauto. }
  exists (k ++ [c]). rewrite <- app_assoc. split; [done|]. apply Forall_app. split; [done|]. constructor; [by left|constructor].
Qed.

(** Report mode changes nothing at all. *)
Lemma report_mode_only_reads `{WorkerEnv} `{Dockerd} listing mode :
  env_get "QUEUE_WORKFLOWS_ROGUE_LLM_GUARD" None = Ok mode → PyStr.lower (PyStr.strip (default "" mode)) = "report" →
  touches (λ _, False) anything (sweep_listing listing) anything.
Proof.
  intros Hm Hr. unfold sweep_listing. eapply touches_bind; [apply touches_lift|]. intros o Ho.
  eapply touches_bind; [apply touches_lift|]. intros v Hv. eapply touches_bind; [apply touches_lift|]. intros m Hmode.
  rewrite Hm in Hmode. injection Hmode as <-. cbv zeta. rewrite Hr. cbn [String.eqb].
  eapply touches_bind; [apply touches_lift|]. intros allow Hal. apply (touches_bind _ _ _ _ anything).
  - destruct allow as [|a0 al]; [by apply touches_ret|]. unfold _sweep_gpu.
    eapply touches_bind; [apply touches_forget|]. intros _ _.
    eapply touches_bind; [by apply find_rogue_gpu_sound|]. intros rogues _. by apply touches_sweep_each.
  - intros acted _. eapply touches_bind; [|intros more _; by apply touches_ret]. by apply touches_stop_daemons.
Qed.

(** ** Witnesses *)

Module RogueDemo.
Definition env : WorkerEnv := {|
  os_environ := [("QUEUE_WORKFLOWS_GPU_CONTAINER_ALLOW", "broker-, train")];
  config_cpu_worker_threads := JInt 4;
  config_gpu_box_max_concurrent := JNull;
|}.
Definition listing : list listed :=
  [mkListed "running" ["/broker-ollama"] "ollama/ollama:0.5" "1" "";
   mkListed "running" ["/bench"] "registry:5000/ollama/ollama@sha256:1" "2" "";
   mkListed "running" ["/web"] "acme/web:2" "3" "site";
   mkListed "running" ["/trainer"] "acme/train" "4" "";
   mkListed "exited" ["/old"] "ollama/ollama" "5" ""].
Definition docker : Dockerd := {|
  on_list _ := Ok (200, Some listing);
  on_look _ id := Ok (200, Some (mkInspected (String.eqb id "3") "" [] "always"));
  on_post _ _ := Ok (204, JNull);
|}.
Example kinds : (image_kind ∘ l_image) <$> listing = [Some "ollama"; Some "ollama"; None; None; Some "ollama"].
Proof. vm_compute. reflexivity. Qed.
Lemma names_true : names_are_true listing "broker-ollama" "vllm".
Proof.
  intros c Hc _. unfold listing in Hc. repeat (apply elem_of_cons in Hc as [->|Hc]); [..|by apply elem_of_nil in Hc];
    split; intros E; vm_compute in E |- *; done.
Qed.
End RogueDemo.

(** A sweep of the demo box stops the service on the GPU and the second ollama; the allowed
    trainer, our own ollama and the exited container stay. *)
Lemma sweep_spares_our_servers_witness :
  ∃ g h, @sweep RogueDemo.env RogueDemo.docker 0 fresh_guard [] = (Ok ["web"; "bench"], g, h) ∧
    Forall (confined (λ n, n ≠ "broker-ollama" ∧ n ≠ "vllm")) h.
Proof.
  eexists _, _. split; [vm_compute; reflexivity|].
  edestruct (@sweep_spares_our_servers RogueDemo.env RogueDemo.docker 0 "broker-ollama" "vllm" fresh_guard [])
    as (k & Hk & Hf); [reflexivity|reflexivity|vm_compute; reflexivity|].
  rewrite app_nil_r in Hk. rewrite Hk. eapply Forall_impl; [exact Hf|].
  intros c [Hc|(n & (status & l & [= _ <-] & _ & Hn) & Hc)]; [by left|right].
  exists n. split; [exact (Hn RogueDemo.names_true)|exact Hc].
Defined.

(** A container named [vllm] that runs an ollama image, beside our ollama *)
Lemma misnamed_server_is_stopped :
  let listing := [mkListed "running" ["/broker-ollama"] "ollama/ollama" "1" "";
                  mkListed "running" ["/vllm"] "ollama/ollama" "2" ""] in
  r_name <$> find_rogues listing "broker-ollama" "vllm" = ["vllm"].
Proof. vm_compute. reflexivity. Qed.
