(* ===== verification/Backends.v ===== *)
(** * The LLM backends of a worker ([queue_workflows/llm_backends/])

    Which server a job's requests go to: the topology file ([topology.py]), the request
    accounting every backend shares ([base.py]), the idle supervisor ([supervisor.py]), the
    life cycle of the vLLM sidecar ([vllm.py]), the cache of live backends and the choice of
    a server for a job ([factory.py]).  Instants and spans are microseconds.  What a probe, a
    hook or a file answers is an argument; threads are the order of the calls. *)

From S2P Require Import Prelude Json PyText Refs Schema NodeQueue Claim Reclaim Watchdogs WorkerLanes WorkerControl.
Local Open Scope string_scope.
Local Open Scope list_scope.
Local Open Scope Z_scope.

(** ** The topology file *)

Module Topology.
Section topology.
Context `{PyEnv}.
Definition _SERVER_KINDS : list string := ["ollama"; "vllm"].

(** [str(val.get(k) or "").strip()] *)
Definition text_at (k : string) (d : dict) : string :=
  match dict_get k d with Some v => if truthy v then PyStr.strip (py_str v) else "" | None => "" end.

(** One entry of [boxes:]: None when it is ignored *)
Definition parse_box (v : json) : option dict :=
  match v with
  | JStr s => if PyStr.truthy (PyStr.strip s) then Some [("url", JStr (PyStr.strip s))] else None
  | JObj d =>
      if PyStr.truthy (text_at "url" d)
      then Some (dict_merge d [("url", JStr (text_at "url" d))])
      else if existsb (λ k, PyStr.truthy (text_at k d)) _SERVER_KINDS
      then Some (dict_merge d (omap (λ k, match dict_get k d with
                                          | Some v => if truthy v then Some (k, JStr (PyStr.strip (py_str v))) else None
                                          | None => None
                                          end) _SERVER_KINDS))
      else None
  | _ => None
  end.
Abbreviation boxes := (list (string * dict)).

(** [_parse]: what reading the file as YAML gave; a missing parser is an exception *)
Definition _parse (yaml : result json) : boxes :=
  match yaml with
  | Ok (JObj doc) =>
      match dict_get "boxes" doc with
      | Some (JObj raw) =>
          foldl (λ out lv, match parse_box lv.2 with Some e => dict_set lv.1 e out | None => out end) [] raw
      | _ => []
      end
  | _ => []
  end.

(** [_load] and [_load_doc]: the parse of the file as it was at an mtime *)
Abbreviation cache V := (list (string * (Z * V))).
Definition load {V} (parse : result json → V) (nothing : V) (mtime : option Z) (yaml : result json)
    (path : string) (c : cache V) : V * cache V :=
  match mtime with
  | None => (nothing, c)
  | Some m =>
      match dict_get path c with
      | Some (m', v) => if m' =? m then (v, c) else let v := parse yaml in (v, dict_set path (m, v) c)
      | None => let v := parse yaml in (v, dict_set path (m, v) c)
      end
  end.
Definition _load : option Z → result json → string → cache boxes → boxes * cache boxes := load _parse [].
Definition doc_of (yaml : result json) : dict := match yaml with Ok (JObj d) => d | _ => [] end.
Definition _load_doc : option Z → result json → string → cache dict → dict * cache dict := load doc_of [].

(** [resolve], [resolve_for] on the loaded boxes; an entry is never empty *)
Definition resolve (b : boxes) (host_label : string) : option dict :=
  match dict_get host_label b with
  | Some e => Some e
  | None => dict_get "default" b
  end.
Definition resolve_for (b : boxes) (host_label server_type : string) : option string :=
  match resolve b host_label with
  | None => None
  | Some e =>
      if PyStr.truthy (text_at server_type e) then Some (text_at server_type e)
      else if PyStr.truthy (text_at "url" e) then Some (text_at "url" e) else None
  end.
(** [setting] on the loaded document *)
Definition setting (doc : dict) (key : string) : option json :=
  match dict_get "settings" doc with Some (JObj block) => dict_get key block | _ => None end.
End topology.
End Topology.

(** ** URLs *)

Definition DEFAULT_OLLAMA_URL : string := "http://host.docker.internal:11434".
Definition DEFAULT_VLLM_URL : string := "http://host.docker.internal:8000".
Definition DEFAULT_CONFIG_TTL : Z := 10 * 1000000.

Definition _normalize_ollama (url : string) : string := Txt.rstrip_char "/" url.
Definition _normalize_vllm (url : string) : string :=
  let u := Txt.rstrip_char "/" url in
  let u := if Txt.endswith "/v1" u then Txt.removesuffix "/v1" u else u in
  Txt.rstrip_char "/" u.

(** The overrides and settings of a factory *)
Class FactoryConfig := {
  ttl_us : Z;
  ollama_url_override : option string;
  vllm_url_override : option string;
  ollama_url_env : string;
  vllm_url_env : string;
}.

Section urls.
Context `{WorkerEnv} `{FactoryConfig}.
(** [topo] is what the topology file answers for this box, by kind *)
Implicit Types (topo : string → option string).

(** [_topology_url]: the box's own label names its entry *)
Definition _topology_url `{PyEnv} (path : option string) (host_label_env : string) (b : list (string * dict))
    (server_type : string) : result (option string) :=
  if negb (PyStr.truthy (default "" path)) then Ok None else
  raw ← env_get host_label_env (Some "");
  let host_label := PyStr.strip (default "" raw) in
  Ok (if PyStr.truthy host_label then Topology.resolve_for b host_label server_type else None).

(** The override, the topology, the environment, the default *)
Definition base_url (override topo_url : option string) (env dflt : string) (normalize : string → string) : result string :=
  match override with
  | Some u => Ok (normalize u)
  | None =>
      match topo_url with
      | Some t => Ok (normalize t)
      | None => raw ← env_get env (Some "");
                let s := PyStr.strip (default "" raw) in
                Ok (normalize (if PyStr.truthy s then s else dflt))
      end
  end.
Definition _ollama_base_url topo : result string :=
  base_url ollama_url_override (topo SERVER_TYPE_OLLAMA) ollama_url_env DEFAULT_OLLAMA_URL _normalize_ollama.
Definition _vllm_base_url topo : result string :=
  base_url vllm_url_override (topo SERVER_TYPE_VLLM) vllm_url_env DEFAULT_VLLM_URL _normalize_vllm.
Definition _base_url_for topo (server_type : string) : result string :=
  if String.eqb server_type SERVER_TYPE_VLLM then _vllm_base_url topo else _ollama_base_url topo.
End urls.

(** ** The request accounting of a backend *)

Inductive VLLMState := DEAD | LOADING | SERVING | SLEEPING_L2 | RELOADING | UNSUPPORTED_SLEEP.
#[export] Instance VLLMState_eq_dec : EqDecision VLLMState.
Proof. solve_decision. Defined.

Record backend := mkBackend {
  b_server_type : string;
  b_base_url : string;
  b_parallelism : Z;
  b_idle_ttl : Z;
  b_inflight : Z;
  b_last_used : Z;
  b_current_model : option string;
  (** the life cycle, of vLLM only *)
  b_state : VLLMState;
  b_served : option string;
  b_sleep_unsupported : bool;
}.

Definition fresh_backend (server_type url : string) (par ttl now : Z) (served : option string) : backend :=
  mkBackend server_type (Txt.rstrip_char "/" url) par ttl 0 now None
    (match served with Some _ => SERVING | None => DEAD end) served false.

Definition set_requests (inflight last_used : Z) (model : option string) (b : backend) : backend :=
  mkBackend (b_server_type b) (b_base_url b) (b_parallelism b) (b_idle_ttl b) inflight last_used model
    (b_state b) (b_served b) (b_sleep_unsupported b).
Definition set_life (s : VLLMState) (served : option string) (sleep_unsupported : bool) (b : backend) : backend :=
  mkBackend (b_server_type b) (b_base_url b) (b_parallelism b) (b_idle_ttl b) (b_inflight b) (b_last_used b)
    (b_current_model b) s served sleep_unsupported.

Definition mark_request_start (model_id : string) (now : Z) (b : backend) : backend :=
  set_requests (b_inflight b + 1) now (Some model_id) b.
Definition mark_request_end (now : Z) (b : backend) : backend :=
  set_requests (Z.max 0 (b_inflight b - 1)) now (b_current_model b) b.
Definition idle_seconds (now : Z) (b : backend) : Z :=
  if 0 <? b_inflight b then 0 else Z.max 0 (now - b_last_used b).

(** ** The life cycle of the sidecar *)

(** A probe that raises is a server that is down. *)
Definition is_running (health : result bool) : bool := match health with Ok b => b | Raise _ => false end.

(** [_do_stop_locked]; [kill] is what the hook answered *)
Definition _do_stop_locked (kill : bool) (b : backend) : bool * backend :=
  (kill, set_life DEAD None (b_sleep_unsupported b) b).
Definition vllm_stop_server (health : result bool) (kill : bool) (b : backend) : bool * backend :=
  if bool_decide (b_state b = DEAD) && negb (is_running health) then (false, b) else _do_stop_locked kill b.
(** [stop_server] by kind: the daemon of ollama is never stopped *)
Definition stop_server (health : result bool) (kill : bool) (b : backend) : bool * backend :=
  if String.eqb (b_server_type b) SERVER_TYPE_VLLM then vllm_stop_server health kill b else (false, b).

(** [_await_health] over the polls: the probe's answer and the clock after it; None while
    the history has not ended the wait *)
Definition TimeoutError : exc := OtherError "TimeoutError".
Fixpoint _await_health (deadline : Z) (polls : list (result bool * Z)) : option (result ()) :=
  match polls with
  | [] => None
  | (health, now) :: r =>
      if is_running health then Some (Ok ())
      else if deadline <=? now then Some (Raise TimeoutError)
      else _await_health deadline r
  end.

(** What one bring-up meets: the probe at its start, the kill, the bring-up hook, the
    polls, the served id *)
Record bringup := mkBringup {
  br_health : result bool;
  br_kill : bool;
  br_up : result ();
  br_deadline : Z;
  br_polls : list (result bool * Z);
  br_served : result (option string);
}.

(** After the lock is released: bring up, wait, reconcile *)
Definition bring_up (model_id : string) (e : bringup) (b : backend) : option (result () * backend) :=
  match br_up e with
  | Raise x => Some (Raise x, b)
  | Ok _ =>
      match _await_health (br_deadline e) (br_polls e) with
      | None => None
      | Some (Raise x) => Some (Raise x, b)
      | Some (Ok _) =>
          let probed := match br_served e with Ok (Some s) => if PyStr.truthy s then Some s else None | _ => None end in
          let observed := default model_id probed in
          let b := set_life SERVING (Some observed) (b_sleep_unsupported b) b in
          Some (if String.eqb observed model_id then Ok () else Raise (RuntimeError "wrong model"), b)
      end
  end.

(** The in-place reload is not wired: it raises, and is never tried again. *)
Definition ensure_ready (model_id : string) (e : bringup) (b : backend) : option (result () * backend) :=
  let running := is_running (br_health e) in
  if running && bool_decide (b_served b = Some model_id)
  then Some (Ok (), set_life SERVING (b_served b) (b_sleep_unsupported b) b)
  else
    let b :=
      if running then
        let b := set_life RELOADING (b_served b) (b_sleep_unsupported b) b in
        let b := if b_sleep_unsupported b then b else set_life UNSUPPORTED_SLEEP (b_served b) true b in
        (_do_stop_locked (br_kill e) b).2
      else b in
    bring_up model_id e (set_life LOADING (b_served b) (b_sleep_unsupported b) b).

(** ** The idle supervisor *)

Definition POLL_FLOOR : Z := 5 * 1000000.
Definition POLL_CEIL : Z := 60 * 1000000.
Definition vllm_should_stop (running : bool) (inflight idle ttl : Z) : bool :=
  if ttl <=? 0 then false else running && (inflight <=? 0) && (ttl <=? idle).
Definition supervisor_enabled (disable_env : option string) (b : backend) : bool :=
  match disable_env with Some s => negb (PyStr.truthy s) | None => true end
  && String.eqb (b_server_type b) SERVER_TYPE_VLLM && (0 <? b_idle_ttl b).
(** [health] is the probe of the tick, [health'] the one of the stop *)
Definition reap_idle_once (health health' : result bool) (kill : bool) (now : Z) (b : backend) : bool * backend :=
  if negb (String.eqb (b_server_type b) SERVER_TYPE_VLLM) then (false, b)
  else if vllm_should_stop (is_running health) (b_inflight b) (idle_seconds now b) (b_idle_ttl b)
  then stop_server health' kill b else (false, b).
Definition supervisor_poll (poll : option Z) (b : backend) : Z :=
  match poll with Some p => p | None => Z.max POLL_FLOOR (Z.min POLL_CEIL (b_idle_ttl b / 5)) end.

(** ** The factory *)

Record _Snapshot := mkSnapshot { sn_server_type : string; sn_parallelism : Z; sn_idle_ttl_s : Z }.
#[export] Instance Snapshot_eq_dec : EqDecision _Snapshot.
Proof. solve_decision. Defined.
Definition from_config (cfg : LLMConfig) (kind : option string) : _Snapshot :=
  mkSnapshot (match kind with Some k => if PyStr.truthy k then k else server_type cfg | None => server_type cfg end)
             (parallelism cfg) (idle_ttl_s cfg).

Definition key : Type := string * string * string.
#[export] Instance key_eq_dec : EqDecision key := _.
(** A cached slot; a backend is named by its place among all that were ever built *)
Record _Entry := mkEntry { e_snapshot : _Snapshot; e_backend : nat; e_last_check : Z; e_invalid : bool }.
Record factory := mkFactory {
  f_cache : list (key * _Entry);
  f_built : list backend;
  f_torn : list nat;
}.
Definition new_factory : factory := mkFactory [] [] [].

Definition cached (k : key) (fs : factory) : option _Entry :=
  snd <$> List.find (λ ke, bool_decide (ke.1 = k)) (f_cache fs).
Fixpoint put (k : key) (e : _Entry) (c : list (key * _Entry)) : list (key * _Entry) :=
  match c with
  | [] => [(k, e)]
  | (k', e') :: r => if bool_decide (k' = k) then (k, e) :: r else (k', e') :: put k e r
  end.

Section factory.
Context `{WorkerEnv} `{FactoryConfig}.

(** The backend of a snapshot; ollama minds its own idle *)
Definition _build_backend (url : string) (sn : _Snapshot) (now : Z) : backend :=
  fresh_backend (if String.eqb (sn_server_type sn) SERVER_TYPE_VLLM then SERVER_TYPE_VLLM else SERVER_TYPE_OLLAMA)
    url (sn_parallelism sn)
    (if String.eqb (sn_server_type sn) SERVER_TYPE_VLLM then sn_idle_ttl_s sn * 1000000 else 0) now None.

(** [get_backend] once the configuration was read *)
Definition get_backend_with (topo : string → option string) (cfg : LLMConfig) (host queue : string)
    (kind : option string) (now : Z) (fs : factory) : result nat * factory :=
  let snapshot := from_config cfg kind in
  let k := (host, queue, sn_server_type snapshot) in
  let rebuild := λ torn : list nat,
    match _base_url_for topo (sn_server_type snapshot) with
    | Raise x => (Raise x, mkFactory (f_cache fs) (f_built fs) (f_torn fs ++ torn))
    | Ok url =>
        let id := length (f_built fs) in
        (Ok id, mkFactory (put k (mkEntry snapshot id now false) (f_cache fs))
                  (f_built fs ++ [_build_backend url snapshot now]) (f_torn fs ++ torn))
    end in
  match cached k fs with
  | Some e =>
      if negb (e_invalid e) && (now - e_last_check e <? ttl_us) then (Ok (e_backend e), fs)
      else if bool_decide (e_snapshot e = snapshot)
      then (Ok (e_backend e), mkFactory (put k (mkEntry (e_snapshot e) (e_backend e) now false) (f_cache fs))
                                (f_built fs) (f_torn fs))
      else rebuild [e_backend e]
  | None => rebuild []
  end.

Definition invalidate (host queue : string) (fs : factory) : factory :=
  mkFactory ((λ ke, if String.eqb ke.1.1.1 host && String.eqb ke.1.1.2 queue
                    then (ke.1, mkEntry (e_snapshot ke.2) (e_backend ke.2) (e_last_check ke.2) true) else ke)
             <$> f_cache fs) (f_built fs) (f_torn fs).
(** [stop]: every cached backend is released *)
Definition factory_stop (fs : factory) : factory :=
  mkFactory [] (f_built fs) (f_torn fs ++ (e_backend ∘ snd <$> f_cache fs)).
(** [_handle_notify]: a payload [host|queue] *)
Definition _handle_notify (payload : option string) (fs : factory) : factory :=
  match payload with
  | Some p => match PyStr.split1 "|" p with
              | (host, Some queue) => if PyStr.truthy host && PyStr.truthy queue then invalidate host queue fs else fs
              | _ => fs
              end
  | None => fs
  end.
End factory.

(** [get_backend]: the configuration is read from the database first, on every call *)
Definition get_backend `{WorkerEnv} `{FactoryConfig} (topo : string → option string)
    (cfg : result LLMConfig) (host queue : string) (kind : option string) (now : Z) (fs : factory)
    : result nat * factory :=
  match cfg with
  | Ok cfg => get_backend_with topo cfg host queue kind now fs
  | Raise x => (Raise x, fs)
  end.

(** ** The server of a job *)

Definition COLD_START_KINDS : list string := [SERVER_TYPE_VLLM].
Definition DEFAULT_COLD_START_MIN_QUEUE : Z := 5.

(** [setting_] is the topology's [vllm_min_queue]: what reading it gave *)
Definition resolve_cold_start_min_queue `{WorkerEnv} (setting_ : result (option json)) : result Z :=
  raw ← env_get "QUEUE_WORKFLOWS_VLLM_MIN_QUEUE" None;
  let fallback :=
    match setting_ with
    | Ok (Some v) => match v with
                     | JNull => DEFAULT_COLD_START_MIN_QUEUE
                     | _ => match py_int v with Ok n => Z.max 0 n | Raise _ => DEFAULT_COLD_START_MIN_QUEUE end
                     end
    | _ => DEFAULT_COLD_START_MIN_QUEUE
    end in
  Ok (match raw with
      | Some s => if PyStr.truthy s then match PyStr.int s with Some n => Z.max 0 n | None => fallback end else fallback
      | None => fallback
      end).

(** Is this kind skipped: expensive to start, cold, and too few jobs waiting? *)
Definition gated (warm : list string) (pending min_queue : Z) (p : string) : bool :=
  (0 <? min_queue) && bool_decide (p ∈ COLD_START_KINDS) && negb (bool_decide (p ∈ List.filter PyStr.truthy warm))
  && (pending <? min_queue).
(** The loop over the eligible kinds: a kind is skipped only when another follows it *)
Fixpoint first_worth (warm : list string) (pending min_queue : Z) (eligible : list string) : option string :=
  match eligible with
  | [] => None
  | p :: r => if gated warm pending min_queue p && (0 <? length r)%nat then first_worth warm pending min_queue r
              else Some p
  end.
Definition choose_server_type (preference available warm : list string) (pending min_queue : Z) : option string :=
  let prefs := List.filter PyStr.truthy preference in
  match prefs with
  | [] => None
  | p0 :: _ =>
      let have := List.filter PyStr.truthy available in
      match have with
      | [] => Some p0
      | _ => let eligible := List.filter (λ p, bool_decide (p ∈ have)) prefs in
             match first_worth warm pending min_queue eligible with
             | Some p => Some p
             | None => head eligible
             end
      end
  end.

(** *** Liveness, remembered *)

Definition _PROBE_TTL : Z := 5 * 1000000.
Definition _PROBE_GRACE : Z := 15 * 1000000.
Record probes := mkProbes { p_cache : list (string * (Z * bool)); p_last_alive : list (string * Z) }.
Definition no_probes : probes := mkProbes [] [].

(** One kind of [_probe_available]; [answers] tells whether it answers now *)
Definition probe_kind (answers : string → bool) (now : Z) (kind : string) (ps : probes) : bool * probes :=
  let ask := λ _ : (),
    let alive := answers kind in
    let last := if alive then dict_set kind now (p_last_alive ps) else p_last_alive ps in
    let alive := alive || match dict_get kind (p_last_alive ps) with
                          | Some t => now - t <? _PROBE_GRACE
                          | None => false
                          end in
    (alive, mkProbes (dict_set kind (now, alive) (p_cache ps)) last) in
  match dict_get kind (p_cache ps) with
  | Some (t, alive) => if now - t <? _PROBE_TTL then (alive, ps) else ask ()
  | None => ask ()
  end.
Fixpoint _probe_available (answers : string → bool) (now : Z) (kinds : list string) (ps : probes)
    : list string * probes :=
  match kinds with
  | [] => ([], ps)
  | k :: r => let '(alive, ps) := probe_kind answers now k ps in
              let '(out, ps) := _probe_available answers now r ps in
              (if alive then k :: out else out, ps)
  end.

(** [cached_default_kind]: the box default with the same time to live *)
Definition default_kinds : Type := list (string * string * (Z * string)).
Definition cached_default_kind (cfg : result LLMConfig) (host queue : string) (now : Z) (c : default_kinds)
    : result (string * default_kinds) :=
  let read := λ _ : (),
    cfg ← cfg;
    Ok (server_type cfg, (host, queue, (now, server_type cfg)) ::
          List.filter (λ e, negb (String.eqb e.1.1 host && String.eqb e.1.2 queue)) c) in
  match List.find (λ e, String.eqb e.1.1 host && String.eqb e.1.2 queue) c with
  | Some (_, (t, kind)) => if now - t <? _PROBE_TTL then Ok (kind, c) else read ()
  | None => read ()
  end.

(** *** The dispatch of one job *)

(** What the dispatcher reads of the row *)
Record job_view := mkView {
  jv_id : option string;
  jv_server_types : list string;
  jv_resolved_server : option string;
  jv_required_model : option string;
}.
(** What one dispatch meets: the clock, which servers answer, which models one serves, the
    topology's setting, how many rows wait for a kind, the row of the box's settings *)
Record dispatch_env := mkDispatch {
  de_now : Z;
  de_answers : string → bool;
  de_served : string → result (list string);
  de_setting : result (option json);
  de_pending : string → result Z;
  de_cfg : result LLMConfig;
}.

Definition ALL_KINDS : list string := [SERVER_TYPE_OLLAMA; SERVER_TYPE_VLLM].
(** [dict.fromkeys]: the first occurrences *)
Definition dedup (l : list string) : list string :=
  foldl (λ out k, if bool_decide (k ∈ out) then out else out ++ [k]) [] l.

(** Warm kinds and the rows that wait for a cold one, over the preferred kinds *)
Definition amortisation (e : dispatch_env) (model : option string) (prefs : list string) : list string * Z :=
  foldl (λ acc kind,
    let '(warm, pending) := acc in
    if negb (bool_decide (kind ∈ COLD_START_KINDS)) then acc else
    let hot := match de_served e kind with
               | Ok served => match model with
                              | Some m => if PyStr.truthy m then bool_decide (m ∈ served) else negb (bool_decide (served = []))
                              | None => negb (bool_decide (served = []))
                              end
               | Raise _ => false
               end in
    let warm := if hot then warm ++ [kind] else warm in
    if bool_decide (kind ∈ warm) then (warm, pending)
    else (warm, match de_pending e kind with Ok n => Z.max pending n | Raise _ => pending end))
  ([], 0) prefs.

Section resolve.
Context `{WorkerEnv} `{FactoryConfig}.

(** A job whose stamp does not hold: the no-preference path, then the preferences *)
Definition resolve_fresh (e : dispatch_env) (job : job_view) (available : option (list string)) (host queue : string)
    (ps : probes) (dk : default_kinds) : result (option string) * probes * default_kinds :=
  let probe := _probe_available (de_answers e) (de_now e) in
  let prefs := List.filter PyStr.truthy (jv_server_types job) in
  match prefs with
  | [] =>
      let '(live, ps) := probe ALL_KINDS ps in
      if bool_decide (SERVER_TYPE_VLLM ∈ live) then (Ok (Some SERVER_TYPE_VLLM), ps, dk) else
      match cached_default_kind (de_cfg e) host queue (de_now e) dk with
      | Raise x => (Raise x, ps, dk)
      | Ok (default_kind, dk) =>
          (Ok (if bool_decide (default_kind ∈ live) then Some default_kind
               else match live with [] => Some default_kind | k :: _ => Some k end), ps, dk)
      end
  | _ =>
      let '(available, ps) :=
        match available with Some a => (a, ps) | None => probe (dedup (prefs ++ ALL_KINDS)) ps end in
      let min_queue :=
        if (1 <? length prefs)%nat && existsb (λ p, bool_decide (p ∈ COLD_START_KINDS)) prefs
        then resolve_cold_start_min_queue (de_setting e) else Ok 0 in
      match min_queue with
      | Raise x => (Raise x, ps, dk)
      | Ok mq =>
          let '(warm, pending) := if 0 <? mq then amortisation e (jv_required_model job) prefs else ([], 0) in
          (Ok (choose_server_type prefs available warm pending mq), ps, dk)
      end
  end.

(** The kind a job is served on; None is the box default *)
Definition resolve_kind (e : dispatch_env) (job : job_view) (available : option (list string)) (host queue : string)
    (ps : probes) (dk : default_kinds) : result (option string) * probes * default_kinds :=
  match jv_resolved_server job with
  | Some s =>
      if PyStr.truthy s then
        let '(l, ps) := _probe_available (de_answers e) (de_now e) [s] ps in
        if bool_decide (s ∈ l) then (Ok (Some s), ps, dk) else resolve_fresh e job available host queue ps dk
      else resolve_fresh e job available host queue ps dk
  | None => resolve_fresh e job available host queue ps dk
  end.

(** [_serve]: the row is re-stamped when the job is not served where the claim counted it *)
Definition restamp (job : job_view) (kind : option string) : M () :=
  match kind, jv_resolved_server job, jv_id job with
  | Some k, Some s, Some i =>
      if PyStr.truthy k && PyStr.truthy s && negb (String.eqb k s) && PyStr.truthy i
      then restamp_resolved_server i k else mret ()
  | _, _, _ => mret ()
  end.

Record dispatched := mkDispatched {
  di_backend : result nat;
  di_factory : factory;
  di_probes : probes;
  di_defaults : default_kinds;
  di_world : world;
}.
Definition resolve_for_job (topo : string → option string) (e : dispatch_env) (job : job_view)
    (available : option (list string)) (host queue : string) (fs : factory) (ps : probes) (dk : default_kinds)
    (w : world) : dispatched :=
  match resolve_kind e job available host queue ps dk with
  | (Raise x, ps, dk) => mkDispatched (Raise x) fs ps dk w
  | (Ok kind, ps, dk) =>
      let w := (restamp job kind w).2 in
      let '(r, fs) := get_backend topo (de_cfg e) host queue kind (de_now e) fs in
      mkDispatched r fs ps dk w
  end.
End resolve.

(** ** The choice of a server *)

(** The server of a job is the first of its preferred kinds that the box has and that is
    worth starting; a cold kind with too few jobs behind it is passed over only for a kind
    that follows it, so the last one is taken whatever it costs. *)
Lemma choice_is_the_first_worth_using prefs available warm pending min_queue p :
  List.filter PyStr.truthy available ≠ [] →
  choose_server_type prefs available warm pending min_queue = Some p ↔
  ∃ before after,
    List.filter (λ k, bool_decide (k ∈ List.filter PyStr.truthy available)) (List.filter PyStr.truthy prefs)
      = before ++ p :: after ∧
    Forall (λ k, gated warm pending min_queue k = true) before ∧
    (gated warm pending min_queue p = false ∨ after = []).
Proof.
  intros Hav. unfold choose_server_type.
  set (have := List.filter PyStr.truthy available) in *.
  assert (∀ el, match first_worth warm pending min_queue el with Some q => Some q | None => head el end = Some p ↔
    ∃ before after, el = before ++ p :: after ∧ Forall (λ k, gated warm pending min_queue k = true) before ∧
    (gated warm pending min_queue p = false ∨ after = [])) as Hworth.
  { intros el. assert (first_worth warm pending min_queue el = Some p ↔
      ∃ before after, el = before ++ p :: after ∧ Forall (λ k, gated warm pending min_queue k = true) before ∧
      (gated warm pending min_queue p = false ∨ after = [])) as Hf.
    { induction el as [|q el IH]; cbn [first_worth].
      { split; [done|]. intros (b & a & E & _). by destruct b. }
      destruct (gated warm pending min_queue q) eqn:Eg; cbn [andb]; cycle 1.
      { split.
        - intros [= ->]. exists [], el. auto.
        - intros (b & a & E & Hb & _). destruct b as [|x b]; simplify_eq/=; [done|].
          apply Forall_cons in Hb as [Hx _]. congruence. }
      destruct el as [|q' el]; cbn [length Nat.ltb Nat.leb].
      { split; [intros [= ->]; exists [], []; auto|]. intros (b & a & E & _).
        destruct b as [|x [|? ?]]; by simplify_eq/=. }
      rewrite IH. split; intros (b & a & E & Hb & Hor).
      - exists (q :: b), a. rewrite E. split_and!; [done|by constructor|done].
      - destruct b as [|x b]; simplify_eq/=.
        + destruct Hor; congruence.
        + apply Forall_cons in Hb as [_ Hb]. eauto. }
    rewrite <- Hf. destruct el as [|q el]; [done|]. cbn [head].
    destruct (first_worth warm pending min_queue (q :: el)) eqn:E; [done|]. exfalso. clear -E.
    revert q E. induction el as [|q' el IH]; intros q; cbn [first_worth].
    - by rewrite andb_false_r.
    - destruct (_ && _); [|done]. apply IH. }
  destruct (List.filter PyStr.truthy prefs) as [|p0 prefs'] eqn:Ep.
  - split; [done|]. intros (b & a & E & _). by destruct b.
  - destruct have; [done|]. apply Hworth.
Qed.

(** *** Liveness *)

Section probes.
Context (answers : string → bool) (now : Z).
Implicit Types (ps : probes) (k : string).

Definition alive ps k : bool := (probe_kind answers now k ps).1.

(** A probe leaves the answers of this instant as they are. *)
Lemma probe_stable ps k k' : alive (probe_kind answers now k ps).2 k' = alive ps k'.
Proof.
  unfold alive. destruct (decide (k' = k)) as [->|Hne].
  - unfold probe_kind at 2. destruct (dict_get k (p_cache ps)) as [[t b]|] eqn:E.
    + destruct (now - t <? _PROBE_TTL) eqn:Et; cbn [fst snd].
      * unfold probe_kind. by rewrite E, Et.
      * unfold probe_kind. cbn [p_cache]. rewrite dict_get_set_eq, E, Et, Z.sub_diag. done.
    + cbn [fst snd]. unfold probe_kind. cbn [p_cache]. by rewrite dict_get_set_eq, E, Z.sub_diag.
  - assert (dict_get k' (p_cache (probe_kind answers now k ps).2) = dict_get k' (p_cache ps) ∧
      dict_get k' (p_last_alive (probe_kind answers now k ps).2) = dict_get k' (p_last_alive ps)) as [E1 E2].
    { unfold probe_kind. destruct (dict_get k (p_cache ps)) as [[t b]|]; [destruct (_ <? _)|];
        cbn [fst snd p_cache p_last_alive]; rewrite ?dict_get_set_ne by done; split; try done;
        destruct (answers k); by rewrite ?dict_get_set_ne by done. }
    unfold probe_kind at 1 3. rewrite E1, E2. destruct (dict_get k' (p_cache ps)) as [[t b]|]; [|done].
    by destruct (_ <? _).
Qed.

Lemma probe_available_spec kinds ps :
  (_probe_available answers now kinds ps).1 = List.filter (alive ps) kinds ∧
  ∀ k, alive (_probe_available answers now kinds ps).2 k = alive ps k.
Proof.
  revert ps. induction kinds as [|k kinds IH]; intros ps; [done|]. cbn [_probe_available].
  pose proof (probe_stable ps k) as Hs. unfold alive at 1. cbn [List.filter]. fold (alive ps k).
  change (alive ps k) with (probe_kind answers now k ps).1.
  destruct (probe_kind answers now k ps) as [b ps1] eqn:E. cbn [fst snd] in *.
  destruct (IH ps1) as [H1 H2]. destruct (_probe_available answers now kinds ps1) as [out ps2]. cbn [fst snd] in *.
  split; [|intros k'; by rewrite H2, Hs]. rewrite H1. rewrite (filter_ext (alive ps1) (alive ps) Hs). by destruct b.
Qed.
End probes.

(** *** A server that is reported alive was alive moments ago *)

(** The instants at which each kind really answered *)
Definition answered (hist : list (Z * string)) (k : string) (t : Z) : Prop := (t, k) ∈ hist.
(** What the two tables say, against that history *)
Definition probes_ok (hist : list (Z * string)) (ps : probes) : Prop :=
  (∀ k t, dict_get k (p_last_alive ps) = Some t → answered hist k t) ∧
  (∀ k t, dict_get k (p_cache ps) = Some (t, true) → ∃ t', answered hist k t' ∧ t - t' < _PROBE_GRACE).
(** A sequence of probes, the clock never going back, and the history it leaves *)
Fixpoint probe_all (l : list (Z * string * bool)) (ps : probes) : probes * list (Z * string) :=
  match l with
  | [] => (ps, [])
  | (now, k, a) :: r =>
      let '(_, ps') := probe_kind (λ _, a) now k ps in
      let '(ps'', hist) := probe_all r ps' in
      (ps'', if a then (now, k) :: hist else hist)
  end.

Lemma probe_kind_ok hist (a : bool) now k ps :
  probes_ok hist ps →
  probes_ok (if a then (now, k) :: hist else hist) (probe_kind (λ _, a) now k ps).2 ∧
  ((probe_kind (λ _, a) now k ps).1 = true →
   ∃ t, answered (if a then (now, k) :: hist else hist) k t ∧ now - t < _PROBE_GRACE + _PROBE_TTL).
Proof.
  intros [Hl Hc]. set (hist' := if a then (now, k) :: hist else hist).
  assert (∀ k' t, answered hist k' t → answered hist' k' t) as Hmono.
  { intros k' t Ht. unfold hist'. destruct a; [by right|done]. }
  assert (probes_ok hist' ps) as Hok.
  { split; [eauto|]. intros k' t E. destruct (Hc k' t E) as (t' & ? & ?). eauto. }
  assert (let r := (a || match dict_get k (p_last_alive ps) with Some t => now - t <? _PROBE_GRACE | None => false end) in
    r = true → ∃ t, answered hist' k t ∧ now - t < _PROBE_GRACE) as Hask.
  { intros r. unfold r. destruct a; cbn [orb].
    - intros _. exists now. split; [left|]. unfold _PROBE_GRACE. lia.
    - destruct (dict_get k (p_last_alive ps)) as [t|] eqn:E; [|done]. intros Ht%Z.ltb_lt. eauto. }
  assert (probes_ok hist' (mkProbes (dict_set k (now, a || match dict_get k (p_last_alive ps) with
      Some t => now - t <? _PROBE_GRACE | None => false end) (p_cache ps))
      (if a then dict_set k now (p_last_alive ps) else p_last_alive ps))) as Hnew.
  { split; cbn [p_cache p_last_alive].
    - intros k' t. destruct a; [|by eauto]. destruct (decide (k' = k)) as [->|Hne].
      + rewrite dict_get_set_eq. intros [= <-]. left.
      + rewrite dict_get_set_ne by done. intros E. right. by apply Hl.
    - intros k' t. destruct (decide (k' = k)) as [->|Hne].
      + rewrite dict_get_set_eq. intros [= <- E]. auto.
      + rewrite dict_get_set_ne by done. intros E. destruct (Hc k' t E) as (t' & ? & ?). eauto. }
  unfold probe_kind. destruct (dict_get k (p_cache ps)) as [[t b]|] eqn:E.
  - destruct (Z.ltb_spec (now - t) _PROBE_TTL) as [Ht|Ht]; cbn [fst snd].
    + split; [done|]. intros ->. destruct (Hc k t E) as (t' & ? & ?). exists t'. split; [auto|lia].
    + split; [done|]. intros Ha. destruct (Hask Ha) as (t' & ? & ?). exists t'. split; [done|]. unfold _PROBE_TTL. lia.
  - split; [done|]. intros Ha. destruct (Hask Ha) as (t' & ? & ?). exists t'. split; [done|]. unfold _PROBE_TTL. lia.
Qed.

(** A kind that a probe reports as answering did answer less than twenty seconds before,
    the grace and the time to live together; a kind that never answered is never reported,
    whatever the order of the probes. *)
Lemma reported_alive_is_recent l now k (a : bool) :
  let '(ps, hist) := probe_all l no_probes in
  (probe_kind (λ _, a) now k ps).1 = true →
  a = true ∨ ∃ t, (t, k) ∈ hist ∧ now - t < 20 * 1000000.
Proof.
  assert (∀ l ps h0, probes_ok h0 ps → probes_ok ((probe_all l ps).2 ++ h0) (probe_all l ps).1) as Hall.
  { clear. induction l as [|[[now k] a] l IH]; intros ps h0 Hok; [done|]. cbn [probe_all].
    destruct (probe_kind_ok h0 a now k ps Hok) as [Hok' _].
    destruct (probe_kind (λ _, a) now k ps) as [b ps'] eqn:E. cbn [snd] in Hok'.
    specialize (IH ps' _ Hok'). destruct (probe_all l ps') as [ps'' hist]. cbn [fst snd] in *.
    destruct IH as [H1 H2]. split.
    - intros k' t E'. specialize (H1 k' t E'). unfold answered in *. destruct a; set_solver.
    - intros k' t E'. destruct (H2 k' t E') as (t' & Ht & ?). exists t'. split; [|done].
      unfold answered in *. destruct a; set_solver. }
  assert (probes_ok [] no_probes) as H0 by (split; intros ? ? [=]).
  specialize (Hall l no_probes [] H0). destruct (probe_all l no_probes) as [ps hist]. cbn [fst snd] in Hall.
  rewrite app_nil_r in Hall. intros Ha. destruct a; [by left|]. right.
  destruct (probe_kind_ok hist false now k ps Hall) as [_ H]. destruct (H Ha) as (t & Ht & Hb). exists t.
  split; [done|]. unfold _PROBE_GRACE, _PROBE_TTL in Hb. lia.
Qed.

(** *** The dispatch *)

Lemma dedup_elem l k : k ∈ dedup l ↔ k ∈ l.
Proof.
  unfold dedup. assert (∀ acc, k ∈ foldl (λ out k, if bool_decide (k ∈ out) then out else out ++ [k]) acc l ↔
    k ∈ acc ∨ k ∈ l) as H.
  { induction l as [|x l IH]; intros acc; cbn [foldl]; [set_solver|]. rewrite IH.
    case_bool_decide; set_solver. }
  rewrite H. set_solver.
Qed.

Section dispatch.
Context `{WorkerEnv} `{FactoryConfig}.
Context (e : dispatch_env) (job : job_view) (host queue : string) (ps : probes) (dk : default_kinds).
Let lives := alive (de_answers e) (de_now e) ps.
Let prefs := List.filter PyStr.truthy (jv_server_types job).
(** The kinds that suit a job with no stamp: those it names, or any when it names none *)
Definition suitable : list string := match prefs with [] => ALL_KINDS | _ => prefs end.
(** The stamp of a job, when it has one *)
Definition stamped : option string :=
  match jv_resolved_server job with Some s => if PyStr.truthy s then Some s else None | None => None end.
(** What a dispatch of an unstamped job settles on: a suitable kind that lives.  When none
    does, a job that names no kind gets the default of the box, which is dead then, as all
    are; a job that names some gets the box default, unasked, if another kind lives, and
    its first choice, dead, if none does. *)
Definition settled_on (r : option string) : Prop :=
  (∀ k, k ∈ suitable → lives k = true → ∃ k', r = Some k' ∧ k' ∈ suitable ∧ lives k' = true) ∧
  ((∀ k, k ∈ suitable → lives k = false) →
   match prefs with
   | [] => is_Some r
   | p :: _ => r = if existsb lives ALL_KINDS then None else Some p
   end).

Lemma filter_filter_same {A} (f : A → bool) (l : list A) : List.filter f (List.filter f l) = List.filter f l.
Proof. induction l as [|x l IH]; [done|]. cbn. destruct (f x) eqn:E; cbn; [by rewrite E, IH|done]. Qed.
Lemma first_worth_elem warm pending mq el :
  match first_worth warm pending mq el with Some q => q ∈ el | None => el = [] end.
Proof.
  induction el as [|x el IH]; cbn [first_worth]; [done|]. destruct (_ && _) eqn:E; [|left].
  destruct (first_worth _ _ _ el); [by right|]. subst el. by rewrite andb_false_r in E.
Qed.

(** The choice among the kinds of a probe of them all *)
Lemma choose_settles warm pending mq p r :
  prefs = p :: r →
  settled_on (choose_server_type prefs (List.filter lives (dedup (prefs ++ ALL_KINDS))) warm pending mq).
Proof.
  intros Hp. unfold settled_on, suitable, choose_server_type.
  assert (List.filter PyStr.truthy prefs = prefs) as -> by (unfold prefs; apply filter_filter_same).
  rewrite Hp.
  set (have := List.filter PyStr.truthy _).
  assert (∀ k, k ∈ have ↔ PyStr.truthy k = true ∧ lives k = true ∧ k ∈ prefs ++ ALL_KINDS) as Hh
    by (intros k; unfold have; rewrite !elem_of_Lfilter, dedup_elem, Hp; naive_solver).
  assert (∀ k, k ∈ prefs → PyStr.truthy k = true) as Ht by (intros k Hk; by apply elem_of_Lfilter in Hk as [_ ?]).
  rewrite <- Hp in *. set (el := List.filter _ prefs).
  assert (∀ k, k ∈ el ↔ k ∈ prefs ∧ lives k = true) as Hel.
  { intros k. unfold el. rewrite elem_of_Lfilter, bool_decide_eq_true, Hh. set_solver. }
  pose proof (first_worth_elem warm pending mq el) as Hf. clearbody el. split.
  - intros k Hk Hl. assert (k ∈ have) as Hin by (apply Hh; split_and!; [auto|done|set_solver]).
    destruct have; [by apply elem_of_nil in Hin|].
    destruct (first_worth _ _ _ el) as [q|]; [exists q; split; [done|by apply Hel]|].
    subst el. assert (k ∈ []) as Hn by by apply Hel. by apply elem_of_nil in Hn.
  - intros Hd. assert (el = []) as ->.
    { destruct el as [|q el]; [done|]. destruct (proj1 (Hel q)) as [Hq Hl]; [left|]. by rewrite Hd in Hl. }
    clear Hf Hel. destruct (existsb lives ALL_KINDS) eqn:E.
    + apply existsb_exists in E as (k & Hk%list_elem_of_In & Hl).
      assert (k ∈ have) as Hin.
      { apply Hh. split_and!; [|done|set_solver]. unfold ALL_KINDS in Hk.
        by apply elem_of_cons in Hk as [-> | ->%list_elem_of_singleton]. }
      destruct have; [by apply elem_of_nil in Hin|done].
    + destruct have as [|k have]; [done|]. exfalso.
      destruct (proj1 (Hh k)) as (_ & Hl & Hk); [left|]. apply elem_of_app in Hk as [Hk|Hk]; [by rewrite Hd in Hl|].
      assert (existsb lives ALL_KINDS = true) as E'; [|congruence].
      apply existsb_exists. exists k. by rewrite <- list_elem_of_In.
Qed.

Lemma resolve_fresh_settles ps1 ps' dk' r :
  (∀ k, alive (de_answers e) (de_now e) ps1 k = lives k) →
  resolve_fresh e job None host queue ps1 dk = (Ok r, ps', dk') → settled_on r.
Proof.
  intros Hps. unfold resolve_fresh.
  destruct (probe_available_spec (de_answers e) (de_now e) ALL_KINDS ps1) as [Hall _].
  destruct (probe_available_spec (de_answers e) (de_now e) (dedup (prefs ++ ALL_KINDS)) ps1) as [Hcand _].
  rewrite (filter_ext _ _ Hps) in Hall, Hcand. pose proof choose_settles as Hch.
  fold prefs. destruct prefs as [|p0 r0] eqn:Ep.
  - clear Hch. destruct (_probe_available _ _ ALL_KINDS ps1) as [live ps2]. cbn [fst] in Hall. subst live.
    assert (∀ k, k ∈ List.filter lives ALL_KINDS → settled_on (Some k)) as Hl.
    { intros k [Hin Hk]%elem_of_Lfilter. unfold settled_on, suitable. rewrite Ep. split; [eauto|by eexists]. }
    case_bool_decide as Hv; [intros [= <- _ _]; auto|].
    destruct (cached_default_kind _ _ _ _ _) as [[dkind dk2]|x]; [|done].
    case_bool_decide as Hd; [intros [= <- _ _]; auto|].
    destruct (List.filter lives ALL_KINDS) as [|k0 l] eqn:El; intros [= <- _ _]; [|apply Hl; left].
    unfold settled_on, suitable. rewrite Ep. split; [|by eexists]. intros k Hk Hlk. exfalso.
    assert (k ∈ List.filter lives ALL_KINDS) as Hin by by apply elem_of_Lfilter.
    rewrite El in Hin. by apply elem_of_nil in Hin.
  - destruct (_probe_available _ _ (dedup _) ps1) as [av ps2]. cbn [fst] in Hcand. subst av.
    destruct (if _ && _ then _ else _) as [mq|x]; [|done].
    destruct (if 0 <? mq then _ else _) as [warm pending]. intros [= <- _ _].
    exact (Hch warm pending mq p0 r0 eq_refl).
Qed.

Lemma resolve_kind_settles ps' dk' r :
  resolve_kind e job None host queue ps dk = (Ok r, ps', dk') →
  match stamped with
  | Some s => (lives s = true → r = Some s) ∧ (lives s = false → settled_on r)
  | None => settled_on r
  end.
Proof.
  unfold resolve_kind, stamped.
  destruct (jv_resolved_server job) as [s|]; [destruct (PyStr.truthy s)|]; try by apply resolve_fresh_settles.
  destruct (probe_available_spec (de_answers e) (de_now e) [s] ps) as [Hp Hs].
  destruct (_probe_available _ _ [s] ps) as [l ps1]. cbn [fst snd] in Hp, Hs. subst l. cbn [List.filter].
  fold lives. destruct (lives s) eqn:El.
  - rewrite bool_decide_true by left. by intros [= <- _ _].
  - rewrite bool_decide_false by apply not_elem_of_nil. intros E. split; [done|]. intros _.
    by eapply resolve_fresh_settles.
Qed.
End dispatch.


(** *** The stamp follows the server *)

Section stamps.
Context `{WorkerEnv} `{FactoryConfig}.

(** The arbiter counts a job where it runs: when the dispatch serves a running, stamped
    row on a kind of its choosing, the row carries that kind afterwards, and no other row
    changes. *)
Lemma dispatch_keeps_the_stamp_true topo e job host queue fs ps dk w k ps' dk' j s :
  db_ok w → j ∈ node_jobs w → job_key j = default "" (jv_id job) → PyStr.truthy (job_key j) = true →
  status (st j) = Running → resolved_server (st j) = jv_resolved_server job →
  jv_resolved_server job = Some s → PyStr.truthy s = true → PyStr.truthy k = true →
  resolve_kind e job None host queue ps dk = (Ok (Some k), ps', dk') →
  let w' := di_world (resolve_for_job topo e job None host queue fs ps dk w) in
  (∃ j', j' ∈ node_jobs w' ∧ job_key j' = job_key j ∧ resolved_server (st j') = Some k) ∧
  ∀ i, i ∈ node_jobs w → job_key i ≠ job_key j → i ∈ node_jobs w'.
Proof.
  intros Hok Hj Hi Ht Hrun Hst Hs Hts Htk Hr. unfold resolve_for_job. rewrite Hr.
  destruct (get_backend _ _ _ _ _ _ _) as [r fs']. cbn [di_world]. unfold restamp. rewrite Hs, Htk, Hts.
  destruct (jv_id job) as [i|]; [|by rewrite Hi in Ht]. change (job_key j = i) in Hi. subst i. rewrite Ht.
  destruct (String.eqb_spec k s) as [->|Hne]; cbn [negb andb].
  - split; [|done]. exists j. by rewrite Hst.
  - unfold restamp_resolved_server. rewrite Ht, Htk. cbn [negb orb]. unfold mbind, M_bind.
    rewrite (update_job_hit _ _ _ w j Hok Hj eq_refl) by (unfold has_status; by apply bool_decide_eq_true).
    cbn [mret M_ret snd]. rewrite node_jobs_on_jobs. split.
    + exists (upd (λ s, set_resolved_server (Some k) s) j). split_and!; [|by destruct j|by destruct j as [sp []]].
      apply elem_of_update_where. exists j. split; [done|].
      unfold is_job, has_status. by rewrite !bool_decide_eq_true_2.
    + intros i Hin Hki. apply elem_of_update_where. exists i. split; [done|].
      unfold is_job. by rewrite bool_decide_eq_false_2.
Qed.
End stamps.

(** ** The factory *)

Lemma cached_put_eq k e c b t : cached k (mkFactory (put k e c) b t) = Some e.
Proof.
  unfold cached. cbn [f_cache]. induction c as [|[k' e'] c IH]; cbn [put List.find].
  - cbn [fst]. by rewrite bool_decide_true.
  - case_bool_decide as Hk; cbn [List.find fst]; [by rewrite bool_decide_true|]. by rewrite bool_decide_false.
Qed.
Lemma cached_put_ne k k' e c b t b' t' :
  k' ≠ k → cached k' (mkFactory (put k e c) b t) = cached k' (mkFactory c b' t').
Proof.
  intros Hne. unfold cached. cbn [f_cache]. induction c as [|[k0 e0] c IH]; cbn [put List.find].
  - cbn [fst]. by rewrite bool_decide_false.
  - case_bool_decide as Hk; cbn [List.find fst].
    + subst k0. rewrite !bool_decide_false by done. done.
    + case_bool_decide; [done|]. apply IH.
Qed.
Lemma cached_invalidate k host queue fs :
  cached k (invalidate host queue fs) =
  (λ e, if String.eqb k.1.1 host && String.eqb k.1.2 queue
        then mkEntry (e_snapshot e) (e_backend e) (e_last_check e) true else e) <$> cached k fs.
Proof.
  unfold cached, invalidate. cbn [f_cache]. induction (f_cache fs) as [|[k' e] c IH]; [done|]. cbn.
  destruct (decide (k' = k)) as [->|Hne].
  - destruct (_ && _); cbn; by rewrite !bool_decide_true.
  - destruct (String.eqb k'.1.1 host && String.eqb k'.1.2 queue); cbn [fst]; rewrite !bool_decide_false by done; exact IH.
Qed.

(** What a process does with its factory *)
Inductive fop :=
  | FGet (cfg : LLMConfig) (host queue : string) (kind : option string) (now : Z)
  | FNotify (payload : option string).
Definition fstep `{WorkerEnv} `{FactoryConfig} (topo : string → option string) (fs : factory) (o : fop) : factory :=
  match o with
  | FGet cfg host queue kind now => (get_backend_with topo cfg host queue kind now fs).2
  | FNotify p => _handle_notify p fs
  end.
(** Does the operation read another snapshot for the same slot? *)
Definition same_slot (k : key) (sn : _Snapshot) (o : fop) : Prop :=
  match o with
  | FGet cfg host queue kind _ => (host, queue, sn_server_type (from_config cfg kind)) = k → from_config cfg kind = sn
  | FNotify _ => True
  end.

Section factory_lemmas.
Context `{WorkerEnv} `{FactoryConfig} (topo : string → option string).

(** A slot, its backend and what was released *)
Definition holds_slot (k : key) (sn : _Snapshot) (id : nat) (fs : factory) : Prop :=
  (∃ e, cached k fs = Some e ∧ e_snapshot e = sn ∧ e_backend e = id) ∧
  id ∉ f_torn fs ∧ (id < length (f_built fs))%nat ∧
  ∀ k' e', k' ≠ k → cached k' fs = Some e' → e_backend e' ≠ id.

Lemma fstep_holds k sn id fs o :
  same_slot k sn o → holds_slot k sn id fs → holds_slot k sn id (fstep topo fs o).
Proof.
  intros Hs ((e & He & Hsn & Hid) & Hnt & Hlt & Hoth). destruct o as [cfg host queue kind now|p]; cbn [fstep]; cycle 1.
  { assert (∀ h q, holds_slot k sn id (invalidate h q fs)) as Hinv.
    { intros h q. split_and!; [|done|done|].
      - rewrite cached_invalidate, He. eexists. split; [done|]. by destruct (_ && _).
      - intros k' e' Hne. rewrite cached_invalidate. destruct (cached k' fs) as [e0|] eqn:E0; [|done].
        cbn. intros [= <-]. destruct (_ && _); exact (Hoth k' e0 Hne E0). }
    assert (holds_slot k sn id fs) as Hsame by (split_and!; eauto).
    unfold _handle_notify. destruct p as [p|]; [|done]. destruct (PyStr.split1 "|" p) as [h [q|]]; [|done].
    destruct (_ && _); auto. }
  unfold get_backend_with. set (snap := from_config cfg kind). set (k0 := (host, queue, sn_server_type snap)).
  assert (holds_slot k sn id fs) as Hsame by (split_and!; eauto).
  destruct (decide (k0 = k)) as [Hk|Hne].
  - assert (snap = sn) as Hsnap by (apply Hs; done). rewrite Hk, He. destruct (_ && _); [done|].
    rewrite bool_decide_true by congruence. cbn [snd]. split_and!; [|done|done|].
    + rewrite cached_put_eq. eauto.
    + intros k' e' Hne. rewrite (cached_put_ne _ _ _ _ _ _ (f_built fs) (f_torn fs)) by done. intros E.
      apply (Hoth k' e' Hne). by destruct fs.
  - assert (∀ e0 b t, (∀ x, x ∈ t → x ≠ id) → e_backend e0 ≠ id → (length (f_built fs) ≤ length b)%nat →
      holds_slot k sn id (mkFactory (put k0 e0 (f_cache fs)) b (f_torn fs ++ t))) as Hput.
    { intros e0 b t Ht Hb Hlen. split_and!; cbn [f_torn f_built].
      - rewrite (cached_put_ne k0 k e0 _ _ _ (f_built fs) (f_torn fs)) by done. exists e. destruct fs. done.
      - intros [?|Hin]%elem_of_app; [done|]. by apply (Ht id).
      - lia.
      - intros k' e' Hne'. destruct (decide (k' = k0)) as [->|Hk'].
        + rewrite cached_put_eq. by intros [= <-].
        + rewrite (cached_put_ne _ _ _ _ _ _ (f_built fs) (f_torn fs)) by done. intros E.
          apply (Hoth k' e' Hne'). by destruct fs. }
    assert (∀ t, (∀ x, x ∈ t → x ≠ id) → holds_slot k sn id (mkFactory (f_cache fs) (f_built fs) (f_torn fs ++ t))) as Htorn.
    { intros t Ht. split_and!; cbn [f_torn f_built]; [|..|done|].
      - exists e. by destruct fs.
      - intros [?|Hin]%elem_of_app; [done|]. by apply (Ht id).
      - intros k' e' Hk' E. apply (Hoth k' e' Hk'). by destruct fs. }
    destruct (cached k0 fs) as [e0|] eqn:E0.
    + assert (e_backend e0 ≠ id) as Hb by (by eapply Hoth).
      destruct (_ && _); [done|]. case_bool_decide.
      * rewrite <- (app_nil_r (f_torn fs)). apply Hput; cbn [e_backend]; [set_solver|done|lia].
      * destruct (_base_url_for _ _) as [url|x]; cbn [snd]; [|apply Htorn; set_solver].
        apply Hput; cbn [e_backend]; [set_solver|lia|rewrite length_app; lia].
    + destruct (_base_url_for _ _) as [url|x]; cbn [snd]; [|apply Htorn; set_solver].
      apply Hput; cbn [e_backend]; [set_solver|lia|rewrite length_app; lia].
Qed.
End factory_lemmas.

(** A live backend keeps its identity.  Once a slot has its backend, any sequence of
    requests and notifications in which the settings of that slot read the same leaves the
    very same backend in it, not released, and a further request returns it; requests for
    the other kind or for other workers never disturb it. *)
Lemma backend_identity_is_preserved `{WorkerEnv} `{FactoryConfig} topo k sn id fs ops cfg host queue kind now :
  holds_slot k sn id fs → Forall (same_slot k sn) ops →
  from_config cfg kind = sn → (host, queue, sn_server_type sn) = k →
  let fs' := foldl (fstep topo) fs ops in
  id ∉ f_torn fs' ∧ (get_backend_with topo cfg host queue kind now fs').1 = Ok id.
Proof.
  intros Hh Hops Hsn Hk. assert (holds_slot k sn id (foldl (fstep topo) fs ops)) as Hh'.
  { revert fs Hh. induction Hops as [|o ops Ho _ IH]; intros fs Hh; [done|]. cbn [foldl].
    apply IH. by apply fstep_holds. }
  destruct Hh' as ((e & He & Hes & Hid) & Hnt & _). cbv zeta. split; [done|].
  unfold get_backend_with. rewrite Hsn, Hk, He. destruct (_ && _); [by rewrite Hid|].
  rewrite bool_decide_true by done. by rewrite Hid.
Qed.

(** A change of the settings takes effect: after a notification of the worker, or once
    the time to live has passed, the next request with another snapshot releases the old
    backend of that slot and answers with a new one built for the new settings. *)
Lemma settings_change_takes_effect `{WorkerEnv} `{FactoryConfig} topo cfg host queue kind now fs e url :
  let sn := from_config cfg kind in
  cached (host, queue, sn_server_type sn) fs = Some e → e_snapshot e ≠ sn →
  (e_invalid e = true ∨ ttl_us ≤ now - e_last_check e) → _base_url_for topo (sn_server_type sn) = Ok url →
  let r := get_backend_with topo cfg host queue kind now fs in
  r.1 = Ok (length (f_built fs)) ∧ f_torn r.2 = f_torn fs ++ [e_backend e] ∧
  f_built r.2 !! length (f_built fs) = Some (_build_backend url sn now) ∧
  cached (host, queue, sn_server_type sn) r.2 = Some (mkEntry sn (length (f_built fs)) now false).
Proof.
  intros sn He Hne Hdue Hurl. unfold get_backend_with. fold sn. rewrite He.
  assert (negb (e_invalid e) && (now - e_last_check e <? ttl_us) = false) as ->.
  { destruct Hdue as [->|Hd]; [done|]. apply andb_false_iff. right. by apply Z.ltb_ge. }
  rewrite bool_decide_false by done. rewrite Hurl. cbn [fst snd f_torn f_built].
  split_and!; [done|done| |apply cached_put_eq].
  rewrite lookup_app_r by done. by rewrite Nat.sub_diag.
Qed.

(** A preference that nothing serves falls to the box default without a probe and without a
    new stamp, although another kind answers: the row goes on counting against the dead
    server. *)
Theorem unmet_preference_is_dispatched_blind `{WorkerEnv} `{FactoryConfig} topo e job host queue fs ps dk w s p :
  jv_resolved_server job = Some s → PyStr.truthy s = true →
  jv_server_types job = [p] → PyStr.truthy p = true →
  alive (de_answers e) (de_now e) ps s = false → alive (de_answers e) (de_now e) ps p = false →
  alive (de_answers e) (de_now e) ps SERVER_TYPE_OLLAMA = true →
  let d := resolve_for_job topo e job None host queue fs ps dk w in
  di_world d = w ∧ di_backend d = (get_backend topo (de_cfg e) host queue None (de_now e) fs).1.
Proof.
  intros Hs Hts Hp Htp Has Hap Hao.
  assert ((resolve_kind e job None host queue ps dk).1.1 = Ok None) as Hk.
  { unfold resolve_kind. rewrite Hs, Hts.
    destruct (probe_available_spec (de_answers e) (de_now e) [s] ps) as [Hl Hps].
    destruct (_probe_available _ _ [s] ps) as [l ps1]. cbn [fst snd] in Hl, Hps. subst l.
    cbn [List.filter]. rewrite Has, bool_decide_false by set_solver.
    unfold resolve_fresh. rewrite Hp. cbn [List.filter]. rewrite Htp.
    destruct (probe_available_spec (de_answers e) (de_now e) (dedup ([p] ++ ALL_KINDS)) ps1) as [Hl _].
    destruct (_probe_available _ _ (dedup _) ps1) as [l ps2]. cbn [fst snd] in *. subst l.
    cbn [length Nat.ltb Nat.leb andb]. cbn [Z.ltb Z.compare fst].
    unfold choose_server_type. cbn [List.filter]. rewrite Htp.
    rewrite (filter_ext _ _ Hps).
    assert (SERVER_TYPE_OLLAMA ∈ List.filter PyStr.truthy (List.filter (alive (de_answers e) (de_now e) ps)
      (dedup ([p] ++ ALL_KINDS)))) as Hin.
    { apply elem_of_Lfilter. split; [|done]. apply elem_of_Lfilter. split; [|done]. apply dedup_elem. set_solver. }
    assert (p ∉ List.filter PyStr.truthy (List.filter (alive (de_answers e) (de_now e) ps)
      (dedup ([p] ++ ALL_KINDS)))) as Hout.
    { intros [[_ ?]%elem_of_Lfilter _]%elem_of_Lfilter. congruence. }
    destruct (List.filter PyStr.truthy _) as [|a have]; [by apply elem_of_nil in Hin|].
    cbn [List.filter]. by rewrite bool_decide_false. }
  unfold resolve_for_job. destruct (resolve_kind _ _ _ _ _ _ _) as [[r ps'] dk']. cbn [fst] in Hk. subst r.
  destruct (get_backend _ _ _ _ _ _ _) as [r fs']. cbn. by unfold restamp.
Qed.

(** ** The life cycle *)

Lemma await_health_ok deadline polls :
  _await_health deadline polls = Some (Ok ()) → ∃ now, (Ok true, now) ∈ polls.
Proof.
  induction polls as [|[h now] r IH]; cbn; [done|]. destruct h as [[]|x]; cbn.
  - intros _. exists now. left.
  - destruct (_ <=? _); [done|]. intros (t & ?)%IH. exists t. by right.
  - destruct (_ <=? _); [done|]. intros (t & ?)%IH. exists t. by right.
Qed.
(** The wait ends: a poll at or past the deadline ends it one way or the other. *)
Lemma await_health_ends deadline polls h now :
  (h, now) ∈ polls → deadline <= now → is_Some (_await_health deadline polls).
Proof.
  intros Hin Hd. induction polls as [|[h' now'] r IH]; [by apply elem_of_nil in Hin|]. cbn.
  destruct (is_running h'); [eauto|]. destruct (Z.leb_spec deadline now'); [eauto|].
  apply IH. apply elem_of_cons in Hin as [[= -> ->]|?]; [lia|done].
Qed.

(** A backend that says it is ready is ready: when the bring-up returns, the server
    answered a health probe, the model it records is the one asked for, no probe named
    another, and the requests in flight are untouched. *)
Lemma ready_means_serving_the_model model_id e b b' :
  ensure_ready model_id e b = Some (Ok (), b') →
  b_state b' = SERVING ∧ b_served b' = Some model_id ∧ b_inflight b' = b_inflight b ∧
  (b_sleep_unsupported b = true → b_sleep_unsupported b' = true) ∧
  (is_running (br_health e) = true ∧ b_served b = Some model_id ∨
   br_up e = Ok () ∧ (∃ now, (Ok true, now) ∈ br_polls e) ∧
   ∀ s, br_served e = Ok (Some s) → PyStr.truthy s = true → s = model_id).
Proof.
  unfold ensure_ready. destruct (is_running (br_health e) && _) eqn:Ew.
  { apply andb_prop in Ew as [Hr Hs%bool_decide_eq_true]. intros [= <-]. cbn. split_and!; auto. }
  set (b0 := if is_running (br_health e) then _ else b).
  assert (b_inflight b0 = b_inflight b ∧ (b_sleep_unsupported b = true → b_sleep_unsupported b0 = true)) as [Hi Hsl].
  { unfold b0. destruct (is_running _); [|done]. cbn. by destruct (b_sleep_unsupported b) eqn:E; cbn; rewrite ?E. }
  unfold bring_up. destruct (br_up e) as [[]|x]; [|done].
  destruct (_await_health _ _) as [[[]|x]|] eqn:Ea; [|done|done]. apply await_health_ok in Ea.
  destruct (String.eqb_spec (default model_id match br_served e with
    | Ok (Some s) => if PyStr.truthy s then Some s else None | _ => None end) model_id) as [Ho|]; [|done].
  intros [= <-]. cbn. rewrite Ho. split_and!; try done.
  right. split_and!; try done. intros s Hs Ht. rewrite Hs, Ht in Ho. by cbn in Ho.
Qed.

(** A server that comes up on another model is an error the caller sees, and what is
    recorded is the model that is really served. *)
Lemma wrong_model_is_reported model_id e b s :
  is_running (br_health e) = false → br_up e = Ok () → _await_health (br_deadline e) (br_polls e) = Some (Ok ()) →
  br_served e = Ok (Some s) → PyStr.truthy s = true → s ≠ model_id →
  ∃ b', ensure_ready model_id e b = Some (Raise (RuntimeError "wrong model"), b') ∧ b_served b' = Some s.
Proof.
  intros Hr Hu Ha Hs Ht Hne. unfold ensure_ready, bring_up. rewrite Hr, Hu, Ha, Hs, Ht. cbn [andb default].
  apply String.eqb_neq in Hne. cbn. rewrite Hne. eauto.
Qed.

(** ** The supervisor *)

(** The operations that count requests, in any order *)
Inductive bop :=
  | BStart (model : string) (now : Z)
  | BEnd (now : Z)
  | BReap (health health' : result bool) (kill : bool) (now : Z).
Definition bstep (b : backend) (o : bop) : backend :=
  match o with
  | BStart m now => mark_request_start m now b
  | BEnd now => mark_request_end now b
  | BReap h h' kill now => (reap_idle_once h h' kill now b).2
  end.
(** Every start that has not ended *)
Fixpoint open_requests (n : Z) (l : list bop) : Z :=
  match l with
  | [] => n
  | BStart _ _ :: r => open_requests (n + 1) r
  | BEnd _ :: r => open_requests (Z.max 0 (n - 1)) r
  | BReap _ _ _ _ :: r => open_requests n r
  end.

Lemma reap_requests h h' kill now b :
  let b' := (reap_idle_once h h' kill now b).2 in
  b_inflight b' = b_inflight b ∧ b_last_used b' = b_last_used b ∧ b_idle_ttl b' = b_idle_ttl b ∧
  b_server_type b' = b_server_type b.
Proof.
  unfold reap_idle_once, stop_server, vllm_stop_server. repeat (destruct (_ : bool); try done).
Qed.
Lemma foldl_requests l b : b_inflight (foldl bstep b l) = open_requests (b_inflight b) l.
Proof.
  revert b. induction l as [|o l IH]; intros b; [done|]. cbn [foldl]. rewrite IH.
  destruct o; cbn [bstep open_requests]; [done|done|]. f_equal. apply reap_requests.
Qed.
(** The last start or end, else [t] *)
Fixpoint last_touch (t : Z) (l : list bop) : Z :=
  match l with
  | [] => t
  | BStart _ now :: r | BEnd now :: r => last_touch now r
  | BReap _ _ _ _ :: r => last_touch t r
  end.
Lemma foldl_last_used l b : b_last_used (foldl bstep b l) = last_touch (b_last_used b) l.
Proof.
  revert b. induction l as [|o l IH]; intros b; [done|]. cbn [foldl]. rewrite IH.
  destruct o; cbn [bstep last_touch]; [done|done|]. f_equal. apply reap_requests.
Qed.

(** The supervisor never stops a server at work: whatever requests and ticks came
    before, a tick that stops the server finds no request open, and the last start or end
    of a request at least one (positive) time to live ago. *)
Lemma supervisor_spares_a_busy_server l h h' kill now b :
  let b' := foldl bstep b l in
  (reap_idle_once h h' kill now b').1 = true →
  open_requests (b_inflight b) l <= 0 ∧ b_server_type b' = SERVER_TYPE_VLLM ∧
  0 < b_idle_ttl b' <= now - last_touch (b_last_used b) l.
Proof.
  intros b' Hr. rewrite <- foldl_requests, <- foldl_last_used. fold b'. unfold reap_idle_once in Hr.
  destruct (String.eqb_spec (b_server_type b') SERVER_TYPE_VLLM) as [Ht|]; [|done]. cbn [negb] in Hr.
  destruct (vllm_should_stop _ _ _ _) eqn:Es; [|done]. unfold vllm_should_stop in Es.
  destruct (Z.leb_spec (b_idle_ttl b') 0); [done|]. split_bool.
  unfold idle_seconds in *. destruct (Z.ltb_spec 0 (b_inflight b')); [lia|]. split_and!; try done; lia.
Qed.

(** ** The topology file *)

(** A box written as one address is that address for every kind, unless the kind is named
    as the key of the address itself. *)
Lemma flat_box_serves_every_kind `{PyEnv} b host kind s :
  dict_get host b = Topology.parse_box (JStr s) → PyStr.truthy (PyStr.strip s) = true → kind ≠ "url" →
  PyStr.strip (PyStr.strip s) = PyStr.strip s →
  Topology.resolve_for b host kind = Some (PyStr.strip s).
Proof.
  intros Hb Ht Hk Hss. cbn [Topology.parse_box] in Hb. rewrite Ht in Hb.
  assert (Topology.text_at kind [("url", JStr (PyStr.strip s))] = "") as E1.
  { unfold Topology.text_at. rewrite dict_get_absent; [done|set_solver]. }
  assert (Topology.text_at "url" [("url", JStr (PyStr.strip s))] = PyStr.strip s) as E2.
  { unfold Topology.text_at. cbn -[PyStr.strip PyStr.truthy]. by rewrite Ht. }
  unfold Topology.resolve_for, Topology.resolve. rewrite Hb, E1, E2. cbn [PyStr.truthy]. by rewrite Ht.
Qed.

(** ** Witnesses *)

Module BackendDemo.
Definition env : WorkerEnv := {|
  os_environ := [("OLLAMA_URL", "http://o:11434/")];
  config_cpu_worker_threads := JInt 4;
  config_gpu_box_max_concurrent := JNull;
|}.
Definition conf : FactoryConfig := {|
  ttl_us := DEFAULT_CONFIG_TTL;
  ollama_url_override := None;
  vllm_url_override := None;
  ollama_url_env := "OLLAMA_URL";
  vllm_url_env := "VLLM_URL";
|}.
Definition topo (k : string) : option string := if String.eqb k "vllm" then Some "http://v:8000/v1/" else None.
Definition cfg : LLMConfig := mkLLM "ollama" 1 600.
Definition only (up : string) : dispatch_env :=
  mkDispatch 100 (String.eqb up) (λ _, Ok []) (Ok None) (λ _, Ok 0) (Ok cfg).
(** A running row stamped with vLLM *)
Definition running : world :=
  (update_job (uuid4 0) (λ _, true) (λ _ s, set_status Running (set_resolved_server (Some "vllm") s)) Demo.one).2.
Lemma running_ok : db_ok running.
Proof. apply update_job_db_ok, Demo.one_ok. Qed.
Definition view : job_view := mkView (Some (uuid4 0)) ["vllm"; "ollama"] (Some "vllm") None.
(** A factory with a vLLM backend and an ollama backend *)
Definition built : factory :=
  (@get_backend_with env conf topo cfg "h" "gpu" (Some "ollama") 0
    (@get_backend_with env conf topo cfg "h" "gpu" (Some "vllm") 0 new_factory).2).2.
Definition up (m : string) : bringup :=
  mkBringup (Ok false) true (Ok ()) 90 [(Raise (RuntimeError "refused"), 3); (Ok true, 5)] (Ok (Some m)).
End BackendDemo.
Import BackendDemo.

Lemma choice_is_the_first_worth_using_witness :
  choose_server_type ["vllm"; "ollama"] ["ollama"; "vllm"] [] 2 5 = Some "ollama".
Proof.
  apply (proj2 (choice_is_the_first_worth_using ["vllm"; "ollama"] ["ollama"; "vllm"] [] 2 5 "ollama"
    ltac:(by vm_compute))).
  exists ["vllm"], []. split; [reflexivity|]. split; [repeat constructor|by left].
Defined.


(** A job that wants vLLM only, where only ollama lives *)
Lemma no_kind_is_answered_beside_a_live_one :
  (@resolve_kind env (only "ollama") (mkView None ["vllm"%string] None None) None "h" "gpu" no_probes []).1.1 = Ok None.
Proof. vm_compute. reflexivity. Qed.

Lemma dispatch_keeps_the_stamp_true_witness :
  ∃ j', j' ∈ node_jobs (di_world (@resolve_for_job env conf topo (only "ollama") view None "h" "gpu" built no_probes []
    running)) ∧ resolved_server (st j') = Some "ollama".
Proof.
  pose (r := @resolve_kind env (only "ollama") view None "h" "gpu" no_probes []).
  destruct (@dispatch_keeps_the_stamp_true env conf topo (only "ollama") view "h" "gpu" built no_probes [] running
    "ollama" r.1.2 r.2 (Demo.first running) "vllm") as [(j' & Hj & _ & Hs) _]; [exact running_ok|left|reflexivity..|].
  exists j'. split; [exact Hj|exact Hs].
Defined.

Lemma backend_identity_is_preserved_witness :
  let ops := [FNotify (Some "h|gpu"); FGet (mkLLM "vllm" 4 60) "h" "gpu" (Some "ollama") 20000000;
              FGet cfg "h" "gpu" (Some "vllm") 20000001] in
  (@get_backend_with env conf topo cfg "h" "gpu" (Some "vllm") 30000000
     (foldl (@fstep env conf topo) built ops)).1 = Ok 0%nat.
Proof.
  cbv zeta. eapply (@backend_identity_is_preserved env conf topo ("h", "gpu", "vllm") (from_config cfg (Some "vllm")) 0%nat built
    [FNotify (Some "h|gpu"); FGet (mkLLM "vllm" 4 60) "h" "gpu" (Some "ollama") 20000000;
     FGet cfg "h" "gpu" (Some "vllm") 20000001]); [|repeat constructor; done|reflexivity..].
  split_and!.
  - eexists. split; [vm_compute; reflexivity|done].
  - vm_compute. by intros ?%elem_of_nil.
  - vm_compute. lia.
  - intros k' e' Hne. unfold cached. destruct (bool_decide_reflect (("h", "gpu", "vllm") = k')) as [|H1]; [congruence|].
    change (f_cache built) with [(("h", "gpu", "vllm"), mkEntry (from_config cfg (Some "vllm")) 0 0 false);
      (("h", "gpu", "ollama"), mkEntry (from_config cfg (Some "ollama")) 1 0 false)].
    cbn [List.find fst]. rewrite bool_decide_false by done. case_bool_decide; cbn; [by intros [= <-]|done].
Defined.

Lemma settings_change_takes_effect_witness :
  let r := @get_backend_with env conf topo (mkLLM "ollama" 4 600) "h" "gpu" (Some "vllm") 11000000 built in
  r.1 = Ok 2%nat ∧ f_torn r.2 = [0%nat] ∧
  b_base_url <$> f_built r.2 !! 2%nat = Some "http://v:8000".
Proof.
  edestruct (@settings_change_takes_effect env conf topo (mkLLM "ollama" 4 600) "h" "gpu" (Some "vllm") 11000000 built)
    as (H1 & H2 & H3 & _); [reflexivity|done|right; by vm_compute|reflexivity|].
  cbv zeta. split_and!; [exact H1|exact H2|]. cbv zeta in H3. change (length (f_built built)) with 2%nat in H3.
  rewrite H3. reflexivity.
Defined.

Lemma ready_means_serving_the_model_witness :
  ∃ b', ensure_ready "m" (up "m") (fresh_backend "vllm" "u" 1 60 0 None) = Some (Ok (), b') ∧
    b_state b' = SERVING ∧ b_served b' = Some "m".
Proof.
  eexists. split; [reflexivity|].
  edestruct (ready_means_serving_the_model "m" (up "m") (fresh_backend "vllm" "u" 1 60 0 None)) as (H1 & H2 & _);
    [reflexivity|]. split; [exact H1|exact H2].
Defined.

Lemma supervisor_spares_a_busy_server_witness :
  open_requests 0 [BStart "m" 5; BEnd 9] <= 0.
Proof.
  eapply (supervisor_spares_a_busy_server [BStart "m" 5; BEnd 9] (Ok true) (Ok true) true 100
    (fresh_backend "vllm" "u" 1 60 0 (Some "m"))).
  reflexivity.
Defined.
