(* ===== verification/IdleUnload.v ===== *)
(** * Giving idle memory back ([queue_workflows/llm_idle_unload.py])

    Three tick machines that watch the LLM servers of a box: the reaper of idle
    ollama models, the stopper and demand starter of the vLLM server, and the
    watchdog that keeps a parked (or held) box free of both.

    Each tick is a function of what its probes answered (a value, or an exception)
    and of the clock it read, in microseconds; it returns what the tick did with the
    machine's new memory.  Levers that raise are part of the input. *)

From S2P Require Import Prelude Json WorkerLanes Catalog.
Local Open Scope Z_scope.

Definition DEFAULT_LLM_IDLE_TTL_S : Z := 300 * 1000000.
Definition _POLL_FLOOR_S : Z := 5 * 1000000.
Definition _POLL_CEIL_S : Z := 60 * 1000000.

(** [max(5, min(60, ttl / 5))], to the microsecond *)
Definition poll_every (ttl : Z) : Z := Z.max _POLL_FLOOR_S (Z.min _POLL_CEIL_S (ttl / 5)).

(** ** Idle ollama models *)

Definition should_unload_external_model (model_loaded : bool) (active idle_s ttl_s : Z) : bool :=
  if ttl_s <=? 0 then false else model_loaded && (active <=? 0) && (ttl_s <=? idle_s).

(** One model of [/api/ps]: its name ("" when absent) and its parsed [expires_at] *)
Record model_info := mkModelInfo { mi_name : string; mi_mru : Z }.

(** What one tick reads *)
Record reap_env := mkReap {
  re_now : Z;
  re_active : result Z;
  re_infos : result (list model_info);
  re_unload : result ();
}.

(** name -> (last seen expiry, when the use was stamped) *)
Abbreviation seen := (list (string * (Z * Z))).

Definition names_of (infos : list model_info) : list string :=
  List.filter PyStr.truthy (map mi_name infos).

Definition observe_one (now : Z) (s : seen) (m : model_info) : seen :=
  if negb (PyStr.truthy (mi_name m)) then s
  else match dict_get (mi_name m) s with
       | Some prev => if prev.1 <? mi_mru m then dict_set (mi_name m) (mi_mru m, now) s else s
       | None => dict_set (mi_name m) (mi_mru m, now) s
       end.
Definition observe_use (now : Z) (infos : list model_info) (s : seen) : seen :=
  List.filter (λ kv, bool_decide (kv.1 ∈ names_of infos)) (foldl (observe_one now) s infos).

(** [max(stamped ...)] of a memory that is not empty *)
Definition last_use (s : seen) : Z :=
  match map (λ kv, kv.2.2) s with [] => 0 | t :: r => foldr Z.max t r end.

Definition reap_idle_once (ttl : Z) (e : reap_env) (s : seen) : list string * seen :=
  if ttl <=? 0 then ([], s)
  else match re_active e with
  | Raise _ => ([], s)
  | Ok active =>
      if 0 <? active then ([], s)
      else match re_infos e with
      | Raise _ => ([], s)
      | Ok infos =>
          match names_of infos with
          | [] => ([], [])
          | names =>
              let s := observe_use (re_now e) infos s in
              let idle_s := re_now e - last_use s in
              if negb (should_unload_external_model true 0 idle_s ttl) then ([], s)
              else match re_unload e with
                   | Ok _ => (sorted_set names, [])
                   | Raise _ => ([], s)
                   end
          end
      end
  end.

(** ** Idle and wanted vLLM servers *)

Definition should_stop_idle_vllm (served : bool) (running active idle_s ttl_s : Z) : bool :=
  if ttl_s <=? 0 then false else served && (running <=? 0) && (active <=? 0) && (ttl_s <=? idle_s).
Definition should_start_vllm (served : bool) (pending min_queue : Z) : bool :=
  if served then false else (0 <? pending) && (min_queue <=? pending).

Record activity := mkActivity { a_served : bool; a_running : Z; a_finished : Z }.

Record vllm_env := mkVllmEnv {
  ve_now : Z;
  ve_activity : result activity;
  ve_active : result Z;
  (** [pending_fn], when one is wired: a count, no count, or an exception *)
  ve_pending : option (result (option Z));
  ve_stop : result ();
  (** [start_fn], when one is wired *)
  ve_start : option (result ());
  ve_may_start : option (result bool);
  ve_min_queue : result Z;
}.

Record stopper := mkStopper {
  v_seen : option (Z * Z);
  _last_action_at : option Z;
  _failed_starts : Z;
}.

Section vllm_machine.
Context (ttl restart_cooldown : Z).

(** The queue behind the server is known to be empty (or nobody counts it). *)
Definition nothing_pending (e : vllm_env) : bool :=
  match ve_pending e with
  | None => true
  | Some (Ok (Some n)) => negb (0 <? n)
  | Some _ => false
  end.

Definition stop_idle_once (e : vllm_env) (s : stopper) : bool * stopper :=
  match ve_activity e with
  | Raise _ => (false, s)
  | Ok a =>
      if negb (a_served a) then (false, mkStopper None (_last_action_at s) (_failed_starts s))
      else
        let used := (false, mkStopper (Some (a_finished a, ve_now e)) (_last_action_at s) 0) in
        match v_seen s with
        | None => used
        | Some prev =>
            if (prev.1 <? a_finished a) || (0 <? a_running a) then used
            else
              let active := match ve_active e with Ok n => n | Raise _ => 0 end in
              if negb (should_stop_idle_vllm true (a_running a) active (ve_now e - prev.2) ttl)
              then (false, s)
              else if negb (nothing_pending e) then (false, s)
              else match ve_stop e with
                   | Raise _ => (false, s)
                   | Ok _ => (true, mkStopper None (Some (ve_now e)) (_failed_starts s))
                   end
        end
  end.

Definition cooldown (s : stopper) : Z := restart_cooldown * 2 ^ Z.min (_failed_starts s) 5.

Definition cooling (now : Z) (s : stopper) : bool :=
  match _last_action_at s with Some t => now - t <? cooldown s | None => false end.

(** The gate fails open, every probe of the demand fails closed. *)
Definition gate_open (e : vllm_env) : bool :=
  match ve_may_start e with Some (Ok b) => b | _ => true end.
Definition start_if_wanted_once (e : vllm_env) (s : stopper) : bool * stopper :=
  match ve_start e, ve_pending e with
  | Some start, Some pending =>
      if negb (gate_open e) then (false, s)
      else if cooling (ve_now e) s then (false, s)
      else match ve_activity e, pending, ve_min_queue e with
           | Ok a, Ok pending, Ok min_queue =>
               if negb (should_start_vllm (a_served a) (default 0 pending) min_queue) then (false, s)
               else match start with
                    | Raise _ => (false, s)
                    | Ok _ => (true, mkStopper (v_seen s) (Some (ve_now e)) (_failed_starts s + 1))
                    end
           | _, _, _ => (false, s)
           end
  | _, _ => (false, s)
  end.

Inductive deed := Stopped | Started | Nothing.

(** [tick]: the start is considered only when nothing was stopped. *)
Definition stopper_tick (e : vllm_env) (s : stopper) : deed * stopper :=
  let '(stopped, s) := stop_idle_once e s in
  if stopped then (Stopped, s)
  else let '(started, s) := start_if_wanted_once e s in
       (if started then Started else Nothing, s).

(** A history of ticks: what each did, with its instant *)
Fixpoint stopper_run (h : list vllm_env) (s : stopper) : list (Z * deed) * stopper :=
  match h with
  | [] => ([], s)
  | e :: r =>
      let '(d, s) := stopper_tick e s in
      let '(l, s) := stopper_run r s in
      ((ve_now e, d) :: l, s)
  end.
End vllm_machine.

(** ** The watchdog of a parked box *)

Definition DEFAULT_HOLD_OFF_MAX_S : Z := 8100 * 1000000.

Record park_env := mkPark {
  pe_now : Z;
  (** [in_flight_fn], when the caller passes one *)
  pe_in_flight : option (result Z);
  pe_activity : result activity;
  (** the container's own state, when the caller can read it *)
  pe_container : option (result bool);
  pe_stop : result ();
  pe_models : result (list model_info);
  pe_unload : result ();
}.

Definition _own_work_in_flight (e : park_env) : Z :=
  match pe_in_flight e with Some (Ok n) => Z.max 0 n | _ => 0 end.

(** Does the vLLM container hold memory: it answers, or it runs without answering *)
Definition vllm_up (e : park_env) : bool :=
  match pe_activity e with Ok a => a_served a | Raise _ => false end ||
  match pe_container e with Some (Ok b) => b | _ => false end.

Definition kill (e : park_env) : bool * list string :=
  (vllm_up e && match pe_stop e with Ok _ => true | Raise _ => false end,
   match pe_models e with
   | Ok infos => match pe_unload e with Ok _ => sorted_set (names_of infos) | Raise _ => [] end
   | Raise _ => []
   end).

(** One pass, and since when the box has been holding off *)
Definition quiesce_tick (hold_off_max : Z) (e : park_env) (holding_since : option Z)
    : (bool * list string) * option Z :=
  if 0 <? _own_work_in_flight e then
    let since := default (pe_now e) holding_since in
    if pe_now e - since <? hold_off_max then ((false, []), Some since)
    else (kill e, Some since)
  else (kill e, None).

Fixpoint quiesce_run (hold_off_max : Z) (h : list park_env) (since : option Z) : option Z :=
  match h with
  | [] => since
  | e :: r => quiesce_run hold_off_max r (quiesce_tick hold_off_max e since).2
  end.

(** * Lemmas *)

Section reaper.
Implicit Types (s : seen) (m : model_info) (t : Z).

(** Every loaded model has an entry at least as recent as its expiry. *)
Definition covers (infos : list model_info) s : Prop :=
  ∀ m, m ∈ infos → PyStr.truthy (mi_name m) = true →
    ∃ v, dict_get (mi_name m) s = Some v ∧ mi_mru m ≤ v.1.

Lemma observe_one_grows t s m n v :
  dict_get n s = Some v → ∃ v', dict_get n (observe_one t s m) = Some v' ∧ v.1 ≤ v'.1.
Proof.
  intros Hn. unfold observe_one. destruct (PyStr.truthy (mi_name m)); simpl; [|by exists v].
  destruct (decide (n = mi_name m)) as [->|Hne].
  - rewrite Hn. destruct (Z.ltb_spec v.1 (mi_mru m)); [|by exists v].
    rewrite dict_get_set_eq. eexists. split; [done|]. simpl. lia.
  - exists v. split; [|lia].
    destruct (dict_get (mi_name m) s) as [u|]; [destruct (u.1 <? mi_mru m)|]; by rewrite ?dict_get_set_ne.
Qed.
Lemma observe_one_covers t s m :
  PyStr.truthy (mi_name m) = true →
  ∃ v, dict_get (mi_name m) (observe_one t s m) = Some v ∧ mi_mru m ≤ v.1.
Proof.
  intros Ht. unfold observe_one. rewrite Ht. simpl.
  destruct (dict_get (mi_name m) s) as [v|] eqn:E; [destruct (Z.ltb_spec v.1 (mi_mru m))|].
  - rewrite dict_get_set_eq. eexists. split; [done|]. simpl. lia.
  - exists v. split; [done|lia].
  - rewrite dict_get_set_eq. eexists. split; [done|]. simpl. lia.
Qed.

Lemma fold_grows t infos s n v :
  dict_get n s = Some v → ∃ v', dict_get n (foldl (observe_one t) s infos) = Some v' ∧ v.1 ≤ v'.1.
Proof.
  revert s v. induction infos as [|m infos IH]; intros s v Hn; simpl; [by exists v|].
  destruct (observe_one_grows t s m n v Hn) as (v1 & H1 & ?).
  destruct (IH _ _ H1) as (v2 & ? & ?). exists v2. split; [done|lia].
Qed.
Lemma fold_covers t infos s : covers infos (foldl (observe_one t) s infos).
Proof.
  revert s. induction infos as [|m infos IH]; intros s m' Hin Ht; [by apply not_elem_of_nil in Hin|].
  apply elem_of_cons in Hin as [->|Hin]; simpl; [|by apply IH].
  destruct (observe_one_covers t s m Ht) as (v & Hv & ?).
  destruct (fold_grows t infos _ _ _ Hv) as (v' & ? & ?). exists v'. split; [done|lia].
Qed.

Lemma names_spec infos n : n ∈ names_of infos ↔ PyStr.truthy n = true ∧ ∃ m, m ∈ infos ∧ mi_name m = n.
Proof.
  unfold names_of. rewrite list_elem_of_In, filter_In, <- list_elem_of_In, list_elem_of_fmap.
  split; [intros [(m & -> & ?) ?]|intros [? (m & ? & <-)]]; eauto.
Qed.

Lemma observe_covers t infos s : covers infos (observe_use t infos s).
Proof.
  intros m Hm Ht. destruct (fold_covers t infos s m Hm Ht) as (v & Hv & ?).
  exists v. split; [|done]. unfold observe_use. apply dict_get_filter; [done|].
  apply bool_decide_eq_true, names_spec. eauto.
Qed.

(** A tick that sees nothing new changes nothing. *)
Lemma fold_still t infos s : covers infos s → foldl (observe_one t) s infos = s.
Proof.
  induction infos as [|m infos IH]; intros Hc; [done|]. simpl.
  assert (observe_one t s m = s) as ->.
  { unfold observe_one. destruct (PyStr.truthy (mi_name m)) eqn:E; [|done]. simpl.
    destruct (Hc m (list_elem_of_here _ _) E) as (v & -> & Hv). by destruct (Z.ltb_spec v.1 (mi_mru m)); [lia|]. }
  apply IH. intros m' ?. apply Hc. by right.
Qed.
Lemma observe_still t t' infos s :
  observe_use t' infos (observe_use t infos s) = observe_use t infos s.
Proof.
  unfold observe_use at 1. rewrite fold_still by apply observe_covers.
  unfold observe_use. apply Lfilter_all. intros kv Hin%list_elem_of_In. by apply filter_In in Hin as [_ ?].
Qed.

(** The stamps: a use seen now is the newest, a first sighting stamps everything. *)
Definition fresh_use (now : Z) m s : Prop :=
  match dict_get (mi_name m) s with Some v => v.2 = now ∨ v.1 < mi_mru m | None => True end.
Definition stamped_now (now : Z) m s : Prop :=
  ∃ v, dict_get (mi_name m) s = Some v ∧ v.2 = now.

Lemma observe_one_stamps now s m :
  PyStr.truthy (mi_name m) = true → fresh_use now m s → stamped_now now m (observe_one now s m).
Proof.
  intros Ht. unfold fresh_use, stamped_now, observe_one. rewrite Ht. simpl.
  destruct (dict_get (mi_name m) s) as [v|] eqn:E.
  - destruct (Z.ltb_spec v.1 (mi_mru m)); intros Hf; [rewrite dict_get_set_eq; by eexists|].
    exists v. split; [done|]. destruct Hf; [done|lia].
  - intros _. rewrite dict_get_set_eq. by eexists.
Qed.
Lemma observe_one_other now s m m' :
  (fresh_use now m s → fresh_use now m (observe_one now s m')) ∧
  (stamped_now now m s → stamped_now now m (observe_one now s m')).
Proof.
  unfold fresh_use, stamped_now, observe_one.
  destruct (PyStr.truthy (mi_name m')); simpl; [|done].
  destruct (decide (mi_name m = mi_name m')) as [<-|Hne].
  - destruct (dict_get (mi_name m) s) as [v|] eqn:E; [destruct (v.1 <? mi_mru m')|];
      rewrite ?dict_get_set_eq, ?E; simpl; try done;
      (split; [by left|intros _; by eexists]).
  - destruct (dict_get (mi_name m') s) as [v|]; [destruct (v.1 <? mi_mru m')|]; rewrite ?dict_get_set_ne by done; done.
Qed.

Lemma fold_stamps now infos s m :
  m ∈ infos → PyStr.truthy (mi_name m) = true → fresh_use now m s →
  stamped_now now m (foldl (observe_one now) s infos).
Proof.
  intros Hin Ht. revert s. induction infos as [|m' infos IH]; [by apply not_elem_of_nil in Hin|].
  intros s Hf. simpl. apply elem_of_cons in Hin as [<-|Hin]; [|apply IH; [done|by apply observe_one_other]].
  apply (observe_one_stamps now s m) in Hf; [|done]. clear -Hf. revert Hf.
  generalize (observe_one now s m). induction infos as [|m' infos IH]; [done|].
  intros s' Hf. simpl. apply IH. by apply observe_one_other.
Qed.

Lemma fold_first_sight now infos kv :
  kv ∈ foldl (observe_one now) [] infos → kv.2.2 = now.
Proof.
  assert (∀ s, (∀ kv, kv ∈ s → kv.2.2 = now) → ∀ kv, kv ∈ foldl (observe_one now) s infos → kv.2.2 = now)
    as Hg; [|apply Hg; by intros ? ?%not_elem_of_nil].
  induction infos as [|m infos IH]; intros s Hs; [done|]. simpl. apply IH. intros kv'.
  unfold observe_one. destruct (PyStr.truthy _); simpl; [|apply Hs].
  destruct (dict_get (mi_name m) s) as [v|]; [destruct (v.1 <? mi_mru m)|]; try apply Hs;
    intros [->|Hin]%elem_of_dict_set; auto.
Qed.

Lemma last_use_spec s : s ≠ [] → (∃ kv, kv ∈ s ∧ last_use s = kv.2.2) ∧ ∀ kv, kv ∈ s → kv.2.2 ≤ last_use s.
Proof.
  unfold last_use. destruct s as [|kv0 s]; [done|]. intros _. simpl.
  induction s as [|kv s [(m & Hm & E) IH]]; simpl.
  { split; [exists kv0; split; [by left|done]|]. intros kv ->%list_elem_of_singleton. lia. }
  split.
  - destruct (Z.max_spec kv.2.2 (foldr Z.max kv0.2.2 (map (λ kv, kv.2.2) s))) as [[_ ->]|[_ ->]].
    + exists m. split; [|done]. apply elem_of_cons in Hm as [->|?]; [by left|by right; right].
    + exists kv. split; [by right; left|done].
  - intros kv' [->|[->|Hin]%elem_of_cons]%elem_of_cons; [|lia|].
    + specialize (IH kv0 (list_elem_of_here _ _)). lia.
    + specialize (IH kv' (list_elem_of_further _ _ _ Hin)). lia.
Qed.

Lemma names_nonempty infos : names_of infos ≠ [] → ∃ m, m ∈ infos ∧ PyStr.truthy (mi_name m) = true.
Proof.
  destruct (names_of infos) as [|n ns] eqn:E; [done|]. intros _.
  assert (n ∈ names_of infos) as (Ht & m & ? & <-)%names_spec by (rewrite E; by left). eauto.
Qed.
Lemma observe_nonempty t infos s : names_of infos ≠ [] → observe_use t infos s ≠ [].
Proof.
  intros (m & Hm & Ht)%names_nonempty E.
  destruct (observe_covers t infos s m Hm Ht) as (v & Hv & _). by rewrite E in Hv.
Qed.

(** A quiet tick over a readable server *)
Definition quiet (e : reap_env) (infos : list model_info) : Prop :=
  (∃ n, re_active e = Ok n ∧ n ≤ 0) ∧ re_infos e = Ok infos.

Lemma reap_quiet ttl e infos s :
  0 < ttl → quiet e infos → names_of infos ≠ [] →
  reap_idle_once ttl e s =
    let s := observe_use (re_now e) infos s in
    if re_now e - last_use s <? ttl then ([], s)
    else match re_unload e with Ok _ => (sorted_set (names_of infos), []) | Raise _ => ([], s) end.
Proof.
  intros Ht ((n & Ha & Hn) & Hi) Hne. unfold reap_idle_once, should_unload_external_model.
  rewrite Ha, Hi. destruct (Z.leb_spec ttl 0); [lia|]. destruct (Z.ltb_spec 0 n); [lia|].
  destruct (names_of infos) eqn:E; [done|]. simpl.
  destruct (Z.leb_spec ttl (re_now e - last_use (observe_use (re_now e) infos s)));
    destruct (Z.ltb_spec (re_now e - last_use (observe_use (re_now e) infos s)) ttl); simpl; try done; lia.
Qed.

(** The memory after a first sighting was stamped then. *)
Lemma first_sight_last_use t infos : names_of infos ≠ [] → last_use (observe_use t infos []) = t.
Proof.
  intros Hne. destruct (last_use_spec _ (observe_nonempty t infos [] Hne)) as [(kv & Hin & ->) _].
  apply list_elem_of_In, filter_In in Hin as [Hin%list_elem_of_In _]. by apply fold_first_sight in Hin.
Qed.
Lemma reap_after_first_sight ttl e infos t0 :
  0 < ttl → quiet e infos → names_of infos ≠ [] →
  let s0 := observe_use t0 infos [] in
  reap_idle_once ttl e s0 =
    if re_now e - t0 <? ttl then ([], s0)
    else match re_unload e with Ok _ => (sorted_set (names_of infos), []) | Raise _ => ([], s0) end.
Proof.
  intros Ht Hq Hne s0. rewrite (reap_quiet ttl e infos) by done. unfold s0.
  rewrite observe_still. simpl. by rewrite first_sight_last_use.
Qed.
Lemma reap_first_sight ttl e infos :
  0 < ttl → quiet e infos → names_of infos ≠ [] →
  reap_idle_once ttl e [] = ([], observe_use (re_now e) infos []).
Proof.
  intros Ht Hq Hne. rewrite (reap_quiet ttl e infos) by done. simpl.
  rewrite first_sight_last_use by done. by destruct (Z.ltb_spec (re_now e - re_now e) ttl); [|lia].
Qed.

(** Quiet ticks within the window leave the memory as the first one made it. *)
Lemma quiet_ticks ttl t0 infos l :
  0 < ttl → names_of infos ≠ [] → (∀ e, e ∈ l → quiet e infos ∧ re_now e < t0 + ttl) →
  let s0 := observe_use t0 infos [] in
  (∀ e, e ∈ l → reap_idle_once ttl e s0 = ([], s0)) ∧
  foldl (λ s e, (reap_idle_once ttl e s).2) s0 l = s0.
Proof.
  intros Ht Hne Hl s0.
  assert (∀ e, e ∈ l → reap_idle_once ttl e s0 = ([], s0)) as Hstep.
  { intros e [Hq Hlt]%Hl. unfold s0. rewrite reap_after_first_sight by done.
    by destruct (Z.ltb_spec (re_now e - t0) ttl); [|lia]. }
  split; [done|]. clear Hl. induction l as [|e l IH]; [done|]. simpl.
  rewrite Hstep by (by left). simpl. apply IH. intros e' ?. apply Hstep. by right.
Qed.

(** A use seen by this tick keeps every model. *)
Lemma reap_sees_use ttl e infos s m :
  re_infos e = Ok infos → m ∈ infos → PyStr.truthy (mi_name m) = true → fresh_use (re_now e) m s →
  (reap_idle_once ttl e s).1 = [].
Proof.
  intros Hi Hm Ht Hf. unfold reap_idle_once, should_unload_external_model.
  destruct (Z.leb_spec ttl 0) as [|Hpos]; [done|]. destruct (re_active e) as [n|]; [|done].
  destruct (0 <? n); [done|]. rewrite Hi. destruct (names_of infos) as [|n0 ns] eqn:E; [done|].
  destruct (fold_stamps (re_now e) infos s m Hm Ht Hf) as (v & Hv & Hnow).
  assert ((mi_name m, v) ∈ observe_use (re_now e) infos s) as Hin.
  { apply list_elem_of_In, filter_In. split; [by apply list_elem_of_In, dict_get_elem|].
    apply bool_decide_eq_true, names_spec. eauto. }
  assert (re_now e ≤ last_use (observe_use (re_now e) infos s)).
  { destruct (last_use_spec (observe_use (re_now e) infos s)) as [_ Hge].
    - intros E'. rewrite E' in Hin. by apply not_elem_of_nil in Hin.
    - apply Hge in Hin. simpl in Hin. lia. }
  destruct (Z.leb_spec ttl (re_now e - last_use (observe_use (re_now e) infos s))); [lia|done].
Qed.

(** An idle model is unloaded at the end of its window, never sooner.  From the
    tick that first sees the models of a server, quiet ticks that see no expiry
    advance unload nothing before [ttl] has passed and unload every loaded model at
    the first tick after it; and a tick that sees a new model, or an expiry that
    advanced since the last tick, unloads nothing, whoever used the model. *)
Lemma idle_models_are_unloaded_at_the_ttl ttl infos e0 l e :
  0 < ttl → names_of infos ≠ [] →
  quiet e0 infos → (∀ e, e ∈ l → quiet e infos ∧ re_now e < re_now e0 + ttl) →
  quiet e infos → re_now e0 + ttl ≤ re_now e → re_unload e = Ok () →
  (let s := foldl (λ s e, (reap_idle_once ttl e s).2) [] (e0 :: l) in
   reap_idle_once ttl e s = (sorted_set (names_of infos), [])) ∧
  (∀ e', e' ∈ e0 :: l → (reap_idle_once ttl e' (reap_idle_once ttl e0 []).2).1 = []) ∧
  (∀ e' infos' s m, re_infos e' = Ok infos' → m ∈ infos' → PyStr.truthy (mi_name m) = true →
     match dict_get (mi_name m) s with Some v => v.1 < mi_mru m | None => True end →
     (reap_idle_once ttl e' s).1 = []).
Proof.
  intros Ht Hne Hq0 Hl Hq Hlate Hu.
  destruct (quiet_ticks ttl (re_now e0) infos (e0 :: l) Ht Hne) as [Hnone Hfold].
  { intros e' [->|?]%elem_of_cons; [split; [done|lia]|auto]. }
  pose proof (reap_first_sight ttl e0 infos Ht Hq0 Hne) as E0.
  split_and!.
  - simpl in *. rewrite E0. rewrite Hnone in Hfold by (by left). simpl in *.
    rewrite Hfold, reap_after_first_sight, Hu by done.
    by destruct (Z.ltb_spec (re_now e - re_now e0) ttl); [lia|].
  - intros e' He'. rewrite E0. simpl. by rewrite Hnone.
  - intros e' infos' s m Hi Hm Htr Hf. eapply reap_sees_use; eauto. unfold fresh_use.
    destruct (dict_get _ s); [by right|done].
Qed.
End reaper.

(** ** The vLLM machine *)

Section stopper.
Context (ttl restart_cooldown : Z).
Abbreviation tick := (stopper_tick ttl restart_cooldown).
Implicit Types (e : vllm_env) (s : stopper).

(** What a stop and a start rest on *)
Definition idle_server e s : Prop :=
  ∃ a f t, ve_activity e = Ok a ∧ a_served a = true ∧ a_running a ≤ 0 ∧
    v_seen s = Some (f, t) ∧ a_finished a ≤ f ∧ ttl ≤ ve_now e - t ∧ 0 < ttl ∧
    match ve_active e with Ok n => n ≤ 0 | Raise _ => True end ∧
    match ve_pending e with Some r => ∃ n, r = Ok (Some n) ∧ n ≤ 0 | None => True end.
Definition wanted_server e s : Prop :=
  ∃ a p q, ve_activity e = Ok a ∧ a_served a = false ∧ ve_pending e = Some (Ok (Some p)) ∧
    ve_min_queue e = Ok q ∧ Z.max 1 q ≤ p ∧ ve_may_start e ≠ Some (Ok false) ∧
    match _last_action_at s with
    | Some t => restart_cooldown * 2 ^ Z.min (_failed_starts s) 5 ≤ ve_now e - t
    | None => True
    end.

Lemma stop_spec e s :
  match stop_idle_once ttl e s with
  | (true, s') => idle_server e s ∧ s' = mkStopper None (Some (ve_now e)) (_failed_starts s)
  | (false, s') => _last_action_at s' = _last_action_at s ∧
      (_failed_starts s' = _failed_starts s ∨ _failed_starts s' = 0) ∧
      (match ve_activity e with Ok a => a_served a = false | Raise _ => True end →
       _failed_starts s' = _failed_starts s)
  end.
Proof.
  unfold stop_idle_once, should_stop_idle_vllm, nothing_pending.
  destruct (ve_activity e) as [a|x] eqn:Ea; [|naive_solver].
  destruct (a_served a) eqn:Es; simpl; [|naive_solver].
  destruct (v_seen s) as [[f t]|] eqn:Ev; simpl; [|naive_solver].
  destruct (Z.ltb_spec f (a_finished a)); simpl; [naive_solver|].
  destruct (Z.ltb_spec 0 (a_running a)); simpl; [naive_solver|].
  destruct (Z.leb_spec ttl 0); simpl; [naive_solver|].
  destruct (Z.leb_spec (a_running a) 0); simpl; [|lia].
  destruct (Z.leb_spec (match ve_active e with Ok n => n | Raise _ => 0 end) 0) as [Hact|]; simpl; [|naive_solver].
  destruct (Z.leb_spec ttl (ve_now e - t)); simpl; [|naive_solver].
  destruct (ve_pending e) as [[[n|]|y]|] eqn:Ep; simpl; try (naive_solver);
    [destruct (Z.ltb_spec 0 n); simpl; [naive_solver|]|];
    (destruct (ve_stop e); [|naive_solver]); split; try done; exists a, f, t; rewrite Ea, Ev, Ep;
    split_and!; try done; try lia; try (destruct (ve_active e); [lia|done]); eauto.
Qed.

Lemma start_spec e s :
  match start_if_wanted_once restart_cooldown e s with
  | (true, s') => wanted_server e s ∧ s' = mkStopper (v_seen s) (Some (ve_now e)) (_failed_starts s + 1)
  | (false, s') => s' = s
  end.
Proof.
  unfold start_if_wanted_once, gate_open, cooling, cooldown, should_start_vllm.
  destruct (ve_start e) as [start|]; [|done]. destruct (ve_pending e) as [p|] eqn:Ep; [|done].
  destruct (match ve_may_start e with Some _ => _ | None => _ end) eqn:Eg; [|done]. simpl.
  destruct (match _last_action_at s with Some _ => _ | None => _ end) eqn:Ec; [done|].
  destruct (ve_activity e) as [a|] eqn:Ea; [|done]. destruct p as [p|]; [|done].
  destruct (ve_min_queue e) as [q|] eqn:Eq; [|done]. destruct (a_served a) eqn:Es; [done|].
  destruct (Z.ltb_spec 0 (default 0 p)); simpl; [|done].
  destruct (Z.leb_spec q (default 0 p)); simpl; [|done]. destruct start; [|done].
  split; [|done]. destruct p as [p|]; simpl in *; [|lia]. exists a, p, q. rewrite Ea, Ep, Eq.
  split_and!; try done; [lia|by intros E; rewrite E in Eg|].
  destruct (_last_action_at s) as [t|]; [|done]. apply Z.ltb_ge in Ec. lia.
Qed.

Lemma cooldown_ge s : 0 ≤ restart_cooldown → 0 ≤ _failed_starts s →
  restart_cooldown ≤ restart_cooldown * 2 ^ Z.min (_failed_starts s) 5.
Proof. intros. pose proof (Z.pow_pos_nonneg 2 (Z.min (_failed_starts s) 5) ltac:(lia) ltac:(lia)). nia. Qed.

Lemma tick_spec e s :
  0 ≤ _failed_starts s →
  match tick e s with
  | (Stopped, s') => idle_server e s ∧ _last_action_at s' = Some (ve_now e) ∧ _failed_starts s' = _failed_starts s
  | (Started, s') => wanted_server e s ∧ _last_action_at s' = Some (ve_now e) ∧
                     _failed_starts s' = _failed_starts s + 1
  | (Nothing, s') => _last_action_at s' = _last_action_at s ∧ 0 ≤ _failed_starts s'
  end.
Proof.
  intros Hf. unfold stopper_tick. pose proof (stop_spec e s) as Hs.
  destruct (stop_idle_once ttl e s) as [[] s1]; [destruct Hs as [? ->]; by split_and!|].
  destruct Hs as (Hl & Hff & Hkeep). pose proof (start_spec e s1) as Ht.
  destruct (start_if_wanted_once restart_cooldown e s1) as [[] s2].
  - destruct Ht as [(a & p & q & Ha & Hs & Hrest) ->]. rewrite Ha in Hkeep. specialize (Hkeep Hs).
    rewrite Hl, Hkeep in Hrest. simpl. rewrite Hkeep. split_and!; try done. by exists a, p, q.
  - subst s2. split; [done|]. destruct Hff; lia.
Qed.

(** Every start of a run is a cooldown after the action it began with. *)
Lemma run_spaced h s a :
  0 ≤ restart_cooldown → 0 ≤ _failed_starts s → _last_action_at s = Some a →
  Sorted Z.le (a :: map ve_now h) →
  ∀ t, (t, Started) ∈ (stopper_run ttl restart_cooldown h s).1 → restart_cooldown ≤ t - a.
Proof.
  intros Hc. revert s a. induction h as [|e h IH]; intros s a Hf Ha Hsort t Hin; simpl in Hin;
    [by apply not_elem_of_nil in Hin|].
  apply Sorted_StronglySorted in Hsort; [|intros ???; lia].
  inversion Hsort as [|? ? Hs1 Hall]; subst. inversion Hs1 as [|? ? Hs2 Hall2]; subst.
  simpl in Hall. inversion Hall; subst.
  assert (Sorted Z.le (ve_now e :: map ve_now h)) as Hnow by by apply StronglySorted_Sorted.
  assert (Sorted Z.le (a :: map ve_now h)) as Hold.
  { apply StronglySorted_Sorted. by constructor. }
  pose proof (tick_spec e s Hf) as Ht. destruct (tick e s) as [d s1].
  destruct (stopper_run ttl restart_cooldown h s1) as [l s2] eqn:Er. simpl in Hin.
  assert (∀ a', _last_action_at s1 = Some a' → 0 ≤ _failed_starts s1 → Sorted Z.le (a' :: map ve_now h) →
            (t, Started) ∈ l → restart_cooldown ≤ t - a') as Hrec.
  { intros a' ? ? ? Hl. eapply (IH s1); eauto. by rewrite Er. }
  apply elem_of_cons in Hin as [[= -> <-]|Hin].
  - destruct Ht as ((? & ? & ? & _ & _ & _ & _ & _ & _ & Hw) & _). rewrite Ha in Hw.
    pose proof (cooldown_ge s Hc Hf). lia.
  - destruct d.
    + destruct Ht as (_ & Hl & Hff). specialize (Hrec _ Hl ltac:(lia) Hnow Hin). lia.
    + destruct Ht as (_ & Hl & Hff). specialize (Hrec _ Hl ltac:(lia) Hnow Hin). lia.
    + destruct Ht as (Hl & Hff). apply Hrec; try done; congruence.
Qed.

(** VLLM is stopped only when idle, started only when wanted, and never
    oscillates.  A tick stops the server only when it serves, has nothing running,
    finished nothing since it was last seen used at least [ttl] ago, no gpu job is
    claimed and the queue is known to be empty; it starts one only when none
    serves, the waiting jobs reach the threshold, no closed gate was read and the
    cooldown, doubled per start that never served (up to 32 times), has passed.
    Over any history whose clock does not run backwards, no start follows an
    earlier stop or start by less than the cooldown. *)
Lemma vllm_lifecycle_is_damped h1 e h2 s :
  0 ≤ restart_cooldown → 0 ≤ _failed_starts s → Sorted Z.le (map ve_now (h1 ++ e :: h2)) →
  let s1 := (stopper_run ttl restart_cooldown h1 s).2 in
  match tick e s1 with
  | (Stopped, _) => idle_server e s1
  | (Started, _) => wanted_server e s1
  | (Nothing, _) => True
  end ∧
  ((tick e s1).1 ≠ Nothing →
   ∀ t, (t, Started) ∈ (stopper_run ttl restart_cooldown h2 (tick e s1).2).1 →
     restart_cooldown ≤ t - ve_now e).
Proof.
  intros Hc Hf Hsort s1.
  assert (0 ≤ _failed_starts s1) as Hf1.
  { subst s1. clear Hsort. revert s Hf. induction h1 as [|e' h IH]; intros s Hf; [done|]. simpl.
    pose proof (tick_spec e' s Hf) as Ht. destruct (tick e' s) as [d s']. specialize (IH s').
    destruct (stopper_run _ _ h s') as [l s2]. apply IH. destruct d; destruct_and?; lia. }
  rewrite map_app in Hsort. simpl in Hsort.
  assert (Sorted Z.le (ve_now e :: map ve_now h2)) as Hs2.
  { clear -Hsort. induction (map ve_now h1) as [|x l IH]; [done|]. apply IH. by inversion Hsort. }
  pose proof (tick_spec e s1 Hf1) as Ht. destruct (tick e s1) as [d s2] eqn:E. simpl.
  split; [destruct d; naive_solver|]. intros Hd t. apply run_spaced; try done.
  - destruct d; destruct_and?; lia.
  - destruct d; naive_solver.
Qed.
End stopper.

(** ** The watchdog *)

(** A parked box is freed, and its own job cannot hold it for ever.  A tick with
    no job of ours in flight stops whatever runs as vLLM, answering or still
    loading, and unloads every ollama model, as far as the levers work; jobs of
    ours in flight without a break postpone that to the first tick [hold_off_max]
    after the one that first saw them, and no further. *)
Lemma parked_box_is_freed hold_off_max e0 h e :
  (∀ e', e' ∈ e0 :: h ++ [e] → 0 < _own_work_in_flight e') →
  0 < hold_off_max →
  let held := quiesce_run hold_off_max (e0 :: h) None in
  ((quiesce_tick hold_off_max e held).1 =
     if pe_now e - pe_now e0 <? hold_off_max then (false, []) else kill e) ∧
  (∀ e' since, _own_work_in_flight e' = 0 → quiesce_tick hold_off_max e' since = (kill e', None)) ∧
  (∀ e', (vllm_up e' = true → pe_stop e' = Ok () → (kill e').1 = true) ∧
         (∀ infos m, pe_models e' = Ok infos → pe_unload e' = Ok () → m ∈ infos →
            PyStr.truthy (mi_name m) = true → mi_name m ∈ (kill e').2)).
Proof.
  intros Hw Hpos held.
  assert (∀ l, (∀ e', e' ∈ l → 0 < _own_work_in_flight e') →
            quiesce_run hold_off_max l (Some (pe_now e0)) = Some (pe_now e0)) as Hrun.
  { intros l. induction l as [|e' l IH]; intros Hl; [done|]. simpl. unfold quiesce_tick.
    destruct (Z.ltb_spec 0 (_own_work_in_flight e')); [|specialize (Hl e' (list_elem_of_here _ _)); lia].
    simpl. destruct (_ <? _); simpl; apply IH; intros ? ?; apply Hl; by right. }
  assert (held = Some (pe_now e0)) as ->.
  { unfold held. simpl. unfold quiesce_tick at 1.
    destruct (Z.ltb_spec 0 (_own_work_in_flight e0)); [|specialize (Hw e0 (list_elem_of_here _ _)); lia].
    simpl. destruct (_ <? _); simpl; apply Hrun; intros ? ?; apply Hw; set_solver. }
  split_and!.
  - unfold quiesce_tick. destruct (Z.ltb_spec 0 (_own_work_in_flight e)) as [|Hn].
    + simpl. by destruct (_ <? _).
    + assert (0 < _own_work_in_flight e) by (apply Hw; set_solver). lia.
  - intros e' since Hz. unfold quiesce_tick. by rewrite Hz.
  - intros e'. unfold kill. split; simpl; [by intros -> ->|].
    intros infos m -> -> Hm Ht. apply elem_of_sorted_set, names_spec. eauto.
Qed.

(** * Witnesses *)

Module IdleDemo.
Definition s_ (n : Z) : Z := n * 1000000.
Definition ps : list model_info := [mkModelInfo "chat-a" (s_ 900); mkModelInfo "chat-b" (s_ 700)].
Definition look (n : Z) : reap_env := mkReap (s_ n) (Ok 0) (Ok ps) (Ok ()).
(** An idle vLLM that is stopped, then work arrives. *)
Definition vllm (n : Z) (served : bool) (pending : Z) : vllm_env :=
  mkVllmEnv (s_ n) (Ok (mkActivity served 0 7)) (Ok 0) (Some (Ok (Some pending))) (Ok ())
    (Some (Ok ())) None (Ok 2).
Definition work (n : Z) : park_env :=
  mkPark (s_ n) (Some (Ok 1)) (Raise (OtherError "refused")) (Some (Ok true)) (Ok ()) (Ok ps) (Ok ()).
End IdleDemo.

Lemma idle_models_are_unloaded_at_the_ttl_witness :
  reap_idle_once DEFAULT_LLM_IDLE_TTL_S (IdleDemo.look 310)
    (foldl (λ s e, (reap_idle_once DEFAULT_LLM_IDLE_TTL_S e s).2) [] [IdleDemo.look 10; IdleDemo.look 200])
  = (["chat-a"; "chat-b"]%string, []).
Proof.
  apply (idle_models_are_unloaded_at_the_ttl DEFAULT_LLM_IDLE_TTL_S IdleDemo.ps (IdleDemo.look 10)
    [IdleDemo.look 200] (IdleDemo.look 310)); try done.
  - split; [by exists 0|done].
  - intros e ->%list_elem_of_singleton. split; [split; [by exists 0|done]|done].
  - split; [by exists 0|done].
Defined.

(** The stop at 400 s; the queue fills at once, the start waits for 520 s. *)
Lemma vllm_lifecycle_is_damped_witness :
  (stopper_run (IdleDemo.s_ 300) (IdleDemo.s_ 120)
     [IdleDemo.vllm 10 true 0; IdleDemo.vllm 400 true 0; IdleDemo.vllm 430 false 5; IdleDemo.vllm 520 false 5]
     (mkStopper None None 0)).1 =
    [(IdleDemo.s_ 10, Nothing); (IdleDemo.s_ 400, Stopped); (IdleDemo.s_ 430, Nothing); (IdleDemo.s_ 520, Started)]
  ∧ IdleDemo.s_ 120 ≤ IdleDemo.s_ 520 - IdleDemo.s_ 400.
Proof.
  split; [reflexivity|].
  eapply (proj2 (vllm_lifecycle_is_damped (IdleDemo.s_ 300) (IdleDemo.s_ 120) [IdleDemo.vllm 10 true 0]
    (IdleDemo.vllm 400 true 0) [IdleDemo.vllm 430 false 5; IdleDemo.vllm 520 false 5] (mkStopper None None 0)
    ltac:(done) ltac:(done) ltac:(repeat constructor; done))).
  - discriminate.
  - vm_compute. right. left.
Defined.

(** A job of ours holds the card off for 8100 s, not for longer. *)
Lemma parked_box_is_freed_witness :
  (quiesce_tick DEFAULT_HOLD_OFF_MAX_S (IdleDemo.work 8200)
     (quiesce_run DEFAULT_HOLD_OFF_MAX_S [IdleDemo.work 100; IdleDemo.work 4000] None)).1
  = (true, ["chat-a"; "chat-b"]%string).
Proof.
  apply (parked_box_is_freed DEFAULT_HOLD_OFF_MAX_S (IdleDemo.work 100) [IdleDemo.work 4000] (IdleDemo.work 8200));
    [|done].
  intros e' [->|[->| ->%list_elem_of_singleton]%elem_of_cons]%elem_of_cons; done.
Defined.
