(* ===== verification/ModelCache.v ===== *)
(** * The warm model of a gpu process
      ([queue_workflows/model_cache.py], [queue_workflows/gpu_model_cache.py])

    One loaded model per process: [require_model] returns its handle, or swaps; an
    idle reaper drops it; the heartbeat row advertises it.  The process-wide cache is
    wired to the box lease and to a gate that clears the box before a load.

    The loader of a model, the host's registrar and what the probes of the box
    answer are parameters.  Handles are opaque numbers; instants and TTLs are
    microseconds. *)

From S2P Require Import Prelude Json Schema NodeQueue Reclaim WorkerLanes ModelLease Catalog Residency.
Local Open Scope Z_scope.

Definition gpu_should_unload (handle_present : bool) (active idle_s ttl_s : Z) : bool :=
  if ttl_s <=? 0 then false else handle_present && (active <=? 0) && (ttl_s <=? idle_s).

Record ModelCache := mkCache {
  _current_model : option string;
  _current_handle : option Z;
  _active : Z;
  _last_used : Z;
  _reaper_started : bool;
}.
Definition fresh_cache : ModelCache := mkCache None None 0 0 false.

(** The process around the cache: the lease files, what was advertised (latest
    first) and the registry *)
Record process := mkProcess {
  p_cache : ModelCache;
  p_fs : disk;
  p_published : list (option string);
  p_models : registry;
}.

Definition K (A : Type) : Type := process → result A * process.
#[export] Instance K_ret : MRet K := λ A a p, (Ok a, p).
#[export] Instance K_bind : MBind K := λ A B f m p,
  match m p with
  | (Ok a, p') => f a p'
  | (Raise e, p') => (Raise e, p')
  end.
Definition raise_k {A} (r : result A) : K A := λ p, (r, p).
Definition get_k {A} (f : process → A) : K A := λ p, (Ok (f p), p).
Definition on_cache (f : ModelCache → ModelCache) : K () := λ p,
  (Ok (), mkProcess (f (p_cache p)) (p_fs p) (p_published p) (p_models p)).
Definition on_fs {A} (f : disk → result A * disk) : K A := λ p,
  let '(r, fs) := f (p_fs p) in (r, mkProcess (p_cache p) fs (p_published p) (p_models p)).
Definition _publish (m : option string) : K () := λ p,
  (Ok (), mkProcess (p_cache p) (p_fs p) (m :: p_published p) (p_models p)).

(** What one call reads: the clocks, and whether the lease file could be locked *)
Record call_env := mkCall {
  ce_now : Z;
  ce_lease_now : Z;
  ce_acquire_contended : bool;
  ce_release_contended : bool;
}.

Section cache.
Context (lease : option ModelLease) (pre_load_check : option (string → result ()))
  (register_builtins : registry → registry) (loader : string → result Z)
  (idle_ttl_s : Z) (reaper_disabled : bool).

Definition touch (now : Z) (c : ModelCache) : ModelCache :=
  mkCache (_current_model c) (_current_handle c) (_active c) now (_reaper_started c).
Definition ensure_idle_reaper (c : ModelCache) : ModelCache :=
  if _reaper_started c || (idle_ttl_s <=? 0) || reaper_disabled then c
  else mkCache (_current_model c) (_current_handle c) (_active c) (_last_used c) true.

Definition drop_cache (e : call_env) : K () :=
  c ← get_k p_cache;
  match _current_handle c with
  | None => mret ()
  | Some _ =>
      _ ← on_cache (λ c, mkCache None None (_active c) (_last_used c) (_reaper_started c));
      match lease with
      | Some l => on_fs (λ fs, (Ok (), release l (ce_release_contended e) fs))
      | None => mret ()
      end
  end.

(** [model_registry.get], once more after the builtins are registered *)
Definition find_spec (model_id : string) : K ModelSpec := λ p,
  match get model_id (p_models p) with
  | Ok s => (Ok s, p)
  | Raise _ =>
      let models := register_builtins (p_models p) in
      (get model_id models, mkProcess (p_cache p) (p_fs p) (p_published p) models)
  end.

Definition warm_hit (model_id : string) (c : ModelCache) : option Z :=
  if bool_decide (_current_model c = Some model_id) then _current_handle c else None.

Definition load_model (e : call_env) (model_id : string) : K Z :=
  _ ← raise_k (match pre_load_check with Some gate => gate model_id | None => Ok () end);
  _ ← match lease with
      | Some l => on_fs (acquire_or_raise l (ce_lease_now e) (ce_acquire_contended e) model_id)
      | None => mret ()
      end;
  _ ← drop_cache e;
  _ ← _publish None;
  _ ← find_spec model_id;
  handle ← raise_k (loader model_id);
  _ ← on_cache (λ c, mkCache (Some model_id) (Some handle) (_active c) (_last_used c) (_reaper_started c));
  _ ← _publish (Some model_id);
  mret handle.

Definition require_model (e : call_env) (model_id : string) : K Z :=
  _ ← on_cache (λ c, ensure_idle_reaper (touch (ce_now e) c));
  c ← get_k p_cache;
  match warm_hit model_id c with
  | Some handle => mret handle
  | None => load_model e model_id
  end.

Definition mark_busy : K () :=
  on_cache (λ c, mkCache (_current_model c) (_current_handle c) (_active c + 1) (_last_used c) (_reaper_started c)).
Definition mark_idle (e : call_env) : K () :=
  on_cache (λ c, mkCache (_current_model c) (_current_handle c) (Z.max 0 (_active c - 1)) (ce_now e)
                   (_reaper_started c)).

Definition reap_idle_once (e : call_env) : K bool :=
  c ← get_k p_cache;
  if negb (gpu_should_unload (bool_decide (is_Some (_current_handle c))) (_active c)
             (ce_now e - _last_used c) idle_ttl_s) then mret false
  else _ ← drop_cache e; _ ← _publish None; mret true.

(** The calls a process makes on its cache *)
Inductive cache_op := Require (model_id : string) | Busy | Idle | Reap.
Definition perform_op (e : call_env) (o : cache_op) (p : process) : process :=
  match o with
  | Require m => (require_model e m p).2
  | Busy => (mark_busy p).2
  | Idle => (mark_idle e p).2
  | Reap => (reap_idle_once e p).2
  end.
Definition run_ops (h : list (call_env * cache_op)) (p : process) : process :=
  foldl (λ p eo, perform_op eo.1 eo.2 p) p h.
End cache.

(** ** The wiring of the process-wide cache *)

Definition _GATE_SETTLE_TRIES : nat := 3.

(** The box shows nothing but this in-process model. *)
Definition clean (model_id : string) (residents : list Resident) : bool :=
  match List.filter (λ r, negb (String.eqb (server r) INPROCESS &&
          String.eqb (canonical_tag (model r)) (canonical_tag model_id))) residents with
  | [] => true
  | _ => false
  end.

(** [_reprobe]: [probe k] is what the [k]-th look at the box shows. *)
Fixpoint settle_probe (n : nat) (model_id : string) (probe : nat → list Resident) (k : nat) : list Resident :=
  match n with
  | O => probe k
  | S n => if clean model_id (probe k) then probe k else settle_probe n model_id probe (S k)
  end.
Definition _reprobe (model_id : string) (probe : nat → list Resident) : list Resident :=
  settle_probe (_GATE_SETTLE_TRIES - 1) model_id probe 0.

Definition server_served (models : registry) (model_id : string) : bool :=
  match dict_get model_id models with
  | Some s => match served_by s with [] => false | _ => true end
  | None => false
  end.
Definition _box_load_gate (models : registry) (model_id : string) (residents : list Resident)
    (probe : nat → list Resident) : list lever * result () :=
  if server_served models model_id then ([], Ok ())
  else let '(fired, r) := clear_box_for INPROCESS (Some model_id) residents
                            (Some (Ok (_reprobe model_id probe))) in
       (fired, match r with Ok _ => Ok () | Raise x => Raise x end).

(** The heartbeat row of this worker; a failed write is dropped. *)
Definition _publish_current_model `{QueueConfig} (disabled : bool) (host : string) (models : registry)
    (model_id : option string) : M () :=
  if disabled then mret ()
  else try_except
         (upsert_worker_heartbeat host "gpu" 1 model_id (Some (known_ids models)) None None None true None None)
         (λ _, Some (mret ())).

(** * Lemmas *)

Section cache_lemmas.
Context (lease : option ModelLease) (gate : option (string → result ()))
  (reg : registry → registry) (loader : string → result Z) (ttl : Z) (off : bool).
Abbreviation require := (require_model lease gate reg loader ttl off).
Abbreviation load := (load_model lease gate reg loader).
Abbreviation reap := (reap_idle_once lease ttl).
Implicit Types (p : process) (e : call_env).

(** A handle and its name are there together, and the last thing advertised is what
    is loaded. *)
Record mirrored p : Prop := {
  mr_slot : is_Some (_current_handle (p_cache p)) ↔ is_Some (_current_model (p_cache p));
  mr_published : default None (head (p_published p)) = _current_model (p_cache p);
}.

(** The cache after a drop, whatever the lease file does *)
Definition emptied (c : ModelCache) : ModelCache :=
  mkCache None None (_active c) (_last_used c) (_reaper_started c).

Lemma drop_spec e p :
  (is_Some (_current_handle (p_cache p)) ↔ is_Some (_current_model (p_cache p))) →
  ∃ fs, drop_cache lease e p = (Ok (), mkProcess (emptied (p_cache p)) fs (p_published p) (p_models p)) ∧
    (_current_handle (p_cache p) = None → fs = p_fs p).
Proof.
  intros Hs. destruct p as [[m [h|] a u r] fs pub models]; unfold drop_cache, mbind, K_bind, get_k, emptied; simpl in *.
  - destruct lease; by eexists.
  - destruct m as [m|]; [|by eexists]. by destruct (proj2 Hs (mk_is_Some _ _ eq_refl)).
Qed.

(** What a load does, and that a refusal comes before anything is touched *)
Lemma load_spec e m p :
  (is_Some (_current_handle (p_cache p)) ↔ is_Some (_current_model (p_cache p))) →
  let c := p_cache p in
  ∃ r fs pub models c', load e m p = (r, mkProcess c' fs pub models) ∧
   ((∃ x, r = Raise x ∧ c' = c ∧ pub = p_published p ∧ models = p_models p) ∨
    (∃ x, r = Raise x ∧ c' = emptied c ∧ pub = None :: p_published p) ∨
    (∃ h, r = Ok h ∧ loader m = Ok h ∧
       c' = mkCache (Some m) (Some h) (_active c) (_last_used c) (_reaper_started c) ∧
       pub = Some m :: None :: p_published p)).
Proof.
  intros Hs c. unfold load_model, mbind, K_bind, raise_k.
  destruct (match gate with Some g => g m | None => Ok () end) as [[]|x];
    [|destruct p; do 5 eexists; split; [done|]; left; by eexists].
  assert (∃ r fs, match lease with
      | Some l => on_fs (acquire_or_raise l (ce_lease_now e) (ce_acquire_contended e) m)
      | None => mret () end p = (r, mkProcess c fs (p_published p) (p_models p))) as (r & fs & ->).
  { destruct lease as [l|]; [|destruct p; by do 2 eexists].
    unfold on_fs. destruct (acquire_or_raise _ _ _ _ _). by do 2 eexists. }
  destruct r as [[]|x]; [|do 5 eexists; split; [done|]; left; by eexists].
  destruct (drop_spec e (mkProcess c fs (p_published p) (p_models p)) Hs) as (fs' & -> & _).
  unfold _publish, find_spec, mret, K_ret, on_cache. simpl.
  destruct (get m (p_models p)); [|destruct (get m (reg (p_models p)))];
    try (do 5 eexists; split; [done|]; right; left; by eexists);
    (destruct (loader m) as [h|x] eqn:El; do 5 eexists; (split; [done|]);
     [right; right; by exists h|right; left; by eexists]).
Qed.

Lemma touched_same e c :
  let c' := ensure_idle_reaper ttl off (touch (ce_now e) c) in
  _current_model c' = _current_model c ∧ _current_handle c' = _current_handle c ∧
  _active c' = _active c ∧ _last_used c' = ce_now e.
Proof. unfold ensure_idle_reaper, touch. simpl. by case_match. Qed.

Lemma require_mirrored e m p : mirrored p → mirrored (require e m p).2.
Proof.
  intros [Hs Hp]. unfold require_model, mbind, K_bind, on_cache, get_k.
  destruct (touched_same e (p_cache p)) as (Em & Eh & _). set (c' := ensure_idle_reaper _ _ _) in *.
  unfold warm_hit. simpl. rewrite Em, Eh.
  assert (is_Some (_current_handle c') ↔ is_Some (_current_model c')) as Hs' by by rewrite Em, Eh.
  assert (mirrored (mkProcess c' (p_fs p) (p_published p) (p_models p))) as Hm.
  { split; simpl; [done|by rewrite Em]. }
  destruct (if bool_decide _ then _ else _); [done|].
  destruct (load_spec e m (mkProcess c' (p_fs p) (p_published p) (p_models p)) Hs')
    as (r & fs & pub & models & c2 & -> & [(x & -> & -> & -> & ->)|[(x & -> & -> & ->)|(h & -> & _ & -> & ->)]]);
    simpl in *; split; simpl; try done.
  - by rewrite Em.
Qed.

Lemma reap_cases e p :
  (is_Some (_current_handle (p_cache p)) ↔ is_Some (_current_model (p_cache p))) →
  let c := p_cache p in
  (reap e p = (Ok false, p) ∧
     ¬ (0 < ttl ∧ is_Some (_current_handle c) ∧ _active c ≤ 0 ∧ ttl ≤ ce_now e - _last_used c)) ∨
  (∃ fs, reap e p = (Ok true, mkProcess (emptied c) fs (None :: p_published p) (p_models p)) ∧
     0 < ttl ∧ is_Some (_current_handle c) ∧ _active c ≤ 0 ∧ ttl ≤ ce_now e - _last_used c).
Proof.
  intros Hs c. unfold reap_idle_once, mbind, K_bind, get_k, gpu_should_unload. fold c.
  destruct (Z.leb_spec ttl 0); simpl; [left; split; [done|lia]|].
  case_bool_decide as Hh; simpl; [|left; by split; [|intros (_ & ? & _)]].
  destruct (Z.leb_spec (_active c) 0); simpl; [|left; split; [done|lia]].
  destruct (Z.leb_spec ttl (ce_now e - _last_used c)); simpl; [|left; split; [done|lia]].
  right. destruct (drop_spec e p Hs) as (fs & -> & _). exists fs. by split_and!.
Qed.

Abbreviation run := (run_ops lease gate reg loader ttl off).

Lemma op_mirrored e o p : mirrored p → mirrored (perform_op lease gate reg loader ttl off e o p).
Proof.
  intros Hm. destruct o; simpl; [by apply require_mirrored|by destruct Hm; split..|].
  destruct (reap_cases e p (mr_slot _ Hm)) as [[-> _]|(fs & -> & _)]; [done|]. split; simpl; [|done].
  split; by intros [? ?].
Qed.
Lemma run_mirrored h p : mirrored p → mirrored (run h p).
Proof. revert p. induction h as [|[e o] h IH]; intros p Hm; [done|]. apply IH. by apply op_mirrored. Qed.

(** What a process advertises is what it holds.  Over any history of calls, a
    handle is there exactly when its model's name is, and the last value written to
    the heartbeat row is the loaded model (none after a failed load); a
    [require_model] that returns has that very model loaded, with the handle it
    returns. *)
Lemma cache_advertises_what_it_holds h fs models e m :
  let p := run h (mkProcess fresh_cache fs [] models) in
  let c := p_cache p in
  (is_Some (_current_handle c) ↔ is_Some (_current_model c)) ∧
  default None (head (p_published p)) = _current_model c ∧
  (∀ handle p', require e m p = (Ok handle, p') →
     _current_model (p_cache p') = Some m ∧ _current_handle (p_cache p') = Some handle).
Proof.
  intros p c. destruct (run_mirrored h (mkProcess fresh_cache fs [] models)) as [Hs Hp].
  { split; [|done]. split; by intros [? ?]. }
  split_and!; [done..|]. intros handle p'.
  unfold require_model, mbind, K_bind, on_cache, get_k. fold p in Hs. fold p.
  destruct (touched_same e c) as (Em & Eh & _). fold c. set (c' := ensure_idle_reaper _ _ _) in *.
  unfold warm_hit. simpl. case_bool_decide as Hw.
  - destruct (_current_handle c') as [h'|] eqn:Eh'; [by intros [= <- <-]|].
    rewrite Em in Hw. fold c in Hs. rewrite Hw in Hs. rewrite <- Eh in Hs. by destruct (proj2 Hs (mk_is_Some _ _ eq_refl)).
  - intros El. assert (is_Some (_current_handle c') ↔ is_Some (_current_model c')) as Hs' by by rewrite Em, Eh.
    destruct (load_spec e m (mkProcess c' (p_fs p) (p_published p) (p_models p)) Hs')
      as (r & fs' & pub & ms & c2 & E & Hc). rewrite E in El.
    destruct Hc as [(x & -> & _)|[(x & -> & _)|(h' & -> & _ & -> & _)]]; by simplify_eq.
Qed.

(** A refused load leaves the warm model where it was.  When the box gate or the
    box lease refuses a swap, [require_model] raises that refusal, the loaded model
    and its handle stay, nothing is advertised, and the gate's refusal does not even
    reach the lease file. *)
Lemma refused_load_keeps_the_warm_model e m p :
  warm_hit m (p_cache p) = None →
  let c := p_cache p in
  (∀ g x, gate = Some g → g m = Raise x →
     ∃ c', require e m p = (Raise x, mkProcess c' (p_fs p) (p_published p) (p_models p)) ∧
       _current_model c' = _current_model c ∧ _current_handle c' = _current_handle c) ∧
  (∀ l, lease = Some l → (∀ g, gate = Some g → g m = Ok ()) →
     (acquire l (ce_lease_now e) (ce_acquire_contended e) m (p_fs p)).1 = false →
     ∃ c' fs, require e m p = (Raise ModelLeaseDenied, mkProcess c' fs (p_published p) (p_models p)) ∧
       _current_model c' = _current_model c ∧ _current_handle c' = _current_handle c).
Proof.
  intros Hw c. unfold require_model, mbind, K_bind, on_cache, get_k.
  destruct (touched_same e (p_cache p)) as (Em & Eh & _). set (c' := ensure_idle_reaper _ _ _) in *.
  assert (warm_hit m c' = None) as Hw' by (unfold warm_hit in *; by rewrite Em, Eh). simpl. rewrite Hw'.
  unfold load_model, mbind, K_bind, raise_k. split.
  - intros g x -> ->. by exists c'.
  - intros l -> Hg Ha.
    assert (match gate with Some g => g m | None => Ok () end = Ok ()) as -> by (destruct gate; auto).
    unfold on_fs, acquire_or_raise. simpl.
    destruct (acquire l _ _ m (p_fs p)) as [b fs]. simpl in Ha. subst b. by exists c', fs.
Qed.

Lemma op_active e o p :
  mirrored p → o ≠ Idle →
  _active (p_cache p) ≤ _active (p_cache (perform_op lease gate reg loader ttl off e o p)).
Proof.
  intros Hm Ho. destruct o; simpl; [|lia|done|].
  - unfold require_model, mbind, K_bind, on_cache, get_k.
    destruct (touched_same e (p_cache p)) as (Em & Eh & Ea & _). set (c' := ensure_idle_reaper _ _ _) in *.
    simpl. destruct (warm_hit _ c'); simpl; [lia|].
    destruct (load_spec e model_id (mkProcess c' (p_fs p) (p_published p) (p_models p)))
      as (r & fs & pub & ms & c2 & -> & [(x & _ & -> & _)|[(x & _ & -> & _)|(h & _ & _ & -> & _)]]);
      simpl; try lia.
    rewrite Em, Eh. apply Hm.
  - destruct (reap_cases e p (mr_slot _ Hm)) as [[-> _]|(fs & -> & _)]; simpl; lia.
Qed.

(** The reaper unloads exactly the idle model, and never under a job.  A tick
    drops the model iff one is loaded, no job runs and it has not been used for the
    TTL (none with a TTL of 0 or less); and from the call that marks a job's start,
    whatever else is called before one marks an end, no tick drops anything. *)
Lemma reaper_spares_the_running_job e p e0 h :
  mirrored p → 0 ≤ _active (p_cache p) → (∀ eo, eo ∈ h → eo.2 ≠ Idle) →
  let c := p_cache p in
  ((reap e p).1 = Ok true ↔
     0 < ttl ∧ is_Some (_current_handle c) ∧ _active c ≤ 0 ∧ ttl ≤ ce_now e - _last_used c) ∧
  ((reap e p).1 = Ok true → _current_handle (p_cache (reap e p).2) = None) ∧
  (let q := run ((e0, Busy) :: h) p in reap e q = (Ok false, q)).
Proof.
  intros Hm Ha Hh c. split_and!.
  - destruct (reap_cases e p (mr_slot _ Hm)) as [[-> Hn]|(fs & -> & ?)]; simpl; [|done].
    split; [discriminate|intros ?; by destruct Hn].
  - destruct (reap_cases e p (mr_slot _ Hm)) as [[-> Hn]|(fs & -> & ?)]; [discriminate|done].
  - intros q.
    assert (∀ l p0, mirrored p0 → (∀ eo, eo ∈ l → eo.2 ≠ Idle) →
              _active (p_cache p0) ≤ _active (p_cache (run l p0))) as Hgrow.
    { intros l. induction l as [|[e' o] l IH]; intros p0 Hm0 Hl; [simpl; lia|].
      etrans; [apply (op_active e' o); [done|apply (Hl (e', o)), list_elem_of_here]|].
      apply IH; [by apply op_mirrored|]. intros; apply Hl; by right. }
    assert (mirrored q) as Hq by by apply run_mirrored.
    assert (_active (p_cache p) + 1 ≤ _active (p_cache q)) by apply (Hgrow h _ (op_mirrored e0 Busy p Hm) Hh).
    destruct (reap_cases e q (mr_slot _ Hq)) as [[-> _]|(fs & _ & _ & _ & ? & _)]; [done|lia].
Qed.
End cache_lemmas.

(** ** The gate of a load *)

Lemma settle_clean n m probe k :
  (∃ j, (j ≤ n)%nat ∧ clean m (probe (k + j)%nat) = true) → clean m (settle_probe n m probe k) = true.
Proof.
  revert k. induction n as [|n IH]; intros k (j & Hj & Hc); simpl.
  { assert (j = 0)%nat as -> by lia. by rewrite Nat.add_0_r in Hc. }
  destruct (clean m (probe k)) eqn:E; [done|]. apply IH.
  destruct j as [|j]; [rewrite Nat.add_0_r in Hc; congruence|].
  exists j. split; [lia|]. by rewrite <- Nat.add_succ_comm in Hc.
Qed.

Lemma settle_some n m probe k : ∃ j, (j ≤ n)%nat ∧ settle_probe n m probe k = probe (k + j)%nat.
Proof.
  revert k. induction n as [|n IH]; intros k; simpl; [exists 0%nat; by rewrite Nat.add_0_r|].
  destruct (clean m (probe k)); [exists 0%nat; rewrite Nat.add_0_r; split; [lia|done]|].
  destruct (IH (S k)) as (j & Hj & ->). exists (S j). split; [lia|f_equal; lia].
Qed.

(** A box that shows nothing is clean, and one that shows a server is not. *)
Lemma clean_foreign m rs :
  (∀ r, r ∈ rs → server r ≠ INPROCESS) → clean m rs = true ↔ foreign INPROCESS (Some m) rs = [].
Proof.
  intros Hr. unfold clean, foreign.
  assert (∀ f : Resident → bool,
            List.filter (λ r, negb (String.eqb (server r) INPROCESS && f r)) rs = rs) as Hall.
  { intros f. apply Lfilter_all. intros r Hin. apply negb_true_iff, andb_false_iff. left.
    by apply String.eqb_neq, Hr. }
  rewrite (Hall (λ r, String.eqb (canonical_tag (model r)) (canonical_tag m))), (Hall (λ r, String.eqb (model r) m)).
  by destruct rs.
Qed.

(** A load enters a box that is, or becomes, clear of every server.  For a model
    no server serves, over probes that see servers only, the gate passes iff the box
    showed nothing or one of the looks it grants after pulling the levers shows
    nothing, and refuses with [ModelAlreadyLoadedError] otherwise; for a model an
    LLM server serves it pulls no lever and passes. *)
Lemma box_gate_clears_then_loads models m rs probe :
  (∀ r, r ∈ rs → server r ≠ INPROCESS) → (∀ k r, r ∈ probe k → server r ≠ INPROCESS) →
  (server_served models m = true → _box_load_gate models m rs probe = ([], Ok ())) ∧
  (server_served models m = false →
     let r := (_box_load_gate models m rs probe).2 in
     (r = Ok () ∨ r = Raise ModelAlreadyLoadedError) ∧
     (r = Ok () ↔ rs = [] ∨ ∃ k, (k < _GATE_SETTLE_TRIES)%nat ∧ probe k = [])).
Proof.
  intros Hrs Hp. unfold _box_load_gate, clear_box_for. split; intros ->; [done|].
  assert (∀ l, (∀ r, r ∈ l → server r ≠ INPROCESS) → foreign INPROCESS (Some m) l = l) as Hf.
  { intros l Hl. unfold foreign. apply Lfilter_all. intros r Hin.
    apply negb_true_iff, andb_false_iff. left. by apply String.eqb_neq, Hl. }
  rewrite (Hf rs Hrs). destruct rs as [|r0 rs]; [simpl; naive_solver|].
  destruct (settle_some (_GATE_SETTLE_TRIES - 1) m probe 0) as (j & Hj & Er).
  change (_reprobe m probe = probe j) in Er. change (j ≤ 2)%nat in Hj.
  rewrite Er, (Hf (probe j)) by apply Hp.
  destruct (probe j) as [|r1 l] eqn:E; simpl.
  - split; [by left|]. split; [intros _; right|done]. exists j.
    split; [unfold _GATE_SETTLE_TRIES; lia|done].
  - split; [by right|]. split; [done|]. intros [?|(k & Hk & Hnil)]; [done|]. exfalso.
    assert (clean m (_reprobe m probe) = true) as Hc.
    { apply settle_clean. exists k. unfold _GATE_SETTLE_TRIES in *. split; [lia|].
      rewrite Nat.add_0_l, Hnil. done. }
    rewrite Er in Hc. apply clean_foreign in Hc; [|rewrite <- E; apply Hp].
    rewrite Hf in Hc; [done|]. rewrite <- E. apply Hp.
Qed.

(** * Witnesses *)

Module CacheDemo.
Definition l : ModelLease := mkModelLease "box-c" (FileLeaseStore "/lease") "host:7" 90000000.
Definition models : registry := [("sdxl", mkModelSpec "sdxl" 8 [] None); ("flux", mkModelSpec "flux" 20 [] None)]%string.
Definition loader (m : string) : result Z := Ok (Z.of_nat (String.length m)).
Definition at_ (n : Z) : call_env := mkCall (n * 1000000) (n * 1000000) false false.
Definition start : process := mkProcess fresh_cache [] [] models.
Definition req (gate : option (string → result ())) (e : call_env) (m : string) (p : process) :=
  require_model (Some l) gate (λ r, r) loader 60000000 false e m p.
(** sdxl is loaded, and the box is leased for it. *)
Definition warm : process := (req None (at_ 10) "sdxl" start).2.
Definition refuse (m : string) : result () := Raise ModelAlreadyLoadedError.

Lemma warm_mirrored : mirrored warm.
Proof. apply (require_mirrored (Some l)). split; [split; by intros [? ?]|done]. Qed.
End CacheDemo.

Lemma refused_load_keeps_the_warm_model_witness :
  ∃ c', CacheDemo.req (Some CacheDemo.refuse) (CacheDemo.at_ 20) "flux" CacheDemo.warm
    = (Raise ModelAlreadyLoadedError, mkProcess c' (p_fs CacheDemo.warm) (p_published CacheDemo.warm)
         (p_models CacheDemo.warm)) ∧
    _current_model c' = Some "sdxl"%string ∧ _current_handle c' = Some 4.
Proof.
  apply (refused_load_keeps_the_warm_model (Some CacheDemo.l) (Some CacheDemo.refuse) (λ r, r) CacheDemo.loader
    60000000 false (CacheDemo.at_ 20) "flux" CacheDemo.warm eq_refl) with (g := CacheDemo.refuse); reflexivity.
Defined.

Lemma reaper_spares_the_running_job_witness :
  (reap_idle_once (Some CacheDemo.l) 60000000 (CacheDemo.at_ 80) CacheDemo.warm).1 = Ok true.
Proof.
  apply (reaper_spares_the_running_job (Some CacheDemo.l) None (λ r, r) CacheDemo.loader 60000000 false
    (CacheDemo.at_ 80) CacheDemo.warm (CacheDemo.at_ 20) [] CacheDemo.warm_mirrored).
  - done.
  - by intros eo ?%not_elem_of_nil.
  - split_and!; [done|by eexists|done|done].
Defined.

Lemma box_gate_clears_then_loads_witness :
  (_box_load_gate CacheDemo.models "flux" [mkResident OLLAMA "chat-a:latest" 0 false]
     (λ k, if Nat.eqb k 0 then [mkResident OLLAMA "chat-a:latest" 0 false] else [])).2 = Ok ().
Proof.
  apply (box_gate_clears_then_loads CacheDemo.models "flux").
  - intros r ->%list_elem_of_singleton. done.
  - intros k r. simpl. destruct (Nat.eqb k 0); [by intros ->%list_elem_of_singleton|by intros ?%not_elem_of_nil].
  - reflexivity.
  - right. exists 1%nat. split; [unfold _GATE_SETTLE_TRIES; lia|done].
Defined.

(** A swap leases the box for the incoming model, then the drop of the outgoing one
    releases it: flux is loaded and the box is leased to nobody. *)
Lemma swap_gives_the_lease_back :
  let r := CacheDemo.req None (CacheDemo.at_ 20) "flux" CacheDemo.warm in
  current CacheDemo.l (p_fs CacheDemo.warm) = mkLease (Some "sdxl"%string) [("host:7"%string, 100000000)] ∧
  r.1 = Ok 4 ∧ _current_model (p_cache r.2) = Some "flux"%string ∧
  current CacheDemo.l (p_fs r.2) = empty_lease.
Proof. split_and!; reflexivity. Qed.

(** Advertising a swap rewrites the row with the defaults of the columns it does not
    know: a vLLM-only box of 24 GB reads as an ollama box of unknown size. *)
Lemma advertising_resets_the_capabilities :
  let w := set_heartbeats [mkHb "h" "gpu" "" 4 900 None ["sdxl"] ["vllm"] (Some 24576) ["sdxl"] None None None]
             Demo.empty_world in
  heartbeats (@_publish_current_model Demo.cfg false "h" CacheDemo.models (Some "flux"%string) w).2 =
    [mkHb "h" "gpu" "" 1 1000 (Some "flux") ["flux"; "sdxl"] ["ollama"] None [] None None None]%string.
Proof. reflexivity. Qed.
