(* ===== verification/BoxDriver.v ===== *)
(** * The worker drives its box ([queue_workflows/claim_worker.py])

    One heartbeat of a gpu worker over its LLM servers: the tick of the server switch
    with the observations it needs and the actions it asks for, the box lease the switch
    holds, the memory gate of a start, the shedding of a dying box and the lift of a hold
    that memory caused.  Here the components meet: [ServerSwitch], [ModelLease],
    [LlmContext] and [Residency].

    What a tick observes (clocks, probes of the servers, what the host's levers answered)
    is the record [obs].  The levers pulled are collected in order in [calls]; the text of
    reasons that only the log shows is left out. *)

From S2P Require Import Prelude Json Refs Claim WorkerLanes ServerSwitch ModelLease Residency LlmContext.
Local Open Scope Z_scope.

(** ** State and observations *)

Inductive call :=
  | CallUnloadOllama
  | CallStopVllm
  | CallStartVllm
  | CallSetContext (kind : string) (context_length : option Z) (utilization : option Q) (max_num_seqs : option Z)
  | CallRestore (kind : string).
(** The levers that start a server: giving back a window recreates the container and
    starts it, or starts it as it is, just as setting one does. *)
Definition is_start (c : call) : bool :=
  match c with CallStartVllm | CallSetContext _ _ _ _ | CallRestore _ => true | _ => false end.

Record boxw := mkBoxw {
  bw_switch : switch;
  bw_fs : disk;
  bw_calls : list call;
  _vllm_decision : option (option Z * VllmPlan);
  _warm_started_at : option Z;
  _vllm_startup_losses : Z;
  _mem_ok_since : option Z;
  _shed_at : option Z;
}.

(** The vLLM container as docker describes it *)
Record vllm_info := mkInfo {
  i_exists : bool;
  i_running : bool;
  i_configured : option Z;
  i_utilization : option Q;
  i_max_num_seqs : option Z;
  i_committed : bool;
}.

Record obs := mkObs {
  o_env : env;
  o_lease_now : Z;
  o_hold_contended : bool;
  o_release_contended : bool;
  o_forbidden : option string;
  o_held : bool;
  o_in_flight : Z;
  o_ollama_loaded : result bool;
  o_vllm_loaded : result bool;
  o_answers : string → result bool;
  o_window : string → result (option Z);
  o_available : option Z;
  o_total : option Z;
  o_reserve : Z;
  o_danger_floor : Z;
  o_kill_floor : Z;
  o_lever_off : bool;
  o_info : vllm_info;
  o_profile : option VllmProfile;
  o_parallelism : Z;
  o_min_utilization : Q;
  o_min_concurrency : Z;
  o_has_ollama : bool;
  o_unload : result ();
  o_stop : option (result ());
  o_start : option (result lever_value);
  o_set_context : result lever_value;
}.

(** The log's wording of a refusal, after its prefix *)
Class RefusalText := refusal_detail : refusal → string.

Definition D (A : Type) : Type := boxw → result A * boxw.
#[export] Instance D_ret : MRet D := λ A a b, (Ok a, b).
#[export] Instance D_bind : MBind D := λ A B f m b,
  match m b with (Ok a, b') => f a b' | (Raise e, b') => (Raise e, b') end.
Definition raise_d {A} (r : result A) : D A := λ b, (r, b).
(** [try: .. except Exception: log] *)
Definition swallow (m : D ()) : D () := λ b, (Ok (), (m b).2).
Definition the_switch : D switch := λ b, (Ok (bw_switch b), b).
Definition call_lever (c : call) : D () := λ b,
  (Ok (), mkBoxw (bw_switch b) (bw_fs b) (bw_calls b ++ [c]) (_vllm_decision b) (_warm_started_at b)
            (_vllm_startup_losses b) (_mem_ok_since b) (_shed_at b)).
Definition set_switch (s : switch) (b : boxw) : boxw :=
  mkBoxw s (bw_fs b) (bw_calls b) (_vllm_decision b) (_warm_started_at b)
    (_vllm_startup_losses b) (_mem_ok_since b) (_shed_at b).
Definition set_fs (fs : disk) (b : boxw) : boxw :=
  mkBoxw (bw_switch b) fs (bw_calls b) (_vllm_decision b) (_warm_started_at b)
    (_vllm_startup_losses b) (_mem_ok_since b) (_shed_at b).
Definition set_decision (d : option (option Z * VllmPlan)) (b : boxw) : boxw :=
  mkBoxw (bw_switch b) (bw_fs b) (bw_calls b) d (_warm_started_at b)
    (_vllm_startup_losses b) (_mem_ok_since b) (_shed_at b).
Definition set_warm (t : option Z) (b : boxw) : boxw :=
  mkBoxw (bw_switch b) (bw_fs b) (bw_calls b) (_vllm_decision b) t
    (_vllm_startup_losses b) (_mem_ok_since b) (_shed_at b).
Definition set_losses (n : Z) (b : boxw) : boxw :=
  mkBoxw (bw_switch b) (bw_fs b) (bw_calls b) (_vllm_decision b) (_warm_started_at b)
    n (_mem_ok_since b) (_shed_at b).
Definition set_mem_ok (t : option Z) (b : boxw) : boxw :=
  mkBoxw (bw_switch b) (bw_fs b) (bw_calls b) (_vllm_decision b) (_warm_started_at b)
    (_vllm_startup_losses b) t (_shed_at b).
Definition set_shed (t : option Z) (b : boxw) : boxw :=
  mkBoxw (bw_switch b) (bw_fs b) (bw_calls b) (_vllm_decision b) (_warm_started_at b)
    (_vllm_startup_losses b) (_mem_ok_since b) t.
Definition modify_d (f : boxw → boxw) : D () := λ b, (Ok (), f b).
(** An operation of the switch that returns actions *)
Definition on_switch {A} (f : switch → A * switch) : D A := λ b,
  let '(a, s) := f (bw_switch b) in (Ok a, set_switch s b).

Section driver.
Context `{PyEnv} `{SwitchConfig} `{RefusalText}.
Context (lease : ModelLease) (o : obs).
Let e := o_env o.

(** ** The box lease of a switch *)

Definition hold_lease : D () := modify_d (λ b,
  let '(granted, fs) := acquire lease (o_lease_now o) (o_hold_contended o) SWITCH_SLOT (bw_fs b) in
  set_fs (if granted then fs else (renew lease (o_lease_now o) (o_hold_contended o) SWITCH_SLOT fs).2) b).
Definition release_lease : D () := modify_d (λ b, set_fs (release lease (o_release_contended o) (bw_fs b)) b).

(** ** Giving up *)

Definition _mark_warm_clock : D () := modify_d (λ b,
  match _state (bw_switch b) with
  | WARMING => match _warm_started_at b with None => set_warm (Some (_now e)) b | Some _ => b end
  | _ => set_warm None b
  end).

(** The lever that stops vLLM, when the host wired one *)
Definition stop_vllm : D () :=
  match o_stop o with
  | None => mret ()
  | Some r => _ ← call_lever CallStopVllm; raise_d r
  end.

Definition _stop_loading_vllm : D () :=
  if i_running (o_info o) then swallow stop_vllm else mret ().

Definition _abandon_switch (stop_loading : bool) : D () :=
  s ← the_switch;
  match _state s with
  | IDLE => mret ()
  | p =>
      _ ← modify_d (λ b, set_warm None (set_decision None (set_switch (abandon e s) b)));
      _ ← release_lease;
      if stop_loading && bool_decide (_target s = Some VLLM) &&
         match p with SWITCHING | WARMING => true | _ => false end
      then _stop_loading_vllm else mret ()
  end.

Definition _box_memory_in_danger : bool :=
  match o_available o with Some a => a <? o_danger_floor o | None => false end.

Definition _note_startup_loss : D () := modify_d (λ b,
  set_decision None (set_losses (_vllm_startup_losses b + 1) b)).

Definition _abandon_warm_if_box_is_dying : D bool :=
  s ← the_switch;
  if bool_decide (_state s = WARMING) && bool_decide (_target s = Some VLLM) && _box_memory_in_danger
  then
    _ ← modify_d (set_warm None);
    _ ← _stop_loading_vllm;
    _ ← modify_d (λ b, set_switch (abandon e (bw_switch b)) b);
    _ ← _note_startup_loss;
    mret true
  else mret false.

(** ** The memory gate of a start *)

Definition STARTUP_LOSS_HEADROOM : Q := 1 # 4.
Definition STARTUP_LOSS_HEADROOM_MAX : Q := 3 # 2.
Definition _vllm_startup_headroom (losses : Z) : Q :=
  qmin (1 + STARTUP_LOSS_HEADROOM * inject_Z losses)%Q STARTUP_LOSS_HEADROOM_MAX.

(** [x or y or z] of optional numbers *)
Definition or_z (a b : option Z) : option Z := match a with None | Some 0 => b | _ => a end.

(** [self._vllm_model_max_context()]: the function of this name belongs to the module, the
    class has no such method, so the call raises. *)
Definition self_vllm_model_max_context : result (option Z) := Raise (AttributeError "_vllm_model_max_context").

(** The need, as it is when computed; the source keeps it for a minute.  What raises in
    it leaves the need unknown. *)
Definition _vllm_memory_need_bytes (losses : Z) : option Z :=
  match or_z (o_total o) None with
  | None => None
  | Some total =>
      let profile := if i_exists (o_info o) then o_profile o else None in
      let need :=
        match profile with
        | Some p =>
            if qlt_bool 0 (per_token_bytes p) then
              window ← match or_z (i_configured (o_info o)) None with
                       | Some w => Ok w
                       | None => m ← self_vllm_model_max_context; Ok (default (p_window p) (or_z m None))
                       end;
              let per_seq := (inject_Z window * per_token_bytes p)%Q in
              let wanted := Z.max 1 (o_min_concurrency o) in
              Ok (qtrunc ((inject_Z (p_weights_bytes p + overhead_bytes p) + inject_Z wanted * per_seq) *
                          (1 + VLLM_PLAN_MARGIN))%Q + o_reserve o)
            else Ok (qtrunc (o_min_utilization o * inject_Z total)%Q + o_reserve o)
        | None => Ok (qtrunc (o_min_utilization o * inject_Z total)%Q + o_reserve o)
        end in
      match need with
      | Ok n => Some (qtrunc (inject_Z n * _vllm_startup_headroom losses)%Q)
      | Raise _ => None
      end
  end.

Definition _yield_to_ollama_if_thin (plan : VllmPlan) : VllmPlan :=
  match plan_refusal plan, plan_max_num_seqs plan with
  | None, Some n =>
      if (o_min_concurrency o <=? n) || negb (o_has_ollama o) then plan
      else mkPlan None None (Some (TooThin n (o_min_concurrency o)))
  | _, _ => plan
  end.

Definition _refuse_a_start_that_would_be_wasted (losses : Z) (plan : VllmPlan) : VllmPlan :=
  match plan_refusal plan with
  | Some _ => plan
  | None =>
      if losses =? 0 then plan
      else match o_available o, _vllm_memory_need_bytes losses with
           | Some available, Some need =>
               if need <=? available then plan
               else mkPlan None None (Some (NotWorthTheLoad losses need))
           | _, _ => plan
           end
  end.

Definition _vllm_start_plan (losses : Z) (s : switch) : result VllmPlan :=
  let info := o_info o in
  if o_lever_off o || negb (i_exists info) then Ok as_configured
  else if i_running info && i_committed info && negb _box_memory_in_danger then Ok as_configured
  else
    window ← match or_z (_target_context s) (or_z (i_configured info) None) with
             | Some w => Ok (Some w)
             | None => self_vllm_model_max_context
             end;
    let seqs := or_z (i_max_num_seqs info) (Some (o_parallelism o)) in
    Ok (_refuse_a_start_that_would_be_wasted losses
      (_yield_to_ollama_if_thin
         (vllm_plan (o_total o) (o_available o) (o_reserve o) (i_utilization info) seqs window
            (o_profile o) (o_min_utilization o) (1 # 100) VLLM_PLAN_MARGIN))).

(** Decided once per switch, and reused on the retries *)
Definition _vllm_start_decision : D VllmPlan := λ b,
  let key := _requested_wall (bw_switch b) in
  let cached := match _vllm_decision b with
                | Some (k, plan) => if bool_decide (k = key) then Some plan else None
                | None => None
                end in
  match cached with
  | Some plan => (Ok plan, b)
  | None =>
      match _vllm_start_plan (_vllm_startup_losses b) (bw_switch b) with
      | Ok plan => (Ok plan, set_decision (Some (key, plan)) b)
      | Raise x => (Raise x, b)
      end
  end.

(** ** Performing the actions *)

Definition _serves_window (kind : string) (target_context : option Z) : result bool :=
  match target_context with
  | None => Ok true
  | Some w =>
      if negb (PyStr.truthy kind) then Ok true
      else current ← o_window o kind;
           Ok (match (current : option Z) with Some c => w <=? c | None => false end)
  end.

(** Whether the outgoing server is loaded, and whether the incoming one answers and
    serves the window *)
Definition observe (s : switch) : result (bool * bool) :=
  let target := default "" (_target s) in
  outgoing ← (if _resize s then Ok false
              else if String.eqb target VLLM then o_ollama_loaded o else o_vllm_loaded o);
  answers ← o_answers o target;
  ready ← (if (answers : bool) then _serves_window target (_target_context s) else Ok false);
  Ok (outgoing, ready).

(** A lever that raises performed no start. *)
Definition or_transient (r : result lever_value) : lever_value :=
  match r with Ok v => v | Raise _ => LOutcome (mkOutcome TRANSIENT "raised") end.
Definition report_d (v : lever_value) : D (list action) := on_switch (report_start_outcome e v).

Definition perform_start (s : switch) : D (list action) :=
  let target := default "" (_target s) in
  plan ← (if String.eqb target VLLM then _vllm_start_decision else mret as_configured);
  match plan_refusal plan with
  | Some r =>
      _ ← _stop_loading_vllm;
      report_d (LOutcome (mkOutcome PERMANENT (MEMORY_REFUSAL +:+ refusal_detail r)))
  | None =>
      match _target_context s, plan_utilization plan with
      | None, None =>
          if String.eqb target VLLM then
            match o_start o with
            | None => report_d (LOutcome (mkOutcome PERMANENT "no vllm start lever wired"))
            | Some r => _ ← call_lever CallStartVllm; report_d (or_transient r)
            end
          else mret []
      | ctx, util =>
          _ ← call_lever (CallSetContext target ctx util (plan_max_num_seqs plan));
          report_d (or_transient (o_set_context o))
      end
  end.

Definition perform_action (s : switch) (a : action) : D (list action) :=
  match a with
  | UNLOAD_OUTGOING =>
      _ ← (if bool_decide (_target s = Some VLLM)
           then _ ← call_lever CallUnloadOllama; raise_d (o_unload o)
           else stop_vllm);
      mret []
  | START_INCOMING =>
      if o_held o then _ ← _abandon_switch true; mret [] else perform_start s
  | _ => mret []
  end.

(** A tick emits at most one action, so the loop over them is this *)
Fixpoint perform_actions (s : switch) (acts : list action) : D (list action) :=
  match acts with
  | [] => mret []
  | a :: r =>
      f ← perform_action s a;
      if o_held o && bool_decide (a = START_INCOMING) then mret f
      else g ← perform_actions s r; mret (f ++ g)
  end.

(** The end of a tick: the lease goes with a switch a report gave up, and a resize that
    left nothing serving gets the operator's own window back *)
Definition gives_back (s : switch) (ready : bool) (acts followups : list action) : bool :=
  _resize s && negb ready && bool_decide (ABORT ∈ acts ++ followups) && PyStr.truthy (default "" (_target s)).
Definition settle (s : switch) (ready : bool) (acts followups : list action) : D () :=
  _ ← (if bool_decide (ABORT ∈ followups) then release_lease else mret ());
  if gives_back s ready acts followups
  then call_lever (CallRestore (default "" (_target s))) else mret ().

Definition drive_body : D () :=
  s ← the_switch;
  seen ← raise_d (observe s);
  acts ← on_switch (ServerSwitch.tick e (o_in_flight o) seen.1 seen.2);
  _ ← (if existsb (λ a, bool_decide (a = DONE) || bool_decide (a = ABORT)) acts
       then release_lease else mret ());
  followups ← perform_actions s acts;
  settle s seen.2 acts followups.

Definition _drive_server_switch : D () :=
  s ← the_switch;
  match _state s with
  | IDLE => _mark_warm_clock
  | _ =>
      match or_none (o_forbidden o) with
      | Some _ => _ ← _abandon_switch true; _mark_warm_clock
      | None =>
          _ ← hold_lease;
          dying ← _abandon_warm_if_box_is_dying;
          if (dying : bool) then mret ()
          else _ ← _mark_warm_clock; _ ← swallow drive_body; _mark_warm_clock
      end
  end.

(** ** Memory *)

Definition MEMORY_RECOVERY_S : Z := 60 * SECOND.

(** What the sentinel does with one reading.  The escalation to containers that are not
    the broker's own is not part of the model. *)
Definition _shed_llm_if_box_is_dying (available : option Z) : D () := λ b,
  let '(due, at_) := _shed_due available (o_kill_floor o) (o_danger_floor o) (_now e) (_shed_at b) in
  if negb due then (Ok (), b)
  else
    (_ ← modify_d (set_shed at_);
     s ← the_switch;
     _ ← (if bool_decide (_state s = WARMING)
          then _ ← modify_d (λ b, set_warm None (set_decision None (set_switch (abandon e s) b)));
               _note_startup_loss
          else mret ());
     _ ← _stop_loading_vllm;
     swallow (loaded ← raise_d (o_ollama_loaded o);
              if (loaded : bool) then _ ← call_lever CallUnloadOllama; raise_d (o_unload o) else mret ())) b.

(** A hold that memory caused is lifted after a minute of enough of it *)
Definition _note_memory_recovery (available : option Z) : D () := λ b,
  let clear := (Ok (), set_mem_ok None b) in
  match available, quarantine_reason e VLLM (bw_switch b) with
  | Some a, Some reason =>
      if negb (PyStr.contains MEMORY_REFUSAL reason) then clear
      else match _vllm_memory_need_bytes (_vllm_startup_losses b) with
      | None => clear
      | Some need =>
          if a <? need then clear
          else match _mem_ok_since b with
          | None => (Ok (), set_mem_ok (Some (_now e)) b)
          | Some since =>
              if _now e - since <? MEMORY_RECOVERY_S then (Ok (), b)
              else (Ok (), set_switch (clear_quarantine e VLLM (bw_switch b)) (set_mem_ok None b))
          end
      end
  | _, _ => clear
  end.

Definition _memory_tick (available : option Z) : D () :=
  _ ← _shed_llm_if_box_is_dying available; _note_memory_recovery available.
End driver.

(** [request_server_switch] *)
Definition request_server_switch `{SwitchConfig} (e : env) (forbidden : option string)
    (target : string) (context_length : option Z) (resize : bool) (s : switch) : bool * switch :=
  match or_none forbidden with
  | Some _ => (false, s)
  | None => request e target context_length resize s
  end.

(** [_maybe_request_context_switch]: the kind to resize is the one whose ceiling is
    highest, the first of equals *)
Definition widest (ceilings : list (string * Z)) (kinds : list string) : option string :=
  first_by (λ k, [- default 0 (dict_get k ceilings)]) (truthy_only kinds).
Definition _maybe_request_context_switch `{SwitchConfig} (e : env) (queue : string) (lever_off : bool)
    (lever_available : string → bool) (serving ceiling : option Z) (served : list string)
    (ceilings : list (string * Z)) (forbidden : option string) (need : result (option Z)) (s : switch)
    : bool * switch :=
  if negb (String.eqb queue "gpu") || negb (bool_decide (_state s = IDLE)) || lever_off then (false, s)
  else match ceiling with
  | None => (false, s)
  | Some c =>
      if match serving with Some w => c <=? w | None => false end then (false, s)
      else match widest ceilings served with
      | None => (false, s)
      | Some kind =>
          if negb (lever_available kind) || resize_quarantined e kind s then (false, s)
          else match or_none forbidden, need with
          | None, Ok n =>
              match switch_target [n] serving ceiling CONTEXT_GRANULE with
              | Some t => if t =? 0 then (false, s)
                          else request_server_switch e forbidden kind (Some t) true s
              | None => (false, s)
              end
          | _, _ => (false, s)
          end
      end
  end.

(** ** Lemmas *)

(** The worker does not hold its box. *)
Definition free_of (l : ModelLease) (fs : disk) : Prop :=
  ∀ t, (lease_holder l, t) ∉ l_holders (ModelLease.current l fs).

Lemma release_frees l fs : free_of l (release l false fs).
Proof.
  intros t. unfold release, ModelLease.current, read. destruct (lease_store l) as [|dir] eqn:E.
  { simpl. set_solver. }
  pose proof (update_file dir (box_id l) false (λ state, ((), release_state state (lease_holder l))) fs) as Hu.
  destruct (update _ _ _ _ _) as [r fs']. destruct Hu as [_ Hu]. simpl in *. rewrite Hu. simpl.
  intros [_ Hn]%elem_of_Lfilter. unfold not_holder in Hn. simpl in Hn. by rewrite String.eqb_refl in Hn.
Qed.

Section driver_lemmas.
Context `{PyEnv} `{SwitchConfig} `{RefusalText} (lease : ModelLease) (o : obs).
Implicit Types (b : boxw) (s : switch).

Definition starts b : list call := List.filter is_start (bw_calls b).
#[local] Arguments starts : simpl never.
Lemma starts_call c b :
  starts (call_lever c b).2 = starts b ++ (if is_start c then [c] else []).
Proof. unfold starts. simpl. rewrite List.filter_app. simpl. by destruct (is_start c). Qed.

(** The parts of a tick that touch neither the switch, the lease nor the starts *)
Definition quiet (b b' : boxw) : Prop :=
  bw_switch b' = bw_switch b ∧ bw_fs b' = bw_fs b ∧ starts b' = starts b.

Lemma quiet_stop_vllm b : quiet b (stop_vllm o b).2.
Proof.
  unfold stop_vllm, quiet. destruct (o_stop o) as [r|]; [|done]. unfold mbind, D_bind. simpl.
  split_and!; [done..|]. change (starts (call_lever CallStopVllm b).2 = starts b).
  rewrite starts_call. apply app_nil_r.
Qed.
Lemma quiet_stop_loading b : quiet b (_stop_loading_vllm o b).2.
Proof. unfold _stop_loading_vllm, swallow. destruct (i_running _); [apply quiet_stop_vllm|done]. Qed.
Lemma stop_loading_ok b : (_stop_loading_vllm o b).1 = Ok ().
Proof. unfold _stop_loading_vllm, swallow. by destruct (i_running _). Qed.
Lemma quiet_mark b : quiet b (_mark_warm_clock o b).2.
Proof. unfold _mark_warm_clock, modify_d. simpl. by destruct (_state _), (_warm_started_at b). Qed.

Lemma report_idle e oc s :
  _state s ≠ IDLE → _state (report e oc s).2 = IDLE → (report e oc s).1 = [ABORT].
Proof.
  unfold report. intros Hne. destruct (_state s) eqn:E; [done|..];
    (destruct (fatal oc); [done|]); repeat case_match; simpl; rewrite persist_state; simpl; congruence.
Qed.

(** A report that aborts leaves no switch under way. *)
Lemma report_abort e oc s : ABORT ∈ (report e oc s).1 → _state (report e oc s).2 = IDLE.
Proof.
  unfold report. repeat case_match; simpl; try (intros []%not_elem_of_nil);
    intros Hin; try (by rewrite persist_state); try (apply list_elem_of_singleton in Hin; done);
    try apply reset_idle.
Qed.

(** Ending a switch gives the box back. *)
Lemma abandon_switch_spec stop b :
  _state (bw_switch b) ≠ IDLE →
  let b' := (_abandon_switch lease o stop b).2 in
  (_abandon_switch lease o stop b).1 = Ok () ∧ _state (bw_switch b') = IDLE ∧
  (o_release_contended o = false → free_of lease (bw_fs b')) ∧ starts b' = starts b.
Proof.
  intros Hne. unfold _abandon_switch, the_switch, mbind, D_bind. simpl.
  assert (∀ s, _state s ≠ IDLE → _state (abandon (o_env o) s) = IDLE) as Ha.
  { intros s Hs. unfold abandon. destruct (_state s); [done|..]; apply reset_idle. }
  destruct (_state (bw_switch b)) eqn:E; [done|..];
    (destruct (_ && _ && _);
      [match goal with |- context [_stop_loading_vllm o ?x] =>
         pose proof (quiet_stop_loading x) as (Q1 & Q2 & Q3); pose proof (stop_loading_ok x) as Q0;
         destruct (_stop_loading_vllm o x) as [r bb]; simpl in *; subst r; rewrite Q1, Q2, Q3 end|]);
    simpl; (split_and!; [done|apply Ha; by rewrite E|intros ->; apply release_frees|done]).
Qed.

(** An abandoned switch is idle and started nothing, whether there was one or not. *)
Lemma abandon_switch_idle stop b :
  let b' := (_abandon_switch lease o stop b).2 in
  _state (bw_switch b') = IDLE ∧ starts b' = starts b.
Proof.
  destruct (base.decide (_state (bw_switch b) = IDLE)) as [E|E].
  - unfold _abandon_switch, the_switch, mbind, D_bind. simpl. by rewrite E.
  - by destruct (abandon_switch_spec stop b E) as (_ & ? & _ & ?).
Qed.

Lemma start_decision_quiet b : quiet b (_vllm_start_decision o b).2.
Proof. unfold _vllm_start_decision, quiet. repeat case_match; simplify_eq; by split_and!. Qed.

(** The verdict of the memory gate for the switch under way *)
Definition verdict b s : result VllmPlan :=
  if String.eqb (default "" (_target s)) VLLM then (_vllm_start_decision o b).1 else Ok as_configured.
Definition cleared b s : Prop := ∃ plan, verdict b s = Ok plan ∧ plan_refusal plan = None.

(** What an action answers: it may raise while the switch goes on, and it reports the end
    of the switch. *)
Definition reports (r : result (list action)) (b' : boxw) : Prop :=
  (_state (bw_switch b') = IDLE → ∃ f, r = Ok f ∧ ABORT ∈ f) ∧
  (∀ f, r = Ok f → ABORT ∈ f → _state (bw_switch b') = IDLE).

(** One more start, of a lever other than the one that gives a window back, under the
    condition [P]; or none *)
Definition one_start (b b' : boxw) (P : Prop) : Prop :=
  starts b' = starts b ∨
  P ∧ ∃ c, starts b' = starts b ++ [c] ∧ is_start c = true ∧ (∀ kind, c ≠ CallRestore kind).

Lemma one_start_via b0 b b' P : starts b0 = starts b → one_start b0 b' P → one_start b b' P.
Proof. unfold one_start. by intros ->. Qed.

(** Reporting an outcome moves the switch only, *)
Lemma report_d_spec v b :
  _state (bw_switch b) ≠ IDLE →
  let '(r, b') := report_d o v b in
  reports r b' ∧ bw_fs b' = bw_fs b ∧ starts b' = starts b.
Proof.
  intros Hne. unfold report_d, on_switch, report_start_outcome.
  destruct (report _ _ _) as [f s'] eqn:E. split_and!; [|done|done].
  pose proof (report_idle (o_env o) (coerce v) (bw_switch b) Hne) as Hr.
  pose proof (report_abort (o_env o) (coerce v) (bw_switch b)) as Ha. rewrite E in Hr, Ha. simpl in Hr, Ha.
  split; simpl.
  - intros Hi. exists f. split; [done|]. rewrite (Hr Hi). set_solver.
  - intros f' [= <-]. exact Ha.
Qed.

(** and so does performing a start, which pulls one lever that starts a server, and only
    when the memory gate did not refuse. *)
Lemma perform_start_spec s b :
  _state (bw_switch b) ≠ IDLE →
  let '(r, b') := perform_start o s b in
  reports r b' ∧ bw_fs b' = bw_fs b ∧ one_start b b' (cleared b s).
Proof.
  intros Hne. unfold perform_start, cleared, verdict.
  set (decide := if String.eqb (default "" (_target s)) VLLM then _vllm_start_decision o else mret as_configured).
  assert (quiet b (decide b).2) as (Q1 & Q2 & Q3)
    by (unfold decide; destruct (String.eqb _ _); [apply start_decision_quiet|done]).
  assert ((if String.eqb (default "" (_target s)) VLLM then (_vllm_start_decision o b).1 else Ok as_configured)
    = (decide b).1) as -> by (unfold decide; by destruct (String.eqb _ _)).
  unfold mbind at 1, D_bind at 1. destruct (decide b) as [[plan|x] b1]; simpl in Q1, Q2, Q3; clear decide;
    [|split_and!; [split; congruence|done|by left]].
  rewrite <- Q1 in Hne. destruct (plan_refusal plan) as [r|] eqn:Ep.
  - pose proof (quiet_stop_loading b1) as (S1 & S2 & S3). pose proof (stop_loading_ok b1) as S0.
    unfold mbind, D_bind. destruct (_stop_loading_vllm o b1) as [u b2]. simpl in S0. subst u. simpl in *.
    rewrite <- S1 in Hne. pose proof (report_d_spec (LOutcome (mkOutcome PERMANENT
      (MEMORY_REFUSAL +:+ refusal_detail r))) b2 Hne) as Hr.
    destruct (report_d _ _ _) as [f b3]. destruct Hr as (Hr & Hfs & Hst).
    split_and!; [done|congruence|left; congruence].
  - assert (∀ c v, is_start c = true → (∀ kind, c ≠ CallRestore kind) →
      let '(r, b') := (_ ← call_lever c; report_d o v) b1 in
      reports r b' ∧ bw_fs b' = bw_fs b ∧ one_start b b' (∃ p, Ok plan = Ok p ∧ plan_refusal p = None)) as Hlever.
    { intros c v Hc Hk. unfold mbind, D_bind. simpl.
      pose proof (report_d_spec v (call_lever c b1).2 Hne) as Hr. unfold call_lever in Hr. simpl in Hr.
      destruct (report_d o v _) as [r b']. destruct Hr as (Hr & Hfs & Hst).
      split_and!; [done|by rewrite Hfs|]. right. split; [by eauto|]. exists c. split_and!; [|done|done].
      rewrite Hst, <- Q3. unfold starts. simpl. rewrite List.filter_app. simpl. by rewrite Hc. }
    simpl. destruct (_target_context s), (plan_utilization plan); try (by apply Hlever).
    destruct (String.eqb _ _); [|by split_and!; [split; [intros ?|intros f [= <-] []%not_elem_of_nil]| |left]].
    destruct (o_start o); [by apply Hlever|].
    pose proof (report_d_spec (LOutcome (mkOutcome PERMANENT "no vllm start lever wired")) b1 Hne) as Hr.
    destruct (report_d o _ b1) as [r b']. destruct Hr as (Hr & Hfs & Hst).
    split_and!; [done|congruence|left; congruence].
Qed.

(** The lever that gives a window back is pulled at the end of a tick that gave up a
    resize, and nowhere else. *)
Definition given_back s (ready : bool) (acts f : list action) : list call :=
  if gives_back s ready acts f then [CallRestore (default "" (_target s))] else [].
Lemma settle_spec s ready acts f b :
  let b' := (settle lease o s ready acts f b).2 in
  bw_switch b' = bw_switch b ∧ starts b' = starts b ++ given_back s ready acts f ∧
  (ABORT ∈ f → o_release_contended o = false → free_of lease (bw_fs b')) ∧ (ABORT ∉ f → bw_fs b' = bw_fs b).
Proof.
  unfold settle, given_back, mbind, D_bind.
  assert (∀ (c : bool) k b, let b' := ((if c then call_lever (CallRestore k) else mret ()) b).2 in
    bw_switch b' = bw_switch b ∧ starts b' = starts b ++ (if c then [CallRestore k] else []) ∧ bw_fs b' = bw_fs b) as Ht.
  { intros [] k b0; (split_and!; [done| |done]); [apply (starts_call (CallRestore k) b0)|simpl; by rewrite app_nil_r]. }
  case_bool_decide as Hf; simpl; match goal with |- context [(if ?c then call_lever (CallRestore ?k) else mret ()) ?x] =>
    destruct (Ht c k x) as (H1' & H2' & H3') end; rewrite H1', H2', H3'; (split_and!; [done..| |]); try done.
  intros _ Hc. simpl. rewrite Hc. apply release_frees.
Qed.

Lemma perform_single s a b : perform_actions lease o s [a] b = perform_action lease o s a b.
Proof.
  simpl. unfold mbind, D_bind. destruct (perform_action lease o s a b) as [[f|x] b']; [|done].
  destruct (_ && _); [done|]. unfold mret, D_ret. by rewrite app_nil_r.
Qed.

(** A tick asks for a start, and the levers that may run then *)
Definition start_asked s seen : Prop :=
  START_INCOMING ∈ (ServerSwitch.tick (o_env o) (o_in_flight o) seen.1 seen.2 s).1.

(** One action performed on a switch under way *)
Lemma perform_action_spec s a b :
  _state (bw_switch b) ≠ IDLE →
  let '(r, b') := perform_action lease o s a b in
  one_start b b' (a = START_INCOMING ∧ o_held o = false ∧ cleared b s) ∧
  (_state (bw_switch b') = IDLE →
     (o_release_contended o = false → free_of lease (bw_fs b')) ∨ ∃ f, r = Ok f ∧ ABORT ∈ f) ∧
  (∀ f, r = Ok f → ABORT ∈ f → _state (bw_switch b') = IDLE).
Proof.
  intros Hne. assert (∀ f, Ok [] = Ok f → ABORT ∈ f → _state (bw_switch b) = IDLE) as Hnil
    by by intros f [= <-] []%not_elem_of_nil.
  destruct a; simpl; try (by split_and!; [left|..]).
  - assert (∀ b' x, bw_switch b' = bw_switch b → starts b' = starts b → (x = Ok () ∨ ∃ e, x = Raise e) →
      let '(r, b'') := match (x : result ()) with Ok _ => (Ok [], b') | Raise e => (Raise e, b') end in
      one_start b b'' (UNLOAD_OUTGOING = START_INCOMING ∧ o_held o = false ∧ cleared b s) ∧
      (_state (bw_switch b'') = IDLE →
         (o_release_contended o = false → free_of lease (bw_fs b'')) ∨ ∃ f : list action, r = Ok f ∧ ABORT ∈ f) ∧
      (∀ f : list action, r = Ok f → ABORT ∈ f → _state (bw_switch b'') = IDLE)) as Hend.
    { intros b' x Hs Hst [-> |[e' ->]]; (split_and!; [by left|by rewrite Hs|]); [rewrite Hs; exact Hnil|done]. }
    case_bool_decide as Ht.
    + pose proof (starts_call CallUnloadOllama b) as Hs. rewrite app_nil_r in Hs.
      unfold mbind, D_bind. simpl in *.
      pose proof (Hend (call_lever CallUnloadOllama b).2 (o_unload o) eq_refl Hs) as Hx. destruct (o_unload o) as [[]|e']; apply Hx; eauto.
    + pose proof (quiet_stop_vllm b) as (S1 & S2 & S3). unfold mbind, D_bind.
      destruct (stop_vllm o b) as [x b']. simpl in *. pose proof (Hend b' x S1 S3) as Hx.
      destruct x as [[]|e']; apply Hx; eauto.
  - destruct (o_held o).
    + destruct (abandon_switch_spec true b Hne) as (E & Hi & Hf & Hs).
      unfold mbind, D_bind. destruct (_abandon_switch lease o true b) as [u b']. simpl in *. subst u. simpl.
      split_and!; [by left|by left|done].
    + pose proof (perform_start_spec s b Hne) as Hp. destruct (perform_start o s b) as [r b'].
      destruct Hp as ([Hf Hg] & _ & Hs). split_and!; [|auto|done].
      destruct Hs as [?|[? ?]]; [by left|right; by split_and!].
Qed.

(** A tick ends the switch with its one action, or goes on with at most one *)
Lemma tick_acts e n out ready s acts s1 :
  _state s ≠ IDLE → ServerSwitch.tick e n out ready s = (acts, s1) →
  (_state s1 = IDLE ∧ (acts = [ABORT] ∨ acts = [DONE])) ∨
  (_state s1 ≠ IDLE ∧ (acts = [] ∨ acts = [UNLOAD_OUTGOING] ∨ acts = [START_INCOMING])).
Proof.
  intros Hne Et. pose proof (tick_edges _ _ _ _ _ _ _ Et) as Hx.
  destruct (_state s) eqn:Es; [done|..]; destruct Hx as [[-> Hi]|[[-> ->]|Hx]]; eauto 6;
    try (right; split; [congruence|by left]).
  - destruct Hx as [_ [(_ & -> & Hs)|(_ & -> & Hs)]]; right; (split; [congruence|]); [eauto|].
    destruct out; eauto.
  - destruct Hx as [(_ & -> & Hs)|(_ & -> & Hs)]; right; (split; [congruence|]); eauto.
  - destruct Hx as [(_ & -> & Hs)|(_ & -> & Hs)]; [left; eauto|right]. split; [congruence|eauto].
Qed.

Lemma drive_body_eq b :
  drive_body lease o b =
  match observe o (bw_switch b) with
  | Raise x => (Raise x, b)
  | Ok seen =>
      let '(acts, s1) := ServerSwitch.tick (o_env o) (o_in_flight o) seen.1 seen.2 (bw_switch b) in
      let b1 := set_switch s1 b in
      let b2 := if existsb (λ a, bool_decide (a = DONE) || bool_decide (a = ABORT)) acts
                then set_fs (release lease (o_release_contended o) (bw_fs b1)) b1 else b1 in
      match perform_actions lease o (bw_switch b) acts b2 with
      | (Ok f, b3) => settle lease o (bw_switch b) seen.2 acts f b3
      | (Raise x, b3) => (Raise x, b3)
      end
  end.
Proof.
  unfold drive_body, the_switch, raise_d, on_switch, mbind, D_bind.
  destruct (observe o (bw_switch b)) as [seen|x]; [|done].
  destruct (ServerSwitch.tick _ _ _ _ _) as [acts s1]. by destruct (existsb _ acts).
Qed.

(** The starts of a tick are at most one through the gates and at most one that gives the
    window back. *)
Definition gated_start b s seen (c : call) : Prop :=
  is_start c = true ∧ (∀ kind, c ≠ CallRestore kind) ∧ start_asked s seen ∧ o_held o = false ∧
  cleared (set_switch (ServerSwitch.tick (o_env o) (o_in_flight o) seen.1 seen.2 s).2 b) s.
Definition body_starts b b' s : Prop :=
  starts b' = starts b ∨
  ∃ seen gated restored, observe o s = Ok seen ∧ starts b' = starts b ++ gated ++ restored ∧
    (gated = [] ∨ ∃ c, gated = [c] ∧ gated_start b s seen c) ∧
    (restored = [] ∨ restored = [CallRestore (default "" (_target s))] ∧
                     _state (bw_switch b') = IDLE ∧ _resize s = true ∧ seen.2 = false).

(** The end of a tick after its starts *)
Lemma settle_starts b b1 s seen acts f :
  observe o s = Ok seen →
  (ABORT ∈ acts ++ f → _state (bw_switch b1) = IDLE) →
  (starts b1 = starts b ∨ ∃ c, starts b1 = starts b ++ [c] ∧ gated_start b s seen c) →
  body_starts b (settle lease o s seen.2 acts f b1).2 s.
Proof.
  intros Hseen Hab Hs. destruct (settle_spec s seen.2 acts f b1) as (T1 & T2 & _).
  right. assert (∃ gated, starts b1 = starts b ++ gated ∧ (gated = [] ∨ ∃ c, gated = [c] ∧ gated_start b s seen c))
    as (gated & Hg & Hgs).
  { destruct Hs as [->|(c & -> & Hx)]; [exists []; rewrite app_nil_r; eauto|exists [c]; eauto]. }
  exists seen, gated, (given_back s seen.2 acts f). rewrite T1, T2, Hg, app_assoc. split_and!; [done..|].
  unfold given_back, gives_back. destruct (_resize s); [|by left]. destruct (seen.2); [by left|].
  simpl. case_bool_decide; [|by left]. destruct (PyStr.truthy _); simpl; [right; auto|by left].
Qed.

Lemma drive_body_spec b :
  _state (bw_switch b) ≠ IDLE →
  let s := bw_switch b in
  let b' := (drive_body lease o b).2 in
  (_state (bw_switch b') = IDLE → o_release_contended o = false → free_of lease (bw_fs b')) ∧ body_starts b b' s.
Proof.
  intros Hne s. cbv zeta. rewrite drive_body_eq. fold s.
  destruct (observe o s) as [seen|x] eqn:Eo; [|by split; [|left]].
  pose proof (settle_starts b) as Hsettle. unfold gated_start, start_asked in Hsettle.
  destruct (ServerSwitch.tick _ _ _ _ s) as [acts s1] eqn:Et.
  destruct (tick_acts _ _ _ _ _ _ _ Hne Et) as [[Hi Ha]|[Hni Ha]].
  - assert (existsb (λ a, bool_decide (a = DONE) || bool_decide (a = ABORT)) acts = true) as ->
      by (destruct Ha as [-> | ->]; done).
    simpl. set (b2 := set_fs _ _).
    assert (perform_actions lease o s acts b2 = (Ok [], b2)) as ->.
    { destruct Ha as [-> | ->]; by rewrite perform_single. }
    destruct (settle_spec s seen.2 acts [] b2) as (T1 & T2 & _ & T4). split.
    + intros _ Hc. rewrite T4 by set_solver. simpl. rewrite Hc. apply release_frees.
    + apply Hsettle; [done..|by left].
  - assert (existsb (λ a, bool_decide (a = DONE) || bool_decide (a = ABORT)) acts = false) as ->
      by (destruct Ha as [-> |[-> | ->]]; done).
    simpl. set (b1 := set_switch s1 b).
    assert (ABORT ∉ acts) as Hnab
      by (destruct Ha as [-> |[-> | ->]]; rewrite ?list_elem_of_singleton; [apply not_elem_of_nil|done..]).
    destruct (base.decide (acts = [])) as [-> |Hna].
    { simpl. destruct (settle_spec s seen.2 [] [] b1) as (T1 & T2 & _). rewrite T1. split; [done|].
      apply (Hsettle b1); [done..|by intros ?%not_elem_of_nil|by left]. }
    assert (∃ a, acts = [a]) as [a ->] by (destruct Ha as [-> |[-> | ->]]; [done|eauto..]).
    rewrite perform_single. pose proof (perform_action_spec s a b1 Hni) as Hp.
    destruct (perform_action lease o s a b1) as [[f|x] b2]; destruct Hp as (P1 & P2 & P3).
    + destruct (settle_spec s seen.2 [a] f b2) as (T1 & T2 & T3 & T4). split.
      * rewrite T1. intros Hi. destruct (P2 Hi) as [Hf|(f' & [= <-] & Hf)]; [|auto].
        destruct (base.decide (ABORT ∈ f)); [auto|]. by rewrite T4.
      * eapply (Hsettle b2 s seen); [done..| |].
        { intros [?|?]%elem_of_app; [done|]. by eapply P3. }
        rewrite Et. destruct P1 as [P1|((-> & Hh & Hv) & c & Hs & Hst & Hk)]; [left; exact P1|right].
        exists c. split_and!; [exact Hs|done..|simpl; set_solver|done|done].
    + split; [intros Hi; by destruct (P2 Hi) as [?|(? & ? & _)]|].
      destruct P1 as [P1|((-> & Hh & Hv) & c & Hs & Hst & Hk)]; [by left|right].
      exists seen, [c], []. split_and!; [done|exact Hs| |by left]. right. exists c. split; [done|].
      unfold gated_start, start_asked. rewrite Et. split_and!; [done..|simpl; set_solver|done|done].
Qed.
End driver_lemmas.

Section drive.
Context `{PyEnv} `{SwitchConfig} `{RefusalText} (lease : ModelLease) (o : obs).
Implicit Types (b : boxw) (s : switch).

(** A warming vLLM on a box under its danger floor *)
Definition dying b : bool :=
  bool_decide (_state (bw_switch b) = WARMING) && bool_decide (_target (bw_switch b) = Some VLLM) &&
  _box_memory_in_danger o.

(** The box a tick hands to its body: the lease asked for, the warm clock marked *)
Definition prepared b : boxw := (_mark_warm_clock o (hold_lease lease o b).2).2.

Lemma prepared_switch b : bw_switch (prepared b) = bw_switch b.
Proof. unfold prepared. rewrite (proj1 (quiet_mark o _)). unfold hold_lease, modify_d. by destruct (acquire _ _ _ _ _). Qed.
Lemma prepared_starts b : starts (prepared b) = starts b.
Proof.
  unfold prepared. rewrite (proj2 (proj2 (quiet_mark o _))). unfold hold_lease, modify_d.
  by destruct (acquire _ _ _ _ _).
Qed.
Lemma verdict_ext b b' s :
  _vllm_decision b' = _vllm_decision b → _vllm_startup_losses b' = _vllm_startup_losses b →
  bw_switch b' = bw_switch b → verdict o b' s = verdict o b s.
Proof.
  unfold verdict, _vllm_start_decision. intros -> -> ->. destruct (String.eqb _ _); [|done].
  destruct (match _vllm_decision b with Some _ => _ | None => _ end); [done|].
  by destruct (_vllm_start_plan o _ _).
Qed.
Lemma prepared_verdict s' s b : verdict o (set_switch s' (prepared b)) s = verdict o (set_switch s' b) s.
Proof.
  apply verdict_ext; [..|done]; unfold prepared, hold_lease, _mark_warm_clock, modify_d; simpl;
    destruct (acquire _ _ _ _ _) as [[] fs]; simpl; by destruct (_state (bw_switch b)), (_warm_started_at b).
Qed.

Lemma abandon_ok stop b : ∃ b', _abandon_switch lease o stop b = (Ok (), b').
Proof.
  unfold _abandon_switch, the_switch, mbind, D_bind. simpl.
  destruct (_state (bw_switch b)); [by eexists|..];
    (destruct (_ && _ && _); [|by eexists]);
    match goal with |- context [_stop_loading_vllm o ?x] =>
      pose proof (stop_loading_ok o x) as Q; destruct (_stop_loading_vllm o x) as [r bb]; simpl in *; subst end;
    by eexists.
Qed.

Lemma abandon_warm_answer b : (_abandon_warm_if_box_is_dying o b).1 = Ok (dying b) ∧
  (dying b = false → (_abandon_warm_if_box_is_dying o b).2 = b).
Proof.
  unfold _abandon_warm_if_box_is_dying, the_switch, mbind, D_bind, dying. simpl.
  destruct (_ && _ && _); [|done]. simpl.
  match goal with |- context [_stop_loading_vllm o ?x] =>
    pose proof (stop_loading_ok o x) as Q; destruct (_stop_loading_vllm o x) as [r bb]; simpl in *; subst end.
  done.
Qed.

Lemma drive_eq b :
  _state (bw_switch b) ≠ IDLE →
  (_drive_server_switch lease o b).2 =
  match or_none (o_forbidden o) with
  | Some _ => (_mark_warm_clock o (_abandon_switch lease o true b).2).2
  | None => if dying b then (_abandon_warm_if_box_is_dying o (hold_lease lease o b).2).2
            else (_mark_warm_clock o (drive_body lease o (prepared b)).2).2
  end.
Proof.
  intros Hne. set (b1 := (hold_lease lease o b).2).
  assert (hold_lease lease o b = (Ok (), b1)) as E1 by done.
  assert (bw_switch b1 = bw_switch b) as Es
    by (unfold b1, hold_lease, modify_d; by destruct (acquire _ _ _ _ _)).
  destruct (abandon_warm_answer b1) as [A1 A2].
  assert (dying b1 = dying b) as Ed by (unfold dying; by rewrite Es).
  destruct (abandon_ok true b) as [ba Ea].
  assert (∀ x, _mark_warm_clock o x = (Ok (), (_mark_warm_clock o x).2)) as Em by done.
  unfold _drive_server_switch, the_switch, swallow, mbind, D_bind.
  destruct (_state (bw_switch b)) eqn:E; [done|..]; (destruct (or_none (o_forbidden o)); [by rewrite Ea|]);
    rewrite E1; destruct (_abandon_warm_if_box_is_dying o b1) as [r b2] eqn:Eb; simpl in A1, A2; subst r;
    rewrite Ed in *; (destruct (dying b); [done|]); rewrite (A2 eq_refl), (Em b1); done.
Qed.
Lemma abandon_warm_starts b : starts (_abandon_warm_if_box_is_dying o (hold_lease lease o b).2).2 = starts b.
Proof.
  assert (starts (hold_lease lease o b).2 = starts b) as <-.
  { unfold hold_lease, modify_d. by destruct (acquire _ _ _ _ _). }
  generalize (hold_lease lease o b).2. clear b. intros b.
  unfold _abandon_warm_if_box_is_dying, the_switch, mbind, D_bind. simpl.
  destruct (_ && _ && _); [|done]. simpl.
  match goal with |- context [_stop_loading_vllm o ?x] =>
    pose proof (stop_loading_ok o x) as Q; pose proof (quiet_stop_loading o x) as (_ & _ & Q');
    destruct (_stop_loading_vllm o x) as [r bb]; simpl in *; subst end.
  simpl. exact Q'.
Qed.


(** A forbidden box ends its switch and starts nothing. *)
Lemma drive_forbidden b why :
  or_none (o_forbidden o) = Some why →
  let b' := (_drive_server_switch lease o b).2 in starts b' = starts b ∧ _state (bw_switch b') = IDLE.
Proof.
  intros Hf. cbv zeta. destruct (base.decide (_state (bw_switch b) = IDLE)) as [E|E].
  { assert ((_drive_server_switch lease o b).2 = (_mark_warm_clock o b).2) as ->.
    { unfold _drive_server_switch, the_switch, mbind, D_bind. by rewrite E. }
    destruct (quiet_mark o b) as (Q1 & Q2 & Q3). by rewrite Q1, Q3. }
  rewrite drive_eq, Hf by done. destruct (quiet_mark o (_abandon_switch lease o true b).2) as (Q1 & _ & Q3).
  rewrite Q1, Q3. by destruct (abandon_switch_idle lease o true b).
Qed.
End drive.

(** A box that must start nothing starts nothing.  On a box that is parked, held for a
    cluster reservation or about to be, a tick pulls no lever that starts a server, ends
    the switch under way and gives the box lease back. *)
Lemma forbidden_box_starts_nothing `{PyEnv} `{SwitchConfig} `{RefusalText} (lease : ModelLease) (o : obs)
    (b : boxw) (why : string) :
  or_none (o_forbidden o) = Some why → o_release_contended o = false →
  let b' := (_drive_server_switch lease o b).2 in
  starts b' = starts b ∧ _state (bw_switch b') = IDLE ∧
  (_state (bw_switch b) ≠ IDLE → free_of lease (bw_fs b')).
Proof.
  intros Hf Hc. cbv zeta. split; [by eapply drive_forbidden|]. split; [by eapply drive_forbidden|]. intros E.
  rewrite drive_eq, Hf by done. destruct (quiet_mark o (_abandon_switch lease o true b).2) as (Q1 & Q2 & Q3).
  rewrite Q2. destruct (abandon_switch_spec lease o true b E) as (_ & _ & Hfree & _). auto.
Qed.

(** C23: A server is started only through every gate, with one exception that the
    statement names.  The levers that start a server are the plain start, the one that sets
    a window, a pool or a concurrency, and the one that gives the operator's window back.
    Whatever a tick meets, it either pulls none of them, or the box was not forbidden to
    start one, no vLLM was warming under the danger floor, and the levers pulled are at most
    one of the first two and then at most one of the third.  One of the first two was pulled
    only because the switch asked for the start in this tick, no reservation took the box
    mid-tick, the outgoing server was observed unloaded in this tick (unless the switch is a
    resize), and the plan decided for this switch did not refuse it for memory.  The window
    is given back only for the server of a resize that this tick gave up without it being
    ready; that lever asks neither the memory plan nor the reservation
    ([refused_resize_starts_what_it_refused]). *)
Theorem starts_pass_every_gate `{PyEnv} `{SwitchConfig} `{RefusalText} (lease : ModelLease) (o : obs) (b : boxw) :
  let s := bw_switch b in
  let b' := (_drive_server_switch lease o b).2 in
  starts b' = starts b ∨
  or_none (o_forbidden o) = None ∧ dying o b = false ∧
  ∃ out ready gated restored, observe o s = Ok (out, ready) ∧
    starts b' = starts b ++ gated ++ restored ∧
    (gated = [] ∨
     (∃ c, gated = [c] ∧ is_start c = true ∧ ∀ kind, c ≠ CallRestore kind) ∧
     START_INCOMING ∈ (ServerSwitch.tick (o_env o) (o_in_flight o) out ready s).1 ∧
     o_held o = false ∧ (out = false ∨ _resize s = true) ∧
     cleared o (set_switch (ServerSwitch.tick (o_env o) (o_in_flight o) out ready s).2 b) s) ∧
    (restored = [] ∨
     restored = [CallRestore (default "" (_target s))] ∧
     _resize s = true ∧ ready = false ∧ _state (bw_switch b') = IDLE).
Proof.
  intros s. cbv zeta. destruct (base.decide (_state s = IDLE)) as [E|E].
  { left. unfold _drive_server_switch, the_switch, mbind, D_bind. fold s. rewrite E.
    by destruct (quiet_mark o b) as (_ & _ & Q). }
  rewrite drive_eq by done. destruct (or_none (o_forbidden o)) as [why|].
  { left. rewrite (proj2 (proj2 (quiet_mark o _))).
    by destruct (abandon_switch_spec lease o true b E) as (_ & _ & _ & Hs). }
  destruct (dying o b) eqn:Ed; [left; by apply abandon_warm_starts|].
  rewrite (proj2 (proj2 (quiet_mark o _))), (proj1 (quiet_mark o _)), <- (prepared_starts lease o b).
  destruct (drive_body_spec lease o (prepared lease o b)) as [_ Hb]; [by rewrite prepared_switch|].
  destruct Hb as [Hb|([out ready] & gated & restored & Eo & Hs & Hg & Hr)]; [by left|right].
  rewrite prepared_switch in *. fold s in Eo, Hs, Hg, Hr. split_and!; [done..|].
  exists out, ready, gated, restored. split_and!; [done|done| |].
  - destruct Hg as [?|(c & -> & Hc & Hk & Ha & Hh & Hv)]; [by left|right].
    unfold start_asked in Ha. simpl in Ha. unfold cleared in *. simpl in Hv. rewrite prepared_verdict in Hv.
    split_and!; [by eauto|done|done| |done].
    destruct (ServerSwitch.tick _ _ _ _ s) as [acts s1] eqn:Et. by apply (start_observed _ _ _ _ _ _ _ Et).
  - destruct Hr as [?|(-> & Hi & Hz & Hy)]; [by left|right]. by split_and!.
Qed.

(** The box lease goes with the switch.  A tick that ends a switch, however it ends, gives
    the lease of the box back, except when it gives up a vLLM that was warming on a box
    under its danger floor. *)
Lemma lease_goes_with_the_switch `{PyEnv} `{SwitchConfig} `{RefusalText} (lease : ModelLease) (o : obs) (b : boxw) :
  o_release_contended o = false → _state (bw_switch b) ≠ IDLE →
  let b' := (_drive_server_switch lease o b).2 in
  _state (bw_switch b') = IDLE →
  free_of lease (bw_fs b') ∨ (or_none (o_forbidden o) = None ∧ dying o b = true).
Proof.
  intros Hc E. cbv zeta. rewrite drive_eq by done. destruct (or_none (o_forbidden o)) as [why|].
  { intros _. left. rewrite (proj1 (proj2 (quiet_mark o _))).
    destruct (abandon_switch_spec lease o true b E) as (_ & _ & Hf & _). auto. }
  destruct (dying o b); [by right|]. intros Hi. left.
  rewrite (proj1 (quiet_mark o _)) in Hi. rewrite (proj1 (proj2 (quiet_mark o _))).
  destruct (drive_body_spec lease o (prepared lease o b)) as [Hb _]; [by rewrite prepared_switch|]. auto.
Qed.

(** ** Witnesses *)

Module ExampleDriver.
Export ExampleSwitch.
#[export] Instance py : PyEnv := {|
  py_getattr _ _ := None; py_str_other _ := ""; py_repr _ := ""; re_search _ _ := Ok false |}.
#[export] Instance wording : RefusalText := λ _, "no room".
Definition box_lease : ModelLease := mkModelLease "box-a" (FileLeaseStore "/lease") "a:1" 120.
(** A box with the given memory free of 128 GB, ollama gone, vLLM not there yet, levers that
    answer nothing; the container of vLLM names its window, or leaves it to the model *)
Definition box_with (window : option Z) (n : Z) (forbidden : option string) (available : Z) : obs :=
  mkObs (at_s n) n false false forbidden false 0 (Ok false) (Ok false) (λ _, Ok false) (λ _, Ok None)
    (Some (available * 2 ^ 30)) (Some (128 * 2 ^ 30)) (8 * 2 ^ 30) (12 * 2 ^ 30) (2 ^ 29) false
    (mkInfo true true window (Some (3 # 4)) None false) None 4 (3 # 10) 2 true
    (Ok ()) (Some (Ok ())) (Some (Ok LNone)) (Ok LNone).
Definition quiet_box : Z → option string → Z → obs := box_with (Some 8192).
Definition at_switching : boxw :=
  mkBoxw (run [(at_s 10, Request VLLM None false); (at_s 40, Tick 0 true false)] (fresh NoFile)) [] [] None None 0 None None.
Definition at_resizing : boxw :=
  mkBoxw (run [(at_s 10, Request VLLM (Some 32768) true); (at_s 40, Tick 0 false false)] (fresh NoFile))
    [] [] None None 0 None None.
(** A reservation came in after the check of the tick. *)
Definition held_box : obs :=
  mkObs (at_s 4000) 4000 false false None true 0 (Ok false) (Ok false) (λ _, Ok false) (λ _, Ok None)
    (Some (60 * 2 ^ 30)) (Some (128 * 2 ^ 30)) (8 * 2 ^ 30) (12 * 2 ^ 30) (2 ^ 29) false
    (mkInfo true true (Some 8192) (Some (3 # 4)) None false) None 4 (3 # 10) 2 true
    (Ok ()) (Some (Ok ())) (Some (Ok LNone)) (Ok LNone).
Definition at_warming : boxw := (_drive_server_switch box_lease (quiet_box 50 None 60) at_switching).2.
End ExampleDriver.
Import ExampleDriver.

(** A warm that is given up because the box is dying leaves the switch's lease behind:
    until its expiry every other worker of the box is denied. *)
Lemma dying_warm_keeps_the_lease :
  let b := (_drive_server_switch box_lease (quiet_box 60 None 4) at_warming).2 in
  _state (bw_switch at_warming) = WARMING ∧ _state (bw_switch b) = IDLE ∧
  ("a:1", 180) ∈ l_holders (ModelLease.current box_lease (bw_fs b)) ∧
  (acquire (mkModelLease "box-a" (FileLeaseStore "/lease") "b:1" 120) 100 false "flux" (bw_fs b)).1 = false.
Proof. split_and!; [by vm_compute..| |by vm_compute]. vm_compute. left. Qed.

(** A vLLM whose container leaves the window to the model is never started.  The plan of
    the start asks the worker for a method it does not have, the tick that asked for the
    start ends in the exception it swallows, and so do the retries: no lever is pulled and
    the box takes no jobs until the switch gives up. *)
Lemma windowless_vllm_is_never_started :
  let drive n b := (_drive_server_switch box_lease (box_with None n None 60) b).2 in
  let b1 := drive 50 at_switching in
  let b2 := drive 200 (drive 120 (drive 90 b1)) in
  let b3 := drive 2000 b2 in
  _vllm_start_plan (box_with None 50 None 60) 0 (bw_switch b1) = Raise (AttributeError "_vllm_model_max_context") ∧
  (_state (bw_switch b1) = WARMING ∧ starts b1 = []) ∧
  (_state (bw_switch b2) = WARMING ∧ starts b2 = [] ∧ (blocks_claims (at_s 200) (bw_switch b2)).1 = true) ∧
  (_state (bw_switch b3) = IDLE ∧ starts b3 = []).
Proof. by vm_compute. Qed.

Lemma forbidden_box_starts_nothing_witness :
  let b' := (_drive_server_switch box_lease (quiet_box 60 (Some "parked") 60) at_warming).2 in
  starts b' = starts at_warming ∧ _state (bw_switch b') = IDLE.
Proof.
  destruct (forbidden_box_starts_nothing box_lease (quiet_box 60 (Some "parked") 60) at_warming "parked")
    as (H1 & H2 & _); [by vm_compute|done|]. split; [exact H1|exact H2].
Defined.

(** A resize that the memory gate refuses starts what it refused.  On a box with 13 GB free
    the plan of the resize is refused, the switch aborts, and the end of the same tick gives
    the operator's window back, which recreates the container and starts it (or starts it
    as it is) with no plan asked; it does so even on a box that a reservation took in
    mid-tick, when the switch gives up for another reason. *)
Lemma refused_resize_starts_what_it_refused :
  let b := (_drive_server_switch box_lease (quiet_box 80 None 13) at_resizing).2 in
  let late := (_drive_server_switch box_lease held_box at_resizing).2 in
  verdict (quiet_box 80 None 13) at_resizing (bw_switch at_resizing) =
    Ok (mkPlan None None (Some (BelowMinimum (3 # 100)))) ∧
  bw_calls b = bw_calls at_resizing ++ [CallStopVllm; CallRestore VLLM] ∧ _state (bw_switch b) = IDLE ∧
  o_held held_box = true ∧ starts late = starts at_resizing ++ [CallRestore VLLM].
Proof. by vm_compute. Qed.

(** A start that goes through the gates *)
Lemma vllm_starts_on_a_roomy_box : starts at_warming = [CallSetContext VLLM None (Some (40 # 100)) None].
Proof. vm_compute. reflexivity. Qed.

Lemma lease_goes_with_the_switch_witness :
  let b' := (_drive_server_switch box_lease (quiet_box 2000 None 60) at_warming).2 in
  _state (bw_switch b') = IDLE ∧
  (free_of box_lease (bw_fs b') ∨
   (or_none (o_forbidden (quiet_box 2000 None 60)) = None ∧ dying (quiet_box 2000 None 60) at_warming = true)).
Proof.
  assert (_state (bw_switch (_drive_server_switch box_lease (quiet_box 2000 None 60) at_warming).2) = IDLE) as Hi
    by by vm_compute.
  split; [exact Hi|].
  apply (lease_goes_with_the_switch box_lease (quiet_box 2000 None 60) at_warming); [done|by vm_compute|exact Hi].
Defined.
