(* ===== verification/Advertise.v ===== *)
(** * What a gpu worker observes of its box and advertises
      ([queue_workflows/claim_worker.py], [HeartbeatEmitter] and the observations it calls)

    A heartbeat probes the servers of the box and debounces what it saw, narrows the models
    it offers to what the box holds and could load, reads the context window it serves and
    could switch to, remembers what a start of vLLM cost, and writes one row.  The network
    is the class [Http] of the probes; what else a tick reads (addresses, the answers of
    docker, the memory file, the state of the database) is the record [beat_in].  What the
    worker keeps between ticks is the record [beat], one sub-record per concern. *)

From S2P Require Import Prelude Json PyText Refs Schema NodeQueue Claim Reclaim Watchdogs WorkerLanes ServerSwitch ModelLease.
From S2P Require Import Catalog LlmProbe Residency LlmContext CatalogRows ServerContext ContextLever BoxDriver.
Local Open Scope Z_scope.

(** ** What the worker keeps *)

(** The kinds that answer, and the models they were seen with *)
Record served_state := mkServed {
  _llm_gpu_ok : bool;
  _served_miss_counts : list (string * Z);
  _box_served : list string;
  _observed_model_ids : list string;
  _observed_entries : list CatalogEntry;
}.
(** What the servers hold; [None] before the first snapshot *)
Record resident_state := mkResidents {
  _box_warm : list string * list string;
  _ctx_residents : option (list string);
  _ctx_resident_misses : list (string * Z);
}.
(** What the box could load *)
Record admission_view := mkAdmissionView {
  adm_resident : list string;
  adm_sizes : list (string * Z);
  adm_kv : Z;
  adm_available : option Z;
  adm_reserve : Z;
}.
(** The window *)
Record window_state := mkWindow {
  _llm_context_state : option Z * option Z;
  _ctx_last_model : option string;
  _ctx_model_info : list (string * dict);
  _ctx_last_window : list (string * Z);
  _ctx_per_token_seen : list (string * Z);
  _ctx_ceiling_by_kind : list (string * Z);
  _ctx_model_sizes : list (string * Z);
  _ctx_admission : option admission_view;
  _ctx_seed_done : bool;
}.
(** The start of vLLM: a container and one start of it *)
Abbreviation start_key := (option string * option string)%type.
Record start_state := mkStart {
  _vllm_observed_key : option start_key;
  _vllm_profile_attempts : option (start_key * Z);
  _vllm_concurrency : option Z;
  _vllm_committed_key : option start_key;
  startup_losses : Z;
}.
Record beat := mkBeat {
  bt_served : served_state;
  bt_residents : resident_state;
  bt_window : window_state;
  bt_start : start_state;
  bt_vram : option (option Z);
  bt_rows : list catalog_row;
  bt_world : world;
}.
Definition fresh_beat (rows : list catalog_row) (w : world) : beat :=
  mkBeat (mkServed true [] [] [] []) (mkResidents ([], []) None [])
    (mkWindow (None, None) None [] [] [] [] [] None false) (mkStart None None None None 0) None rows w.

Definition set_served (s : served_state) (b : beat) : beat :=
  mkBeat s (bt_residents b) (bt_window b) (bt_start b) (bt_vram b) (bt_rows b) (bt_world b).
Definition set_residents (s : resident_state) (b : beat) : beat :=
  mkBeat (bt_served b) s (bt_window b) (bt_start b) (bt_vram b) (bt_rows b) (bt_world b).
Definition set_window (s : window_state) (b : beat) : beat :=
  mkBeat (bt_served b) (bt_residents b) s (bt_start b) (bt_vram b) (bt_rows b) (bt_world b).
Definition set_start (s : start_state) (b : beat) : beat :=
  mkBeat (bt_served b) (bt_residents b) (bt_window b) s (bt_vram b) (bt_rows b) (bt_world b).
Definition set_vram (v : option (option Z)) (b : beat) : beat :=
  mkBeat (bt_served b) (bt_residents b) (bt_window b) (bt_start b) v (bt_rows b) (bt_world b).
Definition set_rows (r : list catalog_row) (b : beat) : beat :=
  mkBeat (bt_served b) (bt_residents b) (bt_window b) (bt_start b) (bt_vram b) r (bt_world b).
Definition set_world (w : world) (b : beat) : beat :=
  mkBeat (bt_served b) (bt_residents b) (bt_window b) (bt_start b) (bt_vram b) (bt_rows b) w.

(** What one tick reads beside the network *)
Record beat_in := mkBeatIn {
  b_host : string;
  b_now : Z;
  b_url : string → string;
  b_db : result ();
  b_registry : registry;
  b_lever_off : result bool;
  b_lever_available : string → result bool;
  b_resize_quarantined : string → bool;
  b_describe : string → result ServerContainer;
  b_startup_log : option string;
  b_meminfo : option (list string);
  b_collect : result (list Resident);
  b_vram_probe : result (option Z);
  b_warm_model : option string;
  b_occupant : option string;
  b_static_servers : list string;
  b_view : view;
}.

(** A tick threads the state and its exceptions. *)
Definition B (A : Type) : Type := beat → result A * beat.
#[export] Instance B_ret : MRet B := λ A a b, (Ok a, b).
#[export] Instance B_bind : MBind B := λ A B f m b,
  match m b with (Ok a, b') => f a b' | (Raise x, b') => (Raise x, b') end.
Definition lift_b {A} (r : result A) : B A := λ b, (r, b).
Definition reads {A} (f : beat → result A) : B A := λ b, (f b, b).
Definition gets {A} (f : beat → A) : B A := λ b, (Ok (f b), b).
Definition modify_b (f : beat → beat) : B () := λ b, (Ok (), f b).
Definition on_world {A} (m : M A) : B A := λ b, let '(r, w) := m (bt_world b) in (r, set_world w b).
(** [try: m except Exception: return d] *)
Definition catch_b {A} (d : A) (m : B A) : B A := λ b,
  match m b with (Ok a, b') => (Ok a, b') | (Raise _, b') => (Ok d, b') end.

(** ** The kinds that answer *)

Definition _SERVED_DEBOUNCE_MISSES : Z := 3.
Definition RESIDENT_ABSENT_MISSES : Z := 3.
Definition KINDS : list string := ["ollama"; "vllm"].

(** One kind that is held and was not seen *)
Definition miss_kind (observed : list string) (acc : list string * list (string * Z)) (kind : string)
    : list string * list (string * Z) :=
  let '(stable, misses) := acc in
  if bool_decide (kind ∈ observed) then acc
  else
    let n := default 0 (dict_get kind misses) + 1 in
    if _SERVED_DEBOUNCE_MISSES <=? n
    then (List.filter (λ k, negb (String.eqb k kind)) stable, dict_pop kind misses)
    else (stable, dict_set kind n misses).
Definition debounce_served (observed held : list string) (misses : list (string * Z))
    : list string * list (string * Z) :=
  let misses := foldl (λ m k, dict_set k 0 m) misses observed in
  let stable := remove_dups (held ++ observed) in
  foldl (miss_kind observed) (stable, misses) stable.
(** vLLM pins its weights, so while it serves it is the only kind offered. *)
Definition advertise (stable : list string) : list string :=
  let advertised := List.filter (λ k, bool_decide (k ∈ stable)) KINDS in
  if bool_decide (SERVER_TYPE_VLLM ∈ advertised) then [SERVER_TYPE_VLLM] else advertised.

Section probes.
Context `{PyEnv} `{Http}.
Implicit Types (i : beat_in).

Definition add_kind i (base_url : string) (servers : list string) (kind : string) : list string :=
  if bool_decide (kind ∈ servers) then servers
  else
    let other := b_url i kind in
    if negb (PyStr.truthy other) || String.eqb other base_url then servers
    else if bool_decide (probe_llm_servers (Some other) = [kind]) then servers ++ [kind] else servers.
(** The kinds that answer and whether they serve from the card *)
Definition observe_servers i : result (list string * bool) :=
  let base_url := b_url i "ollama" in
  let servers := foldl (add_kind i base_url) (probe_llm_servers (Some base_url)) KINDS in
  placement ← (if bool_decide (servers = [PROBE_OLLAMA]) then probe_gpu_placement (Some base_url)
               else Ok (match servers with [] => UNKNOWN | _ => GPU end));
  Ok (servers, gpu_usable servers placement).

(** The addresses the models are asked for at *)
Definition kind_urls i (base_url : string) (advertised : list string) : list (string * option string) :=
  foldl (λ urls kind,
    let url := if PyStr.truthy (b_url i kind) then b_url i kind else base_url in
    if PyStr.truthy url then dict_set kind (Some url) urls else urls) [] advertised.
Definition _publish_model_catalog i (advertised : list string) : B () := λ b,
  match advertised with
  | [] => (Ok (), b)
  | _ =>
      let entries := observe_box_models (b_host i) (kind_urls i (b_url i "ollama") advertised) in
      match entries with
      | [] => (Ok (), b)
      | _ =>
          match upsert_model_catalog (b_now i) (b_db i) entries (bt_rows b) with
          | (Ok _, rows) =>
              let s := bt_served b in
              (Ok (), set_rows rows (set_served
                 (mkServed (_llm_gpu_ok s) (_served_miss_counts s) (_box_served s)
                    (sorted_set (map c_model entries)) entries) b))
          | (Raise _, _) => (Ok (), b)
          end
      end
  end.

Definition note_served (gpu_ok : bool) (observed : list string) (s : served_state) : served_state :=
  let '(stable, misses) := debounce_served observed (_box_served s) (_served_miss_counts s) in
  mkServed gpu_ok misses (advertise stable) (_observed_model_ids s) (_observed_entries s).
Definition _probe_llm_servers i : B (list string) :=
  seen ← lift_b (observe_servers i);
  let '(servers, gpu_ok) := (seen : list string * bool) in
  let observed := if gpu_ok then servers else [] in
  _ ← modify_b (λ b, set_served (note_served gpu_ok observed (bt_served b)) b);
  advertised ← gets (λ b, _box_served (bt_served b));
  _ ← _publish_model_catalog i advertised;
  mret advertised.
End probes.

(** ** The models the servers hold *)

Definition miss_resident (acc : list string * list (string * Z)) (model : string) : list string * list (string * Z) :=
  let '(held, misses) := acc in
  let n := default 0 (dict_get model misses) + 1 in
  if n <? RESIDENT_ABSENT_MISSES then (held ++ [model], dict_set model n misses) else (held, dict_pop model misses).
Definition _debounce_residents (seen : list string) (s : resident_state) : list string * list (string * Z) :=
  let misses := foldl (λ m k, dict_pop k m) (_ctx_resident_misses s) seen in
  let previous := default [] (_ctx_residents s) in
  foldl miss_resident (seen, misses) (List.filter (λ m, negb (bool_decide (m ∈ seen))) previous).

Definition add_once (l : list string) (x : string) : list string :=
  if PyStr.truthy x && negb (bool_decide (x ∈ l)) then l ++ [x] else l.
(** A server's evidence; the copy in this process cannot be its own witness *)
Definition held_of (rs : list Resident) : list string :=
  foldl add_once [] (map model (List.filter (λ r, negb (String.eqb (server r) INPROCESS)) rs)).
Definition _refresh_box_llm_state (i : beat_in) : B () := modify_b (λ b,
  match b_collect i with
  | Raise _ => b
  | Ok rs =>
      let '(held, misses) := _debounce_residents (held_of rs) (bt_residents b) in
      set_residents (mkResidents (foldl add_once [] (map server rs), foldl add_once [] (map model rs)) (Some held) misses) b
  end).
Definition _observed_residents (b : beat) : option (list string) := _ctx_residents (bt_residents b).

(** ** The window the box serves *)

Section windows.
Context `{PyEnv} `{Http} `{WorkerEnv} `{QueueConfig}.
Implicit Types (i : beat_in).

(** The module's own [_vllm_model_max_context] *)
Definition vllm_model_max_context : result (option Z) :=
  raw ← env_get "QUEUE_WORKFLOWS_VLLM_MAX_CONTEXT" (Some "");
  let text := PyStr.strip (default "" raw) in
  Ok (match (if PyStr.truthy text then PyStr.int text else Some 0) with
      | Some v => if 0 <? v then Some v else None
      | None => None
      end).

Definition upd_window (f : window_state → window_state) : B () := modify_b (λ b, set_window (f (bt_window b)) b).
Definition set_last_model (m : string) (s : window_state) : window_state :=
  mkWindow (_llm_context_state s) (Some m) (_ctx_model_info s) (_ctx_last_window s) (_ctx_per_token_seen s)
    (_ctx_ceiling_by_kind s) (_ctx_model_sizes s) (_ctx_admission s) (_ctx_seed_done s).
Definition set_info (m : string) (d : dict) (s : window_state) : window_state :=
  mkWindow (_llm_context_state s) (_ctx_last_model s) (dict_set m d (_ctx_model_info s)) (_ctx_last_window s)
    (_ctx_per_token_seen s) (_ctx_ceiling_by_kind s) (_ctx_model_sizes s) (_ctx_admission s) (_ctx_seed_done s).
Definition set_last_window (kind : string) (w : Z) (s : window_state) : window_state :=
  mkWindow (_llm_context_state s) (_ctx_last_model s) (_ctx_model_info s) (dict_set kind w (_ctx_last_window s))
    (_ctx_per_token_seen s) (_ctx_ceiling_by_kind s) (_ctx_model_sizes s) (_ctx_admission s) (_ctx_seed_done s).
Definition set_per_token (m : string) (n : Z) (s : window_state) : window_state :=
  mkWindow (_llm_context_state s) (_ctx_last_model s) (_ctx_model_info s) (_ctx_last_window s)
    (dict_set m n (_ctx_per_token_seen s)) (_ctx_ceiling_by_kind s) (_ctx_model_sizes s) (_ctx_admission s) (_ctx_seed_done s).
Definition set_ceiling (kind : string) (n : Z) (s : window_state) : window_state :=
  mkWindow (_llm_context_state s) (_ctx_last_model s) (_ctx_model_info s) (_ctx_last_window s)
    (_ctx_per_token_seen s) (dict_set kind n (_ctx_ceiling_by_kind s)) (_ctx_model_sizes s) (_ctx_admission s) (_ctx_seed_done s).
Definition set_sizes (l : list (string * Z)) (s : window_state) : window_state :=
  mkWindow (_llm_context_state s) (_ctx_last_model s) (_ctx_model_info s) (_ctx_last_window s)
    (_ctx_per_token_seen s) (_ctx_ceiling_by_kind s) l (_ctx_admission s) (_ctx_seed_done s).
Definition set_admission (a : admission_view) (s : window_state) : window_state :=
  mkWindow (_llm_context_state s) (_ctx_last_model s) (_ctx_model_info s) (_ctx_last_window s)
    (_ctx_per_token_seen s) (_ctx_ceiling_by_kind s) (_ctx_model_sizes s) (Some a) (_ctx_seed_done s).
Definition set_seed_done (s : window_state) : window_state :=
  mkWindow (_llm_context_state s) (_ctx_last_model s) (_ctx_model_info s) (_ctx_last_window s)
    (_ctx_per_token_seen s) (_ctx_ceiling_by_kind s) (_ctx_model_sizes s) (_ctx_admission s) true.
Definition set_published (p : option Z * option Z) (s : window_state) : window_state :=
  mkWindow p (_ctx_last_model s) (_ctx_model_info s) (_ctx_last_window s)
    (_ctx_per_token_seen s) (_ctx_ceiling_by_kind s) (_ctx_model_sizes s) (_ctx_admission s) (_ctx_seed_done s).

(** [node_queue.last_published_context]: the worker's own row, and only one written while
    that kind served *)
Definition last_published_context (db : result ()) (host queue : string) (served_by : option string) (w : world) : option Z :=
  match db with
  | Raise _ => None
  | Ok _ =>
      match List.find (is_beat host queue (_project None)) (heartbeats w) with
      | None => None
      | Some row =>
          let known := match served_by with
                       | Some kind => bool_decide (kind ∈ truthy_only (llm_servers_available row))
                       | None => true
                       end in
          if known then or_z (llm_context_length row) None else None
      end
  end.
Definition _seeded_window i (kind : string) : B (option Z) :=
  if negb (String.eqb kind DEFAULT_LLM_SERVER_TYPE) then mret None
  else
    done ← gets (λ b, _ctx_seed_done (bt_window b));
    if (done : bool) then mret None
    else
      _ ← upd_window set_seed_done;
      seen ← gets (λ b, last_published_context (b_db i) (b_host i) "gpu" (Some kind) (bt_world b));
      _ ← match (seen : option Z) with Some w => upd_window (set_last_window kind w) | None => mret () end;
      mret seen.

(** [_ollama_model_info], asked once per model *)
Definition _ollama_model_info (url : string) (model : string) : B dict :=
  if negb (PyStr.truthy model) then mret []
  else
    cached ← gets (λ b, dict_get model (_ctx_model_info (bt_window b)));
    match (cached : option dict) with
    | Some d => mret d
    | None =>
        let d := ollama_model_info (Some url) model in
        _ ← upd_window (set_info model d); mret d
    end.

Definition can_grow i (kind : string) : result bool :=
  off ← b_lever_off i;
  if (off : bool) then Ok false
  else available ← b_lever_available i kind;
       Ok ((available : bool) && negb (b_resize_quarantined i kind)).

Definition vllm_window i (grow : bool) : result (option Z * option Z) :=
  let url := Some (b_url i SERVER_TYPE_VLLM) in
  let current := vllm_max_model_len url in
  if negb grow then Ok (current, current)
  else
    model_max ← vllm_model_max_context;
    Ok (current, vllm_ceiling current model_max (vllm_kv_capacity_tokens url) CONTEXT_GRANULE).

(** The window of a daemon: configured, else that of the loaded runner, else the last one
    seen *)
Definition ollama_current i (kind : string) (configured : option Z) (loaded : option Runner) : B (option Z) :=
  let current := match configured with Some c => Some c | None => loaded ≫= rn_context end in
  match current with
  | None =>
      last ← gets (λ b, dict_get kind (_ctx_last_window (bt_window b)));
      match or_z last None with Some w => mret (Some w) | None => _seeded_window i kind end
  | Some c => _ ← (if c =? 0 then mret () else upd_window (set_last_window kind c)); mret (Some c)
  end.
Definition ollama_window i (kind : string) (grow : bool) : B (option Z * option Z) :=
  let url := b_url i kind in
  let loaded := head (ollama_runners (Some url)) in
  _ ← match loaded with
      | Some r => if PyStr.truthy (rn_name r) then upd_window (set_last_model (rn_name r)) else mret ()
      | None => mret ()
      end;
  info ← lift_b (b_describe i kind);
  current ← ollama_current i kind (sc_configured info) loaded;
  last ← gets (λ b, _ctx_last_model (bt_window b));
  let model := match or_none (rn_name <$> loaded) with Some m => Some m | None => last end in
  model_max ← match or_none model with
              | Some m => d ← _ollama_model_info url m; mret (model_info_max_context d)
              | None => mret None
              end;
  let current := match current, (model_max : option Z) with
                 | Some c, Some m => Some (Z.min c m)
                 | c, _ => c
                 end in
  match grow, model with
  | true, Some m =>
      sizes ← gets (λ b, _ctx_model_sizes (bt_window b));
      let sizes := match (sizes : list (string * Z)) with [] => ollama_model_sizes (Some url) | l => l end in
      let weights := dict_get m sizes in
      let runner_bytes := default 0 (loaded ≫= rn_size) in
      per_token ← (match or_z (kv_bytes_per_token_observed (Some runner_bytes) weights (loaded ≫= rn_context)) None with
                | Some n => mret (Some n)
                | None => d ← _ollama_model_info url m;
                          mret (kv_bytes_per_token_formula d FORMULA_DEFAULT_PARALLEL 2 FORMULA_SAFETY)
                end);
      reserve ← lift_b reserve_bytes;
      mret (current, ollama_ceiling current model_max per_token weights runner_bytes
                       (mem_available_bytes (b_meminfo i)) reserve CONTEXT_GRANULE)
  | _, _ => mret (current, current)
  end.
Definition _llm_context_for_kind i (kind : string) : B (option Z * option Z) :=
  grow ← lift_b (can_grow i kind);
  if String.eqb kind SERVER_TYPE_VLLM then lift_b (vllm_window i grow) else ollama_window i kind grow.
End windows.

(** ** What the box could load *)

Section admission.
Context `{PyEnv} `{Http} `{WorkerEnv} `{QueueConfig}.
Implicit Types (i : beat_in).

(** What one token of window costs on this box: measured on the loaded runner, remembered
    from one, or the formula for a single slot *)
Definition admission_per_token (url : string) (loaded : option Runner) (sizes : list (string * Z)) : B (option Z) :=
  last ← gets (λ b, _ctx_last_model (bt_window b));
  let model := match or_none (rn_name <$> loaded) with Some m => Some m | None => last end in
  let measured := loaded ≫= λ r, kv_bytes_per_token_observed (Some (default 0 (rn_size r)))
                                   (dict_get (rn_name r) sizes) (rn_context r) in
  _ ← match loaded, or_z measured None with
      | Some r, Some n => upd_window (set_per_token (rn_name r) n)
      | _, _ => mret ()
      end;
  match measured, or_none model with
  | Some n, _ => mret (Some n)
  | None, None => mret None
  | None, Some m =>
      seen ← gets (λ b, dict_get m (_ctx_per_token_seen (bt_window b)));
      match (seen : option Z) with
      | Some n => mret (Some n)
      | None => d ← _ollama_model_info url m; mret (kv_bytes_per_token_formula d 1 2 1)
      end
  end.
Definition _observe_admission i (served : list string) (serving : option Z) : B () :=
  let url := b_url i DEFAULT_LLM_SERVER_TYPE in
  let sizes := ollama_model_sizes (Some url) in
  let runners := ollama_runners (Some url) in
  let resident := List.filter PyStr.truthy (map rn_name runners) ++
    (if bool_decide (SERVER_TYPE_VLLM ∈ served) then vllm_served_models (Some (b_url i SERVER_TYPE_VLLM)) else []) in
  per_token ← admission_per_token url (head runners) sizes;
  _ ← upd_window (set_sizes sizes);
  reserve ← lift_b reserve_bytes;
  upd_window (set_admission (mkAdmissionView resident sizes (default 0 per_token * default 0 serving)
                               (mem_available_bytes (b_meminfo i)) reserve)).
End admission.

(** [{canonical_tag(k): v for k, v in sizes.items()}] *)
Definition tagged_sizes (sizes : list (string * Z)) : list (string * Z) :=
  foldl (λ d kv, dict_set (canonical_tag kv.1) kv.2 d) [] sizes.
(** A model is refused only when it is not there and is known not to fit. *)
Definition loadable (a : admission_view) (mid : string) : bool :=
  let tag := canonical_tag mid in
  bool_decide (tag ∈ map canonical_tag (adm_resident a)) ||
  match load_fits (dict_get tag (tagged_sizes (adm_sizes a))) (Some (adm_kv a)) (adm_available a) (adm_reserve a) with
  | Some false => false
  | _ => true
  end.
Definition _narrow_by_memory (adm : option admission_view) (ids : list string) : list string :=
  match adm with
  | None => ids
  | Some a => List.filter (loadable a) ids
  end.
Definition _known_models (i : beat_in) (b : beat) (declared : list string) : list string :=
  _narrow_by_memory (_ctx_admission (bt_window b))
    (narrow_to_observed declared (_observed_model_ids (bt_served b)) (Some (server_served_ids (b_registry i)))).

(** ** What a start of vLLM cost *)

Section profile.
Context `{PyEnv} `{Http} `{WorkerEnv} `{QueueConfig}.
Implicit Types (i : beat_in).

Definition _VLLM_PROFILE_ATTEMPTS : Z := 30.
Definition upd_start (f : start_state → start_state) : B () := modify_b (λ b, set_start (f (bt_start b)) b).
Definition set_attempts (a : start_key * Z) (s : start_state) : start_state :=
  mkStart (_vllm_observed_key s) (Some a) (_vllm_concurrency s) (_vllm_committed_key s) (startup_losses s).
Definition set_concurrency_seen (n : Z) (s : start_state) : start_state :=
  mkStart (_vllm_observed_key s) (_vllm_profile_attempts s) (Some n) (_vllm_committed_key s) (startup_losses s).
Definition set_given_up (key : start_key) (s : start_state) : start_state :=
  mkStart (Some key) (_vllm_profile_attempts s) (_vllm_concurrency s) (_vllm_committed_key s) (startup_losses s).
(** The start is observed and its pool taken; [_clear_startup_losses] *)
Definition set_committed (key : start_key) (s : start_state) : start_state :=
  mkStart (Some key) (_vllm_profile_attempts s) (_vllm_concurrency s) (Some key) 0.

(** [llm_context_lever.observe_vllm] *)
Definition observe_vllm i (info : ServerContainer) : result (option VllmProfile) :=
  if negb (sc_exists info) then Ok None
  else parse_vllm_startup (b_startup_log i) (mem_total_bytes (b_meminfo i)) (sc_utilization_now info).

(** The view the claims use, with what this tick observed *)
Definition see (v : view) (b : beat) : view :=
  mkView (v_host v) (v_box v) (v_host_priority v) (v_lease_s v) (v_par v) (_vllm_concurrency (bt_start b))
    (_box_served (bt_served b)) (_box_warm (bt_residents b)).1 (_box_warm (bt_residents b)).2
    (_llm_context_state (bt_window b)).1 (v_cached_default v) (v_pool_modules v) (v_known_inline v) (v_known_pool v)
    (v_current_model v) (v_vram_total v) (v_fits v) (v_has_models v) (v_blocks_claims v) (v_spill_paused v)
    (_llm_gpu_ok (bt_served b)) (v_holding v).

(** The window the observed start serves; the worker's own method does not exist *)
Definition start_window (info : ServerContainer) (b : beat) : result (option Z) :=
  match or_z (sc_configured info) (or_z (dict_get SERVER_TYPE_VLLM (_ctx_last_window (bt_window b))) None) with
  | Some w => Ok (Some w)
  | None => self_vllm_model_max_context
  end.
Definition _observe_vllm_profile i : B () :=
  info ← lift_b (b_describe i SERVER_TYPE_VLLM);
  if negb (sc_exists info) || negb (sc_running info) then mret ()
  else
    let key := (sc_container_id info, sc_started_at info) in
    s ← gets bt_start;
    if bool_decide (_vllm_observed_key s = Some key) then mret ()
    else
      let attempts := match _vllm_profile_attempts s with
                      | Some (k, n) => if bool_decide (k = key) then n + 1 else 1
                      | None => 1
                      end in
      _ ← upd_start (set_attempts (key, attempts));
      window ← reads (start_window info);
      profile ← lift_b (observe_vllm i info);
      let capacity := match vllm_kv_capacity_tokens (Some (b_url i SERVER_TYPE_VLLM)), (profile : option VllmProfile) with
                      | Some c, _ => Some c
                      | None, Some p => Some (p_kv_tokens p)
                      | None, None => None
                      end in
      _ ← match vllm_concurrency capacity window with
          | Some n => upd_start (set_concurrency_seen n)
          | None => mret ()
          end;
      match profile with
      | None => if _VLLM_PROFILE_ATTEMPTS <=? attempts then upd_start (set_given_up key) else mret ()
      | Some p =>
          _ ← match or_none (sc_served_name info) with
              | Some name => modify_b (λ b, set_rows (record_llm_profile (b_now i) (b_db i) (b_host i, SERVER_TYPE_VLLM, name)
                                (as_record p (sc_fingerprint info)) (bt_rows b)) b)
              | None => mret ()
              end;
          _ ← upd_start (set_committed key);
          _ ← reads (λ b, _pool_parallelism (see (b_view i) b));
          mret ()
      end.

(** ** The pair a heartbeat publishes *)

Fixpoint read_kinds i (kinds : list string) : B (list (option Z) * list Z) :=
  match kinds with
  | [] => mret ([], [])
  | kind :: r =>
      cc ← _llm_context_for_kind i kind;
      let '(current, ceiling) := (cc : option Z * option Z) in
      _ ← match ceiling with Some c => upd_window (set_ceiling kind c) | None => mret () end;
      rest ← read_kinds i r;
      mret (current :: (rest : list (option Z) * list Z).1, match ceiling with Some c => c :: rest.2 | None => rest.2 end)
  end.
Definition smallest (currents : list (option Z)) : option Z :=
  match mapM id currents with
  | Some (c :: r) => Some (foldr Z.min c r)
  | _ => None
  end.
Definition largest (ceilings : list Z) : option Z :=
  match ceilings with [] => None | c :: r => Some (foldr Z.max c r) end.
Definition observe_windows i : B (option Z * option Z) :=
  served ← gets (λ b, truthy_only (_box_served (bt_served b)));
  cc ← read_kinds i served;
  let '(currents, ceilings) := (cc : list (option Z) * list Z) in
  let serving := smallest currents in
  let ceiling := match largest ceilings, serving with Some c, Some w => Some (Z.max c w) | c, _ => c end in
  let state := match served with [] => (None, None) | _ => (serving, ceiling) end in
  _ ← match served with [] => mret () | _ => _observe_admission i served serving end;
  _ ← (if bool_decide (SERVER_TYPE_VLLM ∈ served) then _observe_vllm_profile i else mret ());
  mret state.
Definition _observe_llm_context i : B (option Z * option Z) :=
  state ← catch_b (None, None) (observe_windows i);
  _ ← upd_window (set_published state);
  mret state.
End profile.

(** ** The row *)

Section emitter.
Context `{PyEnv} `{Http} `{WorkerEnv} `{QueueConfig}.
Implicit Types (i : beat_in) (b : beat).

(** Does a server still vouch for the warm model?  A model this process loads itself
    needs no voucher, and what was not observed is not absent. *)
Definition _box_still_holds i b (m : string) : bool :=
  let want := canonical_tag m in
  if negb (bool_decide (want ∈ map canonical_tag (server_served_ids (b_registry i)))) then true
  else match _observed_residents b with
       | None => true
       | Some rs => existsb (λ r, String.eqb (canonical_tag r) want || bool_decide (artifact_role r = Some want)) rs
       end.
Definition _current_model i b : option string :=
  let vouched m := match or_none m with
                   | Some m => if _box_still_holds i b m then Some m else None
                   | None => None
                   end in
  match vouched (b_warm_model i) with
  | Some m => Some m
  | None => if is_sentinel_slot (b_occupant i) then None else vouched (b_occupant i)
  end.
Definition _concurrency i b : Z :=
  match _gpu_slot_budget (see (b_view i) b) with Ok n => Z.max 1 n | Raise _ => 1 end.
(** Asked once per process *)
Definition _vram_total_mb i : B (option Z) :=
  cached ← gets bt_vram;
  match (cached : option (option Z)) with
  | Some v => mret v
  | None =>
      let v := match b_vram_probe i with Ok v => v | Raise _ => None end in
      _ ← modify_b (set_vram (Some v)); mret v
  end.
Definition _fits_models i (known : list string) (vram : option Z) : list string :=
  List.filter (λ m, bool_decide (m ∈ known)) (fits_within vram 1 (b_registry i)).
Definition _llm_servers i : B (list string) := catch_b (b_static_servers i) (_probe_llm_servers i).
Definition _llm_context i : B (option Z * option Z) := catch_b (None, None) (_observe_llm_context i).

Definition upsert_b i (q : string) (conc : Z) (cur : option string) (known servers : list string) (vram : option Z)
    (fits : list string) (ctx : option (option Z * option Z)) : B () :=
  _ ← lift_b (b_db i);
  on_world (upsert_worker_heartbeat (b_host i) q conc cur (Some known) (Some servers) vram (Some fits) true None ctx).

(** The heartbeat of a gpu worker.  The servers are probed before anything that depends on
    them is read. *)
Definition emit_gpu i : B () :=
  vram ← _vram_total_mb i;
  servers ← _llm_servers i;
  known ← gets (λ b, _known_models i b (known_ids (b_registry i)));
  conc ← gets (_concurrency i);
  ctx ← _llm_context i;
  cur ← gets (_current_model i);
  upsert_b i "gpu" conc cur known servers vram (_fits_models i known vram) (Some ctx).
(** The other lanes advertise the static servers, no model, no window; [width] is the
    width of a threaded cpu lane. *)
Definition emit_plain i (q : string) (width : option Z) : B () :=
  known ← gets (λ b, _known_models i b (known_ids (b_registry i)));
  upsert_b i q (match width with Some n => Z.max 1 n | None => 1 end) None known (b_static_servers i) None [] None.
Definition emit_once i (q : string) (width : option Z) : B () :=
  catch_b () (if String.eqb q "gpu" then emit_gpu i else emit_plain i q width).

(** [_gpu_capacity_for_claim], with the probe the claims cache *)
Definition _gpu_capacity_for_claim i (cached : option (option Z)) : option Z * list string * bool :=
  let vram := match cached with
              | Some v => v
              | None => match b_vram_probe i with Ok v => v | Raise _ => None end
              end in
  let known := known_ids (b_registry i) in
  (vram, List.filter (λ m, bool_decide (m ∈ known)) (fits_within vram 1 (b_registry i)),
   negb (bool_decide (known = []))).
End emitter.

(** ** The artifact a claim will run *)

(** [node_queue.set_resolved_artifact] on the column, keyed by the job *)
Definition set_resolved_artifact (w : world) (job_id artifact : string) (stamps : list (string * string))
    : list (string * string) :=
  if negb (PyStr.truthy job_id) || negb (PyStr.truthy artifact) then stamps
  else if exists_row (λ j : node_job, String.eqb (jid j) job_id && has_status Running (st j)) (node_jobs w)
  then dict_set job_id artifact stamps else stamps.
(** What the claimed row says it runs, and the column *)
Definition artifact_of (i : beat_in) (b : beat) (job : node_job) : option string :=
  match or_none (resolved_model (st job)), or_none (required_model job) with
  | None, None => None
  | Some role, _ | None, Some role =>
      match _observed_entries (bt_served b) with
      | [] => None
      | entries =>
          let server := or_none (resolved_server (st job)) in
          let options := match server with
                         | Some k => default [] (dict_get k (server_model_options (PyStr.split1 ":" role).1 (b_registry i)))
                         | None => []
                         end in
          or_none (resolve_artifact role server entries options)
      end
  end.
Definition _stamp_resolved_artifact (i : beat_in) (b : beat) (job : node_job) (stamps : list (string * string))
    : option string * list (string * string) :=
  match artifact_of i b job with
  | None => (None, stamps)
  | Some a =>
      match b_db i with
      | Ok _ => (Some a, set_resolved_artifact (bt_world b) (jid job) a stamps)
      | Raise _ => (None, stamps)
      end
  end.

(** * Lemmas *)

(** ** Absence is debounced

    The specification of both debouncers: a history of observations, the newest first, and
    how many observations ago a key was last seen. *)

Fixpoint age (k : string) (h : list (list string)) : option Z :=
  match h with
  | [] => None
  | o :: r => if bool_decide (k ∈ o) then Some 0 else Z.add 1 <$> age k r
  end.
(** Seen in one of the last three observations *)
Definition lately (k : string) (h : list (list string)) : Prop := ∃ o, o ∈ take 3 h ∧ k ∈ o.

Lemma age_nonneg k h j : age k h = Some j → 0 ≤ j.
Proof.
  revert j. induction h as [|o h IH]; [done|]. intros j. simpl. case_bool_decide; [by intros [= <-]|].
  destruct (age k h) as [n|]; [|done]. intros [= <-]. specialize (IH n eq_refl). lia.
Qed.
Lemma age_take k n h : (∃ o, o ∈ take n h ∧ k ∈ o) ↔ ∃ j, age k h = Some j ∧ j < Z.of_nat n.
Proof.
  revert n. induction h as [|o h IH]; intros n.
  { rewrite take_nil. split; [by intros (o & []%not_elem_of_nil & _)|by intros (j & ? & _)]. }
  destruct n as [|n].
  { split; [by intros (o' & []%not_elem_of_nil & _)|]. intros (j & Hj & Hn). apply age_nonneg in Hj. lia. }
  cbn [take age]. setoid_rewrite elem_of_cons. case_bool_decide as Hk.
  { split; [intros _; exists 0; split; [done|lia]|eauto]. }
  transitivity (∃ o', o' ∈ take n h ∧ k ∈ o'); [naive_solver|]. rewrite IH. split.
  - intros (j & -> & Hj). exists (1 + j). split; [done|lia].
  - intros (j & Hj & Hn). destruct (age k h) as [m|]; [|done]. injection Hj as <-. exists m. split; [done|lia].
Qed.
Lemma lately_age k h : lately k h ↔ ∃ j, age k h = Some j ∧ j < 3.
Proof. apply age_take. Qed.

Definition missed (m : list (string * Z)) (k : string) : Z := default 0 (dict_get k m).

(** What a debouncer keeps of a key *)
Definition tracks (k : string) (h : list (list string)) (held : list string) (m : list (string * Z)) : Prop :=
  k ∈ held → age k h = Some (missed m k) ∧ missed m k < 3.
Definition tracks_all (k : string) (h : list (list string)) (held : list string) (m : list (string * Z)) : Prop :=
  tracks k h held m ∧ (lately k h → k ∈ held).

(** How a debouncer treats a key in one observation *)
Definition counts (k : string) (o held held' : list string) (m m' : list (string * Z)) : Prop :=
  k ∈ held' → (k ∈ o ∧ missed m' k = 0) ∨ (k ∉ o ∧ k ∈ held ∧ missed m' k = missed m k + 1 ∧ missed m' k < 3).
Definition keeps (k : string) (o held held' : list string) (m : list (string * Z)) : Prop :=
  (k ∈ o → k ∈ held') ∧ (k ∈ held → missed m k + 1 < 3 → k ∈ held').

Lemma tracks_step k h o held held' m m' :
  tracks k h held m → counts k o held held' m m' → tracks k (o :: h) held' m'.
Proof.
  intros Ht Hc Hk. cbn [age]. destruct (Hc Hk) as [[Ho ->]|(Ho & Hh & E & Hm)].
  - by rewrite bool_decide_true.
  - rewrite bool_decide_false by done. destruct (Ht Hh) as [-> _]. split; [|done]. simpl. f_equal. lia.
Qed.
Lemma tracks_all_step k h o held held' m m' :
  tracks_all k h held m → counts k o held held' m m' → keeps k o held held' m → tracks_all k (o :: h) held' m'.
Proof.
  intros [Ht Hl] Hc [Ho Hh]. split; [by eapply tracks_step|]. intros (j & Hj & Hlt)%lately_age.
  cbn [age] in Hj. case_bool_decide as Hin; [auto|]. destruct (age k h) as [n|] eqn:E; [|done].
  injection Hj as <-. assert (k ∈ held) as Hk by (apply Hl, lately_age; exists n; split; [done|lia]).
  apply Hh; [done|]. destruct (Ht Hk) as [Ha _]. rewrite E in Ha. injection Ha as ->. lia.
Qed.

Lemma missed_set m k k' n : missed (dict_set k n m) k' = if bool_decide (k' = k) then n else missed m k'.
Proof.
  unfold missed. case_bool_decide as E; [subst; by rewrite dict_get_set_eq|by rewrite dict_get_set_ne].
Qed.
Lemma missed_pop m k k' : missed (dict_pop k m) k' = if bool_decide (k' = k) then 0 else missed m k'.
Proof.
  unfold missed. case_bool_decide as E; [subst; by rewrite dict_get_pop_eq|by rewrite dict_get_pop_ne].
Qed.
Lemma missed_reset o : ∀ m k,
  missed (foldl (λ m k, dict_set k 0 m) m o) k = if bool_decide (k ∈ o) then 0 else missed m k.
Proof.
  induction o as [|x o IH]; intros m k; simpl; [done|]. rewrite IH, missed_set.
  destruct (bool_decide_reflect (k ∈ o)), (bool_decide_reflect (k = x)), (bool_decide_reflect (k ∈ x :: o)); set_solver.
Qed.
Lemma missed_pops o : ∀ m k,
  missed (foldl (λ m k, dict_pop k m) m o) k = if bool_decide (k ∈ o) then 0 else missed m k.
Proof.
  induction o as [|x o IH]; intros m k; simpl; [done|]. rewrite IH, missed_pop.
  destruct (bool_decide_reflect (k ∈ o)), (bool_decide_reflect (k = x)), (bool_decide_reflect (k ∈ x :: o)); set_solver.
Qed.

(** *** The served kinds *)

Lemma miss_kinds o l : NoDup l → ∀ acc k,
  let acc' := foldl (miss_kind o) acc l in
  (k ∈ acc'.1 ↔ k ∈ acc.1 ∧ (k ∈ l → k ∉ o → missed acc.2 k + 1 < 3)) ∧
  (k ∈ acc'.1 → missed acc'.2 k = if bool_decide (k ∈ l ∧ k ∉ o) then missed acc.2 k + 1 else missed acc.2 k).
Proof.
  induction 1 as [|x l Hx Hl IH]; intros acc k; [cbn [foldl]; split; [set_solver|]; intros _; by rewrite bool_decide_false by set_solver|].
  cbn [foldl]. destruct (IH (miss_kind o acc x) k) as [IH1 IH2]. cbv zeta in *.
  set (acc' := foldl (miss_kind o) (miss_kind o acc x) l) in *. clearbody acc'. clear IH.
  destruct acc as [stable m]. unfold miss_kind in IH1, IH2. cbn [fst snd] in *.
  destruct (bool_decide_reflect (x ∈ o)) as [Ho|Ho].
  { cbn [fst snd] in *. split; [rewrite IH1; set_solver|]. intros Hk. rewrite (IH2 Hk).
    repeat case_bool_decide; set_solver. }
  unfold _SERVED_DEBOUNCE_MISSES in *. fold (missed m x) in IH1, IH2.
  destruct (Z.leb_spec 3 (missed m x + 1)) as [Hn|Hn]; cbn [fst snd] in *.
  - rewrite elem_of_Lfilter, missed_pop, negb_true_iff, String.eqb_neq in IH1. rewrite missed_pop in IH2. split.
    + rewrite IH1. destruct (base.decide (k = x)) as [-> |Hne].
      * split; [naive_solver|]. intros [_ Hc]. specialize (Hc ltac:(set_solver) Ho). lia.
      * rewrite (bool_decide_false (k = x)) by done. set_solver.
    + intros Hk. assert (k ≠ x) as Hne by (apply IH1 in Hk as [[_ ?] _]; done). rewrite (IH2 Hk).
      rewrite (bool_decide_false (k = x)) by done. repeat case_bool_decide; set_solver.
  - rewrite missed_set in IH1, IH2. split.
    + rewrite IH1. destruct (base.decide (k = x)) as [-> |Hne]; [|rewrite (bool_decide_false (k = x)) by done; set_solver].
      split; [intros [H1 _]; split; [done|]; intros; lia|intros [H1 _]; split; [done|]; set_solver].
    + intros Hk. rewrite (IH2 Hk). destruct (base.decide (k = x)) as [-> |Hne].
      * rewrite (bool_decide_true (x = x)), (bool_decide_false (x ∈ l ∧ x ∉ o)) by set_solver.
        by rewrite bool_decide_true by set_solver.
      * rewrite (bool_decide_false (k = x)) by done. repeat case_bool_decide; set_solver.
Qed.
Lemma debounce_served_counts o held m k :
  let '(stable, m') := debounce_served o held m in
  counts k o held stable m m' ∧ keeps k o held stable m.
Proof.
  unfold debounce_served. set (m0 := foldl _ m o). set (l := remove_dups (held ++ o)).
  destruct (miss_kinds o l (NoDup_remove_dups _) (l, m0) k) as [H1 H2]. cbv zeta in *. cbn [fst snd] in *.
  destruct (foldl (miss_kind o) (l, m0) l) as [stable m']. cbn [fst snd] in *.
  assert (k ∈ l ↔ k ∈ held ∨ k ∈ o) as Hl by (unfold l; rewrite elem_of_remove_dups; set_solver).
  unfold m0 in H1, H2. rewrite missed_reset in H1, H2. fold m0 in H1, H2. split.
  - intros Hk. rewrite (H2 Hk). apply H1 in Hk as [Hk Hlt]. destruct (base.decide (k ∈ o)) as [Ho|Ho].
    + left. split; [done|]. rewrite bool_decide_false by set_solver. by rewrite bool_decide_true.
    + right. rewrite (bool_decide_false (k ∈ o)) in * by done. rewrite bool_decide_true by set_solver.
      split_and!; [done|set_solver|done|auto].
  - split; intros Hk; [apply H1; split; [set_solver|done]|]. intros Hlt. apply H1. split; [set_solver|].
    intros _ Ho. by rewrite bool_decide_false.
Qed.

(** *** The residents *)

Lemma miss_residents l : NoDup l → ∀ held m,
  let acc' := foldl miss_resident (held, m) l in
  acc'.1 = held ++ List.filter (λ x, missed m x + 1 <? 3) l ∧
  ∀ k, missed acc'.2 k = if bool_decide (k ∈ l) then (if missed m k + 1 <? 3 then missed m k + 1 else 0) else missed m k.
Proof.
  induction 1 as [|x l Hx Hl IH]; intros held m; [cbn [foldl]; by rewrite app_nil_r|].
  cbn [foldl miss_resident]. unfold RESIDENT_ABSENT_MISSES. fold (missed m x). cbn [List.filter].
  assert (∀ m' : list (string * Z), (∀ k, k ≠ x → missed m' k = missed m k) →
    List.filter (λ y, missed m' y + 1 <? 3) l = List.filter (λ y, missed m y + 1 <? 3) l) as Hext.
  { intros m' He. apply List.filter_ext_in. intros y Hy. rewrite He; [done|]. intros ->. apply Hx, list_elem_of_In, Hy. }
  destruct (missed m x + 1 <? 3) eqn:E.
  - destruct (IH (held ++ [x]) (dict_set x (missed m x + 1) m)) as [IH1 IH2]. cbv zeta in *. split.
    + rewrite IH1, <- app_assoc, Hext; [done|]. intros k Hk. rewrite missed_set. by case_bool_decide.
    + intros k. rewrite IH2, !missed_set. destruct (base.decide (k = x)) as [-> |Hne].
      * rewrite !(bool_decide_true (x = x)), (bool_decide_false (x ∈ l)), (bool_decide_true (x ∈ x :: l)), E by set_solver. done.
      * rewrite !(bool_decide_false (k = x)) by done. repeat case_bool_decide; set_solver.
  - destruct (IH held (dict_pop x m)) as [IH1 IH2]. cbv zeta in *. split.
    + rewrite IH1, Hext; [done|]. intros k Hk. rewrite missed_pop. by case_bool_decide.
    + intros k. rewrite IH2, !missed_pop. destruct (base.decide (k = x)) as [-> |Hne].
      * rewrite !(bool_decide_true (x = x)), (bool_decide_false (x ∈ l)), (bool_decide_true (x ∈ x :: l)), E by set_solver. done.
      * rewrite !(bool_decide_false (k = x)) by done. repeat case_bool_decide; set_solver.
Qed.
Lemma debounce_residents_counts seen s k :
  NoDup seen → NoDup (default [] (_ctx_residents s)) →
  let '(held, m') := _debounce_residents seen s in
  NoDup held ∧ counts k seen (default [] (_ctx_residents s)) held (_ctx_resident_misses s) m' ∧
  keeps k seen (default [] (_ctx_residents s)) held (_ctx_resident_misses s).
Proof.
  intros Hs Hp. unfold _debounce_residents. set (prev := default [] (_ctx_residents s)) in *.
  set (m := foldl _ _ seen). set (l := List.filter _ prev).
  assert (NoDup l) as Hl by (by apply NoDup_ListNoDup, List.NoDup_filter, NoDup_ListNoDup).
  assert (∀ x, x ∈ l ↔ x ∈ prev ∧ x ∉ seen) as Hel.
  { intros x. unfold l. by rewrite elem_of_Lfilter, negb_true_iff, bool_decide_eq_false. }
  destruct (miss_residents l Hl seen m) as [H1 H2]. cbv zeta in *.
  destruct (foldl miss_resident (seen, m) l) as [held m']. cbn [fst snd] in *. subst held.
  assert (∀ x, missed m x = if bool_decide (x ∈ seen) then 0 else missed (_ctx_resident_misses s) x) as Hm
    by (intros; apply missed_pops). split_and!.
  - apply NoDup_app. split_and!; [done| |by apply NoDup_ListNoDup, List.NoDup_filter, NoDup_ListNoDup].
    intros x Hx [Hx' _]%elem_of_Lfilter. by apply Hel in Hx' as [_ []].
  - intros [Hk|[Hk Hlt]%elem_of_Lfilter]%elem_of_app.
    + left. split; [done|]. rewrite H2, (bool_decide_false (k ∈ l)) by (rewrite Hel; tauto).
      by rewrite Hm, bool_decide_true.
    + apply Hel in Hk as [Hk Hn]. right. rewrite H2, (bool_decide_true (k ∈ l)), Hlt by (by rewrite Hel).
      rewrite Hm, bool_decide_false in * by done. split_and!; [done..|]. by apply Z.ltb_lt.
  - split; [set_solver|]. intros Hk Hlt. destruct (base.decide (k ∈ seen)); [set_solver|].
    apply elem_of_app. right. apply elem_of_Lfilter. split; [by apply Hel|].
    rewrite Hm, bool_decide_false by done. by apply Z.ltb_lt.
Qed.
Lemma add_once_NoDup l : ∀ acc, NoDup acc → NoDup (foldl add_once acc l).
Proof.
  induction l as [|x l IH]; intros acc Ha; [done|]. apply IH. unfold add_once.
  destruct (PyStr.truthy x && _) eqn:E; [|done]. apply andb_true_iff in E as [_ E].
  apply negb_true_iff, bool_decide_eq_false in E. apply NoDup_app. split_and!; [done|set_solver|apply NoDup_singleton].
Qed.

(** The snapshots a worker took, the newest first; one that raised says nothing *)
Definition snapshots (ticks : list beat_in) : list (list string) :=
  omap (λ i, match b_collect i with Ok rs => Some (held_of rs) | Raise _ => None end) (reverse ticks).
Lemma snapshots_snoc ticks i :
  snapshots (ticks ++ [i]) =
  match b_collect i with Ok rs => held_of rs :: snapshots ticks | Raise _ => snapshots ticks end.
Proof. unfold snapshots. rewrite reverse_app. simpl. by destruct (b_collect i). Qed.

(** A model leaves a box only when it was missing three times in a row.  After any
    sequence of snapshots a worker vouches for a model exactly when one of the last three
    snapshots that could be taken saw a server hold it, so no single failed probe blanks a
    live model, and an evicted one is gone after three. *)
Lemma residents_are_debounced rows w ticks :
  let b := foldl (λ b i, (_refresh_box_llm_state i b).2) (fresh_beat rows w) ticks in
  ∀ m, m ∈ default [] (_observed_residents b) ↔ lately m (snapshots ticks).
Proof.
  cbv zeta. set (b := foldl _ _ ticks).
  enough (NoDup (default [] (_observed_residents b)) ∧
    ∀ m, tracks_all m (snapshots ticks) (default [] (_observed_residents b)) (_ctx_resident_misses (bt_residents b))) as [_ Hall].
  { intros m. destruct (Hall m) as [Ht Hl]. split; [|done]. intros Hm. apply lately_age.
    destruct (Ht Hm) as [E Hlt]. eauto. }
  subst b. induction ticks as [|i ticks IH] using rev_ind.
  { split; [apply NoDup_nil_2|]. intros m. split; [intros []%not_elem_of_nil|]. by intros (o & []%not_elem_of_nil & _). }
  rewrite foldl_app, snapshots_snoc. cbn [foldl]. set (b := foldl _ _ ticks) in *.
  unfold _refresh_box_llm_state, modify_b. cbn [snd]. destruct (b_collect i) as [rs|x]; [|done].
  destruct IH as [Hn IH]. unfold _observed_residents in *.
  assert (NoDup (held_of rs)) as Hs by apply add_once_NoDup, NoDup_nil_2.
  pose proof (λ k, debounce_residents_counts (held_of rs) (bt_residents b) k Hs Hn) as Hd.
  destruct (_debounce_residents (held_of rs) (bt_residents b)) as [held m']. cbn [set_residents bt_residents _ctx_residents default _ctx_resident_misses].
  split; [by destruct (Hd "") as [? _]|]. intros m. destruct (Hd m) as (_ & Hc & Hk). by eapply tracks_all_step.
Qed.

(** *** The kinds a worker advertises *)

Section served.
Context `{PyEnv}.

(** One tick's network and inputs *)
Abbreviation tick_in := (Http * beat_in)%type.
Definition observed_at (t : tick_in) : option (list string) :=
  match @observe_servers t.1 t.2 with
  | Ok (servers, gpu_ok) => Some (if gpu_ok : bool then servers else [])
  | Raise _ => None
  end.
Definition probe_step (b : beat) (t : tick_in) : beat := (@_probe_llm_servers _ t.1 t.2 b).2.
(** The observations, the newest first; a probe that raised says nothing *)
Definition observations (ticks : list tick_in) : list (list string) := omap observed_at (reverse ticks).

Lemma publish_served `{Http} i adv b :
  let s := bt_served (_publish_model_catalog i adv b).2 in
  _box_served s = _box_served (bt_served b) ∧ _served_miss_counts s = _served_miss_counts (bt_served b) ∧
  _llm_gpu_ok s = _llm_gpu_ok (bt_served b).
Proof.
  unfold _publish_model_catalog. destruct adv; [done|]. destruct (observe_box_models _ _); [done|].
  by destruct (upsert_model_catalog _ _ _ _) as [[] ?].
Qed.
Lemma publish_ok `{Http} i adv b : (_publish_model_catalog i adv b).1 = Ok ().
Proof.
  unfold _publish_model_catalog. destruct adv; [done|]. destruct (observe_box_models _ _); [done|].
  by destruct (upsert_model_catalog _ _ _ _) as [[] ?].
Qed.

Lemma advertise_eq st :
  advertise st = if bool_decide ("vllm" ∈ st) then ["vllm"] else if bool_decide ("ollama" ∈ st) then ["ollama"] else [].
Proof.
  unfold advertise, KINDS. cbn [List.filter].
  destruct (bool_decide ("ollama" ∈ st)), (bool_decide ("vllm" ∈ st)); by vm_compute.
Qed.
Lemma advertised_elem st k :
  k ∈ advertise st → (k = "vllm" ∨ k = "ollama" ∧ "vllm" ∉ st) ∧ k ∈ st.
Proof. rewrite advertise_eq. repeat case_bool_decide; set_solver. Qed.

(** What a tick does to the kinds *)
Lemma probe_step_eq b t :
  match @observe_servers t.1 t.2 with
  | Raise _ => probe_step b t = b
  | Ok (servers, gpu_ok) =>
      let s := bt_served (probe_step b t) in
      let s' := note_served gpu_ok (if gpu_ok : bool then servers else []) (bt_served b) in
      _box_served s = _box_served s' ∧ _served_miss_counts s = _served_miss_counts s' ∧ _llm_gpu_ok s = gpu_ok
  end.
Proof.
  unfold probe_step, _probe_llm_servers, mbind, B_bind, lift_b, modify_b, gets.
  destruct (observe_servers t.2) as [[servers gpu_ok]|x]; [|done]. cbn [snd].
  match goal with |- context [_publish_model_catalog ?i ?a ?x] =>
    pose proof (publish_served (H0 := t.1) i a x) as Hp; pose proof (publish_ok (H0 := t.1) i a x) as Ho;
    destruct (_publish_model_catalog (H0 := t.1) i a x) as [r b'] end.
  cbn [fst snd] in *. subst r. cbn [mret B_ret snd]. destruct Hp as (-> & -> & ->).
  cbn [set_served bt_served]. split_and!; [done..|]. unfold note_served.
  by destruct (debounce_served _ _ _).
Qed.

(** When ollama is advertised: it was seen [j] observations ago, fewer than three, and vLLM
    was not advertised then nor since, that is, not seen in the last [j + 3] observations. *)
Definition stands (h : list (list string)) : Prop :=
  ∃ j, age "ollama" h = Some j ∧ j < 3 ∧ ∀ a, age "vllm" h = Some a → j + 3 ≤ a.
Lemma stands_step o h :
  stands (o :: h) ↔ ¬ lately "vllm" (o :: h) ∧
    ("ollama" ∈ o ∨ stands h ∧ ∃ j, age "ollama" h = Some j ∧ j + 1 < 3).
Proof.
  rewrite lately_age. unfold stands. cbn [age].
  assert (∀ k n, age k h = Some n → 0 ≤ n) as Hpos by (intros; by eapply age_nonneg).
  destruct (bool_decide_reflect ("ollama" ∈ o)) as [Ho|Ho], (bool_decide_reflect ("vllm" ∈ o)) as [Hv|Hv];
    destruct (age "ollama" h) as [n|] eqn:Eo, (age "vllm" h) as [a|] eqn:Ev; simpl;
    try specialize (Hpos _ _ Eo) as Hn; try specialize (Hpos _ _ Ev) as Ha; split;
    intros Hx; repeat match goal with
      | H : _ ∧ _ |- _ => destruct H
      | H : ∃ _, _ |- _ => destruct H
      | H : _ ∨ _ |- _ => destruct H
      | H : Some _ = Some _ |- _ => injection H as <-
      | H : None = Some _ |- _ => discriminate H
      | H : ∀ _, Some ?x = Some _ → _ |- _ => specialize (H x eq_refl)
      | H : ¬ ∃ j, Some ?x = Some j ∧ _ |- _ =>
          assert (3 ≤ x) by (destruct (Z.lt_ge_cases x 3); [destruct H; eauto|done]); clear H
      end; try contradiction; try lia.
  all: try (eexists; split_and!; [reflexivity|lia|intros; simplify_eq/=; lia]).
  all: split; [intros (? & ? & ?); simplify_eq/=; lia|]; try (by left).
  all: right; split; eexists; split_and!; [reflexivity|lia|intros; simplify_eq/=; lia|reflexivity|lia].
Qed.

Definition kinds_ok (h : list (list string)) (s : served_state) : Prop :=
  tracks_all "vllm" h (_box_served s) (_served_miss_counts s) ∧
  tracks "ollama" h (_box_served s) (_served_miss_counts s) ∧
  (_box_served s = [] ∨ _box_served s = ["ollama"] ∨ _box_served s = ["vllm"]) ∧
  ("ollama" ∈ _box_served s ↔ stands h).
Lemma kinds_ok_step h o g s : kinds_ok h s → kinds_ok (o :: h) (note_served g o s).
Proof.
  intros (Hv & Ho & Hk & Hst). unfold note_served.
  pose proof (debounce_served_counts o (_box_served s) (_served_miss_counts s)) as Hd.
  destruct (debounce_served _ _ _) as [st m']. unfold kinds_ok. cbn [_box_served _served_miss_counts].
  assert (tracks_all "vllm" (o :: h) (advertise st) m') as Hall.
  { destruct (Hd "vllm") as [Hc Hkeep]. assert ("vllm" ∈ advertise st ↔ "vllm" ∈ st) as Ha
      by (rewrite advertise_eq; repeat case_bool_decide; set_solver).
    eapply tracks_all_step; [done| |]; unfold counts, keeps in *; by rewrite Ha. }
  split_and!; [done| | |].
  - eapply tracks_step; [done|]. intros Hin. apply advertised_elem in Hin as [_ Hin]. by apply (proj1 (Hd "ollama")).
  - rewrite advertise_eq. repeat case_bool_decide; eauto.
  - assert ("vllm" ∈ st ↔ lately "vllm" (o :: h)) as Hvl.
    { destruct Hall as [Ht Hl]. assert ("vllm" ∈ advertise st ↔ "vllm" ∈ st) as <-
        by (rewrite advertise_eq; repeat case_bool_decide; set_solver).
      split; [|exact Hl]. intros Hin. destruct (Ht Hin) as [E Hlt]. apply lately_age. eauto. }
    assert ("ollama" ∈ advertise st ↔ "vllm" ∉ st ∧ "ollama" ∈ st) as ->
      by (rewrite advertise_eq; repeat case_bool_decide; set_solver).
    rewrite stands_step, Hvl, <- Hst. destruct (Hd "ollama") as [Hc [Hk1 Hk2]]. split.
    + intros [Hn Hin]. split; [done|]. destruct (Hc Hin) as [[? _]|(_ & Hh & E & Hlt)]; [by left|right].
      split; [done|]. destruct (Ho Hh) as [Ea _]. exists (missed (_served_miss_counts s) "ollama"). split; [done|lia].
    + intros [Hn [Hin|[Hh (j & Ej & Hj)]]]; (split; [done|]); [auto|].
      apply Hk2; [done|]. destruct (Ho Hh) as [Ea _]. rewrite Ej in Ea. injection Ea as ->. lia.
Qed.
Lemma observations_snoc ticks t :
  observations (ticks ++ [t]) =
  match observed_at t with Some o => o :: observations ticks | None => observations ticks end.
Proof. unfold observations. rewrite reverse_app. simpl. by destruct (observed_at t). Qed.
Lemma kinds_ok_run rows w ticks :
  kinds_ok (observations ticks) (bt_served (foldl probe_step (fresh_beat rows w) ticks)).
Proof.
  induction ticks as [|t ticks IH] using rev_ind.
  { split_and!; [split; [intros []%not_elem_of_nil|by intros (o & []%not_elem_of_nil & _)]|intros []%not_elem_of_nil|by left|].
    split; [intros []%not_elem_of_nil|by intros (j & ? & _)]. }
  rewrite foldl_app, observations_snoc. cbn [foldl]. set (b := foldl _ _ ticks) in *.
  pose proof (probe_step_eq b t) as Hs. unfold observed_at.
  destruct (observe_servers t.2) as [[servers gpu_ok]|x]; [|by rewrite Hs].
  cbv zeta in Hs. destruct Hs as (E1 & E2 & _). unfold kinds_ok. rewrite E1, E2. by apply kinds_ok_step.
Qed.
End served.

(** C36: What a box advertises after any sequence of probes, for both kinds.  vLLM joins at
    once and leaves at its third miss in a row: it is advertised exactly when one of the
    last three probes that gave an answer saw it, and then it is advertised alone.  Ollama
    is advertised exactly when it was seen [j] probes ago, [j] below three, and vLLM was
    not seen in the last [j + 3], that is, not advertised then nor since.  So beside no vLLM
    it joins at once and leaves at its third miss too, while a miss is not forgiven if vLLM
    was still advertised when ollama was last seen ([ollama_is_not_debounced_under_vllm]).
    A probe that finds the servers off the card counts as one that saw none, and the gate
    that tells so, which keeps jobs off a server on the CPU, follows the last probe
    undebounced. *)
Theorem served_kinds_are_debounced `{PyEnv} rows w ticks :
  let s := bt_served (foldl probe_step (fresh_beat rows w) ticks) in
  let h := observations ticks in
  ("vllm" ∈ _box_served s ↔ lately "vllm" h) ∧
  ("vllm" ∈ _box_served s → _box_served s = ["vllm"]) ∧
  ("ollama" ∈ _box_served s ↔
     ∃ j, age "ollama" h = Some j ∧ j < 3 ∧ ∀ a, age "vllm" h = Some a → j + 3 ≤ a) ∧
  (age "vllm" h = None → ("ollama" ∈ _box_served s ↔ lately "ollama" h)) ∧
  (∀ k, k ∈ _box_served s → lately k h) ∧
  (∀ before t servers ok, ticks = before ++ [t] → @observe_servers t.1 t.2 = Ok (servers, ok) →
     _llm_gpu_ok s = ok ∧
     ∀ k, k ∈ KINDS → ok = true → k ∈ servers → k ∈ _box_served s ∨ lately "vllm" h).
Proof.
  cbv zeta. destruct (kinds_ok_run rows w ticks) as ([Hv Hl] & Ho & Hk & Hst).
  set (s := bt_served _) in *. set (h := observations ticks) in *.
  assert (∀ k, tracks k h (_box_served s) (_served_miss_counts s) → k ∈ _box_served s → lately k h) as Hlate.
  { intros k Ht Hin. destruct (Ht Hin) as [E Hlt]. apply lately_age. eauto. }
  split_and!; [split; auto|intros Hin; destruct Hk as [E|[E|E]]; rewrite E in Hin |- *; set_solver|exact Hst| | |].
  - intros Hno. rewrite Hst, lately_age. unfold stands. rewrite Hno. naive_solver.
  - intros k Hin. assert (k = "vllm" ∨ k = "ollama") as [-> | ->]; [|auto..].
    destruct Hk as [E|[E|E]]; rewrite E in Hin; set_solver.
  - intros before t servers ok Et E. subst ticks s. rewrite foldl_app in *. cbn [foldl] in *.
    pose proof (probe_step_eq (foldl probe_step (fresh_beat rows w) before) t) as Hs. rewrite E in Hs.
    cbv zeta in Hs. destruct Hs as (E1 & _ & E3). split; [done|]. intros k Hin -> Hserv.
    assert (k = "ollama" ∨ k = "vllm") as [-> | ->] by (unfold KINDS in Hin; set_solver).
    + destruct (base.decide ("vllm" ∈ _box_served (bt_served (probe_step (foldl probe_step (fresh_beat rows w) before) t))))
        as [|Hnv]; [right; auto|left]. rewrite E1. unfold note_served.
      pose proof (debounce_served_counts servers) as Hd.
      specialize (Hd (_box_served (bt_served (foldl probe_step (fresh_beat rows w) before)))
        (_served_miss_counts (bt_served (foldl probe_step (fresh_beat rows w) before)))).
      rewrite E1 in Hnv. unfold note_served in Hnv.
      destruct (debounce_served _ _ _) as [st m']. cbn [_box_served] in *.
      destruct (Hd "ollama") as [_ [Hkeep _]]. rewrite advertise_eq in *. repeat case_bool_decide; set_solver.
    + right. subst h. rewrite observations_snoc. unfold observed_at. rewrite E. exists servers. split; [simpl; left|done].
Qed.

(** ** What a tick leaves alone *)

Section frames.
Context (R : beat → beat → Prop) `{!PreOrder R}.

(** [m] moves the state along [R], whatever it returns *)
Definition moves {A} (m : B A) : Prop := ∀ b, R b (m b).2.

Lemma moves_ret {A} (a : A) : moves (mret a).
Proof. intros b. reflexivity. Qed.
Lemma moves_lift {A} (r : result A) : moves (lift_b r).
Proof. intros b. reflexivity. Qed.
Lemma moves_reads {A} (f : beat → result A) : moves (reads f).
Proof. intros b. reflexivity. Qed.
Lemma moves_gets {A} (f : beat → A) : moves (gets f).
Proof. intros b. reflexivity. Qed.
Lemma moves_bind {A C} (m : B A) (f : A → B C) : moves m → (∀ a, moves (f a)) → moves (a ← m; f a).
Proof.
  intros Hm Hf b. unfold mbind, B_bind. specialize (Hm b). destruct (m b) as [[a|x] b1]; [|done].
  simpl in Hm. etransitivity; [exact Hm|apply Hf].
Qed.
Lemma moves_catch {A} (d : A) (m : B A) : moves m → moves (catch_b d m).
Proof. intros Hm b. specialize (Hm b). unfold catch_b. by destruct (m b) as [[a|x] b1]. Qed.
Lemma moves_if {A} (c : bool) (m1 m2 : B A) : moves m1 → moves m2 → moves (if c then m1 else m2).
Proof. by destruct c. Qed.
Lemma moves_modify f : (∀ b, R b (f b)) → moves (modify_b f).
Proof. done. Qed.
End frames.
Create HintDb frames.
#[export] Hint Resolve moves_ret moves_lift moves_reads moves_gets moves_catch : frames.
#[export] Hint Extern 0 (PreOrder _) => typeclasses eauto : frames.
Ltac framing :=
  repeat first
    [ progress intros
    | solve [eauto with frames]
    | apply moves_bind; [typeclasses eauto| |]
    | apply moves_if
    | match goal with |- moves _ (match ?x with _ => _ end) => destruct x end ].

(** The observation of the window touches its own state, the memory of starts and the
    catalog, *)
Definition same_box (b b' : beat) : Prop :=
  bt_served b' = bt_served b ∧ bt_residents b' = bt_residents b ∧ bt_world b' = bt_world b ∧ bt_vram b' = bt_vram b.
#[export] Instance same_box_pre : PreOrder same_box.
Proof. split; [by intros b|]. intros b1 b2 b3 (? & ? & ? & ?) (? & ? & ? & ?). unfold same_box. by repeat split; congruence. Qed.
Lemma moves_window f : moves same_box (upd_window f).
Proof. done. Qed.
Lemma moves_start f : moves same_box (upd_start f).
Proof. done. Qed.
Lemma moves_rows f : moves same_box (modify_b (λ b, set_rows (f b) b)).
Proof. done. Qed.
#[export] Hint Resolve moves_window moves_start moves_rows : frames.

(** and without a window of vLLM to remember, the worker remembers none. *)
Definition same_start (b b' : beat) : Prop :=
  bt_start b' = bt_start b ∧ _ctx_last_window (bt_window b') = _ctx_last_window (bt_window b).
#[export] Instance same_start_pre : PreOrder same_start.
Proof. split; [by intros b|]. intros b1 b2 b3 (? & ?) (? & ?). unfold same_start. by split; congruence. Qed.
Lemma moves_start_window f :
  (∀ s, _ctx_last_window (f s) = _ctx_last_window s) → moves same_start (upd_window f).
Proof. intros Hf b. by split; [|apply Hf]. Qed.
#[export] Hint Extern 1 (moves same_start (upd_window _)) => apply moves_start_window; done : frames.

Section window_lemmas.
Context `{PyEnv} `{Http} `{WorkerEnv} `{QueueConfig}.
Implicit Types (i : beat_in) (b : beat).

Lemma moves_model_info R `{!PreOrder R} url m :
  (∀ k d, moves R (upd_window (set_info k d))) → moves R (_ollama_model_info url m).
Proof. intros Hu. unfold _ollama_model_info. framing. Qed.
Lemma moves_info_box url m : moves same_box (_ollama_model_info url m).
Proof. apply moves_model_info; [typeclasses eauto|]. eauto with frames. Qed.
Lemma moves_info_start url m : moves same_start (_ollama_model_info url m).
Proof. apply moves_model_info; [typeclasses eauto|]. eauto with frames. Qed.
#[local] Hint Resolve moves_info_box moves_info_start : frames.

Lemma moves_kind i kind : moves same_box (_llm_context_for_kind i kind).
Proof. unfold _llm_context_for_kind, ollama_window, ollama_current, _seeded_window. framing. Qed.
#[local] Hint Resolve moves_kind : frames.
Lemma moves_kinds i kinds : moves same_box (read_kinds i kinds).
Proof. induction kinds as [|k r IH]; cbn [read_kinds]; framing. Qed.
Lemma moves_admission i served w : moves same_box (_observe_admission i served w).
Proof. unfold _observe_admission, admission_per_token. framing. Qed.
Lemma moves_admission_start i served w : moves same_start (_observe_admission i served w).
Proof. unfold _observe_admission, admission_per_token. framing. Qed.
Lemma moves_profile i : moves same_box (_observe_vllm_profile i).
Proof. unfold _observe_vllm_profile. framing. Qed.
#[local] Hint Resolve moves_kinds moves_admission moves_profile : frames.
Lemma moves_observe i : moves same_box (_observe_llm_context i).
Proof. unfold _observe_llm_context, observe_windows. framing. apply moves_catch. framing. Qed.
End window_lemmas.

(** ** The pair a box publishes *)

Lemma B_bind_inv {A C} (m : B A) (f : A → B C) b r b' :
  (a ← m; f a) b = (Ok r, b') → ∃ a b1, m b = (Ok a, b1) ∧ f a b1 = (Ok r, b').
Proof. unfold mbind, B_bind. destruct (m b) as [[a|x] b1]; [eauto|done]. Qed.

Lemma smallest_spec l w : smallest l = Some w → l ≠ [] ∧ ∀ c, c ∈ l → ∃ x, c = Some x ∧ w ≤ x.
Proof.
  unfold smallest. destruct (mapM id l) as [[|c r]|] eqn:E; try done. intros [= <-].
  apply mapM_Some_1 in E. split; [intros ->; inversion E|]. intros c' Hc.
  assert (∃ x, c' = Some x ∧ x ∈ c :: r) as (x & -> & Hx).
  { revert Hc E. generalize (c :: r). clear. intros l' Hc E. induction E as [|a x l l' Ha _ IH]; [set_solver|].
    apply elem_of_cons in Hc as [-> |Hc]; [exists x; split; [exact Ha|left]|].
    destruct (IH Hc) as (y & -> & Hy). exists y. split; [done|by right]. }
  exists x. split; [done|]. clear -Hx. induction r as [|y r IH]; [assert (x = c) as -> by set_solver; simpl; lia|].
  simpl. apply elem_of_cons in Hx as [-> |[-> |Hx]%elem_of_cons]; [specialize (IH ltac:(left)); lia|lia|].
  specialize (IH ltac:(by right)). lia.
Qed.
Lemma largest_single c : largest [c] = Some c.
Proof. done. Qed.

Section published.
Context `{PyEnv} `{Http} `{WorkerEnv} `{QueueConfig}.
Implicit Types (i : beat_in) (b : beat).

(** What a window that was read says of the server *)
Definition window_of i (kind : string) (x : Z) : Prop :=
  if String.eqb kind SERVER_TYPE_VLLM then vllm_max_model_len (Some (b_url i SERVER_TYPE_VLLM)) = Some x
  else ∀ info c, b_describe i kind = Ok info → sc_configured info = Some c → x ≤ c.

Lemma ollama_window_spec i kind grow b cur ceil b' :
  ollama_window i kind grow b = (Ok (cur, ceil), b') →
  (∀ info c x, b_describe i kind = Ok info → sc_configured info = Some c → cur = Some x → x ≤ c) ∧
  (grow = false → ceil = cur).
Proof.
  unfold ollama_window. intros (u1 & b1 & _ & E)%B_bind_inv. apply B_bind_inv in E as (info & b2 & Ei & E).
  apply B_bind_inv in E as (current & b3 & Ec & E). apply B_bind_inv in E as (last & b4 & _ & E).
  apply B_bind_inv in E as (model_max & b5 & _ & E). injection Ei as Ei _.
  set (cur' := match current with Some c => _ | None => _ end) in E.
  assert (cur = cur' ∧ (grow = false → ceil = cur')) as [-> Hg].
  { destruct grow; [|by injection E as <- <- _].
    destruct (match or_none (rn_name <$> _) with Some m => Some m | None => last end); [|by injection E as <- <- _].
    apply B_bind_inv in E as (? & ? & _ & E). apply B_bind_inv in E as (? & ? & _ & E).
    apply B_bind_inv in E as (? & ? & _ & E). by injection E as <- _ _. }
  split; [|done]. intros info' c x Hd Hc Hx. rewrite Ei in Hd. injection Hd as ->. rewrite Hc in Ec.
  unfold ollama_current in Ec. apply B_bind_inv in Ec as (? & ? & _ & Ec). injection Ec as <- _.
  subst cur'. destruct model_max; injection Hx as <-; lia.
Qed.
Lemma kind_window i kind b cur ceil b' :
  _llm_context_for_kind i kind b = (Ok (cur, ceil), b') →
  (∀ x, cur = Some x → window_of i kind x) ∧ (can_grow i kind = Ok false → ceil = cur).
Proof.
  unfold _llm_context_for_kind, window_of. intros (grow & b1 & Eg & E)%B_bind_inv. injection Eg as Eg ->.
  destruct (String.eqb kind SERVER_TYPE_VLLM) eqn:Ek.
  - injection E as E _. unfold vllm_window in E. rewrite Eg. destruct grow; simpl in E.
    + destruct vllm_model_max_context as [m|]; [|done]. simpl in E. injection E as E1 _. split; [by rewrite E1|done].
    + injection E as E1 E2. split; [by rewrite E1|congruence].
  - destruct (ollama_window_spec _ _ _ _ _ _ _ E) as [H1' H2']. split; [intros x -> info c; by eauto|].
    intros Hg. apply H2'. congruence.
Qed.
Lemma read_kinds_spec i kinds : ∀ b currents ceilings b',
  read_kinds i kinds b = (Ok (currents, ceilings), b') →
  Forall2 (λ kind cur, ∀ x, cur = Some x → window_of i kind x) kinds currents ∧
  (∀ kind, kinds = [kind] → can_grow i kind = Ok false → ∀ x, currents = [Some x] → ceilings = [x]).
Proof.
  induction kinds as [|kind kinds IH]; intros b currents ceilings b'; cbn [read_kinds].
  { intros [= <- <- <-]. split; [constructor|done]. }
  intros ([cur ceil] & b1 & Ec & E)%B_bind_inv. apply B_bind_inv in E as (u & b2 & _ & E).
  apply B_bind_inv in E as ([curs ceils] & b3 & Er & E). injection E as <- <- _.
  destruct (kind_window _ _ _ _ _ _ Ec) as [Hw Hg]. destruct (IH _ _ _ _ Er) as [Hr _]. simpl. split; [by constructor|].
  intros k [= -> ->] Hcg x [= -> ->]. injection Er as <- _. by rewrite (Hg Hcg).
Qed.

(** C37: A box never promises a window it does not serve.  When a heartbeat publishes a window,
    some kind is serving; the window is no larger than the one each serving vLLM reports,
    nor than the one a serving ollama is configured for; the window it says it could switch
    to is no smaller; and where a lone server cannot be resized that is the window itself.
    The pair the claims read is the pair published. *)
Theorem published_window_is_served i b w top b' (Hobs : _observe_llm_context i b = (Ok (Some w, top), b')) :
  let served := truthy_only (_box_served (bt_served b)) in
  _llm_context_state (bt_window b') = (Some w, top) ∧ served ≠ [] ∧
  (∀ kind, kind ∈ served → ∃ x, window_of i kind x ∧ w ≤ x) ∧
  (∀ m, top = Some m → w ≤ m) ∧
  (∀ kind, served = [kind] → can_grow i kind = Ok false → top = Some w).
Proof.
  cbv zeta. unfold _observe_llm_context in Hobs. apply B_bind_inv in Hobs as (state & b1 & E1 & E2).
  apply B_bind_inv in E2 as (u & b2 & E2 & E3). injection E2 as <- <-. injection E3 as -> <-. split; [done|].
  unfold catch_b in E1. destruct (observe_windows i b) as [[p|x] b2] eqn:Eo; [|done]. injection E1 as -> ->.
  unfold observe_windows in Eo. apply B_bind_inv in Eo as (served & b3 & Es & Eo). injection Es as Es ->.
  apply B_bind_inv in Eo as ([currents ceilings] & b4 & Er & Eo).
  apply B_bind_inv in Eo as (u1 & b5 & _ & Eo). apply B_bind_inv in Eo as (u2 & b6 & _ & Eo). injection Eo as Ep ->.
  rewrite Es. destruct served as [|k0 rest] eqn:Ek; [done|]. rewrite <- Ek in *. clear Ek.
  injection Ep as Hw Ht. destruct (smallest_spec _ _ Hw) as [Hne Hmin].
  destruct (read_kinds_spec _ _ _ _ _ _ Er) as [Hf Hs]. rewrite Hw in Ht. split_and!.
  - intros ->. inversion Hf. by subst.
  - intros kind Hk. apply list_elem_of_lookup in Hk as [n Hk]. destruct (Forall2_lookup_l _ _ _ _ _ Hf Hk) as (cur & Hc & Hx).
    apply list_elem_of_lookup_2 in Hc. destruct (Hmin _ Hc) as (x & -> & Hle). eauto.
  - intros m ->. destruct (largest ceilings); [|done]. injection Ht as <-. lia.
  - intros kind -> Hg. inversion Hf as [|? cur ? ? Hcur Hnil]; subst. inversion Hnil; subst.
    destruct (Hmin cur ltac:(left)) as (x & -> & Hle). rewrite (Hs kind eq_refl Hg x eq_refl) in *.
    injection Hw as <-. simpl. f_equal. lia.
Qed.

(** A vLLM that names no window makes its box publish none: the memory of its start asks the
    worker for a method it does not have, the exception takes the whole observation with it,
    and since the start is never marked as observed it does so on every heartbeat. *)
Lemma windowless_vllm_publishes_no_window i b info :
  _box_served (bt_served b) = [SERVER_TYPE_VLLM] → b_describe i SERVER_TYPE_VLLM = Ok info →
  sc_exists info = true → sc_running info = true → or_z (sc_configured info) None = None →
  dict_get SERVER_TYPE_VLLM (_ctx_last_window (bt_window b)) = None →
  _vllm_observed_key (bt_start b) ≠ Some (sc_container_id info, sc_started_at info) →
  let '(r, b') := _observe_llm_context i b in
  r = Ok (None, None) ∧ _llm_context_state (bt_window b') = (None, None) ∧
  _vllm_observed_key (bt_start b') = _vllm_observed_key (bt_start b).
Proof.
  intros Hs Hd He Hr Hc Hl Hk. unfold _observe_llm_context.
  assert (∃ x b', observe_windows i b = (Raise x, b') ∧ _vllm_observed_key (bt_start b') = _vllm_observed_key (bt_start b))
    as (x & b' & E & Eb); [|unfold mbind, B_bind, catch_b; by rewrite E].
  unfold observe_windows. unfold mbind at 1, B_bind at 1. unfold gets at 1. cbn [fst snd]. rewrite Hs.
  change (truthy_only [SERVER_TYPE_VLLM]) with [SERVER_TYPE_VLLM].
  assert (moves same_start (read_kinds i [SERVER_TYPE_VLLM])) as Hm1.
  { cbn [read_kinds]. unfold _llm_context_for_kind. cbn. framing. }
  specialize (Hm1 b). unfold mbind at 1, B_bind at 1. destruct (read_kinds i [SERVER_TYPE_VLLM] b) as [[[cs ces]|x] b1];
    [|exists x, b1; split; [done|]; destruct Hm1 as [Hm1 _]; simpl in Hm1; by rewrite Hm1].
  pose proof (moves_admission_start i [SERVER_TYPE_VLLM] (smallest cs) b1) as Hm2.
  unfold mbind at 1, B_bind at 1. destruct (_observe_admission i _ _ b1) as [[u|x] b2];
    [|exists x, b2; split; [done|]; destruct Hm1 as [Hm1 _], Hm2 as [Hm2 _]; simpl in Hm1, Hm2; by rewrite Hm2, Hm1].
  cbn [snd] in Hm1, Hm2. assert (same_start b b2) as [S1 S2] by by etransitivity.
  rewrite bool_decide_true by set_solver. unfold mbind at 1, B_bind at 1.
  assert (∃ x b', _observe_vllm_profile i b2 = (Raise x, b') ∧ _vllm_observed_key (bt_start b') = _vllm_observed_key (bt_start b2))
    as (x & b' & -> & Eb); [|exists x, b'; split; [done|]; by rewrite Eb, S1].
  unfold _observe_vllm_profile, mbind, B_bind, lift_b, gets, reads, upd_start, modify_b. rewrite Hd, He, Hr. cbn [negb orb].
  rewrite S1, bool_decide_false by done.
  unfold start_window. cbn [set_start bt_window]. rewrite S2, Hl. change (or_z None None) with (@None Z).
  rewrite Hc. eexists _, _. split; [reflexivity|]. cbn. by rewrite S1.
Qed.
End published.

(** ** The row a heartbeat writes *)

Section row.
Context `{PyEnv} `{Http} `{WorkerEnv} `{QueueConfig}.
Implicit Types (i : beat_in) (b : beat) (r : heartbeat).

Lemma heartbeats_set x w : heartbeats (set_heartbeats x w) = x.
Proof. by destruct w. Qed.
Lemma upsert_row host q conc cur known servers vram fits ctx w :
  ∃ r, let '(u, w') := upsert_worker_heartbeat host q conc cur (Some known) (Some servers) vram (Some fits) true None (Some ctx) w in
  u = Ok () ∧ r ∈ heartbeats w' ∧ is_beat host q (_project None) r = true ∧ Schema.concurrency r = conc ∧ Schema.current_model r = cur ∧
  known_models r = known ∧ llm_servers_available r = servers ∧ vram_total_mb r = vram ∧ fits_models r = fits ∧
  (llm_context_length r, llm_context_max r) = ctx ∧ last_seen r = clock w ∧ last_flagged_dead_at r = None.
Proof.
  unfold upsert_worker_heartbeat. destruct ctx as [len max]. destruct (exists_row _ _) eqn:E.
  - apply exists_row_true in E as (h & Hh & Hb). eexists. split; [done|]. split.
    + rewrite heartbeats_set. apply elem_of_update_where. exists h. split; [done|]. rewrite Hb. reflexivity.
    + destruct h; by split_and!.
  - eexists. split; [done|]. split; [rewrite heartbeats_set; apply elem_of_app; right; apply list_elem_of_singleton; reflexivity|].
    split_and!; try done. unfold is_beat. simpl. by rewrite !String.eqb_refl.
Qed.

Lemma vram_ok i b : ∃ v b1, _vram_total_mb i b = (Ok v, b1) ∧ b1 = set_vram (Some v) b ∨ _vram_total_mb i b = (Ok v, b).
Proof.
  unfold _vram_total_mb, mbind, B_bind, gets. destruct (bt_vram b) as [v|] eqn:E.
  - exists v, b. by right.
  - eexists _, _. left. split; [reflexivity|done].
Qed.
Lemma servers_ok i b : ∃ servers b1, _llm_servers i b = (Ok servers, b1) ∧
  (is_ok (observe_servers i) = true → servers = _box_served (bt_served b1)) ∧ bt_world b1 = bt_world b.
Proof.
  unfold _llm_servers, catch_b, _probe_llm_servers, mbind, B_bind, lift_b, modify_b, gets.
  destruct (observe_servers i) as [[servers ok]|x]; [|eexists _, _; split; [reflexivity|]; by split].
  match goal with |- context [_publish_model_catalog i ?a ?x] =>
    pose proof (publish_ok i a x) as Ho; pose proof (publish_served i a x) as (Hs & _);
    assert (bt_world (_publish_model_catalog i a x).2 = bt_world b) as Hw;
      [unfold _publish_model_catalog; destruct a; [done|]; destruct (observe_box_models _ _); [done|];
       by destruct (upsert_model_catalog _ _ _ _) as [[] ?]|];
    destruct (_publish_model_catalog i a x) as [u b1] end.
  cbn [fst snd] in *. subst u. eexists _, _. split; [reflexivity|]. split; [intros _; by rewrite Hs|done].
Qed.
Lemma context_ok i b : ∃ ctx b1, _llm_context i b = (Ok ctx, b1) ∧ _llm_context_state (bt_window b1) = ctx ∧ same_box b b1.
Proof.
  pose proof (moves_observe i b) as Hm. unfold _llm_context, catch_b. unfold _observe_llm_context, mbind, B_bind in *.
  unfold catch_b in *. destruct (observe_windows i b) as [[p|x] b1]; cbn in *; by eexists _, _.
Qed.

(** One row describes one box.  A heartbeat of a gpu worker never raises, and when the
    database answers it leaves a row of its worker, alive as of now, that offers the kinds
    the claims go by (unless the probe itself raised), the window the claims go by, a model
    only while the box holds it, a capacity of at least one, only models that fit among
    those it knows, and a window it could switch to no smaller than the one it serves. *)
Lemma heartbeat_describes_the_box i b width (Hdb : b_db i = Ok ()) :
  let b' := (emit_once i "gpu" width b).2 in
  (emit_once i "gpu" width b).1 = Ok () ∧
  ∃ r, r ∈ heartbeats (bt_world b') ∧ is_beat (b_host i) "gpu" (_project None) r = true ∧
    last_seen r = clock (bt_world b) ∧ last_flagged_dead_at r = None ∧
    (is_ok (observe_servers i) = true → llm_servers_available r = _box_served (bt_served b')) ∧
    (llm_context_length r, llm_context_max r) = _llm_context_state (bt_window b') ∧
    Schema.current_model r = _current_model i b' ∧ 1 ≤ Schema.concurrency r ∧
    (∀ m, m ∈ fits_models r → m ∈ known_models r).
Proof.
  cbv zeta. unfold emit_once. cbn [String.eqb Ascii.eqb Bool.eqb]. change (String.eqb "gpu" "gpu") with true. cbv iota.
  unfold catch_b, emit_gpu. unfold mbind, B_bind.
  assert (∃ v b0, _vram_total_mb i b = (Ok v, b0) ∧ bt_world b0 = bt_world b) as (v & b0 & -> & W0).
  { destruct (vram_ok i b) as (v & b1 & [[E ->]|E]); eauto. }
  destruct (servers_ok i b0) as (servers & b1 & -> & Hs & W1). unfold gets. cbn [fst snd].
  destruct (context_ok i b1) as (ctx & b2 & -> & Hc & (S1 & S2 & S3 & S4)).
  unfold upsert_b, mbind, B_bind, lift_b, on_world. rewrite Hdb.
  set (known := _known_models i b1 _). set (fits := _fits_models i known v). set (conc := _concurrency i b1).
  destruct (upsert_row (b_host i) "gpu" conc (_current_model i b2) known servers v fits ctx (bt_world b2)) as [r Hr].
  destruct (upsert_worker_heartbeat _ _ _ _ _ _ _ _ _ _ _ _) as [u w'].
  destruct Hr as (-> & Hin & Hb & Hconc & Hcur & Hknown & Hserv & _ & Hfits & Hctx & Hseen & Hdead).
  cbn [fst snd set_world bt_world bt_served bt_window]. split; [done|]. exists r. split_and!; try done.
  - by rewrite Hseen, S3, W1, W0.
  - intros Hok. by rewrite Hserv, S1, (Hs Hok).
  - by rewrite Hctx, Hc.
  - rewrite Hconc. unfold conc, _concurrency. destruct (_gpu_slot_budget _); lia.
  - intros m. rewrite Hfits, Hknown. unfold fits, _fits_models. intros [_ Hm]%elem_of_Lfilter.
    by apply bool_decide_eq_true in Hm.
Qed.
End row.

(** *** What may be loaded *)

(** A model a worker still offers after the memory gate is on the box, or fits in what is
    free beside the reserve and the cache of the window, or the box cannot say; a model a
    server holds is never taken out of the offer. *)
Lemma offered_models_can_be_loaded a ids m :
  (m ∈ _narrow_by_memory (Some a) ids → m ∈ ids ∧
     (canonical_tag m ∈ map canonical_tag (adm_resident a) ∨
      ∀ weights available, dict_get (canonical_tag m) (tagged_sizes (adm_sizes a)) = Some weights →
        adm_available a = Some available → weights + adm_kv a ≤ available - adm_reserve a)) ∧
  (m ∈ ids → canonical_tag m ∈ map canonical_tag (adm_resident a) → m ∈ _narrow_by_memory (Some a) ids).
Proof.
  unfold _narrow_by_memory. rewrite elem_of_Lfilter. unfold loadable. split.
  - intros [Hin Hl]. split; [done|]. apply orb_true_iff in Hl as [Hl|Hl]; [left; by apply bool_decide_eq_true in Hl|].
    right. intros weights available Hw Ha. rewrite Hw, Ha in Hl. simpl in Hl.
    destruct (Z.leb_spec (weights + adm_kv a) (available - adm_reserve a)); [done|]. done.
  - intros Hin Hr. split; [done|]. by rewrite bool_decide_true.
Qed.

(** ** Witnesses *)

Module BeatDemo.
#[export] Existing Instance Demo.py.
#[export] Existing Instance Demo.cfg.
#[export] Instance env : WorkerEnv := {|
  os_environ := []; config_cpu_worker_threads := JInt 1; config_gpu_box_max_concurrent := JNull |}.

(** A box with an ollama at one address and a vLLM at another, each up or not; ollama has a
    model of 20 GB on its disk *)
Definition net (o v : bool) : Http := {|
  http_get u := Ok (if (o && String.eqb u "http://o/api/tags") || (v && String.eqb u "http://v/v1/models")
                    then Some 200 else None);
  http_json u := Ok (
    if String.eqb u "http://v/v1/models" then JObj [("data", JArr [JObj [("id", JStr "chat-a"); ("max_model_len", JInt 8192)]])]
    else if String.eqb u "http://o/api/tags"
    then JObj [("models", JArr [JObj [("name", JStr "chat-a"); ("size", JInt (20 * 2 ^ 30))]])]
    else JObj []);
  http_text _ := Raise (OtherError "URLError");
  http_post _ _ := Ok 200;
  http_post_json _ _ := Ok JNull;
|}.
Definition server (window : option Z) : ServerContainer :=
  mkServer "vllm" "vllm" true true window None false None None None None (Some "chat-a") (Some "f1") (Some "c1") (Some "t1").
Definition input (window : option Z) (available_kb : string) (collect : result (list Resident)) : beat_in :=
  mkBeatIn "box-a-gpu" 100 (λ k, if String.eqb k "vllm" then "http://v" else "http://o") (Ok ())
    [("chat-a", mkModelSpec "chat-a" 20 ["ollama"] None)] (Ok true) (λ _, Ok false) (λ _, false)
    (λ _, Ok (server window)) None (Some ["MemAvailable: " +:+ available_kb +:+ " kB"]) collect (Ok (Some 131072)) None None ["ollama"] LaneDemo.v.
Definition holding (l : list string) : beat_in := input (Some 8192) "1000" (Ok (map (λ m, mkResident OLLAMA m 0 false) l)).
Definition dark : beat_in := input (Some 8192) "1000" (Raise (OtherError "URLError")).
Definition b0 : beat := fresh_beat [] Demo.empty_world.
Definition plenty : string := "67108864".
Definition scarce : string := "16777216".
Definition tick (o v : bool) : Http * beat_in := (net o v, input (Some 8192) plenty (Ok [])).
Definition serving (o v : bool) : beat := probe_step b0 (tick o v).
End BeatDemo.
Import BeatDemo.

(** Once vLLM was offered, ollama is no longer debounced: the box keeps only what it
    advertised, so in the tick that drops vLLM a single missed probe of ollama leaves the
    box with nothing, although without vLLM one miss is forgiven. *)
Lemma ollama_is_not_debounced_under_vllm :
  let with_vllm := [tick true true; tick true true; tick true false; tick true false; tick false false] in
  let alone := [tick true false; tick true false; tick false false] in
  lately "ollama" (observations with_vllm) ∧
  _box_served (bt_served (foldl probe_step b0 with_vllm)) = [] ∧
  _box_served (bt_served (foldl probe_step b0 alone)) = ["ollama"].
Proof.
  split_and!; [|by vm_compute..]. exists ["ollama"]. split; [|left].
  assert (take 3 (observations [tick true true; tick true true; tick true false; tick true false; tick false false])
    = [[]; ["ollama"]; ["ollama"]]) as -> by by vm_compute. right. left.
Qed.

(** The models a row offers were judged by the memory of the heartbeat before: the gate is
    read before the tick observes what it could load.  The row still offers a model whose
    20 GB no longer fit, while the state the same tick leaves refuses it. *)
Lemma offer_lags_the_memory :
  let beat_at kb b := (@emit_once _ (net true false) _ _ (input (Some 8192) kb (Ok [])) "gpu" None b).2 in
  let b1 := beat_at plenty b0 in
  let b2 := beat_at scarce b1 in
  known_models <$> head (heartbeats (bt_world b2)) = Some ["chat-a"] ∧
  _known_models (input (Some 8192) scarce (Ok [])) b2 ["chat-a"] = [].
Proof. by vm_compute. Qed.

(** A serving vLLM whose command line names no window *)
Lemma windowless_vllm_demo :
  let i := input None plenty (Ok []) in
  @vllm_max_model_len (net false true) (Some "http://v") = Some 8192 ∧
  (@_observe_llm_context _ (net false true) _ _ i (serving false true)).1 = Ok (None, None) ∧
  (@_observe_llm_context _ (net false true) _ _ (input (Some 8192) plenty (Ok [])) (serving false true)).1
    = Ok (Some 8192, Some 8192).
Proof. by vm_compute. Qed.

Lemma published_window_is_served_witness :
  ∃ b', @_observe_llm_context _ (net false true) _ _ (input (Some 8192) plenty (Ok [])) (serving false true)
          = (Ok (Some 8192, Some 8192), b') ∧
        ∃ x, @window_of (net false true) (input (Some 8192) plenty (Ok [])) "vllm" x ∧ 8192 ≤ x.
Proof.
  set (r := @_observe_llm_context _ (net false true) _ _ (input (Some 8192) plenty (Ok [])) (serving false true)).
  assert (r = (Ok (Some 8192, Some 8192), r.2)) as E by (vm_compute; reflexivity).
  exists r.2. split; [exact E|].
  destruct (@published_window_is_served _ (net false true) _ _ _ _ _ _ _ E) as (_ & _ & Hw & _).
  apply Hw. vm_compute. left.
Defined.

Lemma heartbeat_describes_the_box_witness :
  let b' := (@emit_once _ (net false true) _ _ (input (Some 8192) plenty (Ok [])) "gpu" None b0).2 in
  ∃ r, r ∈ heartbeats (bt_world b') ∧ llm_servers_available r = ["vllm"].
Proof.
  destruct (@heartbeat_describes_the_box _ (net false true) _ _ (input (Some 8192) plenty (Ok [])) b0 None eq_refl)
    as (_ & r & Hr & _ & _ & _ & Hs & _).
  exists r. split; [exact Hr|]. rewrite Hs by (by vm_compute). by vm_compute.
Defined.
