(* ===== verification/Hold.v ===== *)
(** * A box that serves nobody ([queue_workflows/claim_worker.py])

    The two states in which a gpu worker keeps its box free of the broker's own LLM
    servers: parked by the operator, and held for a cluster reservation (a server the
    engine does not run).  Here [WorkerControl], the reservations of [Claim], the
    switch driver [BoxDriver], the watchdog of [IdleUnload] and the box lease meet.

    A lane is the box as its driver sees it, the reservations it holds (with the
    memory of each one's watchdog), and the registry of its pool jobs with their
    cancel flags. *)

From S2P Require Import Prelude Json Refs Schema NodeQueue Claim WorkerLanes WorkerControl ServerSwitch ModelLease.
From S2P Require Import Residency LlmContext IdleUnload BoxDriver.
Local Open Scope Z_scope.

Definition CLUSTER_HOLD_DRAIN_MAX_S : Z := 30 * SECOND.
Definition CLUSTER_RESERVATION_ACQUIRE_MAX_S : Z := 120 * SECOND.

(** A hold: its watchdog's memory, or None when the reaper is disabled.  The purpose
    of a reservation is text for the log. *)
Record ClusterHold := mkClusterHold { h_quiesce : option (option Z) }.

Record lane := mkLane {
  ln_box : boxw;
  _cluster_holds : list (string * ClusterHold);
  _pool_jobs : list (string * (node_job * bool));
  ln_admission : admission;
}.
Definition set_box (b : boxw) (l : lane) : lane :=
  mkLane b (_cluster_holds l) (_pool_jobs l) (ln_admission l).
Definition set_holds (h : list (string * ClusterHold)) (l : lane) : lane :=
  mkLane (ln_box l) h (_pool_jobs l) (ln_admission l).
Definition set_jobs (j : list (string * (node_job * bool))) (l : lane) : lane :=
  mkLane (ln_box l) (_cluster_holds l) j (ln_admission l).
Definition on_box {A} (m : D A) (l : lane) : lane := set_box (m (ln_box l)).2 l.

(** ** Holds and the jobs beside them *)

Definition _cluster_hold_reason (l : lane) : option string :=
  match _cluster_holds l with
  | [] => None
  | (id, _) :: _ => Some ("the box is HELD for cluster reservation " +:+ PyStr.take 8 id)
  end.

Definition _register_pool_job (j : node_job) (l : lane) : lane :=
  set_jobs (dict_set (jid j) (j, false) (_pool_jobs l)) l.
Definition _unregister_pool_job (j : node_job) (l : lane) : lane :=
  set_jobs (dict_pop (jid j) (_pool_jobs l)) l.

(** Is this entry told to stop: it serves the LLM and is not the reservation itself *)
Definition signalled (keep : string) (kv : string * (node_job * bool)) : bool :=
  negb (String.eqb kv.1 keep) && _job_serves_llm kv.2.1.
Definition _cancel_inflight_llm_pool_jobs (keep : string) (l : lane) : list string * lane :=
  (map fst (List.filter (signalled keep) (_pool_jobs l)),
   set_jobs (map (λ kv, if signalled keep kv then (kv.1, (kv.2.1, true)) else kv) (_pool_jobs l)) l).

Definition _pool_jobs_beside_the_reservation (l : lane) : Z :=
  Z.of_nat (length (List.filter (λ kv, negb (dict_has kv.1 (_cluster_holds l))) (_pool_jobs l))).

(** Why this box must start no server.  The readings of the database fail open. *)
Definition _reservation_for_this_box `{QueueConfig} (host box q : string) : M (option node_job) :=
  try_except (cluster_reservation_for (Some host) (Some box) q None) (λ _, Some (mret None)).
Definition status_text (s : node_status) : string :=
  match s with Queued => "queued" | Running => "running" | _ => "?" end.
Definition _llm_starts_forbidden `{QueueConfig} (db : database) (host box q : string) (l : lane)
    : M (option string) :=
  match _cluster_hold_reason l with
  | Some held => mret (Some held)
  | None =>
      state ← try_except (desired_state_for db host q None) (λ _, Some (mret STATE_ON));
      if String.eqb state STATE_OFF then mret (Some "the box is PARKED"%string)
      else
        row ← _reservation_for_this_box host box q;
        mret (match (row : option node_job) with
              | Some r => Some ("cluster reservation " +:+ PyStr.take 8 (jid r) +:+ " is " +:+
                                status_text (status r) +:+ " for this box")
              | None => None
              end)
  end.

Section lane.
Context `{PyEnv} `{SwitchConfig} `{RefusalText}.
Context (lease : ModelLease).

(** One pass of a watchdog: what it does, and the levers it pulled *)
Definition quiesce_calls (e : park_env) (killed : bool) : list call :=
  if killed then
    (if vllm_up e then [CallStopVllm] else []) ++
    (match pe_models e with
     | Ok infos => match names_of infos with [] => [] | _ => [CallUnloadOllama] end
     | Raise _ => []
     end)
  else [].
(** Whether a tick reaches the kill *)
Definition kills (hold_off_max : Z) (e : park_env) (since : option Z) : bool :=
  if 0 <? _own_work_in_flight e then negb (pe_now e - default (pe_now e) since <? hold_off_max) else true.
Definition quiesce (hold_off_max : Z) (e : park_env) (since : option Z) (b : boxw) : option Z * boxw :=
  ((quiesce_tick hold_off_max e since).2,
   mkBoxw (bw_switch b) (bw_fs b) (bw_calls b ++ quiesce_calls e (kills hold_off_max e since))
     (_vllm_decision b) (_warm_started_at b) (_vllm_startup_losses b) (_mem_ok_since b) (_shed_at b)).

Definition with_in_flight (n : Z) (e : park_env) : park_env :=
  mkPark (pe_now e) (Some (Ok n)) (pe_activity e) (pe_container e) (pe_stop e) (pe_models e) (pe_unload e).

(** ** The cluster hold *)

Definition _begin_cluster_hold (o : obs) (disabled : bool) (j : node_job) (l : lane) : lane :=
  let hold := mkClusterHold (if disabled then None else Some None) in
  let l := set_holds (dict_set (jid j) hold (_cluster_holds l)) l in
  let l := on_box (_abandon_switch lease o false) l in
  (_cancel_inflight_llm_pool_jobs (jid j) l).2.

Definition _cluster_hold_tick (o : obs) (e : park_env) (id : string) (l : lane) : lane :=
  match dict_get id (_cluster_holds l) with
  | None => l
  | Some hold =>
      let l := on_box (_abandon_switch lease o true) l in
      match h_quiesce hold with
      | None => l
      | Some since =>
          let e := with_in_flight (_pool_jobs_beside_the_reservation l) e in
          let '(since, b) := quiesce CLUSTER_HOLD_DRAIN_MAX_S e since (ln_box l) in
          set_holds (dict_set id (mkClusterHold (Some since)) (_cluster_holds l)) (set_box b l)
      end
  end.

Definition _end_cluster_hold (id : string) (l : lane) : lane :=
  set_holds (dict_pop id (_cluster_holds l)) l.

(** One turn of the wait for the box lease *)
Record try_env := mkTry {
  t_clock : Z;
  t_lease_now : Z;
  t_contended : bool;
  t_obs : obs;
  t_park : park_env;
  t_ended : bool;
}.
Inductive acquired := Granted | GaveUp | Ended | Waiting.

Fixpoint acquire_loop (model id : string) (deadline : Z) (turns : list try_env) (l : lane) : acquired * lane :=
  match turns with
  | [] => (Waiting, l)
  | t :: r =>
      let '(granted, fs) := acquire lease (t_lease_now t) (t_contended t) model (bw_fs (ln_box l)) in
      let l := set_box (set_fs fs (ln_box l)) l in
      if granted
      then (Granted, mkLane (ln_box l) (_cluster_holds l) (_pool_jobs l)
                       (_box_acquire_granted model (ln_admission l)))
      else if deadline <=? t_clock t then (GaveUp, l)
      else
        let l := _cluster_hold_tick (t_obs t) (t_park t) id l in
        if t_ended t then (Ended, l) else acquire_loop model id deadline r l
  end.
Definition _acquire_box_for_reservation (model id : string) (started : Z) (turns : list try_env) (l : lane)
    : acquired * lane :=
  acquire_loop model id (started + CLUSTER_RESERVATION_ACQUIRE_MAX_S) turns l.

(** ** The park gate *)

(** One pass of a parked worker's wait: is it asked to stop, what it reads of its
    control row, and what its tick meets *)
Record park_turn := mkTurn {
  pt_stop : bool;
  pt_state : result string;
  pt_obs : obs;
  pt_park : park_env;
}.
Inductive gate := Resumed | StoppedParked | StillParked | Crashed (x : exc).

(** The card-release tick of a gpu lane: the switch ends, then the watchdog *)
Definition park_tick (t : park_turn) (since : option Z) (b : boxw) : option Z * boxw :=
  quiesce DEFAULT_HOLD_OFF_MAX_S (pt_park t) since (_abandon_switch lease (pt_obs t) true b).2.

(** A lost connection is reopened and the wait goes on; another error ends it. *)
Fixpoint park_wait (releases : bool) (turns : list park_turn) (since : option Z) (b : boxw) : gate * boxw :=
  match turns with
  | [] => (StillParked, b)
  | t :: r =>
      if pt_stop t then (StoppedParked, b)
      else match pt_state t with
           | Raise x => if bool_decide (x = OperationalError) then park_wait releases r since b else (Crashed x, b)
           | Ok state =>
               if negb (String.eqb state STATE_OFF) then (Resumed, b)
               else let '(since, b) := if releases then park_tick t since b else (since, b) in
                    park_wait releases r since b
           end
  end.

(** [_build_park_quiesce]: a gpu lane whose reaper is not disabled releases the card. *)
Definition releases_card (q : string) (disabled : bool) : bool := String.eqb q "gpu" && negb disabled.

Definition _park_until_enabled (q : string) (disabled : bool) (first : result string)
    (turns : list park_turn) (b : boxw) : gate * boxw :=
  match first with
  | Raise x => (Crashed x, b)
  | Ok state =>
      if negb (String.eqb state STATE_OFF) then (Resumed, b)
      else park_wait (releases_card q disabled) turns None b
  end.

(** [_drain_park_if_requested] at the boundary of the claim loop *)
Definition _drain_park_if_requested (q : string) (disabled : bool) (first : result string)
    (turns : list park_turn) (c : ctl) (b : boxw) : option gate * ctl * boxw :=
  if negb (drain_requested c) then (None, c, b)
  else let '(g, b) := _park_until_enabled q disabled first turns b in
       (Some g, match g with
                | Resumed | StoppedParked => mkCtl false (ctl_calls c)
                | _ => c
                end, b).
End lane.

(** * Lemmas *)

(** What happens on a lane while a reservation runs beside it: jobs come and go,
    reservations are taken and given back, watches tick, and the heartbeat drives the
    switch with what the lane tells it. *)
Inductive lane_event :=
  | Register (j : node_job)
  | Unregister (j : node_job)
  | Begin (o : obs) (disabled : bool) (j : node_job)
  | HoldTick (o : obs) (e : park_env) (id : string)
  | End_ (id : string)
  | Drive (o : obs).

(** A tick of the driver reads the hold first, then what else forbids a start. *)
Definition told (l : lane) (o : obs) : obs :=
  let why := match _cluster_hold_reason l with Some r => Some r | None => o_forbidden o end in
  let held := bool_decide (is_Some (_cluster_hold_reason l)) in
  mkObs (o_env o) (o_lease_now o) (o_hold_contended o) (o_release_contended o) why held
    (o_in_flight o) (o_ollama_loaded o) (o_vllm_loaded o) (o_answers o) (o_window o) (o_available o)
    (o_total o) (o_reserve o) (o_danger_floor o) (o_kill_floor o) (o_lever_off o) (o_info o) (o_profile o)
    (o_parallelism o) (o_min_utilization o) (o_min_concurrency o) (o_has_ollama o)
    (o_unload o) (o_stop o) (o_start o) (o_set_context o).

Section lane_lemmas.
Context `{PyEnv} `{SwitchConfig} `{RefusalText}.
Context (lease : ModelLease).
Implicit Types (l : lane) (b : boxw).

Definition lane_step (ev : lane_event) l : lane :=
  match ev with
  | Register j => _register_pool_job j l
  | Unregister j => _unregister_pool_job j l
  | Begin o disabled j => _begin_cluster_hold lease o disabled j l
  | HoldTick o e id => _cluster_hold_tick lease o e id l
  | End_ id => _end_cluster_hold id l
  | Drive o => on_box (_drive_server_switch lease (told l o)) l
  end.
Definition lane_run (evs : list lane_event) l : lane := foldl (λ l ev, lane_step ev l) l evs.

(** The hold of a reservation is there. *)
Definition holds_for (id : string) l : Prop := is_Some (dict_get id (_cluster_holds l)).

Lemma reason_while_held id l : holds_for id l → is_Some (_cluster_hold_reason l).
Proof. unfold holds_for, _cluster_hold_reason. destruct (_cluster_holds l) as [|[k v] r]; [by intros [? ?]|eauto]. Qed.

Lemma quiesce_starts m e since b :
  starts (quiesce m e since b).2 = starts b ∧ bw_switch (quiesce m e since b).2 = bw_switch b.
Proof.
  unfold quiesce, starts. simpl. rewrite List.filter_app. split; [|done].
  unfold quiesce_calls. destruct (kills m e since); simpl; [|by rewrite app_nil_r].
  destruct (vllm_up e); [|]; (destruct (pe_models e) as [infos|]; [destruct (names_of infos)|]);
    simpl; by rewrite app_nil_r.
Qed.

Lemma hold_tick_spec o e id l :
  let l' := _cluster_hold_tick lease o e id l in
  starts (ln_box l') = starts (ln_box l) ∧
  (holds_for id l → _state (bw_switch (ln_box l')) = IDLE) ∧
  (∀ id', holds_for id' l → holds_for id' l').
Proof.
  unfold _cluster_hold_tick, holds_for. destruct (dict_get id (_cluster_holds l)) as [hold|] eqn:E;
    [|split_and!; [done|by intros [? ?]|done]].
  destruct (abandon_switch_idle lease o true (ln_box l)) as [Hi Hs].
  destruct (h_quiesce hold) as [since|]; [|by split_and!].
  simpl. set (l1 := on_box _ l). set (e1 := with_in_flight _ e).
  destruct (quiesce_starts CLUSTER_HOLD_DRAIN_MAX_S e1 since (ln_box l1)) as [Hq1 Hq2].
  unfold quiesce in *. simpl in *. rewrite Hq1. split_and!; [done|by intros _|].
  intros id' Hid'. destruct (base.decide (id = id')) as [<-|Hne]; [rewrite dict_get_set_eq; by eexists|].
  by rewrite dict_get_set_ne.
Qed.

Lemma step_while_held id ev l :
  holds_for id l → ev ≠ End_ id →
  holds_for id (lane_step ev l) ∧ starts (ln_box (lane_step ev l)) = starts (ln_box l).
Proof.
  intros Hh Hne. destruct ev as [j|j|o d j|o e i|i|o]; simpl; try done.
  - split.
    + unfold _begin_cluster_hold, holds_for in *. simpl.
      destruct (base.decide (jid j = id)) as [<-|?]; [rewrite dict_get_set_eq; by eexists|by rewrite dict_get_set_ne].
    + apply (abandon_switch_idle lease o false).
  - destruct (hold_tick_spec o e i l) as (? & _ & ?). auto.
  - split; [|done]. unfold _end_cluster_hold, holds_for in *. simpl. by rewrite dict_get_pop_ne by congruence.
  - split; [done|]. destruct (reason_while_held id l Hh) as [why Hw].
    apply (drive_forbidden lease (told l o) (ln_box l) why). unfold told. simpl. rewrite Hw. simpl.
    unfold _cluster_hold_reason in Hw. destruct (_cluster_holds l) as [|[k v] r]; [done|]. by injection Hw as <-.
Qed.

Lemma run_while_held id (evs : list lane_event) l :
  End_ id ∉ evs → holds_for id l →
  holds_for id (lane_run evs l) ∧ starts (ln_box (lane_run evs l)) = starts (ln_box l).
Proof.
  revert l. induction evs as [|ev evs IH]; intros l Hno Hh; [done|]. simpl.
  apply not_elem_of_cons in Hno as [Hne Hno].
  destruct (step_while_held id ev l Hh (not_eq_sym Hne)) as [Hh' Hs]. rewrite <- Hs. by apply IH.
Qed.

(** C24: a held box starts no server.  From the moment a cluster reservation is held
    until it is given back, whatever else happens on the lane, one event after another
    (jobs, other reservations, watch ticks, heartbeats driving a switch), no lever that
    starts an LLM server is pulled: not the plain start, not the one that sets a window or a
    pool, and not the one that gives back the window of a resize, which starts the container
    too.  Every start path is told why, and a tick of the hold leaves no switch under way.
    (A heartbeat is one event here: what a tick does that was already past its check when
    the hold began is what [BoxDriver] says of a reservation that comes in mid-tick.) *)
Theorem held_box_starts_nothing `{QueueConfig} o disabled (j : node_job) (evs : list lane_event) l :
  End_ (jid j) ∉ evs →
  let l1 := _begin_cluster_hold lease o disabled j l in
  let l2 := lane_run evs l1 in
  starts (ln_box l2) = starts (ln_box l) ∧
  (∀ db host box q w, ∃ why, _llm_starts_forbidden db host box q l2 w = (Ok (Some why), w)) ∧
  (∀ o e, _state (bw_switch (ln_box (_cluster_hold_tick lease o e (jid j) l2))) = IDLE).
Proof.
  intros Hno l1 l2.
  assert (holds_for (jid j) l1 ∧ starts (ln_box l1) = starts (ln_box l)) as [Hh1 Hs1].
  { split; [|apply (abandon_switch_idle lease o false)].
    unfold holds_for, l1, _begin_cluster_hold. simpl. rewrite dict_get_set_eq. by eexists. }
  destruct (run_while_held (jid j) evs l1 Hno Hh1) as [Hh2 Hs2]. fold l2 in Hh2, Hs2.
  split_and!; [congruence| |].
  - intros db host box q w. destruct (reason_while_held _ _ Hh2) as [why Hw]. exists why.
    unfold _llm_starts_forbidden. by rewrite Hw.
  - intros o' e. by apply hold_tick_spec.
Qed.

(** A reservation clears its lane as it takes it.  When the hold begins, the
    switch under way ends with nothing started, the box lease it held is given back
    (so that the reservation's own acquire is not denied by it), and the cancel flag
    is set for exactly the other pool jobs that serve an LLM. *)
Lemma hold_begins_by_clearing_the_lane o disabled (j : node_job) l :
  let l' := _begin_cluster_hold lease o disabled j l in
  _state (bw_switch (ln_box l')) = IDLE ∧ starts (ln_box l') = starts (ln_box l) ∧
  (_state (bw_switch (ln_box l)) ≠ IDLE → o_release_contended o = false → free_of lease (bw_fs (ln_box l'))) ∧
  (∀ i id r c, _pool_jobs l !! i = Some (id, (r, c)) →
     _pool_jobs l' !! i = Some (id, (r, if negb (String.eqb id (jid j)) && _job_serves_llm r then true else c))).
Proof.
  intros l'. destruct (abandon_switch_idle lease o false (ln_box l)) as [Hi Hs].
  split_and!; [done|done| |].
  - intros Hne Hc. by apply (abandon_switch_spec lease o false (ln_box l) Hne).
  - intros i id r c Hl. unfold l', _begin_cluster_hold. simpl.
    change (map ?f (_pool_jobs l)) with (f <$> _pool_jobs l). rewrite list_lookup_fmap, Hl. simpl.
    unfold signalled. simpl. by destruct (negb _ && _).
Qed.

(** What the wait for the lease decides *)
Lemma acquire_loop_spec model id deadline turns l :
  match acquire_loop lease model id deadline turns l with
  | (Granted, l') => _box_active_jobs (ln_admission l') = _box_active_jobs (ln_admission l) + 1 ∧
      _box_held_model (ln_admission l') = Some model
  | (GaveUp, l') => (∃ t, t ∈ turns ∧ deadline ≤ t_clock t) ∧ ln_admission l' = ln_admission l
  | (Ended, l') => (∃ t, t ∈ turns ∧ t_ended t = true) ∧ ln_admission l' = ln_admission l
  | (Waiting, l') => (∀ t, t ∈ turns → t_clock t < deadline ∧ t_ended t = false) ∧ ln_admission l' = ln_admission l
  end ∧ starts (ln_box (acquire_loop lease model id deadline turns l).2) = starts (ln_box l).
Proof.
  revert l. induction turns as [|t turns IH]; intros l; simpl.
  { split; [split; [by intros t ?%not_elem_of_nil|done]|done]. }
  destruct (acquire lease _ _ model (bw_fs (ln_box l))) as [[] fs]; simpl; [done|].
  destruct (Z.leb_spec deadline (t_clock t)); simpl.
  { split; [split; [exists t; split; [by left|done]|done]|done]. }
  set (l1 := set_box _ l).
  destruct (hold_tick_spec (t_obs t) (t_park t) id l1) as (Hs & _).
  set (l2 := _cluster_hold_tick _ _ _ id l1) in *.
  assert (ln_admission l2 = ln_admission l) as Ha.
  { unfold l2, _cluster_hold_tick. destruct (dict_get id _) as [h|]; [|done].
    by destruct (h_quiesce h). }
  destruct (t_ended t) eqn:Et; simpl.
  { split; [split; [exists t; split; [by left|done]|done]|done]. }
  specialize (IH l2). destruct (acquire_loop lease model id deadline turns l2) as [[] l3]; simpl in *;
    rewrite Ha in IH; destruct IH as [IH1 IH2]; (split; [|by rewrite IH2]); try done.
  - destruct IH1 as ((t' & ? & ?) & ?). split; [|done]. exists t'. split; [by right|done].
  - destruct IH1 as ((t' & ? & ?) & ?). split; [|done]. exists t'. split; [by right|done].
  - destruct IH1 as (IH1 & ?). split; [|done]. intros t' [->|?]%elem_of_cons; auto.
Qed.

(** A reservation waits for its box, but not for ever.  The wait for the box
    lease ends granted, with the box recorded as held for the reservation, or gives
    up only once the ceiling has passed or the hold has ended; as long as it goes on
    the clock is below the ceiling; it starts no server. *)
Lemma reservation_waits_within_its_ceiling model id started turns l r l' :
  _acquire_box_for_reservation lease model id started turns l = (r, l') →
  starts (ln_box l') = starts (ln_box l) ∧
  match r with
  | Granted => _box_active_jobs (ln_admission l') = _box_active_jobs (ln_admission l) + 1 ∧
      _box_held_model (ln_admission l') = Some model
  | GaveUp => ∃ t, t ∈ turns ∧ started + CLUSTER_RESERVATION_ACQUIRE_MAX_S ≤ t_clock t
  | Ended => ∃ t, t ∈ turns ∧ t_ended t = true
  | Waiting => ∀ t, t ∈ turns → t_clock t < started + CLUSTER_RESERVATION_ACQUIRE_MAX_S
  end.
Proof.
  unfold _acquire_box_for_reservation. intros E.
  destruct (acquire_loop_spec model id (started + CLUSTER_RESERVATION_ACQUIRE_MAX_S) turns l) as [Hr Hs].
  rewrite E in Hr, Hs. split; [done|]. destruct r; [done|apply Hr..|]. intros t Ht. by apply Hr.
Qed.

(** ** The park gate *)

(** The turns that end the wait *)
Definition decides (t : park_turn) : bool :=
  pt_stop t ||
  match pt_state t with Raise x => negb (bool_decide (x = OperationalError)) | Ok s => negb (String.eqb s STATE_OFF) end.
Definition decision (turns : list park_turn) : gate :=
  match List.find decides turns with
  | None => StillParked
  | Some t => if pt_stop t then StoppedParked else match pt_state t with Ok _ => Resumed | Raise x => Crashed x end
  end.

Lemma park_tick_spec t since b :
  starts (park_tick lease t since b).2 = starts b ∧ _state (bw_switch (park_tick lease t since b).2) = IDLE.
Proof.
  unfold park_tick. destruct (abandon_switch_idle lease (pt_obs t) true b) as [Hi Hs].
  set (b1 := (_abandon_switch lease (pt_obs t) true b).2) in *.
  destruct (quiesce_starts DEFAULT_HOLD_OFF_MAX_S (pt_park t) since b1) as [Hq1 Hq2].
  by rewrite Hq1, Hq2.
Qed.

Lemma park_wait_spec releases turns since b :
  let r := park_wait lease releases turns since b in
  r.1 = decision turns ∧ starts r.2 = starts b ∧
  (_state (bw_switch b) = IDLE → _state (bw_switch r.2) = IDLE).
Proof.
  revert since b. unfold decision. induction turns as [|t turns IH]; intros since b; [done|]. simpl.
  unfold decides at 1. destruct (pt_stop t) eqn:Es; simpl; [by rewrite Es|].
  destruct (pt_state t) as [state|x] eqn:Ep.
  - destruct (String.eqb state STATE_OFF) eqn:Eo; simpl; [|by rewrite Es, Ep].
    destruct releases; [|apply IH].
    destruct (park_tick_spec t since b) as [Hs Hi]. destruct (park_tick lease t since b) as [since' b'].
    simpl in *. destruct (IH since' b') as (E1 & E2 & E3). rewrite E2, Hs. auto.
  - case_bool_decide; simpl; [apply IH|by rewrite Es, Ep].
Qed.

(** A worker that is off waits to be turned on.  The gate lets a worker claim
    only after a reading of its control row that is not off; it ends without one
    only when the worker is asked to stop, or on an error that is not a lost
    connection.  While it waits, a gpu lane starts no server, and once it has made
    one pass no switch is under way. *)
Lemma parked_worker_waits_for_on q disabled first turns b :
  let r := _park_until_enabled lease q disabled first turns b in
  starts r.2 = starts b ∧
  (r.1 = Resumed → ∃ s, s ≠ STATE_OFF ∧ (first = Ok s ∨ ∃ t, t ∈ turns ∧ pt_stop t = false ∧ pt_state t = Ok s)) ∧
  (first = Ok STATE_OFF → r.1 = decision turns ∧
   ∀ t turns', turns = t :: turns' → pt_stop t = false → pt_state t = Ok STATE_OFF →
     releases_card q disabled = true → _state (bw_switch r.2) = IDLE).
Proof.
  intros r. unfold r, _park_until_enabled.
  destruct first as [state|x]; [|by split_and!].
  destruct (String.eqb_spec state STATE_OFF) as [->|Hne]; simpl.
  2:{ split_and!; [done|intros _; exists state; by auto|congruence]. }
  destruct (park_wait_spec (releases_card q disabled) turns None b) as (E1 & E2 & E3).
  split_and!; [done| |intros _; split; [done|]].
  - rewrite E1. unfold decision. destruct (List.find decides turns) as [t|] eqn:Ef; [|done].
    apply find_some in Ef as [Hin%list_elem_of_In Hd]. destruct (pt_stop t) eqn:Es; [done|].
    destruct (pt_state t) as [s|] eqn:Ep; [|done]. intros _. exists s. unfold decides in Hd.
    rewrite Es, Ep in Hd. simpl in Hd. apply negb_true_iff, String.eqb_neq in Hd.
    split; [done|]. right. exists t. by split_and!.
  - intros t turns' -> Es Ep Hr. rewrite Hr. simpl. rewrite Es, Ep. simpl.
    match goal with |- context [park_wait lease true turns' ?since ?b'] =>
      apply (park_wait_spec true turns' since b') end.
    apply (park_tick_spec t None b).
Qed.
End lane_lemmas.

(** * Witnesses *)

Module HoldDemo.
Export ExampleDriver.
(** The reservation, and a chat job and a render in flight beside it *)
Definition row (id : string) (kinds : list string) : node_job :=
  mkJob (mkSpec id "r1" None "n" "mod" "gpu" None "" [] None None (Some kinds) None None None None None None 0)
    (st Demo.blank).
Definition reservation : node_job := row "res-0001" ["cluster"%string].
Definition chat : node_job := row "chat-0001" ["ollama"; "vllm"]%string.
Definition render : node_job := row "draw-0001" [].
Definition lane0 : lane :=
  _register_pool_job render (_register_pool_job chat (mkLane at_warming [] [] (mkAdmission 0 0 None 0))).
Definition up (n : Z) : park_env :=
  mkPark (n * SECOND) None (Raise (OtherError "refused")) (Some (Ok true)) (Ok ()) (Ok []) (Ok ()).
Definition try_ (n : Z) : try_env :=
  mkTry (n * SECOND) n false (quiet_box n None 60) (up n) false.
(** Another project's process holds the card. *)
Definition busy_box : boxw :=
  set_fs (acquire (mkModelLease "box-a" (FileLeaseStore "/lease") "b:1" 1000) 50 false "flux" []).2 at_switching.
Definition lane1 : lane := mkLane busy_box [("res-0001"%string, mkClusterHold (Some None))] [] (mkAdmission 0 0 None 0).
Definition turn (n : Z) (state : result string) : park_turn := mkTurn false state (quiet_box n None 60) (up n).
End HoldDemo.
Import HoldDemo.

Lemma held_box_starts_nothing_witness :
  let l := lane_run ExampleDriver.box_lease
    [Drive (ExampleDriver.quiet_box 90 None 60); HoldTick (ExampleDriver.quiet_box 95 None 60) (HoldDemo.up 95) "res-0001"]
    (_begin_cluster_hold ExampleDriver.box_lease (ExampleDriver.quiet_box 60 None 60) false HoldDemo.reservation
       HoldDemo.lane0) in
  starts (ln_box l) = starts (ln_box HoldDemo.lane0).
Proof.
  apply (held_box_starts_nothing (H2 := Demo.cfg) ExampleDriver.box_lease (ExampleDriver.quiet_box 60 None 60) false HoldDemo.reservation
    [Drive (ExampleDriver.quiet_box 90 None 60); HoldTick (ExampleDriver.quiet_box 95 None 60) (HoldDemo.up 95) "res-0001"]
    HoldDemo.lane0).
  intros [|[|[]%not_elem_of_nil]%elem_of_cons]%elem_of_cons; discriminate.
Defined.

(** The chat is told to stop, the render is not. *)
Lemma hold_signals_the_chat :
  map (λ kv, (kv.1, kv.2.2)) (_pool_jobs (_begin_cluster_hold ExampleDriver.box_lease
    (ExampleDriver.quiet_box 60 None 60) false HoldDemo.reservation HoldDemo.lane0))
  = [("chat-0001", true); ("draw-0001", false)]%string.
Proof. reflexivity. Qed.

(** An occupant the hold cannot clear: the wait ends at its ceiling of 120 s. *)
Lemma reservation_waits_within_its_ceiling_witness :
  ∃ t, t ∈ [HoldDemo.try_ 60; HoldDemo.try_ 90; HoldDemo.try_ 180] ∧
    60 * SECOND + CLUSTER_RESERVATION_ACQUIRE_MAX_S ≤ t_clock t.
Proof.
  destruct (_acquire_box_for_reservation ExampleDriver.box_lease CLUSTER_RESERVATION_SLOT "res-0001" (60 * SECOND)
    [HoldDemo.try_ 60; HoldDemo.try_ 90; HoldDemo.try_ 180] HoldDemo.lane1) as [r l'] eqn:E.
  pose proof (reservation_waits_within_its_ceiling _ _ _ _ _ _ _ _ E) as [_ Hr].
  assert (r = GaveUp) as ->; [|exact Hr].
  change r with (fst (r, l')). rewrite <- E. vm_compute. reflexivity.
Defined.

(** A lane parked while its vLLM warms: the switch ends, the wait goes on until on. *)
Lemma parked_worker_waits_for_on_witness :
  let turns := [HoldDemo.turn 100 (Ok STATE_OFF); HoldDemo.turn 105 (Raise OperationalError);
                HoldDemo.turn 110 (Ok STATE_ON)] in
  let r := _park_until_enabled ExampleDriver.box_lease "gpu" false (Ok STATE_OFF) turns ExampleDriver.at_warming in
  r.1 = Resumed ∧ _state (bw_switch r.2) = IDLE ∧ starts r.2 = starts ExampleDriver.at_warming.
Proof.
  intros turns r.
  destruct (parked_worker_waits_for_on ExampleDriver.box_lease "gpu" false (Ok STATE_OFF) turns ExampleDriver.at_warming)
    as (Hs & _ & Hoff). destruct (Hoff eq_refl) as [E Hi].
  split_and!; [exact E|by eapply Hi|exact Hs].
Defined.
