(* ===== verification/JobRun.v ===== *)
(** * The run of a claimed job ([queue_workflows/claim_worker.py])

    [_run_node] and [_run_pool_node]: the admission to the box, the guards armed around the
    execution, what is given back whatever happens, and the loops that claim and submit.
    Here [ModelLease], [Hold], [Watchdogs] and [Executor] are composed the way the worker
    composes them.  One thread at a time: what the guards do while they are armed is
    [Watchdogs], and what another lane does between two steps is an argument. *)

From S2P Require Import Prelude Json PyText Refs Schema NodeQueue Claim Reclaim RunStore Workflow Dispatcher Executor Ingest.
From S2P Require Import Watchdogs WorkerLanes ServerSwitch ModelLease Residency LlmContext ServerContext ContextLever.
From S2P Require Import LlmProbe IdleUnload BoxDriver Hold.
Local Open Scope string_scope.
Local Open Scope list_scope.
Local Open Scope Z_scope.

(** ** Guards *)

(** The threads around an execution, with what they are told *)
Inductive guard :=
  | RunCancelWatcher (run : string)
  | LeaseRenewer (table : lease_table) (lease_s : Z)
  | WallClock (table : lease_table) (budget_s : Z) (sweeps : bool)
  | StatusWatcher (sweeps : bool)
  | GpuHealth
  | StallGuard (window : option Q) (confirm : bool)
  | HoldWatch.
#[export] Instance lease_table_eq_dec : EqDecision lease_table.
Proof. solve_decision. Defined.
#[export] Instance Q_eq_dec : EqDecision Q.
Proof. solve_decision. Defined.
#[export] Instance guard_eq_dec : EqDecision guard.
Proof. solve_decision. Defined.

Inductive act := Start (g : guard) | Stop (g : guard).

(** ** The state of a lane's thread *)

Record jobw := mkJobw {
  jw_lane : lane;
  jw_db : world;
  (** [ModelCache._active] *)
  jw_busy : Z;
  jw_acts : list act;
}.
Definition J (A : Type) : Type := jobw → result A * jobw.
#[export] Instance J_ret : MRet J := λ A a s, (Ok a, s).
#[export] Instance J_bind : MBind J := λ A B f m s,
  match m s with
  | (Ok a, s) => f a s
  | (Raise x, s) => (Raise x, s)
  end.
#[export] Instance J_fmap : FMap J := λ A B f m, a ← m; mret (f a).
Definition J_lift {A} (r : result A) : J A := λ s, (r, s).
Definition db {A} (m : M A) : J A := λ s,
  let '(r, w) := m (jw_db s) in (r, mkJobw (jw_lane s) w (jw_busy s) (jw_acts s)).
Definition on_lane (f : lane → lane) : J () := λ s, (Ok (), mkJobw (f (jw_lane s)) (jw_db s) (jw_busy s) (jw_acts s)).
Definition note (a : act) : J () := λ s, (Ok (), mkJobw (jw_lane s) (jw_db s) (jw_busy s) (jw_acts s ++ [a])).
Definition busy_by (n : Z) : J () := λ s, (Ok (), mkJobw (jw_lane s) (jw_db s) (jw_busy s + n) (jw_acts s)).
Definition when (b : bool) (m : J ()) : J () := if b then m else mret ().
(** [try: m finally: c] *)
Definition finally {A} (m : J A) (c : J ()) : J A := λ s,
  let '(r, s) := m s in
  match c s with
  | (Ok _, s) => (r, s)
  | (Raise x, s) => (Raise x, s)
  end.

Definition start (g : guard) : J () := note (Start g).
Definition stop (g : guard) : J () := note (Stop g).
Definition on_admission (f : admission → admission) : J () :=
  on_lane (λ l, mkLane (ln_box l) (_cluster_holds l) (_pool_jobs l) (f (ln_admission l))).

(** What the host's node modules declare: the parameters of [run], and the window an
    opted-in module names *)
Class NodeModules := {
  run_parameters : string → result (list string);
  pool_stall_attribute : string → json;
}.

Definition CLUSTER_RESERVATION_LEASE_S : Z := 60.
Definition POOL_STALL_MIN_TIMEOUT_S : Q := 30.

(** What the worker is, and what it meets while it runs this job *)
Record run_env := mkRunEnv {
  e_queue : string;
  e_host : string;
  e_lease_s : Z;
  e_threads : Z;
  (** a cache with [mark_busy] and [mark_idle] *)
  e_cache : bool;
  e_lease : ModelLease;
  e_now : Z;
  e_clock : Z;
  e_contended : bool;
  (** for a reservation: the observation at its start, the reaper's kill switch, and the
      turns of its wait for the box *)
  e_obs : obs;
  e_reaper_off : bool;
  e_turns : list try_env;
}.

Section run.
Context `{PyEnv} `{QueueConfig} `{DispatchConfig} `{GuardConfig} `{WorkerEnv} `{BoxConfig} `{SwitchConfig} `{RefusalText}.
Context `{NodeModules}.

Definition is_input (job : node_job) : bool := PyStr.startswith "__input__" (node_module job).

Definition _node_reports_progress (module : string) : bool :=
  match run_parameters module with Ok ps => bool_decide ("status_callback" ∈ ps) | Raise _ => false end.

Definition _pool_stall_timeout_s (module : string) : result (option Q) :=
  off ← _env_flag "QUEUE_WORKFLOWS_DISABLE_POOL_STALL_WATCHDOG";
  Ok (if (off : bool) then None else
      match run_parameters module with
      | Raise _ => None
      | Ok ps =>
          let opted := λ q : Q, if Qle_bool q 0 then None
                                else if bool_decide ("status_callback" ∈ ps)
                                then Some (if Qle_bool q POOL_STALL_MIN_TIMEOUT_S then POOL_STALL_MIN_TIMEOUT_S else q)
                                else None in
          match pool_stall_attribute module with
          | JInt n => opted (inject_Z n)
          | JFloat q => opted q
          | _ => None
          end
      end).

(** ** The admission *)

Definition acquire_or_spill (e : run_env) (job : node_job) : J bool :=
  model ← J_lift (_effective_gpu_model job);
  (λ s, let l := jw_lane s in
       let '(granted, a, fs, io) :=
         _acquire_box_or_spill (e_lease e) (e_now e) (e_clock e) (e_contended e) model (jid job) (ln_admission l)
           (bw_fs (ln_box l)) in
       (_ ← db io; mret granted)
         (mkJobw (mkLane (set_fs fs (ln_box l)) (_cluster_holds l) (_pool_jobs l) a) (jw_db s) (jw_busy s) (jw_acts s))) : J bool.

Definition claimed_event (e : run_env) (job : node_job) : J () :=
  db (_emit_node_event (jid job) "claimed" (Some (e_host e)) (Some (e_queue e)) None [] (Some job)).

(** ** The inline lane *)

(** The guards of an inline run, in the order they are started *)
Definition sweeps (e : run_env) : bool := 1 <? e_threads e.
Definition inline_guards (e : run_env) (job : node_job) : list guard :=
  let gpu := String.eqb (e_queue e) "gpu" in
  let video := bool_decide (default "" (required_model job) ∈ video_model_ids) in
  [RunCancelWatcher (Schema.run_id job); LeaseRenewer t_node_jobs (e_lease_s e)]
  ++ (if gpu then [] else [WallClock t_node_jobs (budget_for (queue job) (required_model job) (Some (node_module job))) (sweeps e)])
  ++ [StatusWatcher (sweeps e)]
  ++ (if gpu then [GpuHealth] else [])
  ++ (if gpu && _node_reports_progress (node_module job) && negb video then [StallGuard None true] else []).
(** The guards of the pool lane, after the cancel watcher *)
Definition pool_guards (e : run_env) (held : bool) : list guard :=
  [LeaseRenewer t_node_jobs (if held then CLUSTER_RESERVATION_LEASE_S else e_lease_s e); StatusWatcher false].
Definition stall_guards (stall_s : option Q) : list guard :=
  match stall_s with Some s => [StallGuard (Some s) false] | None => [] end.

Fixpoint each (f : guard → J ()) (l : list guard) : J () :=
  match l with [] => mret () | g :: r => _ ← f g; each f r end.

(** An inline run stops its guards in this order: the watcher of the claim, the stall
    guard, the health guard, the wall clock, the renewer, and last the cancel watcher. *)
Definition stop_rank (g : guard) : Z :=
  match g with
  | StatusWatcher _ => 0 | StallGuard _ _ => 1 | GpuHealth => 2 | WallClock _ _ _ => 3 | LeaseRenewer _ _ => 4
  | RunCancelWatcher _ => 5 | HoldWatch => 6
  end.
Definition inline_stops (l : list guard) : list guard := sort_by (λ g, [stop_rank g]) l.

Definition _run_node `{Worker} (e : run_env) (job : node_job) : J bool :=
  let gpu := String.eqb (e_queue e) "gpu" in
  granted ← (if gpu && negb (is_input job) then acquire_or_spill e job else mret true);
  if negb granted then mret false else
  _ ← claimed_event e job;
  if is_input job then db (park_input_node job) else
  let guards := inline_guards e job in
  let busy := gpu && e_cache e in
  _ ← each start guards;
  _ ← when busy (busy_by 1);
  finally (_ ← db (execute_node job); mret true)
    (_ ← when busy (busy_by (-1));
     _ ← when gpu (on_admission _box_job_done);
     each stop (inline_stops guards)).

(** ** The pool lane *)

(** A pool job has no cache. *)
Definition without_cache (W : Worker) : Worker := {|
  model_cache := None; invoke_context := invoke_context; resolve_llm_server := resolve_llm_server; run_body := run_body;
  exc_text := exc_text; format_exc := format_exc; repr_text := repr_text; round_s := round_s; elapsed_us := elapsed_us;
  _rss_mb := _rss_mb; _watchdog_max_retries := _watchdog_max_retries;
|}.

(** The end of a hold, with its watch when one was started *)
Definition end_hold (watched : bool) (id : string) : J () :=
  _ ← on_lane (_end_cluster_hold id);
  when watched (stop HoldWatch).

(** The wait of a reservation: None while it is still waiting *)
Definition acquire_for_reservation (e : run_env) (job : node_job) : J (option bool) :=
  model ← J_lift (_effective_gpu_model job);
  (λ s, let '(a, l) := _acquire_box_for_reservation (e_lease e) model (jid job) (e_clock e) (e_turns e) (jw_lane s) in
       (Ok (match a with Granted => Some true | GaveUp | Ended => Some false | Waiting => None end),
        mkJobw l (jw_db s) (jw_busy s) (jw_acts s))) : J (option bool).

Definition admit_pool_job (e : run_env) (held : bool) (job : node_job) : J (option bool) :=
  if held then
    got ← acquire_for_reservation e job;
    _ ← (match got with
         | Some false =>
             _ ← end_hold false (jid job);
             db (try_except (_ ← requeue_job_for_retry (jid job); mret ()) (λ _, Some (mret ())))
         | Some true => start HoldWatch
         | None => mret ()
         end);
    mret got
  else Some <$> acquire_or_spill e job.

Definition execute_pool_job (W : Worker) (e : run_env) (held : bool) (job : node_job) : J bool :=
  _ ← start (RunCancelWatcher (Schema.run_id job));
  _ ← on_lane (_register_pool_job job);
  _ ← each start (pool_guards e held);
  stall_s ← J_lift (_pool_stall_timeout_s (node_module job));
  _ ← each start (stall_guards stall_s);
  finally (_ ← db (@execute_node _ _ (without_cache W) job); mret true)
    (_ ← on_lane (_unregister_pool_job job);
     _ ← on_admission _box_job_done;
     _ ← when held (end_hold true (jid job));
     each stop (stall_guards stall_s ++ rev (pool_guards e held) ++ [RunCancelWatcher (Schema.run_id job)])).

(** [_run_pool_node]; None while a reservation waits for the box *)
Definition _run_pool_node (W : Worker) (e : run_env) (job : node_job) : J (option bool) :=
  let held := is_cluster_reservation job in
  _ ← when held (on_lane (_begin_cluster_hold (e_lease e) (e_obs e) (e_reaper_off e) job));
  got ← admit_pool_job e held job;
  if negb (bool_decide (got = Some true)) then mret got else
  _ ← claimed_event e job;
  if is_input job then
    _ ← on_admission _box_job_done;
    _ ← when held (end_hold true (jid job));
    Some <$> db (park_input_node job)
  else Some <$> execute_pool_job W e held job.
End run.

(** ** The loops *)

Section loops.
Context `{PyEnv} `{QueueConfig} `{DispatchConfig} `{GuardConfig} `{WorkerEnv} `{BoxConfig} `{SwitchConfig} `{RefusalText}.
Context `{NodeModules} `{Worker} `{Http} `{IngestHost}.

(** [_run_ingest] *)
Definition ingest_guards (e : run_env) (job : ingest_job) : list guard :=
  [LeaseRenewer t_ingest_jobs (e_lease_s e); WallClock t_ingest_jobs (budget_for (iqueue job) None None) false].
Definition _run_ingest (e : run_env) (job : ingest_job) : J bool :=
  _ ← each start (ingest_guards e job);
  finally (_ ← db (execute_ingest_job job); mret true) (each stop (rev (ingest_guards e job))).

(** [run_once] of the gpu lane: the slot is taken under the lock before the claim, and given
    back whatever happens; [meanwhile] is what the pool lane did to the counters. *)
Definition run_once_gpu (e : run_env) (v : view) (locked : list string) (meanwhile : gpu_lanes → gpu_lanes)
    (st : gpu_lanes * jobw) : result bool * (gpu_lanes * jobw) :=
  match _pool_parallelism v with
  | Raise x => (Raise x, st)
  | Ok par =>
      match admit_inline par st.1 with
      | None => (Ok false, st)
      | Some lanes =>
          let '(r, s) := (job ← db (claim_inline v locked);
                          match (job : option node_job) with
                          | None => mret false
                          | Some j => _run_node e j
                          end) st.2 in
          (r, (end_inline (meanwhile lanes), s))
      end
  end.
(** [run_once] of a serial cpu lane *)
Definition run_once_cpu (e : run_env) (claim : M (option node_job)) : J bool :=
  job ← db claim;
  match (job : option node_job) with
  | None => mret false
  | Some j => _run_node e j
  end.

(** [_pool_run_and_release]: the slot is given back even when the run raises *)
Definition _pool_run_and_release (e : run_env) (job : node_job) (st : gpu_lanes * jobw) : gpu_lanes * jobw :=
  (end_pool st.1, (_run_pool_node _ e job st.2).2).
(** [_run_node_and_release] of a widened cpu lane *)
Definition _run_node_and_release (e : run_env) (token : string) (job : node_job) (st : cpu_lane * jobw) : cpu_lane * jobw :=
  (_release_slot token st.1, (_run_node e job st.2).2).

(** [_pool_gpu_serving_ok] *)
Definition _pool_gpu_serving_ok (llm_gpu_ok : bool) : result bool :=
  if llm_gpu_ok then Ok true
  else url ← setting "QUEUE_WORKFLOWS_COMFYUI_URL" comfyui_url;
       Ok (PyStr.truthy url && comfyui_reachable (Some url)).
(** [_pool_should_defer]: a failed read claims *)
Definition _pool_should_defer (llm_gpu_ok : bool) (ask : M bool) : M bool :=
  if negb llm_gpu_ok then mret false else try_except ask (λ _, Some (mret false)).

(** [_ensure_pool]: the width of the executor *)
Definition _ensure_pool (par : Z) (width : option Z) : Z :=
  match width with
  | None => par
  | Some w => if w <? par then par else w
  end.

(** One pass of the feeder's inner loop meets this *)
Record feed_turn := mkFeed {
  f_stop : bool;
  f_drain : bool;
  f_defer : bool;
  f_view : view;
  f_locked : list string;
  f_submits : bool;
}.
(** The inner loop of [_pool_feeder_loop]: whether a row was claimed, the jobs handed to the
    executor, and the counters (as they are when no job ends meanwhile: an end only lowers
    them) *)
Fixpoint feed (par : Z) (turns : list feed_turn) (lanes : gpu_lanes) : M (bool * list node_job * gpu_lanes) :=
  match turns with
  | [] => mret (false, [], lanes)
  | t :: r =>
      if f_stop t || f_drain t || f_defer t then mret (false, [], lanes) else
      match admit_pool par lanes with
      | None => mret (false, [], lanes)
      | Some taken =>
          job ← try_except (_claim_pool (f_view t) (f_locked t)) (λ _, Some (mret None));
          match (job : option node_job) with
          | None => mret (false, [], end_pool taken)
          | Some j =>
              if f_submits t
              then rest ← feed par r taken;
                   mret (true, j :: rest.1.2, rest.2)
              else mret (true, [], end_pool taken)
          end
      end
  end.

(** ** The start of a worker *)

Definition _NODE_REQUIRED_VERSION : Z := 6.
Definition _INGEST_REQUIRED_VERSION : Z := 8.
Definition _GPU_REQUIRED_VERSION : Z := 29.
Definition _DOWNLOAD_REQUIRED_VERSION : Z := 25.
Definition _min_schema_version (q : string) : Z :=
  if String.eqb q "download" then _DOWNLOAD_REQUIRED_VERSION
  else if String.eqb q "gpu" then _GPU_REQUIRED_VERSION
  else if bool_decide (q ∈ _NODE_QUEUES) then _NODE_REQUIRED_VERSION else _INGEST_REQUIRED_VERSION.

(** [_refuse_blind_gpu]; None is a probe that cannot judge *)
Definition _refuse_blind_gpu (q : string) (requires_local_device : bool) (usable : option bool) : bool :=
  String.eqb q "gpu" && requires_local_device && bool_decide (usable = Some false).

Definition _reclaim_predecessor_zombies (host q : string) : M () :=
  try_except (_ ← requeue_running_if_worker_stale host q None None; mret ()) (λ _, Some (mret ())).
End loops.

(** * Lemmas *)

(** ** What is left running *)

Fixpoint remove1 (g : guard) (l : list guard) : option (list guard) :=
  match l with
  | [] => None
  | x :: r => if bool_decide (g = x) then Some r else cons x <$> remove1 g r
  end.
(** The guards alive after a trace; None when one is stopped that does not run *)
Fixpoint live (running : list guard) (acts : list act) : option (list guard) :=
  match acts with
  | [] => Some running
  | Start g :: r => live (g :: running) r
  | Stop g :: r => rest ← remove1 g running; live rest r
  end.
Lemma live_app l a b : live l (a ++ b) = (l' ← live l a; live l' b).
Proof.
  revert l. induction a as [|[g|g] a IH]; intros l; simpl; [done|apply IH|].
  destruct (remove1 g l); simpl; [apply IH|done].
Qed.
Lemma live_starts l gs : live l (Start <$> gs) = Some (rev gs ++ l).
Proof. revert l. induction gs as [|g gs IH]; intros l; simpl; [done|]. rewrite IH. by rewrite <- app_assoc. Qed.
Lemma remove1_perm (g : guard) r l : g :: r ≡ₚ l → ∃ l', remove1 g l = Some l' ∧ r ≡ₚ l'.
Proof.
  intros Hp. assert (g ∈ l) as Hin by (rewrite <- Hp; set_solver).
  assert (∃ l', remove1 g l = Some l' ∧ l ≡ₚ g :: l') as (l' & E & Hl).
  { clear Hp r. induction l as [|x l IH]; [by apply elem_of_nil in Hin|]. simpl.
    case_bool_decide as Hx; [subst; by eexists|]. destruct IH as (l' & -> & Hl); [set_solver|].
    eexists. split; [done|]. rewrite Hl. apply Permutation_swap. }
  exists l'. split; [done|]. rewrite Hl in Hp. by apply Permutation_cons_inv in Hp.
Qed.
Lemma live_stops l gs : gs ≡ₚ l → live l (Stop <$> gs) = Some [].
Proof.
  revert l. induction gs as [|g gs IH]; intros l Hp; simpl; [by apply Permutation_nil in Hp as ->|].
  destruct (remove1_perm g gs l Hp) as (l' & -> & Hp'). simpl. by apply IH.
Qed.
Lemma live_bracket gs gs' : gs' ≡ₚ gs → live [] ((Start <$> gs) ++ (Stop <$> gs')) = Some [].
Proof. intros Hp. rewrite live_app, live_starts. simpl. apply live_stops. by rewrite app_nil_r, Hp, <- Permutation_rev. Qed.

(** A run that left nothing behind in the process *)
Record balanced (s s' : jobw) : Prop := {
  bal_active : _box_active_jobs (ln_admission (jw_lane s')) = _box_active_jobs (ln_admission (jw_lane s));
  bal_busy : jw_busy s' = jw_busy s;
  bal_holds : ∀ k, dict_get k (_cluster_holds (jw_lane s')) = dict_get k (_cluster_holds (jw_lane s));
  bal_jobs : (_pool_jobs (jw_lane s')).*1 = (_pool_jobs (jw_lane s)).*1;
  bal_acts : ∃ k, jw_acts s' = jw_acts s ++ k ∧ live [] k = Some [];
}.

Lemma J_bind_ok {A B} (m : J A) (f : A → J B) s a s' : m s = (Ok a, s') → (a ← m; f a) s = f a s'.
Proof. intros E. unfold mbind, J_bind. by rewrite E. Qed.
Lemma J_bind_raise {A B} (m : J A) (f : A → J B) s x s' : m s = (Raise x, s') → (a ← m; f a) s = (Raise x, s').
Proof. intros E. unfold mbind, J_bind. by rewrite E. Qed.

Lemma each_notes (c : guard → act) gs s :
  each (λ g, note (c g)) gs s = (Ok (), mkJobw (jw_lane s) (jw_db s) (jw_busy s) (jw_acts s ++ (c <$> gs))).
Proof.
  revert s. induction gs as [|g gs IH]; intros s; cbn [each fmap list_fmap]; [rewrite app_nil_r; by destruct s|].
  unfold mbind, J_bind, note at 1. cbn. rewrite IH. cbn. by rewrite <- app_assoc.
Qed.

Lemma dict_pop_set_keys {V} k (v : V) d : k ∉ d.*1 → (dict_pop k (dict_set k v d)).*1 = d.*1.
Proof.
  intros Hk. induction d as [|[k' v'] d IH]; simpl in *; [by rewrite String.eqb_refl|].
  destruct (String.eqb_spec k k') as [->|Hne]; [set_solver|]. simpl.
  destruct (String.eqb_spec k k') as [->|_]; [done|]. cbn. f_equal. apply IH. set_solver.
Qed.

Section run_lemmas.
Context `{PyEnv} `{QueueConfig} `{DispatchConfig} `{GuardConfig} `{WorkerEnv} `{BoxConfig} `{SwitchConfig} `{RefusalText}.
Context `{NodeModules}.
Implicit Types (e : run_env) (job : node_job) (s : jobw).

Definition with_db (w : world) (s : jobw) : jobw := mkJobw (jw_lane s) w (jw_busy s) (jw_acts s).
Lemma db_eq {A} (m : M A) s : db m s = ((m (jw_db s)).1, with_db (m (jw_db s)).2 s).
Proof. unfold db. by destruct (m (jw_db s)). Qed.

(** The world after the event of a claim *)
Definition after_claim e job (w : world) : world :=
  (_emit_node_event (jid job) "claimed" (Some (e_host e)) (Some (e_queue e)) None [] (Some job) w).2.
Lemma claimed_event_eq e job s : claimed_event e job s = (Ok (), with_db (after_claim e job (jw_db s)) s).
Proof.
  unfold claimed_event. rewrite db_eq. f_equal. unfold _emit_node_event, try_except.
  match goal with |- context [?m (jw_db s)] => destruct (m (jw_db s)) as [[[]|x] w] end; done.
Qed.

(** *** Admission *)

Lemma acquire_or_spill_eq e job s :
  acquire_or_spill e job s =
  match _effective_gpu_model job with
  | Raise x => (Raise x, s)
  | Ok model =>
      let l := jw_lane s in
      let g := acquire (e_lease e) (e_now e) (e_contended e) model (bw_fs (ln_box l)) in
      let box := set_fs g.2 (ln_box l) in
      if g.1
      then (Ok true, mkJobw (mkLane box (_cluster_holds l) (_pool_jobs l) (_box_acquire_granted model (ln_admission l)))
                       (jw_db s) (jw_busy s) (jw_acts s))
      else (Ok false, mkJobw (mkLane box (_cluster_holds l) (_pool_jobs l)
                               (mkAdmission (_spill_streak (ln_admission l) + 1)
                                  (e_clock e + spill_pause (_spill_streak (ln_admission l)))
                                  (_box_held_model (ln_admission l)) (_box_active_jobs (ln_admission l))))
                        (requeue_job_for_retry (jid job) (jw_db s)).2 (jw_busy s) (jw_acts s))
  end.
Proof.
  unfold acquire_or_spill, mbind at 1, J_bind at 1, J_lift.
  destruct (_effective_gpu_model job) as [model|x]; [|done].
  unfold _acquire_box_or_spill. destruct (acquire _ _ _ _ _) as [[] fs]; cbn; [done|].
  unfold mbind, J_bind, db, try_except, M_bind. cbn.
  destruct (requeue_job_for_retry (jid job) (jw_db s)) as [[?|?] w]; done.
Qed.

Lemma spill_is_balanced e job s s' : acquire_or_spill e job s = (Ok false, s') → balanced s s'.
Proof.
  rewrite acquire_or_spill_eq. destruct (_effective_gpu_model job); [|done]. cbv zeta.
  destruct (acquire _ _ _ _ _).1; [done|]. intros [= <-]. split; try done. exists []. by rewrite app_nil_r.
Qed.
Lemma grant_counts_one e job s s' :
  acquire_or_spill e job s = (Ok true, s') →
  _box_active_jobs (ln_admission (jw_lane s')) = _box_active_jobs (ln_admission (jw_lane s)) + 1 ∧
  _cluster_holds (jw_lane s') = _cluster_holds (jw_lane s) ∧ _pool_jobs (jw_lane s') = _pool_jobs (jw_lane s) ∧
  jw_db s' = jw_db s ∧ jw_busy s' = jw_busy s ∧ jw_acts s' = jw_acts s.
Proof.
  rewrite acquire_or_spill_eq. destruct (_effective_gpu_model job); [|done]. cbv zeta.
  destruct (acquire _ _ _ _ _).1; [|done]. intros [= <-]. done.
Qed.

Lemma box_job_done_after n a :
  0 ≤ n → _box_active_jobs a = n + 1 → _box_active_jobs (_box_job_done a) = n.
Proof. intros Hn E. unfold _box_job_done. cbn. rewrite E. destruct (Z.ltb_spec 0 (n + 1)); lia. Qed.

(** *** The bracket *)

(** What a run leaves, whatever the execution came to, when its [finally] cannot raise *)
Lemma bracket_eq {A} (m : M A) (c : J ()) (f : jobw → jobw) s :
  (∀ s, c s = (Ok (), f s)) →
  finally (_ ← db m; mret true) c s =
  (match (m (jw_db s)).1 with Ok _ => Ok true | Raise x => Raise x end, f (with_db (m (jw_db s)).2 s)).
Proof.
  intros Hc. unfold finally, mbind, J_bind. rewrite db_eq. destruct (m (jw_db s)) as [[a|x] w]; cbn; by rewrite Hc.
Qed.

Definition done_when (b : bool) (l : lane) : lane :=
  if b then mkLane (ln_box l) (_cluster_holds l) (_pool_jobs l) (_box_job_done (ln_admission l)) else l.
Lemma inline_cleanup_eq (busy gpu : bool) gs s :
  (_ ← when busy (busy_by (-1)); _ ← when gpu (on_admission _box_job_done); each stop gs) s =
  (Ok (), mkJobw (done_when gpu (jw_lane s)) (jw_db s) (jw_busy s - b2z busy) (jw_acts s ++ (Stop <$> gs))).
Proof.
  unfold mbind, J_bind, stop. destruct busy, gpu; cbn; rewrite ?Z.sub_0_r, each_notes; done.
Qed.

(** The run of an admitted node, in one equation *)
Definition inline_run `{Worker} e job s : result bool * jobw :=
  let gpu := String.eqb (e_queue e) "gpu" in
  let w := after_claim e job (jw_db s) in
  (match (execute_node job w).1 with Ok _ => Ok true | Raise x => Raise x end,
   mkJobw (done_when gpu (jw_lane s)) (execute_node job w).2 (jw_busy s)
     (jw_acts s ++ (Start <$> inline_guards e job) ++ (Stop <$> inline_stops (inline_guards e job)))).
Lemma run_node_eq `{Worker} e job s :
  _run_node e job s =
  match (if String.eqb (e_queue e) "gpu" && negb (is_input job) then acquire_or_spill e job s else (Ok true, s)) with
  | (Raise x, s) => (Raise x, s)
  | (Ok false, s) => (Ok false, s)
  | (Ok true, s) =>
      if is_input job
      then let '(r, w) := park_input_node job (after_claim e job (jw_db s)) in (r, with_db w s)
      else inline_run e job s
  end.
Proof.
  unfold _run_node. unfold mbind at 1, J_bind at 1.
  match goal with |- context [(if ?b then acquire_or_spill e job else mret true) s] =>
    replace ((if b then acquire_or_spill e job else mret true) s) with (if b then acquire_or_spill e job s else (Ok true, s))
      by (by destruct b) end.
  destruct (if String.eqb (e_queue e) "gpu" && negb (is_input job) then acquire_or_spill e job s else (Ok true, s)) as [[[]|x] s1];
    cbn [negb]; [|done..].
  rewrite (J_bind_ok _ _ _ _ _ (claimed_event_eq e job s1)).
  destruct (is_input job).
  { rewrite db_eq. cbn. by destruct (park_input_node job _). }
  cbv zeta. unfold start. rewrite (J_bind_ok _ _ _ _ _ (each_notes Start _ _)).
  set (s2 := mkJobw _ _ _ _).
  assert ((when (String.eqb (e_queue e) "gpu" && e_cache e) (busy_by 1)) s2
          = (Ok (), mkJobw (jw_lane s2) (jw_db s2) (jw_busy s2 + b2z (String.eqb (e_queue e) "gpu" && e_cache e)) (jw_acts s2))) as E.
  { destruct (_ && _); cbn; by rewrite ?Z.add_0_r. }
  rewrite (J_bind_ok _ _ _ _ _ E). rewrite (bracket_eq _ _ _ _ (inline_cleanup_eq _ _ _)).
  unfold inline_run. cbn. f_equal. f_equal; [lia|by rewrite <- app_assoc].
Qed.
End run_lemmas.

(** ** The inline lane *)

(** A run gives back whatever it took.  However it ends - denied, parked, finished, or with
    an exception out of the execution - the box count, the busy count of the cache, the holds
    and the registry of the lane are as before, and every guard that was started was stopped,
    once, after it was started. *)
Lemma inline_run_is_balanced `{QueueConfig, DispatchConfig, GuardConfig, WorkerEnv, BoxConfig, NodeModules, Worker} e job s (Hn : 0 ≤ _box_active_jobs (ln_admission (jw_lane s))) :
  balanced s (_run_node e job s).2.
Proof.
  rewrite run_node_eq.
  assert (∀ s, balanced s s) as Hrefl by (intros ?; split; try done; exists []; by rewrite app_nil_r).
  assert (∀ s w, balanced s (with_db w s)) as Hdb by (intros ??; split; try done; exists []; by rewrite app_nil_r).
  destruct (String.eqb (e_queue e) "gpu") eqn:Eg; cbn [andb].
  - destruct (is_input job) eqn:Ei; cbn [negb].
    { destruct (park_input_node job _) as [r w]. apply Hdb. }
    destruct (acquire_or_spill e job s) as [[[]|x] s1] eqn:E.
    + apply grant_counts_one in E as (Ha & Hh & Hj & Hw & Hb & Hk). unfold inline_run. rewrite Eg. cbn [snd]. split; cbn [jw_lane jw_busy jw_acts done_when ln_admission _cluster_holds _pool_jobs].
      * by apply box_job_done_after.
      * done.
      * by rewrite Hh.
      * by rewrite Hj.
      * rewrite Hk. eexists. split; [done|]. apply live_bracket, sort_by_perm.
    + by eapply spill_is_balanced.
    + rewrite acquire_or_spill_eq in E. destruct (_effective_gpu_model job); [|by injection E as _ <-].
      cbv zeta in E. by destruct (acquire _ _ _ _ _).1.
  - destruct (is_input job) eqn:Ei.
    { destruct (park_input_node job _) as [r w]. apply Hdb. }
    unfold inline_run. rewrite Eg. cbn [snd]. split; cbn [jw_lane jw_busy jw_acts done_when]; try done. eexists. split; [done|]. apply live_bracket, sort_by_perm.
Qed.

(** ** The pool lane *)

Section pool_lemmas.
Context `{PyEnv} `{QueueConfig} `{DispatchConfig} `{GuardConfig} `{WorkerEnv} `{BoxConfig} `{SwitchConfig} `{RefusalText}.
Context `{NodeModules}.
Implicit Types (e : run_env) (job : node_job) (s : jobw) (l : lane).

(** What a step of a hold leaves alone: the admission, the registered jobs, the other holds *)
Record beside (id : string) l l' : Prop := {
  be_admission : ln_admission l' = ln_admission l;
  be_jobs : (_pool_jobs l').*1 = (_pool_jobs l).*1;
  be_holds : ∀ k, k ≠ id → dict_get k (_cluster_holds l') = dict_get k (_cluster_holds l);
}.
Lemma beside_trans id l1 l2 l3 : beside id l1 l2 → beside id l2 l3 → beside id l1 l3.
Proof. intros [A1 B1 C1] [A2 B2 C2]. split; [congruence..|]. intros k Hk. by rewrite C2, C1. Qed.

Lemma begin_hold_beside lease o off job l : beside (jid job) l (_begin_cluster_hold lease o off job l).
Proof.
  split; [done| |].
  - cbn. rewrite <- list_fmap_compose. apply list_fmap_ext. intros i kv _. cbn. by destruct (signalled _ _).
  - intros k Hk. cbn. by rewrite dict_get_set_ne.
Qed.
Lemma hold_tick_beside lease o pe id l : beside id l (_cluster_hold_tick lease o pe id l).
Proof.
  unfold _cluster_hold_tick. destruct (dict_get id (_cluster_holds l)) as [h|]; [|by split].
  destruct (h_quiesce h); [|by split]. destruct (quiesce _ _ _ _). split; [done|done|].
  intros k Hk. cbn. by rewrite dict_get_set_ne.
Qed.
(** The wait of a reservation changes the admission only by its grant. *)
Lemma acquire_loop_beside lease model id deadline turns l a l' :
  acquire_loop lease model id deadline turns l = (a, l') →
  ∃ l0, beside id l l0 ∧ (_pool_jobs l').*1 = (_pool_jobs l0).*1 ∧ _cluster_holds l' = _cluster_holds l0 ∧
    ln_admission l' = match a with Granted => _box_acquire_granted model (ln_admission l0) | _ => ln_admission l0 end.
Proof.
  revert l. induction turns as [|t turns IH]; intros l; cbn [acquire_loop].
  { intros [= <- <-]. by exists l. }
  destruct (acquire lease _ _ _ _) as [[] fs].
  { intros [= <- <-]. by exists l. }
  assert (beside id l (set_box (set_fs fs (ln_box l)) l)) as Hb by done.
  destruct (deadline <=? t_clock t); [intros [= <- <-]; by exists (set_box (set_fs fs (ln_box l)) l)|].
  set (l1 := _cluster_hold_tick _ _ _ _ _).
  assert (beside id l l1) as Hb1 by (eapply beside_trans; [exact Hb|apply hold_tick_beside]).
  destruct (t_ended t); [intros [= <- <-]; by exists l1|].
  intros E. destruct (IH _ E) as (l0 & Hl0 & Hrest). exists l0. split; [by eapply beside_trans|done].
Qed.

(** The state of a job that has the box and, as a reservation, its watch *)
Record taken (held : bool) (id : string) s s1 : Prop := {
  ta_active : _box_active_jobs (ln_admission (jw_lane s1)) = _box_active_jobs (ln_admission (jw_lane s)) + 1;
  ta_busy : jw_busy s1 = jw_busy s;
  ta_holds : ∀ k, k ≠ id → dict_get k (_cluster_holds (jw_lane s1)) = dict_get k (_cluster_holds (jw_lane s));
  ta_unheld : held = false → _cluster_holds (jw_lane s1) = _cluster_holds (jw_lane s);
  ta_jobs : (_pool_jobs (jw_lane s1)).*1 = (_pool_jobs (jw_lane s)).*1;
  ta_acts : jw_acts s1 = jw_acts s ++ (if held then [Start HoldWatch] else []);
}.

Lemma end_hold_eq watched id s :
  end_hold watched id s =
  (Ok (), mkJobw (_end_cluster_hold id (jw_lane s)) (jw_db s) (jw_busy s) (jw_acts s ++ (if watched then [Stop HoldWatch] else []))).
Proof. unfold end_hold, mbind, J_bind, on_lane, when. destruct watched; cbn; by rewrite ?app_nil_r. Qed.

Lemma dict_pop_holds {V} id k (d d' : list (string * V)) :
  dict_get id d = None → (∀ k, k ≠ id → dict_get k d' = dict_get k d) → dict_get k (dict_pop id d') = dict_get k d.
Proof.
  intros Hid Hrest. destruct (String.eqb_spec k id) as [->|Hne]; [by rewrite dict_get_pop_eq|].
  rewrite dict_get_pop_ne by done. by apply Hrest.
Qed.

Lemma admit_pool_spec e job s got s1 :
  let id := jid job in
  let held := is_cluster_reservation job in
  dict_get id (_cluster_holds (jw_lane s)) = None →
  (_ ← when held (on_lane (_begin_cluster_hold (e_lease e) (e_obs e) (e_reaper_off e) job)); admit_pool_job e held job) s = (got, s1) →
  match got with
  | Ok (Some true) => taken held id s s1
  | Ok None => True
  | _ => balanced s s1
  end.
Proof.
  intros id held Hid. unfold mbind at 1, J_bind at 1, admit_pool_job. destruct held eqn:Eh; cbn [when].
  - unfold on_lane at 1, acquire_for_reservation. set (l1 := _begin_cluster_hold _ _ _ _ _).
    pose proof (begin_hold_beside (e_lease e) (e_obs e) (e_reaper_off e) job (jw_lane s)) as Hb. fold l1 in Hb.
    assert (_effective_gpu_model job = Ok CLUSTER_RESERVATION_SLOT) as Em
      by (unfold _effective_gpu_model; fold held; by rewrite Eh).
    unfold mbind, J_bind, J_lift. rewrite Em. unfold _acquire_box_for_reservation. cbn [jw_lane jw_db jw_busy jw_acts].
    destruct (acquire_loop _ _ _ _ _ _) as [a l2] eqn:E.
    destruct (acquire_loop_beside _ _ _ _ _ _ _ _ E) as (l0 & Hb0 & Hj & Hh & Ha).
    pose proof (beside_trans _ _ _ _ Hb Hb0) as [Ba Bj Bh].
    assert (∀ w, balanced s (mkJobw (_end_cluster_hold id l2) w (jw_busy s) (jw_acts s)) ∨ a = Granted) as Hgave.
    { intros w. destruct a; [by right|left..];
        (split; cbn [jw_lane jw_busy jw_acts _end_cluster_hold set_holds ln_admission _cluster_holds _pool_jobs];
         [by rewrite Ha, Ba|done|intros k; apply dict_pop_holds; [done|]; intros k' Hk'; rewrite Hh; by apply Bh|congruence
         |by exists []; rewrite app_nil_r]). }
    destruct a; cbv beta iota zeta.
    + intros [= <- <-]. split; cbn; [by rewrite Ha, Ba|done| |done| |done].
      * intros k Hk. rewrite Hh. by apply Bh.
      * congruence.
    + rewrite end_hold_eq. cbv beta iota zeta. rewrite app_nil_r, db_eq. unfold with_db.
      cbn [jw_lane jw_db jw_busy jw_acts].
      destruct (try_except _ _ _) as [[[]|x] w']; intros [= <- <-]; by edestruct Hgave as [Hx|]; [apply Hx|].
    + rewrite end_hold_eq. cbv beta iota zeta. rewrite app_nil_r, db_eq. unfold with_db.
      cbn [jw_lane jw_db jw_busy jw_acts].
      destruct (try_except _ _ _) as [[[]|x] w']; intros [= <- <-]; by edestruct Hgave as [Hx|]; [apply Hx|].
    + by intros [= <- <-].
  - unfold fmap, J_fmap, mbind, J_bind. cbn [when]. unfold mret, J_ret.
    destruct (acquire_or_spill e job s) as [[[]|x] s2] eqn:E; intros [= <- <-].
    + apply grant_counts_one in E as (Ha & Hh & Hj & _ & Hb & Hk). split; [done|done| |done|by rewrite Hj|by rewrite Hk, app_nil_r].
      intros k _. by rewrite Hh.
    + by eapply spill_is_balanced.
    + rewrite acquire_or_spill_eq in E. destruct (_effective_gpu_model job).
      * cbv zeta in E. by destruct (acquire _ _ _ _ _).1.
      * injection E as _ <-. split; try done. exists []. by rewrite app_nil_r.
Qed.
End pool_lemmas.

Section pool_run.
Context `{PyEnv} `{QueueConfig} `{DispatchConfig} `{GuardConfig} `{WorkerEnv} `{BoxConfig} `{SwitchConfig} `{RefusalText}.
Context `{NodeModules}.
Implicit Types (e : run_env) (job : node_job) (s : jobw) (l : lane).

Definition watch_of (held : bool) : list guard := if held then [HoldWatch] else [].
Definition end_when (held : bool) (id : string) (l : lane) : lane := if held then _end_cluster_hold id l else l.
Lemma pool_cleanup_eq held job gs s :
  (_ ← on_lane (_unregister_pool_job job); _ ← on_admission _box_job_done; _ ← when held (end_hold true (jid job)); each stop gs) s =
  (Ok (), mkJobw (end_when held (jid job) (done_when true (_unregister_pool_job job (jw_lane s)))) (jw_db s) (jw_busy s)
            (jw_acts s ++ (Stop <$> watch_of held ++ gs))).
Proof.
  unfold mbind, J_bind, stop, on_admission. cbn [on_lane]. destruct held; cbn [when].
  - rewrite end_hold_eq. cbv beta iota zeta. rewrite each_notes. cbn. by rewrite <- app_assoc.
  - cbn. by rewrite each_notes.
Qed.

Definition pool_starts e held stall_s job : list guard :=
  RunCancelWatcher (Schema.run_id job) :: pool_guards e held ++ stall_guards stall_s.
Definition pool_stops e held stall_s job : list guard :=
  stall_guards stall_s ++ rev (pool_guards e held) ++ [RunCancelWatcher (Schema.run_id job)].
Lemma pool_stops_perm e held stall_s job :
  watch_of held ++ pool_stops e held stall_s job ≡ₚ watch_of held ++ pool_starts e held stall_s job.
Proof.
  f_equiv. unfold pool_stops, pool_starts. rewrite <- Permutation_rev, Permutation_app_comm, <- app_assoc. cbn [app].
  by rewrite <- Permutation_middle.
Qed.

(** The execution of an admitted pool job, in one equation *)
Lemma execute_pool_eq W e held job s stall_s :
  _pool_stall_timeout_s (node_module job) = Ok stall_s →
  let x := @execute_node _ _ (without_cache W) job (jw_db s) in
  execute_pool_job W e held job s =
  (match x.1 with Ok _ => Ok true | Raise err => Raise err end,
   mkJobw (end_when held (jid job) (done_when true (_unregister_pool_job job (_register_pool_job job (jw_lane s)))))
     x.2 (jw_busy s)
     (jw_acts s ++ (Start <$> pool_starts e held stall_s job) ++ (Stop <$> watch_of held ++ pool_stops e held stall_s job))).
Proof.
  intros Es x. unfold execute_pool_job, start.
  erewrite J_bind_ok by done. erewrite J_bind_ok by done. erewrite J_bind_ok by apply (each_notes Start).
  erewrite J_bind_ok by (unfold J_lift; by rewrite Es). erewrite J_bind_ok by apply (each_notes Start).
  rewrite (bracket_eq _ _ _ _ (pool_cleanup_eq held job _)). cbn [jw_lane jw_db jw_busy jw_acts with_db]. f_equal. f_equal.
  unfold pool_starts, pool_stops. rewrite !fmap_cons, !fmap_app, <- !app_assoc. done.
Qed.

Lemma run_pool_node_assoc W e job s :
  let held := is_cluster_reservation job in
  _run_pool_node W e job s =
  (got ← (_ ← when held (on_lane (_begin_cluster_hold (e_lease e) (e_obs e) (e_reaper_off e) job)); admit_pool_job e held job);
   if negb (bool_decide (got = Some true)) then mret got else
   _ ← claimed_event e job;
   if is_input job then
     _ ← on_admission _box_job_done; _ ← when held (end_hold true (jid job)); Some <$> db (park_input_node job)
   else Some <$> execute_pool_job W e held job) s.
Proof. unfold _run_pool_node, mbind, J_bind. by destruct (when _ _ s) as [[?|?] ?]. Qed.

(** A job that had the box, gave it back and stopped its guards left nothing behind. *)
Lemma given_back held id s s1 l w k :
  0 ≤ _box_active_jobs (ln_admission (jw_lane s)) → dict_get id (_cluster_holds (jw_lane s)) = None → taken held id s s1 →
  ln_admission l = ln_admission (jw_lane s1) → (_pool_jobs l).*1 = (_pool_jobs (jw_lane s)).*1 →
  _cluster_holds l = _cluster_holds (jw_lane s1) → live [] ((Start <$> watch_of held) ++ k) = Some [] →
  balanced s (mkJobw (end_when held id (done_when true l)) w (jw_busy s1) (jw_acts s1 ++ k)).
Proof.
  intros Hn Hhold [Ta Tb Th Tu Tj Tk] Hla Hlj Hlh Hk. split; cbn [jw_lane jw_busy jw_acts].
  - unfold end_when. destruct held; cbn; rewrite Hla; by apply box_job_done_after.
  - done.
  - intros k'. unfold end_when. destruct held; cbn; rewrite Hlh; [by apply dict_pop_holds|by rewrite (Tu eq_refl)].
  - unfold end_when. destruct held; cbn; done.
  - rewrite Tk. eexists. split; [by rewrite <- app_assoc|]. by destruct held.
Qed.

(** The branch of an input node *)
Lemma pool_park_eq held job s :
  let x := park_input_node job (jw_db s) in
  (_ ← on_admission _box_job_done; _ ← when held (end_hold true (jid job)); Some <$> db (park_input_node job)) s =
  (match x.1 with Ok b => Ok (Some b) | Raise err => Raise err end,
   mkJobw (end_when held (jid job) (done_when true (jw_lane s))) x.2 (jw_busy s) (jw_acts s ++ (Stop <$> watch_of held))).
Proof.
  intros x. unfold mbind at 1, J_bind at 1, on_admission, on_lane. destruct held; cbn [when].
  - unfold mbind at 1, J_bind at 1. rewrite end_hold_eq. unfold fmap, J_fmap, mbind, J_bind. rewrite db_eq.
    unfold x. by destruct (park_input_node job _) as [[?|?] w].
  - unfold fmap, J_fmap, mbind, J_bind. cbn [mret J_ret]. rewrite db_eq. cbn [jw_db with_db jw_lane jw_busy jw_acts fmap list_fmap watch_of].
    rewrite app_nil_r. unfold x. by destruct (park_input_node job _) as [[?|?] w].
Qed.
End pool_run.

(** C15: A pool run gives back whatever it took, the hold of a cluster reservation included: as
    for the inline lane, and whether the reservation got the box, gave up waiting or failed.
    (The job must be new to the lane, and the environment readable: see
    [unreadable_setting_leaks_the_box].) *)
Theorem pool_run_is_balanced `{QueueConfig, DispatchConfig, WorkerEnv, BoxConfig, SwitchConfig, NodeModules} W e (job : node_job) s r s'
    (Hn : 0 ≤ _box_active_jobs (ln_admission (jw_lane s)))
    (Hhold : dict_get (jid job) (_cluster_holds (jw_lane s)) = None)
    (Hjob : jid job ∉ (_pool_jobs (jw_lane s)).*1)
    (Henv : is_ok (_pool_stall_timeout_s (node_module job)) = true)
    (Hrun : _run_pool_node W e job s = (r, s')) (Hdone : r ≠ Ok None) :
  balanced s s'.
Proof.
  rewrite run_pool_node_assoc in Hrun. set (held := is_cluster_reservation job) in *. unfold mbind at 1, J_bind at 1 in Hrun.
  match type of Hrun with context [match ?m s with _ => _ end] => destruct (m s) as [got s1] eqn:Ea end.
  pose proof (admit_pool_spec e job s got s1 Hhold Ea) as Hadm. fold held in Hadm.
  destruct got as [[[]|]|x]; cbv beta iota in Hrun; [| | |by injection Hrun as <- <-].
  2, 3: rewrite bool_decide_eq_false_2 in Hrun by done; by injection Hrun as <- <-.
  rewrite bool_decide_eq_true_2 in Hrun by done. cbn [negb] in Hrun.
  rewrite (J_bind_ok _ _ _ _ _ (claimed_event_eq e job s1)) in Hrun.
  pose proof (ta_jobs _ _ _ _ Hadm) as Tj.
  pose proof (λ l w k, given_back held (jid job) s s1 l w k Hn Hhold Hadm) as Hbal.
  destruct (is_input job).
  - rewrite pool_park_eq in Hrun. cbn [with_db jw_lane jw_db jw_busy jw_acts] in Hrun. injection Hrun as _ <-.
    apply Hbal; try done. by destruct held.
  - destruct (_pool_stall_timeout_s (node_module job)) as [stall_s|] eqn:Es; [|done].
    unfold fmap, J_fmap, mbind, J_bind in Hrun. rewrite (execute_pool_eq W e held job _ stall_s Es) in Hrun.
    cbn [with_db jw_lane jw_db jw_busy jw_acts] in Hrun.
    assert (live [] ((Start <$> watch_of held) ++
              (Start <$> pool_starts e held stall_s job) ++ (Stop <$> watch_of held ++ pool_stops e held stall_s job)) = Some []) as Hl.
    { rewrite app_assoc, <- fmap_app. apply live_bracket, pool_stops_perm. }
    pose proof (λ w, Hbal (_unregister_pool_job job (_register_pool_job job (jw_lane s1))) w _ eq_refl
      ltac:(cbn [_unregister_pool_job _register_pool_job set_jobs _pool_jobs]; rewrite <- Tj; apply dict_pop_set_keys; by rewrite Tj)
      eq_refl Hl) as Hfin.
    destruct (execute_node job _) as [[?|?] w]; injection Hrun as <- <-; apply Hfin.
Qed.

(** ** What a spill costs *)

(** A job whose box is taken goes back to the queue, to its front, and the spill is counted
    as a retry of a watchdog: the row has one retry less before a watchdog fails it. *)
Theorem spill_spends_a_retry `{WorkerEnv, BoxConfig} e (job j : node_job) s s'
    (Hok : db_ok (jw_db s)) (Hj : j ∈ node_jobs (jw_db s)) (Hid : jid j = jid job) (Hrun : status j = Running)
    (Hspill : acquire_or_spill e job s = (Ok false, s')) :
  ∃ j' : node_job, j' ∈ node_jobs (jw_db s') ∧ jid j' = jid j ∧ status j' = Queued ∧
    watchdog_retries j' = watchdog_retries j + 1 ∧ priority j' = Z.min (priority j) 10.
Proof.
  rewrite acquire_or_spill_eq in Hspill. destruct (_effective_gpu_model job); [|done]. cbv zeta in Hspill.
  destruct (acquire _ _ _ _ _).1; [done|]. injection Hspill as <-. cbn [jw_db].
  unfold requeue_job_for_retry, requeue_job_for_retry_in_txn.
  assert (has_status Running (st j) = true) as Hr by (by apply bool_decide_eq_true).
  rewrite node_jobs_on_jobs. eexists. split.
  - apply elem_of_update_where. exists j. split; [done|reflexivity].
  - unfold is_job. rewrite (bool_decide_eq_true_2 (_ = _)) by done.
    rewrite Hr. by destruct j as [? []].
Qed.

(** ** Witnesses *)

Module RunDemo.
Export HoldDemo.
Definition env (vars : list (string * string)) : WorkerEnv := {|
  os_environ := vars; config_cpu_worker_threads := JInt 1; config_gpu_box_max_concurrent := JNull |}.
Definition box : BoxConfig := {| gpu_self_load_node_modules := []; comfyui_url := None; comfyui_lifecycle := false |}.
Definition modules : NodeModules := {|
  run_parameters _ := Ok ["status_callback"]; pool_stall_attribute m := if String.eqb m "mod" then JInt 90 else JNull |}.
Definition e (q : string) : run_env :=
  mkRunEnv q "h" 600 1 true box_lease 100 100 false (quiet_box 60 None 60) false (try_ <$> [100; 300]).
Definition s0 : jobw := mkJobw (mkLane at_switching [] [] (mkAdmission 0 0 None 0)) ReclaimDemo.claimed 0 [].
Definition taken : jobw := mkJobw (mkLane busy_box [] [] (mkAdmission 0 0 None 0)) ReclaimDemo.claimed 0 [].
Definition read := env [].
Definition unread := env [("AI_LEADS_DISABLE_POOL_STALL_WATCHDOG", "1")].
End RunDemo.
Import RunDemo.

Abbreviation inline env := (@_run_node Demo.cfg DispatchDemo.dcfg GuardDemo.guards env RunDemo.box modules ExecDemo.worker (e "gpu")).
Abbreviation pool env :=
  (@_run_pool_node Demo.cfg DispatchDemo.dcfg env RunDemo.box defaults modules ExecDemo.worker (e "gpu")).

(** Witness for [inline_run_is_balanced] *)
Lemma inline_run_is_balanced_witness :
  (inline read ReclaimDemo.job s0).1 = Ok true ∧ balanced s0 (inline read ReclaimDemo.job s0).2.
Proof. split; [vm_compute; reflexivity|]. apply (@inline_run_is_balanced Demo.cfg DispatchDemo.dcfg GuardDemo.guards read RunDemo.box modules ExecDemo.worker). vm_compute. done. Defined.

(** Witness for [pool_run_is_balanced]: a reservation that gives up waiting for the box *)
Definition given_up : jobw := Eval vm_compute in (pool read reservation RunDemo.taken).2.
Lemma pool_run_is_balanced_witness :
  pool read reservation RunDemo.taken = (Ok (Some false), given_up) ∧ balanced RunDemo.taken given_up.
Proof.
  assert (pool read reservation RunDemo.taken = (Ok (Some false), given_up)) as E by (vm_compute; reflexivity).
  split; [exact E|].
  apply (@pool_run_is_balanced Demo.cfg DispatchDemo.dcfg read RunDemo.box defaults modules ExecDemo.worker (e "gpu") reservation RunDemo.taken (Ok (Some false)) given_up);
    [by vm_compute|by vm_compute|apply not_elem_of_nil|by vm_compute|exact E|done].
Defined.

(** Witness for [spill_spends_a_retry] *)
Definition spilled : jobw := Eval vm_compute in (@acquire_or_spill read RunDemo.box (e "gpu") ReclaimDemo.job RunDemo.taken).2.
Lemma spill_spends_a_retry_witness :
  @acquire_or_spill read RunDemo.box (e "gpu") ReclaimDemo.job RunDemo.taken = (Ok false, spilled) ∧
  ∃ j' : node_job, j' ∈ node_jobs (jw_db spilled) ∧ watchdog_retries j' = watchdog_retries ReclaimDemo.job + 1.
Proof.
  assert (@acquire_or_spill read RunDemo.box (e "gpu") ReclaimDemo.job RunDemo.taken = (Ok false, spilled)) as E
    by (vm_compute; reflexivity).
  split; [exact E|].
  destruct (@spill_spends_a_retry read RunDemo.box (e "gpu") ReclaimDemo.job ReclaimDemo.job RunDemo.taken spilled ReclaimDemo.claimed_ok)
    as (j' & Hj' & _ & _ & Hr & _); [left|reflexivity|reflexivity|exact E|]. exists j'. split; [exact Hj'|exact Hr].
Defined.

(** A setting that cannot be read (its old name is still in the environment) raises after
    the pool job has taken the box and before the [try] that gives it back: the box counts a
    job for ever, its lease is renewed for it, and the renewer and the watchers run on. *)
Theorem unreadable_setting_leaks_the_box :
  let r := pool unread chat s0 in
  is_ok r.1 = false ∧ _box_active_jobs (ln_admission (jw_lane r.2)) = 1 ∧ (_pool_jobs (jw_lane r.2)).*1 = ["chat-0001"] ∧
  live [] (jw_acts r.2) = Some [StatusWatcher false; LeaseRenewer t_node_jobs 600; RunCancelWatcher "r1"].
Proof. vm_compute. done. Qed.

(** ** The feeder *)

Lemma swallowed {A} (m : M A) (d : A) w : ∃ a, try_except m (λ _, Some (mret d)) w = (Ok a, (m w).2).
Proof. unfold try_except. destruct (m w) as [[a|x] w']; by eexists. Qed.

(** The feeder never fails and counts exactly what it hands over: the counter grows by the
    jobs submitted, whether a claim fails, finds nothing or cannot be submitted; and while
    it submits, the pool and the inline job together stay within the parallelism, so that
    the executor has a thread for every job in flight. *)
Lemma feeder_counts_its_jobs `{QueueConfig, WorkerEnv} par turns lanes width w :
  0 ≤ pool_inflight lanes →
  ∃ claimed jobs lanes' w',
    feed par turns lanes w = (Ok (claimed, jobs, lanes'), w') ∧
    pool_inflight lanes' = pool_inflight lanes + Z.of_nat (length jobs) ∧ inline_running lanes' = inline_running lanes ∧
    (jobs ≠ [] → claimed = true ∧ pool_inflight lanes' + b2z (inline_running lanes') ≤ par ∧
                 pool_inflight lanes' ≤ _ensure_pool par width).
Proof.
  intros Hn. revert lanes w Hn. induction turns as [|t turns IH]; intros lanes w Hn; cbn [feed].
  { eexists false, [], lanes, w. cbn. split_and!; [done|lia|done|done]. }
  destruct (f_stop t || f_drain t || f_defer t); [eexists false, [], lanes, w; cbn; split_and!; [done|lia|done|done]|].
  destruct (admit_pool par lanes) as [taken|] eqn:Ea; [|eexists false, [], lanes, w; cbn; split_and!; [done|lia|done|done]].
  unfold admit_pool in Ea. destruct (Z.leb_spec (_pool_budget par lanes) (pool_inflight lanes)) as [|Hlt]; [done|].
  injection Ea as <-. set (taken := mkLanes _ _). unfold mbind at 1, M_bind at 1.
  destruct (swallowed (_claim_pool (f_view t) (f_locked t)) None w) as (job & ->). destruct job as [j|].
  - destruct (f_submits t).
    + destruct (IH taken (_claim_pool (f_view t) (f_locked t) w).2) as (c & js & lanes' & w' & Ef & Hc & Hi & Hb); [cbn; lia|].
      unfold mbind, M_bind. rewrite Ef. eexists true, (j :: js), lanes', w'. cbn [fst snd length]. unfold taken in *. cbn in Hc, Hi.
      split_and!; [done|lia|done|]. intros _. split; [done|].
      assert (pool_inflight lanes' + b2z (inline_running lanes') ≤ par) as Hp.
      { destruct js as [|j' js]; [|by apply Hb]. cbn in Hc. rewrite Hi, Hc. unfold _pool_budget in Hlt.
        destruct (inline_running lanes); cbn [b2z] in *; lia. }
      split; [exact Hp|]. unfold _ensure_pool. destruct (inline_running lanes'); cbn [b2z] in Hp;
        (destruct width as [n|]; [destruct (Z.ltb_spec n par)|]); lia.
    + eexists true, [], (end_pool taken), _. cbn. split_and!; [done|lia|done|done].
  - eexists false, [], (end_pool taken), _. cbn. split_and!; [done|lia|done|done].
Qed.

(** Witness for [feeder_counts_its_jobs]: a lane with one slot taken out of two *)
Lemma feeder_counts_its_jobs_witness :
  ∃ claimed jobs lanes' w',
    @feed Demo.cfg LaneDemo.env 2 [mkFeed false false false LaneDemo.v [] true] (mkLanes 1 false) Demo.one
    = (Ok (claimed, jobs, lanes'), w') ∧ pool_inflight lanes' = 1 + Z.of_nat (length jobs).
Proof.
  destruct (@feeder_counts_its_jobs Demo.cfg LaneDemo.env 2 [mkFeed false false false LaneDemo.v [] true] (mkLanes 1 false) None Demo.one)
    as (c & js & l & w & E & Hc & _); [done|]. exists c, js, l, w. split; [exact E|exact Hc].
Defined.
