(* ===== verification/Assign.v ===== *)
(** * Rows no live machine can serve ([queue_workflows/node_queue.py])

    The two sweeps that stamp a queued gpu row nobody can take: one over the
    models and context windows the live boxes reach, one over the LLM servers
    they run.  Each clears the stamps that no longer hold, then sets the new
    ones and returns the rows it stamped. *)

From S2P Require Import Prelude.
From S2P Require Import Json.
From S2P Require Import Schema.
From S2P Require Import NodeQueue.
From S2P Require Import Claim.
Local Open Scope string_scope.
Local Open Scope list_scope.
Local Open Scope Z_scope.

Definition unflag (s : job_state) : job_state :=
  s |> set_unassignable_at None |> set_unassignable_reason None.
Definition flag_as (now : Z) (reason : option string) (s : job_state) : job_state :=
  s |> set_unassignable_at (Some now) |> set_unassignable_reason reason.

(** The two statements of a sweep: the clearing update, then the stamping one
    with its RETURNING. *)
Definition flag_sweep (clear flag : node_job → bool) (reason : node_job → option string) :
    M (list node_job) := λ w,
  let stamp := λ j, upd (flag_as (clock w) (reason j)) j in
  let w1 := on_jobs (update_where clear (upd unflag)) w in
  (Ok (returning flag stamp (node_jobs w1)), on_jobs (update_where flag stamp) w1).

Definition flagged (j : node_job) : bool := is_not_null (unassignable_at j).
(** [unassignable_reason LIKE 'no live worker serves%'] *)
Definition server_reason (j : node_job) : bool :=
  match unassignable_reason j with
  | Some r => PyStr.startswith "no live worker serves" r
  | None => false
  end.

Section sweeps.
Context `{QueueConfig} (stale_s : option Z) (proj : option string).

(** [live_gpu]: the fresh gpu heartbeats of the tenant. *)
Definition live_gpu (w : world) : list heartbeat :=
  List.filter (fresh_gpu (clock w) (default config_stale_worker_after_s stale_s) (_project proj))
    (heartbeats w).
Definition of_project (j : node_job) : bool := String.eqb (project j) (_project proj).
Definition queued_gpu (j : node_job) : bool :=
  has_status Queued (st j) && String.eqb (queue j) "gpu" && of_project j.

(** ** [flag_server_stranded_jobs] *)

Definition reservation (j : node_job) : bool :=
  holds (arrays_overlap (server_types j) (Some [CLUSTER_SERVER_KIND])).
(** A worker that advertises no server at all claims any row. *)
Definition served_by (j : node_job) (h : heartbeat) : bool :=
  holds (arrays_overlap (server_types j) (Some (llm_servers_available h))) ||
  bool_decide (length (llm_servers_available h) = 0%nat).
Definition stranded_clear (w : world) (j : node_job) : bool :=
  flagged j && server_reason j && of_project j && is_not_null (server_types j) &&
  (negb (has_status Queued (st j)) || exists_row (served_by j) (live_gpu w) || reservation j).
Definition stranded_flag (w : world) (j : node_job) : bool :=
  queued_gpu j && is_not_null (server_types j) && negb (flagged j) && negb (reservation j) &&
  negb (bool_decide (length (live_gpu w) = 0%nat)) &&
  negb (exists_row (served_by j) (live_gpu w)).
Definition stranded_reason (j : node_job) : option string :=
  (λ l, "no live worker serves any of: " +:+ String.concat "," l) <$> server_types j.
Definition flag_server_stranded_jobs : M (list node_job) := λ w,
  flag_sweep (stranded_clear w) (stranded_flag w) stranded_reason w.

(** ** [flag_unassignable_gpu_jobs] *)

Definition reaches (j : node_job) (h : heartbeat) : bool :=
  holds (t_le (context_length j) (llm_context_max h)).
Definition fits (j : node_job) (h : heartbeat) : bool :=
  holds (any_eq (required_model j) (Some (fits_models h))).
Definition knows (j : node_job) (h : heartbeat) : bool :=
  holds (any_eq (required_model j) (Some (known_models h))).
(** One box serves the job: its model fits there and its window is reachable
    there. *)
Definition serves_here (j : node_job) (h : heartbeat) : bool :=
  (is_null (required_model j) || fits j h) && (is_null (context_length j) || reaches j h).
Definition capacity_clear (w : world) (j : node_job) : bool :=
  flagged j && negb (server_reason j) && of_project j &&
  (negb (has_status Queued (st j)) || exists_row (serves_here j) (live_gpu w)).
Definition constrained (j : node_job) : bool :=
  is_not_null (required_model j) || is_not_null (context_length j).
Definition capacity_flag (w : world) (j : node_job) : bool :=
  queued_gpu j && constrained j && negb (flagged j) &&
  negb (bool_decide (length (live_gpu w) = 0%nat)) &&
  negb (exists_row (serves_here j) (live_gpu w)).

(** The reason names the half that is missing; a NULL operand makes it NULL. *)
Definition max_text (l : list (option Z)) : string :=
  match foldr max_opt None l with Some n => pretty n | None => "unknown" end.
Definition capacity_reason (w : world) (j : node_job) : option string :=
  let live := live_gpu w in
  let n := pretty (Z.of_nat (length live)) in
  if is_not_null (context_length j) && negb (exists_row (reaches j) live) then
    (λ c, "no live GPU machine can serve a " +:+ pretty c +:+ "-token context — none of " +:+ n
       +:+ " live GPU machine(s) reaches it (largest reachable: "
       +:+ max_text (map llm_context_max live)
       +:+ " tokens, checked against each box's free memory)") <$> context_length j
  else if is_not_null (required_model j) && negb (exists_row (knows j) live) then
    (λ m, "no live GPU machine SERVES model " +:+ m +:+ " — none of " +:+ n
       +:+ " live GPU machine(s) advertises it (weights not installed, or "
       +:+ "its server does not report the tag)") <$> required_model j
  else if is_not_null (required_model j) && negb (exists_row (fits j) live) then
    (λ m, "no live GPU machine can hold model " +:+ m +:+ " — none of " +:+ n
       +:+ " live GPU machine(s) has enough VRAM (max "
       +:+ max_text (map vram_total_mb live) +:+ "MB)") <$> required_model j
  else
    m ← required_model j;
    (λ c, "no single live GPU machine both holds model " +:+ m +:+ " and reaches a "
       +:+ pretty c +:+ "-token context — none of " +:+ n
       +:+ " live GPU machine(s) has both") <$> context_length j.
Definition flag_unassignable_gpu_jobs : M (list node_job) := λ w,
  flag_sweep (capacity_clear w) (capacity_flag w) (capacity_reason w) w.
End sweeps.

(** * Lemmas *)

Lemma on_jobs_on_jobs f g w : on_jobs f (on_jobs g w) = on_jobs (λ t, f (g t)) w.
Proof. by destruct w. Qed.
Lemma on_jobs_ext f g w : f (node_jobs w) = g (node_jobs w) → on_jobs f w = on_jobs g w.
Proof. intros E. unfold on_jobs. by rewrite E. Qed.

Section sweep_lemmas.
(** What both sweeps are: the clearing test passes only rows that carry a stamp,
    the stamping test only rows that carry none; a row whose stamp was just
    taken off is not stamped again, nor is a new stamp taken off. *)
Context (clear flag : node_job → bool) (reason : node_job → option string).
Context (clear_flagged : ∀ j, clear j = true → flagged j = true).
Context (flag_unflagged : ∀ j, flag j = true → flagged j = false).
Context (clear_then_flag : ∀ j, clear j = true → flag (upd unflag j) = false).
Context (flag_then_clear : ∀ j now,
  flag j = true → clear (upd (flag_as now (reason j)) j) = false).

Definition swept (now : Z) (j : node_job) : node_job :=
  if clear j then upd unflag j
  else if flag j then upd (flag_as now (reason j)) j else j.

Lemma clear_not_flag j : clear j = true → flag j = false.
Proof.
  intros Hc%clear_flagged. destruct (flag j) eqn:Hf; [|done].
  apply flag_unflagged in Hf. congruence.
Qed.

Lemma flag_sweep_rows w :
  flag_sweep clear flag reason w =
    (Ok (returning flag (λ j, upd (flag_as (clock w) (reason j)) j) (node_jobs w)),
     on_jobs (map (swept (clock w))) w).
Proof.
  unfold flag_sweep. rewrite on_jobs_on_jobs, node_jobs_on_jobs. f_equal.
  - f_equal. unfold returning, update_where. f_equal.
    induction (node_jobs w) as [|j l IH]; simpl; [done|]. rewrite IH.
    destruct (clear j) eqn:Ec; [|done]. by rewrite clear_then_flag, clear_not_flag.
  - apply on_jobs_ext. unfold update_where. rewrite map_map. apply map_ext. intros j.
    unfold swept. destruct (clear j) eqn:Ec; [|done]. by rewrite clear_then_flag.
Qed.

Lemma swept_settled now j : clear (swept now j) = false ∧ flag (swept now j) = false.
Proof.
  unfold swept. destruct (clear j) eqn:Ec; [split; [|by apply clear_then_flag]|].
  { destruct (clear (upd unflag j)) eqn:E; [|done].
    apply clear_flagged in E. by destruct j as [? []]. }
  destruct (flag j) eqn:Ef; [|done]. split; [by apply flag_then_clear|].
  destruct (flag (upd _ j)) eqn:E; [|done]. apply flag_unflagged in E. by destruct j as [? []].
Qed.

Lemma flag_sweep_twice w :
  let w' := (flag_sweep clear flag reason w).2 in flag_sweep clear flag reason w' = (Ok [], w').
Proof.
  rewrite flag_sweep_rows. simpl. rewrite flag_sweep_rows, node_jobs_on_jobs. f_equal.
  - f_equal. unfold returning. induction (node_jobs w) as [|j l IH]; [done|]. simpl.
    by rewrite (proj2 (swept_settled _ j)), IH.
  - rewrite on_jobs_on_jobs. apply on_jobs_ext. rewrite map_map. apply map_ext. intros j.
    unfold swept at 1. by destruct (swept_settled (clock w) j) as [-> ->].
Qed.

(** What a sweep promises, for the rows it judges: [mine] are those whose stamp,
    when they carry one, is this sweep's own, [servable] says whether some live
    machine can take the row, and [alive] whether there is a live machine. *)
Record sweep_exact (mine judged servable : node_job → bool) (alive : bool)
    (w : world) (rows : list node_job) (w' : world) : Prop := {
  se_judged j : j ∈ node_jobs w → mine j = true → judged j = true → alive = true →
    ∃ j', j' ∈ node_jobs w' ∧ spec j' = spec j ∧ status j' = status j ∧
      flagged j' = negb (servable j);
  se_left j : j ∈ node_jobs w → mine j = true → status j ≠ Queued →
    ∃ j', j' ∈ node_jobs w' ∧ spec j' = spec j ∧ status j' = status j ∧ flagged j' = false;
  se_rows j' : j' ∈ rows ↔ j' ∈ node_jobs w' ∧ flagged j' = true ∧
    ∃ j, j ∈ node_jobs w ∧ spec j = spec j' ∧ flagged j = false;
  se_dead : alive = false → rows = [];
}.

Lemma swept_spec now j : spec (swept now j) = spec j ∧ status (swept now j) = status j.
Proof. unfold swept. destruct (clear j), (flag j); by destruct j as [? []]. Qed.
Lemma swept_flagged now j :
  flagged (swept now j) = if clear j then false else flag j || flagged j.
Proof. unfold swept. destruct (clear j), (flag j); by destruct j as [? []]. Qed.

Lemma flag_sweep_exact mine judged servable alive w :
  db_ok w →
  (∀ j, mine j = true → judged j = true → alive = true →
     clear j = flagged j && servable j ∧ flag j = negb (flagged j) && negb (servable j)) →
  (∀ j, mine j = true → status j ≠ Queued → clear j = flagged j ∧ flag j = false) →
  (alive = false → ∀ j, flag j = false) →
  ∃ rows w', flag_sweep clear flag reason w = (Ok rows, w') ∧
    sweep_exact mine judged servable alive w rows w' ∧ db_ok w'.
Proof.
  intros Hok Hjudged Hleft Hdead. rewrite flag_sweep_rows. do 2 eexists. split; [done|].
  assert (∀ j, j ∈ node_jobs w → swept (clock w) j ∈ map (swept (clock w)) (node_jobs w)) as Hin
    by (intros; by apply list_elem_of_fmap_2).
  split; [split|].
  - intros j Hj Hm Hjd Ha. exists (swept (clock w) j). rewrite node_jobs_on_jobs.
    destruct (swept_spec (clock w) j) as [Hsp Hst]. split_and!; [by auto|done..|].
    rewrite swept_flagged. destruct (Hjudged j Hm Hjd Ha) as [-> ->].
    by destruct (flagged j), (servable j).
  - intros j Hj Hm Hs. exists (swept (clock w) j). rewrite node_jobs_on_jobs.
    destruct (swept_spec (clock w) j) as [Hsp Hst]. split_and!; [by auto|done..|].
    rewrite swept_flagged. destruct (Hleft j Hm Hs) as [-> ->]. by destruct (flagged j).
  - intros j'. rewrite node_jobs_on_jobs. unfold returning. rewrite list_elem_of_fmap. split.
    + intros (j & -> & Hj). apply list_elem_of_In, filter_In in Hj as [Hj%list_elem_of_In Hf].
      assert (clear j = false) as Hc.
      { destruct (clear j) eqn:Hc; [|done]. apply clear_not_flag in Hc. congruence. }
      split_and!; [|by destruct j as [? []]|].
      * pose proof (Hin j Hj) as Hs. unfold swept in Hs at 1. by rewrite Hc, Hf in Hs.
      * exists j. by auto.
    + intros ((j0 & -> & Hj0)%list_elem_of_fmap & Hfl & j & Hj & Hsp & Hu).
      destruct (swept_spec (clock w) j0) as [Hs0 _].
      assert (j0 = j) as ->.
      { apply (job_by_id_unique w); [done..|]. unfold job_key. congruence. }
      rewrite swept_flagged, Hu, orb_false_r in Hfl.
      destruct (clear j) eqn:Hc; [done|]. exists j. unfold swept. rewrite Hc, Hfl. split; [done|].
      by apply list_elem_of_In, filter_In; split; [apply list_elem_of_In|].
  - intros Ha. unfold returning. induction (node_jobs w) as [|j l IH]; [done|]. simpl.
    rewrite Hdead by done. apply IH. intros j0 Hj0. by apply list_elem_of_fmap_2.
  - eapply db_ok_same; [..|exact Hok]; [|by destruct w..].
    rewrite node_jobs_on_jobs, map_map. apply map_ext. intros j. apply swept_spec.
Qed.
End sweep_lemmas.

(** * Properties *)

Section assign_props.
Context `{QueueConfig} (stale_s : option Z) (proj : option string).
Implicit Types (w : world) (j : node_job).

Lemma live_gpu_on_jobs g w : live_gpu stale_s proj (on_jobs g w) = live_gpu stale_s proj w.
Proof. by destruct w. Qed.

Definition alive w : bool := negb (bool_decide (length (live_gpu stale_s proj w) = 0%nat)).
Definition capacity_mine j : bool := of_project proj j && negb (flagged j && server_reason j).
Definition capacity_judged j : bool := queued_gpu proj j && constrained j.
Definition servable w j : bool := exists_row (serves_here j) (live_gpu stale_s proj w).
Definition stranded_mine j : bool :=
  of_project proj j && is_not_null (server_types j) && implb (flagged j) (server_reason j).
Definition served w j : bool :=
  reservation j || exists_row (served_by j) (live_gpu stale_s proj w).

Lemma unflag_columns j :
  flagged (upd unflag j) = false ∧ has_status Queued (st (upd unflag j)) = has_status Queued (st j).
Proof. by destruct j as [? []]. Qed.
Lemma flag_columns now r j :
  flagged (upd (flag_as now r) j) = true ∧
  has_status Queued (st (upd (flag_as now r) j)) = has_status Queued (st j).
Proof. by destruct j as [? []]. Qed.
Lemma queued_status j : has_status Queued (st j) = bool_decide (status j = Queued).
Proof. done. Qed.

(** The four facts of [sweep_lemmas], for the capacity sweep and for the server
    sweep. *)
Lemma capacity_clear_then_flag w j :
  capacity_clear stale_s proj w j = true → capacity_flag stale_s proj w (upd unflag j) = false.
Proof.
  unfold capacity_clear, capacity_flag, queued_gpu. rewrite (proj2 (unflag_columns j)).
  change (serves_here (upd unflag j)) with (serves_here j). intros [_ Hd]%andb_true_iff.
  destruct (has_status Queued (st j)); [|done]. simpl in Hd. by rewrite Hd, !andb_false_r.
Qed.
Lemma capacity_flag_then_clear w j now r :
  capacity_flag stale_s proj w j = true →
  capacity_clear stale_s proj w (upd (flag_as now r) j) = false.
Proof.
  unfold capacity_clear, capacity_flag, queued_gpu. rewrite (proj2 (flag_columns now r j)).
  change (serves_here (upd (flag_as now r) j)) with (serves_here j). intros. split_bool.
  match goal with H : has_status _ _ = true |- _ => rewrite H end.
  match goal with H : exists_row _ _ = false |- _ => rewrite H end. by rewrite !andb_false_r.
Qed.
Lemma stranded_clear_then_flag w j :
  stranded_clear stale_s proj w j = true → stranded_flag stale_s proj w (upd unflag j) = false.
Proof.
  unfold stranded_clear, stranded_flag, queued_gpu. rewrite (proj2 (unflag_columns j)).
  change (served_by (upd unflag j)) with (served_by j).
  change (reservation (upd unflag j)) with (reservation j). intros [_ Hd]%andb_true_iff.
  destruct (has_status Queued (st j)); [|done]. simpl in Hd.
  apply orb_true_iff in Hd as [-> | ->]; by rewrite ?andb_false_r.
Qed.
Lemma stranded_flag_then_clear w j now r :
  stranded_flag stale_s proj w j = true →
  stranded_clear stale_s proj w (upd (flag_as now r) j) = false.
Proof.
  unfold stranded_clear, stranded_flag, queued_gpu. rewrite (proj2 (flag_columns now r j)).
  change (served_by (upd (flag_as now r) j)) with (served_by j).
  change (reservation (upd (flag_as now r) j)) with (reservation j). intros. split_bool.
  match goal with H : has_status _ _ = true |- _ => rewrite H end.
  match goal with H : reservation _ = false |- _ => rewrite H end.
  match goal with H : exists_row _ _ = false |- _ => rewrite H end. by rewrite !andb_false_r.
Qed.

Lemma capacity_judges w j :
  capacity_mine j = true → capacity_judged j = true → alive w = true →
  capacity_clear stale_s proj w j = flagged j && servable w j ∧
  capacity_flag stale_s proj w j = negb (flagged j) && negb (servable w j).
Proof.
  unfold capacity_mine, capacity_judged, capacity_clear, capacity_flag, queued_gpu, alive.
  fold (servable w j). intros [Hp Hm]%andb_true_iff [[[Hq Hg]%andb_true_iff _]%andb_true_iff Hc]%andb_true_iff Ha.
  rewrite Hp, Hq, Hg, Hc, Ha. destruct (flagged j), (server_reason j), (servable w j); done.
Qed.
Lemma capacity_leaves w j :
  capacity_mine j = true → status j ≠ Queued →
  capacity_clear stale_s proj w j = flagged j ∧ capacity_flag stale_s proj w j = false.
Proof.
  unfold capacity_mine, capacity_clear, capacity_flag, queued_gpu.
  intros [Hp Hm]%andb_true_iff Hs. rewrite queued_status, bool_decide_eq_false_2, Hp by done.
  by destruct (flagged j), (server_reason j).
Qed.
Lemma stranded_judges w j :
  stranded_mine j = true → queued_gpu proj j = true → alive w = true →
  stranded_clear stale_s proj w j = flagged j && served w j ∧
  stranded_flag stale_s proj w j = negb (flagged j) && negb (served w j).
Proof.
  unfold stranded_mine, stranded_clear, stranded_flag, queued_gpu, alive, served.
  intros [[Hp Ht]%andb_true_iff Hm]%andb_true_iff [[Hq Hg]%andb_true_iff _]%andb_true_iff Ha.
  rewrite Hp, Hq, Hg, Ht, Ha.
  destruct (flagged j), (server_reason j), (reservation j),
    (exists_row (served_by j) (live_gpu stale_s proj w)); done.
Qed.
Lemma stranded_leaves w j :
  stranded_mine j = true → status j ≠ Queued →
  stranded_clear stale_s proj w j = flagged j ∧ stranded_flag stale_s proj w j = false.
Proof.
  unfold stranded_mine, stranded_clear, stranded_flag, queued_gpu.
  intros [[Hp Ht]%andb_true_iff Hm]%andb_true_iff Hs.
  rewrite queued_status, bool_decide_eq_false_2, Hp, Ht by done.
  by destruct (flagged j), (server_reason j).
Qed.

(** The capacity sweep is exact.  When some gpu machine is live, a queued gpu
    row of the tenant that names a model or a window carries the stamp after the
    sweep exactly when no live machine can serve it, model and window on the same
    box; a row that has left the queue loses its stamp.  The sweep returns exactly
    the rows it has newly stamped, none when the fleet is down, and a second sweep
    returns none and changes nothing. *)
Lemma capacity_flags_are_exact w :
  db_ok w →
  ∃ rows w', flag_unassignable_gpu_jobs stale_s proj w = (Ok rows, w') ∧
    sweep_exact capacity_mine capacity_judged (servable w) (alive w) w rows w' ∧
    flag_unassignable_gpu_jobs stale_s proj w' = (Ok [], w').
Proof.
  intros Hok.
  assert (∀ j, capacity_clear stale_s proj w j = true → flagged j = true) as H1
    by (unfold capacity_clear; intros; by split_bool).
  assert (∀ j, capacity_flag stale_s proj w j = true → flagged j = false) as H2
    by (unfold capacity_flag; intros; by split_bool).
  pose proof (capacity_clear_then_flag w) as H3.
  pose proof (λ j now, capacity_flag_then_clear w j now (capacity_reason stale_s proj w j)) as H4.
  destruct (flag_sweep_exact _ _ (capacity_reason stale_s proj w) H1 H2 H3
    capacity_mine capacity_judged (servable w) (alive w) w Hok) as (rows & w' & E & Hex & _);
    [apply capacity_judges|apply capacity_leaves| |].
  { intros Ha j. unfold capacity_flag. unfold alive in Ha. by rewrite Ha, andb_false_r. }
  exists rows, w'. split; [done|]. split; [done|].
  pose proof (flag_sweep_twice _ _ _ H1 H2 H3 H4 w) as Ht. cbv zeta in Ht. rewrite E in Ht.
  cbn [snd] in Ht. etransitivity; [|exact Ht].
  assert (live_gpu stale_s proj w' = live_gpu stale_s proj w) as Hl
    by (unfold flag_sweep in E; injection E as _ <-; by rewrite !live_gpu_on_jobs).
  unfold flag_unassignable_gpu_jobs, capacity_clear, capacity_flag, capacity_reason.
  by rewrite Hl.
Qed.

(** The server sweep is exact in the same way: with a live gpu machine, a
    queued gpu row that prefers servers is stamped exactly when it is no cluster
    reservation and every live machine advertises servers, none of them one it
    prefers. *)
Lemma stranded_flags_are_exact w :
  db_ok w →
  ∃ rows w', flag_server_stranded_jobs stale_s proj w = (Ok rows, w') ∧
    sweep_exact stranded_mine (queued_gpu proj) (served w) (alive w) w rows w' ∧
    flag_server_stranded_jobs stale_s proj w' = (Ok [], w').
Proof.
  intros Hok.
  assert (∀ j, stranded_clear stale_s proj w j = true → flagged j = true) as H1
    by (unfold stranded_clear; intros; by split_bool).
  assert (∀ j, stranded_flag stale_s proj w j = true → flagged j = false) as H2
    by (unfold stranded_flag; intros; by split_bool).
  pose proof (stranded_clear_then_flag w) as H3.
  pose proof (λ j now, stranded_flag_then_clear w j now (stranded_reason j)) as H4.
  destruct (flag_sweep_exact _ _ stranded_reason H1 H2 H3
    stranded_mine (queued_gpu proj) (served w) (alive w) w Hok) as (rows & w' & E & Hex & _);
    [apply stranded_judges|apply stranded_leaves| |].
  { intros Ha j. unfold stranded_flag. unfold alive in Ha. by rewrite Ha, andb_false_r. }
  exists rows, w'. split; [done|]. split; [done|].
  pose proof (flag_sweep_twice _ _ _ H1 H2 H3 H4 w) as Ht. cbv zeta in Ht. rewrite E in Ht.
  cbn [snd] in Ht. etransitivity; [|exact Ht].
  assert (live_gpu stale_s proj w' = live_gpu stale_s proj w) as Hl
    by (unfold flag_sweep in E; injection E as _ <-; by rewrite !live_gpu_on_jobs).
  unfold flag_server_stranded_jobs, stranded_clear, stranded_flag. by rewrite Hl.
Qed.

Lemma any_eq_false {A} `{EqDecision A} (x : A) (l : list A) :
  x ∉ l → holds (any_eq (Some x) (Some l)) = false.
Proof. intros Hx. destruct l as [|y l]; [done|]. simpl. by apply bool_decide_eq_false_2. Qed.

(** The capacity sweep reads only the scalar model of a row.  A row that
    accepts several models is stamped as one no machine can serve when its first
    model fits nowhere, although a live box holds another model it accepts and
    the claim's capability gate lets that box take the row. *)
Lemma array_row_is_flagged_though_claimable w j h first ids m :
  db_ok w → j ∈ node_jobs w → queued_gpu proj j = true → flagged j = false →
  required_model j = Some first → required_model_ids j = Some ids → m ∈ ids →
  h ∈ live_gpu stale_s proj w → m ∈ known_models h → m ∈ fits_models h → m ≠ "" →
  (∀ h', h' ∈ live_gpu stale_s proj w → first ∉ fits_models h') →
  (∃ rows w' j', flag_unassignable_gpu_jobs stale_s proj w = (Ok rows, w') ∧
     j' ∈ rows ∧ spec j' = spec j) ∧
  ∀ g, g_known_models g = known_models h → known_gate g j = true.
Proof.
  intros Hok Hj Hq Hf Hm Hids Hin Hh Hk Hfit Hne Hnone. split.
  - do 3 eexists. split; [reflexivity|].
    assert (capacity_flag stale_s proj w j = true) as Hflag.
    { unfold capacity_flag, constrained. rewrite Hq, Hm, Hf. simpl.
      rewrite bool_decide_eq_false_2 by (destruct (live_gpu stale_s proj w); [inversion Hh|done]).
      simpl. apply negb_true_iff, exists_row_false. intros h' Hh'. unfold serves_here, fits.
      rewrite Hm, any_eq_false by auto. done. }
    rewrite node_jobs_on_jobs. unfold returning.
    split; [apply list_elem_of_fmap_2, list_elem_of_In, filter_In; split; [|exact Hflag]|done].
    apply list_elem_of_In, elem_of_update_where. exists j. split; [done|].
    unfold capacity_clear. by rewrite Hf.
  - intros g Hg. unfold known_gate. rewrite Hg.
    assert (m ∈ truthy_only (known_models h)) as Hmk.
    { apply list_elem_of_In, filter_In. split; [by apply list_elem_of_In|]. by destruct m. }
    destruct (truthy_only (known_models h)) as [|k ks] eqn:E; [done|]. rewrite <- E in *.
    rewrite Hm, Hids. generalize (any_eq (Some first) (Some (truthy_only (known_models h)))).
    unfold arrays_overlap, t_lift2.
    assert (overlap ids (truthy_only (known_models h)) = true) as ->.
    { unfold overlap. apply existsb_exists. exists m. split; [by apply list_elem_of_In|].
      by apply bool_decide_eq_true. }
    by intros [[]|].
Qed.
End assign_props.

(** * Witnesses *)

Module AssignDemo.
(** A row that accepts [big] or [small], a row that prefers a vLLM server and a
    plain one, on a fleet of one live box that holds [small] and runs ollama. *)
Definition either : enqueue_args :=
  mkArgs "r1" "a" "mod" "gpu" None
    (Some [JObj [("model", JStr "big")]; JObj [("model", JStr "small")]]) [] 100
    None None None None None None None JNull JNull.
Definition on_vllm : enqueue_args :=
  mkArgs "r1" "b" "mod" "gpu" None None [] 100 None None None None (Some ["vllm"]) None None
    JNull JNull.
Definition box : heartbeat :=
  mkHb "h1" "gpu" "" 1 1000 None ["small"] ["ollama"] None ["small"] None None None.
Definition queued : world :=
  set_heartbeats [box] (Demo.after [either; on_vllm; Demo.args "c" "gpu"]).
Definition row : node_job := Demo.first queued.
Lemma queued_ok : db_ok queued.
Proof.
  eapply db_ok_same; [| | |apply (Demo.enqueue_ok (Demo.args "c" "gpu"));
    [apply (Demo.enqueue_ok on_vllm); [apply (Demo.enqueue_ok either);
      [apply Demo.empty_ok|reflexivity]|reflexivity]|reflexivity]]; reflexivity.
Qed.
End AssignDemo.

Lemma capacity_flags_are_exact_witness :
  ∃ rows w', @flag_unassignable_gpu_jobs Demo.cfg None None AssignDemo.queued = (Ok rows, w') ∧
    length rows = 1%nat ∧
    @flag_unassignable_gpu_jobs Demo.cfg None None w' = (Ok [], w').
Proof.
  destruct (@capacity_flags_are_exact Demo.cfg None None AssignDemo.queued AssignDemo.queued_ok)
    as (rows & w' & E & _ & Ht).
  exists rows, w'. split; [exact E|]. split; [|exact Ht].
  assert (Ok rows = (@flag_unassignable_gpu_jobs Demo.cfg None None AssignDemo.queued).1) as Hr
    by (rewrite E; reflexivity).
  vm_compute in Hr. injection Hr as ->. reflexivity.
Defined.

Lemma stranded_flags_are_exact_witness :
  ∃ rows w', @flag_server_stranded_jobs Demo.cfg None None AssignDemo.queued = (Ok rows, w') ∧
    length rows = 1%nat ∧
    @flag_server_stranded_jobs Demo.cfg None None w' = (Ok [], w').
Proof.
  destruct (@stranded_flags_are_exact Demo.cfg None None AssignDemo.queued AssignDemo.queued_ok)
    as (rows & w' & E & _ & Ht).
  exists rows, w'. split; [exact E|]. split; [|exact Ht].
  assert (Ok rows = (@flag_server_stranded_jobs Demo.cfg None None AssignDemo.queued).1) as Hr
    by (rewrite E; reflexivity).
  vm_compute in Hr. injection Hr as ->. reflexivity.
Defined.

Lemma array_row_is_flagged_though_claimable_witness :
  ∃ rows w' (j' : node_job), @flag_unassignable_gpu_jobs Demo.cfg None None AssignDemo.queued = (Ok rows, w') ∧
    j' ∈ rows ∧ node_id j' = "a".
Proof.
  destruct (@array_row_is_flagged_though_claimable Demo.cfg None None AssignDemo.queued
    AssignDemo.row AssignDemo.box "big" ["big"; "small"] "small")
    as [(rows & w' & j' & E & Hin & Hsp) _].
  - exact AssignDemo.queued_ok.
  - left.
  - reflexivity.
  - reflexivity.
  - reflexivity.
  - reflexivity.
  - right. left.
  - left.
  - left.
  - left.
  - discriminate.
  - intros h Hh. vm_compute in Hh. apply list_elem_of_singleton in Hh as ->. simpl.
    intros Hs%list_elem_of_singleton. discriminate.
  - exists rows, w', j'. split_and!; [exact E|exact Hin|]. rewrite Hsp. reflexivity.
Defined.
