(* ===== verification/Scheduler.v ===== *)
(** * The ingest ticker ([queue_workflows/scheduler.py])

    The schedule as data, the next instant an entry fires, the grouping of
    entries that fire together, the boot kick, and one round of the ticker.

    An instant is a number of microseconds since the epoch, in UTC. *)

From S2P Require Import Prelude.
From S2P Require Import Json.
From S2P Require Import Schema.
From S2P Require Import NodeQueue.
From S2P Require Import Ingest.
Local Open Scope string_scope.
Local Open Scope list_scope.
Local Open Scope Z_scope.

Definition MINUTE : Z := 60 * 1000000.
Definition HOUR : Z := 60 * MINUTE.

(** [ScheduleEntry] *)
Record schedule_entry := mkEntry {
  e_name : string;
  e_minute : Z;
  e_task_name : string;
  e_queue : string;
  e_hours : option (list Z);
}.

(** The calendar fields [replace] and [hour] read. *)
Definition hour_start (t : Z) : Z := t - t mod HOUR.
Definition hour_of (t : Z) : Z := (t / HOUR) mod 24.
(** [t.replace(minute=m, second=0, microsecond=0)] *)
Definition at_minute (t m : Z) : Z := hour_start t + m * MINUTE.

(** The walk to the next allowed hour, at most [fuel] steps of one hour. *)
Fixpoint walk_hours (hours : list Z) (fuel : nat) (candidate : Z) : Z :=
  match fuel with
  | O => candidate
  | S n => if bool_decide (hour_of candidate ∈ hours) then candidate
           else walk_hours hours n (candidate + HOUR)
  end.

(** [next_fire_at]; [replace] raises on a minute outside 0..59. *)
Definition first_candidate (e : schedule_entry) (now : Z) : Z :=
  let candidate := at_minute now (e_minute e) in
  if candidate <=? now then candidate + HOUR else candidate.
Definition next_fire_at (e : schedule_entry) (now : Z) : result Z :=
  if negb ((0 <=? e_minute e) && (e_minute e <=? 59))
  then Raise (ValueError "minute must be in 0..59")
  else Ok (match e_hours e with
           | None => first_candidate e now
           | Some hours => walk_hours hours 24 (first_candidate e now)
           end).

(** [_soonest]: the least next instant and the entries that fire then; [min] of
    an empty schedule raises. *)
Fixpoint fires (l : list schedule_entry) (now : Z) : result (list (Z * schedule_entry)) :=
  match l with
  | [] => Ok []
  | e :: r => t ← next_fire_at e now; rest ← fires r now; Ok ((t, e) :: rest)
  end.
Definition soonest_of (l : list (Z * schedule_entry)) : option Z :=
  foldr (λ x m, match m with None => Some x.1 | Some y => Some (Z.min x.1 y) end) None l.
Definition _soonest (l : list schedule_entry) (now : Z) : result (Z * list schedule_entry) :=
  fs ← fires l now;
  match soonest_of fs with
  | None => Raise (ValueError "min() arg is an empty sequence")
  | Some t => Ok (t, map snd (List.filter (λ x, x.1 =? t) fs))
  end.

Section ticker.
Context `{QueueConfig}.

(** [enqueue_due] *)
Fixpoint enqueue_due (due : list schedule_entry) (reason : string) : M (list string) :=
  match due with
  | [] => mret []
  | e :: r =>
      i ← enqueue_ingest_job (e_task_name e) (e_queue e) reason 100 None None;
      rest ← enqueue_due r reason;
      mret (i :: rest)
  end.

(** [enqueue_boot_kick] *)
Definition enqueue_boot_kick (l : list schedule_entry) : M (list string) :=
  enqueue_due (List.filter (λ e, negb (PyStr.contains "freshness" (e_task_name e))) l) "boot".

(** One round of [Ticker.run_forever] that is not stopped: read the clock, sleep
    until the soonest instant has come (the inner loop ends when the clock, read
    as [wake], has reached it), enqueue what was due. *)
Definition ticker_round (l : list schedule_entry) (now wake : Z) : M (Z * list string) :=
  sd ← lift (_soonest l now);
  let '(soonest, due) := sd : Z * list schedule_entry in
  if wake <? soonest then raise (OtherError "still sleeping")
  else ids ← enqueue_due due "tick"; mret (soonest, ids).
End ticker.

(** * Lemmas *)

Section calendar.
Implicit Types (t now m : Z).

Lemma HOUR_val : HOUR = 3600000000.
Proof. reflexivity. Qed.
Lemma MINUTE_val : MINUTE = 60000000.
Proof. reflexivity. Qed.

Lemma hour_start_spec t : hour_start t = HOUR * (t / HOUR).
Proof. unfold hour_start. pose proof (Z.div_mod t HOUR). rewrite HOUR_val in *. lia. Qed.

(** An instant at minute [m] sharp. *)
Definition sharp (m t : Z) : Prop := t mod HOUR = m * MINUTE.

Lemma at_minute_sharp t m : 0 ≤ m ≤ 59 → sharp m (at_minute t m).
Proof.
  intros Hm. unfold sharp, at_minute. rewrite hour_start_spec.
  replace (HOUR * (t / HOUR) + m * MINUTE) with (m * MINUTE + (t / HOUR) * HOUR) by ring.
  rewrite Z_mod_plus_full, Z.mod_small; [done|]. rewrite MINUTE_val, HOUR_val. lia.
Qed.

Lemma sharp_add m t k : sharp m t → sharp m (t + k * HOUR).
Proof. unfold sharp. by rewrite Z_mod_plus_full. Qed.

(** Two instants of the same minute differ by whole hours. *)
Lemma sharp_diff m t u : sharp m t → sharp m u → ∃ k, u = t + k * HOUR.
Proof.
  unfold sharp. intros Ht Hu. exists (u / HOUR - t / HOUR).
  pose proof (Z.div_mod t HOUR). pose proof (Z.div_mod u HOUR). rewrite HOUR_val in *. lia.
Qed.

Lemma hour_of_add t k : hour_of (t + k * HOUR) = (hour_of t + k) mod 24.
Proof.
  unfold hour_of. rewrite Z.div_add by (rewrite HOUR_val; lia).
  by rewrite Zplus_mod_idemp_l.
Qed.

(** The first candidate: the earliest instant after [now] at the minute. *)
Lemma first_candidate_spec e now :
  0 ≤ e_minute e ≤ 59 →
  now < first_candidate e now ∧ sharp (e_minute e) (first_candidate e now) ∧
  ∀ t, now < t → sharp (e_minute e) t → first_candidate e now ≤ t.
Proof.
  intros Hm. set (c := at_minute now (e_minute e)).
  assert (sharp (e_minute e) c) as Hc by by apply at_minute_sharp.
  assert (now - HOUR < c ≤ now + HOUR) as Hr.
  { unfold c, at_minute. rewrite hour_start_spec. pose proof (Z.div_mod now HOUR).
    pose proof (Z.mod_pos_bound now HOUR). rewrite MINUTE_val, HOUR_val in *. lia. }
  unfold first_candidate. fold c. destruct (Z.leb_spec c now) as [Hle|Hgt].
  - split_and!; [lia|by rewrite <- (Z.mul_1_l HOUR); apply sharp_add|].
    intros t Ht Hs. destruct (sharp_diff _ _ _ Hc Hs) as [k ->].
    assert (0 < k) by (rewrite HOUR_val in *; nia). rewrite HOUR_val in *. lia.
  - split_and!; [done..|]. intros t Ht Hs. destruct (sharp_diff _ _ _ Hc Hs) as [k ->].
    assert (c ≤ now + HOUR) as Hup by lia.
    destruct (Z.le_gt_cases 0 k); [rewrite HOUR_val in *; lia|].
    assert (now < hour_start now + HOUR) as Hh.
    { rewrite hour_start_spec. pose proof (Z.div_mod now HOUR).
      pose proof (Z.mod_pos_bound now HOUR). rewrite HOUR_val in *. lia. }
    assert (c ≤ hour_start now + 59 * MINUTE) by (unfold c, at_minute; rewrite MINUTE_val; lia).
    assert (hour_start now ≤ now) by (rewrite hour_start_spec; pose proof (Z.div_mod now HOUR);
      pose proof (Z.mod_pos_bound now HOUR); rewrite HOUR_val in *; lia).
    rewrite MINUTE_val, HOUR_val in *. nia.
Qed.

(** The walk stops at the first allowed hour, if one comes within the fuel. *)
Lemma walk_hours_spec hours n c d :
  (d < n)%nat → hour_of (c + Z.of_nat d * HOUR) ∈ hours →
  ∃ k, (k ≤ d)%nat ∧ walk_hours hours n c = c + Z.of_nat k * HOUR ∧
    hour_of (c + Z.of_nat k * HOUR) ∈ hours ∧
    ∀ i, (i < k)%nat → hour_of (c + Z.of_nat i * HOUR) ∉ hours.
Proof.
  revert c d. induction n as [|n IH]; intros c d Hd Hin; [lia|]. simpl.
  case_bool_decide as Hc.
  - exists 0%nat. split_and!; [lia|lia| |lia]. by rewrite Z.mul_0_l, Z.add_0_r.
  - destruct d as [|d].
    { exfalso. apply Hc. by rewrite Z.mul_0_l, Z.add_0_r in Hin. }
    assert (∀ i : nat, c + Z.of_nat (S i) * HOUR = c + HOUR + Z.of_nat i * HOUR) as Hshift
      by (intros i; lia).
    rewrite Hshift in Hin. destruct (IH (c + HOUR) d) as (k & Hk & Hw & Hin' & Hno); [lia|done|].
    exists (S k). rewrite Hshift. split_and!; [lia|done|done|].
    intros [|i] Hi; [by rewrite Z.mul_0_l, Z.add_0_r|]. rewrite Hshift. apply Hno. lia.
Qed.
End calendar.

Section schedule_lemmas.
Implicit Types (e : schedule_entry) (t now : Z).

Lemma walk_hours_ge hours n c : c ≤ walk_hours hours n c.
Proof.
  revert c. induction n as [|n IH]; intros c; simpl; [lia|].
  case_bool_decide; [lia|]. specialize (IH (c + HOUR)). rewrite HOUR_val in *. lia.
Qed.

Lemma walk_hours_empty n c : walk_hours [] n c = c + Z.of_nat n * HOUR.
Proof.
  revert c. induction n as [|n IH]; intros c; cbn [walk_hours]; [lia|].
  rewrite bool_decide_eq_false_2 by set_solver. rewrite IH. lia.
Qed.

Lemma next_fire_after e now t : next_fire_at e now = Ok t → now < t.
Proof.
  unfold next_fire_at. destruct (negb _) eqn:E; [done|]. intros [= <-].
  apply negb_false_iff, andb_true_iff in E as [E1 E2].
  destruct (first_candidate_spec e now) as (Hlt & _); [lia|].
  destruct (e_hours e) as [hs|]; [|done].
  exact (Z.lt_le_trans _ _ _ Hlt (walk_hours_ge hs 24 (first_candidate e now))).
Qed.

Lemma fires_after l now fs t e : fires l now = Ok fs → (t, e) ∈ fs → now < t.
Proof.
  revert fs. induction l as [|x l IH]; intros fs; simpl.
  { intros [= <-]. set_solver. }
  unfold mbind, result_bind. destruct (next_fire_at x now) as [u|] eqn:Eu; [|done].
  destruct (fires l now) as [rest|]; [|done]. intros [= <-] [E|Hin]%elem_of_cons; [|eauto].
  injection E as -> ->. by eapply next_fire_after.
Qed.

Lemma soonest_of_elem l t : soonest_of l = Some t → ∃ e, (t, e) ∈ l.
Proof.
  revert t. induction l as [|[u e] l IH]; intros t; simpl; [done|].
  destruct (soonest_of l) as [m|]; intros [= <-].
  - destruct (Z.min_spec u m) as [[_ ->]|[_ ->]]; [exists e; left|].
    destruct (IH m eq_refl) as [e' He']. exists e'. by right.
  - exists e. left.
Qed.

Lemma soonest_after l now t due : _soonest l now = Ok (t, due) → now < t.
Proof.
  unfold _soonest, mbind, result_bind. destruct (fires l now) as [fs|] eqn:Ef; [|done].
  destruct (soonest_of fs) as [m|] eqn:Em; [|done]. intros [= <- _].
  destruct (soonest_of_elem _ _ Em) as [e He]. by eapply fires_after.
Qed.
End schedule_lemmas.

(** * Properties *)

(** When an entry fires: at its minute sharp, in one of its hours. *)
Definition fires_at (e : schedule_entry) (t : Z) : Prop :=
  sharp (e_minute e) t ∧ match e_hours e with None => True | Some hs => hour_of t ∈ hs end.

(** [next_fire_at] is the earliest instant strictly after now at which the
    entry fires, whenever the entry can fire at all: its minute is one of an hour
    and its hours, if it names any, include an hour of the day. *)
Lemma next_fire_at_is_the_earliest e now :
  0 ≤ e_minute e ≤ 59 →
  match e_hours e with None => True | Some hs => ∃ h, h ∈ hs ∧ 0 ≤ h < 24 end →
  ∃ t, next_fire_at e now = Ok t ∧ now < t ∧ fires_at e t ∧
    ∀ u, now < u → fires_at e u → t ≤ u.
Proof.
  intros Hm Hh. destruct (first_candidate_spec e now Hm) as (Hlt & Hs & Hleast).
  set (c := first_candidate e now) in *. unfold next_fire_at. fold c.
  replace (negb _) with false by (symmetry; apply negb_false_iff, andb_true_iff; lia).
  unfold fires_at. destruct (e_hours e) as [hs|].
  - destruct Hh as (h & Hin & Hr). set (d := Z.to_nat ((h - hour_of c) mod 24)).
    assert (0 ≤ (h - hour_of c) mod 24 < 24) as Hd by (apply Z.mod_pos_bound; lia).
    assert (hour_of (c + Z.of_nat d * HOUR) = h) as Hhd.
    { rewrite hour_of_add. unfold d. rewrite Z2Nat.id by lia.
      rewrite Zplus_mod_idemp_r. replace (hour_of c + (h - hour_of c)) with h by lia.
      by apply Z.mod_small. }
    destruct (walk_hours_spec hs 24 c d) as (k & Hk & -> & Hkin & Hno); [lia|by rewrite Hhd|].
    eexists. split; [done|]. split_and!.
    + rewrite HOUR_val. lia.
    + by apply sharp_add.
    + done.
    + intros u Hu [Hsu Huin]. specialize (Hleast u Hu Hsu).
      destruct (sharp_diff _ _ _ Hs Hsu) as [j ->].
      destruct (Z.le_gt_cases (Z.of_nat k) j) as [Hkj|Hjk]; [rewrite HOUR_val in *; nia|].
      exfalso. apply (Hno (Z.to_nat j)); [rewrite HOUR_val in *; lia|].
      by rewrite Z2Nat.id by (rewrite HOUR_val in *; lia).
  - eexists. split; [done|]. split_and!; [done..|]. intros u Hu [Hsu _]. by apply Hleast.
Qed.

(** An entry with an empty set of hours does fire: its next instant is the
    plain one a day later, so the ticker wakes for it and enqueues it. *)
Lemma empty_hours_still_fire e now :
  0 ≤ e_minute e ≤ 59 → e_hours e = Some [] →
  _soonest [e] now = Ok (first_candidate e now + 24 * HOUR, [e]).
Proof.
  intros Hm Hh. unfold _soonest, fires, mbind, result_bind, next_fire_at.
  replace (negb _) with false by (symmetry; apply negb_false_iff, andb_true_iff; lia).
  rewrite Hh, walk_hours_empty. change (Z.of_nat 24) with 24.
  unfold soonest_of. cbn [foldr fst List.filter]. rewrite Z.eqb_refl. done.
Qed.

Section ticker_props.
Context `{QueueConfig}.

Lemma enqueue_due_length due reason w ids w' :
  enqueue_due due reason w = (Ok ids, w') → length ids = length due.
Proof.
  revert w ids w'. induction due as [|e due IH]; intros w ids w'; simpl; [by intros [= <- _]|].
  unfold mbind, M_bind. destruct (enqueue_ingest_job _ _ _ _ _ _ w) as [[i|] w1]; [|done].
  destruct (enqueue_due due reason w1) as [[rest|] w2] eqn:E; [|done].
  intros [= <- _]. simpl. f_equal. by eapply IH.
Qed.

(** The ticker never fires an instant twice.  A round enqueues one job for
    every entry due at the soonest instant, which is after the clock the round
    read; and the soonest instant of any later round, whose clock has reached the
    wake of this one, is strictly later. *)
Lemma ticker_rounds_advance l now wake w soonest ids w' :
  ticker_round l now wake w = (Ok (soonest, ids), w') →
  now < soonest ≤ wake ∧
  (∃ due, _soonest l now = Ok (soonest, due) ∧ length ids = length due) ∧
  ∀ now' soonest' due', wake ≤ now' → _soonest l now' = Ok (soonest', due') →
    soonest < soonest'.
Proof.
  unfold ticker_round, lift, mbind, M_bind.
  destruct (_soonest l now) as [[s due]|] eqn:Es; [|done].
  destruct (Z.ltb_spec wake s); [done|].
  destruct (enqueue_due due "tick" w) as [[ids'|] w1] eqn:Ee; [|done].
  intros [= <- <- <-]. pose proof (soonest_after _ _ _ _ Es). split_and!; [lia..| |].
  - exists due. split; [done|]. by eapply enqueue_due_length.
  - intros now' s' due' Hw Es'%soonest_after. lia.
Qed.
End ticker_props.

(** * Witnesses *)

(** Daily at 06:15, and an entry with no hour. *)
Definition daily : schedule_entry := mkEntry "d" 15 "run_fetch" "fetch" (Some [6]).
Definition never : schedule_entry := mkEntry "n" 15 "run_fetch" "fetch" (Some []).

Lemma next_fire_at_is_the_earliest_witness :
  next_fire_at daily 0 = Ok (6 * HOUR + 15 * MINUTE) ∧
  ∀ u, 0 < u → fires_at daily u → 6 * HOUR + 15 * MINUTE ≤ u.
Proof.
  split; [reflexivity|].
  destruct (next_fire_at_is_the_earliest daily 0) as (t & Ht & _ & _ & Hmin).
  - simpl. lia.
  - exists 6. split; [left|lia].
  - injection Ht as <-. exact Hmin.
Defined.

Lemma empty_hours_still_fire_witness :
  _soonest [never] 0 = Ok (15 * MINUTE + 24 * HOUR, [never]).
Proof.
  apply (empty_hours_still_fire never 0); [simpl; lia|reflexivity].
Defined.

Lemma ticker_rounds_advance_witness :
  ∃ ids w', @ticker_round Demo.cfg [daily] 0 (7 * HOUR) Demo.empty_world
              = (Ok (6 * HOUR + 15 * MINUTE, ids), w') ∧ 6 * HOUR + 15 * MINUTE ≤ 7 * HOUR.
Proof.
  eexists _, _. split; [reflexivity|].
  eapply (@ticker_rounds_advance Demo.cfg [daily] 0 (7 * HOUR) Demo.empty_world). reflexivity.
Defined.
