(* ===== verification/InputSpec.v ===== *)
(** * Input specs ([queue_workflows/dispatcher.py], [_build_input_spec])

    The payload a parked input step shows to the operator, widget by widget, and
    the callback that stores it. *)

From S2P Require Import Prelude.
From S2P Require Import Json.
From S2P Require Import Refs.
From S2P Require Import Schema.
From S2P Require Import NodeQueue.
From S2P Require Import RunStore.
From S2P Require Import Workflow.
From S2P Require Import Dispatcher.
Local Open Scope string_scope.
Local Open Scope list_scope.
Local Open Scope Z_scope.

(** What the builder reads of the machine: the size of a file ([stat] may fail),
    whether one exists, the [walls.json] manifests under a run's directory (the
    lanes in order, each with its walls and its [n_walls], None for one that does
    not parse), [Path.resolve], the [views.json] of a directory (empty when it does
    not parse), and [float()] of a JSON value (None when it raises). *)
Class SpecDisk := {
  file_size : string → option Z;
  path_exists : string → bool;
  wall_manifests : string → list (string * option (list dict * option json));
  resolve_path : string → string;
  views_json : string → option (list dict);
  py_float : json → option Q;
}.

(** ** Paths *)

Module PyPath.
(** The components of a POSIX path, empty and "." ones dropped. *)
Definition parts (p : string) : list string :=
  List.filter (λ c, negb (String.eqb c "" || String.eqb c ".")) (PyStr.split "/" p).
Definition absolute (p : string) : bool := PyStr.startswith "/" p.
(** The root: exactly two leading slashes are kept. *)
Definition root_of (p : string) : string :=
  if negb (absolute p) then ""
  else if PyStr.startswith "//" p && negb (PyStr.startswith "///" p) then "//" else "/".
(** [Path(p).as_posix()] of a path given by its root and components *)
Definition posix (root : string) (l : list string) : string :=
  match l with
  | [] => if PyStr.truthy root then root else "."
  | _ => root +:+ String.concat "/" l
  end.
(** [(Path(a) / b).as_posix()] *)
Definition join (a b : string) : string :=
  if absolute b then posix (root_of b) (parts b) else posix (root_of a) (parts a ++ parts b).
Fixpoint strip_parts (base p : list string) : option (list string) :=
  match base, p with
  | [], _ => Some p
  | b :: base', c :: p' => if String.eqb b c then strip_parts base' p' else None
  | _, [] => None
  end.
(** [Path(p).relative_to(base).as_posix()]; None is ValueError *)
Definition relative_to (p base : string) : option string :=
  if String.eqb (root_of p) (root_of base)
  then posix "" <$> strip_parts (parts base) (parts p) else None.
(** [Path(p).suffix]: from the last dot of the name, when it is neither its
    first nor its last character *)
Definition suffix (p : string) : string :=
  match last (parts p) with
  | None => ""
  | Some name =>
      match rev (PyStr.split "." (PyStr.drop 1 name)) with
      | ext :: _ :: _ => if PyStr.truthy ext then "." +:+ ext else ""
      | _ => ""
      end
  end.
End PyPath.

Definition _EXT_KIND : list (string * string) :=
  [(".png", "image"); (".jpg", "image"); (".jpeg", "image"); (".webp", "image");
   (".gif", "image"); (".json", "json"); (".geojson", "json"); (".csv", "csv");
   (".txt", "text"); (".md", "text"); (".ply", "pointcloud"); (".obj", "mesh"); (".glb", "mesh")].

(** [d.get(k)] on a constant table *)
Definition dict_get' {A} (k : string) (d : list (string * A)) : option A :=
  snd <$> List.find (λ kv, String.eqb kv.1 k) d.

Section input_spec.
Context `{PyEnv} `{QueueConfig} `{DispatchConfig} `{SpecDisk}.

(** [_file_info_for_abs_path] *)
Definition _file_info_for_abs_path (abs_path : string) (dir : option string) : json :=
  let rel := match nonempty dir with
             | Some d => default abs_path (PyPath.relative_to abs_path d)
             | None => abs_path
             end in
  JObj [("abs_path", JStr abs_path); ("rel_path", JStr rel);
        ("kind", JStr (default "file" (dict_get' (PyStr.lower (PyPath.suffix abs_path)) _EXT_KIND)));
        ("size_bytes", JInt (default 0 (file_size abs_path)))].

(** A key of the step only a widget reads. *)
Definition extra (s : step) (k : string) : json := default JNull (dict_get k (s_extra s)).

(** [try: _resolve_ref(ref, context) except Exception: []] *)
Definition resolve_or_nil (ref : json) (ctx : dict) : json :=
  match _resolve_ref ref ctx with Ok v => v | Raise _ => JArr [] end.
Definition resolve_source (ref : json) (ctx : dict) : json :=
  if truthy ref then resolve_or_nil ref ctx else JArr [].

(** The list forms a resolved source takes: a dictionary is wrapped, a path too
    where the widget allows one, anything else that is no list is dropped. *)
Definition as_options (wrap_path : bool) (dir : option string) (v : json) : list json :=
  match v with
  | JObj _ => [v]
  | JArr l => l
  | JStr p => if wrap_path then [_file_info_for_abs_path p dir] else []
  | _ => []
  end.

(** [options[0].get(key)], with AttributeError on an item that is no dict. *)
Definition first_get (opts : list json) (k : string) : result json :=
  match opts with
  | JObj fs :: _ => Ok (default JNull (dict_get k fs))
  | _ => Raise (AttributeError "get")
  end.
(** The pair of path fields, when there is an option. *)
Definition path_fields (rel abs : string) (opts : list json) : result dict :=
  match opts with
  | [] => Ok []
  | _ => r ← first_get opts "rel_path"; a ← first_get opts "abs_path"; Ok [(rel, r); (abs, a)]
  end.

(** [turnout]: the options that carry a value. *)
Definition turnout_option (o : json) : option json :=
  match o with
  | JObj fs =>
      let v := default JNull (dict_get "value" fs) in
      if is_none v then None
      else Some (JObj [("label", JStr (py_str (default v (dict_get "label" fs))));
                       ("value", JStr (py_str v))])
  | _ => None
  end.
Definition turnout_options (v : json) : result json :=
  if negb (truthy v) then Ok (JArr [])
  else match v with
       | JArr l => Ok (JArr (omap turnout_option l))
       | JObj _ | JStr _ => Ok (JArr [])
       | _ => Raise (TypeError "not iterable")
       end.

(** [initial_mask_opacity], clamped to 0..1; absent when it is no number. *)
Definition clamp01 (q : Q) : Q :=
  let q := if Qle_bool 1 q then 1%Q else q in if Qle_bool q 0 then 0%Q else q.
Definition opacity_field (op : json) : dict :=
  if is_none op then []
  else match py_float op with
       | Some q => [("initial_mask_opacity", JFloat (clamp01 q))]
       | None => []
       end.

(** An optional reference to one file ([predefined_layers], [hide_mask]). *)
Definition file_ref_fields (s : step) (ctx : dict) (dir : option string) (key : string) :
    result dict :=
  if is_none (extra s key) then Ok []
  else path_fields (key +:+ "_rel_path") (key +:+ "_abs_path")
         (as_options true dir (resolve_or_nil (extra s key) ctx)).

(** [_resolve_pano_meta]: the kept keys of the view entry of each option, by the
    index in its path. *)
Fixpoint leading_digits (s : string) : string * string :=
  match s with
  | String c r => if PyStr.is_digit c then let '(d, rest) := leading_digits r in (String c d, rest)
                  else ("", s)
  | EmptyString => ("", "")
  end.
Fixpoint pano_index (s : string) : option Z :=
  match s with
  | EmptyString => None
  | String _ r =>
      let here := if PyStr.startswith "pano_" s then
                    match leading_digits (PyStr.removeprefix "pano_" s) with
                    | (String _ _ as d, String "/" _) => Some (PyStr.int_of_digits d)
                    | _ => None
                    end
                  else None in
      match here with Some n => Some n | None => pano_index r end
  end.
(** [_views_for]: the first [views.json] on the way up from the file, not above
    the run's directory; [ps] are the components of the directory reached, the
    innermost first. *)
Fixpoint views_up (dir root : string) (ps : list string) : option (list dict) :=
  let here := rev ps in
  if String.eqb root (PyPath.root_of dir) &&
     is_not_null (PyPath.strip_parts (PyPath.parts dir) here)
  then match views_json (PyPath.posix root here) with
       | Some v => Some v
       | None => match ps with [] => None | _ :: up => views_up dir root up end
       end
  else None.
Definition _views_for (dir rel : string) : option (list dict) :=
  let p := resolve_path (PyPath.join dir rel) in
  views_up dir (PyPath.root_of p) (tail (rev (PyPath.parts p))).
Definition PANO_KEYS : list string :=
  ["pano_id"; "parcel_heading_deg"; "date"; "camera_height_m"; "distance_m"].
Definition pano_entry (dir : string) (opt : json) : result json :=
  match opt with
  | JObj fs =>
      match default JNull (dict_get "rel_path" fs) with
      | JStr rel =>
          match pano_index rel with
          | None => Ok (JObj [])
          | Some idx =>
              let entry := default [] (default [] (_views_for dir rel) !! Z.to_nat idx) in
              Ok (JObj (omap (λ k, (λ v, (k, v)) <$> dict_get k entry) PANO_KEYS))
          end
      | v => if truthy v then Raise (TypeError "expected string") else Ok (JObj [])
      end
  | _ => Raise (AttributeError "get")
  end.
Definition _resolve_pano_meta (dir : option string) (opts : list json) : result json :=
  match nonempty dir with
  | None => Ok (JArr (map (λ _, JObj []) opts))
  | Some d => JArr <$> mapR (pano_entry d) opts
  end.

(** [assign_walls]: the manifests of every parser lane and the plates found. *)
Definition wall_path (dir lane : string) (fs : dict) : result string :=
  match default (JStr "") (dict_get "image_path" fs) with
  | JStr rel =>
      Ok (if PyStr.truthy rel
          then PyPath.join (PyPath.join dir ("parse_facade/" +:+ lane)) rel else "")
  | v => if truthy v then Raise (TypeError "unsupported operand") else Ok ""
  end.
Definition wall_entry (dir lane : string) (fs : dict) : result dict :=
  p ← wall_path dir lane fs;
  Ok [("id", default JNull (dict_get "id" fs)); ("label", default (JStr "") (dict_get "label" fs));
      ("abs_path", JStr p)].
Definition walls_of (m : option (list dict * option json)) : list dict :=
  match m with Some (l, _) => l | None => [] end.
(** A lane's entry and the proposals it adds. *)
Definition proposal (lane : string) (entry : dict) : json :=
  JObj (dict_merge entry
    [("parser", JStr lane);
     ("global_id", JStr (lane +:+ ":" +:+ py_str (default JNull (dict_get "id" entry))))]).
Definition lane_entry (dir : string) (lm : string * option (list dict * option json)) :
    result (json * list json) :=
  walls ← mapR (wall_entry dir lm.1) (walls_of lm.2);
  Ok (JObj [("parser", JStr lm.1);
            ("n_walls", match lm.2 with
                        | None => JInt 0
                        | Some (_, n) => default (JInt (Z.of_nat (length walls))) n
                        end);
            ("walls", JArr (map JObj walls))],
      map (proposal lm.1) walls).
Definition plates (dir : string) : list json :=
  omap (λ lane, let p := PyPath.join dir ("diffuse_3d/" +:+ lane +:+ "/pano_0_upscaled.png") in
                if path_exists p then Some (JObj [("lane", JStr lane); ("abs_path", JStr p)])
                else None)
    ["sr_realesrgan"; "sr_swinir"; "sr_osediff"].
Definition assign_walls_fields (dir : option string) : result dict :=
  match nonempty dir with
  | None => Ok [("parser_lanes", JArr []); ("all_proposals", JArr []);
                ("plate_candidates", JArr [])]
  | Some d =>
      lanes ← mapR (lane_entry d) (wall_manifests d);
      Ok [("parser_lanes", JArr (map fst lanes));
          ("all_proposals", JArr (concat (map snd lanes)));
          ("plate_candidates", JArr (plates d))]
  end.

(** [capture_3d]: the coordinates of the parcel in the run's context. *)
Definition capture_3d_fields (r : run) : result dict :=
  let parcel := default JNull (dict_get "parcel" (context r)) in
  match parcel with
  | JObj ((_ :: _) as fs) =>
      let label := default JNull (dict_get "label" fs) in
      Ok ([("lat", default JNull (dict_get "lat" fs)); ("lon", default JNull (dict_get "lon" fs))]
          ++ if truthy label then [("parcel_label", label)] else [])
  | v => if truthy v then Raise (AttributeError "get")
         else Ok [("lat", JNull); ("lon", JNull)]
  end.

(** The optional [initial_mask] block of the painting widgets. *)
Definition initial_mask_fields (s : step) (ctx : dict) (dir : option string) : result dict :=
  if is_none (extra s "initial_mask") then Ok []
  else
    let opts := as_options true dir (resolve_or_nil (extra s "initial_mask") ctx) in
    paths ← path_fields "initial_mask_rel_path" "initial_mask_abs_path" opts;
    Ok (("initial_mask_options", JArr opts) :: paths).

(** The fields a widget adds to the spec. *)
Definition widget_fields (s : step) (r : run) (widget : string) (ctx : dict) : result dict :=
  let source := resolve_source (extra s "source") ctx in
  let accept := default (JStr "*/*") (dict_get "accept" (s_extra s)) in
  if String.eqb widget "choose_one" then
    Ok [("options", if truthy source then source else JArr []);
        ("multiple", JBool (truthy (extra s "multiple")))]
  else if String.eqb widget "file_upload" then Ok [("accept", accept)]
  else if String.eqb widget "pick_or_upload" then
    Ok [("library", extra s "library"); ("accept", accept)]
  else if String.eqb widget "turnout" then
    opts ← turnout_options (extra s "options"); Ok [("turnout_options", opts)]
  else if String.eqb widget "pick_perspective" then
    let opts := as_options false (out_dir r) source in
    paths ← path_fields "fisheye_rel_path" "fisheye_abs_path" opts;
    meta ← _resolve_pano_meta (out_dir r) opts;
    Ok ([("fisheye_options", JArr opts)] ++ paths ++ [("pano_meta", meta)])
  else if String.eqb widget "pick_fence" then
    let src := as_options true (out_dir r) source in
    paths ← path_fields "source_rel_path" "source_abs_path" src;
    let det := as_options false (out_dir r) (resolve_source (extra s "detections") ctx) in
    dpaths ← path_fields "detections_rel_path" "detections_abs_path" det;
    Ok ([("source_options", JArr src)] ++ paths ++ [("detections_options", JArr det)] ++ dpaths)
  else if bool_decide (widget ∈ ["paint_mask"; "paint_fence_regions"]) then
    let src := as_options true (out_dir r) source in
    paths ← path_fields "source_rel_path" "source_abs_path" src;
    mask ← initial_mask_fields s ctx (out_dir r);
    layers ← file_ref_fields s ctx (out_dir r) "predefined_layers";
    hide ← file_ref_fields s ctx (out_dir r) "hide_mask";
    Ok ([("source_options", JArr src)] ++ paths ++ mask ++
        opacity_field (extra s "initial_mask_opacity") ++ layers ++ hide)
  else if String.eqb widget "assign_walls" then assign_walls_fields (out_dir r)
  else if String.eqb widget "capture_3d" then capture_3d_fields r
  else Ok [].

(** The widgets whose builder asks for the reference context. *)
Definition reads_context (widget : string) : bool :=
  bool_decide (widget ∈ ["choose_one"; "pick_perspective"; "pick_fence"; "paint_mask";
                         "paint_fence_regions"]).

(** [_build_input_spec] *)
Definition _build_input_spec (s : step) (r : run) : M dict :=
  match s_widget s with
  | None => raise (KeyError "widget")
  | Some widget =>
      ctx ← (if reads_context widget then _ref_context r else mret []);
      fields ← lift (widget_fields s r widget ctx);
      mret ([("step_id", JStr (s_id s)); ("widget", JStr widget);
             ("prompt", default (JStr "") (dict_get "prompt" (s_extra s)));
             ("target", json_of_opt (s_target s))] ++ fields)
  end.

Definition input_step_of (wf : workflow) (nid : string) : option step :=
  List.find (λ s, String.eqb (s_kind s) "input" && String.eqb (s_id s) nid) (steps wf).

(** [on_node_awaiting_input] *)
Definition on_node_awaiting_input (run_id nid : string) : M () :=
  found ← get_run run_id;
  match (found : option run) with
  | None => mret ()
  | Some r =>
      if bool_decide (rstatus r ∈ [r_cancelled; r_failed]) then mret ()
      else
        wf ← lift (_load_workflow (workflow_name r));
        match input_step_of wf nid with
        | None => mret ()
        | Some s =>
            spec ← _build_input_spec s r;
            try_except (NodeQueue.set_input_spec run_id nid (Some spec)) (λ _, Some (mret ()))
        end
  end.
End input_spec.

(** * Lemmas *)

Section path_lemmas.
(** A string without the separator. *)
Fixpoint lacks (c : ascii) (s : string) : bool :=
  match s with
  | EmptyString => true
  | String d r => negb (Ascii.eqb c d) && lacks c r
  end.

Lemma split_lacks c s x : x ∈ PyStr.split c s → lacks c x = true.
Proof.
  revert x. induction s as [|d s IH]; intros x; simpl.
  { by intros ->%list_elem_of_singleton. }
  destruct (Ascii.eqb c d) eqn:E.
  - intros [->|Hx]%elem_of_cons; [done|by apply IH].
  - destruct (PyStr.split c s) as [|y ys]; simpl.
    + intros ->%list_elem_of_singleton. simpl. by rewrite E.
    + intros [->|Hx]%elem_of_cons; [|apply IH; by right].
      simpl. rewrite E. simpl. apply IH. left.
Qed.

Lemma split_lacking c s : lacks c s = true → PyStr.split c s = [s].
Proof.
  induction s as [|d s IH]; simpl; [done|]. intros [Hd Hs]%andb_true_iff.
  apply negb_true_iff in Hd. by rewrite Hd, IH.
Qed.

Lemma split_app c s t :
  lacks c s = true → PyStr.split c (s +:+ String c t) = s :: PyStr.split c t.
Proof.
  induction s as [|d s IH]; simpl; [by rewrite Ascii.eqb_refl|].
  intros [Hd Hs]%andb_true_iff. apply negb_true_iff in Hd. by rewrite Hd, IH.
Qed.

Lemma split_concat c x l :
  Forall (λ s, lacks c s = true) (x :: l) →
  PyStr.split c (String.concat (String c "") (x :: l)) = x :: l.
Proof.
  revert x. induction l as [|y l IH]; intros x [Hx Hl]%Forall_cons.
  { by apply split_lacking. }
  change (String.concat (String c "") (x :: y :: l)) with
    (x +:+ String c (String.concat (String c "") (y :: l))).
  rewrite split_app by done. by rewrite IH.
Qed.

(** A component of a path. *)
Definition component (s : string) : Prop := lacks "/" s = true ∧ s ≠ "" ∧ s ≠ ".".

Lemma parts_components p : Forall component (PyPath.parts p).
Proof.
  apply Forall_forall. intros x Hx. unfold PyPath.parts in Hx.
  apply list_elem_of_In, filter_In in Hx as [Hx%list_elem_of_In Hc].
  apply negb_true_iff, orb_false_iff in Hc as [H1%String.eqb_neq H2%String.eqb_neq].
  split; [by eapply split_lacks|done].
Qed.
Lemma parts_of_components l :
  Forall component l → l ≠ [] → PyPath.parts (String.concat "/" l) = l.
Proof.
  destruct l as [|x l]; [done|]. intros Hl _. unfold PyPath.parts.
  rewrite split_concat; [|by eapply Forall_impl; [exact Hl|intros s []]].
  induction Hl as [|y l' (_ & H1 & H2) _ IH]; [done|]. simpl.
  apply String.eqb_neq in H1, H2. rewrite H1, H2. simpl. by rewrite IH.
Qed.
Lemma startswith_char a c s :
  a ≠ c → PyStr.startswith (String a "") (String c s) = false.
Proof. intros Hn. unfold PyStr.startswith. simpl. by destruct (ascii_dec a c). Qed.
Lemma concat_relative l : Forall component l → PyPath.absolute (String.concat "/" l) = false.
Proof.
  intros [|x l' (Hl & Hne & _) _]; [done|].
  destruct x as [|c x]; [done|]. cbn [lacks] in Hl. apply andb_true_iff in Hl as [Hc _].
  apply negb_true_iff, Ascii.eqb_neq in Hc.
  destruct l'; by apply startswith_char.
Qed.
Lemma strip_parts_app base p rest :
  PyPath.strip_parts base p = Some rest → p = base ++ rest.
Proof.
  revert p. induction base as [|b base IH]; intros p; simpl; [by intros [= ->]|].
  destruct p as [|c p]; [done|]. destruct (String.eqb_spec b c) as [->|]; [|done].
  intros E%IH. by rewrite E.
Qed.

(** Joining the base and the relative form gives the path back. *)
Lemma join_relative_to p base rel :
  PyPath.relative_to p base = Some rel →
  PyPath.join base rel = PyPath.posix (PyPath.root_of p) (PyPath.parts p).
Proof.
  unfold PyPath.relative_to. destruct (String.eqb_spec (PyPath.root_of p) (PyPath.root_of base))
    as [Hroot|]; [|done].
  destruct (PyPath.strip_parts _ _) as [rest|] eqn:E; [|done]. intros [= <-].
  apply strip_parts_app in E. pose proof (parts_components p) as Hp.
  rewrite E in Hp. apply Forall_app in Hp as [_ Hrest].
  unfold PyPath.join. rewrite Hroot, E. destruct rest as [|x rest]; [done|].
  change (PyPath.posix "" (x :: rest)) with (String.concat "/" (x :: rest)).
  rewrite concat_relative by done. by rewrite parts_of_components.
Qed.
End path_lemmas.

(** * Properties *)

Section spec_props.
Context `{SpecDisk}.

(** The paths of the file info shown to the operator agree.  For an absolute
    path, the [rel_path] joined to the run's directory is the path itself in its
    normal form, whether the file lies under the directory or not. *)
Lemma file_info_paths_agree abs_path dir :
  PyPath.absolute abs_path = true → dir ≠ "" →
  ∃ rel, dict_get "rel_path" (match _file_info_for_abs_path abs_path (Some dir) with
                              | JObj fs => fs | _ => [] end) = Some (JStr rel) ∧
    PyPath.join dir rel = PyPath.posix (PyPath.root_of abs_path) (PyPath.parts abs_path).
Proof.
  intros Habs Hd. eexists. split; [reflexivity|].
  replace (nonempty (Some dir)) with (Some dir) by by destruct dir.
  destruct (PyPath.relative_to abs_path dir) as [rel|] eqn:E; simpl.
  - by apply join_relative_to.
  - unfold PyPath.join. by rewrite Habs.
Qed.
End spec_props.

(** * Witnesses *)

Module SpecDemo.
Definition disk : SpecDisk := {|
  file_size _ := None;
  path_exists _ := false;
  wall_manifests _ := [];
  resolve_path p := p;
  views_json _ := None;
  py_float _ := None;
|}.
End SpecDemo.

Lemma file_info_paths_agree_witness :
  @_file_info_for_abs_path SpecDemo.disk "/runs/r1/s/./a.PNG" (Some "/runs//r1") =
    JObj [("abs_path", JStr "/runs/r1/s/./a.PNG"); ("rel_path", JStr "s/a.PNG");
          ("kind", JStr "image"); ("size_bytes", JInt 0)] ∧
  ∃ rel, PyPath.join "/runs//r1" rel = "/runs/r1/s/a.PNG".
Proof.
  split; [vm_compute; reflexivity|].
  destruct (@file_info_paths_agree SpecDemo.disk "/runs/r1/s/./a.PNG" "/runs//r1")
    as (rel & _ & E); [reflexivity|discriminate|].
  exists rel. rewrite E. vm_compute. reflexivity.
Defined.
