(* ===== verification/Intake.v ===== *)
(** * Input submissions, the cancel watcher and the start of the orchestrator
      ([queue_workflows/input_listener.py], [cancel_watcher.py], [orchestrator.py])

    The poller that takes the values users submit for parked input nodes and resumes their
    runs, the watcher that tells a running node body its run was cancelled, and the order
    in which the orchestrator recovers what a crash left before it starts its pool.  The
    table of submissions lives beside the engine's [world]; the rows another poller has
    locked are an argument of a claim; [json.loads] and the text of an exception are the
    class [IntakeEnv]. *)

From S2P Require Import Prelude Json Refs Schema NodeQueue Claim Reclaim RunStore Workflow Dispatcher.
Local Open Scope Z_scope.

Class IntakeEnv := {
  json_loads : string → option json;
  intake_exc_text : exc → string;
}.

(** ** The table *)

(** The CHECK set of [workflow_input_submissions.status] *)
Inductive sub_status := Pending | Processing | Processed | SubFailed.
#[export] Instance sub_status_eq_dec : EqDecision sub_status.
Proof. solve_decision. Defined.

Record submission := mkSub {
  sub_id : string;
  sub_run : string;
  sub_node : string;
  sub_value : json;
  sub_state : sub_status;
  sub_error : option string;
  sub_claimed_at : option Z;
  sub_created_at : Z;
  sub_processed_at : option Z;
}.
Definition set_claimed (now : Z) (s : submission) : submission :=
  mkSub (sub_id s) (sub_run s) (sub_node s) (sub_value s) Processing (sub_error s) (Some now) (sub_created_at s) (sub_processed_at s).
Definition set_processed (now : Z) (s : submission) : submission :=
  mkSub (sub_id s) (sub_run s) (sub_node s) (sub_value s) Processed (sub_error s) (sub_claimed_at s) (sub_created_at s) (Some now).
Definition set_sub_failed (now : Z) (e : string) (s : submission) : submission :=
  mkSub (sub_id s) (sub_run s) (sub_node s) (sub_value s) SubFailed (Some e) (sub_claimed_at s) (sub_created_at s) (Some now).

(** The submissions and the engine's tables *)
Record intake := mkIntake { in_subs : list submission; in_world : world }.

(** ** The poller *)

Definition INPUT_CLAIM_RECLAIM_S : Z := 60.
Definition CLAIM_LIMIT : nat := 50.

Section listener.
Context `{PyEnv} `{QueueConfig} `{DispatchConfig} `{IntakeEnv}.

(** Pending, or taken by a poller that has not come back *)
Definition stale_claim (now : Z) (s : submission) : bool :=
  bool_decide (sub_state s = Processing) &&
  match sub_claimed_at s with Some t => t <? now - seconds_us INPUT_CLAIM_RECLAIM_S | None => false end.
Definition of_project (w : world) (s : submission) : bool :=
  exists_row (λ r, String.eqb (rid r) (sub_run s) && String.eqb (rproject r) config_project) (runs w).
Definition eligible (w : world) (s : submission) : bool :=
  (bool_decide (sub_state s = Pending) || stale_claim (clock w) s) && of_project w s.
(** The subselect: ORDER BY created_at FOR UPDATE SKIP LOCKED LIMIT 50 *)
Definition to_claim (locked : list string) (x : intake) : list submission :=
  take CLAIM_LIMIT (sort_by (λ s, [sub_created_at s])
    (List.filter (λ s, eligible (in_world x) s && negb (bool_decide (sub_id s ∈ locked))) (in_subs x))).
Definition is_claimed (ids : list string) (s : submission) : bool := bool_decide (sub_id s ∈ ids).
Definition _claim_pending (locked : list string) (x : intake) : list submission * intake :=
  let ids := map sub_id (to_claim locked x) in
  let f := set_claimed (clock (in_world x)) in
  (returning (is_claimed ids) f (in_subs x), mkIntake (update_where (is_claimed ids) f (in_subs x)) (in_world x)).

(** A value that arrives as a string is read as JSON where it parses. *)
Definition decode_value (v : json) : json :=
  match v with JStr s => default v (json_loads s) | _ => v end.
Definition mark_sub (id : string) (f : submission → submission) (x : intake) : intake :=
  mkIntake (update_where (λ s, String.eqb (sub_id s) id) f (in_subs x)) (in_world x).
Definition _mark_processed (id : string) (x : intake) : intake := mark_sub id (set_processed (clock (in_world x))) x.
Definition _mark_failed (id error : string) (x : intake) : intake :=
  mark_sub id (set_sub_failed (clock (in_world x)) error) x.

Definition _process (x : intake) (s : submission) : intake :=
  let '(r, w) := resume_after_input (sub_run s) (sub_node s) (decode_value (sub_value s)) (in_world x) in
  let x := mkIntake (in_subs x) w in
  match r with
  | Ok _ => _mark_processed (sub_id s) x
  | Raise e => _mark_failed (sub_id s) (intake_exc_text e) x
  end.
Definition _poll_once (locked : list string) (x : intake) : intake :=
  let '(rows, x) := _claim_pending locked x in foldl _process x rows.
End listener.

(** ** The cancel watcher *)

(** One turn of the watcher: whether the caller set the event before it, and the status it
    read of the run, or what the read raised *)
Record watch_turn := mkWatchTurn { wt_set : bool; wt_read : result (option run_status) }.
Inductive watch_end := Signalled | Released | StillWatching.
Definition cancels (s : option run_status) : bool :=
  match s with Some r_cancelled | Some r_failed => true | _ => false end.
Fixpoint watch (turns : list watch_turn) : watch_end :=
  match turns with
  | [] => StillWatching
  | t :: r =>
      if wt_set t then Released
      else match wt_read t with
           | Ok s => if cancels s then Signalled else watch r
           | Raise _ => watch r
           end
  end.

(** ** The start of the orchestrator *)

(** What the process does, in order *)
Inductive boot_step := BWait | BSchema | BMigrate | BRequeueRuns | BRequeueJobs | BStartPool | BStopPool | BClosePool.
#[export] Instance boot_step_eq_dec : EqDecision boot_step.
Proof. solve_decision. Defined.

(** [main], after the arguments: what waiting for the database gave, whether the database
    refused a migration, and whether it broke during the two recoveries.  It ends with an
    exit code, or with the exception of the migration. *)
Definition swallowed_m {A} (broken : bool) (m : M A) : M () := λ w,
  if broken then (Ok (), w) else match m w with (Ok _, w') => (Ok (), w') | (Raise _, w') => (Ok (), w') end.
Definition orchestrator_main `{QueueConfig} (waited : result bool) (misconfigured : exc → bool)
    (schema migrate : result ()) (runs_broken jobs_broken : bool) (w : world) : result Z * list boot_step * world :=
  match waited with
  | Raise x => ((if misconfigured x then Ok 2 else Raise x), [BWait], w)
  | Ok false => (Ok 1, [BWait], w)
  | Ok true =>
      match schema with
      | Raise x => (Raise x, [BWait; BSchema], w)
      | Ok _ =>
          match migrate with
          | Raise x => (Raise x, [BWait; BSchema; BMigrate], w)
          | Ok _ =>
              let w := (swallowed_m runs_broken (transaction (reenqueue_running_for_resume None)) w).2 in
              let w := (swallowed_m jobs_broken (reclaim_all_running_for_resume None) w).2 in
              (Ok 0, [BWait; BSchema; BMigrate; BRequeueRuns; BRequeueJobs; BStartPool; BStopPool; BClosePool], w)
          end
      end
  end.

(** * Lemmas *)

Section intake_lemmas.
Context `{PyEnv} `{QueueConfig} `{DispatchConfig} `{IntakeEnv}.
Implicit Types (x : intake) (s : submission) (w : world).

Definition unique_subs x : Prop := NoDup (map sub_id (in_subs x)).

Lemma to_claim_elem locked x s :
  s ∈ to_claim locked x → s ∈ in_subs x ∧ eligible (in_world x) s = true ∧ sub_id s ∉ locked.
Proof.
  unfold to_claim. intros Hs. apply elem_of_take in Hs as (n & Hn & _). apply list_elem_of_lookup_2 in Hn.
  rewrite sort_by_perm in Hn. apply elem_of_Lfilter in Hn as [Hin [He Hl]%andb_true_iff].
  by apply negb_true_iff, bool_decide_eq_false in Hl.
Qed.
(** With unique ids the rows a claim returns are the rows it chose. *)
Lemma claimed_row locked x s :
  unique_subs x → s ∈ in_subs x → sub_id s ∈ map sub_id (to_claim locked x) → s ∈ to_claim locked x.
Proof.
  intros Hu Hs (c & E & Hc)%list_elem_of_fmap.
  destruct (to_claim_elem _ _ _ Hc) as [Hc' _]. by rewrite (key_unique sub_id (in_subs x) s c Hu Hs Hc' E).
Qed.
Lemma returned_row locked x r :
  unique_subs x → r ∈ (_claim_pending locked x).1 →
  ∃ s, r = set_claimed (clock (in_world x)) s ∧ s ∈ to_claim locked x.
Proof.
  intros Hu. unfold _claim_pending, returning. cbn [fst].
  intros (s & -> & [Hs Hc]%elem_of_Lfilter)%list_elem_of_fmap. exists s. split; [done|].
  unfold is_claimed in Hc. apply bool_decide_eq_true in Hc. by apply claimed_row.
Qed.

(** What processing does to the table: the rows processed are settled, the others stay *)
Definition settled w s s' : Prop :=
  sub_id s' = sub_id s ∧ sub_state s' =
    if is_ok (resume_after_input (sub_run s) (sub_node s) (decode_value (sub_value s)) w).1 then Processed else SubFailed.
Lemma process_mark x r : ∃ f, in_subs (_process x r) = update_where (λ s, String.eqb (sub_id s) (sub_id r)) f (in_subs x) ∧
  ∀ s, sub_id s = sub_id r → sub_run s = sub_run r → sub_node s = sub_node r → sub_value s = sub_value r →
    settled (in_world x) s (f s).
Proof.
  unfold _process. destruct (resume_after_input _ _ _ _) as [res w] eqn:E.
  destruct res as [z|e]; eexists; (split; [reflexivity|]); intros s _ Hr Hn Hv; (split; [done|]);
    rewrite Hr, Hn, Hv, E; done.
Qed.
Lemma process_all rows : NoDup (map sub_id rows) → ∀ x,
  (∀ s, s ∈ in_subs x → sub_id s ∉ map sub_id rows → s ∈ in_subs (foldl _process x rows)) ∧
  (∀ before r after, rows = before ++ r :: after → r ∈ in_subs x →
     ∃ s', s' ∈ in_subs (foldl _process x rows) ∧ settled (in_world (foldl _process x before)) r s').
Proof.
  induction rows as [|r rows IH]; intros Hn x; [split; [done|]; by intros [|? ?] ? ? ?|].
  apply NoDup_cons in Hn as [Hr Hn]. cbn [foldl map]. destruct (IH Hn (_process x r)) as [IH1 IH2].
  destruct (process_mark x r) as (f & Ef & Hf).
  assert (∀ s, s ∈ in_subs x → (if String.eqb (sub_id s) (sub_id r) then f s else s) ∈ in_subs (_process x r)) as Hmove
    by (intros s Hs; rewrite Ef; apply elem_of_update_where; by exists s).
  split.
  - intros s Hs [Hne Hni]%not_elem_of_cons. apply IH1; [|done]. specialize (Hmove s Hs).
    by rewrite (proj2 (String.eqb_neq _ _) Hne) in Hmove.
  - intros [|r0 before] r' after; intros [= -> E] Hx.
    + specialize (Hmove r' Hx). rewrite String.eqb_refl in Hmove.
      assert (settled (in_world x) r' (f r')) as Hset by by apply Hf. exists (f r'). split; [|done]. apply IH1; [done|].
      destruct Hset as [-> _]. done.
    + cbn [foldl]. apply (IH2 before r' after E). specialize (Hmove r' Hx).
      rewrite (proj2 (String.eqb_neq _ _)) in Hmove; [done|].
      intros E'. apply Hr, list_elem_of_fmap. exists r'. split; [done|]. rewrite E. set_solver.
Qed.
End intake_lemmas.

(** ** What a poll does *)

(** A submission is processed by one poller at a time.  A claim that follows another
    within the reclaim time, in whatever state the engine's tables are by then, returns
    none of the rows the first returned. *)
Lemma submissions_are_claimed_once `{QueueConfig} locked locked' x w'
    (Hu : unique_subs x) (Hlate : clock w' ≤ clock (in_world x) + seconds_us INPUT_CLAIM_RECLAIM_S) :
  let '(rows, x1) := _claim_pending locked x in
  let '(rows', _) := _claim_pending locked' (mkIntake (in_subs x1) w') in
  ∀ r r', r ∈ rows → r' ∈ rows' → sub_id r ≠ sub_id r'.
Proof.
  pose proof (λ r, returned_row locked x r Hu) as H1. unfold _claim_pending at 1 in H1. cbn [fst] in H1.
  unfold _claim_pending at 1. set (ids := map sub_id (to_claim locked x)) in *. set (now := clock (in_world x)) in *.
  set (subs1 := update_where (is_claimed ids) (set_claimed now) (in_subs x)). cbn [in_subs].
  assert (unique_subs (mkIntake subs1 w')) as Hu1.
  { unfold unique_subs, subs1. cbn [in_subs]. by rewrite (update_where_map sub_id). }
  pose proof (λ r, returned_row locked' (mkIntake subs1 w') r Hu1) as H2.
  destruct (_claim_pending locked' (mkIntake subs1 w')) as [rows' x2]. intros r r' Hr Hr' E.
  destruct (H1 r Hr) as (s & -> & Hs). destruct (H2 r' Hr') as (s' & -> & Hs'). simpl in E.
  apply to_claim_elem in Hs' as (Hin & He & _). cbn [in_subs in_world] in *.
  apply elem_of_update_where in Hin as (s0 & Hs0 & ->).
  assert (is_claimed ids s0 = true) as Hc.
  { apply bool_decide_eq_true. unfold ids. destruct (is_claimed ids s0); simpl in E; rewrite <- E; apply list_elem_of_fmap; eauto. }
  rewrite Hc in He. unfold eligible, stale_claim in He. simpl in He.
  apply andb_true_iff in He as [He _]. apply Z.ltb_lt in He. fold now in Hlate. lia.
Qed.

(** C16: A poll settles what it claims, the oldest first.  Every row it claims is processed
    when the resume of its run, on the tables the rows before it left, succeeded, and
    failed when that resume raised; every other row is as it was; and a row that could
    have been claimed and was not had fifty rows at least as old before it. *)
Theorem polls_settle_the_oldest_submissions `{PyEnv, QueueConfig, DispatchConfig, IntakeEnv} locked x (Hu : unique_subs x) :
  let x' := _poll_once locked x in
  (∀ s, s ∈ to_claim locked x → set_claimed (clock (in_world x)) s ∈ (_claim_pending locked x).1) ∧
  (∀ before r after, (_claim_pending locked x).1 = before ++ r :: after →
     ∃ s', s' ∈ in_subs x' ∧ settled (in_world (foldl _process (_claim_pending locked x).2 before)) r s') ∧
  (∀ s, s ∈ in_subs x → s ∉ to_claim locked x → s ∈ in_subs x') ∧
  (∀ s, s ∈ in_subs x → eligible (in_world x) s = true → sub_id s ∉ locked → s ∉ to_claim locked x →
     length (to_claim locked x) = CLAIM_LIMIT ∧ ∀ c, c ∈ to_claim locked x → sub_created_at c ≤ sub_created_at s).
Proof.
  cbv zeta. unfold _poll_once. pose proof (λ r, returned_row locked x r Hu) as Hret.
  unfold _claim_pending in *. cbn [fst] in Hret. set (ids := map sub_id (to_claim locked x)) in *.
  set (f := set_claimed (clock (in_world x))) in *. set (rows := returning (is_claimed ids) f (in_subs x)) in *.
  set (subs1 := update_where (is_claimed ids) f (in_subs x)).
  assert (map sub_id rows = map sub_id (List.filter (is_claimed ids) (in_subs x))) as Hids
    by (unfold rows, returning; by rewrite map_map).
  assert (NoDup (map sub_id rows)) as Hnd by (rewrite Hids; by apply NoDup_map_Lfilter).
  destruct (process_all rows Hnd (mkIntake subs1 (in_world x))) as [Hstay Hset]. cbn [in_subs] in *.
  split_and!.
  - intros s Hs. destruct (to_claim_elem _ _ _ Hs) as [Hin _]. unfold rows, returning. apply list_elem_of_fmap.
    exists s. split; [done|]. apply elem_of_Lfilter. split; [done|]. apply bool_decide_eq_true, list_elem_of_fmap. eauto.
  - intros before r after E. cbn [fst snd] in *. apply (Hset before r after E).
    assert (r ∈ rows) as Hr by (rewrite E; set_solver). unfold rows, returning in Hr.
    apply list_elem_of_fmap in Hr as (s & -> & [Hs Hc]%elem_of_Lfilter).
    apply elem_of_update_where. exists s. by rewrite Hc.
  - intros s Hs Hn. assert (is_claimed ids s = false) as Hc.
    { apply bool_decide_eq_false. intros Hi. by apply Hn, claimed_row. }
    apply Hstay; [apply elem_of_update_where; exists s; by rewrite Hc|].
    rewrite Hids. intros (s0 & E & [Hs0 Hc0]%elem_of_Lfilter)%list_elem_of_fmap.
    rewrite (key_unique sub_id (in_subs x) s s0 Hu Hs Hs0 E) in Hc. congruence.
  - intros s Hs He Hl Hn. unfold to_claim in *.
    set (l := List.filter _ (in_subs x)) in *. set (sorted := sort_by _ l) in *.
    assert (s ∈ sorted) as Hin.
    { unfold sorted. rewrite sort_by_perm. apply elem_of_Lfilter. split; [done|]. rewrite He.
      by rewrite bool_decide_false. }
    rewrite <- (take_drop CLAIM_LIMIT sorted) in Hin. apply elem_of_app in Hin as [Hin|Hin]; [done|]. split.
    + rewrite length_take. assert (drop CLAIM_LIMIT sorted ≠ []) as Hd by (intros E; rewrite E in Hin; set_solver).
      destruct (base.decide (CLAIM_LIMIT ≤ length sorted)%nat); [lia|].
      destruct Hd. apply drop_ge. lia.
    + intros c Hc. pose proof (sorted_split _ sorted CLAIM_LIMIT c s (sort_by_sorted _ l) Hc Hin) as Hk.
      by apply key_le_head in Hk.
Qed.

(** A submission that arrives before its node is parked is lost: while the row of the node is
    still running the resume does nothing and says so with a zero, and the submission is
    marked processed. *)
Lemma early_submission_is_lost `{PyEnv, QueueConfig, DispatchConfig, IntakeEnv} x s jobs job
    (Hread : list_jobs_for_run (sub_run s) (in_world x) = (Ok jobs, in_world x))
    (Hjob : lookup_node jobs (sub_node s) = Some job) (Hrun : status job = Running) :
  _process x s = _mark_processed (sub_id s) x.
Proof.
  unfold _process, resume_after_input, _jobs_by_node_id, mbind, M_bind. rewrite Hread, Hjob, Hrun. by destruct x.
Qed.

(** The watcher tells a node body exactly when a poll that could read the run, before the
    body ended, found it cancelled or failed. *)
Lemma watcher_signals_exactly turns :
  watch turns = Signalled ↔
  ∃ before t s after, turns = before ++ t :: after ∧ wt_set t = false ∧ wt_read t = Ok s ∧ cancels s = true ∧
    Forall (λ u, wt_set u = false) before.
Proof.
  split.
  - induction turns as [|t r IH]; [done|]. simpl. destruct (wt_set t) eqn:Es; [done|].
    assert (watch r = Signalled → ∃ before t0 s after, t :: r = before ++ t0 :: after ∧ wt_set t0 = false ∧
      wt_read t0 = Ok s ∧ cancels s = true ∧ Forall (λ u, wt_set u = false) before) as Hr.
    { intros (before & t0 & s & after & -> & ? & ? & ? & ?)%IH. exists (t :: before), t0, s, after. split_and!; try done. by constructor. }
    destruct (wt_read t) as [s|x] eqn:Er; [|done]. destruct (cancels s) eqn:Ec; [|done].
    intros _. exists [], t, s, r. by split_and!.
  - intros (before & t & s & after & -> & Hs & Hr & Hc & Hb). induction Hb as [|u before Hu _ IH]; simpl.
    + by rewrite Hs, Hr, Hc.
    + rewrite Hu. destruct (wt_read u) as [v|]; [|done]. by destruct (cancels v).
Qed.

(** The pool starts only on a database that answered and is migrated, after both recoveries;
    a database that is misconfigured or does not come is an exit code, and nothing was
    written. *)
Lemma pool_starts_only_when_migrated `{QueueConfig} waited mis schema migrate rb jb w :
  let '(r, steps, w') := orchestrator_main waited mis schema migrate rb jb w in
  (BStartPool ∈ steps ↔ waited = Ok true ∧ is_ok schema = true ∧ is_ok migrate = true) ∧
  (BStartPool ∈ steps → r = Ok 0 ∧ take 5 steps = [BWait; BSchema; BMigrate; BRequeueRuns; BRequeueJobs]) ∧
  (BStartPool ∉ steps → w' = w).
Proof.
  assert (BStartPool ∈ [BWait; BSchema; BMigrate; BRequeueRuns; BRequeueJobs; BStartPool; BStopPool; BClosePool]) as Hyes
    by by apply (bool_decide_unpack _).
  assert (BStartPool ∉ [BWait] ∧ BStartPool ∉ [BWait; BSchema] ∧ BStartPool ∉ [BWait; BSchema; BMigrate]) as (N1 & N2 & N3)
    by by split_and!; apply (bool_decide_unpack _).
  unfold orchestrator_main. destruct waited as [[]|x]; [destruct schema; [destruct migrate|]|..]; cbv zeta; naive_solver.
Qed.

(** ** Witnesses *)

Module IntakeDemo.
#[export] Existing Instance Demo.py.
#[export] Existing Instance Demo.cfg.
#[export] Existing Instance DispatchDemo.dcfg.
#[export] Instance text : IntakeEnv := {| json_loads s := JInt <$> PyStr.int s; intake_exc_text _ := "KeyError: no job" |}.
Definition sub (id run node : string) (v : json) (at_ : Z) : submission := mkSub id run node v Pending None None at_ None.
Definition box : intake :=
  mkIntake [sub "s1" "r1" "ghost" (JStr "42") 5; sub "s2" "other" "a" (JInt 1) 3; sub "s3" "r1" "ghost" (JStr "x") 4]
    Demo.empty_world.
End IntakeDemo.
Import IntakeDemo.

(** A text the user typed is delivered as a number when it reads as one. *)
Example typed_text_becomes_a_number : decode_value (JStr "42") = JInt 42 ∧ decode_value (JStr "x") = JStr "x".
Proof. by vm_compute. Qed.

Lemma submissions_are_claimed_once_witness :
  map sub_id (_claim_pending [] box).1 = ["s1"; "s3"] ∧
  ∀ r r', r ∈ (_claim_pending [] box).1 → r' ∈ (_claim_pending [] (mkIntake (in_subs (_claim_pending [] box).2) Demo.empty_world)).1 →
    sub_id r ≠ sub_id r'.
Proof.
  split; [by vm_compute|].
  assert (unique_subs box) as Hu by (by apply (bool_decide_unpack _); vm_compute).
  assert (clock Demo.empty_world ≤ clock (in_world box) + seconds_us INPUT_CLAIM_RECLAIM_S) as Hc by (by vm_compute).
  pose proof (submissions_are_claimed_once [] [] box Demo.empty_world Hu Hc) as Hx.
  destruct (_claim_pending [] box) as [rows x1]. cbn [fst snd] in *.
  by destruct (_claim_pending [] (mkIntake (in_subs x1) Demo.empty_world)) as [rows' x2].
Defined.

Lemma polls_settle_the_oldest_submissions_witness :
  map sub_id (to_claim [] box) = ["s3"; "s1"] ∧
  ∃ s', s' ∈ in_subs (_poll_once [] box) ∧ sub_id s' = "s1"%string ∧ sub_state s' = SubFailed.
Proof.
  split; [by vm_compute|].
  destruct (polls_settle_the_oldest_submissions [] box) as (_ & Hs & _); [by apply (bool_decide_unpack _); vm_compute|].
  destruct (Hs [] _ _ eq_refl) as (s' & Hin & E1 & E2). exists s'. split; [exact Hin|]. split; [exact E1|].
  rewrite E2. vm_compute. reflexivity.
Defined.
