(* ===== verification/BoxAgent.v ===== *)
(** * The supervisor of a box ([queue_workflows/box_agent.py])

    One agent per box keeps the worker processes of the box as the control rows want them:
    it starts a lane that should run and does not, stops one that should not, and starts
    again one that died.  Processes are handles; which of them are alive, what spawning one gives
    and what the control databases answer are arguments of a tick.  The
    parse of the manifest and the endless loop are left out. *)

From S2P Require Import Prelude Json Refs Schema NodeQueue Claim Reclaim Watchdogs WorkerLanes WorkerControl.
Local Open Scope Z_scope.

Record Lane := mkAgentLane {
  lane_key : string;
  lane_project : string;
  lane_queue : string;
  lane_argv : list string;
  (** None removes the variable *)
  lane_env : list (string * option string);
}.
#[export] Instance Lane_eq_dec : EqDecision Lane.
Proof. solve_decision. Defined.
Abbreviation control_row := (string * string * string * string)%type.

(** ** What should run *)

Definition reconcile (lanes : list Lane) (desired : list (string * bool)) (running : list string) : list Lane * list Lane :=
  let want_on l := default true (dict_get (lane_key l) desired) in
  let is_running l := bool_decide (lane_key l ∈ running) in
  (List.filter (λ l, want_on l && negb (is_running l)) lanes,
   List.filter (λ l, negb (want_on l) && is_running l) lanes).

Definition _host_matches (row_host box : string) : bool :=
  String.eqb row_host box || PyStr.startswith (box +:+ "-") row_host.

Definition parks (host : string) (row : control_row) (l : Lane) : bool :=
  let '(row_host, q, proj, state) := row in
  String.eqb state STATE_OFF && _host_matches row_host host &&
  (String.eqb (lane_queue l) q && (negb (PyStr.truthy proj) || String.eqb proj (lane_project l))).
Definition park_lanes (host : string) (lanes : list Lane) (desired : list (string * bool)) (row : control_row)
    : list (string * bool) :=
  foldl (λ d l, if parks host row l then dict_set (lane_key l) false d else d) desired lanes.
Definition desired_from_controls (rows : list control_row) (host : string) (lanes : list Lane) : list (string * bool) :=
  foldl (park_lanes host lanes) (foldl (λ d l, dict_set (lane_key l) true d) [] lanes) rows.

(** ** What runs *)

Section agent.
Context {handle : Type}.

Inductive agent_call := Spawned (key : string) (r : result handle) | Stopped (key : string) (p : handle).

(** One tick: which processes are alive, what a spawn gives, and what the control
    databases answer *)
Record agent_in := mkAgentIn {
  ai_controls : result (list control_row);
  ai_alive : handle → bool;
  ai_spawn : Lane → result handle;
}.
Abbreviation procs_of := (list (string * handle)).

Definition _running (alive : handle → bool) (procs : procs_of) : procs_of :=
  List.filter (λ kp, alive kp.2) procs.
Definition start_lane (i : agent_in) (acc : procs_of * list agent_call) (l : Lane) : procs_of * list agent_call :=
  let r := ai_spawn i l in
  (match r with Ok p => dict_set (lane_key l) p acc.1 | Raise _ => acc.1 end, acc.2 ++ [Spawned (lane_key l) r]).
(** The handle goes before the kill, so it is gone whether the kill succeeds or not. *)
Definition stop_lane (acc : procs_of * list agent_call) (l : Lane) : procs_of * list agent_call :=
  match dict_get (lane_key l) acc.1 with
  | None => acc
  | Some p => (dict_pop (lane_key l) acc.1, acc.2 ++ [Stopped (lane_key l) p])
  end.
Definition tick (host : string) (lanes : list Lane) (i : agent_in) (procs : procs_of)
    : result () * procs_of * list agent_call :=
  match ai_controls i with
  | Raise x => (Raise x, procs, [])
  | Ok rows =>
      let desired := desired_from_controls rows host lanes in
      let procs := _running (ai_alive i) procs in
      let '(to_start, to_stop) := reconcile lanes desired procs.*1 in
      let acc := foldl stop_lane (foldl (start_lane i) (procs, []) to_start) to_stop in
      (Ok (), acc.1, acc.2)
  end.
(** On a signal every lane is stopped and the process exits. *)
Definition _shutdown (procs : procs_of) : procs_of * list agent_call :=
  ([], map (λ kp, Stopped kp.1 kp.2) procs).
End agent.

(** ** The edges *)

Inductive signal := Terminate | WaitGrace | Kill.
(** [_kill]: what waiting for the process gave *)
Definition _kill (waited : result ()) : list signal :=
  match waited with Ok _ => [Terminate; WaitGrace] | Raise _ => [Terminate; WaitGrace; Kill] end.

(** [{**os.environ, **lane.env}] without the removed variables *)
Definition _lane_env (environ : list (string * string)) (l : Lane) : list (string * string) :=
  omap (λ kv, (λ v, (kv.1, v)) <$> kv.2) (dict_merge (map (λ kv, (kv.1, Some kv.2)) environ) (lane_env l)).

Definition control_row_of (k : worker_control) : control_row :=
  (whost_label k, wqueue k, wproject k, desired_state k).
(** The select with the tenant column, and the one an older schema understands *)
Definition _read_worker_controls (db : database) (w : world) : result (list control_row) :=
  match has_columns db false true with
  | Ok _ => Ok (map control_row_of (worker_controls w))
  | Raise _ =>
      match has_columns db false false with
      | Ok _ => Ok (map (λ k, (whost_label k, wqueue k, EmptyString, desired_state k)) (worker_controls w))
      | Raise x => Raise x
      end
  end.
(** A database that cannot be read contributes nothing, so its lanes stay on. *)
Definition fetch_controls_from_dbs (read : string → result (list control_row)) (control_dsn : list (string * option string))
    : list control_row :=
  concat (map (λ dsn, match read dsn with Ok rows => rows | Raise _ => [] end)
            (remove_dups (truthy_only (omap snd control_dsn)))).

(** * Lemmas *)

(** What the control rows want of a lane *)
Definition wanted (rows : list control_row) (host : string) (l : Lane) : bool :=
  negb (existsb (λ row, parks host row l) rows).

Lemma dict_get_park host lanes row : ∀ d k,
  dict_get k (park_lanes host lanes d row) =
  if existsb (λ l, String.eqb (lane_key l) k && parks host row l) lanes then Some false else dict_get k d.
Proof.
  unfold park_lanes. induction lanes as [|l lanes IH]; intros d k; [done|]. cbn [foldl existsb]. rewrite IH.
  destruct (existsb _ lanes); [by rewrite orb_true_r|]. rewrite orb_false_r.
  destruct (parks host row l); [|by rewrite andb_false_r]. rewrite andb_true_r.
  destruct (String.eqb_spec (lane_key l) k) as [<- |Hne]; [apply dict_get_set_eq|by apply dict_get_set_ne].
Qed.
Lemma existsb_key lanes l (p : Lane → bool) :
  NoDup (map lane_key lanes) → l ∈ lanes →
  existsb (λ l', String.eqb (lane_key l') (lane_key l) && p l') lanes = p l.
Proof.
  intros Hn Hl. apply eq_bool_prop_intro. rewrite Is_true_true, existsb_exists. split.
  - intros (l' & Hl' & [E%String.eqb_eq Hp]%andb_true_iff).
    apply list_elem_of_In in Hl'. rewrite <- (key_unique lane_key lanes l' l Hn Hl' Hl E). by rewrite Hp.
  - intros Hp. exists l. split; [by apply list_elem_of_In|]. by rewrite String.eqb_refl, (Is_true_true_1 _ Hp).
Qed.
Lemma desired_spec rows host lanes l :
  NoDup (map lane_key lanes) → l ∈ lanes →
  dict_get (lane_key l) (desired_from_controls rows host lanes) = Some (wanted rows host l).
Proof.
  intros Hn Hl. unfold desired_from_controls, wanted.
  assert (dict_get (lane_key l) (foldl (λ d l, dict_set (lane_key l) true d) [] lanes) = Some true) as H0.
  { clear rows Hn. generalize (@nil (string * bool)). revert Hl. induction lanes as [|x r IH]; intros Hl d; [set_solver|].
    cbn [foldl]. destruct (base.decide (l ∈ r)) as [Hr|Hr]; [auto|]. apply elem_of_cons in Hl as [<- |]; [|done].
    assert (∀ d, dict_get (lane_key l) d = Some true →
      dict_get (lane_key l) (foldl (λ d l, dict_set (lane_key l) true d) d r) = Some true) as Hk; [|apply Hk, dict_get_set_eq].
    clear. induction r as [|y r IH]; [done|]. intros d Hd. cbn [foldl]. apply IH.
    destruct (String.eqb_spec (lane_key y) (lane_key l)) as [-> |Hne]; [apply dict_get_set_eq|]. by rewrite dict_get_set_ne. }
  revert H0. generalize (foldl (λ d l, dict_set (lane_key l) true d) [] lanes). intros d.
  cut (∀ b, dict_get (lane_key l) d = Some b →
    dict_get (lane_key l) (foldl (park_lanes host lanes) d rows) = Some (b && negb (existsb (λ row, parks host row l) rows)));
    [intros Hc Hd; by rewrite (Hc true Hd)|].
  revert d. induction rows as [|row rows IH]; intros d b Hd; cbn [foldl existsb]; [by rewrite andb_true_r|].
  rewrite (IH _ (b && negb (parks host row l))).
  - f_equal. by destruct b, (parks host row l).
  - rewrite dict_get_park, existsb_key by done. destruct (parks host row l); [by rewrite andb_false_r|by rewrite andb_true_r].
Qed.

Lemma elem_of_lane_keys lanes sub l :
  NoDup (map lane_key lanes) → sub ⊆ lanes → l ∈ lanes → lane_key l ∈ map lane_key sub ↔ l ∈ sub.
Proof.
  intros Hn Hsub Hl. rewrite list_elem_of_fmap. split; [|eauto]. intros (l' & E & Hl').
  by rewrite (key_unique lane_key lanes l l' Hn Hl (Hsub l' Hl') E).
Qed.

Section procs.
Context {handle : Type}.
Implicit Types (d : list (string * handle)) (ls : list Lane).

Lemma elem_of_keys {V} k (d : list (string * V)) : k ∈ d.*1 ↔ is_Some (dict_get k d).
Proof.
  induction d as [|[k' v] d IH]; simpl; [split; [set_solver|by intros [? ?]]|]. rewrite elem_of_cons, IH.
  destruct (String.eqb_spec k k') as [-> |Hne]; [split; eauto|]. naive_solver.
Qed.
Lemma dict_set_keys {V} k (v : V) (d : list (string * V)) : NoDup d.*1 → NoDup (dict_set k v d).*1.
Proof.
  intros Hn. induction d as [|[k' v'] d IH]; simpl; [apply NoDup_singleton|]. simpl in Hn. apply NoDup_cons in Hn as [Hk Hn].
  destruct (String.eqb_spec k k') as [<- |Hne]; simpl; apply NoDup_cons; (split; [|auto]); [done|].
  rewrite elem_of_keys, dict_get_set_ne, <- elem_of_keys by done. done.
Qed.
Lemma filter_keys {V} (p : string * V → bool) (d : list (string * V)) : NoDup d.*1 → NoDup (List.filter p d).*1.
Proof. apply NoDup_map_Lfilter. Qed.
Lemma get_running alive d k :
  NoDup d.*1 → dict_get k (_running alive d) = dict_get k d ≫= λ p, if alive p then Some p else None.
Proof.
  induction d as [|[k' v] d IH]; [done|]. intros [Hk Hn]%NoDup_cons. unfold _running in *. cbn [List.filter snd dict_get].
  destruct (alive v) eqn:E; cbn [dict_get]; destruct (String.eqb_spec k k') as [<- |Hne]; simpl; rewrite ?E; auto.
  rewrite (IH Hn). destruct (dict_get k d) eqn:Ek; [|done]. destruct Hk. apply elem_of_keys. eauto.
Qed.

Lemma started i ls : NoDup (map lane_key ls) → (∀ l, l ∈ ls → is_ok (ai_spawn i l) = true) → ∀ d c,
  NoDup d.*1 →
  let d' := (foldl (start_lane i) (d, c) ls).1 in
  NoDup d'.*1 ∧ (∀ l, l ∈ ls → is_Some (dict_get (lane_key l) d')) ∧
  (∀ k, k ∉ map lane_key ls → dict_get k d' = dict_get k d).
Proof.
  induction ls as [|l ls IH]; intros Hn Hok d c Hd; [split_and!; [done|set_solver|done]|].
  apply NoDup_cons in Hn as [Hl Hn]. cbn [foldl].
  specialize (Hok l) as Hl'. destruct (ai_spawn i l) as [p|x] eqn:E; [|specialize (Hl' ltac:(left)); done].
  assert (start_lane i (d, c) l = (dict_set (lane_key l) p d, c ++ [Spawned (lane_key l) (Ok p)])) as ->
    by (unfold start_lane; by rewrite E).
  destruct (IH Hn ltac:(intros; apply Hok; by right) (dict_set (lane_key l) p d) (c ++ [Spawned (lane_key l) (Ok p)]))
    as (I1 & I2 & I3); [by apply dict_set_keys|]. split_and!; [done| |].
  - intros l0 [-> |Hin]%elem_of_cons; [|auto]. rewrite I3, dict_get_set_eq by done. eauto.
  - intros k [Hne Hk]%not_elem_of_cons. rewrite I3 by done. by apply dict_get_set_ne.
Qed.
Lemma stopped ls : ∀ d c,
  NoDup d.*1 →
  let d' := (foldl stop_lane (d, c) ls).1 in
  NoDup d'.*1 ∧ (∀ k, dict_get k d' = if bool_decide (k ∈ map lane_key ls) then None else dict_get k d).
Proof.
  induction ls as [|l ls IH]; intros d c Hd; [done|]. cbn [foldl].
  assert (stop_lane (d, c) l = match dict_get (lane_key l) d with
    | None => (d, c) | Some p => (dict_pop (lane_key l) d, c ++ [Stopped (lane_key l) p]) end) as -> by done.
  destruct (dict_get (lane_key l) d) as [p|] eqn:E.
  - destruct (IH (dict_pop (lane_key l) d) (c ++ [Stopped (lane_key l) p])) as [I1 I2]; [by apply filter_keys|].
    split; [done|]. intros k. rewrite I2. destruct (base.decide (k = lane_key l)) as [-> |Hne].
    + rewrite dict_get_pop_eq, (bool_decide_true (_ ∈ map lane_key (l :: ls))) by (cbn [map]; left).
      by case_bool_decide.
    + rewrite dict_get_pop_ne by done. cbn [map]. repeat case_bool_decide; set_solver.
  - destruct (IH d c Hd) as [I1 I2]. split; [done|]. intros k. rewrite I2. cbn [map].
    destruct (base.decide (k = lane_key l)) as [-> |Hne]; repeat case_bool_decide; set_solver.
Qed.
End procs.

(** C35: A box converges to its control rows in one tick, and stays.  When every spawn
    succeeds, a tick leaves running exactly the lanes the control rows want, keeps the
    process of a wanted lane that is alive, and a further tick that reads the same rows
    and finds every process alive does nothing. *)
Theorem box_converges_to_its_controls {handle : Type} host lanes (i i' : @agent_in handle) rows procs
    (Hkeys : NoDup (map lane_key lanes)) (Hprocs : NoDup procs.*1) (Hrows : ai_controls i = Ok rows)
    (Hspawn : ∀ l, l ∈ lanes → is_ok (ai_spawn i l) = true) (Hrows' : ai_controls i' = Ok rows) :
  let '(r, procs', _) := tick host lanes i procs in
  r = Ok () ∧ NoDup procs'.*1 ∧
  (∀ l, l ∈ lanes → lane_key l ∈ procs'.*1 ↔ wanted rows host l = true) ∧
  (∀ l p, l ∈ lanes → wanted rows host l = true → dict_get (lane_key l) procs = Some p → ai_alive i p = true →
     dict_get (lane_key l) procs' = Some p) ∧
  ((∀ kp, kp ∈ procs' → ai_alive i' kp.2 = true) → tick host lanes i' procs' = (Ok (), procs', [])).
Proof.
  unfold tick. rewrite Hrows, Hrows'. cbv zeta. set (desired := desired_from_controls rows host lanes).
  assert (∀ l, l ∈ lanes → default true (dict_get (lane_key l) desired) = wanted rows host l) as Hd
    by (intros l Hl; unfold desired; by rewrite desired_spec).
  set (live := _running (ai_alive i) procs). unfold reconcile at 1. cbv zeta.
  set (to_start := List.filter _ lanes). set (to_stop := List.filter _ lanes).
  assert (NoDup live.*1) as Hlive by by apply filter_keys.
  assert (∀ l, l ∈ to_start ↔ l ∈ lanes ∧ wanted rows host l = true ∧ lane_key l ∉ live.*1) as Hst.
  { intros l. unfold to_start. rewrite elem_of_Lfilter, andb_true_iff, negb_true_iff, bool_decide_eq_false.
    split; intros (Hl & ? & ?); (split; [done|]); by rewrite ?Hd, <- ?Hd in *. }
  assert (∀ l, l ∈ to_stop ↔ l ∈ lanes ∧ wanted rows host l = false ∧ lane_key l ∈ live.*1) as Hsp.
  { intros l. unfold to_stop. rewrite elem_of_Lfilter, andb_true_iff, negb_true_iff, bool_decide_eq_true.
    split; intros (Hl & ? & ?); (split; [done|]); by rewrite ?Hd, <- ?Hd in *. }
  destruct (started i to_start (NoDup_map_Lfilter _ _ _ Hkeys) ltac:(intros l Hl; apply Hspawn; by apply Hst) live [] Hlive)
    as (S1 & S2 & S3).
  destruct (foldl (start_lane i) (live, []) to_start) as [d c]. cbn [fst] in *.
  destruct (stopped to_stop d c S1) as [T1 T2]. destruct (foldl stop_lane (d, c) to_stop) as [procs' calls]. cbn [fst snd] in *.
  assert (∀ l, l ∈ lanes → lane_key l ∈ map lane_key to_stop ↔ l ∈ to_stop) as Hkey1.
  { intros l. apply elem_of_lane_keys; [done|]. intros x. rewrite Hsp. tauto. }
  assert (∀ l, l ∈ lanes → lane_key l ∈ map lane_key to_start ↔ l ∈ to_start) as Hkey2.
  { intros l. apply elem_of_lane_keys; [done|]. intros x. rewrite Hst. tauto. }
  assert (∀ l, l ∈ lanes → lane_key l ∈ procs'.*1 ↔ wanted rows host l = true) as Hrun.
  { intros l Hl. rewrite elem_of_keys, T2. rewrite (bool_decide_ext _ _ (Hkey1 l Hl)).
    destruct (wanted rows host l) eqn:Ew.
    - rewrite bool_decide_false by (intros (_ & ? & _)%Hsp; congruence). split; [done|]. intros _.
      destruct (base.decide (lane_key l ∈ live.*1)) as [Hk|Hk].
      + rewrite S3; [by apply elem_of_keys|]. intros Hx%Hkey2; [|done]. by apply Hst in Hx as (_ & _ & ?).
      + apply S2. by apply Hst.
    - split; [|done]. case_bool_decide as Hx; [by intros [? ?]|]. rewrite S3.
      + intros Hk%elem_of_keys. destruct Hx. by apply Hsp.
      + intros Hx'%Hkey2; [|done]. apply Hst in Hx' as (_ & ? & _). congruence. }
  split_and!; [done|done|exact Hrun| |].
  - intros l p Hl Hw Hp Ha. rewrite T2, bool_decide_false by (rewrite Hkey1 by done; intros (_ & ? & _)%Hsp; congruence).
    assert (dict_get (lane_key l) live = Some p) as Hlp by (unfold live; rewrite get_running, Hp by done; simpl; by rewrite Ha).
    rewrite S3; [done|]. intros Hx%Hkey2; [|done]. apply Hst in Hx as (_ & _ & Hn). apply Hn, elem_of_keys. eauto.
  - intros Halive. assert (_running (ai_alive i') procs' = procs') as -> by by apply Lfilter_all. unfold reconcile. cbv zeta.
    rewrite !Lfilter_none; [done|..]; intros l Hl; fold desired; rewrite (Hd l Hl); specialize (Hrun l Hl);
      case_bool_decide; destruct (wanted rows host l); naive_solver.
Qed.

Section agreement.
Context `{QueueConfig}.

Lemma rpartition_app sep s b t : rpartition sep s = Some (b, t) → s = b +:+ String sep t.
Proof.
  revert b. induction s as [|c s IH]; intros b; simpl; [done|].
  destruct (rpartition sep s) as [[b' t']|]; [intros [= <- <-]; simpl; by rewrite (IH b')|].
  destruct (Ascii.eqb c sep) eqn:E; [|done]. intros [= <- <-]. by apply Ascii.eqb_eq in E as ->.
Qed.
Lemma prefix_sep b c t : String.prefix (b +:+ String c "") (b +:+ String c t) = true.
Proof. induction b as [|a b IH]; simpl; [destruct (ascii_dec c c); [by destruct t|done]|]. by destruct (ascii_dec a a). Qed.
Lemma label_matches label box : _box_address label = Some box → _host_matches label box = true.
Proof.
  unfold _box_address. destruct (rpartition "-" label) as [[b t]|] eqn:E; [|done].
  destruct (_ && _); [|done]. intros [= ->]. apply rpartition_app in E as ->. unfold _host_matches.
  apply orb_true_iff. right. apply prefix_sep.
Qed.

(** The agent parks every lane whose worker reads the control as off: the row the
    worker obeys, its own or its box's, is among those the agent applies to the lane. *)
Lemma agent_parks_what_the_worker_parks w label box lane proj rows :
  _box_address label = Some box → lane_project lane = _project proj →
  (desired_state_for Migrated label (lane_queue lane) proj w).1 = Ok STATE_OFF →
  _read_worker_controls Migrated w = Ok rows → wanted rows box lane = false.
Proof.
  intros Hbox Hproj. rewrite desired_migrated. intros Hoff [= <-]. simpl in Hoff. unfold wanted.
  apply negb_false_iff, existsb_exists.
  assert (∃ k, k ∈ worker_controls w ∧ desired_state k = STATE_OFF ∧ wqueue k = lane_queue lane ∧
    wproject k = _project proj ∧ (whost_label k = label ∨ whost_label k = box)) as (k & Hk & Ho & Hq & Hp & Hh).
  { assert (∀ h k, row_at h (lane_queue lane) (_project proj) w = Some k →
      k ∈ worker_controls w ∧ wkey k = (h, lane_queue lane, _project proj)) as Hrow.
    { intros h k [Hin Hk%at_key_spec]%find_some. split; [by apply list_elem_of_In|done]. }
    unfold governing in Hoff. rewrite Hbox in Hoff.
    destruct (row_at label _ _ w) as [k|] eqn:E1.
    - destruct (Hrow _ _ E1) as [? [= ? ? ?]]. destruct (String.eqb_spec (desired_state k) STATE_OFF); [|done]. eauto 10.
    - destruct (row_at box _ _ w) as [k|] eqn:E2; [|done].
      destruct (Hrow _ _ E2) as [? [= ? ? ?]]. destruct (String.eqb_spec (desired_state k) STATE_OFF); [|done]. eauto 10. }
  exists (control_row_of k). split; [by apply in_map, list_elem_of_In|]. simpl.
  rewrite Ho, Hq, Hp, Hproj, !String.eqb_refl, orb_true_r, andb_true_r. simpl.
  destruct Hh as [-> | ->]; [by apply label_matches|]. unfold _host_matches. by rewrite String.eqb_refl.
Qed.
End agreement.

(** * Where the agent and the documentation part *)

Module AgentDemo.
Definition gpu_lane : Lane := mkAgentLane "default:gpu" "" "gpu" ["worker"] [].
Definition cpu_lane : Lane := mkAgentLane "default:cpu" "" "cpu" ["worker"] [].
Definition in_ (rows : list control_row) : @agent_in nat :=
  mkAgentIn (Ok rows) (λ _, true) (λ l, Ok (String.length (lane_queue l) + 7)%nat).
(** box-c is off by name, its gpu lane is on by its own row *)
Definition lane_back_on : world :=
  ControlDemo.set_ "box-c-gpu" "on" "hard" ControlDemo.parked.
End AgentDemo.

Lemma box_converges_to_its_controls_witness :
  lane_key AgentDemo.cpu_lane ∈ ["default:cpu"%string] ∧
  ∃ r calls, tick "box-c" [AgentDemo.gpu_lane; AgentDemo.cpu_lane] (AgentDemo.in_ [("box-c", "gpu", "", "off")]) [("default:gpu"%string, 1%nat)]
    = (r, [("default:cpu"%string, 10%nat)], calls) ∧ r = Ok () ∧
    tick "box-c" [AgentDemo.gpu_lane; AgentDemo.cpu_lane] (AgentDemo.in_ [("box-c", "gpu", "", "off")]) [("default:cpu"%string, 10%nat)]
    = (Ok (), [("default:cpu"%string, 10%nat)], []).
Proof.
  pose proof (box_converges_to_its_controls "box-c" [AgentDemo.gpu_lane; AgentDemo.cpu_lane]
    (AgentDemo.in_ [("box-c", "gpu", "", "off")]) (AgentDemo.in_ [("box-c", "gpu", "", "off")])
    [("box-c", "gpu", "", "off")] [("default:gpu"%string, 1%nat)]) as H.
  specialize (H ltac:(apply (bool_decide_unpack _); reflexivity) ltac:(apply (bool_decide_unpack _); reflexivity)
    eq_refl ltac:(reflexivity) eq_refl). cbn in H. destruct H as (H1 & _ & H3 & _ & H5). split.
  - apply H3; [|reflexivity]. apply (bool_decide_unpack _). reflexivity.
  - eexists _, _. split; [reflexivity|]. split; [exact H1|]. apply H5. reflexivity.
Defined.

(** The guard does not keep a box apart from one whose name extends it by a dash: a
    row that parks a lane of box-a-extra, or the whole of it, parks box-a too. *)
Lemma longer_box_name_matches :
  _host_matches "box-a-extra" "box-a" = true ∧
  wanted [("box-a-extra", "gpu", "", "off")] "box-a" AgentDemo.gpu_lane = false.
Proof. done. Qed.

(** A lane's own row overrides its box's for the worker and not for the agent: the
    worker reads on, and the agent stops it. *)
Lemma agent_stops_a_lane_that_reads_on :
  @desired_state_for Demo.cfg Migrated "box-c-gpu" "gpu" None AgentDemo.lane_back_on
    = (Ok STATE_ON, AgentDemo.lane_back_on) ∧
  match _read_worker_controls Migrated AgentDemo.lane_back_on with
  | Ok rows => wanted rows "box-c" AgentDemo.gpu_lane = false
  | Raise _ => False
  end.
Proof. split; vm_compute; reflexivity. Qed.
