(* ===== verification/Comfy.v ===== *)
(** * Renders on a box ([queue_workflows/comfyui.py], [builtin_nodes/comfyui.py])

    How a box is given to its ComfyUI server, how a graph is submitted and waited for, and
    the built-in node that does both and fetches the files.  What the box holds, the answers
    of the server, poll by poll, and the host's start lever are arguments; [json.loads] is
    a parameter.  The calls that leave the process are a trace. *)

From S2P Require Import Prelude Json PyText Refs Schema NodeQueue Claim Reclaim WorkerLanes Catalog LlmProbe Residency.
From Stdlib Require Import QArith Qround.
Local Open Scope Z_scope.

Definition ComfyUIError : exc := OtherError "ComfyUIError".
Definition ComfyUITimeout : exc := OtherError "ComfyUITimeout".
Definition ComfyUINotReady : exc := OtherError "ComfyUINotReady".

(** ** The deadline of a wait, in polls *)

(** [float(v)]: no number, and no finite one *)
Definition py_float_of (v : json) : result (option Q) :=
  match v with
  | JStr s => match Txt.py_float (PyStr.strip s) with Some r => Ok r | None => Raise (ValueError "float") end
  | _ => match as_number v with Some q => Ok (Some q) | None => Raise (TypeError "float") end
  end.
(** [max(1, int(timeout_s / poll_s)) if poll_s > 0 else 1]; [int] refuses what is not
    finite *)
Definition max_polls (timeout_s : option Q) (poll_s : Q) : result nat :=
  if Qle_bool poll_s 0 then Ok 1%nat
  else match timeout_s with
       | None => Raise (OtherError "int")
       | Some t => Ok (Z.to_nat (Z.max 1 (trunc (t / poll_s))))
       end.

(** ** The box *)

Inductive comfy_call :=
  | Lever (l : lever)
  | StartComfyui
  | ReadyProbe (up : bool)
  | Sleep
  | PostPrompt (graph : json)
  | PollHistory
  | Fetch (filename subfolder type : json).

Section wait.
Context (up : nat → bool).
(** The polls after the first one: at most [n] of them, from the [i]-th answer *)
Fixpoint poll_ready (n i : nat) : list comfy_call * bool :=
  match n with
  | O => ([], false)
  | S n' =>
      if up i then ([Sleep; ReadyProbe true], true)
      else let '(calls, r) := poll_ready n' (S i) in (Sleep :: ReadyProbe false :: calls, r)
  end.
End wait.

(** [up]: what each ready probe answers *)
Definition acquire_box_for_comfyui (residents : list Resident) (start : result ()) (up : nat → bool)
    (reprobe : option (result (list Resident))) (ready_timeout_s poll_s : Q) : list comfy_call * result (list Resident) :=
  let '(fired, r) := clear_box_for COMFYUI (Some COMFYUI) residents reprobe in
  let calls := Lever <$> fired in
  match r with
  | Raise x => (calls, Raise x)
  | Ok evicted =>
      let calls := calls ++ [StartComfyui] in
      match start with
      | Raise x => (calls, Raise x)
      | Ok _ =>
          if up O then (calls ++ [ReadyProbe true], Ok evicted)
          else match max_polls (Some ready_timeout_s) poll_s with
               | Raise x => (calls ++ [ReadyProbe false], Raise x)
               | Ok n =>
                   let '(polls, ok) := poll_ready up n 1 in
                   (calls ++ ReadyProbe false :: polls, if ok then Ok evicted else Raise ComfyUINotReady)
               end
      end
  end.

(** The worker's own model is listed when the caller names it. *)
Definition with_inprocess (observed : list Resident) (inprocess_model : option string) : list Resident :=
  observed ++ match inprocess_model with
              | Some m => if PyStr.truthy m then [mkResident INPROCESS m 0 false] else []
              | None => []
              end.

Section box.
Context `{PyEnv, WorkerEnv}.

(** [(a or b or "").strip()] *)
Definition first_truthy (l : list (option string)) : string :=
  PyStr.strip (default "" (head (truthy_only (omap id l)))).
Definition configured_url (config_comfyui_url : option string) : result string :=
  e ← env_get "QUEUE_WORKFLOWS_COMFYUI_URL" None; Ok (first_truthy [e; config_comfyui_url]).
Definition ensure_url (comfyui_url : option string) (config_comfyui_url : option string) : result string :=
  match comfyui_url with
  | Some u => if PyStr.truthy u then Ok (PyStr.strip u) else configured_url config_comfyui_url
  | None => configured_url config_comfyui_url
  end.

(** The levers and probes of the settings; [net i] is what the network answers at the
    [i]-th probe.  No second look at the box is asked for. *)
Definition ensure_comfyui_box (comfyui_url config_comfyui_url inprocess_model : option string) (observed : list Resident)
    (comfyui_start_fn : option (result ())) (net : nat → Http) (ready_timeout_s poll_s : Q)
    : list comfy_call * result (list Resident) :=
  match ensure_url comfyui_url config_comfyui_url with
  | Raise x => ([], Raise x)
  | Ok url =>
      acquire_box_for_comfyui (with_inprocess observed inprocess_model) (default (Ok ()) comfyui_start_fn)
        (λ i, @comfyui_reachable (net i) (Some url)) None ready_timeout_s poll_s
  end.
End box.

(** ** The client *)

(** What a history entry says of an output file *)
Record file := mkFile { f_name : json; f_subfolder : json; f_type : json }.
(** [v.get(k, dflt)] *)
Definition py_get_or (k : string) (dflt : json) (v : json) : result json :=
  match v with
  | JObj d => Ok (default dflt (dict_get k d))
  | _ => Raise (AttributeError "get")
  end.
Definition file_of (f : json) : result file :=
  n ← py_get_or "filename" (JStr "") f; s ← py_get_or "subfolder" (JStr "") f; t ← py_get_or "type" (JStr "output") f;
  Ok (mkFile n s t).
Definition files_under (node_out : json) (key : string) : result (list file) :=
  v ← py_get_or key (JArr []) node_out; l ← iter_or_empty v; mapR file_of l.
Definition files_of (node_out : json) : result (list file) :=
  @concat file <$> mapR (files_under node_out) ["images"; "gifs"; "videos"].
Definition _collect_outputs (outputs : json) : result (list file) :=
  if truthy outputs then
    match outputs with
    | JObj d => @concat file <$> mapR (λ kv, files_of kv.2) (sort_by (λ kv : string * json, PyStr.key kv.1) d)
    | _ => Raise (AttributeError "items")
    end
  else Ok [].

(** *** The transport *)

(** What a POST gave: a body, an HTTP error with what reading its body gave, or a failure *)
Inductive posted := Body (b : string) | HttpError (b : result string) | NoAnswer (x : exc).

Section client.
Context (json_loads : string → option json).

Definition body_json (b : string) : option json := json_loads (if PyStr.truthy b then b else "{}").
Definition _default_submit (p : posted) : result json :=
  match p with
  | Body b => match body_json b with Some v => Ok v | None => Raise (ValueError "JSONDecodeError") end
  | HttpError (Ok b) => Ok (default (JObj []) (body_json b))
  | HttpError (Raise _) => Ok (JObj [])
  | NoAnswer x => Raise x
  end.
Definition _default_history (p : posted) : json :=
  match p with Body b => default (JObj []) (body_json b) | _ => JObj [] end.

(** [hist.get(pid)]: the keys are strings, and what cannot be hashed cannot be looked up *)
Definition get_prompt (pid hist : json) : result json :=
  match hist with
  | JObj d =>
      match pid with
      | JStr s => Ok (default JNull (dict_get s d))
      | JArr _ | JObj _ => Raise (TypeError "unhashable")
      | _ => Ok JNull
      end
  | _ => Raise (AttributeError "get")
  end.
Definition or_empty (v : json) : json := if truthy v then v else JObj [].
(** One poll: the files of a finished run, or nothing yet *)
Definition poll_history (pid hist : json) : result (option (list file)) :=
  rec ← get_prompt pid (or_empty hist);
  if truthy rec then
    st ← py_get_or "status" (JObj []) rec;
    let status := or_empty st in
    str ← py_get "status_str" status;
    if py_eq str (JStr "error") then Raise ComfyUIError
    else
      done ← py_get "completed" status;
      if truthy done || py_eq str (JStr "success")
      then o ← py_get_or "outputs" (JObj []) rec; files ← _collect_outputs o; Ok (Some files)
      else Ok None
  else Ok None.
Fixpoint poll_loop (pid : json) (history : nat → posted) (n i : nat) : list comfy_call * result (list file) :=
  match n with
  | O => ([], Raise ComfyUITimeout)
  | S n' =>
      match poll_history pid (_default_history (history i)) with
      | Raise x => ([PollHistory], Raise x)
      | Ok (Some files) => ([PollHistory], Ok files)
      | Ok None => let '(calls, r) := poll_loop pid history n' (S i) in (PollHistory :: Sleep :: calls, r)
      end
  end.
Definition submit_workflow (graph : json) (poll_s : Q) (timeout_s : option Q) (post : posted) (history : nat → posted)
    : list comfy_call * result (list file) :=
  match (resp ← _default_submit post; py_get "prompt_id" (or_empty resp)) with
  | Raise x => ([PostPrompt graph], Raise x)
  | Ok pid =>
      if negb (truthy pid) then ([PostPrompt graph], Raise ComfyUIError)
      else match max_polls timeout_s poll_s with
           | Raise x => ([PostPrompt graph], Raise x)
           | Ok n => let '(calls, r) := poll_loop pid history (S n) 0 in (PostPrompt graph :: calls, r)
           end
  end.

(** ** The built-in node *)

Section node.
Context `{PyEnv, WorkerEnv}.

Record render_env := mkRenderEnv {
  re_config_url : option string;
  re_observed : list Resident;
  re_start : option (result ());
  re_net : nat → Http;
  re_post : posted;
  re_history : nat → posted;
  re_fetch : file → result string;
  re_read : string → result string;
}.

Definition run_url (e : render_env) (inputs : dict) : result string :=
  given ← match default JNull (dict_get "comfyui_url" inputs) with
          | v => if truthy v then match v with JStr s => Ok (PyStr.strip s) | _ => Raise (AttributeError "strip") end
                 else Ok EmptyString
          end;
  if PyStr.truthy given then Ok given
  else u ← configured_url (re_config_url e);
       if PyStr.truthy u then Ok u else Raise (RuntimeError "no comfyui_url").
Definition run_graph (e : render_env) (inputs : dict) : result json :=
  let path := default JNull (dict_get "graph_path" inputs) in
  graph ← match default JNull (dict_get "graph" inputs) with
          | JNull =>
              if truthy path then
                match path with
                | JStr p => text ← re_read e p;
                            match json_loads text with Some v => Ok v | None => Raise (ValueError "JSONDecodeError") end
                | _ => Raise (TypeError "path")
                end
              else Ok JNull
          | g => Ok g
          end;
  match graph with
  | JObj (_ :: _) => Ok graph
  | _ => Raise (RuntimeError "no graph")
  end.

Definition dest_name (f : file) : result string :=
  if truthy (f_name f) then match f_name f with JStr s => Ok s | _ => Raise (TypeError "path") end
  else Ok "output.bin".
(** The files of the job's directory by name: a second file of a name replaces the first *)
Fixpoint fetch_all (fetch : file → result string) (files : list file) (dir : list (string * string))
    : list comfy_call * list (string * string) * result (list string) :=
  match files with
  | [] => ([], dir, Ok [])
  | f :: r =>
      match dest_name f with
      | Raise x => ([], dir, Raise x)
      | Ok name =>
          let call := Fetch (f_name f) (f_subfolder f) (f_type f) in
          match fetch f with
          | Raise x => ([call], dir, Raise x)
          | Ok bytes =>
              let '(calls, dir, names) := fetch_all fetch r (dict_set name bytes dir) in
              (call :: calls, dir, (λ ns, name :: ns) <$> names)
          end
      end
  end.

Record rendered := mkRendered { r_url : string; r_files : list string; r_n_outputs : Z; r_primary_file : option string }.

Definition builtin_run (e : render_env) (inputs : dict) (dir : list (string * string))
    : list comfy_call * list (string * string) * result rendered :=
  match (url ← run_url e inputs; graph ← run_graph e inputs; Ok (url, graph)) with
  | Raise x => ([], dir, Raise x)
  | Ok (url, graph) =>
      match ensure_comfyui_box (Some url) (re_config_url e) None (re_observed e) (re_start e) (re_net e) 120 1 with
      | (calls, Raise x) => (calls, dir, Raise x)
      | (calls, Ok _) =>
          let t := default JNull (dict_get "timeout_s" inputs) in
          match py_float_of (if truthy t then t else JFloat 1800) with
          | Raise x => (calls, dir, Raise x)
          | Ok timeout_s =>
              match submit_workflow graph 2 timeout_s (re_post e) (re_history e) with
              | (polls, Raise x) => (calls ++ polls, dir, Raise x)
              | (polls, Ok files) =>
                  let '(fetches, dir, names) := fetch_all (re_fetch e) files dir in
                  (calls ++ polls ++ fetches, dir,
                   (λ ns, mkRendered url ns (Z.of_nat (length ns)) (last ns)) <$> names)
              end
          end
      end
  end.
End node.
End client.

(** * Lemmas *)

(** ** Waiting *)

Definition is_wait (c : comfy_call) : bool := match c with ReadyProbe _ | Sleep => true | _ => false end.
Definition is_poll (c : comfy_call) : bool := match c with PollHistory | Sleep => true | _ => false end.

Lemma poll_ready_spec up : ∀ n i, let '(calls, ok) := poll_ready up n i in
  Forall (λ c, is_wait c = true) calls ∧
  (ok = true ↔ ∃ k, (k < n)%nat ∧ up (i + k)%nat = true) ∧
  (length (List.filter (λ c, match c with ReadyProbe _ => true | _ => false end) calls) ≤ n)%nat.
Proof.
  induction n as [|n IH]; intros i; simpl; [split_and!; [done| |lia]; split; [done|intros (k & ? & _); lia]|].
  destruct (up i) eqn:Eu; [split_and!; [by repeat constructor| |simpl; lia]; split; [|done]|].
  { intros _. exists O. rewrite Nat.add_0_r. split; [lia|done]. }
  specialize (IH (S i)). destruct (poll_ready up n (S i)) as [calls ok]. destruct IH as (I1 & I2 & I3).
  split_and!; [by repeat constructor| |simpl; lia]. rewrite I2. split.
  - intros (k & Hk & Hu). exists (S k). split; [lia|]. by rewrite <- Nat.add_succ_comm.
  - intros ([|k] & Hk & Hu); [rewrite Nat.add_0_r in Hu; congruence|]. exists k. split; [lia|]. by rewrite Nat.add_succ_comm.
Qed.

Section client_lemmas.
Context (json_loads : string → option json).
Abbreviation answer pid history i := (poll_history pid (_default_history json_loads (history i))).

Lemma poll_loop_spec pid history : ∀ n i, let '(calls, r) := poll_loop json_loads pid history n i in
  Forall (λ c, is_poll c = true) calls ∧
  ((∃ k, (k < n)%nat ∧ (∀ j, (j < k)%nat → answer pid history (i + j)%nat = Ok None) ∧
      length (List.filter (λ c, match c with PollHistory => true | _ => false end) calls) = S k ∧
      match answer pid history (i + k)%nat with Ok (Some files) => r = Ok files | Ok None => False | Raise x => r = Raise x end) ∨
   (∀ j, (j < n)%nat → answer pid history (i + j)%nat = Ok None) ∧ r = Raise ComfyUITimeout ∧
      length (List.filter (λ c, match c with PollHistory => true | _ => false end) calls) = n).
Proof.
  induction n as [|n IH]; intros i; [split; [done|right]; split_and!; [lia|done|done]|]. cbn [poll_loop].
  destruct (answer pid history i) as [[files|]|x] eqn:Ea.
  - split; [by repeat constructor|left]. exists O. rewrite Nat.add_0_r, Ea. split_and!; [lia|lia|done|done].
  - specialize (IH (S i)). destruct (poll_loop json_loads pid history n (S i)) as [calls r]. destruct IH as [I0 IH].
    split; [by repeat constructor|].
    assert (∀ j m, (∀ j', (j' < m)%nat → answer pid history (S i + j')%nat = Ok None) → (j < S m)%nat → answer pid history (i + j)%nat = Ok None) as Hm.
    { intros [|j] m Hm Hj; [by rewrite Nat.add_0_r|]. rewrite <- Nat.add_succ_comm. apply Hm. lia. }
    destruct IH as [(k & Hk & Hb & Hl & Hd)|(Hall & -> & Hl)].
    + left. exists (S k). rewrite <- Nat.add_succ_comm. split_and!; [lia|intros j; by apply Hm|simpl; lia|done].
    + right. split_and!; [intros j; by apply Hm|done|simpl; lia].
  - split; [by repeat constructor|left]. exists O. rewrite Nat.add_0_r, Ea. split_and!; [lia|lia|done|done].
Qed.

(** ** Files *)

Definition fetch_call (f : file) : comfy_call := Fetch (f_name f) (f_subfolder f) (f_type f).
Lemma fetch_all_spec fetch : ∀ files dir calls dir' names,
  fetch_all fetch files dir = (calls, dir', Ok names) →
  calls = fetch_call <$> files ∧ mapR dest_name files = Ok names ∧
  (∀ n, n ∉ names → dict_get n dir' = dict_get n dir) ∧
  (∀ i f n, files !! i = Some f → names !! i = Some n →
     is_ok (fetch f) = true ∧ ((∀ j, (i < j)%nat → names !! j ≠ Some n) → Ok <$> dict_get n dir' = Some (fetch f))).
Proof.
  induction files as [|f files IH]; intros dir calls dir' names; simpl.
  { intros [= <- <- <-]. split_and!; [done..|]. by intros [|i] f n. }
  destruct (dest_name f) as [name|x]; [|done]. destruct (fetch f) as [bytes|x] eqn:Ef; [|done].
  destruct (fetch_all fetch files (dict_set name bytes dir)) as [[calls0 dir0] [ns|x]] eqn:E; [|done].
  intros [= <- <- <-]. destruct (IH _ _ _ _ E) as (-> & Ens & Hother & Hfile). split_and!; [done|simpl; by rewrite Ens| |].
  - intros n [Hne Hn]%not_elem_of_cons. rewrite Hother by done. by apply dict_get_set_ne.
  - intros [|i] f' n; simpl.
    + intros [= <-] [= <-]. rewrite Ef. split; [done|]. intros Hlater. rewrite Hother; [by rewrite dict_get_set_eq|].
      intros (j & Hj)%list_elem_of_lookup_1. by apply (Hlater (S j)); [lia|].
    + intros Hf Hn. destruct (Hfile i f' n Hf Hn) as [Hok Hlast]. split; [done|]. intros Hlater. apply Hlast.
      intros j Hj. apply (Hlater (S j)). lia.
Qed.
End client_lemmas.

(** ** The box is given to the renderer *)

Lemma acquire_inv residents start up reprobe timeout_s poll_s calls r :
  acquire_box_for_comfyui residents start up reprobe timeout_s poll_s = (calls, r) →
  match r with
  | Raise _ => True
  | Ok evicted =>
      evicted = foreign COMFYUI (Some COMFYUI) residents ∧ start = Ok () ∧ (∃ k, up k = true) ∧
      ∃ waits, calls = (Lever <$> (clear_box_for COMFYUI (Some COMFYUI) residents reprobe).1) ++ StartComfyui :: waits ∧
        Forall (λ c, is_wait c = true) waits
  end.
Proof.
  unfold acquire_box_for_comfyui. destruct (clear_box_for _ _ residents reprobe) as [fired res] eqn:Ec.
  destruct res as [evicted|x]; [|by intros [= <- <-]]. destruct start as [[]|x]; [|by intros [= <- <-]].
  assert (evicted = foreign COMFYUI (Some COMFYUI) residents) as ->.
  { unfold clear_box_for in Ec. destruct (foreign _ _ residents); [by simplify_eq|].
    destruct reprobe as [rp|]; [|by simplify_eq].
    destruct (foreign _ _ (match rp with Ok l => l | Raise _ => [] end)); by simplify_eq. }
  destruct (up O) eqn:E0.
  { intros [= <- <-]. split_and!; [done|done|eauto|]. exists [ReadyProbe true]. split; [by rewrite <- app_assoc|by repeat constructor]. }
  destruct (max_polls _ _) as [n|x]; [|by intros [= <- <-]].
  pose proof (poll_ready_spec up n 1) as Hp. destruct (poll_ready up n 1) as [polls ok]. destruct Hp as (Hw & Hok & _).
  intros [= <- <-]. destruct ok; [|done]. split_and!; [done|done| |].
  - destruct Hok as [Hok _]. destruct (Hok eq_refl) as (k & _ & ?). eauto.
  - exists (ReadyProbe false :: polls). split; [by rewrite <- app_assoc|by constructor].
Qed.

(** A render that succeeds did all of it, in order.  The rivals of the card are told to
    go, the server is started and answers, the graph is posted, and the run is polled until
    the first poll that decides, which found it finished; every file it lists is fetched,
    under the name the node reports; when no later file has its name, the file is what the
    server gave. *)
Lemma render_lands_every_output `{WorkerEnv} json_loads e inputs dir calls dir' r
    (Hrun : builtin_run json_loads e inputs dir = (calls, dir', Ok r)) :
  ∃ url graph resp pid k files waits polls,
    run_url e inputs = Ok url ∧ run_graph json_loads e inputs = Ok graph ∧ r_url r = url ∧
    (∃ i, @comfyui_reachable (re_net e i) (Some (PyStr.strip url)) = true) ∧
    _default_submit json_loads (re_post e) = Ok resp ∧ py_get "prompt_id" (or_empty resp) = Ok pid ∧ truthy pid = true ∧
    (∀ j, (j < k)%nat → poll_history pid (_default_history json_loads (re_history e j)) = Ok None) ∧
    poll_history pid (_default_history json_loads (re_history e k)) = Ok (Some files) ∧
    calls = (Lever <$> (clear_box_for COMFYUI (Some COMFYUI) (re_observed e) None).1) ++
            StartComfyui :: waits ++ PostPrompt graph :: polls ++ (fetch_call <$> files) ∧
    Forall (λ c, is_wait c = true) waits ∧ Forall (λ c, is_poll c = true) polls ∧
    mapR dest_name files = Ok (r_files r) ∧ r_n_outputs r = Z.of_nat (length (r_files r)) ∧ r_primary_file r = last (r_files r) ∧
    (∀ i f n, files !! i = Some f → r_files r !! i = Some n → (∀ j, (i < j)%nat → r_files r !! j ≠ Some n) →
       Ok <$> dict_get n dir' = Some (re_fetch e f)).
Proof.
  revert Hrun. unfold builtin_run. destruct (run_url e inputs) as [url|x] eqn:Eu; [|done]. simpl.
  destruct (run_graph json_loads e inputs) as [graph|x] eqn:Eg; [|done]. simpl.
  assert (ensure_url (Some url) (re_config_url e) = Ok (PyStr.strip url)) as Eurl.
  { unfold run_url in Eu. unfold ensure_url. destruct (PyStr.truthy url) eqn:Et; [done|]. exfalso. revert Eu.
    destruct (if truthy _ then _ else _) as [g|]; [|done]. simpl. destruct (PyStr.truthy g) eqn:Eg'; [congruence|].
    destruct (configured_url _) as [u|]; [|done]. simpl. destruct (PyStr.truthy u) eqn:Eu'; congruence. }
  unfold ensure_comfyui_box. rewrite Eurl. replace (with_inprocess (re_observed e) None) with (re_observed e)
    by (unfold with_inprocess; by rewrite app_nil_r).
  destruct (acquire_box_for_comfyui _ _ _ _ _ _) as [calls0 [evicted|x]] eqn:Ea; [|done].
  apply acquire_inv in Ea as (-> & Hstart & Hup & waits & -> & Hwaits).
  destruct (py_float_of _) as [timeout_s|x]; [|done].
  unfold submit_workflow. destruct (_default_submit json_loads (re_post e)) as [resp|x] eqn:Es; [|done]. cbn [mbind result_bind].
  destruct (py_get "prompt_id" (or_empty resp)) as [pid|x] eqn:Ep; [|done].
  destruct (truthy pid) eqn:Etp; [|done]. cbn [negb]. destruct (max_polls timeout_s 2) as [n|x]; [|done].
  pose proof (poll_loop_spec json_loads pid (re_history e) (S n) 0) as Hloop.
  destruct (poll_loop json_loads pid (re_history e) (S n) 0) as [polls [files|x]]; [|done].
  destruct Hloop as [Hpolls [(k & _ & Hbefore & _ & Hk)|(_ & ? & _)]]; [|done].
  destruct (fetch_all (re_fetch e) files dir) as [[fetches dir0] [names|x]] eqn:Ef; [|done]. intros [= <- <- <-].
  apply fetch_all_spec in Ef as (-> & Hnames & _ & Hfiles).
  simpl in *. destruct (poll_history pid (_default_history json_loads (re_history e k))) as [[files'|]|x] eqn:Ek; [|done..].
  injection Hk as <-.
  exists url, graph, resp, pid, k, files, waits, polls. split_and!; try done.
  - by rewrite <- app_assoc, <- app_comm_cons.
  - intros i f nm Hi Hn Hlater. by apply (Hfiles i f nm Hi Hn).
Qed.

(** The wait for a render ends: it polls at most once more than its deadline has poll
    intervals, and times out exactly when none of these polls decides. *)
Lemma submit_is_bounded json_loads graph poll_s t post history calls r :
  Qle_bool poll_s 0 = false → submit_workflow json_loads graph poll_s (Some t) post history = (calls, r) →
  (length (List.filter (λ c, match c with PollHistory => true | _ => false end) calls) ≤
     S (Z.to_nat (Z.max 1 (trunc (t / poll_s)))))%nat ∧
  (r = Raise ComfyUITimeout → ∀ pid,
     (resp ← _default_submit json_loads post; py_get "prompt_id" (or_empty resp)) = Ok pid → truthy pid = true →
     (∃ x k, poll_history pid (_default_history json_loads (history k)) = Raise x) ∨
     ∀ j, (j ≤ Z.to_nat (Z.max 1 (trunc (t / poll_s))))%nat → poll_history pid (_default_history json_loads (history j)) = Ok None).
Proof.
  intros Hp. unfold submit_workflow, max_polls. rewrite Hp. set (n := Z.to_nat _).
  destruct (_default_submit json_loads post ≫= _) as [pid|x].
  2: { intros [= <- <-]. simpl. split; [lia|]. done. }
  destruct (truthy pid) eqn:Et; [|intros [= <- <-]; simpl; split; [lia|intros _ pid' [= <-]; congruence]]. cbn [negb].
  pose proof (poll_loop_spec json_loads pid history (S n) 0) as Hl.
  destruct (poll_loop json_loads pid history (S n) 0) as [calls0 r0]. destruct Hl as [_ Hl]. intros [= <- <-].
  cbn [List.filter]. destruct Hl as [(k & Hk & _ & Hlen & Hans)|(Hall & -> & Hlen)].
  - split; [lia|]. intros -> pid' [= <-] _. simpl in Hans.
    destruct (poll_history pid _) as [[files|]|x] eqn:E; [done|done|]. left. eauto.
  - split; [lia|]. intros _ pid' [= <-] _. right. intros j Hj. apply (Hall j). lia.
Qed.

(** * Where the renderer and its documentation part *)

Lemma acquire_levers l residents start up reprobe timeout_s poll_s :
  Lever l ∈ (acquire_box_for_comfyui residents start up reprobe timeout_s poll_s).1 →
  l ∈ (clear_box_for COMFYUI (Some COMFYUI) residents reprobe).1.
Proof.
  unfold acquire_box_for_comfyui. destruct (clear_box_for _ _ _ _) as [fired [ev|x]]; cbn [fst].
  2: { intros (l' & [= <-] & Hl)%list_elem_of_fmap. done. }
  assert (∀ rest, Lever l ∉ rest → Lever l ∈ ((Lever <$> fired) ++ [StartComfyui]) ++ rest → l ∈ fired) as Hin.
  { intros rest Hr [[(l' & [= <-] & Hl)%list_elem_of_fmap|Hx]%elem_of_app|]%elem_of_app; [done|set_solver|done]. }
  destruct start; [|intros Hx; apply (Hin []); [set_solver|by rewrite app_nil_r]].
  destruct (up O); [apply Hin; set_solver|]. destruct (max_polls _ _) as [n|x]; [|apply Hin; set_solver].
  pose proof (poll_ready_spec up n 1) as Hp. destruct (poll_ready up n 1) as [polls ok]. destruct Hp as [Hw _]. cbn [fst].
  rewrite Forall_forall in Hw. apply Hin. intros [Hx|Hx]%elem_of_cons; [done|]. by apply Hw in Hx.
Qed.
Lemma submit_levers json_loads l graph poll_s t post history :
  Lever l ∉ (submit_workflow json_loads graph poll_s t post history).1.
Proof.
  unfold submit_workflow. destruct (_ ≫= _) as [pid|x]; [|set_solver]. destruct (truthy pid); [|set_solver]. cbn [negb].
  destruct (max_polls t poll_s) as [n|x]; [|set_solver].
  pose proof (poll_loop_spec json_loads pid history (S n) 0) as Hl.
  destruct (poll_loop _ _ _ _ _) as [calls0 r0]. destruct Hl as [Hl _]. cbn [fst]. rewrite Forall_forall in Hl.
  intros [Hx|Hx]%elem_of_cons; [done|]. by apply Hl in Hx.
Qed.
Lemma fetch_levers l fetch : ∀ files dir, Lever l ∉ (fetch_all fetch files dir).1.1.
Proof.
  induction files as [|f fs IH]; intros dir; simpl; [set_solver|]. destruct (dest_name f) as [n|]; [|set_solver].
  destruct (fetch f) as [b|]; [|set_solver]. specialize (IH (dict_set n b dir)). destruct (fetch_all _ _ _) as [[c d'] ns].
  cbn [fst] in *. set_solver.
Qed.

(** The node documents that the worker's warm model leaves the card; it names no model, so
    the box it sees has none, and no lever for it is ever pulled. *)
Lemma warm_model_is_never_unloaded `{WorkerEnv} json_loads e inputs dir :
  Forall (λ r, String.eqb (server r) INPROCESS = false) (re_observed e) →
  Lever UnloadInprocess ∉ (builtin_run json_loads e inputs dir).1.1.
Proof.
  intros Hobs. unfold builtin_run. destruct (run_url e inputs) as [url|x]; [|set_solver]. simpl.
  destruct (run_graph json_loads e inputs) as [graph|x]; [|set_solver]. simpl.
  assert (Lever UnloadInprocess ∉ (ensure_comfyui_box (Some url) (re_config_url e) None (re_observed e) (re_start e) (re_net e) 120 1).1) as Hens.
  { unfold ensure_comfyui_box. destruct (ensure_url _ _) as [u|x]; [|set_solver].
    replace (with_inprocess (re_observed e) None) with (re_observed e) by (unfold with_inprocess; by rewrite app_nil_r).
    intros Hl%acquire_levers. revert Hl. unfold clear_box_for.
    assert (on_server INPROCESS (foreign COMFYUI (Some COMFYUI) (re_observed e)) = false) as Hin.
    { apply Bool.not_true_iff_false. unfold on_server. rewrite existsb_exists. intros (r & [Hr _]%List.filter_In & E).
      rewrite Forall_forall in Hobs. specialize (Hobs r (proj2 (list_elem_of_In _ _) Hr)). congruence. }
    destruct (foreign _ _ _) as [|f fs]; [set_solver|]. rewrite Hin. repeat case_match; set_solver. }
  destruct (ensure_comfyui_box _ _ _ _ _ _ _ _) as [calls [ev|x]]; [|done]. cbn [fst] in Hens.
  destruct (py_float_of _) as [t|x]; [|done].
  pose proof (submit_levers json_loads UnloadInprocess graph 2 t (re_post e) (re_history e)) as Hsub.
  destruct (submit_workflow _ _ _ _ _ _) as [polls [files|x]]; cbn [fst] in *; [|set_solver].
  pose proof (fetch_levers UnloadInprocess (re_fetch e) files dir) as Hfetch.
  destruct (fetch_all _ _ _) as [[c d'] ns]. cbn [fst] in *. set_solver.
Qed.

Module ComfyDemo.
#[export] Instance env : WorkerEnv := {| os_environ := []; config_cpu_worker_threads := JNull; config_gpu_box_max_concurrent := JNull |}.
Definition net : Http := {|
  http_get _ := Ok None; http_text _ := Ok EmptyString; http_post _ _ := Ok 200; http_post_json _ _ := Ok JNull;
  http_json _ := Ok (JObj [("devices", JArr [])]) |}.
Definition two_files : json :=
  JObj [("p1", JObj [("status", JObj [("completed", JBool true)]);
     ("outputs", JObj [("9", JObj [("images", JArr [JObj [("filename", JStr "a.png"); ("subfolder", JStr "x")];
                                                    JObj [("filename", JStr "a.png"); ("subfolder", JStr "y")]])])])])].
Definition json_loads (s : string) : option json :=
  if String.eqb s "posted" then Some (JObj [("prompt_id", JStr "p1")])
  else if String.eqb s "done" then Some two_files else if String.eqb s "{}" then Some (JObj []) else None.
Definition world : render_env := mkRenderEnv None [mkResident VLLM "chat-a" 0 false] None (λ _, net) (Body "posted")
  (λ i, match i with O => Body "" | _ => Body "done" end)
  (λ f, match f_subfolder f with JStr s => Ok ("bytes of " +:+ s) | _ => Raise (KeyError "subfolder") end)
  (λ _, Raise (OtherError "FileNotFoundError")).
Definition inputs : dict := [("comfyui_url", JStr "http://c/"); ("graph", JObj [("1", JNull)])].
End ComfyDemo.
Import ComfyDemo.

(** Two outputs of one name in different folders are both reported and only the last is
    kept. *)
Lemma outputs_of_one_name_overwrite :
  match builtin_run json_loads world inputs [] with
  | (_, dir, Ok r) => r_n_outputs r = 2 ∧ r_files r = ["a.png"; "a.png"] ∧ dir = [("a.png", "bytes of y")]
  | _ => False
  end.
Proof. by vm_compute. Qed.

Lemma render_lands_every_output_witness :
  ∃ calls dir r files, builtin_run json_loads world inputs [] = (calls, dir, Ok r) ∧
    mapR dest_name files = Ok (r_files r) ∧ r_files r = ["a.png"; "a.png"] ∧
    ∀ f, files !! 1%nat = Some f → Ok <$> dict_get "a.png" dir = Some (re_fetch world f).
Proof.
  assert (∃ calls dir r, builtin_run json_loads world inputs [] = (calls, dir, Ok r) ∧ r_files r = ["a.png"; "a.png"])
    as (calls & dir & r & E & Hf) by (eexists _, _, _; split; vm_compute; reflexivity).
  destruct (render_lands_every_output json_loads world inputs [] calls dir r E)
    as (url & graph & resp & pid & k & files & waits & polls & Hx).
  destruct Hx as (_ & _ & _ & _ & _ & _ & _ & _ & _ & _ & _ & _ & Hn & _ & _ & Hlast).
  exists calls, dir, r, files. split; [exact E|]. split; [exact Hn|]. split; [exact Hf|].
  intros f Hi. apply (Hlast 1%nat f); [exact Hi|by rewrite Hf|]. rewrite Hf. intros [|[|j]] Hj; [lia|lia|done].
Defined.
