(* ===== verification/Telemetry.v ===== *)
(** * Telemetry of a box ([queue_workflows/gpu_health.py], [cgroup_attribution.py],
      [hw_metrics.py], [hw_lan.py], [hw_feed.py])

    The readers the gpu watchdog asks, the share of cpu and memory that is the containers' of
    the host, the capacity of the card, the two ways a sample is published, the cadence of
    the sampler and its lock, the addresses of a LAN broadcast, and the feed a panel reads.
    What the tools and kernel files print is an argument, as text; instants are integers of
    microseconds. *)

From S2P Require Import Prelude Json PyText Refs Schema NodeQueue Claim Reclaim WorkerLanes Catalog LlmProbe HwWatch.
From Stdlib Require Import QArith.
Local Open Scope list_scope.
Local Open Scope Z_scope.

(** What a probe of the cards gives of each *)
Record smi := mkSmi { smi_id : Z; use_pct : Z; vram_used_mb : Z; vram_total_mb : Z }.
Definition IndexError : exc := OtherError "IndexError".
Definition OverflowError : exc := OtherError "OverflowError".
Definition MB : Z := 1024 * 1024.

(** ** What the watchdog asks ([gpu_health.py]) *)

(** One row of [nvidia-smi pmon]: nothing, or the share of a process *)
Definition pmon_row (line : string) : option Z :=
  let line := PyStr.strip line in
  if negb (PyStr.truthy line) || PyStr.startswith "#" line then None
  else match Txt.words line with
       | _ :: pid_tok :: _ :: sm_tok :: _ =>
           if String.eqb pid_tok "-" then None
           else Some (if String.eqb sm_tok "-" then 0 else default 0 (PyStr.int sm_tok))
       | _ => None
       end.
Definition pmon_best (best : option Z) (line : string) : option Z :=
  match pmon_row line with
  | None => best
  | Some sm => Some (match best with None => sm | Some b => Z.max b sm end)
  end.
Definition _parse_pmon_sm_pct (raw : string) : option Z := foldl pmon_best None (Txt.splitlines raw).
(** [pmon]: what the command printed, unless it failed *)
Definition _nvidia_pmon_container_sm_pct (pmon : option string) : option Z := pmon ≫= _parse_pmon_sm_pct.
Definition _box_gpu_util_pct (gpus : result (list smi)) : Z :=
  match gpus with
  | Ok (g :: r) => foldl (λ m g, Z.max m (use_pct g)) (use_pct g) r
  | _ => 0
  end.
Definition gpu_util_pct (pmon : option string) (gpus : result (list smi)) : Z :=
  match _nvidia_pmon_container_sm_pct pmon with Some v => v | None => _box_gpu_util_pct gpus end.

(** The first line that starts so *)
Definition first_line (p : string) (lines : list string) : option string := List.find (PyStr.startswith p) lines.
Definition _proc_self_rss_mb (status : option (list string)) : option Z :=
  lines ← status; line ← first_line "VmRSS:" lines; w ← Txt.words line !! 1%nat; n ← PyStr.int w; Some (n / 1024).
Definition container_ram_mb (memory_current : option string) (status : option (list string)) : option Z :=
  match memory_current ≫= PyStr.int ∘ PyStr.strip with
  | Some n => Some (n / MB)
  | None => _proc_self_rss_mb status
  end.

(** ** The share of our containers ([cgroup_attribution.py]) *)

Record attribution := mkAttr { a_prefix : string; a_ncpu : Z; a_last : list (string * (Z * Z)) }.
Record slice := mkSlice { cpu_percent : option Q; ram_used_mb : Z }.

(** [cpu.stat] and [memory.current] of a scope, when they could be read *)
Definition _read_usage_usec (cpu_stat : option (list string)) : result (option Z) :=
  match cpu_stat ≫= first_line "usage_usec " with
  | None => Ok None
  | Some line => match Txt.words line !! 1%nat with
                 | Some w => Ok (PyStr.int w)
                 | None => Raise IndexError
                 end
  end.
Definition _read_memory_current (text : option string) : option Z := text ≫= PyStr.int ∘ PyStr.strip.
Definition _our_container_ids (a : attribution) (listed : option (list (string * string))) : option (list string) :=
  (λ l, map fst (List.filter (λ c, PyStr.startswith (a_prefix a) c.2) l)) <$> listed.

(** What the loop over the containers has gathered *)
Record tally := mkTally {
  t_last : list (string * (Z * Z)); t_seen : list string; t_delta : Z; t_ram : Z; t_baseline : bool; t_oldest : option Z }.
Definition oldest_of (a : option Z) (t : Z) : option Z :=
  match a with None => Some t | Some o => if t <? o then Some t else Some o end.
Definition tally_one (now : Z) (cid : string) (usage rss : option Z) (t : tally) : tally :=
  let ram := t_ram t + default 0 rss in
  match usage with
  | None => mkTally (t_last t) (t_seen t) (t_delta t) ram (t_baseline t) (t_oldest t)
  | Some u =>
      let last := dict_set cid (now, u) (t_last t) in
      let seen := t_seen t ++ [cid] in
      match dict_get cid (t_last t) with
      | None => mkTally last seen (t_delta t) ram false (t_oldest t)
      | Some (prev_t, prev_u) =>
          if u - prev_u <? 0 then mkTally last seen (t_delta t) ram (t_baseline t) (t_oldest t)
          else mkTally last seen (t_delta t + (u - prev_u)) ram (t_baseline t) (oldest_of (t_oldest t) prev_t)
      end
  end.
(** What the files of a container give *)
Definition scope_read := string → result (option Z) * option Z.
Fixpoint tally_all (now : Z) (read : scope_read) (ids : list string) (t : tally) : result () * tally :=
  match ids with
  | [] => (Ok (), t)
  | cid :: r =>
      match (read cid).1 with
      | Raise x => (Raise x, t)
      | Ok usage => tally_all now read r (tally_one now cid usage (read cid).2 t)
      end
  end.
Definition clamp100 (q : Q) : Q := if Qle_bool q 0 then 0%Q else if Qle_bool 100 q then 100%Q else q.
Definition cpu_share (now ncpu : Z) (t : tally) : option Q :=
  match t_oldest t with
  | Some o => if negb (t_baseline t) || (now - o <=? 0) then None
              else Some (clamp100 (inject_Z (t_delta t * 100) / inject_Z ((now - o) * ncpu)))
  | None => None
  end.
(** The containers that disappeared are forgotten *)
Definition is_seen (seen : list string) (cid : string) : bool := bool_decide (cid ∈ seen).
(** [listed]: what docker lists, unless it cannot be asked *)
Definition sample_containers (root_exists : bool) (listed : option (list (string * string))) (now : Z) (read : scope_read)
    (a : attribution) : result (option slice) * attribution :=
  if negb (PyStr.truthy (a_prefix a)) || negb root_exists then (Ok None, a)
  else match _our_container_ids a listed with
       | None => (Ok None, a)
       | Some ids =>
           let '(r, t) := tally_all now read ids (mkTally (a_last a) [] 0 0 true None) in
           match r with
           | Raise x => (Raise x, mkAttr (a_prefix a) (a_ncpu a) (t_last t))
           | Ok _ =>
               (Ok (Some (mkSlice (cpu_share now (a_ncpu a) t) (t_ram t / MB))),
                mkAttr (a_prefix a) (a_ncpu a) (List.filter (λ kv, is_seen (t_seen t) kv.1) (t_last t)))
           end
       end.

(** ** The cards ([hw_metrics.py]) *)

Definition MIN_PLAUSIBLE_VRAM_MB : Z := 2048.

Definition int_or_0 (v : string) : Z := default 0 (PyStr.int v).
Definition nvidia_row (line : string) : option smi :=
  let line := PyStr.strip line in
  if negb (PyStr.truthy line) then None
  else match PyStr.strip <$> PyStr.split "," line with
       | [i; u; m; t] => Some (mkSmi (int_or_0 i) (int_or_0 u) (int_or_0 m) (int_or_0 t))
       | _ => None
       end.
Definition _nvidia_smi (raw : option string) : list smi :=
  match raw with Some text => omap nvidia_row (Txt.splitlines text) | None => [] end.

(** [int(float(s))]: an infinity is an [OverflowError], a nan a [ValueError] *)
Definition is_nan (s : string) : bool := String.eqb (PyStr.lower (Txt.unsign (PyStr.strip s)).2) "nan".
Definition int_float (s : string) : result Z :=
  match Txt.py_float s with
  | Some (Some q) => Ok (trunc q)
  | Some None => if is_nan s then Raise (ValueError "nan") else Raise OverflowError
  | None => Raise (ValueError "float")
  end.

Section cards.
Context `{PyEnv, WorkerEnv}.

Definition _as_int (v : json) : result (option Z) :=
  match v with
  | JNull => Ok None
  | JInt z => Ok (Some z)
  | JBool b => Ok (Some (b2z b))
  | _ => match int_float (Txt.rstrip_char "%" (PyStr.strip (py_str v))) with
         | Ok z => Ok (Some z)
         | Raise (ValueError _) | Raise (TypeError _) => Ok None
         | Raise x => Raise x
         end
  end.
(** [re.match(r"card(\d+)", key)] *)
Definition card_id (key : string) : option Z :=
  if PyStr.startswith "card" key then
    let '(digits, _) := Txt.span PyStr.is_digit (PyStr.drop 4 key) in
    if PyStr.truthy digits then Some (PyStr.int_of_digits digits) else None
  else None.
Definition rocm_row (kv : string * json) : result (option smi) :=
  match card_id kv.1 with
  | None => Ok None
  | Some i =>
      u ← py_get "GPU use (%)" kv.2; use ← _as_int u;
      m ← py_get "VRAM Total Used Memory (B)" kv.2; used ← _as_int m;
      t ← py_get "VRAM Total Memory (B)" kv.2; total ← _as_int t;
      Ok (Some (mkSmi i (default 0 use) (default 0 used / MB) (default 0 total / MB)))
  end.
Definition rocm_rows (d : dict) : result (list (option smi)) :=
  mapR rocm_row (sort_by (λ kv : string * json, PyStr.key kv.1) d).
(** The parsed answer of the command: none when it failed or printed no JSON *)
Definition _rocm_smi (data : option json) : result (list smi) :=
  match data with
  | None => Ok []
  | Some (JObj d) => match rocm_rows d with Ok rows => Ok (omap id rows) | Raise x => Raise x end
  | Some _ => Raise (AttributeError "items")
  end.

Inductive vendor := Nvidia | Rocm | NoCard.
Definition _select_gpu_probe (which : string → bool) : vendor :=
  if which "nvidia-smi" then Nvidia else if which "rocm-smi" then Rocm else NoCard.
(** The choice is made by the first call and kept *)
Definition _gpu_probe (pinned : option vendor) (which : string → bool) (nvidia : option string) (rocm : option json)
    : result (list smi) * option vendor :=
  let v := match pinned with Some v => v | None => _select_gpu_probe which end in
  (match v with Nvidia => Ok (_nvidia_smi nvidia) | Rocm => _rocm_smi rocm | NoCard => Ok [] end, Some v).

Definition total_vram_mb (gpus : result (list smi)) : result (option Z) :=
  raw ← env_get "QUEUE_WORKFLOWS_GPU_VRAM_TOTAL_MB" None;
  let s := PyStr.strip (default "" raw) in
  let probed :=
    match gpus with
    | Raise _ => None
    | Ok l => let best := default 0 (max_of (map vram_total_mb l)) in
              if best <? MIN_PLAUSIBLE_VRAM_MB then None else Some best
    end in
  if PyStr.truthy s then
    match int_float s with
    | Ok v => Ok (if 0 <? v then Some v else None)
    | Raise (ValueError _) | Raise (TypeError _) => Ok probed
    | Raise x => Raise x
    end
  else Ok probed.
End cards.

(** ** A sample and its publication *)

Record mem_read := mkMem { m_percent : Q; m_used : Z; m_total : Z; m_swap : Z }.
Record hw_sample := mkHwSample {
  h_cpu : option Q; h_cpu_ours : option Q; h_ram : option Q; h_ram_used : option Z; h_ram_total : option Z;
  h_ram_ours_used : option Z; h_ram_ours : option Q; h_swap : option Z; h_gpus : list smi }.
(** [cpu], [mem]: what psutil read before it failed, if it is there; [attrib]: the slice of
    our containers, when there is one *)
Definition build_sample_of (cpu : option Q) (mem : option mem_read) (attrib : option slice) (gpus : list smi) : hw_sample :=
  let ours := ram_used_mb <$> attrib in
  mkHwSample cpu (attrib ≫= cpu_percent) (m_percent <$> mem) ((λ m, m_used m / MB) <$> mem)
    ((λ m, m_total m / MB) <$> mem) ours
    (match mem, ours with
     | Some m, Some o => if m_total m / MB =? 0 then None
                         else Some (clamp100 (inject_Z o / inject_Z (m_total m / MB) * 100)%Q)
     | _, _ => None
     end)
    ((λ m, m_swap m / MB) <$> mem) gpus.
(** An attribution that raises is none; a probe of the cards that raises is the sampler's *)
Definition _build_sample (cpu : option Q) (mem : option mem_read) (attrib : result (option slice)) (gpus : result (list smi))
    : result hw_sample :=
  g ← gpus; Ok (build_sample_of cpu mem (match attrib with Ok s => s | Raise _ => None end) g).

(** *** The LAN ([hw_lan.py]) *)

Definition DEFAULT_PORT : Z := 48291.
Definition _VIRTUAL_PREFIXES : list string :=
  ["lo"; "docker"; "veth"; "br-"; "virbr"; "tailscale"; "tun"; "tap"; "wg"].
(** The lines of [/proc/net/route] and [/proc/net/dev], when they can be read *)
Definition route_row (line : string) : option string :=
  match Txt.words line with
  | n :: d :: _ :: _ => if String.eqb d "00000000" then Some n else None
  | _ => None
  end.
Definition _default_interface (route : option (list string)) : option string :=
  match route with Some lines => head (omap route_row (drop 1 lines)) | None => None end.
Definition dev_row (line : string) : option string :=
  let name := PyStr.strip (PyStr.split1 ":" line).1 in
  if PyStr.truthy name && negb (existsb (λ p, PyStr.startswith p name) _VIRTUAL_PREFIXES) then Some name else None.
Definition _interfaces (dev : option (list string)) : list string :=
  match dev with Some lines => omap dev_row (drop 2 lines) | None => [] end.
Definition _broadcast_address (ioctl : string → option string) (name : string) : option string :=
  match ioctl name with
  | Some addr => if PyStr.truthy addr && negb (String.eqb addr "0.0.0.0") then Some addr else None
  | None => None
  end.
Definition LIMITED : string := "255.255.255.255".
Definition add_target (ioctl : string → option string) (found : list string) (name : string) : list string :=
  match _broadcast_address ioctl name with
  | Some addr => if bool_decide (addr ∈ found) then found else found ++ [addr]
  | None => found
  end.
Definition discover_targets (all_interfaces : bool) (route dev : option (list string)) (ioctl : string → option string)
    : list string :=
  let names := _interfaces dev in
  let names := if all_interfaces then names
               else match _default_interface route with
                    | Some primary => if bool_decide (primary ∈ names) then [primary] else names
                    | None => names
                    end in
  let found := foldl (add_target ioctl) [] names in
  if bool_decide (LIMITED ∈ found) then found else found ++ [LIMITED].

(** A broadcaster keeps its targets and its socket *)
Record broadcaster := mkBroadcaster { b_targets : option (list string); b_socket : bool }.
(** [opened]: whether a socket could be opened; [sends]: to which targets a datagram
    leaves *)
Definition publish (enabled : bool) (discovered : list string) (opened : bool) (sends : string → bool) (b : broadcaster)
    : bool * list string * broadcaster :=
  if negb enabled then (false, [], b)
  else if negb (b_socket b) && negb opened then (false, [], b)
  else
    let targets := default discovered (b_targets b) in
    let sent := List.filter sends targets in
    (bool_decide (sent ≠ []), sent, mkBroadcaster (Some targets) true).

(** *** Both paths *)

(** What publishing did: a NOTIFY of the sample, and the datagrams *)
Inductive published := Notified | Datagrams (targets : list string).
(** The dsn of the metrics: their own variable when it is set, else the queue's *)
Definition metrics_env (metrics_db_url_env : option string) (db_url_env : string) : string :=
  match metrics_db_url_env with Some v => if PyStr.truthy v then v else db_url_env | None => db_url_env end.
Definition _uses_dedicated_metrics_dsn (metrics_db_url_env : option string) (db_url_env : string) : bool :=
  match metrics_db_url_env with Some v => PyStr.truthy v && negb (String.eqb v db_url_env) | None => false end.
(** [notify]: what the NOTIFY gave on the database it went to *)
Definition _broadcast (dedicated : bool) (dsn : option string) (notify : result ()) : result (list published) :=
  if dedicated && negb (match dsn with Some d => PyStr.truthy d | None => false end) then Ok []
  else _ ← notify; Ok [Notified].
Definition publish_sample (dedicated : bool) (dsn : option string) (notify : result ())
    (enabled : bool) (discovered : list string) (opened : bool) (sends : string → bool) (b : broadcaster)
    : result (list published) * broadcaster :=
  match _broadcast dedicated dsn notify with
  | Raise x => (Raise x, b)
  | Ok calls =>
      if enabled then let '(_, sent, b) := publish true discovered opened sends b in (Ok (calls ++ [Datagrams sent]), b)
      else (Ok calls, b)
  end.

(** *** The cadence of the sampler *)

Definition SAMPLE_INTERVAL : Z := 5 * sec.
(** The sampler beside the flight recorder: when it published, and which rows were due *)
Record sampler := mkSampler { sp_next : Z; sp_rec : recorder; sp_published : list Z; sp_due : list (Z * string) }.
Definition sampler_turn (interval now : Z) (s : sampler) : sampler :=
  let due := sp_next s <=? now in
  let '(tiers, r) := rec_tick now (sp_rec s) in
  mkSampler (if due then now + interval else sp_next s) r
    (if due then sp_published s ++ [now] else sp_published s) (sp_due s ++ map (pair now) tiers).
Definition sampler_run (interval : Z) (clock : list Z) (s : sampler) : sampler :=
  foldl (λ s now, sampler_turn interval now s) s clock.
Definition fresh_sampler (detail history : Z) : sampler := mkSampler 0 (fresh_recorder detail history) [] [].

(** *** One sampler per host *)

(** The lock file of the host: the descriptor that holds it; and what this process keeps *)
Record lock_state := mkLock { lk_holder : option Z; lk_next_fd : Z; lk_fd : option Z; lk_thread : bool }.
(** [opened]: whether the file opens; [starts]: whether the sampler starts *)
Definition start_hw_metrics_sampler_flocked (disabled opened starts : bool) (l : lock_state) : bool * lock_state :=
  if disabled then (false, l)
  else if is_not_null (lk_fd l) && lk_thread l then (true, l)
  else if negb opened then (false, l)
  else
    let fd := lk_next_fd l in
    match lk_holder l with
    | Some _ => (false, mkLock (lk_holder l) (fd + 1) (lk_fd l) (lk_thread l))
    | None => if starts then (true, mkLock (Some fd) (fd + 1) (Some fd) true)
              else (false, mkLock (Some fd) (fd + 1) (Some fd) (lk_thread l))
    end.

(** ** The feed of a panel ([hw_feed.py]) *)

Record feed := mkFeed { fd_history_n : nat; fd_stale_after : Z; fd_latest : list (string * (json * Z)); fd_hist : list (string * list (json * Z)) }.
Definition fresh_feed (stale_after : Z) (history : Z) : feed := mkFeed (Z.to_nat (Z.max 2 history)) stale_after [] [].
(** [deque(maxlen=n).append] *)
Definition push {A} (n : nat) (x : A) (buf : list A) : list A := let l := buf ++ [x] in drop (length l - n) l.

Section feed.
Context `{PyEnv} (json_loads : string → option json).
Definition sample_host (sample : json) : result string :=
  h ← py_get "host" sample; Ok (if truthy h then py_str h else "?").
Definition _store (now : Z) (payload : string) (f : feed) : result () * feed :=
  match json_loads payload with
  | None => (Ok (), f)
  | Some sample =>
      match sample_host sample with
      | Raise x => (Raise x, f)
      | Ok host =>
          (Ok (), mkFeed (fd_history_n f) (fd_stale_after f) (dict_set host (sample, now) (fd_latest f))
                    (dict_set host (push (fd_history_n f) (sample, now) (default [] (dict_get host (fd_hist f)))) (fd_hist f)))
      end
  end.
Definition is_stale (now : Z) (f : feed) (at_ : Z) : bool := fd_stale_after f <? now - at_.
Definition latest_by_host (now : Z) (f : feed) : list (string * (json * bool)) :=
  map (λ hr, (hr.1, (hr.2.1, is_stale now f hr.2.2))) (fd_latest f).
Definition history_by_host (now : Z) (f : feed) : list (string * list (json * bool)) :=
  map (λ hb, (hb.1, map (λ sa, (sa.1, is_stale now f sa.2)) hb.2)) (fd_hist f).
(** The notifications of a connection, until one of them breaks it *)
Fixpoint listen (notes : list (Z * string)) (f : feed) : bool * feed :=
  match notes with
  | [] => (true, f)
  | (now, payload) :: r => match _store now payload f with (Ok _, f) => listen r f | (Raise _, f) => (false, f) end
  end.
Definition _RECONNECT_MAX : Z := 30 * sec.
Definition next_backoff (backoff : Z) : Z := Z.min (backoff * 2) _RECONNECT_MAX.
End feed.

(** * Lemmas *)

(** ** The watchdog's reading *)

(** The reading of a process table is the busiest process in it, and none without one. *)
Lemma pmon_is_the_busiest raw :
  let rows := omap pmon_row (Txt.splitlines raw) in
  match _parse_pmon_sm_pct raw with
  | None => rows = []
  | Some v => v ∈ rows ∧ ∀ x, x ∈ rows → x ≤ v
  end.
Proof.
  cbv zeta. unfold _parse_pmon_sm_pct. generalize (Txt.splitlines raw) as lines. intros lines.
  assert (∀ l best, match foldl pmon_best best l with
    | None => best = None ∧ omap pmon_row l = []
    | Some v => (best = Some v ∨ v ∈ omap pmon_row l) ∧ (∀ b, best = Some b → b ≤ v) ∧ (∀ x, x ∈ omap pmon_row l → x ≤ v)
    end) as Hgen.
  { clear lines. induction l as [|line l IH]; intros best; [destruct best; [|done]; split_and!; [by left|by intros ? [= ->]|set_solver]|].
    cbn [foldl]. specialize (IH (pmon_best best line)).
    assert (pmon_best best line = match pmon_row line with
      | None => best | Some sm => Some (match best with None => sm | Some b => Z.max b sm end) end) as Es by done.
    rewrite Es in IH |- *. simpl. destruct (pmon_row line) as [sm|]; [|exact IH].
    destruct (foldl pmon_best _ l) as [v|]; [|by destruct IH as [? _]].
    destruct IH as (I1 & I2 & I3). specialize (I2 _ eq_refl). split_and!.
    - destruct I1 as [[= <-]|I1]; [|right; by right]. destruct best as [b|]; [|right; left].
      destruct (Z.max_spec b sm) as [[_ ->]|[_ ->]]; [right; left|by left].
    - intros b ->. lia.
    - intros x [-> |Hx]%elem_of_cons; [destruct best; lia|auto]. }
  specialize (Hgen lines None). destruct (foldl pmon_best None lines) as [v|]; [|tauto].
  destruct Hgen as ([?|?] & _ & ?); [done|]. done.
Qed.

(** ** Our share *)

Lemma clamp100_range q : (0 <= clamp100 q <= 100)%Q.
Proof.
  unfold clamp100. destruct (Qle_bool q 0) eqn:E1; [split; discriminate|].
  destruct (Qle_bool 100 q) eqn:E2; [split; discriminate|].
  split.
  - destruct (Qlt_le_dec q 0) as [Hl|Hl]; [|done]. apply Qlt_le_weak, Qle_bool_iff in Hl. congruence.
  - destruct (Qlt_le_dec 100 q) as [Hl|Hl]; [|done]. apply Qlt_le_weak, Qle_bool_iff in Hl. congruence.
Qed.

Lemma dict_get_filter_key {V} (p : string → bool) k (d : list (string * V)) :
  dict_get k (List.filter (λ kv, p kv.1) d) = if p k then dict_get k d else None.
Proof.
  induction d as [|[k' v] d IH]; simpl; [by destruct (p k)|].
  destruct (p k') eqn:E; simpl; rewrite IH; destruct (String.eqb_spec k k') as [-> |Hne]; try done; by rewrite E.
Qed.

Section shares.
Context (now : Z) (read : scope_read).
Abbreviation usage cid := (match (read cid).1 with Ok u => u | Raise _ => None end).
Abbreviation rss cid := (default 0 (read cid).2).
Implicit Types (t : tally) (ids : list string).

Lemma tally_one_last cid u r t k :
  dict_get k (t_last (tally_one now cid u r t)) =
  match u with Some v => if bool_decide (k = cid) then Some (now, v) else dict_get k (t_last t) | None => dict_get k (t_last t) end.
Proof.
  unfold tally_one. destruct u as [v|]; [|done].
  assert (dict_get k (dict_set cid (now, v) (t_last t)) = if bool_decide (k = cid) then Some (now, v) else dict_get k (t_last t)) as E.
  { case_bool_decide as Hk; [subst; apply dict_get_set_eq|by apply dict_get_set_ne]. }
  destruct (dict_get cid (t_last t)) as [[pt pu]|]; [|done]. by destruct (_ <? 0).
Qed.
Lemma tally_one_seen cid u r t : t_seen (tally_one now cid u r t) = t_seen t ++ (if u then [cid] else []).
Proof.
  unfold tally_one. destruct u as [v|]; [|by rewrite app_nil_r].
  destruct (dict_get cid (t_last t)) as [[pt pu]|]; [|done]. by destruct (_ <? 0).
Qed.
Lemma tally_one_ram cid u r t : t_ram (tally_one now cid u r t) = t_ram t + default 0 r.
Proof.
  unfold tally_one. destruct u as [v|]; [|done].
  destruct (dict_get cid (t_last t)) as [[pt pu]|]; [|done]. by destruct (_ <? 0).
Qed.
Lemma tally_one_baseline cid u r t :
  t_baseline (tally_one now cid u r t) = t_baseline t && (is_null u || is_not_null (dict_get cid (t_last t))).
Proof.
  unfold tally_one. destruct u as [v|]; [|by rewrite andb_true_r].
  destruct (dict_get cid (t_last t)) as [[pt pu]|]; simpl; rewrite ?andb_true_r, ?andb_false_r; [|done]. by destruct (_ <? 0).
Qed.

Lemma tally_all_spec ids : NoDup ids → ∀ t t',
  tally_all now read ids t = (Ok (), t') →
  t_ram t' = t_ram t + sum_of (λ cid, rss cid) ids ∧
  t_seen t' = t_seen t ++ List.filter (λ cid, is_not_null (usage cid)) ids ∧
  (∀ k, dict_get k (t_last t') =
     if bool_decide (k ∈ ids) then match usage k with Some v => Some (now, v) | None => dict_get k (t_last t) end
     else dict_get k (t_last t)) ∧
  t_baseline t' = t_baseline t && forallb (λ cid, is_null (usage cid) || is_not_null (dict_get cid (t_last t))) ids.
Proof.
  induction ids as [|cid ids IH]; intros Hn t t'; simpl.
  { intros [= <-]. rewrite app_nil_r, andb_true_r. split_and!; [lia|done..]. }
  apply NoDup_cons in Hn as [Hc Hn]. destruct (read cid).1 as [u|x] eqn:Eu; [|done]. intros E.
  destruct (IH Hn _ _ E) as (I1 & I2 & I3 & I4). rewrite tally_one_ram in I1. rewrite tally_one_seen in I2. split_and!.
  - rewrite I1. lia.
  - rewrite I2, <- app_assoc. f_equal. by destruct u.
  - intros k. rewrite I3, tally_one_last. destruct (base.decide (k = cid)) as [-> |Hne].
    + rewrite (bool_decide_false (cid ∈ ids)), (bool_decide_true (cid ∈ cid :: ids)), (bool_decide_true (cid = cid)) by set_solver.
      by rewrite Eu.
    + rewrite (bool_decide_false (k = cid)) by done.
      assert (bool_decide (k ∈ cid :: ids) = bool_decide (k ∈ ids)) as -> by (apply bool_decide_ext; set_solver).
      case_bool_decide; by destruct (usage k), u.
  - rewrite I4, tally_one_baseline, <- andb_assoc. f_equal. f_equal.
    apply eq_bool_prop_intro. rewrite !Is_true_true, !forallb_forall.
    assert (∀ k, List.In k ids → dict_get k (t_last (tally_one now cid u (read cid).2 t)) = dict_get k (t_last t)) as Hk.
    { intros k Hk%list_elem_of_In. rewrite tally_one_last. destruct u as [v|]; [|done]. by rewrite bool_decide_false by set_solver. }
    split; intros Hf k Hin; specialize (Hf k Hin); by rewrite Hk in * by done.
Qed.

(** With a reading of every container at one earlier instant the deltas add up. *)
Lemma tally_steady (t0 : Z) (u0 u1 : string → Z) ids : NoDup ids → ∀ t t',
  (∀ cid, cid ∈ ids → dict_get cid (t_last t) = Some (t0, u0 cid) ∧ (read cid).1 = Ok (Some (u1 cid)) ∧ u0 cid ≤ u1 cid) →
  tally_all now read ids t = (Ok (), t') → (t_oldest t = None ∨ t_oldest t = Some t0) →
  t_delta t' = t_delta t + sum_of (λ cid, u1 cid - u0 cid) ids ∧
  t_oldest t' = (match ids with [] => t_oldest t | _ => Some t0 end).
Proof.
  induction ids as [|cid ids IH]; intros Hn t t' Hall; simpl; [intros [= <-] _; split; [lia|done]|].
  apply NoDup_cons in Hn as [Hc Hn]. destruct (Hall cid ltac:(left)) as (Hl & Hr & Hle). rewrite Hr. intros E Ho.
  assert (tally_one now cid (Some (u1 cid)) (read cid).2 t =
    mkTally (dict_set cid (now, u1 cid) (t_last t)) (t_seen t ++ [cid]) (t_delta t + (u1 cid - u0 cid)) (t_ram t + rss cid)
      (t_baseline t) (Some t0)) as Eone.
  { unfold tally_one. rewrite Hl. destruct (Z.ltb_spec (u1 cid - u0 cid) 0); [lia|]. f_equal.
    destruct Ho as [-> | ->]; simpl; [done|]. by rewrite Z.ltb_irrefl. }
  rewrite Eone in E. apply (IH Hn) in E as [I1 I2]; [|intros k Hk; simpl|by right].
  2: { destruct (Hall k ltac:(by right)) as (? & ? & ?). rewrite dict_get_set_ne; [done|]. intros ->. done. }
  simpl in I1, I2. split; [lia|]. rewrite I2. by destruct ids.
Qed.
End shares.

(** The share of our containers is measured between two readings.  A sample remembers
    exactly the containers it could read, at their reading, so nothing of a container that
    went stays; the memory is the sum over our containers; the cpu share lies between 0 and
    100, and when every container was read at one earlier instant it is the cpu time they
    used since, over the time that passed on all cpus; a container seen for the first time
    leaves the share unknown. *)
Lemma attribution_measures_our_share a listed (now : Z) (read : scope_read) ids s a'
    (Hids : _our_container_ids a listed = Some ids) (Hnd : NoDup ids)
    (Hrun : sample_containers true listed now read a = (Ok (Some s), a')) :
  (∀ k, dict_get k (a_last a') =
     if bool_decide (k ∈ ids) then (match (read k).1 with Ok (Some u) => Some (now, u) | _ => None end) else None) ∧
  ram_used_mb s = sum_of (λ cid, default 0 (read cid).2) ids / MB ∧
  (∀ q, cpu_percent s = Some q → (0 <= q <= 100)%Q) ∧
  (∀ cid u, cid ∈ ids → (read cid).1 = Ok (Some u) → dict_get cid (a_last a) = None → cpu_percent s = None) ∧
  (∀ (t0 : Z) (u0 u1 : string → Z), t0 < now → ids ≠ [] →
     (∀ cid, cid ∈ ids → dict_get cid (a_last a) = Some (t0, u0 cid) ∧ (read cid).1 = Ok (Some (u1 cid)) ∧ u0 cid ≤ u1 cid) →
     cpu_percent s = Some (clamp100 (inject_Z (sum_of (λ cid, u1 cid - u0 cid) ids * 100) / inject_Z ((now - t0) * a_ncpu a)))).
Proof.
  revert Hrun. unfold sample_containers. destruct (PyStr.truthy (a_prefix a)); [|done]. simpl. rewrite Hids.
  destruct (tally_all _ _ _ _) as [[[]|x] t] eqn:E; [|done]. intros [= <- <-]. simpl.
  destruct (tally_all_spec now read ids Hnd _ _ E) as (Hram & Hseen & Hlast & Hbase). simpl in *. split_and!.
  - intros k. rewrite (dict_get_filter_key (is_seen (t_seen t))), Hseen, Hlast. unfold is_seen.
    assert (bool_decide (k ∈ List.filter (λ cid, is_not_null (match (read cid).1 with Ok u => u | Raise _ => None end)) ids) =
      bool_decide (k ∈ ids) && is_not_null (match (read k).1 with Ok u => u | Raise _ => None end)) as ->.
    { apply eq_bool_prop_intro. rewrite Is_true_true, Is_true_true, bool_decide_eq_true, elem_of_Lfilter, andb_true_iff, bool_decide_eq_true. done. }
    case_bool_decide; [|done]. by destruct (read k).1 as [[u|]|].
  - by rewrite Hram.
  - intros q. unfold cpu_share. destruct (t_oldest t); [|done]. destruct (_ || _); [done|]. intros [= <-]. apply clamp100_range.
  - intros cid u Hc Hr Hn. unfold cpu_share. destruct (t_oldest t); [|done].
    assert (t_baseline t = false) as ->; [|done]. rewrite Hbase. apply Bool.not_true_iff_false. rewrite forallb_forall.
    intros Hf. specialize (Hf cid (proj1 (list_elem_of_In _ _) Hc)). by rewrite Hr, Hn in Hf.
  - intros t0 u0 u1 Ht Hne Hall.
    destruct (tally_steady now read t0 u0 u1 ids Hnd (mkTally (a_last a) [] 0 0 true None) t Hall E (or_introl eq_refl)) as [Hd Ho]. simpl in *.
    unfold cpu_share. rewrite Ho. destruct ids as [|i ids]; [done|].
    assert (t_baseline t = true) as ->.
    { rewrite Hbase. apply forallb_forall. intros k Hk%list_elem_of_In. destruct (Hall k Hk) as (-> & _). apply orb_true_r. }
    destruct (Z.leb_spec (now - t0) 0); [lia|]. simpl. by rewrite Hd.
Qed.

(** ** Capacity *)

(** Without an override the capacity is that of the largest card, and a card too small to
    run a model is no capacity at all. *)
Lemma capacity_is_the_largest_card `{WorkerEnv} gpus :
  env_get "QUEUE_WORKFLOWS_GPU_VRAM_TOTAL_MB" None = Ok None →
  match total_vram_mb gpus with
  | Ok (Some v) => ∃ l g, gpus = Ok l ∧ g ∈ l ∧ v = vram_total_mb g ∧ MIN_PLAUSIBLE_VRAM_MB ≤ v ∧ ∀ g', g' ∈ l → vram_total_mb g' ≤ v
  | Ok None => ∀ l g, gpus = Ok l → g ∈ l → vram_total_mb g < MIN_PLAUSIBLE_VRAM_MB
  | Raise _ => False
  end.
Proof.
  intros He. unfold total_vram_mb. rewrite He. simpl. destruct gpus as [l|x]; [|done].
  assert (∀ (l : list Z), match max_of l with None => l = [] | Some m => m ∈ l ∧ ∀ y, y ∈ l → y ≤ m end) as Hmax.
  { clear. intros [|a r]; simpl; [done|]. revert a. induction r as [|b r IH]; intros a; simpl; [set_solver by lia|].
    specialize (IH a). destruct IH as [I1 I2]. destruct (Z.max_spec b (foldr Z.max a r)) as [[Hl ->]|[Hl ->]].
    - split; [set_solver|]. intros y [-> |[-> |Hy]%elem_of_cons]%elem_of_cons; [apply I2; left|lia|apply I2; by right].
    - split; [set_solver|]. intros y [-> |[-> |Hy]%elem_of_cons]%elem_of_cons; [pose proof (I2 a ltac:(left)); lia|lia|].
      pose proof (I2 y ltac:(by right)). lia. }
  specialize (Hmax (map vram_total_mb l)). destruct (max_of (map vram_total_mb l)) as [m|]; simpl.
  - destruct Hmax as [(g & -> & Hg)%list_elem_of_fmap Hle].
    destruct (Z.ltb_spec (vram_total_mb g) MIN_PLAUSIBLE_VRAM_MB).
    + intros l' g' [= <-] Hg'. pose proof (Hle (vram_total_mb g') (list_elem_of_fmap_2 _ _ _ Hg')). lia.
    + exists l, g. split_and!; [done..|]. intros g' Hg'. by apply Hle, list_elem_of_fmap_2.
  - destruct l; [|done]. intros l' g [= <-]. set_solver.
Qed.

(** ** The LAN *)

Lemma add_targets_spec ioctl : ∀ names found, NoDup found →
  let l := foldl (add_target ioctl) found names in
  NoDup l ∧ ∀ addr, addr ∈ l ↔ addr ∈ found ∨ ∃ n, n ∈ names ∧ _broadcast_address ioctl n = Some addr.
Proof.
  induction names as [|n names IH]; intros found Hn; [split; [done|]; set_solver|]. cbn [foldl].
  assert (NoDup (add_target ioctl found n) ∧
    ∀ addr, addr ∈ add_target ioctl found n ↔ addr ∈ found ∨ _broadcast_address ioctl n = Some addr) as [Hn' Hel].
  { unfold add_target. destruct (_broadcast_address ioctl n) as [a|]; [|split; [done|]; naive_solver].
    case_bool_decide; [split; [done|]; naive_solver|]. split; [|set_solver].
    apply NoDup_app. split_and!; [done|set_solver|apply NoDup_singleton]. }
  destruct (IH _ Hn') as [I1 I2]. split; [done|]. intros addr. rewrite I2, Hel. set_solver.
Qed.

(** A broadcast goes to the limited address and to the addresses of real interfaces, each
    once; to the one of the default route alone where that is a real interface. *)
Lemma targets_are_the_local_networks all route dev ioctl :
  let l := discover_targets all route dev ioctl in
  NoDup l ∧ LIMITED ∈ l ∧
  (∀ addr, addr ∈ l → addr ≠ LIMITED → ∃ n, n ∈ _interfaces dev ∧ _broadcast_address ioctl n = Some addr ∧
     (all = false → ∀ p, _default_interface route = Some p → p ∈ _interfaces dev → n = p)) ∧
  (∀ n addr, all = true → n ∈ _interfaces dev → _broadcast_address ioctl n = Some addr → addr ∈ l).
Proof.
  cbv zeta. unfold discover_targets. set (names := if all then _ else _).
  assert (∀ n, n ∈ names → n ∈ _interfaces dev ∧
    (all = false → ∀ p, _default_interface route = Some p → p ∈ _interfaces dev → n = p)) as Hnames.
  { intros n. unfold names. destruct all; [done|]. destruct (_default_interface route) as [p|]; [|done].
    case_bool_decide; [intros ->%list_elem_of_singleton|]; naive_solver. }
  destruct (add_targets_spec ioctl names [] (NoDup_nil_2)) as [Hn Hel]. set (found := foldl _ [] names) in *.
  assert (∀ n addr, all = true → n ∈ _interfaces dev → _broadcast_address ioctl n = Some addr → addr ∈ found) as Hall.
  { intros n addr -> Hd Ha. apply Hel. right. eauto. }
  assert (∀ addr, addr ∈ found → ∃ n, n ∈ _interfaces dev ∧ _broadcast_address ioctl n = Some addr ∧
     (all = false → ∀ p, _default_interface route = Some p → p ∈ _interfaces dev → n = p)) as Hfrom.
  { intros addr [?|(n & Hin & Ha)]%Hel; [set_solver|]. destruct (Hnames n Hin). eauto. }
  case_bool_decide as Hl; [split_and!; [done|done|intros addr Ha _; auto|done]|]. split_and!.
  - apply NoDup_app. split_and!; [done|set_solver|apply NoDup_singleton].
  - set_solver.
  - intros addr [Ha| ->%list_elem_of_singleton]%elem_of_app; [auto|done].
  - intros n addr Ht Hd Ha. apply elem_of_app. left. eauto.
Qed.

(** ** The cadence *)

(** Beside the recorder the sampler keeps its own interval: two publications are never
    closer, whatever the clock does, and one that is due is made. *)
Lemma broadcasts_keep_their_interval interval clock detail history :
  let s := sampler_run interval clock (fresh_sampler detail history) in
  (∀ i a b, sp_published s !! i = Some a → sp_published s !! S i = Some b → a + interval ≤ b) ∧
  (∀ now, sp_next s ≤ now → sp_published (sampler_turn interval now s) = sp_published s ++ [now]).
Proof.
  cbv zeta. set (s := sampler_run _ _ _).
  assert ((∀ i a b, sp_published s !! i = Some a → sp_published s !! S i = Some b → a + interval ≤ b) ∧
    (∀ a, last (sp_published s) = Some a → sp_next s = a + interval)) as [H1 H2].
  { unfold s, sampler_run. induction clock as [|now clock IH] using rev_ind; [done|]. rewrite foldl_app. cbn [foldl].
    destruct (foldl _ _ clock) as [nx r pub due]. cbn [sp_published sp_next] in IH. destruct IH as [I1 I2]. unfold sampler_turn. simpl.
    destruct (Z.leb_spec nx now) as [Hdue|Hdue]; [|done]. split.
    - intros i a b Ha Hb. destruct (base.decide (S i < length pub)%nat) as [Hlt|Hge].
      + rewrite lookup_app_l in Ha by lia. rewrite lookup_app_l in Hb by lia. eauto.
      + assert (S i = length pub) as Hi.
        { apply lookup_lt_Some in Hb. rewrite length_app in Hb. simpl in Hb. lia. }
        rewrite lookup_app_l in Ha by lia. rewrite Hi, lookup_app_r, Nat.sub_diag in Hb by lia. injection Hb as <-.
        rewrite (I2 a) in Hdue; [lia|]. rewrite last_lookup, <- Hi. done.
    - intros a. rewrite last_snoc. by intros [= <-]. }
  split; [done|]. intros now Hnow. unfold sampler_turn. destruct (rec_tick _ _) as [tiers r]. simpl.
  by rewrite (proj2 (Z.leb_le _ _) Hnow).
Qed.

(** ** The feed *)

Section feed_lemmas.
Context `{PyEnv} (json_loads : string → option json).

(** The samples of a host among the notifications *)
Definition samples_of (host : string) (notes : list (Z * string)) : list (json * Z) :=
  omap (λ np, match json_loads np.2 with
              | Some s => match sample_host s with Ok h => if String.eqb h host then Some (s, np.1) else None | Raise _ => None end
              | None => None
              end) notes.
Definition last_n {A} (n : nat) (l : list A) : list A := drop (length l - n) l.
Lemma push_last_n {A} n (l : list A) x : (1 ≤ n)%nat → push n x (last_n n l) = last_n n (l ++ [x]).
Proof.
  intros Hn. unfold push, last_n. cbv zeta. rewrite !length_app, length_drop. simpl.
  destruct (base.decide (length l < n)%nat) as [Hlt|Hge].
  - replace (length l - n)%nat with O by lia. rewrite drop_0. f_equal. lia.
  - rewrite !drop_app_le by (rewrite ?length_drop; lia). rewrite drop_drop. f_equal. f_equal. lia.
Qed.
Lemma samples_of_snoc host notes np :
  samples_of host (notes ++ [np]) = samples_of host notes ++ samples_of host [np].
Proof. unfold samples_of. by rewrite omap_app. Qed.

(** The feed shows, of each host, its last samples: the history is the last of them the
    feed has room for, and the latest is the last one. *)
Lemma feed_shows_the_last_samples stale history notes f :
  listen json_loads notes (fresh_feed stale history) = (true, f) →
  ∀ host,
    default [] (dict_get host (fd_hist f)) = last_n (Z.to_nat (Z.max 2 history)) (samples_of host notes) ∧
    dict_get host (fd_latest f) = last (samples_of host notes).
Proof.
  assert (1 ≤ Z.to_nat (Z.max 2 history))%nat as Hn by lia. remember (Z.to_nat (Z.max 2 history)) as n eqn:En.
  assert (∀ notes f0 f done_, listen json_loads notes f0 = (true, f) → fd_history_n f0 = n →
    (∀ host, default [] (dict_get host (fd_hist f0)) = last_n n (samples_of host done_) ∧
             dict_get host (fd_latest f0) = last (samples_of host done_)) →
    ∀ host, default [] (dict_get host (fd_hist f)) = last_n n (samples_of host (done_ ++ notes)) ∧
            dict_get host (fd_latest f) = last (samples_of host (done_ ++ notes))) as Hgen.
  { clear notes f. induction notes as [|[now payload] notes IH]; intros f0 f done_; simpl.
    { intros [= <-] _ Hd. by rewrite app_nil_r. }
    destruct (_store json_loads now payload f0) as [[[]|x] f1] eqn:E; [|done]. intros Hl Hsz Hd.
    replace (done_ ++ (now, payload) :: notes) with ((done_ ++ [(now, payload)]) ++ notes) by (by rewrite <- app_assoc).
    apply (IH f1 f); [done| |].
    - unfold _store in E. destruct (json_loads payload) as [s|]; [|by simplify_eq]. destruct (sample_host s); by simplify_eq.
    - intros host. specialize (Hd host) as Hh. destruct Hh as [Hh1 Hh2]. rewrite samples_of_snoc.
      assert (samples_of host [(now, payload)] = match json_loads payload with
        | Some s => match sample_host s with Ok h => if String.eqb h host then [(s, now)] else [] | Raise _ => [] end
        | None => [] end) as ->.
      { unfold samples_of. simpl. destruct (json_loads payload) as [s|]; [|done]. destruct (sample_host s) as [h|]; [|done].
        by destruct (String.eqb h host). }
      unfold _store in E. destruct (json_loads payload) as [s|]; [|simplify_eq; by rewrite app_nil_r].
      destruct (sample_host s) as [h|x]; [|done]. simplify_eq. simpl.
      destruct (String.eqb_spec h host) as [-> |Hne].
      + rewrite !dict_get_set_eq, last_snoc. simpl. split; [|done]. rewrite Hh1, Hsz, push_last_n; [done|lia].
      + rewrite !dict_get_set_ne by done. by rewrite app_nil_r. }
  intros Hl host. apply (Hgen notes (fresh_feed stale history) f [] Hl); [by simpl|done].
Qed.
End feed_lemmas.

(** * Where the telemetry and its documentation part *)

(** The LAN path is documented to need no database; a sample whose NOTIFY fails is not
    broadcast at all. *)
Lemma lan_needs_the_database dedicated x discovered opened sends b dsn :
  dedicated = false → publish_sample dedicated dsn (Raise x) true discovered opened sends b = (Raise x, b).
Proof. by intros ->. Qed.

(** A sampler that failed to start is locked out by the descriptor it left open: no later
    call of the process, or of another, starts one. *)
Lemma failed_start_locks_itself_out opened starts fd :
  let l := (start_hw_metrics_sampler_flocked false true false (mkLock None fd None false)).2 in
  (start_hw_metrics_sampler_flocked false opened starts l).1 = false.
Proof. by destruct opened. Qed.

Module TelemetryDemo.
Definition env (v : string) : WorkerEnv :=
  {| os_environ := [("QUEUE_WORKFLOWS_GPU_VRAM_TOTAL_MB", v)]; config_cpu_worker_threads := JNull; config_gpu_box_max_concurrent := JNull |}.
Definition attr : attribution := mkAttr "app-" 4 [("c1", (0, 1000)); ("gone", (0, 5))].
Definition listed : option (list (string * string)) := Some [("c1", "app-worker"); ("c9", "other")].
Definition reads : scope_read := λ cid, if String.eqb cid "c1" then (Ok (Some 2001000), Some (3 * MB)) else (Ok None, None).
End TelemetryDemo.
Import TelemetryDemo.

(** The operator's capacity is documented never to raise; an infinite one does. *)
Lemma infinite_capacity_raises : @total_vram_mb (env "inf") (Ok []) = Raise OverflowError.
Proof. by vm_compute. Qed.
(** A new container hides the share of the others for a sample. *)
Lemma new_container_hides_the_share :
  let read : scope_read := λ cid, (Ok (Some 2000000), None) in
  option_map cpu_percent (match (sample_containers true (Some [("c1", "app-a"); ("c2", "app-b")]) (1 * sec) read attr).1 with Ok s => s | Raise _ => None end)
    = Some None.
Proof. by vm_compute. Qed.

Lemma attribution_measures_our_share_witness :
  ∃ s a', sample_containers true listed (1 * sec) reads attr = (Ok (Some s), a') ∧
    a_last a' = [("c1", (1 * sec, 2001000))] ∧ cpu_percent s = Some (clamp100 (inject_Z (2000000 * 100) / inject_Z (1 * sec * 4))).
Proof.
  destruct (sample_containers true listed (1 * sec) reads attr) as [[[s|]|x] a'] eqn:E; [|vm_compute in E; discriminate E..].
  exists s, a'. split; [reflexivity|]. split; [vm_compute in E; by injection E as _ <-|].
  destruct (attribution_measures_our_share attr listed (1 * sec) reads ["c1"] s a' ltac:(reflexivity)
    ltac:(apply NoDup_singleton) E) as (_ & _ & _ & _ & Hcpu).
  refine (Hcpu 0 (λ _, 1000) (λ _, 2001000) _ _ _); [done|done|].
  intros cid ->%list_elem_of_singleton. split; [reflexivity|]. split; [reflexivity|lia].
Defined.
