(* ===== verification/Snapshots.v ===== *)
(** * What an operator sees ([queue_workflows/node_queue.py])

    The read models of the queue: counts and rows per lane, the depth of the ingest queues,
    the fleet, the recent jobs of both families, the timeline of a job and the error log,
    for one tenant or for all.  A read takes the tables and changes nothing; text is ordered
    by its bytes (collation C), and rows that tie keep the order of the table. *)

From S2P Require Import Prelude Json Refs Schema NodeQueue Claim Reclaim Watchdogs.
Local Open Scope Z_scope.

(** ** Statements *)

(** [WHERE project = ..], unless all tenants are asked for *)
Definition of_tenant (project : option string) (p : string) : bool :=
  match project with None => true | Some q => String.eqb p q end.
(** [LIMIT n]: a negative one is refused *)
Definition limited {A} (limit : Z) (l : list A) : result (list A) :=
  if limit <? 0 then Raise (OtherError "InvalidRowCountInLimitClause") else Ok (take (Z.to_nat limit) l).
(** [SELECT k, COUNT( * ) .. GROUP BY k] *)
Definition group_count {A} `{EqDecision K} (key : A → K) (l : list A) : list (K * Z) :=
  map (λ k, (k, Z.of_nat (length (List.filter (λ a, bool_decide (key a = k)) l)))) (remove_dups (map key l)).
(** The count of a key, 0 when it has no group *)
Definition count_at `{EqDecision K} (k : K) (g : list (K * Z)) : Z :=
  match List.find (λ kn, bool_decide (kn.1 = k)) g with Some kn => kn.2 | None => 0 end.

Section reads.
Implicit Types (w : world).

Definition list_projects w : list string :=
  sort_by PyStr.key (remove_dups (map rproject (runs w) ++ map (λ j, project (spec j)) (node_jobs w) ++
    map iproject (ingest_jobs w) ++ map hproject (heartbeats w))).

(** ** The lanes *)

Definition tenant_jobs (proj : option string) w : list node_job :=
  List.filter (λ j, of_tenant proj (project (spec j))) (node_jobs w).
Definition in_section (q : string) (s : node_status) (j : node_job) : bool :=
  String.eqb (queue (spec j)) q && bool_decide (status (st j) = s).
Definition _top (proj : option string) (q : string) (s : node_status) (limit : nat) w : list node_job :=
  take limit (sort_by (λ j, [created_at (spec j)]) (List.filter (in_section q s) (tenant_jobs proj w))).

Record lane_view := mkLaneView { lv_running : list node_job; lv_queued : list node_job }.
Record snapshot_view := mkSnapshot { sv_cpu : lane_view; sv_gpu : lane_view; sv_download : lane_view; sv_counts : list (string * Z) }.
Definition lane (proj : option string) (q : string) w : lane_view :=
  mkLaneView (_top proj q Running 50 w) (_top proj q Queued 50 w).
Definition lane_counts (proj : option string) w : list ((string * node_status) * Z) :=
  group_count (λ j, (queue (spec j), status (st j))) (tenant_jobs proj w).
Definition snapshot (proj : option string) w : snapshot_view :=
  mkSnapshot (lane proj "cpu" w) (lane proj "gpu" w) (lane proj "download" w)
    (foldl (λ d qs, dict_set (qs.1.1 +:+ "_" +:+ status_text qs.1.2) qs.2 d) [] (lane_counts proj w)).

(** ** The ingest queues *)

Definition fresh (w : world) (secs : Z) (h : heartbeat) : bool := clock w - seconds_us secs <? last_seen h.
Record queue_view := mkQueueView { qv_queued : Z; qv_running : Z; qv_completed : Z; qv_failed : Z; qv_workers : Z }.
Definition ingest_counts (proj : option string) w : list ((string * node_status) * Z) :=
  group_count (λ i, (iqueue i, istatus i)) (List.filter (λ i, of_tenant proj (iproject i)) (ingest_jobs w)).
Definition live_workers (proj : option string) w : list (string * Z) :=
  group_count hqueue (List.filter (λ h, fresh w 30 h && of_tenant proj (hproject h)) (heartbeats w)).
Definition queue_of (proj : option string) w (q : string) : queue_view :=
  let c := ingest_counts proj w in
  mkQueueView (count_at (q, Queued) c) (count_at (q, Running) c) (count_at (q, Completed) c) (count_at (q, Failed) c)
    (count_at q (live_workers proj w)).
Definition ingest_snapshot (proj : option string) w : list (string * queue_view) :=
  map (λ q, (q, queue_of proj w q))
    (remove_dups (map (fst ∘ fst) (ingest_counts proj w) ++ map fst (live_workers proj w))).

(** ** The fleet *)

Record fleet_row := mkFleetRow { fr_row : heartbeat; fr_fresh : bool; fr_flagged_dead : bool }.
Definition fleet_snapshot (stale_after_s : Z) (proj : option string) w : list fleet_row :=
  map (λ h, mkFleetRow h (fresh w stale_after_s h) (is_not_null (last_flagged_dead_at h)))
    (sort_by (λ h, PyStr.key (hqueue h) ++ [-1] ++ PyStr.key (hhost_label h))
       (List.filter (λ h, of_tenant proj (hproject h)) (heartbeats w))).

(** ** Recent jobs *)

Record recent := mkRecent {
  rc_id : string; rc_kind : string; rc_name : string; rc_queue : string; rc_status : node_status; rc_project : string;
  rc_worker : option string; rc_created : Z; rc_started : option Z; rc_finished : option Z; rc_seconds : option Z;
  rc_retries : Z; rc_error : option string }.
(** [COALESCE(finished_at, started_at, created_at)] *)
Definition recency (r : recent) : Z :=
  match rc_finished r, rc_started r with Some t, _ => t | None, Some t => t | None, None => rc_created r end.
Definition recent_node (j : node_job) : recent :=
  mkRecent (jid (spec j)) "node" (node_id (spec j)) (queue (spec j)) (status (st j)) (project (spec j)) (claimed_by (st j))
    (created_at (spec j)) (started_at (st j)) (finished_at (st j)) (seconds (st j)) (watchdog_retries (st j)) (error (st j)).
Definition recent_ingest (i : ingest_job) : recent :=
  mkRecent (iid i) "ingest" (task_name i) (iqueue i) (istatus i) (iproject i) (iclaimed_by i) (icreated_at i)
    (istarted_at i) (ifinished_at i) (iseconds i) 0 (ierror i).
Definition is_wanted (proj : option string) (s : option node_status) (r : recent) : bool :=
  of_tenant proj (rc_project r) && match s with None => true | Some x => bool_decide (rc_status r = x) end.
Definition recent_rows (proj : option string) (s : option node_status) (min_retries : Z) w : list recent :=
  List.filter (λ r, is_wanted proj s r && ((min_retries <=? 0) || (min_retries <=? rc_retries r))) (map recent_node (node_jobs w)) ++
  List.filter (λ r, is_wanted proj s r && (min_retries <=? 0)) (map recent_ingest (ingest_jobs w)).
Definition recent_jobs (proj : option string) (s : option node_status) (min_retries limit : Z) w : result (list recent) :=
  limited limit (sort_by (λ r, [- recency r]) (recent_rows proj s min_retries w)).

(** ** The event log *)

(** The ids of the log grow, so the order of the table breaks ties. *)
Definition list_node_events (job_id : string) (limit : Z) w : result (list node_event) :=
  limited limit (sort_by (λ e, [ncreated_at e])
    (List.filter (λ e, bool_decide (njob_id e = Some job_id)) (node_events w))).

Definition ERROR_EVENT_KINDS : list string := ["failed"; "error"].
Definition is_error (kinds : list string) (proj host : option string) (e : node_event) : bool :=
  bool_decide (event_type e ∈ (match kinds with [] => ERROR_EVENT_KINDS | _ => kinds end)) &&
  of_tenant proj (nproject e) &&
  match host with None => true | Some h => bool_decide (nhost_label e = Some h) end.
Definition error_snapshot (proj : option string) (limit : Z) (kinds : list string) (host : option string) w : result (list node_event) :=
  limited limit (List.rev (sort_by (λ e, [ncreated_at e]) (List.filter (is_error kinds proj host) (node_events w)))).
End reads.

(** * Lemmas *)

Lemma count_group {A} `{EqDecision K} (key : A → K) (l : list A) k :
  count_at k (group_count key l) = Z.of_nat (length (List.filter (λ a, bool_decide (key a = k)) l)).
Proof.
  unfold count_at, group_count.
  assert (∀ ks, List.find (λ kn : K * Z, bool_decide (kn.1 = k))
      (map (λ k, (k, Z.of_nat (length (List.filter (λ a, bool_decide (key a = k)) l)))) ks) =
    if bool_decide (k ∈ ks) then Some (k, Z.of_nat (length (List.filter (λ a, bool_decide (key a = k)) l))) else None) as Hf.
  { induction ks as [|k' ks IH]; [done|]. cbn [map List.find fst]. destruct (base.decide (k' = k)) as [E|E].
    - subst k'. by rewrite bool_decide_true, (bool_decide_true (k ∈ _)) by (done || left).
    - rewrite (bool_decide_false (k' = k)), IH by done. repeat case_bool_decide; set_solver. }
  rewrite Hf. case_bool_decide as Hk; [done|]. rewrite Lfilter_none; [done|].
  intros a Ha. apply bool_decide_eq_false. intros <-. apply Hk, elem_of_remove_dups, list_elem_of_fmap_2, Ha.
Qed.

(** A count is the sum of the counts of its parts. *)
Lemma count_by_tenant {A} (tenant : A → string) (p : A → bool) (l : list A) (ps : list string) :
  NoDup ps → (∀ a, a ∈ l → tenant a ∈ ps) →
  Z.of_nat (length (List.filter p l)) =
  sum_of (λ t, Z.of_nat (length (List.filter p (List.filter (λ a, of_tenant (Some t) (tenant a)) l)))) ps.
Proof.
  intros Hn. induction l as [|a l IH]; intros Hall.
  { clear Hn Hall. induction ps as [|x ps IHp]; [done|]. unfold sum_of in *. simpl in *. lia. }
  assert (sum_of (λ t, Z.of_nat (length (List.filter p (List.filter (λ a, of_tenant (Some t) (tenant a)) (a :: l))))) ps =
    sum_of (λ t, Z.of_nat (length (List.filter p (List.filter (λ a, of_tenant (Some t) (tenant a)) l)))) ps +
    sum_of (λ t, if String.eqb (tenant a) t && p a then 1 else 0) ps) as ->.
  { clear Hn Hall IH. induction ps as [|t ps IHp]; [done|]. unfold sum_of in *. simpl in *. rewrite IHp.
    destruct (String.eqb (tenant a) t); simpl; [|lia]. destruct (p a); cbn [length]; lia. }
  assert (sum_of (λ t, if String.eqb (tenant a) t && p a then 1 else 0) ps = if p a then 1 else 0) as ->.
  { assert (tenant a ∈ ps) as Hin by (apply Hall; left). clear Hall IH. destruct (p a) eqn:Ep; cycle 1.
    { clear Hn Hin. induction ps as [|t ps IHp]; [done|]. unfold sum_of in *. simpl. rewrite andb_false_r. done. }
    induction ps as [|t ps IHp]; [set_solver|]. apply NoDup_cons in Hn as [Ht Hn].
    unfold sum_of in *. simpl. rewrite andb_true_r. destruct (String.eqb_spec (tenant a) t) as [<- |Hne].
    - assert (foldr (λ r z, (if String.eqb (tenant a) r && true then 1 else 0) + z) 0 ps = 0) as ->; [|done].
      clear IHp Hin Hn. induction ps as [|x ps IHp]; [done|]. simpl. rewrite IHp by set_solver.
      rewrite andb_true_r. destruct (String.eqb_spec (tenant a) x); [set_solver|done].
    - rewrite IHp; [done|done|]. set_solver. }
  rewrite <- IH by (intros; apply Hall; by right). simpl. destruct (p a); cbn [length]; lia.
Qed.

(** What is left out of an ordered and limited read comes after everything in it. *)
Lemma take_sorted {A} (key : A → list Z) n l x :
  x ∈ l → x ∉ take n (sort_by key l) →
  length (take n (sort_by key l)) = n ∧ ∀ c, c ∈ take n (sort_by key l) → key_le (key c) (key x) = true.
Proof.
  intros Hx Hn. rewrite <- (sort_by_perm key l) in Hx. rewrite <- (take_drop n (sort_by key l)) in Hx.
  apply elem_of_app in Hx as [Hx|Hx]; [done|]. split.
  - rewrite length_take. destruct (base.decide (n ≤ length (sort_by key l))%nat); [lia|].
    rewrite drop_ge in Hx by lia. set_solver.
  - intros c Hc. apply (sorted_split _ _ n c x (sort_by_sorted key l) Hc Hx).
Qed.
Lemma take_sorted_elem {A} (key : A → list Z) n l x : x ∈ take n (sort_by key l) → x ∈ l.
Proof. intros Hx. apply elem_of_take in Hx as (i & Hi & _). apply list_elem_of_lookup_2 in Hi. by rewrite sort_by_perm in Hi. Qed.

Section projects.
Implicit Types (w : world).
Lemma projects_nodup w : NoDup (list_projects w).
Proof. unfold list_projects. rewrite sort_by_perm. apply NoDup_remove_dups. Qed.
Lemma elem_of_projects w p :
  p ∈ list_projects w ↔ p ∈ map rproject (runs w) ∨ p ∈ map (λ j, project (spec j)) (node_jobs w) ∨
    p ∈ map iproject (ingest_jobs w) ∨ p ∈ map hproject (heartbeats w).
Proof. unfold list_projects. rewrite sort_by_perm, elem_of_remove_dups, !elem_of_app. done. Qed.
Lemma all_tenants {A} (f : A → string) (l : list A) : List.filter (λ a, of_tenant None (f a)) l = l.
Proof. by apply Lfilter_all. Qed.
End projects.

(** The tenants' views partition the fleet's.  Every row of the queues belongs to a tenant
    of the list, no tenant is listed twice, and each count an operator sees of all tenants,
    of a lane, an ingest queue or its workers, is the sum of the counts of the tenants. *)
Lemma tenant_views_partition_the_fleet (w : world) :
  NoDup (list_projects w) ∧
  (∀ q s, count_at (q, s) (lane_counts None w) =
          sum_of (λ p, count_at (q, s) (lane_counts (Some p) w)) (list_projects w)) ∧
  (∀ q s, count_at (q, s) (ingest_counts None w) =
          sum_of (λ p, count_at (q, s) (ingest_counts (Some p) w)) (list_projects w)) ∧
  (∀ q, count_at q (live_workers None w) = sum_of (λ p, count_at q (live_workers (Some p) w)) (list_projects w)).
Proof.
  assert (∀ (f g : string → Z) ps, (∀ p, f p = g p) → sum_of f ps = sum_of g ps) as Hext
    by (intros f g ps E; induction ps as [|x ps IH]; [done|]; unfold sum_of in *; simpl; by rewrite E, IH).
  split; [apply projects_nodup|]. split_and!.
  - intros q s. unfold lane_counts, tenant_jobs. rewrite count_group, (all_tenants (λ j, project (spec j))).
    rewrite (count_by_tenant (λ j, project (spec j)) _ _ (list_projects w) (projects_nodup w)).
    + apply Hext. intros p. by rewrite count_group.
    + intros j Hj. apply elem_of_projects. right. left. apply list_elem_of_fmap. eauto.
  - intros q s. unfold ingest_counts. rewrite count_group, (all_tenants iproject).
    rewrite (count_by_tenant iproject _ _ (list_projects w) (projects_nodup w)).
    + apply Hext. intros p. by rewrite count_group.
    + intros j Hj. apply elem_of_projects. right. right. left. by apply list_elem_of_fmap_2.
  - intros q. unfold live_workers. rewrite count_group.
    assert (∀ proj, List.filter (λ h, fresh w 30 h && of_tenant proj (hproject h)) (heartbeats w) =
      List.filter (λ h, of_tenant proj (hproject h)) (List.filter (fresh w 30) (heartbeats w))) as Hf.
    { intros proj. generalize (heartbeats w). intros l. induction l as [|h l IH]; [done|]. cbn [List.filter].
      rewrite IH. destruct (fresh w 30 h); [|done]. done. }
    rewrite Hf, (all_tenants hproject).
    rewrite (count_by_tenant hproject _ _ (list_projects w) (projects_nodup w)).
    + apply Hext. intros p. by rewrite count_group, Hf.
    + intros h [Hh _]%elem_of_Lfilter. apply elem_of_projects. right. right. right. by apply list_elem_of_fmap_2.
Qed.

(** ** Rows *)

(** A section shows the oldest rows of its lane and status, at most as many as asked. *)
Lemma section_shows_the_oldest proj q s n (w : world) :
  (length (_top proj q s n w) ≤ n)%nat ∧
  (∀ j, j ∈ _top proj q s n w → j ∈ node_jobs w ∧ of_tenant proj (project (spec j)) = true ∧ queue (spec j) = q ∧ status (st j) = s) ∧
  (∀ j, j ∈ node_jobs w → of_tenant proj (project (spec j)) = true → queue (spec j) = q → status (st j) = s → j ∉ _top proj q s n w →
     length (_top proj q s n w) = n ∧ ∀ c, c ∈ _top proj q s n w → created_at (spec c) ≤ created_at (spec j)).
Proof.
  unfold _top. split_and!.
  - rewrite length_take. lia.
  - intros j [Hj [Hq%String.eqb_eq Hs%bool_decide_eq_true]%andb_true_iff]%take_sorted_elem%elem_of_Lfilter.
    apply elem_of_Lfilter in Hj as [Hj Ht]. done.
  - intros j Hj Ht <- <- Hn. apply take_sorted in Hn as [Hl Hle].
    + split; [done|]. intros c Hc. by apply Hle, key_le_head in Hc.
    + apply elem_of_Lfilter. split; [by apply elem_of_Lfilter|]. unfold in_section. by rewrite String.eqb_refl, bool_decide_true.
Qed.

(** The counts under the names of the panel: with the three lanes of the schema no two groups
    share a name, and each name carries the count of its group. *)
Definition count_name (k : string * node_status) : string := k.1 +:+ "_" +:+ status_text k.2.
Definition LANES : list string := ["cpu"; "gpu"; "download"].
Lemma count_name_inj k k' : k.1 ∈ LANES → k'.1 ∈ LANES → count_name k = count_name k' → k = k'.
Proof.
  destruct k as [q s], k' as [q' s']. unfold LANES. simpl. intros Hq Hq'.
  repeat (apply elem_of_cons in Hq as [-> |Hq]; [|try by apply not_elem_of_nil in Hq]);
    repeat (apply elem_of_cons in Hq' as [-> |Hq']; [|try by apply not_elem_of_nil in Hq']); destruct s, s'; done.
Qed.
Lemma counts_dict (g : list ((string * node_status) * Z)) k :
  NoDup (map fst g) → (∀ x, x ∈ map fst g → x.1 ∈ LANES) → k.1 ∈ LANES → ∀ d,
  dict_get (count_name k) (foldl (λ d qs, dict_set (qs.1.1 +:+ "_" +:+ status_text qs.1.2) qs.2 d) d g) =
  match List.find (λ kn, bool_decide (kn.1 = k)) g with Some kn => Some kn.2 | None => dict_get (count_name k) d end.
Proof.
  intros Hn Hl Hk. induction g as [|[x n] g IH]; intros d; [done|]. simpl in Hn. apply NoDup_cons in Hn as [Hx Hn].
  cbn [foldl List.find fst snd]. rewrite IH by (done || intros y Hy; apply Hl; by right).
  destruct (base.decide (x = k)) as [-> |Hne].
  - rewrite (bool_decide_true (k = k)) by done.
    destruct (List.find (λ kn, bool_decide (kn.1 = k)) g) as [[k' m]|] eqn:E.
    + apply find_some in E as [Hin E%bool_decide_eq_true]. simpl in E. subst. destruct Hx.
      apply list_elem_of_In in Hin. by apply (list_elem_of_fmap_2 fst) in Hin.
    + apply (dict_get_set_eq (count_name k)).
  - rewrite (bool_decide_false (x = k)) by done. destruct (List.find _ g); [done|].
    apply (dict_get_set_ne (count_name x)). intros E. apply Hne, count_name_inj; [apply Hl; left|done|done].
Qed.
Lemma snapshot_counts_by_name proj (w : world) q s :
  (∀ j, j ∈ node_jobs w → queue (spec j) ∈ LANES) → q ∈ LANES →
  default 0 (dict_get (q +:+ "_" +:+ status_text s) (sv_counts (snapshot proj w))) =
  Z.of_nat (length (List.filter (λ j, bool_decide ((queue (spec j), status (st j)) = (q, s))) (tenant_jobs proj w))).
Proof.
  intros Hw Hq. rewrite <- (count_group (λ j, (queue (spec j), status (st j)))). unfold snapshot. cbn [sv_counts].
  fold (lane_counts proj w).
  assert (map fst (lane_counts proj w) = remove_dups (map (λ j, (queue (spec j), status (st j))) (tenant_jobs proj w))) as Hk.
  { unfold lane_counts, group_count. rewrite map_map. simpl. by rewrite map_id. }
  change (q +:+ "_" +:+ status_text s) with (count_name (q, s)). rewrite counts_dict.
  - unfold count_at. by destruct (List.find _ (lane_counts proj w)).
  - rewrite Hk. apply NoDup_remove_dups.
  - rewrite Hk. intros x Hx. apply elem_of_remove_dups, list_elem_of_fmap in Hx as (j & -> & [Hj _]%elem_of_Lfilter). by apply Hw.
  - done.
Qed.

(** The activity feed is the newest of both families.  It shows at most as many jobs as
    asked, newest first, each of them a wanted row of the queue or of the ingest table, and
    no wanted row that is left out is newer than one that is shown; a feed of retries shows
    no ingest job. *)
Lemma recent_jobs_are_the_newest (w : world) proj s min_retries limit (Hlimit : 0 ≤ limit) :
  ∃ l, recent_jobs proj s min_retries limit w = Ok l ∧ Z.of_nat (length l) ≤ limit ∧
    StronglySorted (λ a b, recency b ≤ recency a) l ∧
    (∀ r, r ∈ l → r ∈ recent_rows proj s min_retries w) ∧
    (∀ r, r ∈ recent_rows proj s min_retries w → r ∉ l → Z.of_nat (length l) = limit ∧ ∀ c, c ∈ l → recency r ≤ recency c) ∧
    (0 < min_retries → ∀ r, r ∈ l → ∃ j, j ∈ node_jobs w ∧ r = recent_node j ∧ min_retries ≤ watchdog_retries (st j)).
Proof.
  unfold recent_jobs, limited. destruct (Z.ltb_spec limit 0); [lia|]. eexists. split; [done|].
  set (rows := recent_rows proj s min_retries w). set (l := take _ _). split_and!.
  - unfold l. rewrite length_take. lia.
  - pose proof (sort_by_sorted (λ r, [- recency r]) rows) as Hs. rewrite <- (take_drop (Z.to_nat limit)) in Hs.
    apply StronglySorted_app in Hs as (_ & Hs & _). fold l in Hs.
    eapply StronglySorted_ind with (P := λ l, StronglySorted (λ a b, recency b ≤ recency a) l); [constructor| |exact Hs].
    intros a l' _ IH Hf. constructor; [done|]. eapply Forall_impl; [exact Hf|]. intros b Hb%key_le_head. simpl in Hb. lia.
  - intros r. apply take_sorted_elem.
  - intros r Hr Hn. destruct (take_sorted _ _ _ _ Hr Hn) as [Hl Hle]. fold l in Hl, Hle. split; [lia|].
    intros c Hc. apply Hle, key_le_head in Hc. lia.
  - intros Hm r Hr%take_sorted_elem. unfold rows, recent_rows in Hr.
    apply elem_of_app in Hr as [[Hr Hp]%elem_of_Lfilter|[_ Hp]%elem_of_Lfilter].
    + apply list_elem_of_fmap in Hr as (j & -> & Hj). exists j. split_and!; [done|done|].
      apply andb_true_iff in Hp as [_ Hp]. apply orb_true_iff in Hp as [Hp|Hp]; apply Z.leb_le in Hp; [lia|done].
    + apply andb_true_iff in Hp as [_ Hp%Z.leb_le]. lia.
Qed.

(** ** The fleet *)

(** The fleet view hides no worker: it is every heartbeat of the tenant, with its flags. *)
Lemma fleet_view_hides_nothing stale proj (w : world) :
  map fr_row (fleet_snapshot stale proj w) ≡ₚ List.filter (λ h, of_tenant proj (hproject h)) (heartbeats w) ∧
  ∀ f, f ∈ fleet_snapshot stale proj w →
    (fr_fresh f = true ↔ clock w - seconds_us stale < last_seen (fr_row f)) ∧
    (fr_flagged_dead f = true ↔ is_Some (last_flagged_dead_at (fr_row f))).
Proof.
  unfold fleet_snapshot. split; [rewrite map_map; simpl; rewrite map_id; apply sort_by_perm|].
  intros f (h & -> & _)%list_elem_of_fmap. simpl. split; [apply Z.ltb_lt|].
  destruct (last_flagged_dead_at h); simpl; split; [eauto|done|done|by intros [? ?]].
Qed.

(** * Where the views and their documentation part *)

(** The timeline of a job promises its end; beyond its limit it shows the oldest events and
    leaves the last ones out. *)
Lemma long_timeline_hides_its_end (w : world) job_id limit l e :
  list_node_events job_id limit w = Ok l → e ∈ node_events w → njob_id e = Some job_id →
  (∀ e', e' ∈ node_events w → njob_id e' = Some job_id → e' ≠ e → ncreated_at e' < ncreated_at e) →
  (Z.to_nat limit < length (List.filter (λ e, bool_decide (njob_id e = Some job_id)) (node_events w)))%nat →
  NoDup (node_events w) → e ∉ l.
Proof.
  unfold list_node_events, limited. destruct (limit <? 0); [done|]. intros [= <-] He Hj Hlast Hlen Hnd.
  set (rows := List.filter _ (node_events w)) in *. set (key := λ e : node_event, [ncreated_at e]).
  set (sorted := sort_by key rows). intros Hin.
  assert (∃ y, y ∈ drop (Z.to_nat limit) sorted) as [y Hy].
  { assert (length (drop (Z.to_nat limit) sorted) ≠ 0%nat) as Hd.
    { rewrite length_drop. unfold sorted. rewrite (Permutation_length (sort_by_perm key rows)). lia. }
    destruct (drop (Z.to_nat limit) sorted) as [|y r]; [done|]. exists y. left. }
  pose proof (sorted_split _ _ _ _ _ (sort_by_sorted key rows) Hin Hy) as Hle%key_le_head.
  assert (y ∈ rows) as [Hy' Hyj%bool_decide_eq_true]%elem_of_Lfilter.
  { rewrite <- (sort_by_perm key rows). fold sorted. rewrite <- (take_drop (Z.to_nat limit) sorted). apply elem_of_app. by right. }
  assert (NoDup sorted) as Hns.
  { unfold sorted. rewrite sort_by_perm. rewrite <- (map_id rows). apply NoDup_map_Lfilter. by rewrite map_id. }
  rewrite <- (take_drop (Z.to_nat limit) sorted) in Hns. apply NoDup_app in Hns as (_ & Hdis & _).
  specialize (Hlast y Hy' Hyj ltac:(intros ->; by apply (Hdis e))). lia.
Qed.

Module SnapshotDemo.
Definition hb (host q proj : string) : heartbeat := mkHb host q proj 1 0 None [] [] None [] None None None.
Definition fleet : world := set_heartbeats [hb "box-a" "crawl" "p1"; hb "box-a" "crawl" "p2"] Demo.empty_world.
Definition two : world := Demo.after [Demo.args "a" "gpu"; Demo.args "b" "gpu"].
End SnapshotDemo.
Import SnapshotDemo.

(** The workers of an ingest queue are documented to be its hosts; a host that serves two
    tenants counts twice. *)
Lemma workers_are_not_hosts : qv_workers (queue_of None fleet "crawl") = 2.
Proof. by vm_compute. Qed.

Lemma recent_jobs_are_the_newest_witness :
  ∃ l, recent_jobs None None 0 1 SnapshotDemo.two = Ok l ∧ length (recent_rows None None 0 SnapshotDemo.two) = 2%nat ∧
    ∀ r, r ∈ recent_rows None None 0 SnapshotDemo.two → r ∉ l → ∀ c, c ∈ l → recency r ≤ recency c.
Proof.
  destruct (recent_jobs_are_the_newest SnapshotDemo.two None None 0 1 ltac:(lia)) as (l & E & _ & _ & _ & Hrest & _).
  exists l. split; [exact E|]. split; [by vm_compute|]. intros r Hr Hn. by apply (Hrest r Hr Hn).
Defined.
