(* ===== verification/WorkerProcess.v ===== *)
(** * The process of a claim worker ([queue_workflows/claim_worker.py])

    The pool of threads of the widened cpu lane as a transition system over its queue, its
    idle and busy threads; the wait for the schema; the order of start and teardown of
    [run_forever] with its greedy drain; the exit codes of [main]; and the hand-over of a box
    to vLLM.  What the parts answer is an argument; a thread is a step of the system. *)

From S2P Require Import Prelude Json Refs Schema NodeQueue Claim Reclaim WorkerLanes DbAccess Catalog Residency.
Local Open Scope Z_scope.

(** ** The threads of the cpu lane ([_CpuLanePool]) *)

(** The queue holds work and sentinels; [lp_threads] is what the object remembers of its
    threads, [lp_idle] and [lp_busy] are the threads themselves. *)
Record lane_pool := mkPool {
  lp_q : list (option string);
  lp_threads : nat;
  lp_closed : bool;
  lp_idle : nat;
  lp_busy : list string;
  lp_done : list string;
}.
Definition fresh_pool : lane_pool := mkPool [] 0 false 0 [] [].
Definition pool_width (threads : Z) : nat := Z.to_nat (Z.max 1 threads).

Definition shutdown (p : lane_pool) : lane_pool :=
  mkPool (lp_q p ++ replicate (lp_threads p) None) 0 true (lp_idle p) (lp_busy p) (lp_done p).
(** [granted]: how many threads the system starts before it refuses one *)
Definition pool_start (width granted : nat) (p : lane_pool) : result () * lane_pool :=
  if (width <=? granted)%nat
  then (Ok (), mkPool (lp_q p) (lp_threads p + width) (lp_closed p) (lp_idle p + width) (lp_busy p) (lp_done p))
  else (Raise (RuntimeError "can't start new thread"),
        shutdown (mkPool (lp_q p) (lp_threads p + granted) (lp_closed p) (lp_idle p + granted) (lp_busy p) (lp_done p))).
Definition submit (job : string) (p : lane_pool) : result () * lane_pool :=
  if lp_closed p then (Raise (RuntimeError "cpu lane pool is shut down"), p)
  else (Ok (), mkPool (lp_q p ++ [Some job]) (lp_threads p) false (lp_idle p) (lp_busy p) (lp_done p)).
(** Built on first use *)
Definition _ensure_cpu_pool (threads : Z) (granted : nat) (cpu_pool : option lane_pool) : result lane_pool * option lane_pool :=
  match cpu_pool with
  | Some p => (Ok p, cpu_pool)
  | None => match pool_start (pool_width threads) granted fresh_pool with
            | (Ok _, p) => (Ok p, Some p)
            | (Raise x, _) => (Raise x, None)
            end
  end.

(** A thread takes an item, ends on a sentinel, or comes back from a body, whatever the body
    raised *)
Inductive thread_step : lane_pool → lane_pool → Prop :=
  | takes job q t c idle busy d :
      thread_step (mkPool (Some job :: q) t c (S idle) busy d) (mkPool q t c idle (job :: busy) d)
  | exits q t c idle busy d :
      thread_step (mkPool (None :: q) t c (S idle) busy d) (mkPool q t c idle busy d)
  | returns job q t c idle before after d :
      thread_step (mkPool q t c idle (before ++ job :: after) d) (mkPool q t c (S idle) (before ++ after) (d ++ [job])).
(** Everything that can happen to a pool, with the work it has accepted *)
Inductive pool_step : list string * lane_pool → list string * lane_pool → Prop :=
  | by_thread acc p p' : thread_step p p' → pool_step (acc, p) (acc, p')
  | by_submit acc job p : pool_step (acc, p) (if is_ok (submit job p).1 then acc ++ [job] else acc, (submit job p).2)
  | by_shutdown acc p : pool_step (acc, p) (acc, shutdown p).

(** ** Stopping the lane *)

Inductive stop_call := WaitDrained | JoinThreads | Detach.
(** [drained]: whether the lane emptied before the timeout, if there is one *)
Definition shutdown_threads (cpu_pool : option lane_pool) (drained : bool) : list stop_call * option lane_pool :=
  match cpu_pool with
  | None => ([], None)
  | Some p => ([WaitDrained; if drained then JoinThreads else Detach], None)
  end.

(** ** The run of a worker *)

Inductive phase :=
  | PWaitDb | PWaitSchema | PSampler | PPark | PProbe | PServer | PReclaim | PHeartbeat | PFactory | PReaper
  | PSentinel | PEnforcer | PWatcher | PPool | PListen
  | PStopPool | PStopThreads | PStopWatcher | PStopFactory | PStopHeartbeat | PStopSampler.
#[export] Instance phase_eq_dec : EqDecision phase.
Proof. solve_decision. Defined.

Record process_in := mkProcess {
  pi_queue : string;
  pi_waited : result bool;        (** [db.wait_for_db] *)
  pi_schema : result ();          (** [db.wait_for_schema] *)
  pi_no_sampler : bool;           (** [disable_gpu_worker_hw_sampler] *)
  pi_sampler : bool;              (** this process won the lock of the host's sampler *)
  pi_enabled : result bool;       (** [_park_until_enabled] *)
  pi_blind : bool;                (** [_refuse_blind_gpu] *)
  pi_pool : result ();            (** [_start_pool_lane] *)
  pi_listen : result ();          (** [listen_with_reconnect] *)
}.
Definition await_schema (i : process_in) : list phase * result () :=
  match pi_waited i with
  | Raise x => ([PWaitDb], Raise x)
  | Ok false => ([PWaitDb], Raise DbUnreachable)
  | Ok true => ([PWaitDb; PWaitSchema], pi_schema i)
  end.
Definition on_gpu (i : process_in) (l : list phase) : list phase := if String.eqb (pi_queue i) "gpu" then l else [].
Definition has_sampler (i : process_in) : bool := String.eqb (pi_queue i) "gpu" && negb (pi_no_sampler i).
(** The teardown of the [finally] *)
Definition teardown (i : process_in) : list phase :=
  [PStopPool; PStopThreads; PStopWatcher] ++ on_gpu i [PStopFactory] ++ [PStopHeartbeat] ++
  (if has_sampler i && pi_sampler i then [PStopSampler] else []).
Definition run_forever (i : process_in) : list phase * result () :=
  match await_schema i with
  | (pre, Raise x) => (pre, Raise x)
  | (pre, Ok _) =>
      let pre := pre ++ (if has_sampler i then [PSampler] else []) ++ [PPark] in
      match pi_enabled i with
      | Raise x => (pre, Raise x)
      | Ok false => (pre, Ok ())
      | Ok true =>
          let pre := pre ++ [PProbe] in
          if pi_blind i then (pre, Ok ())
          else
            let pre := pre ++ [PServer; PReclaim; PHeartbeat] ++ on_gpu i [PFactory; PReaper; PSentinel; PEnforcer] ++ [PWatcher; PPool] in
            match pi_pool i with
            | Raise x => (pre, Raise x)
            | Ok _ => (pre ++ PListen :: teardown i, pi_listen i)
            end
      end
  end.

(** One wake: what the flags read before each claim, and what the claim gave *)
Record claim_turn := mkClaimTurn { ct_stop : bool; ct_drain : bool; ct_ran : result bool }.
Inductive drained := OnStop | OnDrain | OnEmpty | OnError | OnTurns.
Fixpoint drain_greedily (turns : list claim_turn) : nat * drained :=
  match turns with
  | [] => (O, OnTurns)
  | t :: r =>
      if ct_stop t then (O, OnStop)
      else if ct_drain t then (O, OnDrain)
      else match ct_ran t with
           | Ok true => let '(n, e) := drain_greedily r in (S n, e)
           | Ok false => (1%nat, OnEmpty)
           | Raise _ => (1%nat, OnError)
           end
  end.

(** ** The command *)

Definition _NODE_QUEUES : list string := ["cpu"; "gpu"; "download"].
(** A wrong argument ends the command with 2 before the host's registrar runs. *)
Definition worker_main (q : string) (threads : option Z) (ingest_queues : list string) (registrar : result ()) (i : process_in)
    : result Z * list phase :=
  if negb (bool_decide (q ∈ _NODE_QUEUES ++ ingest_queues)) then (Ok 2, [])
  else if is_not_null threads && negb (String.eqb q "cpu") then (Ok 2, [])
  else match (if String.eqb q "gpu" then registrar else Ok ()) with
       | Raise x => (Raise x, [])
       | Ok _ =>
           let '(ps, r) := run_forever i in
           (match r with
            | Ok _ => Ok 0
            | Raise x => if bool_decide (x = DbUnreachable) then Ok 1 else if bool_decide (x = DbMisconfigured) then Ok 2 else Raise x
            end, ps)
       end.

(** ** Handing the box to vLLM *)

(** The start hook, what the box holds or the probe raised, and what the start raised *)
Definition _handover_to_vllm (start : option (result ())) (residents : result (list Resident)) : list lever * bool * result bool :=
  match start with
  | None => ([], false, Ok false)
  | Some started =>
      match residents with
      | Raise _ => ([], false, Ok false)
      | Ok rs =>
          match clear_box_for VLLM None rs None with
          | (fired, Raise _) => (fired, false, Ok false)
          | (fired, Ok _) => (fired, true, match started with Ok _ => Ok true | Raise x => Raise x end)
          end
      end
  end.

(** * Lemmas *)

(** ** The pool *)

Definition jobs_of (q : list (option string)) : list string := omap id q.
Definition alive (p : lane_pool) : nat := (lp_idle p + length (lp_busy p))%nat.
(** The work that is left for the threads *)
Definition pool_measure (p : lane_pool) : nat := (length (lp_q p) + length (jobs_of (lp_q p)) + length (lp_busy p))%nat.
(** What is accepted is queued, running or done; the sentinels come after the work, one for
    each thread that lives; and there is a thread while there is work *)
Record pool_inv (acc : list string) (p : lane_pool) : Prop := {
  inv_accepted : acc ≡ₚ lp_done p ++ lp_busy p ++ jobs_of (lp_q p);
  inv_queue : lp_q p = map Some (jobs_of (lp_q p)) ++ replicate (if lp_closed p then alive p else 0%nat) None;
  inv_threads : lp_threads p = (if lp_closed p then 0 else alive p)%nat;
  inv_alive : lp_closed p = false ∨ jobs_of (lp_q p) ≠ [] → (1 ≤ alive p)%nat;
}.

Lemma jobs_of_app q q' : jobs_of (q ++ q') = jobs_of q ++ jobs_of q'.
Proof. apply omap_app. Qed.
Lemma jobs_of_sentinels n : jobs_of (replicate n None) = [].
Proof. induction n; [done|]. simpl. done. Qed.
Lemma jobs_of_map js : jobs_of (map Some js) = js.
Proof.
  induction js as [|j js IH]; [done|].
  change (jobs_of (map Some (j :: js))) with (j :: jobs_of (map Some js)). by rewrite IH.
Qed.
Lemma queue_split js n :
  jobs_of (map Some js ++ replicate n None) = js.
Proof. by rewrite jobs_of_app, jobs_of_sentinels, jobs_of_map, app_nil_r. Qed.

Lemma thread_step_inv acc p p' : thread_step p p' → pool_inv acc p → pool_inv acc p'.
Proof.
  intros Hst [Ha Hq Ht Hl]. destruct Hst as [job q t c idle busy d|q t c idle busy d|job q t c idle before after d];
    unfold alive in *; cbn [lp_q lp_threads lp_closed lp_idle lp_busy lp_done length] in *.
  - change (jobs_of (Some job :: q)) with (job :: jobs_of q) in *. simpl in Hq. injection Hq as Hq. split; unfold alive; simpl.
    + rewrite Ha. solve_Permutation.
    + rewrite Hq at 1. f_equal. destruct c; [|done]. f_equal. lia.
    + rewrite Ht. destruct c; lia.
    + lia.
  - change (jobs_of (None :: q)) with (jobs_of q) in *.
    assert (jobs_of q = [] ∧ c = true) as [Hj ->].
    { destruct (jobs_of q); [|done]. split; [done|]. destruct c; [done|]. done. }
    rewrite Hj in Hq. simpl in Hq. injection Hq as Hq. split; unfold alive; simpl.
    + rewrite Ha. done.
    + rewrite Hj. simpl. rewrite Hq at 1. done.
    + done.
    + rewrite Hj. intros [?|?]; done.
  - rewrite !length_app in *. simpl in *. split; unfold alive; simpl; rewrite ?length_app.
    + rewrite Ha. solve_Permutation.
    + rewrite Hq at 1. f_equal. destruct c; [|done]. f_equal. lia.
    + rewrite Ht. destruct c; lia.
    + intros H. specialize (Hl H). lia.
Qed.
Lemma pool_step_inv s s' : pool_step s s' → pool_inv s.1 s.2 → pool_inv s'.1 s'.2.
Proof.
  intros Hst. destruct Hst as [acc p p' Hth|acc job p|acc p]; simpl; [by apply thread_step_inv|..]; intros [Ha Hq Ht Hl].
  - unfold submit. destruct (lp_closed p) eqn:Ec; simpl; [split; by rewrite ?Ec|].
    assert (jobs_of (lp_q p ++ [Some job]) = jobs_of (lp_q p) ++ [job]) as Hj by apply jobs_of_app.
    split; unfold alive in *; simpl; rewrite ?Hj.
    + rewrite Ha. solve_Permutation.
    + rewrite Hq at 1. simpl. by rewrite !app_nil_r, map_app.
    + done.
    + intros _. apply Hl. by left.
  - assert (jobs_of (lp_q p ++ replicate (lp_threads p) None) = jobs_of (lp_q p)) as Hj
      by (by rewrite jobs_of_app, jobs_of_sentinels, app_nil_r).
    split; unfold alive in *; simpl; rewrite ?Hj.
    + done.
    + rewrite Ht. rewrite Hq at 1. destruct (lp_closed p); simpl; [by rewrite app_nil_r|by rewrite app_nil_r].
    + done.
    + intros [?|Hne]; [done|]. apply Hl. by right.
Qed.
Lemma started_pool_inv width : (1 ≤ width)%nat → pool_inv [] (pool_start width width fresh_pool).2.
Proof. intros Hw. unfold pool_start. rewrite Nat.leb_refl. split; unfold alive; simpl; [done|done|lia|lia]. Qed.

(** C38: The lane loses no work.  Whatever is submitted to a started pool, in whatever order its
    threads run and whenever it is shut down, each accepted job is exactly once queued,
    running or done; while one of them is not done a thread can move, a thread's move leaves
    less to do, and when no thread can move all accepted work is done and, if the pool was
    shut down, every thread has ended.  After a shutdown every submission is refused. *)
Theorem accepted_work_is_run width acc p
    (Hwidth : (1 ≤ width)%nat) (Hreach : rtc pool_step ([], (pool_start width width fresh_pool).2) (acc, p)) :
  acc ≡ₚ lp_done p ++ lp_busy p ++ jobs_of (lp_q p) ∧
  (∀ p', thread_step p p' → (pool_measure p' < pool_measure p)%nat) ∧
  ((∀ p', ¬ thread_step p p') → lp_done p ≡ₚ acc ∧ (lp_closed p = true → alive p = 0%nat)) ∧
  (lp_closed p = true → ∀ job, is_ok (submit job p).1 = false ∧ (submit job p).2 = p).
Proof.
  assert (pool_inv acc p) as Hinv.
  { apply (rtc_ind_r (λ s, pool_inv s.1 s.2) ([], (pool_start width width fresh_pool).2)
      (started_pool_inv width Hwidth)) in Hreach; [done|].
    intros s s' _ Hst. by apply pool_step_inv. }
  destruct Hinv as [Ha Hq Ht Hl]. split_and!; [done| | |].
  - intros p' Hst. unfold pool_measure. destruct Hst; cbn [lp_q lp_busy length].
    + change (jobs_of (Some job :: q)) with (job :: jobs_of q). simpl. lia.
    + change (jobs_of (None :: q)) with (jobs_of q). lia.
    + rewrite !length_app. simpl. lia.
  - intros Hno. destruct p as [q t c idle busy d]. unfold alive in *. cbn [lp_q lp_threads lp_closed lp_idle lp_busy lp_done] in *.
    assert (busy = []) as ->.
    { destruct busy as [|b r]; [done|]. destruct (Hno (mkPool q t c (S idle) r (d ++ [b]))). apply (returns b q t c idle [] r d). }
    assert (jobs_of q = []) as Hj.
    { destruct (jobs_of q) as [|j js] eqn:E; [done|]. assert (1 ≤ idle + 0)%nat as Hi by (apply Hl; by right).
      destruct idle as [|idle]; [lia|]. cbn [map app] in Hq. exfalso. eapply Hno. rewrite Hq. apply takes. }
    rewrite Hj in Hq, Ha. simpl in *. split; [by rewrite Ha, app_nil_r|]. intros ->. rewrite Nat.add_0_r in *.
    destruct idle as [|idle]; [done|]. exfalso. eapply Hno. rewrite Hq. apply exits.
  - intros Hc job. unfold submit. by rewrite Hc.
Qed.

(** A pool the system refused a thread accepts nothing, and the threads it had end. *)
Lemma half_built_pool_accepts_nothing width granted p :
  (granted < width)%nat → (pool_start width granted fresh_pool).2 = p →
  is_ok (pool_start width granted fresh_pool).1 = false ∧ pool_inv [] p ∧ lp_closed p = true ∧
  ∀ threads, pool_width threads = width → _ensure_cpu_pool threads granted None = (Raise (RuntimeError "can't start new thread"), None).
Proof.
  intros Hlt <-. unfold _ensure_cpu_pool, pool_start. destruct (Nat.leb_spec width granted); [lia|]. simpl. split_and!.
  - done.
  - assert (jobs_of (replicate granted None) = []) as Hj by apply jobs_of_sentinels.
    split; unfold alive; simpl; rewrite ?Hj; simpl; [done|by rewrite Nat.add_0_r|done|intros [?|?]; done].
  - done.
  - intros threads Hw. rewrite Hw. destruct (Nat.leb_spec width granted); [lia|done].
Qed.

(** ** The process *)

(** A worker is seen, and claims, only past its gates: it beats and listens only when the
    database answered, the schema is there, the operator has it on and its card can be used;
    it frees its predecessor's rows before its first beat; and once it listened everything
    it started is stopped, in this order, whatever ended the listening. *)
Lemma worker_starts_past_its_gates i :
  let '(ps, r) := run_forever i in
  (PHeartbeat ∈ ps ↔ pi_waited i = Ok true ∧ pi_schema i = Ok () ∧ pi_enabled i = Ok true ∧ pi_blind i = false) ∧
  (PHeartbeat ∈ ps → ∃ pre post, ps = pre ++ [PServer; PReclaim; PHeartbeat] ++ post ∧ PHeartbeat ∉ pre ∧ PListen ∉ pre) ∧
  (PListen ∈ ps → ∃ pre, ps = pre ++ PListen :: teardown i ∧ r = pi_listen i).
Proof.
  assert (∀ x, x ∈ [PHeartbeat; PListen] → x ∉ (if has_sampler i then [PSampler] else [])) as Hs by (intros x; destruct (has_sampler i); set_solver).
  assert (∀ l, PListen ∉ l → PListen ∉ on_gpu i l) as Hg by (intros l Hl; unfold on_gpu; destruct (String.eqb _ _); set_solver).
  unfold run_forever, await_schema. destruct (pi_waited i) as [[]|x]; [destruct (pi_schema i) as [[]|x]|..]; cbv zeta;
    try (split_and!; [set_solver|set_solver|set_solver]).
  set (pre0 := [PWaitDb; PWaitSchema] ++ (if has_sampler i then [PSampler] else []) ++ [PPark]).
  assert (∀ x, x ∈ [PHeartbeat; PListen] → x ∉ pre0) as Hp0 by (intros x Hx; specialize (Hs x Hx); unfold pre0; set_solver).
  destruct (pi_enabled i) as [[]|x]; [|split_and!; set_solver..].
  destruct (pi_blind i); [split_and!; set_solver|].
  destruct (pi_pool i) as [[]|x].
  - split_and!; [split; [done|set_solver]| |].
    + intros _. exists (pre0 ++ [PProbe]). eexists. split; [by rewrite <- !app_assoc|]. split; set_solver.
    + intros _. eexists. done.
  - split_and!; [split; [done|set_solver]| |].
    + intros _. exists (pre0 ++ [PProbe]). eexists. split; [done|]. split; set_solver.
    + intros Hin. exfalso. revert Hin. specialize (Hg [PFactory; PReaper; PSentinel; PEnforcer] ltac:(set_solver)). set_solver.
Qed.

(** The exit codes: 2 for what a restart cannot fix, a wrong argument or a wrong database; 1
    for a database that did not come; and a wrong argument has started nothing. *)
Lemma exit_codes q threads ingest registrar i :
  let '(r, ps) := worker_main q threads ingest registrar i in
  (r = Ok 2 → ps = [] ∨ (run_forever i).2 = Raise DbMisconfigured) ∧
  (r = Ok 1 → (run_forever i).2 = Raise DbUnreachable) ∧
  (r = Ok 0 → (run_forever i).2 = Ok ()) ∧
  (q ∉ _NODE_QUEUES ++ ingest → r = Ok 2 ∧ ps = []).
Proof.
  unfold worker_main. case_bool_decide as Hq; simpl; [|split_and!; [auto|done|done|done]].
  destruct (is_not_null threads && negb (String.eqb q "cpu")); [split_and!; [auto|done|done|done]|].
  destruct (if String.eqb q "gpu" then registrar else Ok ()); [|split_and!; done].
  destruct (run_forever i) as [ps [[]|x]]; simpl; [split_and!; done|].
  repeat case_bool_decide; subst; split_and!; done || auto.
Qed.

(** No claim is made once a stop or a drain was read, and a wake claims until the queue is
    empty. *)
Lemma drain_stops_at_the_first_flag before t after :
  Forall (λ u, ct_stop u = false ∧ ct_drain u = false ∧ ct_ran u = Ok true) before →
  (ct_stop t = true → drain_greedily (before ++ t :: after) = (length before, OnStop)) ∧
  (ct_stop t = false → ct_drain t = true → drain_greedily (before ++ t :: after) = (length before, OnDrain)) ∧
  (ct_stop t = false → ct_drain t = false → ct_ran t = Ok false → drain_greedily (before ++ t :: after) = (S (length before), OnEmpty)).
Proof.
  induction 1 as [|u before (Hs & Hd & Hr) _ IH]; simpl.
  - destruct t as [[] [] [[]|]]; simpl; done.
  - rewrite Hs, Hd, Hr. destruct IH as (I1 & I2 & I3). split_and!; intros; rewrite ?I1, ?I2, ?I3 by done; done.
Qed.

(** The hand-over is documented not to start vLLM when the box could not be cleared; a lever
    that fails is not seen, so vLLM is started beside the model it should have replaced. *)
Lemma handover_starts_whatever_the_levers_did rs :
  ∃ fired, _handover_to_vllm (Some (Ok ())) (Ok rs) = (fired, true, Ok true).
Proof. unfold _handover_to_vllm, clear_box_for. destruct (foreign VLLM None rs); by eexists. Qed.

Lemma accepted_work_is_run_witness :
  ∃ p, rtc pool_step ([], (pool_start 1 1 fresh_pool).2) (["j1"], p) ∧ lp_closed p = true ∧ is_ok (submit "j2" p).1 = false ∧
    ["j1"%string] ≡ₚ lp_done p ++ lp_busy p ++ jobs_of (lp_q p).
Proof.
  set (p := mkPool [None] 0 true 0 ["j1"%string] []).
  assert (rtc pool_step ([], (pool_start 1 1 fresh_pool).2) (["j1"], p)) as Hr.
  { eapply rtc_l; [apply (by_submit [] "j1")|]. eapply rtc_l; [apply by_shutdown|].
    eapply rtc_l; [apply by_thread; simpl; apply takes|]. apply rtc_refl. }
  destruct (accepted_work_is_run 1 ["j1"%string] p ltac:(lia) Hr) as (Ha & _ & _ & Hc).
  exists p. split; [exact Hr|]. split; [reflexivity|]. split; [by apply (Hc eq_refl)|exact Ha].
Defined.
