(* ===== verification/Config.v ===== *)
(** * Settings of the engine ([queue_workflows/config.py], [queue_workflows/__init__.py])

    The process-wide settings as the attributes of one object, by name; [configure] with its
    conversions, in the order of the source; the defaults that come from the environment; and
    the resolution of a node's module.  The hooks a host wires are opaque values; importing a
    module is an argument. *)

From S2P Require Import Prelude Json PyText Refs Schema NodeQueue Claim Reclaim WorkerLanes Catalog LlmProbe Residency ContextLever Comfy.
Local Open Scope Z_scope.

Definition BUILTIN_POOL_NODE_MODULES : list string := ["comfyui"].
Definition _DB_BACKEND_ALIASES : list (string * string) :=
  [("sqlite", "sqlite"); ("pg", "pg"); ("postgres", "pg"); ("postgresql", "pg")].
Definition canonical_db_backend (name : string) : result string :=
  match dict_get (PyStr.lower (PyStr.strip name)) _DB_BACKEND_ALIASES with
  | Some b => Ok b
  | None => Raise (ValueError "db_backend")
  end.

(** ** The defaults of the environment *)

Section defaults.
Context `{WorkerEnv}.
Definition _default_db_backend : result string :=
  match dict_get "QUEUE_WORKFLOWS_DB_BACKEND" os_environ with
  | Some raw => if PyStr.truthy raw then canonical_db_backend raw else Ok "sqlite"
  | None => Ok "sqlite"
  end.
Definition _default_hw_broadcast_port : result Z :=
  raw ← env_get "QUEUE_WORKFLOWS_HW_BROADCAST_PORT" None;
  Ok (match raw with Some s => if PyStr.truthy s then default 48291 (PyStr.int s) else 48291 | None => 48291 end).
Definition _default_broadcast_hw_stats : result bool := _env_flag "QUEUE_WORKFLOWS_BROADCAST_HW_STATS".
Definition _default_project : string := default "" (dict_get "QUEUE_WORKFLOWS_PROJECT" os_environ).

(** ** The settings *)

(** The attributes of the object; sets are lists, and a hook is the opaque value the host
    passed, with [JNull] for None *)
Definition attrs : Type := list (string * json).
(** The no-op registrar the object starts with *)
Definition NO_REGISTRAR : json := JStr "lambda: None".
(** The object as it is constructed, section by section of the class *)
Definition env_name_fields : attrs :=
  [("db_url_env", JStr "QUEUE_WORKFLOWS_DB_URL"); ("metrics_db_url_env", JNull);
   ("host_label_env", JStr "QUEUE_WORKFLOWS_HOST_LABEL"); ("host_priority_env", JStr "QUEUE_WORKFLOWS_GPU_CONSUMER_PRIORITY");
   ("ollama_url_env", JStr "QUEUE_WORKFLOWS_OLLAMA_URL"); ("vllm_url_env", JStr "QUEUE_WORKFLOWS_VLLM_URL");
   ("llm_topology_path", JNull)].
Definition value_fields (project db_backend : string) : attrs :=
  [("video_model_ids", JArr []); ("vlm_pool_node_modules", JArr []); ("gpu_self_load_node_modules", JArr []);
   ("node_module_package", JStr ""); ("container_prefix", JStr ""); ("project", JStr project);
   ("llm_servers_available", JArr [JStr "ollama"]); ("db_backend", JStr db_backend)].
Definition hook_fields : attrs :=
  [("node_resolver", JNull); ("builtin_model_registrar", NO_REGISTRAR); ("workflow_loader", JNull);
   ("pipeline_schema_loader", JNull); ("resolve_ref", JNull); ("invoke_context", JNull);
   ("vllm_stop_fn", JNull); ("vllm_start_fn", JNull); ("llm_context_lever_fn", JNull);
   ("inference_server_start_fn", JNull); ("inference_server_stop_fn", JNull);
   ("comfyui_start_fn", JNull); ("comfyui_stop_fn", JNull)].
Definition box_fields : attrs :=
  [("gpu_box_id", JStr ""); ("gpu_box_max_concurrent", JObj []); ("gpu_model_lease_dir", JStr ""); ("gpu_model_lease_ttl_s", JFloat 120);
   ("llm_server_idle_ttl_s", JFloat 300); ("gpu_lease_store", JNull); ("comfyui_url", JStr ""); ("llm_server_resolver", JNull)].
Definition lane_fields (broadcast_hw_stats : bool) (hw_broadcast_port : Z) : attrs :=
  [("cancel_orphan_queued_jobs", JBool true); ("gpu_requires_local_device", JBool true); ("disable_gpu_worker_hw_sampler", JBool false);
   ("broadcast_hw_stats", JBool broadcast_hw_stats); ("hw_broadcast_port", JInt hw_broadcast_port);
   ("cpu_worker_threads", JInt 1); ("download_max_concurrent", JInt 1);
   ("ingest_queues", JArr [JStr "fetch"; JStr "load"]); ("ingest_default_budget_s", JInt 3600);
   ("ingest_task_map", JObj []); ("ingest_schedule", JArr [])].
(** The default factories run in the order of the fields. *)
Definition EngineConfig : result attrs :=
  let project := _default_project in
  db_backend ← _default_db_backend;
  broadcast_hw_stats ← _default_broadcast_hw_stats;
  hw_broadcast_port ← _default_hw_broadcast_port;
  Ok (env_name_fields ++ value_fields project db_backend ++ hook_fields ++ box_fields ++ lane_fields broadcast_hw_stats hw_broadcast_port).
End defaults.

Section configure.
Context `{PyEnv}.

(** *** The conversions *)

Definition keep (v : json) : result json := Ok v.
Definition to_str (v : json) : result json := Ok (JStr (py_str v)).
Definition to_set (v : json) : result json := JArr <$> py_iter v.
Definition to_int (v : json) : result json := JInt <$> py_int v.
Definition to_bool (v : json) : result json := Ok (JBool (truthy v)).
(** A float that is not finite is kept as it was given *)
Definition to_float (v : json) : result json :=
  match py_float_of v with Ok (Some q) => Ok (JFloat q) | Ok None => Ok v | Raise x => Raise x end.
Definition to_floor1 (v : json) : result json := (λ n, JInt (Z.max 1 n)) <$> py_int v.
(** [dict(v)]: of a mapping, or of an iterable of pairs; the keys of an object are strings *)
Fixpoint dict_of_pairs (l : list json) (acc : dict) : result dict :=
  match l with
  | [] => Ok acc
  | e :: r =>
      kv ← py_iter e;
      match kv with
      | [JStr k; v] => dict_of_pairs r (dict_set k v acc)
      | [_; _] => Raise (TypeError "key")
      | _ => Raise (ValueError "dictionary update sequence")
      end
  end.
Definition to_dict (v : json) : result json :=
  match v with JObj _ => Ok v | _ => l ← py_iter v; JObj <$> dict_of_pairs l [] end.
Definition RESERVED : list string := ["cpu"; "gpu"; "download"].
Definition is_reserved (v : json) : bool := match v with JStr s => bool_decide (s ∈ RESERVED) | _ => false end.
Definition to_ingest_queues (v : json) : result json :=
  l ← py_iter v; if existsb is_reserved l then Raise (ValueError "ingest_queues") else Ok (JArr l).
Definition to_backend (v : json) : result json := JStr <$> canonical_db_backend (py_str v).

(** The statements of [configure], in their order *)
Definition settings : list (string * (json → result json)) :=
  [("db_url_env", keep); ("metrics_db_url_env", keep); ("video_model_ids", to_set); ("node_module_package", keep);
   ("host_label_env", keep); ("host_priority_env", keep); ("llm_topology_path", keep); ("container_prefix", keep);
   ("project", to_str); ("ingest_queues", to_ingest_queues); ("ingest_default_budget_s", to_int); ("db_backend", to_backend);
   ("cancel_orphan_queued_jobs", to_bool); ("gpu_requires_local_device", to_bool); ("disable_gpu_worker_hw_sampler", to_bool);
   ("broadcast_hw_stats", to_bool); ("hw_broadcast_port", to_int); ("vlm_pool_node_modules", to_set);
   ("gpu_self_load_node_modules", to_set); ("llm_server_idle_ttl_s", to_float); ("cpu_worker_threads", to_floor1);
   ("download_max_concurrent", to_floor1); ("gpu_box_max_concurrent", to_dict)].
(** An argument that is not passed, or passed as None, leaves its attribute alone. *)
Definition passed (args : dict) (name : string) : option json :=
  match dict_get name args with Some JNull => None | r => r end.
Fixpoint configure_from (l : list (string * (json → result json))) (args : dict) (cfg : attrs) : result () * attrs :=
  match l with
  | [] => (Ok (), cfg)
  | (name, conv) :: r =>
      match passed args name with
      | None => configure_from r args cfg
      | Some v => match conv v with
                  | Raise x => (Raise x, cfg)
                  | Ok v' => configure_from r args (dict_set name v' cfg)
                  end
      end
  end.
Definition configure (args : dict) (cfg : attrs) : result () * attrs := configure_from settings args cfg.

(** *** The setters *)

Definition set_node_module_package (package : json) (cfg : attrs) : attrs := dict_set "node_module_package" package cfg.
Definition set_node_resolver (resolver : json) (cfg : attrs) : attrs := dict_set "node_resolver" resolver cfg.
Definition set_builtin_model_registrar (registrar : json) (cfg : attrs) : attrs := dict_set "builtin_model_registrar" registrar cfg.
Definition set_workflow_provider (load_workflow pipeline_schema resolve_ref : json) (cfg : attrs) : attrs :=
  let cfg := dict_set "pipeline_schema_loader" pipeline_schema (dict_set "workflow_loader" load_workflow cfg) in
  match resolve_ref with JNull => cfg | f => dict_set "resolve_ref" f cfg end.
Definition set_invoke_context (factory : json) (cfg : attrs) : attrs := dict_set "invoke_context" factory cfg.
Definition set_llm_servers_available (servers : json) (cfg : attrs) : result () * attrs :=
  match py_iter servers with
  | Ok l => (Ok (), dict_set "llm_servers_available" (JArr l) cfg)
  | Raise x => (Raise x, cfg)
  end.
Definition set_vllm_lifecycle (stop_fn start_fn : json) (cfg : attrs) : attrs :=
  dict_set "vllm_start_fn" start_fn (dict_set "vllm_stop_fn" stop_fn cfg).
Definition set_llm_context_lever (fn : json) (cfg : attrs) : attrs := dict_set "llm_context_lever_fn" fn cfg.
Definition set_inference_server_lifecycle (start_fn stop_fn : json) (cfg : attrs) : attrs :=
  dict_set "inference_server_stop_fn" stop_fn (dict_set "inference_server_start_fn" start_fn cfg).
Definition set_comfyui_lifecycle (start_fn stop_fn : json) (cfg : attrs) : attrs :=
  dict_set "comfyui_stop_fn" stop_fn (dict_set "comfyui_start_fn" start_fn cfg).
Definition set_gpu_lease_store (store : json) (cfg : attrs) : attrs := dict_set "gpu_lease_store" store cfg.
Definition set_llm_server_resolver (resolver : json) (cfg : attrs) : attrs := dict_set "llm_server_resolver" resolver cfg.
(** The task map is the object's own dict, changed in place *)
Definition register_ingest_task (name : string) (callable_ : json) (cfg : attrs) : attrs :=
  match dict_get "ingest_task_map" cfg with
  | Some (JObj d) => dict_set "ingest_task_map" (JObj (dict_set name callable_ d)) cfg
  | _ => cfg
  end.
Definition set_ingest_schedule (schedule : json) (cfg : attrs) : result () * attrs :=
  match py_iter schedule with
  | Ok l => (Ok (), dict_set "ingest_schedule" (JArr l) cfg)
  | Raise x => (Raise x, cfg)
  end.

(** What a host can call, in any order *)
Inductive host_call :=
  | Configure (args : dict) | SetNodeModulePackage (package : json) | SetNodeResolver (f : json) | SetBuiltinModelRegistrar (f : json)
  | SetWorkflowProvider (load schema resolve : json) | SetInvokeContext (f : json) | SetLlmServersAvailable (servers : json)
  | SetVllmLifecycle (stop start : json) | SetLlmContextLever (f : json) | SetInferenceServerLifecycle (start stop : json)
  | SetComfyuiLifecycle (start stop : json) | SetGpuLeaseStore (store : json) | SetLlmServerResolver (f : json)
  | RegisterIngestTask (name : string) (f : json) | SetIngestSchedule (schedule : json).
Definition host_step (cfg : attrs) (c : host_call) : attrs :=
  match c with
  | Configure args => (configure args cfg).2
  | SetNodeModulePackage p => set_node_module_package p cfg
  | SetNodeResolver f => set_node_resolver f cfg
  | SetBuiltinModelRegistrar f => set_builtin_model_registrar f cfg
  | SetWorkflowProvider l s r => set_workflow_provider l s r cfg
  | SetInvokeContext f => set_invoke_context f cfg
  | SetLlmServersAvailable l => (set_llm_servers_available l cfg).2
  | SetVllmLifecycle a b => set_vllm_lifecycle a b cfg
  | SetLlmContextLever f => set_llm_context_lever f cfg
  | SetInferenceServerLifecycle a b => set_inference_server_lifecycle a b cfg
  | SetComfyuiLifecycle a b => set_comfyui_lifecycle a b cfg
  | SetGpuLeaseStore s => set_gpu_lease_store s cfg
  | SetLlmServerResolver f => set_llm_server_resolver f cfg
  | RegisterIngestTask n f => register_ingest_task n f cfg
  | SetIngestSchedule l => (set_ingest_schedule l cfg).2
  end.
End configure.

(** ** The module of a node *)

(** What importing a dotted name gives: the module, an [ImportError], of the name itself or of
    something it imports, or another exception *)
Inductive imported := Module (name : string) | NoSuchModule | BrokenImport | ImportRaises (x : exc).
Definition effective_vlm_pool_node_modules (vlm_pool_node_modules : list string) : list string :=
  vlm_pool_node_modules ++ BUILTIN_POOL_NODE_MODULES.
Definition ImportError : exc := OtherError "ImportError".
Definition resolve_node_module (node_resolver : option (string → result string)) (node_module_package : string)
    (import_module : string → imported) (node_module : string) : result string :=
  match node_resolver with
  | Some f => f node_module
  | None =>
      let dotted := if PyStr.truthy node_module_package then node_module_package +:+ "." +:+ node_module else node_module in
      match import_module dotted with
      | Module m => Ok m
      | ImportRaises x => Raise x
      | NoSuchModule | BrokenImport =>
          if bool_decide (node_module ∈ BUILTIN_POOL_NODE_MODULES)
          then match import_module ("queue_workflows.builtin_nodes." +:+ node_module) with
               | Module m => Ok m
               | ImportRaises x => Raise x
               | NoSuchModule | BrokenImport => Raise ImportError
               end
          else Raise ImportError
      end
  end.

(** The resolver a host wired, or None and the engine's own *)
Definition resolve_llm_server {A} (llm_server_resolver : option (dict → result (option A))) (job : dict) : result (option A) :=
  match llm_server_resolver with None => Ok None | Some f => f job end.
Definition get_resolve_ref {A} (resolve_ref : option A) (builtin : A) : A :=
  match resolve_ref with Some f => f | None => builtin end.

(** * Lemmas *)

(** What every sequence of calls keeps true of the settings *)
Record config_ok (cfg : attrs) : Prop := {
  ok_threads : ∃ n, dict_get "cpu_worker_threads" cfg = Some (JInt n) ∧ 1 ≤ n;
  ok_download : ∃ n, dict_get "download_max_concurrent" cfg = Some (JInt n) ∧ 1 ≤ n;
  ok_queues : ∃ l, dict_get "ingest_queues" cfg = Some (JArr l) ∧ ∀ q, JStr q ∈ l → q ∉ RESERVED;
  ok_backend : ∃ b, dict_get "db_backend" cfg = Some (JStr b) ∧ b ∈ ["sqlite"; "pg"];
}.

Section configure_lemmas.
Context `{PyEnv}.
Implicit Types (cfg : attrs) (args : dict).

Lemma canonical_is_a_backend name b : canonical_db_backend name = Ok b → b ∈ ["sqlite"; "pg"].
Proof.
  unfold canonical_db_backend, _DB_BACKEND_ALIASES. simpl.
  repeat (destruct (String.eqb _ _); [intros [= <-]; set_solver|]). done.
Qed.

(** The attribute a call leaves: the conversion of the argument that was passed, and the old
    value otherwise *)
Lemma configure_from_get l args cfg k :
  NoDup (map fst l) →
  match configure_from l args cfg with
  | (Ok _, cfg') =>
      dict_get k cfg' = match list_to_map (M := gmap string _) l !! k, passed args k with
                        | Some conv, Some v => match conv v with Ok v' => Some v' | Raise _ => dict_get k cfg end
                        | _, _ => dict_get k cfg
                        end
  | (Raise _, _) => True
  end.
Proof.
  revert cfg. induction l as [|[name conv] l IH]; intros cfg Hn; simpl; [by rewrite lookup_empty|].
  apply NoDup_cons in Hn as [Hx Hn]. destruct (passed args name) as [v|] eqn:Ep; cycle 1.
  { specialize (IH cfg Hn). destruct (configure_from l args cfg) as [[|] cfg']; [|done]. rewrite IH.
    destruct (base.decide (k = name)) as [-> |Hne]; [|by rewrite lookup_insert_ne].
    rewrite lookup_insert_eq, Ep. by destruct (list_to_map l !! name). }
  destruct (conv v) as [v'|x] eqn:Ec; [|done]. specialize (IH (dict_set name v' cfg) Hn).
  destruct (configure_from l args _) as [[|] cfg']; [|done]. rewrite IH.
  destruct (base.decide (k = name)) as [-> |Hne].
  - rewrite lookup_insert_eq, Ep, Ec, dict_get_set_eq.
    assert (list_to_map (M := gmap string (json → result json)) l !! name = None) as -> by (by apply not_elem_of_list_to_map).
    done.
  - by rewrite lookup_insert_ne, dict_get_set_ne by done.
Qed.
End configure_lemmas.

Section sound.
Context `{PyEnv}.
Implicit Types (cfg : attrs) (args : dict).

Lemma setting_keeps_sound name conv v v' cfg :
  (name, conv) ∈ settings → conv v = Ok v' → config_ok cfg → config_ok (dict_set name v' cfg).
Proof.
  intros Hin Hc [Ht Hd Hq Hb].
  repeat (apply elem_of_cons in Hin as [[= -> ->]|Hin];
    [first
      [ split; rewrite dict_get_set_ne by done; assumption
      | unfold to_floor1 in Hc; destruct (py_int v) as [n|]; [|done]; injection Hc as <-; split;
          first [rewrite dict_get_set_eq; exists (Z.max 1 n); split; [done|lia] | rewrite dict_get_set_ne by done; assumption]
      | unfold to_ingest_queues in Hc; destruct (py_iter v) as [l|]; [|done]; simpl in Hc;
          destruct (existsb is_reserved l) eqn:Ex; [done|]; injection Hc as <-; split;
          [rewrite dict_get_set_ne by done; assumption..| |rewrite dict_get_set_ne by done; assumption];
          rewrite dict_get_set_eq; exists l; split; [done|]; intros q Hql Hr;
          rewrite <- Bool.not_true_iff_false, existsb_exists in Ex; apply Ex; exists (JStr q);
          split; [by apply list_elem_of_In|simpl; by apply bool_decide_eq_true]
      | unfold to_backend in Hc; destruct (canonical_db_backend (py_str v)) as [b|] eqn:Eb; [|done]; injection Hc as <-; split;
          [rewrite dict_get_set_ne by done; assumption..|];
          rewrite dict_get_set_eq; exists b; split; [done|by apply canonical_is_a_backend in Eb] ]|]).
  by apply not_elem_of_nil in Hin.
Qed.
Lemma settings_nodup : NoDup (map fst settings).
Proof. by apply (bool_decide_unpack _). Qed.
Lemma configure_from_again l args cfg cfg' :
  configure_from l args cfg = (Ok (), cfg') → ∀ c, is_ok (configure_from l args c).1 = true.
Proof.
  revert cfg. induction l as [|[name conv] l IH]; intros cfg; simpl; [done|]. destruct (passed args name) as [v|]; [|eauto].
  destruct (conv v); [|done]. eauto.
Qed.
End sound.

Lemma configure_keeps_sound `{PyEnv} args cfg : config_ok cfg → config_ok (configure args cfg).2.
Proof.
  intros Hok. unfold configure.
  assert (∀ l, l ⊆ settings → ∀ cfg, config_ok cfg → config_ok (configure_from l args cfg).2) as Hl; [|by apply Hl].
  clear cfg Hok. induction l as [|[name conv] l IH]; intros Hsub cfg Hok; simpl; [done|].
  assert (l ⊆ settings) as Hsub' by (intros x Hx; apply Hsub; by right).
  destruct (passed args name) as [v|]; [|auto]. destruct (conv v) as [v'|x] eqn:Ec; [|done]. apply IH; [done|].
  eapply setting_keeps_sound; [|exact Ec|done]. apply Hsub. left.
Qed.
(** The attributes [config_ok] does not speak of *)
Lemma set_keeps_sound name v cfg :
  name ∉ ["cpu_worker_threads"; "download_max_concurrent"; "ingest_queues"; "db_backend"] →
  config_ok cfg → config_ok (dict_set name v cfg).
Proof. intros Hn [Ht Hd Hq Hb]. split; (rewrite dict_get_set_ne by set_solver; assumption). Qed.
Lemma host_step_keeps_sound `{PyEnv} cfg c : config_ok cfg → config_ok (host_step cfg c).
Proof.
  intros Hok. destruct c; simpl; [by apply configure_keeps_sound|..];
    unfold set_node_module_package, set_node_resolver, set_builtin_model_registrar, set_workflow_provider, set_invoke_context,
      set_llm_servers_available, set_vllm_lifecycle, set_llm_context_lever, set_inference_server_lifecycle, set_comfyui_lifecycle,
      set_gpu_lease_store, set_llm_server_resolver, register_ingest_task, set_ingest_schedule;
    repeat case_match; simplify_eq/=; repeat (apply set_keeps_sound; [by apply (bool_decide_unpack _)|]); done.
Qed.
Lemma new_config_sound `{WorkerEnv} cfg : EngineConfig = Ok cfg → config_ok cfg.
Proof.
  unfold EngineConfig. cbv zeta. destruct _default_db_backend as [b|] eqn:Eb; [|done]. simpl.
  destruct _default_broadcast_hw_stats; [|done]. simpl. destruct _default_hw_broadcast_port; [|done]. simpl.
  injection 1 as <-. split; [by exists 1|by exists 1| |].
  - exists [JStr "fetch"; JStr "load"]. split; [done|].
    intros q [[= ->]|[[= ->]|[]%not_elem_of_nil]%elem_of_cons]%elem_of_cons; by apply (bool_decide_unpack _).
  - exists b. split; [done|]. unfold _default_db_backend in Eb.
    destruct (dict_get _ os_environ) as [raw|]; [destruct (PyStr.truthy raw)|]; [by apply canonical_is_a_backend in Eb|..];
      injection Eb as <-; left.
Qed.

(** No call can unsettle the engine.  Whatever environment the process starts in, when
    the object of the settings is constructed at all, and whatever a host then calls, in any
    order (the calls [configure] refuses half-way included), the cpu lane keeps at least one
    thread and the download lane one slot, no ingest queue has the name of a DAG queue, and
    the backend is one of the two the engine has. *)
Lemma settings_stay_sound `{PyEnv} `{WorkerEnv} (calls : list host_call) cfg (Hnew : EngineConfig = Ok cfg) :
  config_ok (foldl host_step cfg calls).
Proof.
  apply new_config_sound in Hnew. revert cfg Hnew. induction calls as [|c calls IH]; intros cfg Hok; [done|].
  simpl. apply IH. by apply host_step_keeps_sound.
Qed.

(** A call that returns sets exactly what it was passed, converted, and a second one with the
    same arguments returns and changes nothing. *)
Lemma configure_sets_what_it_was_passed `{PyEnv} args cfg cfg' :
  configure args cfg = (Ok (), cfg') →
  (∀ k, passed args k = None → dict_get k cfg' = dict_get k cfg) ∧
  (∀ k conv v v', (k, conv) ∈ settings → passed args k = Some v → conv v = Ok v' → dict_get k cfg' = Some v') ∧
  ∃ cfg'', configure args cfg' = (Ok (), cfg'') ∧ ∀ k, dict_get k cfg'' = dict_get k cfg'.
Proof.
  unfold configure. intros E. pose proof (λ k, configure_from_get settings args cfg k settings_nodup) as Hget.
  assert (∀ k conv, (k, conv) ∈ settings → list_to_map (M := gmap string (json → result json)) settings !! k = Some conv) as Hmap
    by (intros k conv Hk; by apply elem_of_list_to_map; [apply settings_nodup|]).
  assert (∀ k, passed args k = None → dict_get k cfg' = dict_get k cfg) as H1.
  { intros k Hk. specialize (Hget k). rewrite E, Hk in Hget. rewrite Hget. by destruct (_ !! k). }
  assert (∀ k conv v v', (k, conv) ∈ settings → passed args k = Some v → conv v = Ok v' → dict_get k cfg' = Some v') as H2.
  { intros k conv v v' Hk Hv Hc. specialize (Hget k). by rewrite E, (Hmap k conv Hk), Hv, Hc in Hget. }
  split_and!; [done|done|].
  pose proof (configure_from_again settings args cfg cfg' E cfg') as Hok.
  destruct (configure_from settings args cfg') as [[[]|x] cfg''] eqn:E2; [|done]. exists cfg''. split; [done|].
  intros k. pose proof (configure_from_get settings args cfg' k settings_nodup) as H3. rewrite E2 in H3. rewrite H3.
  specialize (Hget k). rewrite E in Hget.
  destruct (list_to_map settings !! k) as [conv|]; [|done]. destruct (passed args k) as [v|]; [|done].
  destruct (conv v); [by rewrite Hget|done].
Qed.

(** * Where the settings and their documentation part *)

(** Host nodes are documented to win always; a host module that fails on one of its own
    imports is silently replaced by the built-in of its name. *)
Lemma broken_host_node_is_replaced import_module :
  import_module "nodes.comfyui" = BrokenImport →
  import_module "queue_workflows.builtin_nodes.comfyui" = Module "builtin" →
  resolve_node_module None "nodes" import_module "comfyui" = Ok "builtin"%string.
Proof.
  intros E1 E2. unfold resolve_node_module. cbv zeta.
  change (if PyStr.truthy "nodes" then _ else _) with "nodes.comfyui"%string. rewrite E1.
  rewrite bool_decide_true by left.
  change ("queue_workflows.builtin_nodes." +:+ "comfyui") with "queue_workflows.builtin_nodes.comfyui"%string. by rewrite E2.
Qed.

(** Every other host module that cannot be imported fails, and a wired resolver is alone. *)
Lemma host_resolver_is_alone f pkg import_module m : resolve_node_module (Some f) pkg import_module m = f m.
Proof. done. Qed.
Lemma missing_module_fails pkg import_module m :
  m ∉ BUILTIN_POOL_NODE_MODULES → (∀ d, import_module d = NoSuchModule) →
  resolve_node_module None pkg import_module m = Raise ImportError.
Proof. intros Hm Hi. unfold resolve_node_module. by rewrite Hi, bool_decide_false by done. Qed.

(** A refused call is half applied: what comes before the refused argument is set. *)
Lemma refused_configure_is_half_applied `{PyEnv} cfg :
  let r := configure [("ingest_queues", JArr [JStr "cpu"]); ("project", JStr "p2")] cfg in
  is_ok r.1 = false ∧ dict_get "project" r.2 = Some (JStr "p2").
Proof. cbv zeta. unfold configure. simpl. split; [done|]. apply dict_get_set_eq. Qed.

Module ConfigDemo.
Definition env : WorkerEnv := {|
  os_environ := [("QUEUE_WORKFLOWS_DB_BACKEND", " Postgres"); ("QUEUE_WORKFLOWS_HW_BROADCAST_PORT", "x")];
  config_cpu_worker_threads := JNull; config_gpu_box_max_concurrent := JNull |}.
End ConfigDemo.

Lemma settings_stay_sound_witness :
  ∃ cfg, @EngineConfig ConfigDemo.env = Ok cfg ∧ dict_get "db_backend" cfg = Some (JStr "pg") ∧
    config_ok (foldl (@host_step Demo.py) cfg
      [Configure [("cpu_worker_threads", JInt 0); ("db_backend", JStr "SQLite")]; SetLlmServersAvailable (JArr [JStr "vllm"]);
       Configure [("ingest_queues", JArr [JStr "gpu"])]; RegisterIngestTask "nightly" (JStr "f")]).
Proof.
  eexists. split; [vm_compute; reflexivity|]. split; [reflexivity|].
  apply (@settings_stay_sound Demo.py ConfigDemo.env). vm_compute. reflexivity.
Defined.
