(* ===== verification/NodeCall.v ===== *)
(** * The call of a node body and the thumbnail of a run ([queue_workflows/node_executor.py])

    How the resolved inputs of a job become the keyword arguments of the host's [run]
    function, what its result counts as, and the picture of a run: which file is taken, how
    it is cut, and which row of [workflow_run_files] is the primary one.  Importing a module,
    the body, the file system and the image library are arguments; the sizes of a picture
    are computed in binary64, as Python does. *)

From Stdlib Require Import Floats.SpecFloat.
From S2P Require Import Prelude Json PyText Refs Schema NodeQueue Claim Workflow Dispatcher InputSpec Config.
Local Open Scope Z_scope.

(** ** Signatures *)

Inductive parameter_kind := POSITIONAL_ONLY | POSITIONAL_OR_KEYWORD | VAR_POSITIONAL | KEYWORD_ONLY | VAR_KEYWORD.
#[export] Instance parameter_kind_eq_dec : EqDecision parameter_kind.
Proof. solve_decision. Defined.
(** An annotation, as far as it is looked at: [Path], or another type with its [__args__] *)
Inductive annotation := PathType | OtherType (args : list annotation).
Definition is_path_type (a : annotation) : bool := match a with PathType => true | OtherType _ => false end.
Record parameter := mkParam {
  p_name : string;
  p_kind : parameter_kind;
  p_default : bool;
  p_annotation : annotation;
}.

Section invoke.
(** Handles, events, callbacks and servers *)
Context {obj : Type}.

(** What a body can be handed *)
Inductive value := Json (v : json) | PathOf (p : string) | Obj (o : option obj) | Inputs (d : dict) | Out (p : option string) | Seconds (s : option Z).
Definition kwargs := list (string * value).
(** The [run] of a module: its parameters, [typing.get_type_hints] of it, its body *)
Record node_fn := mkFn {
  fn_parameters : list parameter;
  fn_hints : result (list (string * annotation));
  fn_body : kwargs → result json;
}.
(** What the engine offers a body besides the inputs of the job *)
Record offer := mkOffer {
  o_out : option string;
  o_handle : option obj;
  o_cancel_event : option obj;
  o_model_load_seconds : option Z;
  o_status_callback : option obj;
  o_llm_server : option obj;
}.

Definition is_variadic (p : parameter) : bool :=
  match p_kind p with VAR_POSITIONAL | VAR_KEYWORD => true | _ => false end.
(** The names the engine itself fills *)
Definition engine_value (o : offer) (inputs : dict) (name : string) : option value :=
  if String.eqb name "out" then Some (Out (o_out o))
  else if String.eqb name "model_handle" then Some (Obj (o_handle o))
  else if String.eqb name "llm_server" then Some (Obj (o_llm_server o))
  else if String.eqb name "status_callback" then Some (Obj (o_status_callback o))
  else if String.eqb name "cancel_event" then Some (Obj (o_cancel_event o))
  else if String.eqb name "model_load_seconds" then Some (Seconds (o_model_load_seconds o))
  else if String.eqb name "inputs" then Some (Inputs inputs)
  else None.
(** [Path in (ann,) + ann.__args__] *)
Definition wants_path (a : annotation) : bool :=
  existsb is_path_type (a :: match a with PathType => [] | OtherType args => args end).
Definition coerced (a : annotation) (v : json) : value :=
  match v with JStr s => if wants_path a then PathOf (PyPath.posix (PyPath.root_of s) (PyPath.parts s)) else Json v | _ => Json v end.
Definition argument_of (hints : list (string * annotation)) (o : offer) (inputs : dict) (p : parameter) : option value :=
  if is_variadic p then None
  else match engine_value o inputs (p_name p) with
       | Some v => Some v
       | None =>
           match dict_get (p_name p) inputs with
           | None => None
           | Some JNull => if p_default p then None else Some (Json JNull)
           | Some v => Some (coerced (default (p_annotation p) (dict_get (p_name p) hints)) v)
           end
       end.
Fixpoint arguments_of (hints : list (string * annotation)) (o : offer) (inputs : dict) (ps : list parameter) : kwargs :=
  match ps with
  | [] => []
  | p :: r => match argument_of hints o inputs p with
              | Some v => (p_name p, v) :: arguments_of hints o inputs r
              | None => arguments_of hints o inputs r
              end
  end.

(** [run( **kwargs)]: what the interpreter refuses before the body is entered *)
Definition takes_keywords (f : node_fn) : bool := existsb (λ p, bool_decide (p_kind p = VAR_KEYWORD)) (fn_parameters f).
Definition refused_keyword (f : node_fn) (kw : kwargs) (p : parameter) : bool :=
  bool_decide (p_kind p = POSITIONAL_ONLY) && dict_has (p_name p) kw && negb (takes_keywords f).
Definition missing (kw : kwargs) (p : parameter) : bool :=
  negb (is_variadic p) && negb (p_default p) &&
  (bool_decide (p_kind p = POSITIONAL_ONLY) || negb (dict_has (p_name p) kw)).
Definition call (f : node_fn) (kw : kwargs) : result json :=
  if existsb (λ p, refused_keyword f kw p || missing kw p) (fn_parameters f) then Raise (TypeError "run") else fn_body f kw.

Definition as_result (r : json) : dict :=
  match r with
  | JObj d => if dict_has "context_delta" d then d else [("context_delta", JObj d)]
  | _ => [("context_delta", JObj [])]
  end.
(** [resolve]: [get_config().resolve_node_module]; [run_of]: [getattr(mod, "run")] and its
    signature *)
Definition _invoke (resolve : string → result string) (run_of : string → result node_fn) (module_name : string)
    (inputs : dict) (o : offer) : result dict :=
  mod_ ← resolve module_name;
  f ← run_of mod_;
  let hints := match fn_hints f with Ok h => h | Raise _ => [] end in
  r ← call f (arguments_of hints o inputs (fn_parameters f));
  Ok (as_result r).
End invoke.
Arguments value : clear implicits.
Arguments kwargs : clear implicits.
Arguments node_fn : clear implicits.
Arguments offer : clear implicits.

(** The directory of a node, made on the way; [mkdir] may fail *)
Definition _out_dir_for (mkdir : string → result ()) (node_id : string) (out_dir : option string) : result (option string) :=
  match out_dir with
  | Some base => if PyStr.truthy base
                 then let p := PyPath.join base node_id in _ ← mkdir p; Ok (Some p)
                 else Ok None
  | None => Ok None
  end.

(** The resident memory of the process, off the lines of its status file (None when it cannot
    be read) *)
Fixpoint rss_line (lines : list string) : option Z :=
  match lines with
  | [] => None
  | line :: r =>
      if PyStr.startswith "VmRSS:" line
      then match Txt.words line with _ :: n :: _ => (λ kb, kb / 1024) <$> PyStr.int n | _ => None end
      else rss_line r
  end.
Definition _rss_mb (status : option (list string)) : option Z := status ≫= rss_line.

(** ** The picture of a run *)

Definition _THUMB_REL_PATH : string := "thumb.jpg".
Definition _THUMB_PX : Z := 100.
Definition _THUMB_IMAGE_SUFFIXES : list string := [".png"; ".jpg"; ".jpeg"; ".webp"].

(** *** binary64 *)

Definition b64_of_Z (z : Z) : spec_float := binary_normalize 53 1024 z 0 false.
(** The quotient of two integers below 2^53, rounded once *)
Definition b64_quot (a b : Z) : spec_float := SFdiv 53 1024 (b64_of_Z a) (b64_of_Z b).
Definition b64_mul (a : Z) (x : spec_float) : spec_float := SFmul 53 1024 (b64_of_Z a) x.
Definition b64_max (x y : spec_float) : spec_float := if SFltb x y then y else x.
(** [int(x)]: None is the exception of an infinity or a NaN *)
Definition b64_trunc (x : spec_float) : option Z :=
  match x with
  | S754_zero _ => Some 0
  | S754_finite s m e =>
      let n := if 0 <=? e then Zpos m * 2 ^ e else Zpos m / 2 ^ (- e) in
      Some (if s then - n else n)
  | S754_infinity _ | S754_nan => None
  end.

(** The size a picture is brought to and the corner it is cut at *)
Record cut := mkCut { cut_width : Z; cut_height : Z; cut_left : Z; cut_top : Z }.
Definition geometry (w h : Z) : result cut :=
  if (w =? 0) || (h =? 0) then Raise (OtherError "ZeroDivisionError")
  else
    let scale := b64_max (b64_quot _THUMB_PX w) (b64_quot _THUMB_PX h) in
    match b64_trunc (b64_mul w scale), b64_trunc (b64_mul h scale) with
    | Some sw, Some sh =>
        let nw := Z.max _THUMB_PX sw in
        let nh := Z.max _THUMB_PX sh in
        Ok (mkCut nw nh ((nw - _THUMB_PX) / 2) ((nh - _THUMB_PX) / 2))
    | _, _ => Raise (ValueError "int")
    end.

(** *** The rows *)

Record run_file := mkFile {
  rf_id : Z;
  rf_run : string;
  rf_step : string;
  rf_path : string;
  rf_kind : string;
  rf_size : Z;
  rf_primary : bool;
  rf_created : Z;
}.
Definition is_file (run_id rel_path : string) (f : run_file) : bool := String.eqb (rf_run f) run_id && String.eqb (rf_path f) rel_path.
Definition demote (f : run_file) : run_file :=
  mkFile (rf_id f) (rf_run f) (rf_step f) (rf_path f) (rf_kind f) (rf_size f) false (rf_created f).
Definition promote (step : string) (size : Z) (f : run_file) : run_file :=
  mkFile (rf_id f) (rf_run f) step (rf_path f) (rf_kind f) size true (rf_created f).
(** The two statements of the block; [id] is the next of the sequence, [now] the instant of
    the transaction *)
Definition demote_others (run_id : string) (t : list run_file) : list run_file :=
  update_where (λ f, String.eqb (rf_run f) run_id && negb (String.eqb (rf_path f) _THUMB_REL_PATH)) demote t.
Definition upsert_thumb (id now : Z) (run_id step_id : string) (size : Z) (t : list run_file) : list run_file :=
  if exists_row (is_file run_id _THUMB_REL_PATH) t
  then update_where (is_file run_id _THUMB_REL_PATH) (promote step_id size) t
  else t ++ [mkFile id run_id step_id _THUMB_REL_PATH "image" size true now].
Definition flip_primary (id now : Z) (run_id step_id : string) (size : Z) (t : list run_file) : list run_file :=
  upsert_thumb id now run_id step_id size (demote_others run_id t).

(** *** The file that is taken *)

(** What the machine answers: whether a path exists, the size of the picture it opens to,
    the save, the replace, the size of the file, and the database *)
Record thumb_env := mkThumbEnv {
  te_exists : string → result bool;
  te_open : string → result (Z * Z);
  te_save : result ();
  te_replace : result ();
  te_stat : result Z;
  te_db : result ();
  te_id : Z;
  te_now : Z;
}.
(** The changes it makes to the disk *)
Inductive disk_op := Saved (path : string) (c : cut) | Replaced (src dst : string).

Definition candidates (out_dir step_id primary : string) : list string :=
  [PyPath.join (PyPath.join out_dir step_id) primary; PyPath.join out_dir primary]
  ++ (if PyPath.absolute primary then [PyPath.posix (PyPath.root_of primary) (PyPath.parts primary)] else []).
Fixpoint first_existing (exists_ : string → result bool) (l : list string) : result (option string) :=
  match l with
  | [] => Ok None
  | c :: r => b ← exists_ c; if (b : bool) then Ok (Some c) else first_existing exists_ r
  end.
(** The file of a node's [primary_file], when there is one to take *)
Definition picture_of (e : thumb_env) (step_id : string) (out_dir : option string) (context_delta : dict) : result (option (string * string)) :=
  match dict_get "primary_file" context_delta, out_dir with
  | Some v, Some dir =>
      if negb (truthy v) || negb (PyStr.truthy dir) then Ok None
      else match v with
           | JStr primary =>
               src ← first_existing (te_exists e) (candidates dir step_id primary);
               Ok (match (src : option string) with
                   | Some s => if bool_decide (PyStr.lower (PyPath.suffix s) ∈ _THUMB_IMAGE_SUFFIXES) then Some (s, dir) else None
                   | None => None
                   end)
           | _ => Raise (TypeError "Path")
           end
  | _, _ => Ok None
  end.
(** The body of the [try]: what it raises, what it did to the disk, the rows *)
Definition thumbnail_body (e : thumb_env) (run_id step_id : string) (out_dir : option string) (context_delta : dict)
    (t : list run_file) : result () * list disk_op * list run_file :=
  match picture_of e step_id out_dir context_delta with
  | Raise x => (Raise x, [], t)
  | Ok None => (Ok (), [], t)
  | Ok (Some (src, dir)) =>
      let thumb := PyPath.join dir _THUMB_REL_PATH in
      let tmp := thumb +:+ ".tmp" in
      match (size ← te_open e src; geometry size.1 size.2) with
      | Raise x => (Raise x, [], t)
      | Ok c =>
          match te_save e with
          | Raise x => (Raise x, [], t)
          | Ok _ =>
              match te_replace e with
              | Raise x => (Raise x, [Saved tmp c], t)
              | Ok _ =>
                  let done_ := [Saved tmp c; Replaced tmp thumb] in
                  match te_stat e with
                  | Raise x => (Raise x, done_, t)
                  | Ok size => match te_db e with
                               | Raise x => (Raise x, done_, t)
                               | Ok _ => (Ok (), done_, flip_primary (te_id e) (te_now e) run_id step_id size t)
                               end
                  end
              end
          end
      end
  end.
(** Every exception is logged and dropped. *)
Definition _update_run_thumbnail (e : thumb_env) (run_id step_id : string) (out_dir : option string) (context_delta : dict)
    (t : list run_file) : list disk_op * list run_file :=
  let '(_, ops, t') := thumbnail_body e run_id step_id out_dir context_delta t in (ops, t').

(** * Lemmas *)

Lemma existsb_ext_on {A} (p q : A → bool) l : (∀ x, x ∈ l → p x = q x) → existsb p l = existsb q l.
Proof. induction l as [|x l IH]; intros Hl; [done|]. simpl. rewrite Hl by left. f_equal. apply IH. intros y Hy. apply Hl. by right. Qed.

Section binding.
Context {obj : Type}.
Implicit Types (o : offer obj) (kw : kwargs obj) (f : node_fn obj).

Lemma arguments_keys hints o inputs ps k : dict_has k (arguments_of hints o inputs ps) = true → k ∈ map p_name ps.
Proof.
  induction ps as [|p ps IH]; simpl; [done|]. destruct (argument_of hints o inputs p); [|by right; apply IH].
  unfold dict_has in *; simpl. destruct (String.eqb_spec k (p_name p)) as [->|]; [left|right; by apply IH].
Qed.
Lemma arguments_get hints o inputs ps p :
  NoDup (map p_name ps) → p ∈ ps → dict_get (p_name p) (arguments_of hints o inputs ps) = argument_of hints o inputs p.
Proof.
  induction ps as [|q ps IH]; simpl; [by intros _ ?%not_elem_of_nil|]. intros [Hq Hn]%NoDup_cons [->|Hp]%elem_of_cons.
  - destruct (argument_of hints o inputs q); simpl; [by rewrite String.eqb_refl|].
    destruct (dict_get _ _) eqn:E; [|done]. exfalso. apply Hq, (arguments_keys hints o inputs). unfold dict_has. by rewrite E.
  - destruct (argument_of hints o inputs q); simpl; [|by apply IH].
    destruct (String.eqb_spec (p_name p) (p_name q)) as [E|]; [|by apply IH].
    exfalso. apply Hq. rewrite <- E. by apply list_elem_of_fmap_2.
Qed.

(** Whether the engine has something to pass for a parameter *)
Definition filled (inputs : dict) (p : parameter) : bool :=
  is_not_null (engine_value (mkOffer (obj := obj) None None None None None None) inputs (p_name p)) || dict_has (p_name p) inputs.
Lemma engine_value_shape o o' inputs name : is_not_null (engine_value o inputs name) = is_not_null (engine_value o' inputs name).
Proof. unfold engine_value. repeat case_match; done. Qed.
Lemma filled_required hints o inputs p :
  is_variadic p = false → p_default p = false → is_not_null (argument_of hints o inputs p) = filled inputs p.
Proof.
  intros Hv Hd. unfold argument_of, filled. rewrite Hv, Hd, (engine_value_shape _ o).
  destruct (engine_value o inputs (p_name p)); [done|]. unfold dict_has. by destruct (dict_get _ inputs) as [[]|].
Qed.
(** A body is refused exactly for a required parameter nobody fills. *)
Lemma call_refused hints o inputs f :
  NoDup (map p_name (fn_parameters f)) → Forall (λ p, p_kind p ≠ POSITIONAL_ONLY) (fn_parameters f) →
  let kw := arguments_of hints o inputs (fn_parameters f) in
  existsb (λ p, refused_keyword f kw p || missing kw p) (fn_parameters f) =
  existsb (λ p, negb (is_variadic p) && negb (p_default p) && negb (filled inputs p)) (fn_parameters f).
Proof.
  intros Hn Hk kw. apply existsb_ext_on. intros p Hp. rewrite Forall_forall in Hk. specialize (Hk p Hp).
  unfold refused_keyword, missing. rewrite !bool_decide_false by done. simpl.
  destruct (is_variadic p) eqn:Ev; [done|]. destruct (p_default p) eqn:Ed; [done|]. simpl.
  unfold dict_has at 1. unfold kw. by rewrite arguments_get, filled_required.
Qed.
Lemma as_result_has_delta r : dict_has "context_delta" (as_result r) = true.
Proof. unfold as_result. destruct r as [| | | | | |d]; try done. by destruct (dict_has "context_delta" d) eqn:E. Qed.
End binding.

(** A body is called by name.  For a module that can be imported, with a [run] whose
    parameters are not positional-only: when each required parameter is one the engine fills
    or an input of the job, the body is entered, and each of its parameters has exactly the
    value the engine has for it (its own offer for the names it reserves, else the input,
    made a path where the annotation says so, else, for a missing or null input, the
    body's default), and no other keyword is passed; a required parameter nobody fills is
    refused before the body runs.  What is returned always holds a context delta. *)
Lemma body_is_called_by_name {obj} resolve (run_of : string → result (node_fn obj)) m mod_ f inputs o
    (Hmod : resolve m = Ok mod_) (Hrun : run_of mod_ = Ok f) (Hn : NoDup (map p_name (fn_parameters f)))
    (Hk : Forall (λ p, p_kind p ≠ POSITIONAL_ONLY) (fn_parameters f)) :
  let hints := match fn_hints f with Ok h => h | Raise _ => [] end in
  let required p := negb (is_variadic p) && negb (p_default p) in
  (if existsb (λ p, required p && negb (filled (obj := obj) inputs p)) (fn_parameters f)
   then _invoke resolve run_of m inputs o = Raise (TypeError "run")
   else ∃ kw, _invoke resolve run_of m inputs o = as_result <$> fn_body f kw ∧
        (∀ p, p ∈ fn_parameters f → dict_get (p_name p) kw = argument_of hints o inputs p) ∧
        (∀ k, dict_has k kw = true → k ∈ map p_name (fn_parameters f))) ∧
  ∀ r, _invoke resolve run_of m inputs o = Ok r → dict_has "context_delta" r = true.
Proof.
  intros hints required. unfold _invoke. rewrite Hmod. simpl. rewrite Hrun. simpl. fold hints. split.
  - unfold call. rewrite (call_refused hints o inputs f Hn Hk). unfold required.
    destruct (existsb _ _); [done|]. eexists. split; [reflexivity|]. split.
    + intros p Hp. by apply arguments_get.
    + intros k Hk'. by eapply arguments_keys.
  - intros r. destruct (call f _); [|done]. simpl. injection 1 as <-. apply as_result_has_delta.
Qed.

(** ** The picture *)

Lemma geometry_inside w h c : geometry w h = Ok c →
  0 ≤ cut_left c ∧ cut_left c + _THUMB_PX ≤ cut_width c ∧ 0 ≤ cut_top c ∧ cut_top c + _THUMB_PX ≤ cut_height c ∧
  Z.abs (cut_width c - _THUMB_PX - 2 * cut_left c) ≤ 1 ∧ Z.abs (cut_height c - _THUMB_PX - 2 * cut_top c) ≤ 1.
Proof.
  unfold geometry. destruct (_ || _); [done|]. destruct (b64_trunc _) as [sw|]; [|done]. destruct (b64_trunc _) as [sh|]; [|done].
  injection 1 as <-. simpl. unfold _THUMB_PX.
  pose proof (Z.div_mod (Z.max 100 sw - 100) 2 ltac:(lia)). pose proof (Z.mod_pos_bound (Z.max 100 sw - 100) 2 ltac:(lia)).
  pose proof (Z.div_mod (Z.max 100 sh - 100) 2 ltac:(lia)). pose proof (Z.mod_pos_bound (Z.max 100 sh - 100) 2 ltac:(lia)). lia.
Qed.

Definition file_key (f : run_file) : string * string := (rf_run f, rf_path f).
Lemma is_file_spec run_id path f : is_file run_id path f = true ↔ file_key f = (run_id, path).
Proof. unfold is_file, file_key. rewrite andb_true_iff, !String.eqb_eq. naive_solver. Qed.
Lemma flip_keys id now run_id step size t :
  NoDup (map file_key t) → NoDup (map file_key (flip_primary id now run_id step size t)).
Proof.
  intros Hn. unfold flip_primary, upsert_thumb, demote_others.
  match goal with |- context [update_where ?p demote t] => rewrite <- (update_where_map file_key p demote t) in Hn by done end.
  destruct (exists_row _ _) eqn:E; [by rewrite update_where_map|]. rewrite map_app, NoDup_app. split; [exact Hn|]. split; [|apply NoDup_singleton].
  intros k (f & -> & Hf)%list_elem_of_fmap. simpl. intros Hk%list_elem_of_singleton.
  apply (proj1 (exists_row_false _ _) E) in Hf. apply not_true_iff_false in Hf. apply Hf. by apply is_file_spec.
Qed.
Lemma flip_elem id now run_id step size t f :
  f ∈ flip_primary id now run_id step size t ↔
  (∃ f0, f0 ∈ t ∧ f = if String.eqb (rf_run f0) run_id
                      then if String.eqb (rf_path f0) _THUMB_REL_PATH then promote step size f0 else demote f0
                      else f0) ∨
  (exists_row (is_file run_id _THUMB_REL_PATH) t = false ∧ f = mkFile id run_id step _THUMB_REL_PATH "image" size true now).
Proof.
  assert (exists_row (is_file run_id _THUMB_REL_PATH) (demote_others run_id t) = exists_row (is_file run_id _THUMB_REL_PATH) t) as Hex.
  { unfold exists_row, demote_others, update_where. induction t as [|g t IH]; [done|]. simpl. rewrite IH. f_equal.
    destruct (_ && _); done. }
  unfold flip_primary, upsert_thumb. rewrite Hex. destruct (exists_row _ t) eqn:E.
  - rewrite elem_of_update_where. unfold demote_others. setoid_rewrite elem_of_update_where. split.
    + intros (r & (f0 & Hf & ->) & ->). left. exists f0. split; [done|]. unfold is_file.
      destruct (String.eqb (rf_run f0) run_id) eqn:E1, (String.eqb (rf_path f0) _THUMB_REL_PATH) eqn:E2; simpl; by rewrite ?E1, ?E2.
    + intros [(f0 & Hf & ->)|[? _]]; [|done]. eexists. split; [by exists f0|]. unfold is_file.
      destruct (String.eqb (rf_run f0) run_id) eqn:E1, (String.eqb (rf_path f0) _THUMB_REL_PATH) eqn:E2; simpl; by rewrite ?E1, ?E2.
  - rewrite elem_of_app, list_elem_of_singleton. unfold demote_others. rewrite elem_of_update_where.
    assert (∀ f0, f0 ∈ t → String.eqb (rf_run f0) run_id && String.eqb (rf_path f0) _THUMB_REL_PATH = false) as Hno
      by (intros f0; apply (proj1 (exists_row_false _ _) E)).
    split; [intros [(f0 & Hf & ->)| ->]; [left; exists f0; split; [done|]|by right]
           |intros [(f0 & Hf & ->)|[_ ->]]; [left; exists f0; split; [done|]|by right]];
      specialize (Hno f0 Hf); destruct (String.eqb (rf_run f0) run_id), (String.eqb (rf_path f0) _THUMB_REL_PATH); done.
Qed.

Lemma flip_others id now run_id step size t f :
  rf_run f ≠ run_id → f ∈ flip_primary id now run_id step size t ↔ f ∈ t.
Proof.
  intros Hne. rewrite flip_elem. split.
  - intros [(f0 & Hf & ->)|[_ ->]]; [|done]. destruct (String.eqb_spec (rf_run f0) run_id) as [E|]; [|done].
    by destruct (String.eqb _ _ : bool).
  - intros Hf. left. exists f. split; [done|]. by destruct (String.eqb_spec (rf_run f) run_id).
Qed.
Lemma flip_has_thumb id now run_id step size t :
  ∃ f, f ∈ flip_primary id now run_id step size t ∧ rf_run f = run_id ∧ rf_step f = step ∧ rf_path f = _THUMB_REL_PATH ∧ rf_size f = size.
Proof.
  destruct (exists_row (is_file run_id _THUMB_REL_PATH) t) eqn:E.
  - pose proof E as (g & Hg & [E1 E2]%andb_true_iff)%exists_row_true. exists (promote step size g).
    split; [|by apply String.eqb_eq in E1, E2]. apply flip_elem. left. exists g. by rewrite E1, E2.
  - eexists. split; [apply flip_elem; right; split; [exact E|reflexivity]|done].
Qed.
Lemma flip_primary_iff id now run_id step size t f :
  f ∈ flip_primary id now run_id step size t → rf_run f = run_id → rf_primary f = bool_decide (rf_path f = _THUMB_REL_PATH).
Proof.
  intros [(f0 & Hf & ->)|[_ ->]]%flip_elem; [|done].
  destruct (String.eqb_spec (rf_run f0) run_id) as [E|]; [|done]. intros _.
  destruct (String.eqb_spec (rf_path f0) _THUMB_REL_PATH); simpl; [by rewrite bool_decide_true|by rewrite bool_decide_false].
Qed.

(** A run has one picture, and it is whole.  Whatever the machine answers, the update of a
    run's thumbnail never raises and keeps the keys of the files unique; either no row
    changes, or, after the picture was cut and put in its place, the thumbnail is the one primary
    file of its run, from this step; the rows of other runs are untouched in both cases,
    and what is saved is always cut inside the resized picture, centred to a pixel. *)
Lemma run_has_one_picture e run_id step out_dir delta t (Hu : NoDup (map file_key t)) :
  let '(ops, t') := _update_run_thumbnail e run_id step out_dir delta t in
  NoDup (map file_key t') ∧
  (t' = t ∨
   (∃ tmp thumb c, ops = [Saved tmp c; Replaced tmp thumb]) ∧
   (∃ f, f ∈ t' ∧ rf_run f = run_id ∧ rf_step f = step ∧ rf_path f = _THUMB_REL_PATH ∧ te_stat e = Ok (rf_size f)) ∧
   (∀ f, f ∈ t' → rf_run f = run_id → rf_primary f = bool_decide (rf_path f = _THUMB_REL_PATH))) ∧
  (∀ f, rf_run f ≠ run_id → f ∈ t' ↔ f ∈ t) ∧
  (∀ path c, Saved path c ∈ ops → 0 ≤ cut_left c ∧ cut_left c + _THUMB_PX ≤ cut_width c ∧ 0 ≤ cut_top c ∧
     cut_top c + _THUMB_PX ≤ cut_height c ∧
     Z.abs (cut_width c - _THUMB_PX - 2 * cut_left c) ≤ 1 ∧ Z.abs (cut_height c - _THUMB_PX - 2 * cut_top c) ≤ 1).
Proof.
  unfold _update_run_thumbnail, thumbnail_body. destruct (picture_of e step out_dir delta) as [[[src dir]|]|x];
    [|split_and!; [done|by left|done|by intros ?? ?%not_elem_of_nil]..].
  destruct (size ← te_open e src; geometry size.1 size.2) as [c|x] eqn:Eg; [|split_and!; [done|by left|done|by intros ?? ?%not_elem_of_nil]].
  destruct (te_open e src) as [[w h]|]; [|done]. simpl in Eg. apply geometry_inside in Eg.
  destruct (te_save e); [|split_and!; [done|by left|done|by intros ?? ?%not_elem_of_nil]].
  destruct (te_replace e); [|split_and!; [done|by left|done|by intros ?? [= _ ->]%list_elem_of_singleton]].
  assert (∀ path tmp thumb (c' : cut), Saved path c' ∈ [Saved tmp c; Replaced tmp thumb] → c' = c) as Hin
    by (intros ???? [[= _ ->]|[=]%list_elem_of_singleton]%elem_of_cons; done).
  destruct (te_stat e) as [size|]; [|split_and!; [done|by left|done|by intros ?? ->%Hin]].
  destruct (te_db e); [|split_and!; [done|by left|done|by intros ?? ->%Hin]].
  split_and!; [by apply flip_keys| |by apply flip_others|by intros ?? ->%Hin].
  right. split_and!; [eauto| |].
  - destruct (flip_has_thumb (te_id e) (te_now e) run_id step size t) as (f & ? & ? & ? & ? & <-). by exists f.
  - intros f Hf Hr. by eapply flip_primary_iff.
Qed.

(** * Witnesses *)

Module CallDemo.
Definition fn : node_fn nat := {|
  fn_parameters := [mkParam "image" POSITIONAL_OR_KEYWORD false (OtherType []); mkParam "scale" KEYWORD_ONLY true (OtherType []);
                    mkParam "out" KEYWORD_ONLY false (OtherType []); mkParam "rest" VAR_KEYWORD false (OtherType [])];
  fn_hints := Ok [("image", OtherType [PathType; OtherType []])];
  fn_body kw := match dict_get "image" kw, dict_get "scale" kw with
                | Some (PathOf p), None => Ok (JObj [("image", JStr p)])
                | _, _ => Raise (ValueError "image")
                end |}.
Definition inputs : dict := [("image", JStr "/data//a.png"); ("scale", JNull); ("rest", JInt 1)].
Definition offered : offer nat := mkOffer (Some "/runs/r1/n1") None None None None None.
Definition env : thumb_env := {|
  te_exists p := Ok (String.eqb p "/runs/r1/n1/a.PNG"); te_open _ := Ok (1920, 1080);
  te_save := Ok (); te_replace := Ok (); te_stat := Ok 4096; te_db := Ok (); te_id := 3; te_now := 77 |}.
Definition files : list run_file :=
  [mkFile 1 "r1" "n0" "a.png" "image" 10 true 5; mkFile 2 "r2" "n0" "thumb.jpg" "image" 10 true 5].
End CallDemo.

Lemma body_is_called_by_name_witness :
  _invoke (λ m, Ok ("nodes." +:+ m)) (λ _, Ok CallDemo.fn) "smoke" CallDemo.inputs CallDemo.offered =
    Ok [("context_delta", JObj [("image", JStr "/data/a.png")])] ∧
  ∃ kw, _invoke (λ m, Ok ("nodes." +:+ m)) (λ _, Ok CallDemo.fn) "smoke" CallDemo.inputs CallDemo.offered =
        as_result <$> fn_body CallDemo.fn kw ∧ dict_get "image" kw = Some (PathOf "/data/a.png") ∧ dict_get "scale" kw = None.
Proof.
  split; [reflexivity|].
  destruct (body_is_called_by_name (λ m, Ok ("nodes." +:+ m)) (λ _, Ok CallDemo.fn) "smoke" "nodes.smoke" CallDemo.fn CallDemo.inputs
              CallDemo.offered) as [(kw & E & Hget & _) _];
    [reflexivity|reflexivity|by apply (bool_decide_unpack _)|by repeat constructor|].
  exists kw. split; [exact E|]. split.
  - refine (Hget (mkParam "image" POSITIONAL_OR_KEYWORD false (OtherType [])) _). left.
  - refine (Hget (mkParam "scale" KEYWORD_ONLY true (OtherType [])) _). right. left.
Defined.

Lemma run_has_one_picture_witness :
  let r := _update_run_thumbnail CallDemo.env "r1" "n1" (Some "/runs/r1") [("primary_file", JStr "a.PNG")] CallDemo.files in
  r.1 = [Saved "/runs/r1/thumb.jpg.tmp" (mkCut 177 100 38 0); Replaced "/runs/r1/thumb.jpg.tmp" "/runs/r1/thumb.jpg"] ∧
  map rf_primary r.2 = [false; true; true] ∧ NoDup (map file_key r.2).
Proof.
  intros r. split; [vm_compute; reflexivity|]. split; [vm_compute; reflexivity|].
  assert (NoDup (map file_key CallDemo.files)) as Hu by by apply (bool_decide_unpack _).
  pose proof (run_has_one_picture CallDemo.env "r1" "n1" (Some "/runs/r1") [("primary_file", JStr "a.PNG")] CallDemo.files Hu) as H.
  fold r in H. clearbody r. destruct r as [ops t']. exact (proj1 H).
Defined.
