(* ===== verification/NodePool.v ===== *)
(** * The orchestrator ([queue_workflows/node_pool.py])

    The drain of the dispatch-event outbox with its retries and poison cap, and
    the tick: run expansion, the drain and the interval-gated sweeps.  The
    sweeps of the container runtime and of the hardware recorder, which touch
    none of the queue's tables, are left out. *)

From S2P Require Import Prelude.
From S2P Require Import Json.
From S2P Require Import Refs.
From S2P Require Import Schema.
From S2P Require Import NodeQueue.
From S2P Require Import Claim.
From S2P Require Import Reclaim.
From S2P Require Import RunStore.
From S2P Require Import Workflow.
From S2P Require Import Dispatcher.
From S2P Require Import InputSpec.
From S2P Require Import Ingest.
From S2P Require Import Assign.
Local Open Scope string_scope.
Local Open Scope list_scope.
Local Open Scope Z_scope.

Definition _DISPATCH_MAX_ATTEMPTS : Z := 10.

(** The configuration of the pool: the sweep intervals and thresholds, in
    microseconds, and its switches; the text of an exception, and the [repr] of a
    string. *)
Class PoolConfig := {
  reclaim_interval : Z;
  ingest_reclaim_interval : Z;
  dead_worker_interval : Z;
  node_event_prune_interval : Z;
  node_event_retention_days : Z;
  orphan_cancel_interval : Z;
  cancel_orphan_queued_jobs : bool;
  frozen_lease_after : Z;
  frozen_lease_interval : Z;
  stuck_run_interval : Z;
  over_claim_disabled : bool;
  over_claim_interval : Z;
  unassignable_interval : Z;
  pool_exc_text : exc → string;
  repr_str : string → string;
}.

(** The pool's own state: when each sweep last ran, and the frozen-lease sample. *)
Record pool := mkPool {
  reclaim_last_run : Z;
  ingest_reclaim_last_run : Z;
  dead_worker_last_run : Z;
  node_event_prune_last_run : Z;
  orphan_cancel_last_run : Z;
  frozen_lease_last_run : Z;
  frozen_lease_sample : sample;
  stuck_run_last_run : Z;
  over_claim_last_run : Z;
  unassignable_last_run : Z;
}.

(** Field updates *)
Definition set_reclaim_last_run (v : Z) (r : pool) : pool :=
  let '(mkPool _ x1 x2 x3 x4 x5 x6 x7 x8 x9) := r in mkPool v x1 x2 x3 x4 x5 x6 x7 x8 x9.
Definition set_ingest_reclaim_last_run (v : Z) (r : pool) : pool :=
  let '(mkPool x0 _ x2 x3 x4 x5 x6 x7 x8 x9) := r in mkPool x0 v x2 x3 x4 x5 x6 x7 x8 x9.
Definition set_dead_worker_last_run (v : Z) (r : pool) : pool :=
  let '(mkPool x0 x1 _ x3 x4 x5 x6 x7 x8 x9) := r in mkPool x0 x1 v x3 x4 x5 x6 x7 x8 x9.
Definition set_node_event_prune_last_run (v : Z) (r : pool) : pool :=
  let '(mkPool x0 x1 x2 _ x4 x5 x6 x7 x8 x9) := r in mkPool x0 x1 x2 v x4 x5 x6 x7 x8 x9.
Definition set_orphan_cancel_last_run (v : Z) (r : pool) : pool :=
  let '(mkPool x0 x1 x2 x3 _ x5 x6 x7 x8 x9) := r in mkPool x0 x1 x2 x3 v x5 x6 x7 x8 x9.
Definition set_frozen_lease_last_run (v : Z) (r : pool) : pool :=
  let '(mkPool x0 x1 x2 x3 x4 _ x6 x7 x8 x9) := r in mkPool x0 x1 x2 x3 x4 v x6 x7 x8 x9.
Definition set_frozen_lease_sample (v : sample) (r : pool) : pool :=
  let '(mkPool x0 x1 x2 x3 x4 x5 _ x7 x8 x9) := r in mkPool x0 x1 x2 x3 x4 x5 v x7 x8 x9.
Definition set_stuck_run_last_run (v : Z) (r : pool) : pool :=
  let '(mkPool x0 x1 x2 x3 x4 x5 x6 _ x8 x9) := r in mkPool x0 x1 x2 x3 x4 x5 x6 v x8 x9.
Definition set_over_claim_last_run (v : Z) (r : pool) : pool :=
  let '(mkPool x0 x1 x2 x3 x4 x5 x6 x7 _ x9) := r in mkPool x0 x1 x2 x3 x4 x5 x6 x7 v x9.
Definition set_unassignable_last_run (v : Z) (r : pool) : pool :=
  let '(mkPool x0 x1 x2 x3 x4 x5 x6 x7 x8 _) := r in mkPool x0 x1 x2 x3 x4 x5 x6 x7 x8 v.

Section node_pool.
Context `{PyEnv} `{QueueConfig} `{DispatchConfig} `{SpecDisk} `{PoolConfig}.

(** ** [_drain_dispatch_events] *)

(** The unprocessed events of this tenant's runs, oldest first, at most 50 and
    none that another drainer holds. *)
Definition drainable (w : world) (locked : list Z) : list dispatch_event :=
  take 50 (sort_by (λ e, [ecreated_at e])
    (List.filter (λ e, unprocessed e &&
       exists_row (λ r, bool_decide (rid r = erun_id e) &&
                        String.eqb (rproject r) config_project) (runs w) &&
       negb (bool_decide (eid e ∈ locked))) (dispatch_events w))).

Definition callback (e : dispatch_event) : M () :=
  match kind e with
  | k_completed => _ ← on_node_completed (erun_id e) (enode_id e); mret ()
  | k_failed => on_node_failed (erun_id e) (enode_id e)
  | k_awaiting_input => on_node_awaiting_input (erun_id e) (enode_id e)
  end.

(** The poison branch: fail the run, unless it is terminal, and retire the
    event. *)
Definition kind_name (k : event_kind) : string :=
  match k with
  | k_completed => "completed"
  | k_failed => "failed"
  | k_awaiting_input => "awaiting_input"
  end.
Definition poison_text (e : dispatch_event) (err : string) : string :=
  "dispatch callback " +:+ repr_str (kind_name (kind e)) +:+ " for node " +:+
  repr_str (enode_id e) +:+ " failed after " +:+ pretty (attempts e + 1) +:+
  " attempts: " +:+ PyStr.take 500 err.
Definition ended (r : run) : bool :=
  bool_decide (rstatus r ∈ [r_completed; r_failed; r_cancelled]).
Definition poisoned (text : string) (now : Z) (r : run) : run :=
  r |> set_rstatus r_failed |> set_rfinished_at (Some now) |> set_rerror (Some text).
Definition poison_event (e : dispatch_event) (err : string) : M () :=
  _ ← update_run_where (erun_id e) (λ r, negb (ended r)) (poisoned (poison_text e err));
  mark_dispatch_event_processed (eid e).

Definition handle_event (e : dispatch_event) : M () := λ w,
  match callback e w with
  | (Ok _, w1) => mark_dispatch_event_processed (eid e) w1
  | (Raise x, w1) =>
      (_ ← record_dispatch_event_failure (eid e) (pool_exc_text x);
       if _DISPATCH_MAX_ATTEMPTS <=? attempts e + 1 then poison_event e (pool_exc_text x)
       else mret ()) w1
  end.

Definition _drain_dispatch_events (locked : list Z) : M () := λ w,
  forM (drainable w locked) handle_event w.

(** ** The sweeps

    A sweep runs when its interval has passed since its last run, [now] being
    the process clock. *)
Definition due (now last interval : Z) : bool := negb (now - last <? interval).

(** A step of the tick: it works on the pool's own state and on the database,
    and may raise; what it wrote to either before that stays. *)
Definition step : Type := pool → world → result () * pool * world.

(** [self._x_last_run = now] comes before the sweep's own work. *)
Definition gated {A} (now : Z) (last : pool → Z) (stamp : Z → pool → pool) (interval : Z)
    (body : M A) : step := λ p w,
  if due now (last p) interval then
    match body w with
    | (Ok _, w') => (Ok (), stamp now p, w')
    | (Raise e, w') => (Raise e, stamp now p, w')
    end
  else (Ok (), p, w).

Definition _sweep_expired_leases (now : Z) : step :=
  gated now reclaim_last_run set_reclaim_last_run reclaim_interval reclaim_expired_leases.
Definition _sweep_expired_ingest_leases (now : Z) : step :=
  gated now ingest_reclaim_last_run set_ingest_reclaim_last_run ingest_reclaim_interval
    reclaim_expired_ingest_leases.
Definition _sweep_dead_workers (now : Z) : step :=
  gated now dead_worker_last_run set_dead_worker_last_run dead_worker_interval
    (flag_stale_workers_holding_running_jobs None None).

(** The reclaim of the rows the detector returned: one that took is forgotten,
    one that raised is skipped. *)
Fixpoint reclaim_frozen (l : list (string * option Z)) (s : sample) (w : world) : sample * world :=
  match l with
  | [] => (s, w)
  | (job_id, lease) :: r =>
      match requeue_running_if_lease_frozen job_id lease w with
      | (Ok n, w') => reclaim_frozen r (if n =? 0 then s else delete job_id s) w'
      | (Raise _, w') => reclaim_frozen r s w'
      end
  end.
Definition _sweep_frozen_leases (now : Z) : step := λ p w,
  if due now (frozen_lease_last_run p) frozen_lease_interval then
    let p := set_frozen_lease_last_run now p in
    match running_lease_snapshot None w with
    | (Raise e, w') => (Raise e, p, w')
    | (Ok rows, w') =>
        let '(to_reclaim, s) := detect_frozen_leases (frozen_lease_sample p) rows now
                                  frozen_lease_after in
        let '(s', w'') := reclaim_frozen to_reclaim s w' in
        (Ok (), set_frozen_lease_sample s' p, w'')
    end
  else (Ok (), p, w).

Definition _sweep_over_claimed_boxes (now : Z) : step :=
  if over_claim_disabled then λ p w, (Ok (), p, w)
  else gated now over_claim_last_run set_over_claim_last_run over_claim_interval
         (reap_over_claimed_boxes "gpu").
Definition _sweep_node_event_retention (now : Z) : step :=
  gated now node_event_prune_last_run set_node_event_prune_last_run node_event_prune_interval
    (prune_node_events node_event_retention_days).
Definition _sweep_orphan_queued_jobs (now : Z) : step :=
  if negb cancel_orphan_queued_jobs then λ p w, (Ok (), p, w)
  else gated now orphan_cancel_last_run set_orphan_cancel_last_run orphan_cancel_interval
         (cancel_orphaned_queued_jobs None).

(** [try: m except Exception: log], for a loop body that must not stop it. *)
Definition guarded (m : M ()) : M () := try_except m (λ _, Some (mret ())).

Definition _sweep_stuck_runs (now : Z) : step :=
  gated now stuck_run_last_run set_stuck_run_last_run stuck_run_interval
    (ids ← list_stuck_node_run_ids None;
     forM ids (λ i, guarded (_ ← reconcile_run i; mret ()))).

(** One [unassignable] event per newly stamped row. *)
Definition capacity_event (now : Z) (j : node_job) : node_event :=
  mkNodeEvent (Schema.run_id j) (node_id j) (Some (jid j)) 0 "unassignable" None (Some "gpu")
    (required_model j) None (clip_error <$> unassignable_reason j) [] (_project None) now.
Definition stranded_event (now : Z) (j : node_job) : node_event :=
  mkNodeEvent (Schema.run_id j) (node_id j) (Some (jid j)) (watchdog_retries j) "unassignable"
    None None None None None [("reason", json_of_opt (unassignable_reason j))]
    (_project None) now.
Definition emit (event : Z → node_job → node_event) (sweep : M (list node_job)) : M () :=
  rows ← sweep;
  forM rows (λ (j : node_job) w, record_node_event (event (clock w) j) w).

Definition _sweep_unassignable_jobs (now : Z) : step :=
  gated now unassignable_last_run set_unassignable_last_run unassignable_interval
    (emit capacity_event (flag_unassignable_gpu_jobs None None)).
Definition sweep_server_stranded : M () :=
  emit stranded_event (flag_server_stranded_jobs None None).

(** ** [_tick] *)

Definition expand_queued_runs : M () :=
  ids ← list_queued_node_run_ids None 50;
  forM ids (λ i, guarded (_ ← start_run i; mret ())).

Definition on_world (m : M ()) : step := λ p w, let '(r, w') := m w in (r, p, w').

(** The parts of a tick, in order.  The expansion is not guarded as a whole; an
    exception of any other part is logged and the next part runs. *)
Definition parts_of_tick (locked : list Z) (now : Z) : list step :=
  [on_world (_drain_dispatch_events locked); _sweep_expired_leases now;
   _sweep_expired_ingest_leases now; _sweep_dead_workers now; _sweep_frozen_leases now;
   _sweep_over_claimed_boxes now; _sweep_node_event_retention now;
   _sweep_orphan_queued_jobs now; _sweep_stuck_runs now; _sweep_unassignable_jobs now;
   on_world sweep_server_stranded].
Fixpoint run_parts (l : list step) (p : pool) (w : world) : pool * world :=
  match l with
  | [] => (p, w)
  | s :: r => let '(_, p', w') := s p w in run_parts r p' w'
  end.
Definition _tick (locked : list Z) (now : Z) : step := λ p w,
  match expand_queued_runs w with
  | (Raise e, w') => (Raise e, p, w')
  | (Ok _, w') =>
      let '(p', w'') := run_parts (parts_of_tick locked now) p w' in (Ok (), p', w'')
  end.

(** ** [_await_recovery]

    The startup reclaim, retried on an exception; [stopped] tells whether
    [stop()] came during the backoff after an attempt. *)
Fixpoint await_recovery_loop (n attempt : nat) (stopped : nat → bool) (recover : M ()) : M () :=
  match n with
  | O => raise (RuntimeError "node pool refused to start")
  | S n' =>
      try_except recover (λ _, Some (
        if negb (bool_decide (n' = 0)%nat) && stopped attempt
        then raise (RuntimeError "node pool stopped during recovery backoff")
        else await_recovery_loop n' (S attempt) stopped recover))
  end.
Definition _await_recovery (max_attempts : nat) (stopped : nat → bool) : M () :=
  await_recovery_loop max_attempts 0 stopped (_ ← reclaim_expired_leases; mret ()).
End node_pool.

(** * Lemmas *)

Section pool_lemmas.
Context `{PyEnv} `{QueueConfig} `{DispatchConfig} `{SpecDisk} `{PoolConfig}.
Implicit Types (w : world) (e : dispatch_event).

(** What a dispatcher callback leaves alone, whatever it returns: the outbox,
    the clock, the set of runs, the runs that have ended (they stay so) and the
    schema constraints. *)
Record framed (w w' : world) : Prop := {
  fr_ok : db_ok w';
  fr_events : dispatch_events w' = dispatch_events w;
  fr_clock : clock w' = clock w;
  fr_runs : map rid (runs w') = map rid (runs w);
  fr_ended i r : run_of w i = Some r →
    ∃ r', run_of w' i = Some r' ∧ (ended r = true → ended r' = true);
}.

Lemma framed_refl w : db_ok w → framed w w.
Proof. split; eauto. Qed.
Lemma framed_trans w1 w2 w3 : framed w1 w2 → framed w2 w3 → framed w1 w3.
Proof.
  intros [A1 A2 A3 A4 A5] [B1 B2 B3 B4 B5]. split; [done|congruence..|].
  intros i r (r' & Hr' & He)%A5. apply B5 in Hr' as (r'' & Hr'' & He'). eauto.
Qed.

Lemma grows_framed run_id l w w' : grows run_id l w w' → framed w w'.
Proof.
  intros [A B C D _]. split; [done..|by rewrite B|].
  unfold run_of. rewrite B. eauto.
Qed.
Lemma framed_on_jobs p f w : db_ok w → framed w (on_jobs (update_where p (upd f)) w).
Proof. intros Hok. split; [by apply db_ok_update|destruct w; eauto..]. Qed.
Lemma framed_on_runs p f w :
  (∀ r, rid (f r) = rid r) → (∀ r, ended (f r) = true) → db_ok w →
  framed w (on_runs (update_where p f) w).
Proof.
  intros Hf He Hok. split; [by apply db_ok_on_runs|by destruct w..| |].
  - rewrite runs_on_runs. by apply update_where_map.
  - intros i r Hr. rewrite run_of_update, Hr by done. eexists. split; [done|].
    by destruct (p r).
Qed.
Lemma ended_finished s err now r :
  s = r_completed ∨ s = r_failed → ended (finished_run s err now r) = true.
Proof. by intros [-> | ->]; destruct r, err. Qed.

Lemma advance_run_framed run_id r w res w' :
  db_ok w → advance_run run_id r w = (res, w') → framed w w'.
Proof.
  intros Hok. unfold advance_run, lift, mbind, M_bind.
  destruct (_load_workflow _) as [wf|x]; [|intros [= <- <-]; by apply framed_refl].
  destruct (_process_ready run_id wf r w) as [res1 w1] eqn:Ep.
  assert (framed w w1) as Hf.
  { destruct (_nodes_of wf (out_dir r)) as [nodes|x] eqn:En.
    - eapply process_ready_spec in Ep as (l & Hx & _); [|done..]. eapply grows_framed, Hx.
    - unfold _process_ready, loop_fuel in Ep. rewrite En in Ep. simpl in Ep.
      unfold _find_ready_nodes, lift, mbind, M_bind, result_bind in Ep. rewrite En in Ep.
      simpl in Ep. injection Ep as <- <-. by apply framed_refl. }
  destruct res1 as [k|x]; [|by intros [= <- <-]].
  unfold _jobs_by_node_id, list_jobs_for_run, gets.
  destruct (_nodes_of wf (out_dir r)) as [nodes|x]; [|by intros [= <- <-]].
  destruct (dag_done _ _); [|by intros [= <- <-]].
  rewrite complete_run_world. intros [= <- <-]. eapply framed_trans; [done|].
  apply framed_on_runs; [apply finished_run_rid|intros; apply ended_finished; auto|apply Hf].
Qed.

Lemma bump_input_spec_framed run_id t fields w res w' :
  db_ok w → _bump_input_spec run_id t fields w = (res, w') → framed w w'.
Proof.
  intros Hok. unfold _bump_input_spec. destruct (nonempty t) as [t'|];
    [|intros [= <- <-]; by apply framed_refl].
  unfold _jobs_by_node_id, list_jobs_for_run, gets, mbind, M_bind.
  destruct (option_bind _ _ _ _); intros [= <- <-]; [by apply framed_on_jobs|by apply framed_refl].
Qed.

Lemma on_node_completed_framed run_id nid w res w' :
  db_ok w → on_node_completed run_id nid w = (res, w') → framed w w'.
Proof.
  intros Hok. unfold on_node_completed, get_run, gets, mbind, M_bind.
  destruct (run_of w run_id) as [r|]; [|intros [= <- <-]; by apply framed_refl].
  destruct (bool_decide _); [intros [= <- <-]; by apply framed_refl|].
  unfold _jobs_by_node_id, list_jobs_for_run, gets.
  destruct (lookup_node _ _) as [job|]; [|by apply advance_run_framed].
  destruct (_patch_meta _) as [[|m meta]|]; [by apply advance_run_framed| |
    by apply advance_run_framed].
  unfold _finish_patch_job, _jobs_by_node_id, list_jobs_for_run, gets, mbind, M_bind.
  destruct (_bump_input_spec _ _ _ w) as [res1 w1] eqn:E.
  apply bump_input_spec_framed in E; [|done]. destruct res1; by intros [= <- <-].
Qed.

Lemma on_node_failed_framed run_id nid w res w' :
  db_ok w → on_node_failed run_id nid w = (res, w') → framed w w'.
Proof.
  intros Hok. unfold on_node_failed, get_run, gets, mbind, M_bind.
  destruct (match run_of w run_id with Some r => _ | None => false end);
    [intros [= <- <-]; by apply framed_refl|].
  unfold _jobs_by_node_id, list_jobs_for_run, gets.
  assert (∀ res w', (let (r, w'0) := cancel_siblings_after_failure run_id w in
    match r with
    | Ok _ => fail_run run_id "node failed (see workflow_node_jobs.error)" w'0
    | Raise e => (Raise e, w'0)
    end) = (res, w') → framed w w') as Hfail.
  { intros res0 w0. simpl. rewrite fail_run_world. intros [= <- <-].
    eapply framed_trans; [by apply framed_on_jobs|].
    apply framed_on_runs;
      [apply finished_run_rid|intros; apply ended_finished; auto|by apply db_ok_update]. }
  destruct (lookup_node _ _) as [job|]; [|by apply Hfail].
  destruct (_patch_meta _) as [[|m meta]|]; [by apply Hfail| |by apply Hfail].
  by apply bump_input_spec_framed.
Qed.

Lemma on_node_awaiting_input_framed run_id nid w res w' :
  db_ok w → on_node_awaiting_input run_id nid w = (res, w') → framed w w'.
Proof.
  intros Hok. unfold on_node_awaiting_input, get_run, gets, lift, mbind, M_bind.
  destruct (run_of w run_id) as [r|]; [|intros [= <- <-]; by apply framed_refl].
  destruct (bool_decide _); [intros [= <- <-]; by apply framed_refl|].
  destruct (_load_workflow _) as [wf|x]; [|intros [= <- <-]; by apply framed_refl].
  destruct (input_step_of wf nid) as [s|]; [|intros [= <- <-]; by apply framed_refl].
  assert ((_build_input_spec s r w).2 = w) as Hw.
  { unfold _build_input_spec. destruct (s_widget s) as [widget|]; [|done].
    unfold lift, mbind, M_bind. destruct (reads_context widget).
    - pose proof (ref_context_world r w) as Hr. destruct (_ref_context r w) as [[ctx|] w0];
        simpl in Hr; subst; [|done]. by destruct (widget_fields _ _ _ _).
    - simpl. by destruct (widget_fields _ _ _ _). }
  destruct (_build_input_spec s r w) as [[sp|x] w0]; simpl in Hw; subst w0;
    intros [= <- <-]; [by apply framed_on_jobs|by apply framed_refl].
Qed.

Lemma callback_framed e w res w' : db_ok w → callback e w = (res, w') → framed w w'.
Proof.
  intros Hok. unfold callback, mbind, M_bind. destruct (kind e).
  - destruct (on_node_completed _ _ w) as [res1 w1] eqn:E.
    apply on_node_completed_framed in E; [|done]. destruct res1; by intros [= <- <-].
  - by apply on_node_failed_framed.
  - by apply on_node_awaiting_input_framed.
Qed.

(** ** The outbox under the drain *)

(** What handling an event leaves alone. *)
Record drained (w w' : world) : Prop := {
  dr_ok : db_ok w';
  dr_eids : map eid (dispatch_events w') = map eid (dispatch_events w);
  dr_ended i r : run_of w i = Some r →
    ∃ r', run_of w' i = Some r' ∧ (ended r = true → ended r' = true);
}.
Lemma drained_trans w1 w2 w3 : drained w1 w2 → drained w2 w3 → drained w1 w3.
Proof.
  intros [A1 A2 A3] [B1 B2 B3]. split; [done|congruence|].
  intros i r (r' & Hr' & He)%A3. apply B3 in Hr' as (r'' & Hr'' & He'). eauto.
Qed.

(** What has become of a drained event: processed; or one more attempt on
    record, and at the cap it is processed as well and its run has ended. *)
Definition retired_or_retried e w' : Prop :=
  ∃ e', e' ∈ dispatch_events w' ∧ eid e' = eid e ∧
    ((attempts e' = attempts e ∧ is_Some (processed_at e')) ∨
     (attempts e' = attempts e + 1 ∧
      if _DISPATCH_MAX_ATTEMPTS <=? attempts e'
      then is_Some (processed_at e') ∧ ∃ r, run_of w' (erun_id e) = Some r ∧ ended r = true
      else processed_at e' = processed_at e)).

Lemma on_events_framed g w :
  db_ok w → (∀ t, map eid (g t) = map eid t) → drained w (on_events g w).
Proof.
  intros Hok Hg. split.
  - by eapply db_ok_same; [..|exact Hok]; destruct w.
  - destruct w; simpl. apply Hg.
  - destruct w; simpl; eauto.
Qed.
Lemma framed_drained w w' : framed w w' → drained w w'.
Proof. intros [A B C D E]. split; [done|by rewrite B|done]. Qed.

(** An update of one event, by its id. *)
Lemma update_event_spec f e i w :
  (∀ e, eid (f e) = eid e) → db_ok w → e ∈ dispatch_events w → eid e = i →
  let w' := on_events (update_where (λ e0, eid e0 =? i) f) w in
  drained w w' ∧ f e ∈ dispatch_events w' ∧
  (∀ k, run_of w' k = run_of w k) ∧
  ∀ e0, e0 ∈ dispatch_events w → eid e0 ≠ i → e0 ∈ dispatch_events w'.
Proof.
  intros Hf Hok He Hi w'.
  assert (dispatch_events w' = update_where (λ e0, eid e0 =? i) f (dispatch_events w)) as Hw
    by by destruct w.
  rewrite Hw. split_and!.
  - apply on_events_framed; [done|]. intros t. by apply update_where_map.
  - apply elem_of_update_where. exists e. by rewrite Hi, Z.eqb_refl.
  - by destruct w.
  - intros e0 Hz Hn. apply elem_of_update_where. exists e0.
    by rewrite (proj2 (Z.eqb_neq _ _)).
Qed.

Lemma poisoned_framed e err w :
  db_ok w → framed w (on_runs (update_where
    (λ r, bool_decide (rid r = erun_id e) && negb (ended r))
    (poisoned (poison_text e err) (clock w))) w).
Proof. intros Hok. by apply framed_on_runs; [intros []|intros []|]. Qed.
Lemma poisoned_ends e err w r :
  run_of w (erun_id e) = Some r →
  ∃ r', run_of (on_runs (update_where
      (λ r, bool_decide (rid r = erun_id e) && negb (ended r))
      (poisoned (poison_text e err) (clock w))) w) (erun_id e) = Some r' ∧ ended r' = true.
Proof.
  intros Hr. rewrite run_of_update, Hr by by intros []. eexists. split; [done|].
  unfold run_of in Hr. apply find_some in Hr as [_ Hi]. rewrite Hi. simpl.
  destruct (ended r) eqn:E; simpl; [done|]. by destruct r.
Qed.

Lemma poison_event_spec e e1 err w :
  db_ok w → e1 ∈ dispatch_events w → eid e1 = eid e → is_Some (run_of w (erun_id e)) →
  ∃ w', poison_event e err w = (Ok (), w') ∧ drained w w' ∧
    set_processed_at (Some (clock w)) e1 ∈ dispatch_events w' ∧
    (∃ r, run_of w' (erun_id e) = Some r ∧ ended r = true) ∧
    ∀ e0, e0 ∈ dispatch_events w → eid e0 ≠ eid e → e0 ∈ dispatch_events w'.
Proof.
  intros Hok He Hi [r Hr].
  unfold poison_event, update_run_where, mark_dispatch_event_processed, update_event, mbind, M_bind.
  destruct (poisoned_ends e err w r Hr) as (r3 & Hr3 & He3).
  pose proof (poisoned_framed e err w Hok) as Hf3. revert Hf3 Hr3.
  generalize (on_runs (update_where (λ r, bool_decide (rid r = erun_id e) && negb (ended r))
    (poisoned (poison_text e err) (clock w))) w). intros w3 Hf3 Hr3.
  rewrite <- (fr_events _ _ Hf3), <- (fr_clock _ _ Hf3) in *.
  eexists. split; [done|].
  destruct (update_event_spec (set_processed_at (Some (clock w3))) e1 (eid e) w3)
    as (Hd & Hin & Hro & Hk); [by intros []|apply Hf3|done..|].
  split_and!; [|done| |done].
  - eapply drained_trans; [by apply framed_drained|done].
  - exists r3. by rewrite Hro.
Qed.

Lemma handle_event_spec e w :
  db_ok w → e ∈ dispatch_events w → is_Some (run_of w (erun_id e)) →
  ∃ w', handle_event e w = (Ok (), w') ∧ drained w w' ∧ retired_or_retried e w' ∧
    ∀ e0, e0 ∈ dispatch_events w → eid e0 ≠ eid e → e0 ∈ dispatch_events w'.
Proof.
  intros Hok He [r Hr]. unfold handle_event.
  destruct (callback e w) as [res w1] eqn:E. pose proof (callback_framed _ _ _ _ Hok E) as Hf.
  pose proof (framed_drained _ _ Hf) as Hd1.
  rewrite <- (fr_events _ _ Hf) in *.
  destruct res as [u|x].
  - eexists. split; [done|].
    destruct (update_event_spec (set_processed_at (Some (clock w1))) e (eid e) w1)
      as (Hd & Hin & _ & Hk); [by intros []|apply Hf|done..|].
    split_and!; [by eapply drained_trans| |done].
    eexists. split; [exact Hin|]. split; [by destruct e|]. left. destruct e; simpl. eauto.
  - set (f := λ e : dispatch_event, e |> set_attempts (attempts e + 1)
                |> set_eerror (Some (clip_error (pool_exc_text x)))).
    destruct (update_event_spec f e (eid e) w1) as (Hd2 & Hin2 & _ & Hk2);
      [by intros []|apply Hf|done..|].
    change (record_dispatch_event_failure (eid e) (pool_exc_text x)) with
      (update_event (eid e) (λ _, f)).
    unfold update_event, mbind, M_bind.
    revert Hd2 Hin2 Hk2. generalize (on_events (update_where (λ e0, eid e0 =? eid e) f) w1).
    intros w2 Hd2 Hin2 Hk2. pose proof (drained_trans _ _ _ Hd1 Hd2) as Hd.
    assert (attempts (f e) = attempts e + 1 ∧ eid (f e) = eid e ∧
            processed_at (f e) = processed_at e) as (Ha & Hi & Hp) by by destruct e.
    destruct (_DISPATCH_MAX_ATTEMPTS <=? attempts e + 1) eqn:Hcap; cycle 1.
    { exists w2. split_and!; [done..| |done]. exists (f e). split_and!; [done..|].
      right. split; [done|]. by rewrite Ha, Hcap. }
    apply Hd in Hr as (r2 & Hr2 & _).
    destruct (poison_event_spec e (f e) (pool_exc_text x) w2) as (w3 & E3 & Hd3 & Hin3 & Hr3 & Hk3);
      [apply Hd|done..|by eauto|].
    exists w3. split_and!; [done|by eapply drained_trans| |by eauto].
    eexists. split; [exact Hin3|]. split; [by destruct e|]. right.
    replace (attempts (set_processed_at _ (f e))) with (attempts e + 1) by by destruct e.
    rewrite Hcap. split_and!; [done|by destruct e; eauto|done].
Qed.

Lemma drain_list_spec l w :
  db_ok w → NoDup (map eid l) →
  (∀ e, e ∈ l → e ∈ dispatch_events w ∧ is_Some (run_of w (erun_id e))) →
  ∃ w', forM l handle_event w = (Ok (), w') ∧ drained w w' ∧
    (∀ e, e ∈ l → retired_or_retried e w') ∧
    ∀ e0, e0 ∈ dispatch_events w → eid e0 ∉ map eid l → e0 ∈ dispatch_events w'.
Proof.
  revert w. induction l as [|e l IH]; intros w Hok Hnd Hin; cbn [forM].
  { exists w. split_and!; [done|split; eauto|by intros e He%elem_of_nil|done]. }
  apply NoDup_cons in Hnd as [Hn Hnd].
  destruct (Hin e) as [He Hr]; [left|].
  destruct (handle_event_spec e w Hok He Hr) as (w1 & E1 & Hd1 & Hs1 & Hk1).
  unfold mbind, M_bind. rewrite E1.
  destruct (IH w1) as (w' & E' & Hd' & Hs' & Hk'); [apply Hd1|done| |].
  { intros e0 Hz. destruct (Hin e0) as [Hz' [r0 Hr0]]; [by right|]. split.
    - apply Hk1; [done|]. intros Eq. apply Hn. rewrite <- Eq. by apply list_elem_of_fmap_2.
    - apply Hd1 in Hr0 as (r0' & -> & _). eauto. }
  exists w'. split_and!; [done|by eapply drained_trans| |].
  - intros e0 [->|Hz]%elem_of_cons; [|by apply Hs'].
    destruct Hs1 as (e' & He' & Hi & Hcase). exists e'. split_and!; [|done|].
    { apply Hk'; [done|]. by rewrite Hi. }
    destruct Hcase as [?|[Ha Hc]]; [by left|]. right. split; [done|].
    destruct (_ <=? attempts e'); [|done]. destruct Hc as [Hp (r & Hr1 & He1)].
    split; [done|]. apply Hd' in Hr1 as (r' & Hr' & Hend). eauto.
  - intros e0 Hz Hni. apply Hk'; [apply Hk1; [done|]|]; intros Eq; apply Hni; simpl;
      [rewrite Eq; left|by right].
Qed.

Lemma elem_of_drainable w locked e :
  e ∈ drainable w locked → e ∈ dispatch_events w ∧ is_Some (run_of w (erun_id e)).
Proof.
  unfold drainable. intros He. eapply elem_of_sublist in He; [|apply sublist_take].
  rewrite sort_by_perm in He.
  apply list_elem_of_In, filter_In in He as [He%list_elem_of_In Hc]. split; [done|].
  split_bool. unfold exists_row in *.
  match goal with H : existsb _ _ = true |- _ => apply existsb_exists in H as (r & Hr & Hc) end.
  unfold run_of. destruct (List.find _ (runs w)) eqn:E; [done|].
  apply (find_none _ _ E) in Hr. split_bool. simplify_eq.
Qed.
Lemma drainable_NoDup w locked :
  NoDup (map eid (dispatch_events w)) → NoDup (map eid (drainable w locked)).
Proof.
  intros Hnd. unfold drainable. eapply sublist_NoDup; [|apply fmap_sublist, sublist_take].
  rewrite sort_by_perm. by apply NoDup_map_Lfilter.
Qed.
End pool_lemmas.

(** * Properties *)

Section pool_props.
Context `{PyEnv} `{QueueConfig} `{DispatchConfig} `{SpecDisk} `{PoolConfig}.

(** C6: a drain of the outbox never raises and settles every event it takes:
    the event is processed, or it has one more attempt on record and is still
    there to be retried; at the tenth failed attempt it is processed as well and
    its run has ended, so that no event is retried for ever and none is dropped
    with its run still open.  No other event is touched, none is lost or
    duplicated, a run that had ended stays so, and the schema constraints hold
    after. *)
Theorem drain_retires_or_retries_events locked w :
  db_ok w → NoDup (map eid (dispatch_events w)) →
  ∃ w', _drain_dispatch_events locked w = (Ok (), w') ∧ drained w w' ∧
    (∀ e, e ∈ drainable w locked → retired_or_retried e w') ∧
    ∀ e, e ∈ dispatch_events w → e ∉ drainable w locked → e ∈ dispatch_events w'.
Proof.
  intros Hok Hnd.
  destruct (drain_list_spec (drainable w locked) w) as (w' & E & Hd & Hs & Hk);
    [done|by apply drainable_NoDup|by apply elem_of_drainable|].
  exists w'. split_and!; [done..|]. intros e He Hn. apply Hk; [done|].
  intros (e' & Ei & He')%list_elem_of_fmap. apply Hn.
  by rewrite (key_unique eid _ e e' Hnd He (proj1 (elem_of_drainable _ _ _ He')) Ei).
Qed.
End pool_props.

(** * Witnesses *)

Module PoolDemo.
Definition pool_cfg : PoolConfig := {|
  reclaim_interval := 30000000;
  ingest_reclaim_interval := 30000000;
  dead_worker_interval := 30000000;
  node_event_prune_interval := 3600000000;
  node_event_retention_days := 30;
  orphan_cancel_interval := 60000000;
  cancel_orphan_queued_jobs := true;
  frozen_lease_after := 300000000;
  frozen_lease_interval := 30000000;
  stuck_run_interval := 60000000;
  over_claim_disabled := false;
  over_claim_interval := 60000000;
  unassignable_interval := 15000000;
  pool_exc_text _ := "RuntimeError";
  repr_str s := s;
|}.
(** A host whose workflow loader raises, and the run of [DispatchDemo] with two
    events: one that has failed nine times and a new one. *)
Definition broken : DispatchConfig := {|
  config_workflow_loader := Some (λ _, Raise (RuntimeError "no such workflow"));
  config_pipeline_schema_loader := Some (λ _, Ok []);
  config_resolve_ref := @resolve_ref Demo.py;
  config_vlm_pool_node_modules := [];
  config_gpu_self_load_node_modules := [];
  literal_eval _ := None;
  step_files _ := [];
  is_file _ := false;
  isoformat t := pretty t;
|}.
Definition old_event : dispatch_event := mkEvent 1 "r1" "s/a" k_completed None None 9 0.
Definition new_event : dispatch_event := mkEvent 2 "r1" "s/b" k_failed None None 0 1.
Definition pending : world :=
  on_events (λ _, [old_event; new_event]) DispatchDemo.started.
Lemma pending_ok : db_ok pending.
Proof. eapply db_ok_same; [..|exact DispatchDemo.started_ok]; reflexivity. Qed.
Definition after : world :=
  (@_drain_dispatch_events Demo.py Demo.cfg broken SpecDemo.disk pool_cfg [] pending).2.
End PoolDemo.

Lemma drain_retires_or_retries_events_witness :
  retired_or_retried PoolDemo.old_event PoolDemo.after ∧
  retired_or_retried PoolDemo.new_event PoolDemo.after.
Proof.
  destruct (@drain_retires_or_retries_events Demo.py Demo.cfg PoolDemo.broken SpecDemo.disk
    PoolDemo.pool_cfg [] PoolDemo.pending) as (w' & E & _ & Hs & _).
  - exact PoolDemo.pending_ok.
  - vm_compute. repeat constructor; set_solver.
  - assert (w' = PoolDemo.after) as ->.
    { unfold PoolDemo.after. rewrite E. reflexivity. }
    split; apply Hs; vm_compute; repeat constructor.
Defined.
