(* ===== verification/BoxLevers.v ===== *)
(** * The levers and readings of a box ([queue_workflows/claim_worker.py], [llm_probe.py],
      [llm_idle_unload.py], [node_pool.py], [node_queue.py])

    What a worker pulls when its box changes hands: the LLM weights that go when something
    else takes the card, the last move of the memory guard, the server an enabled worker
    starts, the window a server is started at, the window that is given back; the readings they
    stand on (loaded models, cpus, budgets of the environment), and the two sweeps of the
    orchestrator that look after its own machine.  HTTP, docker and the texts of kernel files
    are arguments. *)

From S2P Require Import Prelude Json PyText Refs Schema NodeQueue Claim Reclaim WorkerLanes WorkerControl ServerSwitch ModelLease Catalog LlmProbe HwWatch Residency LlmContext ServerContext ContextLever RogueLlm IdleUnload Hold Comfy NodePool.
Local Open Scope Z_scope.

(** ** Readings *)

Section readings.
Context `{WorkerEnv}.

(** [float] of a text, with the sign of an infinity: None is nan *)
Inductive number := Finite (q : Q) | PlusInf | MinusInf | NotANumber.
Definition number_of (s : string) : option number :=
  match Txt.py_float s with
  | None => None
  | Some (Some q) => Some (Finite q)
  | Some None => let '(sg, body) := Txt.unsign (PyStr.strip s) in
                 Some (if String.eqb (PyStr.lower body) "nan" then NotANumber else if 0 <? sg then PlusInf else MinusInf)
  end.
Definition DEFAULT_LLM_IDLE_TTL_S : Q := 300.
(** [config_ttl]: the setting, None when it is unset *)
Definition resolve_llm_idle_ttl_s (config_ttl : option Q) : result number :=
  raw ← env_get "QUEUE_WORKFLOWS_LLM_SERVER_IDLE_TTL_S" None;
  let fallback := Finite (default DEFAULT_LLM_IDLE_TTL_S config_ttl) in
  Ok (match raw with
      | Some s => if PyStr.truthy s then default fallback (number_of s) else fallback
      | None => fallback
      end).

Definition DEFAULT_DRAIN_TIMEOUT_S : Q := 3600.
Definition DEFAULT_WARM_TIMEOUT_S : Q := 1800.
(** [max(30.0, x)]: a comparison with nan is false *)
Definition at_least_30 (x : number) : number :=
  match x with
  | Finite q => if Qle_bool q 30 then Finite 30 else Finite q
  | PlusInf => PlusInf
  | MinusInf | NotANumber => Finite 30
  end.
Definition read_timeout (name : string) (dflt : Q) : result number :=
  raw ← env_get name (Some "");
  let s := PyStr.strip (default "" raw) in
  Ok (if PyStr.truthy s then match number_of s with Some x => at_least_30 x | None => Finite dflt end else Finite dflt).
Definition _switch_timeouts : result (number * number) :=
  drain ← read_timeout "QUEUE_WORKFLOWS_SWITCH_DRAIN_TIMEOUT_S" DEFAULT_DRAIN_TIMEOUT_S;
  warm ← read_timeout "QUEUE_WORKFLOWS_SWITCH_WARM_TIMEOUT_S" DEFAULT_WARM_TIMEOUT_S;
  Ok (drain, warm).
End readings.

(** The cores of this process: the files, None when one cannot be read; the cpu set; the
    count of the machine *)
Definition v2_quota (text : string) : option Z :=
  match Txt.words text with
  | quota :: period :: _ =>
      if String.eqb quota "max" then None
      else match PyStr.int period with
           | Some p => if 0 <? p then (λ q, Z.max 1 (q / p)) <$> PyStr.int quota else None
           | None => None
           end
  | _ => None
  end.
Definition v1_quota (quota period : option string) : option Z :=
  match quota ≫= PyStr.int, period ≫= PyStr.int with
  | Some q, Some p => if (0 <? q) && (0 <? p) then Some (Z.max 1 (q / p)) else None
  | _, _ => None
  end.
Definition _available_cpus (read_text : string → option string) (affinity cpu_count : option Z) : Z :=
  match read_text "/sys/fs/cgroup/cpu.max" ≫= v2_quota with
  | Some n => n
  | None =>
      match v1_quota (read_text "/sys/fs/cgroup/cpu/cpu.cfs_quota_us") (read_text "/sys/fs/cgroup/cpu/cpu.cfs_period_us") with
      | Some n => n
      | None =>
          match affinity with
          | Some n => if 1 <=? n then n else Z.max 1 (match cpu_count with Some 0 | None => 1 | Some c => c end)
          | None => Z.max 1 (match cpu_count with Some 0 | None => 1 | Some c => c end)
          end
      end
  end.

(** What importing torch and asking it gives *)
Definition _probe_gpu_usable (torch : option (result bool)) : option bool :=
  match torch with None => None | Some (Ok b) => Some b | Some (Raise _) => Some false end.

(** The serving kinds of a heartbeat row *)
Definition _as_server_list (json_loads : string → option json) (str : json → string) (value : json) : list string :=
  let kinds v := match v with JArr l => str <$> List.filter truthy l | _ => [] end in
  match value with
  | JStr s => match json_loads s with Some v => kinds v | None => [] end
  | v => kinds v
  end.

(** ** Loaded models *)

Section levers.
Context `{PyEnv} `{WorkerEnv} `{Http}.

(** [_parse_rfc3339] is an argument *)
Definition loaded_models_info (parse : json → result Z) (base_url : option string) : list model_info :=
  match root_of base_url with
  | None => []
  | Some root =>
      LlmProbe.guarded [] (data ← http_json (root +:+ "/api/ps");
                  rows ← iter_or_empty (get_if_dict "models" data);
                  mapR (λ nd : string * dict, mru ← parse (default (JStr "") (dict_get "expires_at" nd.2)); Ok (mkModelInfo nd.1 mru))
                    (named "name" (λ d v, (py_str v, d)) rows))
  end.

Definition _DISABLE_CARD_RECLAIM_ENV : string := "QUEUE_WORKFLOWS_DISABLE_GPU_CARD_RECLAIM".
(** The models ollama is asked to unload, in order; everything in the [try] is best-effort *)
Definition loaded_names (parse : json → result Z) (base : option string) : list string :=
  sorted_set (List.filter PyStr.truthy (mi_name <$> loaded_models_info parse base)).
Definition _release_llm_ram_unless_llm_owns_the_card (parse : json → result Z) (resolve_base_url : result (option string))
    (slot : string) : result (list string) :=
  if is_llm_slot (Some slot) then Ok []
  else
    off ← env_get _DISABLE_CARD_RECLAIM_ENV None;
    Ok (if PyStr.truthy (default "" off) then []
        else match resolve_base_url with
             | Raise _ => []
             | Ok base => match root_of base with Some _ => loaded_names parse base | None => [] end
             end).

Definition _model_still_resident (resolve_base_url : result (option string)) (config_comfyui_url current_model : option string)
    (held : string) : result bool :=
  if String.eqb held LLM_SERVER_SLOT then base ← resolve_base_url; Ok (negb (bool_decide (loaded_models base = [])))
  else if String.eqb held COMFYUI_SERVER_SLOT then
    url ← configured_url config_comfyui_url;
    if PyStr.truthy url then comfyui_loaded (Some url) COMFYUI_MODEL_VRAM_FLOOR else Ok false
  else Ok (bool_decide (current_model = Some held)).

(** The levers of the residency enforcer: whether one was pulled *)
Definition _stop_rogue_vllm (vllm_stop_fn : option (result ())) : result bool :=
  match vllm_stop_fn with Some r => _ ← r; Ok true | None => Ok false end.
Definition _free_box_comfyui (config_comfyui_url : option string) : result bool :=
  url ← configured_url config_comfyui_url;
  Ok (if PyStr.truthy url then (let _ := comfyui_free (Some url) in true) else false).
End levers.

(** ** Servers *)

(** Whether the host's start hook was called; its exception is dropped *)
Definition _start_inference_server `{QueueConfig} (db : database) (host box queue : string) (l : lane)
    (inference_server_start_fn : option (result ())) : M bool :=
  if negb (String.eqb queue "gpu") then mret false
  else match inference_server_start_fn with
       | None => mret false
       | Some _ => why ← _llm_starts_forbidden db host box queue l;
                   mret (match (why : option string) with Some s => negb (PyStr.truthy s) | None => true end)
       end.

(** The window a stopped kind is started at; [off] and [available_] are the lever's answers,
    [ceilings] the highest windows it was seen serving *)
Definition _queued_context_for `{QueueConfig} (off available_ : result bool) (ceilings : list (string * Z)) (host : string)
    (box : option string) (kind : string) : M (option Z) :=
  stop ← lift off;
  if (stop : bool) then mret None else
  can ← lift available_;
  if negb can then mret None else
  match dict_get kind ceilings with
  | None => mret None
  | Some ceiling =>
      if ceiling =? 0 then mret None
      else need ← try_except (n ← context_switch_need host None (Some ceiling) box None None 0 false; mret (Some n)) (λ _, Some (mret None));
           mret (match (need : option (option Z)) with
                 | Some n => switch_target [n] None (Some ceiling) CONTEXT_GRANULE
                 | None => None
                 end)
  end.

(** The window is given back to the operator's; the verdict is only logged *)
Definition _restore_llm_context `{PyEnv} `{WorkerEnv} `{Docker} (host_lever : option (result lever_value)) (kind : option string)
    (cache : list (string * (Z * ServerContainer))) : L (list (string * (Z * ServerContainer))) := λ h,
  match kind with
  | None => (cache, h)
  | Some k =>
      if negb (PyStr.truthy k) then (cache, h)
      else match set_context host_lever k None None None cache h with
           | (Ok (_, cache'), h') => (cache', h')
           | (Raise _, h') => (cache, h')
           end
  end.

(** After the broker gave its own memory back *)
Definition _stop_gpu_outsiders_if_still_short `{WorkerEnv} `{Dockerd} (available_ : option Z) (danger_floor : Z) : G (list string) :=
  match available_ with
  | None => mret []
  | Some a => if danger_floor <=? a then mret [] else stop_gpu_outsiders
  end.

(** ** The orchestrator's own machine *)

Definition _sweep_rogue_llm `{WorkerEnv} `{Dockerd} (now interval last_run : Z) (g : guard) (h : list ContextLever.call)
    : result () * Z * guard * list ContextLever.call :=
  if due now last_run interval
  then let '(r, g', h') := RogueLlm.sweep now g h in ((λ _, ()) <$> r, now, g', h')
  else (Ok (), last_run, g, h).
Definition _sweep_hw_watch_retention (store_ok : bool) (detail_s history_s now interval last_run : Z) (t : list HwWatch.sample)
    : Z * list HwWatch.sample :=
  if due now last_run interval then (now, (prune_hw_watch store_ok detail_s history_s now t).2) else (last_run, t).

(** * Lemmas *)

(** ** Readings *)

(** A quota is authoritative, and the count is never below one. *)
Lemma cpus_at_least_one read_text affinity cpu_count : 1 ≤ _available_cpus read_text affinity cpu_count.
Proof.
  unfold _available_cpus, v2_quota, v1_quota.
  repeat case_match; simplify_option_eq; repeat case_match; simplify_option_eq; lia.
Qed.
Lemma quota_is_authoritative read_text affinity cpu_count text quota period q p rest :
  read_text "/sys/fs/cgroup/cpu.max" = Some text → Txt.words text = quota :: period :: rest → quota ≠ "max"%string →
  PyStr.int quota = Some q → PyStr.int period = Some p → 0 < p →
  _available_cpus read_text affinity cpu_count = Z.max 1 (q / p).
Proof.
  intros Ht Hw Hm Hq Hp Hpos. unfold _available_cpus. rewrite Ht. simpl. unfold v2_quota. rewrite Hw.
  destruct (String.eqb_spec quota "max"); [done|]. rewrite Hp, (proj2 (Z.ltb_lt 0 p)) by done. by rewrite Hq.
Qed.

(** A budget of the environment is at least half a minute. *)
Lemma switch_budgets_are_floored `{WorkerEnv} drain warm :
  _switch_timeouts = Ok (drain, warm) → ∀ x q, x ∈ [drain; warm] → x = Finite q → (30 <= q)%Q.
Proof.
  assert (∀ name dflt r q, (30 <= dflt)%Q → read_timeout name dflt = Ok r → r = Finite q → (30 <= q)%Q) as Hr.
  { intros name dflt r q Hd. unfold read_timeout. destruct (env_get _ _) as [raw|]; [|done]. simpl. injection 1 as <-.
    destruct (PyStr.truthy _); [|intros [= <-]; done]. destruct (number_of _) as [[x| | |]|]; simpl; [|intros [= <-]; done..].
    destruct (Qle_bool x 30) eqn:E; intros [= <-]; [done|]. apply not_true_iff_false in E. rewrite Qle_bool_iff in E.
    apply Qlt_le_weak. by apply Qnot_le_lt. }
  unfold _switch_timeouts. destruct (read_timeout _ DEFAULT_DRAIN_TIMEOUT_S) as [d|] eqn:Ed; [|done]. simpl.
  destruct (read_timeout _ DEFAULT_WARM_TIMEOUT_S) as [m|] eqn:Em; [|done]. simpl. intros [= <- <-] x q [->|[->|[]%not_elem_of_nil]%elem_of_cons]%elem_of_cons.
  - eapply Hr; [|exact Ed]. done.
  - eapply Hr; [|exact Em]. done.
Qed.

(** ** The card *)

Section card.
Context `{PyEnv} `{WorkerEnv} `{Http}.

Lemma info_names parse base :
  (∀ v, is_ok (parse v) = true) → mi_name <$> loaded_models_info parse base = loaded_models base.
Proof.
  intros Hp. unfold loaded_models_info, loaded_models. destruct (root_of base) as [root|]; [|done]. unfold LlmProbe.guarded.
  destruct (http_json _) as [data|]; [|done]. simpl. destruct (iter_or_empty _) as [rows|]; [|done]. simpl.
  assert (∀ l : list (string * dict),
    ∃ infos, mapR (λ nd : string * dict, mru ← parse (default (JStr "") (dict_get "expires_at" nd.2)); Ok (mkModelInfo nd.1 mru)) l = Ok infos ∧
             mi_name <$> infos = fst <$> l) as Hm.
  { induction l as [|[n d] l (infos & E & En)]; [by exists []|]. simpl. pose proof (Hp (default (JStr "") (dict_get "expires_at" d))) as Hd.
    destruct (parse _) as [mru|]; [|done]. simpl. rewrite E. simpl. eexists. split; [reflexivity|]. rewrite !fmap_cons. by rewrite En. }
  destruct (Hm (named "name" (λ d v, (py_str v, d)) rows)) as (infos & -> & ->). clear Hm. unfold named.
  induction rows as [|r rows IH]; [done|]. simpl. destruct r as [| | | | | |d]; try done.
  destruct (dict_get "name" d) as [v|]; [|done]. destruct (truthy v); [|done]. simpl. f_equal. exact IH.
Qed.
End card.

(** A card has one occupant.  When something other than the LLM server takes the card, every
    model the box's ollama holds is asked to unload, each once, and nothing else is; when the
    taker is the LLM server itself, or the operator opted out, nothing is unloaded.  An
    address that does not resolve or a server that does not answer never fails the taker. *)
Lemma card_has_one_occupant `{PyEnv} `{WorkerEnv} `{Http} parse slot base
    (Hparse : ∀ v, is_ok (parse v) = true) (Hknobs : is_ok (env_get _DISABLE_CARD_RECLAIM_ENV None) = true) :
  ∃ names, _release_llm_ram_unless_llm_owns_the_card parse base slot = Ok names ∧ NoDup names ∧
    (slot = LLM_SERVER_SLOT → names = []) ∧
    (∀ raw, env_get _DISABLE_CARD_RECLAIM_ENV None = Ok (Some raw) → PyStr.truthy raw = true → names = []) ∧
    (slot ≠ LLM_SERVER_SLOT → env_get _DISABLE_CARD_RECLAIM_ENV None = Ok None →
     ∀ m, m ∈ names ↔ PyStr.truthy m = true ∧ ∃ b, base = Ok b ∧ m ∈ loaded_models b).
Proof.
  unfold _release_llm_ram_unless_llm_owns_the_card, is_llm_slot. destruct (String.eqb_spec slot LLM_SERVER_SLOT) as [->|Hs].
  { exists []. split_and!; [done|apply NoDup_nil_2|done|done|done]. }
  destruct (env_get _DISABLE_CARD_RECLAIM_ENV None) as [off|]; [|done]. simpl.
  set (names := if PyStr.truthy (default "" off) then _ else _). exists names. split; [done|].
  assert (∀ b, loaded_models b = [] ∨ is_Some (root_of b)) as Hroot.
  { intros b. unfold loaded_models. destruct (root_of b); [right; by eexists|by left]. }
  subst names. destruct (PyStr.truthy (default "" off)) eqn:Eo.
  { split_and!; [apply NoDup_nil_2|done|done|]. intros _ [= ->]. done. }
  split_and!.
  - destruct base as [b|]; [|apply NoDup_nil_2]. destruct (root_of b); [apply sorted_set_NoDup|apply NoDup_nil_2].
  - done.
  - intros raw [= ->]. simpl in Eo. congruence.
  - intros _ _ m. destruct base as [b|x]; [|split; [by intros ?%not_elem_of_nil|intros (_ & ? & [=] & _)]].
    destruct (Hroot b) as [E|[r Er]].
    + destruct (root_of b) as [r|]; [unfold loaded_names; rewrite elem_of_sorted_set, elem_of_Lfilter, (info_names _ _ Hparse), E|];
        (split; [set_solver|intros (_ & ? & [= <-] & Hm); rewrite E in Hm; set_solver]).
    + rewrite Er. unfold loaded_names. rewrite elem_of_sorted_set, elem_of_Lfilter, (info_names _ _ Hparse). naive_solver.
Qed.

(** ** Servers *)

Lemma max_opt_elem l n : foldr max_opt None l = Some n → Some n ∈ l.
Proof.
  revert n. induction l as [|x l IH]; intros n; simpl; [done|]. destruct x as [x|], (foldr max_opt None l) as [y|]; simpl.
  - intros [= <-]. destruct (Z.max_spec x y) as [[_ ->]|[_ ->]]; [right; by apply IH|left].
  - intros [= <-]. left.
  - intros [= <-]. right. by apply IH.
  - done.
Qed.
Lemma max_opt_bound l n m : foldr max_opt None l = Some n → Some m ∈ l → m ≤ n.
Proof.
  revert n. induction l as [|x l IH]; intros n; simpl; [by intros _ ?%not_elem_of_nil|].
  intros E [<-|Hm]%elem_of_cons.
  - destruct (foldr max_opt None l); simpl in E; injection E as <-; lia.
  - destruct (foldr max_opt None l) as [y|] eqn:Ey.
    + specialize (IH y eq_refl Hm). destruct x; simpl in E; injection E as <-; lia.
    + exfalso. clear -Ey Hm. induction l as [|z l IHl]; [by apply not_elem_of_nil in Hm|]. simpl in Ey.
      destruct z as [z|], (foldr max_opt None l); try done. apply elem_of_cons in Hm as [|]; [done|]. by apply IHl.
Qed.

#[local] Arguments switch_target : simpl never.

(** The window a server is started at is one the box was seen serving, wide enough for the
    widest queued need the box can reach on it, and within a granule of it. *)
Lemma queued_window_is_wanted `{QueueConfig} off available_ ceilings host box kind w t w' :
  _queued_context_for off available_ ceilings host box kind w = (Ok (Some t), w') →
  w' = w ∧ ∃ ceiling, dict_get kind ceilings = Some ceiling ∧ t ≤ ceiling ∧
    ∃ (j : node_job) (n : Z), j ∈ node_jobs w ∧ status j = Queued ∧ context_length j = Some n ∧ n ≤ t < n + CONTEXT_GRANULE ∧
      ∀ (j' : node_job) n', j' ∈ node_jobs w →
        context_need w host 0 ceiling box (_project None) config_stale_worker_after_s 0 false j' = Some n' → n' ≤ n.
Proof.
  unfold _queued_context_for. destruct off as [[]|], available_ as [[]|]; try done; simpl.
  unfold mbind, M_bind, lift. simpl. destruct (dict_get kind ceilings) as [c|] eqn:Ec; [|done].
  destruct (Z.eqb_spec c 0) as [|Hc0]; [done|]. unfold try_except, context_switch_need, gets, mbind, M_bind. simpl.
  destruct (foldr max_opt None _) as [n|] eqn:Ef; [|done]. destruct (Z.eqb_spec n 0) as [|Hn]; [done|]. intros [= Et <-].
  split; [done|]. exists c. split; [done|].
  pose proof (switch_target_serves_the_reachable_needs [Some n] None c CONTEXT_GRANULE ltac:(done)) as Hs.
  rewrite Et in Hs. destruct Hs as (Hlt & Hall & m & [[= ->]%list_elem_of_singleton Hm] & Hgr).
  specialize (Hall n (conj (list_elem_of_here _ _) Hm)). split; [lia|].
  pose proof (max_opt_elem _ _ Ef) as (j & Ej & Hj)%list_elem_of_fmap. exists j, n.
  split; [done|]. unfold context_need in Ej. destruct (context_length j) as [k|] eqn:Ek; [|done].
  destruct (_ && _) eqn:Eb in Ej; [|done]. injection Ej as ->. rewrite !andb_true_iff in Eb. split_and!; [|done|lia|lia|].
  - destruct Eb as [[[[[[[[[_ Hq] _] _] _] _] _] _] _] _]. unfold has_status in Hq. by apply bool_decide_eq_true in Hq.
  - intros j' n' Hj' E'. eapply max_opt_bound; [exact Ef|]. apply list_elem_of_fmap. by exists j'.
Qed.

(** A box that holds itself for a reservation starts no server when its worker comes up. *)
Lemma held_box_boots_no_server `{QueueConfig} db host box queue l fn why w :
  _cluster_hold_reason l = Some why → PyStr.truthy why = true →
  _start_inference_server db host box queue l fn w = (Ok false, w).
Proof.
  intros Hw Ht. unfold _start_inference_server. destruct (negb _); [done|]. destruct fn; [|done].
  unfold _llm_starts_forbidden. rewrite Hw. unfold mbind, M_bind. simpl. by rewrite Ht.
Qed.

(** While memory lasts the guard asks docker nothing. *)
Lemma guard_waits_for_the_floor `{WorkerEnv} `{Dockerd} available_ floor g h :
  (∀ a, available_ = Some a → floor ≤ a) → _stop_gpu_outsiders_if_still_short available_ floor g h = (Ok [], g, h).
Proof.
  intros Ha. unfold _stop_gpu_outsiders_if_still_short. destruct available_ as [a|]; [|done].
  rewrite (proj2 (Z.leb_le floor a)) by auto. done.
Qed.

(** * Witnesses *)

Module LeverDemo.
Definition env : WorkerEnv := {| os_environ := []; config_cpu_worker_threads := JNull; config_gpu_box_max_concurrent := JNull |}.
Definition http : Http := {|
  http_get _ := Ok None; http_text _ := Raise (OtherError "URLError"); http_post _ _ := Ok 200; http_post_json _ _ := Ok JNull;
  http_json u := if String.eqb u "http://box:11434/api/ps"
                 then Ok (JObj [("models", JArr [JObj [("name", JStr "b")]; JObj [("name", JStr "a")]; JObj [("name", JStr "b")]])])
                 else Raise (OtherError "URLError") |}.
End LeverDemo.

Lemma card_has_one_occupant_witness :
  @_release_llm_ram_unless_llm_owns_the_card Demo.py LeverDemo.env LeverDemo.http (λ _, Ok 0) (Ok (Some "http://box:11434/")) "__gpu__:render" =
    Ok ["a"; "b"] ∧
  ∃ names, @_release_llm_ram_unless_llm_owns_the_card Demo.py LeverDemo.env LeverDemo.http (λ _, Ok 0) (Ok (Some "http://box:11434/"))
             "__gpu__:render" = Ok names ∧ NoDup names.
Proof.
  split; [vm_compute; reflexivity|].
  destruct (@card_has_one_occupant Demo.py LeverDemo.env LeverDemo.http (λ _, Ok 0) "__gpu__:render" (Ok (Some "http://box:11434/")))
    as (names & E & Hn & _); [done|reflexivity|]. by exists names.
Defined.

