(* ===== verification/System.v ===== *)
(** * The engine as a transition system

    Every operation of the components as one action on the shared database, the
    invariant that all of them keep, and the life of a job row: an automaton of
    its statuses that every interleaving of the actions follows. *)

From S2P Require Import Prelude.
From S2P Require Import Json.
From S2P Require Import Refs.
From S2P Require Import Schema.
From S2P Require Import NodeQueue.
From S2P Require Import Claim.
From S2P Require Import Reclaim.
From S2P Require Import RunStore.
From S2P Require Import Workflow.
From S2P Require Import Dispatcher.
From S2P Require Import Executor.
From S2P Require Import Ingest.
From S2P Require Import Watchdogs.
From S2P Require Import WorkerLanes.
From S2P Require Import Assign.
From S2P Require Import Scheduler.
From S2P Require Import InputSpec.
From S2P Require Import NodePool.
Local Open Scope string_scope.
Local Open Scope list_scope.
Local Open Scope Z_scope.

(** ** The life of a row *)

(** What a row may go through; None is a row that does not exist (yet, or any
    more). *)
Inductive life_step : option node_status → option node_status → Prop :=
  | life_created s : s = Queued ∨ s = Skipped → life_step None (Some s)
  | life_claimed : life_step (Some Queued) (Some Running)
  | life_settled s s' :
      s ∉ [Completed; Failed; Cancelled] → s' = Completed ∨ s' = Failed →
      life_step (Some s) (Some s')
  | life_parked s :
      s ∉ [Completed; Failed; Cancelled] → life_step (Some s) (Some AwaitingInput)
  | life_requeued : life_step (Some Running) (Some Queued)
  | life_cancelled s : s = Queued ∨ s = Running → life_step (Some s) (Some Cancelled)
  | life_dropped s : s ∉ [Completed; Skipped] → life_step (Some s) None.

(** The status of the row with a given id. *)
Definition life (w : world) (i : string) : option node_status :=
  (λ j : node_job, status j) <$> List.find (λ j, bool_decide (job_key j = i)) (node_jobs w).

(** ** The invariant *)

Record inv (w : world) : Prop := {
  inv_db : db_ok w;
  inv_shape : jobs_shaped w;
  inv_eids : NoDup (map eid (dispatch_events w));
  inv_seq : ∀ e, e ∈ dispatch_events w → eid e ≤ event_seq w;
}.

(** An evolution keeps the invariant and moves every row along its life. *)
Record evolves (w w' : world) : Prop := {
  ev_inv : inv w';
  ev_life i : rtc life_step (life w i) (life w' i);
}.
Definition safe {A} (m : M A) : Prop := ∀ w, inv w → evolves w (m w).2.

Section evolution.
Implicit Types (w : world) (j : node_job).

Lemma evolves_refl w : inv w → evolves w w.
Proof. by split. Qed.
Lemma evolves_trans w1 w2 w3 : evolves w1 w2 → evolves w2 w3 → evolves w1 w3.
Proof. intros [_ A] [B C]. split; [done|]. intros i. etrans; [apply A|apply C]. Qed.

(** *** The tables *)

Lemma life_Some w j : db_ok w → j ∈ node_jobs w → life w (job_key j) = Some (status j).
Proof.
  intros Hok Hj. unfold life. destruct (List.find _ _) as [j'|] eqn:E.
  - apply find_some in E as [Hj' E%bool_decide_eq_true]. simpl.
    by rewrite (job_by_id_unique w j' j Hok (proj2 (list_elem_of_In _ _) Hj') Hj E).
  - apply list_elem_of_In in Hj. apply (find_none _ _ E) in Hj.
    by rewrite bool_decide_eq_true_2 in Hj.
Qed.

(** What leaves the jobs, the outbox and the keys alone. *)
Lemma evolves_frame w w' :
  inv w → node_jobs w' = node_jobs w → dispatch_events w' = dispatch_events w →
  event_seq w' = event_seq w → uuids w' = uuids w → map rid (runs w') = map rid (runs w) →
  evolves w w'.
Proof.
  intros [A B C D] Hj He Hs Hu Hr. split; [split|].
  - by eapply db_ok_same; [rewrite Hj| | |].
  - intros j. rewrite Hj. apply B.
  - by rewrite He.
  - intros e. rewrite He, Hs. apply D.
  - intros i. unfold life. by rewrite Hj.
Qed.

Lemma life_update w p (g : node_job → node_job) i :
  (∀ j, spec (g j) = spec j) →
  life (on_jobs (update_where p g) w) i =
    (λ j : node_job, status (if p j then g j else j)) <$>
      List.find (λ j, bool_decide (job_key j = i)) (node_jobs w).
Proof.
  intros Hg. unfold life. rewrite node_jobs_on_jobs.
  induction (node_jobs w) as [|j l IH]; [done|]. simpl.
  replace (job_key (if p j then g j else j)) with (job_key j)
    by (destruct (p j); [unfold job_key; by rewrite Hg|done]).
  case_bool_decide; [simpl; by destruct (p j)|apply IH].
Qed.

(** An UPDATE of job states. *)
Lemma evolves_update w p (g : node_job → node_job) :
  inv w → (∀ j, spec (g j) = spec j) →
  (∀ j, j ∈ node_jobs w → p j = true →
     claim_shape (st (g j)) ∧ rtc life_step (Some (status j)) (Some (status (g j)))) →
  evolves w (on_jobs (update_where p g) w).
Proof.
  intros [A B C D] Hg Hp. split; [split|].
  - by apply db_ok_update_rows.
  - intros j. rewrite node_jobs_on_jobs. intros (j0 & Hj0 & ->)%elem_of_update_where.
    destruct (p j0) eqn:E; [by apply Hp|by apply B].
  - by destruct w.
  - by destruct w.
  - intros i. rewrite life_update by done. unfold life.
    destruct (List.find _ (node_jobs w)) as [j|] eqn:E; [|done]. simpl.
    apply find_some in E as [Hj%list_elem_of_In _]. destruct (p j) eqn:Ep; [|done].
    by apply Hp.
Qed.

(** A DELETE of rows that are neither completed nor skipped. *)
Lemma db_ok_filter p w : db_ok w → db_ok (on_jobs (List.filter p) w).
Proof.
  intros [H1 H2 H3 H4 H5 H6].
  assert (∀ j, j ∈ List.filter p (node_jobs w) → j ∈ node_jobs w) as Hin.
  { intros j. rewrite !list_elem_of_In, filter_In. tauto. }
  split; rewrite ?node_jobs_on_jobs, ?runs_on_jobs, ?uuids_on_jobs.
  - by apply NoDup_map_Lfilter.
  - by apply NoDup_map_Lfilter.
  - done.
  - auto.
  - auto.
  - intros n Hn (j & E & Hj)%list_elem_of_fmap. apply (H6 n Hn). rewrite E.
    by apply list_elem_of_fmap_2, Hin.
Qed.
Lemma life_filter w p i :
  db_ok w → life (on_jobs (List.filter p) w) i = life w i ∨
    life (on_jobs (List.filter p) w) i = None ∧
    ∃ j, j ∈ node_jobs w ∧ p j = false ∧ life w i = Some (status j).
Proof.
  intros Hok. destruct (List.find (λ j, bool_decide (job_key j = i)) (node_jobs w))
    as [j|] eqn:E; cycle 1.
  { left. unfold life. rewrite E, node_jobs_on_jobs.
    destruct (List.find _ (List.filter _ _)) as [j|] eqn:E'; [|done].
    apply find_some in E' as [[Hj _]%filter_In Hi]. apply (find_none _ _ E) in Hj. congruence. }
  apply find_some in E as [Hj%list_elem_of_In Hi%bool_decide_eq_true]. subst i.
  rewrite (life_Some w j Hok Hj). destruct (p j) eqn:Ep.
  - left. apply life_Some; [by apply db_ok_filter|]. rewrite node_jobs_on_jobs.
    by apply list_elem_of_In, filter_In; split; [apply list_elem_of_In|].
  - right. split; [|by eauto]. unfold life. rewrite node_jobs_on_jobs.
    destruct (List.find _ _) as [j'|] eqn:E'; [|done].
    apply find_some in E' as [[Hj' Hp]%filter_In Hk%bool_decide_eq_true].
    rewrite (job_by_id_unique w j' j Hok (proj2 (list_elem_of_In _ _) Hj') Hj Hk) in Hp.
    congruence.
Qed.
Lemma evolves_delete w p :
  inv w → (∀ j, j ∈ node_jobs w → p j = false → status j ∉ [Completed; Skipped]) →
  evolves w (on_jobs (List.filter p) w).
Proof.
  intros [A B C D] Hp. split; [split|].
  - by apply db_ok_filter.
  - intros j. rewrite node_jobs_on_jobs, list_elem_of_In, filter_In. intros [Hj _].
    by apply B, list_elem_of_In.
  - by destruct w.
  - by destruct w.
  - intros i. destruct (life_filter w p i A) as [->|(-> & j & Hj & Hf & ->)]; [done|].
    apply rtc_once, life_dropped, (Hp j Hj Hf).
Qed.

(** An INSERT of one row that is queued or skipped. *)
Lemma life_app w w' j i :
  node_jobs w' = node_jobs w ++ [j] → life w' i =
    match life w i with
    | Some s => Some s
    | None => if bool_decide (job_key j = i) then Some (status j) else None
    end.
Proof.
  intros E. unfold life. rewrite E. clear E. induction (node_jobs w) as [|x l IH]; simpl.
  - by destruct (bool_decide (job_key j = i)).
  - destruct (bool_decide (job_key x = i)); [done|apply IH].
Qed.
Lemma evolves_append w w' js :
  inv w → db_ok w' → dispatch_events w' = dispatch_events w → event_seq w' = event_seq w →
  node_jobs w' = node_jobs w ++ js →
  (js = [] ∨ ∃ j, js = [j] ∧ (status j = Queued ∨ status j = Skipped) ∧ claim_shape (st j)) →
  evolves w w'.
Proof.
  intros [A B C D] Hok He Hs Hj Hjs. split; [split|]; [done| |by rewrite He| |].
  - intros j. rewrite Hj. intros [Hin|Hin]%elem_of_app; [by apply B|].
    destruct Hjs as [->|(j0 & -> & _ & Hsh)]; [by apply elem_of_nil in Hin|].
    by apply list_elem_of_singleton in Hin as ->.
  - intros e. rewrite He, Hs. apply D.
  - intros i. destruct Hjs as [->|(j0 & -> & Hst & _)].
    + rewrite app_nil_r in Hj. unfold life. by rewrite Hj.
    + rewrite (life_app w w' j0 i Hj). destruct (life w i) eqn:E; [done|].
      case_bool_decide; [|done]. by apply rtc_once, life_created.
Qed.

(** An event of the outbox, and updates of one. *)
Lemma evolves_event w e :
  inv w → eid e = event_seq w + 1 →
  evolves w (w |> on_events (λ t, t ++ [e]) |> set_event_seq (event_seq w + 1)).
Proof.
  intros [A B C D] Hi. split; [split|].
  - by eapply db_ok_same; [..|exact A]; destruct w.
  - intros j Hj. apply B. by destruct w.
  - destruct w; simpl in *. rewrite map_app. apply NoDup_app. split_and!; [done| |].
    + intros i (e0 & -> & He0)%list_elem_of_fmap Hs%list_elem_of_singleton.
      specialize (D e0 He0). lia.
    + apply NoDup_singleton.
  - intros e0. destruct w; simpl in *. intros [H|H]%elem_of_app.
    + specialize (D e0 H). lia.
    + apply list_elem_of_singleton in H as ->. lia.
  - intros i. by destruct w.
Qed.
Lemma evolves_update_events w p f :
  inv w → (∀ e, eid (f e) = eid e) → evolves w (on_events (update_where p f) w).
Proof.
  intros [A B C D] Hf. split; [split|].
  - by eapply db_ok_same; [..|exact A]; destruct w.
  - intros j Hj. apply B. by destruct w.
  - destruct w; simpl in *. by rewrite update_where_map.
  - intros e. destruct w; simpl in *. intros (e0 & He0 & ->)%elem_of_update_where.
    destruct (p e0); [rewrite Hf|]; auto.
  - intros i. by destruct w.
Qed.

(** A new run. *)
Lemma evolves_insert_run w r :
  inv w → (∀ x, x ∈ runs w → rid x ≠ rid r) → evolves w (on_runs (λ t, t ++ [r]) w).
Proof.
  intros [[H1 H2 H3 H4 H5 H6] B C D] Hr. split; [split|].
  - split; rewrite ?node_jobs_on_runs; [done..| | |done|].
    + rewrite runs_on_runs, map_app. apply NoDup_app. split_and!; [done| |apply NoDup_singleton].
      intros i (x & -> & Hx)%list_elem_of_fmap Hi%list_elem_of_singleton. by apply (Hr x).
    + intros j (x & Hx & E)%H4. exists x. rewrite runs_on_runs. split; [|done].
      apply elem_of_app. by left.
    + by destruct w.
  - intros j Hj. apply B. by destruct w.
  - by destruct w.
  - by destruct w.
  - intros i. by destruct w.
Qed.
End evolution.

(** ** Safe programs

    The rules of the monad, then one lemma per operation. *)

Section safe_rules.
Context {A B : Type}.

Lemma safe_ret (a : A) : safe (mret a).
Proof. intros w. apply evolves_refl. Qed.
Lemma safe_raise e : safe (raise (A := A) e).
Proof. intros w. apply evolves_refl. Qed.
Lemma safe_lift (r : result A) : safe (lift r).
Proof. intros w. apply evolves_refl. Qed.
Lemma safe_gets (q : world → A) : safe (gets q).
Proof. intros w. apply evolves_refl. Qed.
Lemma safe_bind (m : M A) (f : A → M B) : safe m → (∀ a, safe (f a)) → safe (m ≫= f).
Proof.
  intros Hm Hf w Hw. unfold mbind, M_bind. pose proof (Hm w Hw) as H.
  destruct (m w) as [[a|e] w1]; [|done]. eapply evolves_trans; [done|]. apply Hf, H.
Qed.
Lemma safe_fmap (f : A → B) (m : M A) : safe m → safe (f <$> m).
Proof.
  intros Hm w Hw. unfold fmap, M_fmap. pose proof (Hm w Hw). by destruct (m w) as [[a|e] w1].
Qed.
Lemma safe_try (m : M A) h : safe m → (∀ e k, h e = Some k → safe k) → safe (try_except m h).
Proof.
  intros Hm Hh w Hw. unfold try_except. pose proof (Hm w Hw) as H.
  destruct (m w) as [[a|e] w1]; [done|]. destruct (h e) as [k|] eqn:E; [|done].
  eapply evolves_trans; [done|]. apply (Hh e k E), H.
Qed.
Lemma safe_transaction (m : M A) : safe m → safe (transaction m).
Proof.
  intros Hm w Hw. unfold transaction. pose proof (Hm w Hw).
  destruct (m w) as [[a|e] w1]; [done|by apply evolves_refl].
Qed.
Lemma safe_forM (l : list A) (f : A → M ()) : (∀ x, x ∈ l → safe (f x)) → safe (forM l f).
Proof.
  induction l as [|x l IH]; intros Hf; [intros w; apply evolves_refl|]. cbn [forM].
  intros w Hw. unfold mbind, M_bind. pose proof (Hf x ltac:(left) w Hw) as H.
  destruct (f x w) as [[a|e] w1]; [|done]. eapply evolves_trans; [done|].
  apply IH; [|apply H]. intros y Hy. apply Hf. by right.
Qed.
End safe_rules.

Create HintDb safe discriminated.
#[local] Hint Resolve safe_ret safe_raise safe_lift safe_gets safe_fmap safe_transaction : safe.

(** The syntax-directed part of a safety proof. *)
Ltac safe_step :=
  lazymatch goal with
  | |- safe (mbind _ _) => apply safe_bind; [|intro]
  | |- safe (match ?x with _ => _ end) => destruct x
  | |- safe (forM _ _) => apply safe_forM; intros ? _
  | |- safe (try_except _ _) => apply safe_try; [|intros ? ? [= <-]]
  | |- safe (transaction _) => apply safe_transaction
  | |- safe (fmap _ _) => apply safe_fmap
  end.
Ltac solve_safe := intros; repeat safe_step; auto with safe.

(** *** The node queue *)

Section safe_queue.
Context `{PyEnv} `{QueueConfig}.
Implicit Types (w : world) (j : node_job).

Lemma live_nonterminal s : not_terminal s = true → status s ∉ [Completed; Failed; Cancelled].
Proof. unfold not_terminal. intros Hn. by split_bool. Qed.
Lemma status_is x s : has_status x s = true → status s = x.
Proof. unfold has_status. intros Hs. by split_bool. Qed.

(** An UPDATE whose WHERE and SET may read the world. *)
Lemma safe_update {A} (res : world → result A) (p : world → node_job → bool)
    (g : world → node_job → node_job) :
  (∀ w j, spec (g w j) = spec j) →
  (∀ w j, db_ok w → j ∈ node_jobs w → claim_shape (st j) → p w j = true →
     claim_shape (st (g w j)) ∧ rtc life_step (Some (status j)) (Some (status (g w j)))) →
  safe (λ w, (res w, on_jobs (update_where (p w) (g w)) w)).
Proof.
  intros Hg Hp w Hw. apply evolves_update; [done..|]. intros j Hj Hpj.
  apply Hp; [apply Hw|done|by apply Hw|done].
Qed.

Lemma safe_update_job i g f :
  (∀ now s, g s = true → claim_shape s →
     claim_shape (f now s) ∧ rtc life_step (Some (status s)) (Some (status (f now s)))) →
  safe (update_job i g f).
Proof.
  intros Hf. apply (safe_update _ (λ w, is_job i g) (λ w, upd (f (clock w)))); [done|].
  intros w j _ _ Hs Hp. apply Hf; [|done]. unfold is_job in Hp. by split_bool.
Qed.

Lemma shape_other s : status s ≠ Queued → status s ≠ Running → claim_shape s.
Proof. by split. Qed.

Lemma safe_prioritize i : safe (prioritize_node_job i).
Proof. apply safe_update_job. intros now s _ Hs. by destruct s. Qed.
Lemma safe_mark_completed i delta secs rss : safe (mark_completed i delta secs rss).
Proof.
  apply safe_update_job. intros now s Hn%live_nonterminal _. destruct s; split; [by split|].
  apply rtc_once, life_settled; [done|by left].
Qed.
Lemma safe_mark_failed i err secs : safe (mark_failed i err secs).
Proof.
  apply safe_update_job. intros now s Hn%live_nonterminal _. destruct s; split; [by split|].
  apply rtc_once, life_settled; [done|by right].
Qed.
Lemma safe_mark_awaiting i : safe (mark_awaiting_input i).
Proof.
  apply safe_update_job. intros now s Hn%live_nonterminal _. destruct s; split; [by split|].
  by apply rtc_once, life_parked.
Qed.
Lemma safe_retry i : safe (requeue_job_for_retry i).
Proof.
  apply safe_update_job. intros now s Hs%status_is _. destruct s; simpl in *; subst.
  split; [by split|]. apply rtc_once, life_requeued.
Qed.
Lemma safe_restamp i k : safe (restamp_resolved_server i k).
Proof.
  unfold restamp_resolved_server. safe_step; [auto with safe|]. safe_step; [|auto with safe].
  apply safe_update_job. intros now s _ Hs. by destruct s.
Qed.
Lemma safe_set_resolved_inputs i d : safe (NodeQueue.set_resolved_inputs i d).
Proof.
  apply safe_bind; [|auto with safe]. apply safe_update_job. intros now s _ Hs. by destruct s.
Qed.
Lemma safe_set_input_spec r n d : safe (NodeQueue.set_input_spec r n d).
Proof.
  apply (safe_update (λ _, Ok ()) (λ _ j, _) (λ _, upd (Schema.set_input_spec d))); [done|].
  intros w j _ _ Hs _. by destruct j as [? []].
Qed.
Lemma safe_cancel_queued r : safe (cancel_queued_jobs_for_run r).
Proof.
  apply (safe_update (λ w, Ok _) (λ _ j, _) (λ w, upd _)); [done|].
  intros w j _ _ _ Hp. split_bool.
  match goal with H : has_status _ _ = true |- _ => apply status_is in H as Hq end.
  destruct j as [? []]; simpl in *; subst. split; [by split|].
  apply rtc_once, life_cancelled. by left.
Qed.
Lemma safe_cancel_orphaned proj : safe (cancel_orphaned_queued_jobs proj).
Proof.
  apply (safe_update (λ w, Ok _) (λ w j, _) (λ w, upd _)); [done|].
  intros w j _ _ _ Hp. split_bool.
  match goal with H : has_status _ _ = true |- _ => apply status_is in H as Hq end.
  destruct j as [? []]; simpl in *; subst. split; [by split|].
  apply rtc_once, life_cancelled. by left.
Qed.
Lemma safe_delete_non_terminal r : safe (delete_non_terminal_jobs_for_run r).
Proof.
  intros w Hw. apply evolves_delete; [done|]. intros j _ Hp. apply negb_false_iff in Hp.
  unfold unsatisfied in Hp. by split_bool.
Qed.

Lemma safe_fresh_row (mk : string → Z → node_job) :
  (∀ i t, job_key (mk i t) = i) →
  (∀ i t, (status (mk i t) = Queued ∨ status (mk i t) = Skipped) ∧ claim_shape (st (mk i t))) →
  safe (i ← fresh_uuid; now ← gets clock; _ ← insert_node_job (mk i now); mret (M := M) i).
Proof.
  intros Hk Hs w Hw. set (m := i ← fresh_uuid; _). destruct (m w) as [res w'] eqn:E. subst m.
  assert (event_seq w' = event_seq w) as Hseq.
  { unfold fresh_uuid, gets, mbind, M_bind, mret, M_ret in E.
    destruct (insert_node_job _ _) as [[u|e] w1] eqn:Hi; injection E as <- <-.
    - apply insert_node_job_ok in Hi as (-> & _). by destruct w.
    - apply insert_node_job_raise in Hi as ->. by destruct w. }
  apply insert_fresh_row in E as (Hok & _ & _ & He & Hj); [|apply Hw|done].
  eapply evolves_append; [done..|]. destruct (is_ok res); [|by left].
  right. eexists. split; [done|]. apply Hs.
Qed.
Lemma safe_enqueue a : safe (enqueue_node_job a).
Proof.
  unfold enqueue_node_job. apply safe_bind; [auto with safe|]. intros c.
  apply (safe_fresh_row (λ i t, enqueue_row a i t c)); destruct c as [[? ?] ?]; [done|].
  intros i t. split; [by left|]. by split; [|intros [=]].
Qed.
Lemma safe_insert_skipped r n pl proj : safe (insert_skipped_job r n pl proj).
Proof.
  apply (safe_fresh_row (λ i t, skipped_row r n pl proj i t)); [done|].
  intros i t. split; [by right|]. split; by intros [=].
Qed.

Lemma safe_dispatch_event r n k : safe (enqueue_dispatch_event_in_txn r n k).
Proof. intros w Hw. by apply (evolves_event w (mkEvent _ r n k None None 0 (clock w))). Qed.
Lemma safe_event_processed i : safe (mark_dispatch_event_processed i).
Proof. intros w Hw. apply evolves_update_events; [done|by intros []]. Qed.
Lemma safe_event_failure i e : safe (record_dispatch_event_failure i e).
Proof. intros w Hw. apply evolves_update_events; [done|by intros []]. Qed.
Lemma safe_node_event e : safe (record_node_event e).
Proof.
  unfold record_node_event, record_node_event_in_txn. safe_step; [|auto with safe].
  intros w Hw. repeat case_match; [by apply evolves_refl..|].
  by apply evolves_frame; [|destruct w..].
Qed.
Lemma safe_prune n : safe (prune_node_events n).
Proof. intros w Hw. by apply evolves_frame; [|destruct w..]. Qed.
End safe_queue.

#[local] Hint Resolve safe_prioritize safe_mark_completed safe_mark_failed safe_mark_awaiting
  safe_retry safe_restamp safe_set_resolved_inputs safe_set_input_spec safe_cancel_queued
  safe_cancel_orphaned safe_delete_non_terminal safe_enqueue safe_insert_skipped
  safe_dispatch_event safe_event_processed safe_event_failure safe_node_event safe_prune : safe.

(** *** Claims and recovery *)

Section safe_claims.
Context `{QueueConfig}.
Implicit Types (w : world) (j : node_job).

Lemma safe_claim_sql c locked cap order stamp mstamp :
  safe (claim_sql c locked cap order stamp mstamp).
Proof.
  intros w Hw. unfold claim_sql.
  destruct (first_by order (candidates w c locked cap)) as [j|] eqn:E; [|by apply evolves_refl].
  apply first_by_elem in E. apply candidates_elem in E as (Hj & Hb & _).
  apply base_terms_queued in Hb. apply evolves_update; [done..|].
  intros x Hx Hk. split_bool.
  assert (x = j) as -> by (apply (job_by_id_unique w); [apply Hw|done..]).
  destruct j as [? []]; simpl in *; subst. split; [split; [by intros [=]|eauto]|].
  apply rtc_once, life_claimed.
Qed.
Lemma safe_claim_cpu lane host lease hp proj box lw free locked :
  safe (claim_next_cpu_job lane host lease hp proj box lw free locked).
Proof. apply safe_claim_sql. Qed.
Lemma safe_claim_download lane host lease hp proj box rcap mc locked :
  safe (claim_next_download_job lane host lease hp proj box rcap mc locked).
Proof. intros w Hw. by apply safe_claim_sql. Qed.
Lemma safe_claim_gpu c g locked : safe (claim_next_gpu_job c g locked).
Proof.
  intros w Hw. unfold claim_next_gpu_job. destruct (cast_error w c g); [by apply evolves_refl|].
  by apply safe_claim_sql.
Qed.

Lemma release_evolves (s : job_state) :
  status s = Running →
  claim_shape (release s) ∧ rtc life_step (Some (status s)) (Some (status (release s))).
Proof.
  intros Hs. destruct s; simpl in *; subst. split; [by split|]. apply rtc_once, life_requeued.
Qed.
Lemma resume_evolves b now (s : job_state) :
  status s = Running →
  claim_shape (resume_or_cancel b now s) ∧
  rtc life_step (Some (status s)) (Some (status (resume_or_cancel b now s))).
Proof.
  intros Hs. split; [apply resume_shape|]. destruct s; simpl in *; subst.
  destruct b; apply rtc_once; [apply life_requeued|apply life_cancelled; by right].
Qed.

(** Every sweep that resumes rows takes running ones only. *)
Lemma safe_resume (p : world → node_job → bool) :
  (∀ w j, p w j = true → status j = Running) → safe (λ w, resume_where (p w) w).
Proof.
  intros Hp. eapply (safe_update (λ w, Ok _) (λ w j, _) (λ w j, _)); [done|].
  intros w j _ _ _ Hq. split_bool. by apply resume_evolves, (Hp w).
Qed.
Lemma safe_reclaim_expired : safe reclaim_expired_leases.
Proof.
  apply (safe_resume (λ w j, lease_lapsed (clock w) (st j))). unfold lease_lapsed.
  intros w j Hl. split_bool. by apply status_is.
Qed.
Lemma safe_frozen i l : safe (requeue_running_if_lease_frozen i l).
Proof.
  apply safe_bind; [|auto with safe]. apply (safe_resume (λ _, _)). intros _ j Hp.
  unfold is_job in Hp. split_bool. by apply status_is.
Qed.
Lemma safe_over_claimed i : safe (requeue_over_claimed_running i).
Proof.
  apply safe_bind; [|auto with safe]. apply (safe_resume (λ _, _)). intros _ j Hp.
  unfold is_job in Hp. split_bool. by apply status_is.
Qed.
Lemma safe_reap q : safe (reap_over_claimed_boxes q).
Proof.
  assert (∀ l, safe (reap_ids l)) as Hl.
  { induction l as [|i l IH]; [apply safe_ret|]. cbn [reap_ids].
    apply safe_bind; [apply safe_over_claimed|]. intros n.
    apply safe_bind; [exact IH|auto with safe]. }
  intros w Hw. by apply Hl.
Qed.
Lemma safe_reclaim_all proj : safe (reclaim_all_running_for_resume proj).
Proof.
  eapply (safe_update (λ w, Ok _) (λ w j, _) (λ w, upd release)); [done|].
  intros w j _ _ _ Hp. split_bool. by apply release_evolves, status_is.
Qed.

(** What touches neither the jobs nor the outbox nor the runs. *)
Lemma safe_beside {A} (res : world → result A) (f : world → world) :
  (∀ w, node_jobs (f w) = node_jobs w ∧ dispatch_events (f w) = dispatch_events w ∧
        event_seq (f w) = event_seq w ∧ uuids (f w) = uuids w ∧ runs (f w) = runs w) →
  safe (λ w, (res w, f w)).
Proof.
  intros Hf w Hw. destruct (Hf w) as (? & ? & ? & ? & Hr).
  apply evolves_frame; [done..|]. by apply (f_equal (map rid)).
Qed.
Lemma safe_release_owned host q proj pj pi : safe (release_owned host q proj pj pi).
Proof.
  unfold release_owned. destruct (bool_decide _).
  - apply (safe_beside (λ w, Ok _)). by intros [].
  - eapply (safe_update (λ w, Ok _) (λ w j, _) (λ w, upd release_front)); [done|].
    intros w j _ _ _ Hp. unfold owned in Hp. split_bool.
    destruct (release_evolves (st j)) as [Hs Hl]; [by apply status_is|].
    by destruct j as [? []].
Qed.
Lemma safe_requeue_for_worker host q proj : safe (requeue_running_for_worker host q proj).
Proof. apply safe_release_owned. Qed.
Lemma safe_requeue_job i host q proj seen : safe (requeue_running_job i host q proj seen).
Proof. apply safe_release_owned. Qed.
Lemma safe_requeue_if_stale host q proj s : safe (requeue_running_if_worker_stale host q proj s).
Proof. intros w Hw. by apply safe_release_owned. Qed.
Lemma safe_heartbeat host q conc m known srv vram fits upd proj ctx :
  safe (upsert_worker_heartbeat host q conc m known srv vram fits upd proj ctx).
Proof. apply (safe_beside (λ _, Ok ())). by intros []. Qed.
Lemma safe_clear_model host q stale proj : safe (clear_worker_current_model host q stale proj).
Proof. apply (safe_beside (λ w, Ok _)). by intros []. Qed.
Lemma safe_flag_stale s proj : safe (flag_stale_workers_holding_running_jobs s proj).
Proof. apply (safe_beside (λ w, Ok _)). by intros []. Qed.

Lemma safe_flag_sweep (c f : world → node_job → bool) r :
  safe (λ w, flag_sweep (c w) (f w) (r w) w).
Proof.
  intros w Hw. unfold flag_sweep.
  assert (evolves w (on_jobs (update_where (c w) (upd unflag)) w)) as Hc.
  { apply evolves_update; [done..|]. intros j Hj _. pose proof (inv_shape _ Hw j Hj) as Hs.
    by destruct j as [? []]. }
  eapply evolves_trans; [exact Hc|]. apply evolves_update; [apply Hc|done|].
  intros j Hj _. pose proof (inv_shape _ (ev_inv _ _ Hc) j Hj) as Hs. by destruct j as [? []].
Qed.
Lemma safe_unassignable s proj : safe (flag_unassignable_gpu_jobs s proj).
Proof. apply (safe_flag_sweep (capacity_clear s proj) (capacity_flag s proj)). Qed.
Lemma safe_stranded s proj : safe (flag_server_stranded_jobs s proj).
Proof. apply (safe_flag_sweep (stranded_clear s proj) (stranded_flag s proj) (λ _, _)). Qed.
End safe_claims.

#[local] Hint Resolve safe_claim_cpu safe_claim_download safe_claim_gpu safe_reclaim_expired
  safe_frozen safe_reap safe_reclaim_all safe_requeue_for_worker safe_requeue_job
  safe_requeue_if_stale safe_heartbeat safe_clear_model safe_flag_stale safe_unassignable
  safe_stranded : safe.

(** *** Runs and the ingest queue *)

Section safe_runs.
Context `{QueueConfig}.
Implicit Types (w : world) (r : run).

Lemma safe_on_runs {A} (res : world → result A) (p : world → run → bool) (f : world → run → run) :
  (∀ w r, rid (f w r) = rid r) → safe (λ w, (res w, on_runs (update_where (p w) (f w)) w)).
Proof.
  intros Hf w Hw. apply evolves_frame; [done|by destruct w..|].
  simpl. rewrite runs_on_runs. by apply update_where_map.
Qed.
Lemma safe_update_run_where i g f :
  (∀ now r, rid (f now r) = rid r) → safe (update_run_where i g f).
Proof. intros Hf. apply (safe_on_runs (λ w, Ok _) (λ w r, _) (λ w, f (clock w))). auto. Qed.
Lemma safe_update_run i fields : safe (update_run i fields).
Proof.
  intros w Hw. unfold update_run. destruct fields as [|f fs]; [by apply evolves_refl|].
  destruct (negb (forallb updatable _)); [by apply evolves_refl|].
  destruct (_ && _); [by apply evolves_refl|].
  apply safe_update_run_where; [|done]. intros now r.
  rewrite <- (set_fields_rid (f :: fs) r). by destruct (foldl _ r (f :: fs)).
Qed.
Lemma safe_mark_running i : safe (mark_run_running_if_expanded i).
Proof.
  intros w Hw. apply (safe_fmap is_not_null (update_run_where i _ _)); [|done].
  apply safe_update_run_where. by intros now [].
Qed.
Lemma safe_insert_run i wf dir s prio md ctx proj : safe (insert_run i wf dir s prio md ctx proj).
Proof.
  intros w Hw. unfold insert_run. destruct (negb _); [by apply evolves_refl|].
  destruct (exists_row _ _) eqn:E; [by apply evolves_refl|].
  apply evolves_insert_run; [done|]. intros x Hx. rewrite exists_row_false in E.
  specialize (E x Hx). by split_bool.
Qed.
Lemma safe_reenqueue proj : safe (reenqueue_running_for_resume proj).
Proof.
  intros w Hw. unfold reenqueue_running_for_resume. destruct (forallb _ _); [|by apply evolves_refl].
  apply (safe_on_runs (λ w, Ok _) (λ w r, _) (λ w r, _)); [by intros ? []|done].
Qed.
Lemma safe_claim_run locked : safe (claim_next_queued locked).
Proof.
  intros w Hw. unfold claim_next_queued. destruct (first_by _ _); [|by apply evolves_refl].
  apply safe_update_run_where; [by intros now []|done].
Qed.

Lemma safe_uuid : safe fresh_uuid.
Proof.
  intros w [[H1 H2 H3 H4 H5 H6] B C D]. destruct w; simpl in *. split; [split|]; simpl; [|done..].
  split; simpl; [done..|]. intros n Hn. apply H6. simpl. lia.
Qed.
Lemma safe_update_ingest i g f : safe (update_ingest i g f).
Proof. apply (safe_beside (λ w, Ok _)). by intros []. Qed.
Lemma safe_enqueue_ingest t q why prio a proj : safe (enqueue_ingest_job t q why prio a proj).
Proof.
  unfold enqueue_ingest_job. solve_safe.
  - apply safe_uuid.
  - apply (safe_beside (λ _, Ok ())). by intros [].
Qed.
Lemma safe_claim_ingest q host lease proj locked :
  safe (claim_next_ingest_job q host lease proj locked).
Proof.
  intros w Hw. unfold claim_next_ingest_job. destruct (first_by _ _); [|by apply evolves_refl].
  by apply safe_update_ingest.
Qed.
Lemma safe_renew_ingest i host lease : safe (renew_ingest_lease i host lease).
Proof. apply safe_fmap, safe_update_ingest. Qed.
Lemma safe_reclaim_ingest : safe reclaim_expired_ingest_leases.
Proof. apply (safe_beside (λ w, Ok _)). by intros []. Qed.
Lemma safe_execute_ingest `{IngestHost} job : safe (execute_ingest_job job).
Proof. unfold execute_ingest_job. solve_safe; apply safe_update_ingest. Qed.
Lemma safe_enqueue_due l why : safe (enqueue_due l why).
Proof.
  induction l as [|e l IH]; [apply safe_ret|]. cbn [enqueue_due].
  apply safe_bind; [apply safe_enqueue_ingest|]. intros i.
  apply safe_bind; [exact IH|auto with safe].
Qed.
Lemma safe_ticker l now wake : safe (ticker_round l now wake).
Proof. unfold ticker_round. solve_safe. apply safe_enqueue_due. Qed.
End safe_runs.

#[local] Hint Resolve safe_update_run safe_mark_running safe_insert_run safe_reenqueue
  safe_claim_run safe_uuid safe_enqueue_ingest safe_claim_ingest safe_renew_ingest
  safe_reclaim_ingest safe_execute_ingest safe_enqueue_due safe_ticker : safe.

(** *** The dispatcher, the executor and the orchestrator *)

Section safe_engine.
Context `{PyEnv} `{QueueConfig} `{DispatchConfig} `{SpecDisk} `{PoolConfig} `{Worker}.
Implicit Types (w : world) (j : node_job).

Lemma safe_fail_run i e : safe (fail_run i e).
Proof. intros w Hw. unfold fail_run. apply safe_bind; auto with safe. Qed.
Lemma safe_complete_run i : safe (complete_run i).
Proof. intros w Hw. unfold complete_run. apply safe_bind; auto with safe. Qed.
Lemma safe_get_run i : safe (get_run i).
Proof. apply safe_gets. Qed.
Lemma safe_jobs i : safe (_jobs_by_node_id i).
Proof. apply safe_gets. Qed.
Lemma safe_ref_context r : safe (_ref_context r).
Proof. intros w Hw. rewrite ref_context_world. by apply evolves_refl. Qed.
#[local] Hint Resolve safe_fail_run safe_complete_run safe_get_run safe_jobs safe_ref_context
  : safe.

Lemma safe_enqueue_node i n r : safe (_enqueue i n r).
Proof. unfold _enqueue. solve_safe. Qed.
#[local] Hint Resolve safe_enqueue_node : safe.
Lemma safe_process_ready_loop fuel i wf r : safe (process_ready_loop fuel i wf r).
Proof.
  induction fuel as [|n IH]; [apply safe_ret|]. cbn [process_ready_loop]. unfold dispatch_node.
  solve_safe.
Qed.
#[local] Hint Resolve safe_process_ready_loop : safe.
Lemma safe_process_ready i wf r : safe (_process_ready i wf r).
Proof. unfold _process_ready. solve_safe. Qed.
#[local] Hint Resolve safe_process_ready : safe.
Lemma safe_start_run i : safe (start_run i).
Proof. unfold start_run. solve_safe. Qed.
Lemma safe_bump i t fields : safe (_bump_input_spec i t fields).
Proof. unfold _bump_input_spec. solve_safe. Qed.
#[local] Hint Resolve safe_start_run safe_bump : safe.
Lemma safe_advance i r : safe (advance_run i r).
Proof. unfold advance_run. solve_safe. Qed.
Lemma safe_finish_patch r job meta : safe (_finish_patch_job r job meta).
Proof. intros w Hw. unfold _finish_patch_job. apply safe_bind; [auto with safe| |done].
  intros jobs. apply safe_bind; auto with safe.
Qed.
#[local] Hint Resolve safe_advance safe_finish_patch : safe.
Lemma safe_completed i n : safe (on_node_completed i n).
Proof. unfold on_node_completed. solve_safe. Qed.
Lemma safe_failed i n : safe (on_node_failed i n).
Proof. unfold on_node_failed, _flag_patch_error. solve_safe. Qed.
Lemma safe_awaiting i n : safe (on_node_awaiting_input i n).
Proof. unfold on_node_awaiting_input, _build_input_spec. solve_safe. Qed.
#[local] Hint Resolve safe_completed safe_failed safe_awaiting : safe.
Lemma safe_reconcile i : safe (reconcile_run i).
Proof. unfold reconcile_run, reconcile_stuck, unwedge_run, set_run_running. solve_safe. Qed.
Lemma safe_resume_input i n v : safe (resume_after_input i n v).
Proof. unfold resume_after_input. solve_safe. Qed.
#[local] Hint Resolve safe_reconcile safe_resume_input : safe.

Lemma safe_event_base job t secs err det : safe (_event_base job t secs err det).
Proof. intros w Hw. by apply safe_node_event. Qed.
#[local] Hint Resolve safe_event_base : safe.
Lemma safe_mark_and_dispatch job m k : safe m → safe (mark_and_dispatch job m k).
Proof. intros Hm. unfold mark_and_dispatch. solve_safe. Qed.
Lemma safe_finalise_completed job delta det : safe (_finalise_completed job delta det).
Proof.
  unfold _finalise_completed. apply safe_bind; [|solve_safe].
  apply safe_mark_and_dispatch, safe_mark_completed.
Qed.
Lemma safe_finalise_failed job err : safe (_finalise_failed job err).
Proof.
  unfold _finalise_failed. apply safe_bind; [|solve_safe].
  apply safe_mark_and_dispatch, safe_mark_failed.
Qed.
#[local] Hint Resolve safe_finalise_completed safe_finalise_failed : safe.
Lemma safe_execute job : safe (execute_node job).
Proof.
  assert (∀ short err, safe (end_with_error job short err)) as He
    by (intros; unfold end_with_error, _requeue_for_transient_gpu; solve_safe).
  unfold execute_node, execute_loaded, resolve_and_invoke, invoke_and_finalise,
    find_completed_duplicate.
  assert (safe (resolve_inputs_for_job (Some job))) as Hr
    by (unfold resolve_inputs_for_job; solve_safe).
  solve_safe.
Qed.
#[local] Hint Resolve safe_execute : safe.

(** The guards of a worker. *)
Section safe_guards.
Context `{GuardConfig}.
Lemma safe_emit_event i t host q err det row : safe (_emit_node_event i t host q err det row).
Proof.
  assert (∀ r, safe (record_for_row i t host q err det r)) as Hr
    by (intros r w Hw; by apply safe_node_event).
  unfold _emit_node_event, get_node_job. solve_safe.
Qed.
Lemma safe_ghost host q : safe (_clear_busy_ghost host q).
Proof. unfold _clear_busy_ghost. solve_safe. Qed.
#[local] Hint Resolve safe_emit_event safe_ghost : safe.
Lemma safe_renew_once table i host lease : safe (_renew_once table i host lease).
Proof.
  unfold _renew_once. solve_safe. apply safe_update_job. intros now s Hg Hs.
  apply andb_true_iff in Hg as [_ Hr%status_is]. destruct s; simpl in *; subst.
  split; [|done]. split; [done|]. intros _. split; [eauto|by apply Hs].
Qed.
Lemma safe_fail_job table i err host q : safe (fail_job table i err host q).
Proof.
  unfold fail_job. destruct table; solve_safe; first [apply safe_mark_failed|apply safe_update_ingest].
Qed.
Lemma safe_trip table i err label hook code host q :
  (∀ c, safe (hook c)) → safe (_watchdog_trip table i err label hook code host q).
Proof.
  intros Hh. pose proof safe_fail_job.
  unfold _watchdog_trip, _fail_job_and_exit, _requeue_job_and_exit, requeue_job, get_node_job.
  solve_safe.
Qed.
Lemma safe_inline_claim `{WorkerEnv} v locked : safe (claim_inline v locked).
Proof. unfold claim_inline. solve_safe. Qed.
Lemma safe_pool_claim `{WorkerEnv} v locked : safe (_claim_pool v locked).
Proof. unfold _claim_pool, _reservation_queued_here, cluster_reservation_for. solve_safe. Qed.
Lemma safe_threaded_claim v tok locked submits l : safe (_claim_threaded v tok locked submits l).
Proof. unfold _claim_threaded, claim_cpu. solve_safe. Qed.
Lemma safe_sweep host q i l code : safe (_sweep_then_exit host q i l os_exit code).
Proof. unfold _sweep_then_exit, release_sibling. solve_safe. Qed.
Lemma safe_control_stop host q : safe (requeue_inflight_for_control host q).
Proof. unfold requeue_inflight_for_control. solve_safe. Qed.
Lemma safe_status_poll i host hook code :
  (∀ c, safe (hook c)) → safe (job_status_poll i host hook code).
Proof. intros Hh. unfold job_status_poll, get_node_job. solve_safe. Qed.
Lemma safe_park job : safe (park_input_node job).
Proof. unfold park_input_node. solve_safe. Qed.
Lemma safe_watchdog_poll table i secs deadline now code host q :
  safe (watchdog_poll table i secs deadline now os_exit code host q).
Proof. unfold watchdog_poll, budget_trip. solve_safe. apply safe_trip. intro. apply safe_ret. Qed.
Lemma safe_stall_poll c table i code host q d now later r :
  safe (stall_poll c table i os_exit code host q d now later r).
Proof.
  unfold stall_poll, stall_trip, _confirm_wedged. solve_safe; apply safe_trip; intro; apply safe_ret.
Qed.
Lemma safe_health_poll c table i code host q t s :
  safe (health_poll c table i os_exit code host q t s).
Proof. unfold health_poll, health_trip. solve_safe. apply safe_trip. intro. apply safe_ret. Qed.
End safe_guards.

Lemma safe_drain locked : safe (_drain_dispatch_events locked).
Proof.
  assert (∀ e, safe (callback e)) as Hc by (intros e; unfold callback; solve_safe).
  assert (∀ e, safe (handle_event e)) as Hh.
  { intros e w Hw. unfold handle_event. pose proof (Hc e w Hw) as H5.
    destruct (callback e w) as [[u|x] w1]; (eapply evolves_trans; [exact H5|]).
    - apply safe_event_processed, H5.
    - apply safe_bind; [auto with safe| |apply H5]. intros _. unfold poison_event.
      solve_safe. apply safe_update_run_where. by intros now []. }
  intros w Hw. by apply safe_forM.
Qed.

(** A part of the tick, which also has the pool's own state. *)
Definition safe_part (s : NodePool.step) : Prop := ∀ p w, inv w → evolves w (s p w).2.
Lemma safe_gated {A} now last stamp interval (m : M A) :
  safe m → safe_part (gated now last stamp interval m).
Proof.
  intros Hm p w Hw. unfold gated. pose proof (Hm w Hw).
  destruct (due _ _ _); [|by apply evolves_refl]. by destruct (m w) as [[a|e] w1].
Qed.
Lemma safe_on_world m : safe m → safe_part (on_world m).
Proof. intros Hm p w Hw. unfold on_world. pose proof (Hm w Hw). by destruct (m w). Qed.
Lemma safe_idle : safe_part (λ p w, (Ok (), p, w)).
Proof. intros p w. apply evolves_refl. Qed.
Lemma safe_sweep_frozen now : safe_part (_sweep_frozen_leases now).
Proof.
  assert (∀ l s w, inv w → evolves w (reclaim_frozen l s w).2) as Hl.
  { induction l as [|[i lease] l IH]; intros s w Hw; cbn [reclaim_frozen];
      [by apply evolves_refl|].
    pose proof (safe_frozen i lease w Hw) as H5.
    destruct (requeue_running_if_lease_frozen i lease w) as [[n|e] w1];
      (eapply evolves_trans; [exact H5|apply IH, H5]). }
  intros p w Hw. unfold _sweep_frozen_leases.
  destruct (due _ _ _); [|by apply evolves_refl]. unfold running_lease_snapshot, gets.
  destruct (detect_frozen_leases _ _ _ _) as [l s]. pose proof (Hl l s w Hw) as Hr.
  by destruct (reclaim_frozen l s w).
Qed.
Lemma safe_emit f m : safe m → safe (emit f m).
Proof.
  intros Hm. unfold emit. apply safe_bind; [done|]. intros rows. apply safe_forM.
  intros j _ w Hw. by apply safe_node_event.
Qed.
Lemma safe_parts locked now : Forall safe_part (parts_of_tick locked now).
Proof.
  unfold parts_of_tick, _sweep_over_claimed_boxes, _sweep_orphan_queued_jobs.
  repeat apply Forall_cons_2; [..|apply Forall_nil_2]; try (apply safe_gated; auto with safe).
  - apply safe_on_world, safe_drain.
  - apply safe_sweep_frozen.
  - destruct over_claim_disabled; [apply safe_idle|apply safe_gated; auto with safe].
  - destruct (negb _); [apply safe_idle|apply safe_gated; auto with safe].
  - unfold guarded. solve_safe. apply safe_gets.
  - apply safe_emit. auto with safe.
  - apply safe_on_world, safe_emit. auto with safe.
Qed.
Lemma safe_tick locked now : safe_part (_tick locked now).
Proof.
  assert (∀ l, Forall safe_part l → ∀ p w, inv w → evolves w (run_parts l p w).2) as Hl.
  { induction 1 as [|s l Hs _ IH]; intros p w Hw; cbn [run_parts]; [by apply evolves_refl|].
    pose proof (Hs p w Hw) as H5. destruct (s p w) as [[r p1] w1]. simpl in H5.
    eapply evolves_trans; [exact H5|apply IH, H5]. }
  intros p w Hw. unfold _tick.
  assert (safe expand_queued_runs) as He
    by (unfold expand_queued_runs, guarded; solve_safe; apply safe_gets).
  pose proof (He w Hw) as H5. destruct (expand_queued_runs w) as [[u|x] w1]; [|done].
  pose proof (Hl _ (safe_parts locked now) p w1 (ev_inv _ _ H5)) as H6.
  destruct (run_parts _ p w1) as [p' w2]. by eapply evolves_trans.
Qed.
End safe_engine.

(** ** The transition system

    One step is one operation of one process, with whatever arguments; time
    passes between them.  What an operation raises does not matter here: the
    database it leaves does.  The deletion of a whole run is not a step. *)

Section system.
Context `{PyEnv} `{QueueConfig} `{DispatchConfig} `{SpecDisk} `{PoolConfig} `{Worker}
  `{IngestHost} `{GuardConfig} `{WorkerEnv}.

Inductive engine_step : world → world → Prop :=
  (** the clock *)
  | time_passes w t : clock w ≤ t → engine_step w (set_clock t w)
  (** the host: runs and jobs *)
  | run_inserted w i wf dir s prio md ctx proj :
      engine_step w (insert_run i wf dir s prio md ctx proj w).2
  | run_updated w i fields : engine_step w (update_run i fields w).2
  | run_claimed w locked : engine_step w (claim_next_queued locked w).2
  | job_enqueued w a : engine_step w (enqueue_node_job a w).2
  | job_prioritized w i : engine_step w (prioritize_node_job i w).2
  | jobs_cancelled w r : engine_step w (cancel_queued_jobs_for_run r w).2
  | input_submitted w r n v : engine_step w (resume_after_input r n v w).2
  (** a worker: claims, executions, the marks of its watchdogs, its shutdown *)
  | cpu_claim w lane host lease hp proj box lw free locked :
      engine_step w (claim_next_cpu_job lane host lease hp proj box lw free locked w).2
  | download_claim w lane host lease hp proj box rcap mc locked :
      engine_step w (claim_next_download_job lane host lease hp proj box rcap mc locked w).2
  | gpu_claim w c g locked : engine_step w (claim_next_gpu_job c g locked w).2
  | job_executed w job : engine_step w (execute_node job w).2
  | job_parked w i : engine_step w (mark_awaiting_input i w).2
  | job_failed w i err secs : engine_step w (mark_failed i err secs w).2
  | job_retried w i : engine_step w (requeue_job_for_retry i w).2
  | input_parked w job : engine_step w (park_input_node job w).2
  | lease_renewed w table i host lease : engine_step w (_renew_once table i host lease w).2
  | budget_watched w table i secs deadline now code host q :
      engine_step w (watchdog_poll table i secs deadline now os_exit code host q w).2
  | progress_watched w c table i code host q d now later r :
      engine_step w (stall_poll c table i os_exit code host q d now later r w).2
  | health_watched w c table i code host q t s :
      engine_step w (health_poll c table i os_exit code host q t s w).2
  | claim_watched w i host code : engine_step w (job_status_poll i host os_exit code w).2
  | inline_claimed w v locked : engine_step w (claim_inline v locked w).2
  | pool_claimed w v locked : engine_step w (_claim_pool v locked w).2
  | threaded_claim w v tok locked submits l :
      engine_step w (_claim_threaded v tok locked submits l w).2
  | siblings_released w host q i l code :
      engine_step w (_sweep_then_exit host q i l os_exit code w).2
  | control_stop w host q : engine_step w (requeue_inflight_for_control host q w).2
  | server_restamped w i k : engine_step w (restamp_resolved_server i k w).2
  | worker_beats w host q conc m known srv vram fits upd proj ctx :
      engine_step w (upsert_worker_heartbeat host q conc m known srv vram fits upd proj ctx w).2
  | model_cleared w host q stale proj :
      engine_step w (clear_worker_current_model host q stale proj w).2
  | worker_stops w host q proj : engine_step w (requeue_running_for_worker host q proj w).2
  | job_released w i host q proj seen :
      engine_step w (requeue_running_job i host q proj seen w).2
  | stale_worker_released w host q proj s :
      engine_step w (requeue_running_if_worker_stale host q proj s w).2
  (** the ingest family *)
  | ingest_enqueued w t q why prio a proj :
      engine_step w (enqueue_ingest_job t q why prio a proj w).2
  | ingest_claimed w q host lease proj locked :
      engine_step w (claim_next_ingest_job q host lease proj locked w).2
  | ingest_renewed w i host lease : engine_step w (renew_ingest_lease i host lease w).2
  | ingest_executed w job : engine_step w (execute_ingest_job job w).2
  | ticker_fires w l now wake : engine_step w (ticker_round l now wake w).2
  (** the orchestrator *)
  | tick w p locked now : engine_step w (_tick locked now p w).2
  | startup_reclaim w proj : engine_step w (reclaim_all_running_for_resume proj w).2
  | runs_resumed w proj : engine_step w (reenqueue_running_for_resume proj w).2.

Lemma engine_step_evolves w w' : engine_step w w' → inv w → evolves w w'.
Proof.
  intros Hs Hw. destruct Hs;
    [by apply evolves_frame; [|destruct w..]|try solve [apply safe_tick; done]..];
    match goal with |- evolves _ (?m _).2 => assert (safe m) as Hm; [|by apply Hm] end;
    auto with safe.
  - apply safe_resume_input.
  - apply safe_execute.
  - apply safe_park.
  - apply safe_renew_once.
  - apply safe_watchdog_poll.
  - apply safe_stall_poll.
  - apply safe_health_poll.
  - apply safe_status_poll. intro. apply safe_ret.
  - apply safe_inline_claim.
  - apply safe_pool_claim.
  - apply safe_threaded_claim.
  - apply safe_sweep.
  - apply safe_control_stop.
Qed.

Lemma history_evolves w w' : rtc engine_step w w' → inv w → evolves w w'.
Proof.
  induction 1 as [w|w1 w2 w3 Hs _ IH]; intros Hw; [by apply evolves_refl|].
  pose proof (engine_step_evolves _ _ Hs Hw) as He.
  eapply evolves_trans; [exact He|apply IH, He].
Qed.

Lemma completed_is_final s : rtc life_step (Some Completed) s → s = Some Completed.
Proof.
  assert (∀ x y, rtc life_step x y → x = Some Completed → y = Some Completed) as Hfin; [|by eauto].
  induction 1 as [|x y z Hxy _ IH]; intros E; [done|]. apply IH.
  destruct Hxy; naive_solver set_solver.
Qed.

End system.

(** * Witnesses *)

Module SystemDemo.
(** The database of [DispatchDemo] when its run was just started, and the history
    in which a worker claims the first node, executes it, and the orchestrator
    ticks. *)
#[local] Existing Instance Demo.py.
#[local] Existing Instance Demo.cfg.
#[local] Existing Instance DispatchDemo.dcfg.
#[local] Existing Instance SpecDemo.disk.
#[local] Existing Instance PoolDemo.pool_cfg.
#[local] Existing Instance ExecDemo.worker.
Definition claimed : world :=
  (claim_next_cpu_job 0 (Some "h1") 600 0 None None None None [] DispatchDemo.started).2.
Definition executed : world := (execute_node (Demo.first claimed) claimed).2.
Definition idle_pool : pool := mkPool 0 0 0 0 0 0 ∅ 0 0 0.
Definition ticked : world := (_tick [] 0 idle_pool executed).2.

Lemma started_inv : inv DispatchDemo.started.
Proof.
  split; [exact DispatchDemo.started_ok| |apply NoDup_nil_2|].
  - intros j Hj. vm_compute in Hj. apply list_elem_of_singleton in Hj as ->.
    by split; [|intros [=]].
  - intros e He. by apply elem_of_nil in He.
Qed.
End SystemDemo.

